(* ===== verification/_CoqProject ===== *)
-Q . S2P
Prelude.v
Coding.v
Crc32c.v
BlobFormat.v
BitMap.v
BlobFileMeta.v
Options.v
TitanStats.v
VersionEdit.v
BlobStorage.v
BlobStorageProofs.v
BlobStorageSpec.v
EditCollector.v
EditCollectorProofs.v
BlobFileSet.v
BlobFileSetProofs.v
BlobFileSetSpec.v
GCPicker.v
Collectors.v
CollectorsProofs.v
GCStats.v
GCStatsProofs.v
GCStatsSpec.v
LiveSizes.v
LiveSizesSpec.v
GCScheduler.v
GCSchedulerProofs.v
GCSchedulerSpec.v
Database.v
DatabaseSpec.v
DatabaseExample.v
DatabaseEvents.v
DatabaseEventsSpec.v
BlobFileBuilder.v
BlobFileBuilderProofs.v
BlobFileReader.v
BlobFileReaderProofs.v
BlobFileIterator.v
BlobFileIteratorProofs.v
BlobFileMergeProofs.v
BlobFileSpec.v
WriteBack.v
WriteBackSpec.v
InternalKey.v
BlobStorageRead.v
GCJob.v
GCJobRun.v
GCJobProofs.v
GCJobBitmaps.v
GCJobSpec.v
GCJobExample.v
DBFiles.v
DBFilesProofs.v
Checkpoint.v
CheckpointProofs.v
CheckpointSpec.v
DBRead.v
DBReadSpec.v
DBIter.v
DBIterSpec.v
CompactionFilter.v
CompactionFilterSpec.v
TableBuilder.v
TableBuilderProofs.v
TableBuilderSpec.v
TableBuilderExample.v
CheckpointExample.v
DBReadExample.v
DBIterExample.v
CompactionFilterExample.v
HwKernel.v
HwKernelProofs.v
HwDriver.v
HwDriverProofs.v
HwGC.v
HwJob.v
HwJobSpec.v
BackgroundGC.v
BackgroundGCSpec.v
BackgroundGCExample.v
