(* ===== verification/Prelude.v ===== *)
(** * AegonKV: a verification library (root file)

    AegonKV is a key-value store on RocksDB that keeps large values in blob
    files, apart from the keys (the Titan plugin, [src/]), and that can run the
    garbage collection of these files on an FPGA ([hardware/]). This library
    models the part of it that decides what a read returns and which files
    exist, and proves what each part promises to the others. Paths below are
    under [src/AegonKV/]; [lib/] is the RocksDB that is bundled with it.

    ** The program and how its parts interact

    A flush or a compaction builds an SST file through a table builder. It
    writes large values to a blob file and keeps an index (file, offset, size,
    number of the record) in their place; small values stay. Table property
    collectors sum up, per blob file, what the entries of the SST file refer to.
    The new blob files are announced in a version edit, which the set of blob
    files applies to the storages of the column families and appends to its own
    manifest; after a crash the manifest is read back. When flushes and
    compactions complete, listeners compare the properties of the SST files that
    came and went, and update the live size of each blob file and the bitmap of
    its invalid records. The storage sorts its files by the share of garbage; a
    scheduler runs background collections; a picker chooses the inputs of one; a
    job reads the inputs, drops the records that the LSM tree does not refer to,
    writes the others to a new blob file and writes the new indexes to the LSM
    tree unless a key has changed. An offloaded job leaves the reading and
    writing of records to the kernel on the card, and writes indexes that carry
    the old location next to the new one; the memtables, the flush and the
    compaction iterator of the bundled RocksDB resolve those against the entries
    below them.

    ** Files

    Foundations:
    - [Prelude]: bytes, machine integers, statuses, results, assertions; lists,
      bits, memory; [Coding] ([lib/util/coding.h], [coding.cc], [coding_lean.h]):
      fixed and variable length integers and length-prefixed strings; [Crc32c]
      ([lib/util/crc32c.*] and the table-driven stream of
      [hardware/kernel/src/crc32c.h]).
    - [BlobFormat] ([src/blob_format.*], [lib/table/format.*]): record, handle,
      index, header and footer; [BitMap] and [BlobFileMeta] (the same files): the
      bitmap of invalid records, the metadata and the states of a blob file.
    - [Options] ([include/titan/options.h], [src/options.cc]) with comparators,
      [TitanStats] ([src/titan_stats.*]), [InternalKey] ([lib/db/dbformat.*]).

    The files that exist:
    - [VersionEdit] ([src/version_edit.*]); [BlobStorage], its [Proofs] and
      [Spec] ([src/blob_storage.*]); [EditCollector] and its [Proofs]
      ([src/edit_collector.h]); [BlobFileSet], its [Proofs] and [Spec]
      ([src/blob_file_set.*] and the deletion of files in ranges of
      [src/db_impl.cc]).

    What they hold:
    - [BlobFileBuilder] and its [Proofs], [BlobFileReader] and its [Proofs],
      [BlobFileIterator], its [Proofs] and [BlobFileMergeProofs], and the
      theorems in [BlobFileSpec] ([src/blob_file_builder.*], [blob_file_reader.*],
      [blob_file_cache.*], [blob_file_iterator.*], [util.cc]).
    - [BlobStorageRead] (the reads of [src/blob_storage.cc]); [TableBuilder], its
      [Proofs], [Spec] and [Example] ([src/table_builder.*], [table_factory.cc]).
    - [DBFiles] and its [Proofs]: purging obsolete files ([src/db_impl_files.cc])
      and what a snapshot keeps; [DBRead], its [Spec] and [Example]: [Get],
      [MultiGet] and the refusal of writes after a background error
      ([src/db_impl.cc]); [DBIter], its [Spec] and [Example] ([src/db_iter.h]);
      [CompactionFilter], its [Spec] and [Example] ([src/compaction_filter.h]);
      [Checkpoint], its [Proofs], [Spec] and [Example]
      ([src/titan_checkpoint_impl.*]).
    - [Collectors] and its [Proofs] ([src/blob_file_size_collector.*],
      [blob_validation_collector.*]).
    - [Database], its [Spec] and [Example]: [TitanDBImpl] as a whole, [Open] and
      [Close], column families, options and properties
      ([src/db_impl.cc], [InitializeGC] of [src/db_impl_gc.cc], [src/db.cc]).
    - [DatabaseEvents] and its [Spec]: the events of RocksDB and the deletions of
      ranges at the level of the database ([src/base_db_listener.cc],
      [src/db_impl.cc], the choice of tables of [lib/db/db_impl/db_impl.cc]).

    Garbage collection:
    - [GCStats], its [Proofs] and [Spec]: the listeners of [src/db_impl.cc] and
      [blob_validation_check.*]; [LiveSizes] and its [Spec]: what each of them
      does to a file, and the live sizes under any order of them; [GCPicker] ([src/blob_gc_picker.*], [blob_gc.*]);
      [GCScheduler], its [Proofs] and [Spec] ([src/db_impl_gc.cc], and the drop
      and close of [src/db_impl.cc]).
    - [GCJob], [GCJobRun] (what [DoRunGC] reads and writes), [GCJobProofs] (the
      write-back, the installation of files), [GCJobBitmaps] (the bitmaps of the
      inputs and of the output), [GCJobSpec], [GCJobExample]
      ([src/blob_gc_job.*], the file manager of [src/db_impl.cc]).
    - [WriteBack] and [WriteBackSpec]: linked indexes in
      [lib/db/compaction/compaction_iterator.*], [lib/db/memtable.cc] and
      [lib/db/memtable_list.cc].

    Hardware:
    - [HwKernel] and its [Proofs] ([hardware/kernel/src/]); [HwDriver] and its
      [Proofs] ([src/hadware_gc_driver.*]); [HwGC]: a collection through the
      driver; [HwJob] and [HwJobSpec]: the offloaded job of
      [src/blob_gc_job.cc].
    - [BackgroundGC], its [Spec] and [Example]: a background collection as a
      whole, from the picker to the release of the files ([src/db_impl_gc.cc]).

    ** How code is modelled

    State is passed explicitly: a class is a record of its fields (a field that
    never changes is an argument), a method a function that returns the record
    it leaves. [option] is an assertion, a null pointer, an out of range access
    or a lock that its holder takes again: [None] is the process stopping or
    hanging. [res] is a status with a value ([Ret]) or without ([Fail]). Integers
    are [Z] and wrap where the code's wrap ([u8], [u32], [u64], [i64], [i32]);
    bytes are integers below 256. Pointers to shared metadata are file numbers,
    looked up when they are used.

    What other code does is an argument, constrained by named hypotheses:
    [Comparator] (a total order), [FileLibrary] (compression, dictionaries, the
    block format of RocksDB), [HeapTop] (the priority queue of the merge
    iterator), [InnerIterator] (the iterators of RocksDB), [IO], [CheckpointIO]
    and [Surroundings] (how each call to the file system ends; what other threads
    do to the LSM tree and the blob file set whenever the mutex is not held). Each class and each hypothesis has an instance in an
    example.

    Loops are structural over the lists they walk, or take fuel. The fuel is
    either a constant that no input exceeds (ten rounds of a varint) or
    an argument with a theorem that enough of it gives a result: the records of
    the inputs for a collection ([gc_job_invisible]), the bytes of a record for
    [VersionEdit_DecodeFrom_total], the stream for the kernel
    ([offloaded_gc_correct]).

    ** What is shown

    Each theorem's own comment states its conditions in full; in short:
    - Formats: round trips of every encoding; decoded edits are well typed; the
      checksum of the card is the checksum of the host.
    - Data path: what is put into a blob file is what every reader, iterator and
      cache gives back; a flush or compaction carries every entry into the SST
      file, in every mode, as long as files can be created and written; and what
      becomes of entries when they cannot ([TableBuilderSpec], [BlobFileSpec]).
    - Whole database: opening recovers every live blob file and measures it, holds
      everything or nothing, and does not notice a failed initialisation; a mode is
      set in all places or in none, and nothing else changes.
    - Front end: reads and iterators on a snapshot give what it holds, whatever
      is collected, compacted or purged meanwhile; a purge removes exactly what
      no snapshot needs; what the user's compaction filter gets to see; a
      checkpoint can be opened and holds every blob file, unless one of the
      failures happened that it does not report, and what is left of one that
      fails.
    - Set of files: the storage's indexes, levels and counters agree with its
      files after every operation; an edit is applied as a whole or not at all;
      a crash at any moment recovers the state of the last synced edit; range
      queries and deletions give exactly the files they should.
    - Statistics, without level merge: no record that a table refers to is ever
      marked invalid; what a compaction does to each file; when RocksDB delivers
      the events of flushes, compactions and deletions of ranges in any order, the
      live size of a settled file that no collection has touched is never less
      than what the tables refer to, and once all events have arrived it is that,
      while a deletion of ranges before the creating event may stop at an assertion
      ([LiveSizesSpec]); a deletion of ranges takes away what the tables refer to
      that it collected, which are those that RocksDB deletes unless a compaction
      comes in between.
    - Scheduling: no two jobs share a file, no wake-up is lost; and while nothing
      new is called, nothing is closed and no drop fails, every queued column
      family is handed to the picker and every collection it finds is executed.
    - The job in software ends and is invisible to readers, with and without
      bitmaps, whatever other threads read and write and whichever of its reads,
      writes and syncs fail; this assumes that the inputs can be opened and read,
      that an output that was created takes what is appended and, with bitmaps,
      that nobody removes an input meanwhile, since the job deadlocks otherwise
      ([gone_input_deadlocks]). With the picker before it and the release after it,
      no file stays in use.
    - The offloaded job relocates exactly the valid records, within the limits of
      the card ([gc_input]): files of version 2 without compression, keys of at
      most 64 and values of at most 8192 bytes, no file that is empty or within
      1 MiB below or at a multiple of 128 MiB (the process ends on these), less
      than 4 GiB together, and relocation entries that fit into their buffer, as
      those of keys of at most 27 bytes always do and those of longer keys may not.
    - Linked indexes: the versions of a key stand for what the user wrote last
      through relocations, flushes and compactions of settled versions, and a read
      through the memtable gives it unless the newest version is a write-back that
      came too late; where the conditions fail, [write_back_gaps] says what happens.
    - Errors: the theorems of kind error state behaviour that the code does not
      mean: each has a concrete execution as its witness.

    ** What is not modelled

    - Tools, benchmarks and their adapters ([tools/], [scripts/], [Evaluation/]),
      tests, the OpenCL helper ([src/xcl2.*], [hardware/host/src/xcl2.*]) and the
      stand-alone host program ([hardware/host/]): they call the parts above or
      vendor libraries, and keep no state of the store.
    - The bundled RocksDB, except the functions named above: its memtables, SST
      files, write path and compactions are what the store is built on, not what
      it adds.
    - The rest of the front end ([src/db_impl.cc]): what the threads do that
      purge and print periodically, besides the purge itself. The checkpoint of the base database is RocksDB's.
    - Clocks, tickers, histograms, log messages, I/O statistics, rate limits and
      priorities: they do not change what is read or which files exist. *)
From Stdlib Require Export ZArith Lia.
From stdpp Require Export prelude gmap list strings sorting.

#[export] Set Default Goal Selector "!".
(* [set_solver] clears hypotheses that it has already used. *)
#[export] Set Warnings "-clear-no-such-hyp".

Declare Scope aegon_scope.
Delimit Scope aegon_scope with aegon.

Local Open Scope Z_scope.

(** ** Bytes and machine integers *)

(** A byte is an integer in [0, 256); a [Slice] or [std::string] is a list of
    bytes. *)
Abbreviation bytes := (list Z) (only parsing).

Definition is_byte (b : Z) : Prop := 0 <= b < 256.

Definition is_bytes (bs : bytes) : Prop := Forall is_byte bs.

(** Truncation to the unsigned machine widths. *)
Definition u8 (z : Z) : Z := z mod 2 ^ 8.
Definition u32 (z : Z) : Z := z mod 2 ^ 32.
Definition u64 (z : Z) : Z := z mod 2 ^ 64.

(** [static_cast<int64_t>] of an unsigned 64-bit value. *)
Definition i64 (z : Z) : Z :=
  let m := u64 z in if m <? 2 ^ 63 then m else m - 2 ^ 64.

(** [static_cast<int>] of an unsigned 32-bit value. *)
Definition i32 (z : Z) : Z :=
  let m := u32 z in if m <? 2 ^ 31 then m else m - 2 ^ 32.

Definition is_u32 (z : Z) : Prop := 0 <= z < 2 ^ 32.
Definition is_u64 (z : Z) : Prop := 0 <= z < 2 ^ 64.

(** The size of a byte string, as the [size_t] the code computes with. *)
Definition zlen {A} (l : list A) : Z := Z.of_nat (length l).

(** ** Status

    [rocksdb::Status] without its message text: the code only ever branches on
    the code of a status. *)
Inductive Status : Type :=
  | OK
  | NotFound
  | Corruption
  | NotSupported
  | InvalidArgument
  | IOError
  | Incomplete
  | ShutdownInProgress
  | Aborted
  | Busy.

#[export] Instance Status_eq_dec : EqDecision Status.
Proof. solve_decision. Defined.

Definition ok (s : Status) : bool :=
  match s with OK => true | _ => false end.

(** The result of a function that reports a [Status]: the value of its output
    arguments when the status is OK, the status otherwise. No caller of such a
    function looks at the output arguments after a failure. *)
Inductive res (A : Type) : Type :=
  | Ret (a : A)
  | Fail (s : Status).
Arguments Ret {A} a.
Arguments Fail {A} s.

Definition res_bind {A B} (e : res A) (k : A -> res B) : res B :=
  match e with Ret a => k a | Fail s => Fail s end.

Notation "x '<-?' e ;; k" := (res_bind e (fun x : _ => k))
  (at level 20, e at level 99, k at level 200, only parsing) : aegon_scope.
Notation "' x '<-?' e ;; k" := (res_bind e (fun x : _ => k))
  (at level 20, x pattern, e at level 99, k at level 200, only parsing) : aegon_scope.

(** [if (!Get(src, &x)) return Status::Corruption()]. *)
Definition or_fail {A} (s : Status) (o : option A) : res A :=
  match o with Some a => Ret a | None => Fail s end.

Definition status_of {A} (e : res A) : Status :=
  match e with Ret _ => OK | Fail s => s end.

(** ** Assertions

    [option] carries a debug build's abort: [None] is a failed [assert] or an
    access outside a buffer. *)
Definition assert (b : bool) : option unit := if b then Some tt else None.

(** ** Byte ranges and automation *)

Create HintDb aegon discriminated.
Create Rewrite HintDb zlen.

Lemma is_byte_u8 z : is_byte (u8 z).
Proof. unfold is_byte, u8. apply Z.mod_pos_bound. lia. Qed.

Lemma is_u32_u32 z : is_u32 (u32 z).
Proof. unfold is_u32, u32. apply Z.mod_pos_bound. lia. Qed.

Lemma is_u64_u64 z : is_u64 (u64 z).
Proof. unfold is_u64, u64. apply Z.mod_pos_bound. lia. Qed.

Lemma u8_small z : 0 <= z < 256 -> u8 z = z.
Proof. intros H. unfold u8. apply Z.mod_small. lia. Qed.

Lemma u32_small z : is_u32 z -> u32 z = z.
Proof. intros H. unfold u32. apply Z.mod_small. exact H. Qed.

Lemma u64_small z : is_u64 z -> u64 z = z.
Proof. intros H. unfold u64. apply Z.mod_small. exact H. Qed.

Lemma is_u32_is_u64 z : is_u32 z -> is_u64 z.
Proof. unfold is_u32, is_u64. lia. Qed.

Lemma is_bytes_nil : is_bytes [].
Proof. constructor. Qed.

Lemma is_bytes_cons b bs : is_byte b -> is_bytes bs -> is_bytes (b :: bs).
Proof. intros. by constructor. Qed.

Lemma is_bytes_app a b : is_bytes a -> is_bytes b -> is_bytes (a ++ b).
Proof. intros. by apply Forall_app. Qed.

#[export] Hint Resolve is_byte_u8 is_u32_u32 is_u64_u64 is_u32_is_u64
  is_bytes_nil is_bytes_cons is_bytes_app : aegon.

Lemma zlen_app {A} (a b : list A) : zlen (a ++ b) = zlen a + zlen b.
Proof. unfold zlen. rewrite length_app. lia. Qed.

Lemma zlen_cons {A} (x : A) l : zlen (x :: l) = 1 + zlen l.
Proof. unfold zlen. rewrite length_cons. lia. Qed.

Lemma zlen_nil {A} : zlen (@nil A) = 0.
Proof. reflexivity. Qed.

Lemma zlen_nonneg {A} (l : list A) : 0 <= zlen l.
Proof. unfold zlen. lia. Qed.

Lemma zlen_to_nat {A} (l : list A) : Z.to_nat (zlen l) = length l.
Proof. unfold zlen. lia. Qed.

#[export] Hint Rewrite @zlen_app @zlen_cons @zlen_nil : zlen.

(** Turn every byte-string length into linear arithmetic, and solve. *)
Ltac zlia :=
  autorewrite with zlen in *;
  repeat match goal with
    | |- context [zlen ?l] => lazymatch goal with
        | H : 0 <= zlen l |- _ => fail
        | _ => pose proof (zlen_nonneg l) end
    | _ : context [zlen ?l] |- _ => lazymatch goal with
        | H : 0 <= zlen l |- _ => fail
        | _ => pose proof (zlen_nonneg l) end
    end;
  unfold is_u32, is_u64, is_byte in *; lia.

(** ** Bit operations on disjoint ranges *)

Lemma testbit_above a n i : 0 <= a < 2 ^ n -> n <= i -> Z.testbit a i = false.
Proof.
  intros Ha Hi. destruct (Z.eq_dec a 0) as [->|]; [apply Z.bits_0|].
  apply Z.bits_above_log2; [lia|]. apply Z.log2_lt_pow2; [lia|].
  eapply Z.lt_le_trans; [apply Ha|]. apply Z.pow_le_mono_r; lia.
Qed.

(** Or-ing a value below [2^n] with a value shifted by [n] is an addition. *)
Lemma lor_shiftl_add a b n :
  0 <= n -> 0 <= a < 2 ^ n -> Z.lor a (Z.shiftl b n) = a + b * 2 ^ n.
Proof.
  intros Hn Ha. rewrite <- Z.shiftl_mul_pow2 by lia.
  rewrite Z.add_nocarry_lxor.
  2:{ apply Z.bits_inj'. intros i Hi.
    rewrite Z.land_spec, Z.bits_0, Z.shiftl_spec by lia.
    destruct (Z.lt_ge_cases i n).
    - rewrite (Z.testbit_neg_r b) by lia. apply andb_false_r.
    - by rewrite (testbit_above a n). }
  apply Z.bits_inj'. intros i Hi.
  rewrite Z.lor_spec, Z.lxor_spec, Z.shiftl_spec by lia.
  destruct (Z.lt_ge_cases i n).
  - rewrite (Z.testbit_neg_r b) by lia. by rewrite xorb_false_r, orb_false_r.
  - rewrite (testbit_above a n) by lia. by destruct (Z.testbit b (i - n)).
Qed.

(** Setting a bit above the value is an addition. *)
Lemma lor_pow2_add a n : 0 <= n -> 0 <= a < 2 ^ n -> Z.lor a (2 ^ n) = a + 2 ^ n.
Proof.
  intros Hn Ha. rewrite <- (Z.mul_1_l (2 ^ n)) at 1.
  rewrite <- Z.shiftl_mul_pow2 by lia. rewrite lor_shiftl_add by lia. lia.
Qed.

(** Masking with [2^n - 1] is the remainder. *)
Lemma land_mask a n : 0 <= n -> Z.land a (2 ^ n - 1) = a mod 2 ^ n.
Proof. intros. rewrite <- Z.land_ones by lia. by rewrite Z.ones_equiv, Z.sub_1_r. Qed.

(** [xor] of two [n]-bit numbers is an [n]-bit number. *)
Lemma lxor_pow2_bound n a b :
  0 <= n -> 0 <= a < 2 ^ n -> 0 <= b < 2 ^ n -> 0 <= Z.lxor a b < 2 ^ n.
Proof.
  intros Hn Ha Hb. assert (0 <= Z.lxor a b) as H by (apply Z.lxor_nonneg; lia).
  split; [done|]. destruct (Z.eq_dec (Z.lxor a b) 0) as [->|Hne]; [lia|].
  destruct (Z.eq_dec n 0) as [->|Hn0].
  { exfalso. apply Hne. change (2 ^ 0) with 1 in *.
    replace a with 0 by lia. by replace b with 0 by lia. }
  apply Z.log2_lt_pow2; [lia|]. eapply Z.le_lt_trans; [apply Z.log2_lxor; lia|].
  assert (forall x, 0 <= x < 2 ^ n -> Z.log2 x < n) as Hlog.
  { intros x Hx. destruct (Z.eq_dec x 0) as [->|]; [simpl; lia|apply Z.log2_lt_pow2; lia]. }
  by apply Z.max_lub_lt; apply Hlog.
Qed.

(** ** Loops that can fail *)

(** [foldl] with failure. *)
Fixpoint fold_option {A B} (f : B -> A -> option B) (b : B) (l : list A) : option B :=
  match l with
  | [] => Some b
  | a :: l => b ← f b a; fold_option f b l
  end.

Lemma fold_option_app {A B} (f : B -> A -> option B) l1 l2 : forall b,
  fold_option f b (l1 ++ l2) = (b ← fold_option f b l1; fold_option f b l2).
Proof. induction l1 as [|a l1 IH]; intros b; cbn; [done|]. destruct (f b a); cbn; [apply IH|done]. Qed.

(** A loop over the entries of a map, whose rounds each treat the file of one
    key: the result, file by file. [get] is the map of files in the state of the
    loop, [upd k v] what a round does to the file [k]. *)
Lemma fold_option_keyed {S M V} (get : S -> gmap Z M) (step : S -> Z * V -> option S)
    (upd : Z -> V -> M -> M) (P : S -> Prop) (l : list (Z * V)) : forall s,
  NoDup l.*1 -> P s ->
  (forall s' k v, P s' -> (k, v) ∈ l -> get s' !! k = get s !! k ->
     exists s'', step s' (k, v) = Some s'' /\ P s'' /\ get s'' = alter (upd k v) k (get s')) ->
  exists s', fold_option step s l = Some s' /\ P s' /\
    forall n, get s' !! n = match (list_to_map l : gmap Z V) !! n with
                            | Some v => upd n v <$> get s !! n
                            | None => get s !! n
                            end.
Proof.
  induction l as [|[k v] l IH]; intros s Hnd HP Hstep.
  { exists s. split; [done|]. split; [done|]. intros n. cbn [list_to_map foldr]. by rewrite (lookup_empty (M := gmap Z)). }
  cbn in Hnd. apply NoDup_cons in Hnd as [Hk Hnd]. cbn [fold_option].
  destruct (Hstep s k v HP (list_elem_of_here _ _) eq_refl) as (s1 & -> & HP1 & Hg1). cbn [mbind option_bind].
  destruct (IH s1 Hnd HP1) as (s' & -> & HP' & Hg').
  { intros s' k' v' Hs' Hin Hget. apply Hstep; [done|by apply list_elem_of_further|].
    rewrite Hget, Hg1, lookup_alter_ne; [done|]. intros ->. apply Hk. apply list_elem_of_fmap. by exists (k', v'). }
  exists s'. split; [done|]. split; [done|]. intros n. rewrite Hg', Hg1. cbn. destruct (decide (n = k)) as [->|Hne].
  - by rewrite not_elem_of_list_to_map_1, lookup_insert_eq, lookup_alter_eq by done.
  - by rewrite lookup_insert_ne, lookup_alter_ne by done.
Qed.

(** ** Memory

    A buffer is the list of its bytes; an access that is not inside it is
    [None]. *)
Definition mem_read (m : bytes) (off n : Z) : option bytes :=
  if (0 <=? off) && (0 <=? n) && (off + n <=? zlen m)
  then Some (take (Z.to_nat n) (drop (Z.to_nat off) m)) else None.

Definition mem_write (m : bytes) (off : Z) (bs : bytes) : option bytes :=
  if (0 <=? off) && (off + zlen bs <=? zlen m)
  then Some (take (Z.to_nat off) m ++ bs ++ drop (Z.to_nat (off + zlen bs)) m) else None.

Lemma mem_read_app a b c off n :
  off = zlen a -> n = zlen b -> mem_read (a ++ b ++ c) off n = Some b.
Proof.
  intros -> ->. unfold mem_read.
  replace (_ && _) with true.
  - rewrite !zlen_to_nat. by rewrite drop_app_length, take_app_length.
  - symmetry. rewrite !andb_true_iff, !Z.leb_le. zlia.
Qed.

Lemma mem_write_app a b c bs off :
  off = zlen a -> zlen bs = zlen b -> mem_write (a ++ b ++ c) off bs = Some (a ++ bs ++ c).
Proof.
  intros -> Hl. unfold mem_write.
  replace (_ && _) with true.
  - rewrite zlen_to_nat, take_app_length. do 3 f_equal.
    rewrite app_assoc. apply drop_app_length'. unfold zlen in *. rewrite length_app. lia.
  - symmetry. rewrite !andb_true_iff, !Z.leb_le. zlia.
Qed.

(** Split a buffer around an access that is inside it. *)
Lemma mem_split (m : bytes) off n :
  0 <= off -> 0 <= n -> off + n <= zlen m ->
  exists a b c, m = a ++ b ++ c /\ zlen a = off /\ zlen b = n.
Proof.
  intros Ho Hn Hle. exists (take (Z.to_nat off) m),
    (take (Z.to_nat n) (drop (Z.to_nat off) m)), (drop (Z.to_nat n) (drop (Z.to_nat off) m)).
  rewrite !take_drop. split; [done|]. unfold zlen in *.
  rewrite !length_take, length_drop. lia.
Qed.

Lemma mem_read_Some m off n b :
  mem_read m off n = Some b ->
  0 <= off /\ zlen b = n /\ exists a c, m = a ++ b ++ c /\ zlen a = off.
Proof.
  unfold mem_read. case_match eqn:E; [|done]. intros [= <-].
  rewrite !andb_true_iff, !Z.leb_le in E. destruct E as [[H1 H2] H3].
  unfold zlen in *. split; [done|]. rewrite length_take, length_drop. split; [lia|].
  exists (take (Z.to_nat off) m), (drop (Z.to_nat n) (drop (Z.to_nat off) m)).
  rewrite !take_drop, length_take. split; [done|lia].
Qed.

Lemma mem_write_Some m off bs m' :
  mem_write m off bs = Some m' ->
  0 <= off /\ off + zlen bs <= zlen m /\ zlen m' = zlen m.
Proof.
  unfold mem_write. case_match eqn:E; [|done]. intros [= <-].
  rewrite !andb_true_iff, !Z.leb_le in E. destruct E as [H1 H2].
  split; [done|]. split; [done|]. unfold zlen in *.
  rewrite !length_app, length_take, length_drop. lia.
Qed.
