(* ===== verification/Coding.v ===== *)
(** * Coding: the integer and string encodings of [util/coding.h]

    [PutX] returns the bytes the code appends to its [std::string]; [GetX]
    takes the [Slice] and returns the value with the advanced slice, or [None]
    for the [false] of the code, after which no caller looks at the slice. *)
From S2P Require Import Prelude.

Local Open Scope Z_scope.

(** ** Fixed-width little-endian integers *)

(** [n] bytes of [v], least significant first: the [memcpy] of a little-endian
    machine. *)
Fixpoint le_bytes (n : nat) (v : Z) : bytes :=
  match n with
  | O => []
  | S n => u8 v :: le_bytes n (Z.shiftr v 8)
  end.

Fixpoint le_value (bs : bytes) : Z :=
  match bs with
  | [] => 0
  | b :: bs => Z.lor b (Z.shiftl (le_value bs) 8)
  end.

Definition PutFixed32 (v : Z) : bytes := le_bytes 4 v.
Definition PutFixed64 (v : Z) : bytes := le_bytes 8 v.

Definition DecodeFixed32 (bs : bytes) : Z := le_value (take 4 bs).
Definition DecodeFixed64 (bs : bytes) : Z := le_value (take 8 bs).

Definition GetFixed32 (input : bytes) : option (Z * bytes) :=
  if zlen input <? 4 then None else Some (DecodeFixed32 input, drop 4 input).

Definition GetFixed64 (input : bytes) : option (Z * bytes) :=
  if zlen input <? 8 then None else Some (DecodeFixed64 input, drop 8 input).

(** ** Varints *)

(** The unrolled encoder for 32 bits: each store truncates to a byte. *)
Definition EncodeVarint32 (v : Z) : bytes :=
  let B := 128 in
  if v <? 2 ^ 7 then [u8 v]
  else if v <? 2 ^ 14 then [u8 (Z.lor v B); u8 (Z.shiftr v 7)]
  else if v <? 2 ^ 21 then
    [u8 (Z.lor v B); u8 (Z.lor (Z.shiftr v 7) B); u8 (Z.shiftr v 14)]
  else if v <? 2 ^ 28 then
    [u8 (Z.lor v B); u8 (Z.lor (Z.shiftr v 7) B);
     u8 (Z.lor (Z.shiftr v 14) B); u8 (Z.shiftr v 21)]
  else
    [u8 (Z.lor v B); u8 (Z.lor (Z.shiftr v 7) B);
     u8 (Z.lor (Z.shiftr v 14) B); u8 (Z.lor (Z.shiftr v 21) B);
     u8 (Z.shiftr v 28)].

(** The loop [while (v >= B)] of the 64-bit encoder. *)
Fixpoint EncodeVarint64_loop (fuel : nat) (v : Z) : bytes :=
  match fuel with
  | O => []
  | S fuel =>
      if v >=? 128 then
        Z.lor (Z.land v 127) 128 :: EncodeVarint64_loop fuel (Z.shiftr v 7)
      else [u8 v]
  end.

(** [kMaxVarint64Length]; the fuel of the encoder. *)
Definition kMaxVarint64Length : Z := 10.

Definition EncodeVarint64 (v : Z) : bytes := EncodeVarint64_loop 10 v.

Fixpoint VarintLength_loop (fuel : nat) (v len : Z) : Z :=
  match fuel with
  | O => len
  | S fuel =>
      if v >=? 128 then VarintLength_loop fuel (Z.shiftr v 7) (len + 1) else len
  end.

Definition VarintLength (v : Z) : Z := VarintLength_loop 10 v 1.

(** The decoding loop shared by both widths:
    [for (shift = 0; shift <= max_shift && p < limit; shift += 7)], with the
    accumulator truncated to [w] bits. *)
Fixpoint varint_loop (w max_shift shift result : Z) (p : bytes) : option (Z * bytes) :=
  match p with
  | [] => None
  | byte :: p =>
      if max_shift <? shift then None
      else if Z.eqb (Z.land byte 128) 0 then
        Some (Z.lor result (Z.shiftl byte shift mod 2 ^ w), p)
      else
        varint_loop w max_shift (shift + 7)
          (Z.lor result (Z.shiftl (Z.land byte 127) shift mod 2 ^ w)) p
  end.

Definition GetVarint32PtrFallback (p : bytes) : option (Z * bytes) :=
  varint_loop 32 28 0 0 p.

Definition GetVarint32Ptr (p : bytes) : option (Z * bytes) :=
  match p with
  | result :: p' =>
      if Z.eqb (Z.land result 128) 0 then Some (result, p')
      else GetVarint32PtrFallback p
  | [] => GetVarint32PtrFallback p
  end.

Definition GetVarint64Ptr (p : bytes) : option (Z * bytes) :=
  varint_loop 64 63 0 0 p.

Definition GetVarint32 (input : bytes) : option (Z * bytes) := GetVarint32Ptr input.
Definition GetVarint64 (input : bytes) : option (Z * bytes) := GetVarint64Ptr input.

Definition PutVarint32 (v : Z) : bytes := EncodeVarint32 v.
Definition PutVarint64 (v : Z) : bytes := EncodeVarint64 v.

Definition PutVarint32Varint32 (v1 v2 : Z) : bytes := EncodeVarint32 v1 ++ EncodeVarint32 v2.
Definition PutVarint32Varint64 (v1 v2 : Z) : bytes := EncodeVarint32 v1 ++ EncodeVarint64 v2.
Definition PutVarint64Varint64 (v1 v2 : Z) : bytes := EncodeVarint64 v1 ++ EncodeVarint64 v2.

(** ** Length-prefixed slices *)

Definition PutLengthPrefixedSlice (value : bytes) : bytes :=
  PutVarint32 (u32 (zlen value)) ++ value.

Definition GetLengthPrefixedSlice (input : bytes) : option (bytes * bytes) :=
  match GetVarint32 input with
  | Some (len, input') =>
      if zlen input' >=? len
      then Some (take (Z.to_nat len) input', drop (Z.to_nat len) input')
      else None
  | None => None
  end.

(** ** Round trips *)

Lemma length_le_bytes n v : length (le_bytes n v) = n.
Proof. revert v. induction n; intros; simpl; auto. Qed.

Lemma is_bytes_le_bytes n v : is_bytes (le_bytes n v).
Proof. revert v. induction n; intros; simpl; auto with aegon. Qed.

Lemma le_value_le_bytes n v : le_value (le_bytes n v) = v mod 2 ^ (8 * Z.of_nat n).
Proof.
  revert v. induction n as [|n IH]; intros v; cbn [le_bytes le_value].
  - by rewrite Z.mod_1_r.
  - rewrite IH, lor_shiftl_add by (try apply Z.mod_pos_bound; lia).
    unfold u8. rewrite Z.shiftr_div_pow2 by lia.
    replace (8 * Z.of_nat (S n)) with (8 + 8 * Z.of_nat n) by lia.
    rewrite Z.pow_add_r, Z.rem_mul_r by lia. lia.
Qed.

Lemma length_PutFixed32 v : length (PutFixed32 v) = 4%nat.
Proof. apply length_le_bytes. Qed.

Lemma length_PutFixed64 v : length (PutFixed64 v) = 8%nat.
Proof. apply length_le_bytes. Qed.

Lemma DecodeFixed32_Put v rest : is_u32 v -> DecodeFixed32 (PutFixed32 v ++ rest) = v.
Proof.
  intros Hv. unfold DecodeFixed32. rewrite take_app_le by (rewrite length_PutFixed32; lia).
  rewrite take_ge by (rewrite length_PutFixed32; lia).
  unfold PutFixed32. rewrite le_value_le_bytes. by apply Z.mod_small.
Qed.

Lemma DecodeFixed64_Put v rest : is_u64 v -> DecodeFixed64 (PutFixed64 v ++ rest) = v.
Proof.
  intros Hv. unfold DecodeFixed64. rewrite take_app_le by (rewrite length_PutFixed64; lia).
  rewrite take_ge by (rewrite length_PutFixed64; lia).
  unfold PutFixed64. rewrite le_value_le_bytes. by apply Z.mod_small.
Qed.

Lemma GetFixed32_Put v rest : is_u32 v -> GetFixed32 (PutFixed32 v ++ rest) = Some (v, rest).
Proof.
  intros Hv. unfold GetFixed32. rewrite DecodeFixed32_Put by done.
  destruct (Z.ltb_spec (zlen (PutFixed32 v ++ rest)) 4) as [Hl|_].
  - rewrite zlen_app in Hl. unfold zlen in Hl. rewrite length_PutFixed32 in Hl. lia.
  - rewrite drop_app_length'; [done|by rewrite length_PutFixed32].
Qed.

Lemma GetFixed64_Put v rest : is_u64 v -> GetFixed64 (PutFixed64 v ++ rest) = Some (v, rest).
Proof.
  intros Hv. unfold GetFixed64. rewrite DecodeFixed64_Put by done.
  destruct (Z.ltb_spec (zlen (PutFixed64 v ++ rest)) 8) as [Hl|_].
  - rewrite zlen_app in Hl. unfold zlen in Hl. rewrite length_PutFixed64 in Hl. lia.
  - rewrite drop_app_length'; [done|by rewrite length_PutFixed64].
Qed.

(** A boolean property of all bytes is decided by checking the 256 of them. *)
Lemma byte_forall (P : Z -> bool) :
  forallb P (seqZ 0 256) = true -> forall b, is_byte b -> P b = true.
Proof.
  intros H b Hb. rewrite forallb_forall in H. apply H.
  apply list_elem_of_In, elem_of_seqZ. unfold is_byte in Hb. lia.
Qed.

Lemma land_128 b : is_byte b -> Z.eqb (Z.land b 128) 0 = (b <? 128).
Proof.
  intros Hb.
  apply (byte_forall (fun b => eqb (Z.eqb (Z.land b 128) 0) (b <? 128))) in Hb;
    [by apply eqb_prop|by vm_compute].
Qed.

Lemma varint_byte v :
  0 <= v -> Z.lor (Z.land v 127) 128 = v mod 128 + 128.
Proof.
  intros Hv. change 127 with (2 ^ 7 - 1). rewrite land_mask by lia.
  change 128 with (2 ^ 7). apply lor_pow2_add; [lia|]. apply Z.mod_pos_bound. lia.
Qed.

(** The last byte of a varint. *)
Lemma varint_last w m v j acc rest :
  0 <= j <= m -> 0 <= v < 128 -> v * 2 ^ (7 * j) < 2 ^ w -> 0 <= acc < 2 ^ (7 * j) ->
  varint_loop w (7 * m) (7 * j) acc ([u8 v] ++ rest) = Some (acc + v * 2 ^ (7 * j), rest).
Proof.
  intros Hj Hv Hvw Hacc. rewrite u8_small by lia. cbn [app varint_loop].
  destruct (Z.ltb_spec (7 * m) (7 * j)) as [|_]; [lia|].
  rewrite land_128 by (unfold is_byte; lia).
  destruct (Z.ltb_spec v 128) as [_|]; [|lia].
  rewrite Z.mod_small.
  2:{ rewrite Z.shiftl_mul_pow2 by lia. nia. }
  rewrite lor_shiftl_add by lia. done.
Qed.

Lemma varint_loop_encode w m fuel v j acc rest :
  0 <= j <= m -> w <= 7 * (m + 1) ->
  0 <= v < 2 ^ (7 * (Z.of_nat fuel + 1)) -> v * 2 ^ (7 * j) < 2 ^ w ->
  0 <= acc < 2 ^ (7 * j) ->
  varint_loop w (7 * m) (7 * j) acc (EncodeVarint64_loop (S fuel) v ++ rest)
    = Some (acc + v * 2 ^ (7 * j), rest).
Proof.
  revert v j acc. induction fuel as [|fuel IH]; intros v j acc Hj Hw Hv Hvw Hacc;
    cbn [EncodeVarint64_loop]; rewrite Z.geb_leb;
    destruct (Z.leb_spec 128 v) as [Hge|Hlt].
  - exfalso. change (2 ^ (7 * (Z.of_nat 0 + 1))) with 128 in Hv. lia.
  - apply varint_last; lia.
  - cbn [app]. rewrite varint_byte by lia. cbn [varint_loop].
    pose proof (Z.mod_pos_bound v 128 ltac:(lia)) as Hm.
    destruct (Z.ltb_spec (7 * m) (7 * j)) as [|_]; [lia|].
    rewrite land_128 by (unfold is_byte; lia).
    destruct (Z.ltb_spec (v mod 128 + 128) 128) as [|_]; [lia|].
    assert (Z.land (v mod 128 + 128) 127 = v mod 128) as ->.
    { change 127 with (2 ^ 7 - 1). rewrite land_mask by lia.
      change (2 ^ 7) with 128. rewrite <- Z.add_mod_idemp_r by lia.
      rewrite Z.mod_same, Z.add_0_r, Z.mod_mod by lia. done. }
    rewrite Z.shiftr_div_pow2 by lia. change (2 ^ 7) with 128.
    pose proof (Z.div_mod v 128 ltac:(lia)) as Hdm.
    assert (0 < 2 ^ (7 * j)) as Hp by (apply Z.pow_pos_nonneg; lia).
    assert (2 ^ (7 * (j + 1)) = 128 * 2 ^ (7 * j)) as Hp'.
    { replace (7 * (j + 1)) with (7 + 7 * j) by lia. rewrite Z.pow_add_r by lia. done. }
    assert (1 <= v / 128) by (apply Z.div_le_lower_bound; lia).
    assert (v / 128 * 2 ^ (7 * (j + 1)) < 2 ^ w) by (rewrite Hp'; nia).
    assert (7 * (j + 1) < w) as Hjw.
    { apply Z.nle_gt. intros Hc.
      assert (2 ^ w <= 2 ^ (7 * (j + 1))) by (apply Z.pow_le_mono_r; lia). nia. }
    rewrite (Z.mod_small (Z.shiftl _ _)).
    2:{ rewrite Z.shiftl_mul_pow2 by lia. nia. }
    rewrite lor_shiftl_add by lia.
    replace (7 * j + 7) with (7 * (j + 1)) by lia.
    change (varint_loop w (7 * m) (7 * (j + 1)) (acc + v mod 128 * 2 ^ (7 * j))
      (EncodeVarint64_loop (S fuel) (v / 128) ++ rest)
      = Some (acc + v * 2 ^ (7 * j), rest)).
    rewrite IH; [do 2 f_equal; rewrite Hp'; nia|lia|lia| |lia|].
    + split; [lia|]. apply Z.div_lt_upper_bound; [lia|].
      replace (7 * (Z.of_nat (S fuel) + 1)) with (7 + 7 * (Z.of_nat fuel + 1)) in Hv by lia.
      rewrite Z.pow_add_r in Hv by lia. exact (proj2 Hv).
    + rewrite Hp'. nia.
  - apply varint_last; lia.
Qed.

(** Fuel 10 is enough for any 64-bit value, and any larger fuel agrees. *)
Lemma EncodeVarint64_fuel n v :
  0 <= v < 2 ^ (7 * (Z.of_nat n + 1)) ->
  forall k, EncodeVarint64_loop (S n + k) v = EncodeVarint64_loop (S n) v.
Proof.
  revert v. induction n as [|n IH]; intros v Hv k; cbn [EncodeVarint64_loop Nat.add];
    rewrite Z.geb_leb; destruct (Z.leb_spec 128 v) as [Hge|Hlt]; try done.
  - change (2 ^ (7 * (Z.of_nat 0 + 1))) with 128 in Hv. lia.
  - f_equal. apply (IH (Z.shiftr v 7)). rewrite Z.shiftr_div_pow2 by lia.
    split; [apply Z.div_pos; lia|]. apply Z.div_lt_upper_bound; [lia|].
    replace (7 * (Z.of_nat (S n) + 1)) with (7 + 7 * (Z.of_nat n + 1)) in Hv by lia.
    rewrite Z.pow_add_r in Hv by lia. exact (proj2 Hv).
Qed.

Lemma GetVarint64_Put v rest :
  is_u64 v -> GetVarint64 (PutVarint64 v ++ rest) = Some (v, rest).
Proof.
  intros Hv. unfold GetVarint64, GetVarint64Ptr, PutVarint64, EncodeVarint64.
  change 63 with (7 * 9). change 0 with (7 * 0) at 1.
  rewrite varint_loop_encode; unfold is_u64 in *; simpl; try lia.
  by rewrite Z.mul_1_r.
Qed.

(** Storing [x | 128] into a byte keeps the low seven bits and sets the top one. *)
Lemma u8_lor_128 x : 0 <= x -> u8 (Z.lor x 128) = Z.lor (Z.land x 127) 128.
Proof.
  intros Hx. unfold u8. rewrite <- Z.land_ones by lia.
  apply Z.bits_inj'. intros i Hi. rewrite !Z.lor_spec, !Z.land_spec, Z.lor_spec.
  change 127 with (Z.ones 7). change 128 with (2 ^ 7).
  rewrite Z.pow2_bits_eqb by lia.
  destruct (Z.eqb_spec 7 i) as [<-|]; [by rewrite !orb_true_r|].
  rewrite !orb_false_r. destruct (Z.lt_ge_cases i 7).
  - by rewrite !Z.ones_spec_low by lia.
  - by rewrite !Z.ones_spec_high by lia.
Qed.

Lemma leb_128_shiftr v k : 0 <= k -> (128 <=? Z.shiftr v k) = (2 ^ (k + 7) <=? v).
Proof.
  intros Hk. rewrite Z.shiftr_div_pow2, Z.pow_add_r by lia.
  assert (0 < 2 ^ k) as Hp by (apply Z.pow_pos_nonneg; lia).
  apply eq_true_iff_eq. rewrite !Z.leb_le. change (2 ^ 7) with 128. split; intros H.
  - pose proof (Z.mul_div_le v (2 ^ k) Hp). nia.
  - apply Z.div_le_lower_bound; lia.
Qed.

(** The unrolled 32-bit encoder and the 64-bit loop write the same bytes. *)
Lemma EncodeVarint32_64 v : is_u32 v -> EncodeVarint32 v = EncodeVarint64 v.
Proof.
  intros Hv. unfold is_u32 in Hv. unfold EncodeVarint32, EncodeVarint64.
  rewrite !u8_lor_128 by (try apply Z.shiftr_nonneg; lia).
  cbn [EncodeVarint64_loop]. rewrite !Z.shiftr_shiftr, !Z.geb_leb by lia.
  rewrite !leb_128_shiftr by lia.
  change (2 ^ (7 + 7)) with (2 ^ 14). change (2 ^ (7 + 7 + 7)) with (2 ^ 21).
  change (2 ^ (7 + 7 + 7 + 7)) with (2 ^ 28).
  change (7 + 7 + 7 + 7) with 28. change (7 + 7 + 7) with 21. change (7 + 7) with 14.
  change 128 with (2 ^ 7).
  rewrite !(Z.leb_antisym v).
  destruct (Z.ltb_spec v (2 ^ 7)); [done|].
  destruct (Z.ltb_spec v (2 ^ 14)); [done|].
  destruct (Z.ltb_spec v (2 ^ 21)); [done|].
  destruct (Z.ltb_spec v (2 ^ 28)); [done|].
  destruct (Z.ltb_spec v (2 ^ (28 + 7))) as [_|]; [done|].
  assert (2 ^ 32 <= 2 ^ (28 + 7)) by (apply Z.pow_le_mono_r; lia). lia.
Qed.

Lemma is_bytes_EncodeVarint64_loop fuel v : is_bytes (EncodeVarint64_loop fuel v).
Proof.
  revert v. induction fuel as [|fuel IH]; intros v; cbn [EncodeVarint64_loop].
  - constructor.
  - destruct (v >=? 128); [|auto with aegon].
    apply is_bytes_cons; [|done].
    change 127 with (2 ^ 7 - 1). rewrite land_mask by lia.
    change 128 with (2 ^ 7). rewrite lor_pow2_add; [|lia|].
    + pose proof (Z.mod_pos_bound v (2 ^ 7) ltac:(lia)). unfold is_byte. lia.
    + apply Z.mod_pos_bound. lia.
Qed.

Lemma is_bytes_PutVarint64 v : is_bytes (PutVarint64 v).
Proof. apply is_bytes_EncodeVarint64_loop. Qed.

Lemma is_bytes_PutVarint32 v : is_bytes (PutVarint32 v).
Proof.
  unfold PutVarint32, EncodeVarint32.
  repeat case_match; auto 10 with aegon.
Qed.

Lemma is_bytes_PutFixed32 v : is_bytes (PutFixed32 v).
Proof. apply is_bytes_le_bytes. Qed.

Lemma is_bytes_PutFixed64 v : is_bytes (PutFixed64 v).
Proof. apply is_bytes_le_bytes. Qed.

#[export] Hint Resolve is_bytes_PutVarint64 is_bytes_PutVarint32 is_bytes_PutFixed32
  is_bytes_PutFixed64 : aegon.

Lemma GetVarint32Ptr_byte b p :
  is_byte b -> GetVarint32Ptr (b :: p) = GetVarint32PtrFallback (b :: p).
Proof.
  intros Hb. unfold GetVarint32Ptr, GetVarint32PtrFallback. cbn [varint_loop].
  change (28 <? 0) with false. cbv iota.
  destruct (Z.eqb (Z.land b 128) 0); [|done].
  rewrite Z.shiftl_0_r, Z.lor_0_l, Z.mod_small; [done|].
  unfold is_byte in Hb. lia.
Qed.

Lemma GetVarint32Ptr_loop p :
  is_bytes p -> GetVarint32Ptr p = GetVarint32PtrFallback p.
Proof. intros Hp. destruct Hp; [done|]. by apply GetVarint32Ptr_byte. Qed.

Lemma GetVarint32_Put v rest :
  is_u32 v -> GetVarint32 (PutVarint32 v ++ rest) = Some (v, rest).
Proof.
  intros Hv.
  assert (GetVarint32PtrFallback (PutVarint32 v ++ rest) = Some (v, rest)) as H.
  { unfold PutVarint32. rewrite EncodeVarint32_64 by done.
    unfold GetVarint32PtrFallback, EncodeVarint64.
    change 28 with (7 * 4). change 0 with (7 * 0) at 1. unfold is_u32 in Hv.
    rewrite varint_loop_encode; simpl; try lia. by rewrite Z.mul_1_r. }
  unfold GetVarint32. pose proof (is_bytes_PutVarint32 v) as Hb.
  destruct (PutVarint32 v) as [|b p] eqn:E.
  { exfalso. revert E. unfold PutVarint32, EncodeVarint32. by repeat case_match. }
  inversion Hb; subst. rewrite <- H. apply GetVarint32Ptr_byte; done.
Qed.

(** *** Length-prefixed slices *)

Lemma GetLengthPrefixedSlice_Put value rest :
  is_u32 (zlen value) ->
  GetLengthPrefixedSlice (PutLengthPrefixedSlice value ++ rest) = Some (value, rest).
Proof.
  intros Hv. unfold GetLengthPrefixedSlice, PutLengthPrefixedSlice.
  rewrite u32_small by done. rewrite <- app_assoc, GetVarint32_Put by done.
  rewrite Z.geb_leb, zlen_app. destruct (Z.leb_spec (zlen value) (zlen value + zlen rest)) as [_|Hc].
  - rewrite zlen_to_nat. by rewrite take_app_length, drop_app_length.
  - pose proof (zlen_nonneg rest). lia.
Qed.

Lemma is_bytes_PutLengthPrefixedSlice v :
  is_bytes v -> is_bytes (PutLengthPrefixedSlice v).
Proof. unfold PutLengthPrefixedSlice. auto with aegon. Qed.

#[export] Hint Resolve is_bytes_PutLengthPrefixedSlice : aegon.

(** *** Lengths *)

Lemma EncodeVarint64_loop_length n v len :
  0 <= v < 2 ^ (7 * (Z.of_nat n + 1)) ->
  VarintLength_loop (S n) v len = len - 1 + zlen (EncodeVarint64_loop (S n) v)
  /\ 1 <= zlen (EncodeVarint64_loop (S n) v) <= Z.of_nat (S n).
Proof.
  revert v len. induction n as [|n IH]; intros v len Hv;
    cbn [EncodeVarint64_loop VarintLength_loop];
    rewrite !Z.geb_leb; destruct (Z.leb_spec 128 v) as [Hge|Hlt].
  - change (2 ^ (7 * (Z.of_nat 0 + 1))) with 128 in Hv. lia.
  - rewrite zlen_cons, zlen_nil. lia.
  - rewrite zlen_cons. specialize (IH (Z.shiftr v 7) (len + 1)).
    cbn [EncodeVarint64_loop VarintLength_loop] in IH.
    destruct IH as [IH1 IH2]; [|rewrite !Z.geb_leb in *; rewrite IH1; lia].
    rewrite Z.shiftr_div_pow2 by lia. split; [apply Z.div_pos; lia|].
    apply Z.div_lt_upper_bound; [lia|].
    replace (7 * (Z.of_nat (S n) + 1)) with (7 + 7 * (Z.of_nat n + 1)) in Hv by lia.
    rewrite Z.pow_add_r in Hv by lia. exact (proj2 Hv).
  - rewrite zlen_cons, zlen_nil. lia.
Qed.

Lemma VarintLength_spec v : is_u64 v -> VarintLength v = zlen (PutVarint64 v).
Proof.
  intros Hv. unfold VarintLength, PutVarint64, EncodeVarint64.
  destruct (EncodeVarint64_loop_length 9 v 1) as [-> _]; [|lia].
  change (2 ^ (7 * (Z.of_nat 9 + 1))) with (2 ^ 70). unfold is_u64 in Hv. lia.
Qed.

Lemma PutVarint64_bounds v : is_u64 v -> 1 <= zlen (PutVarint64 v) <= kMaxVarint64Length.
Proof.
  intros Hv. apply (EncodeVarint64_loop_length 9 v 1).
  change (2 ^ (7 * (Z.of_nat 9 + 1))) with (2 ^ 70). unfold is_u64 in Hv. lia.
Qed.

Lemma PutVarint32_bounds v : 1 <= zlen (PutVarint32 v) <= 5.
Proof. unfold PutVarint32, EncodeVarint32. repeat case_match; unfold zlen; simpl; lia. Qed.

Lemma zlen_PutFixed32 v : zlen (PutFixed32 v) = 4.
Proof. unfold zlen. by rewrite length_PutFixed32. Qed.

Lemma zlen_PutFixed64 v : zlen (PutFixed64 v) = 8.
Proof. unfold zlen. by rewrite length_PutFixed64. Qed.

#[export] Hint Rewrite zlen_PutFixed32 zlen_PutFixed64 : zlen.

(** *** What a decoder returns, whatever the input *)

Lemma varint_loop_result w m shift acc p v p' :
  0 <= w -> 0 <= acc < 2 ^ w ->
  varint_loop w m shift acc p = Some (v, p') ->
  0 <= v < 2 ^ w /\ exists pre, p = pre ++ p' /\ pre <> [].
Proof.
  intros Hw. revert shift acc. induction p as [|b p IH]; intros shift acc Hacc H; [done|].
  cbn [varint_loop] in H.
  assert (forall x, 0 <= Z.lor acc (x mod 2 ^ w) < 2 ^ w) as Hlor.
  { intros x. rewrite <- Z.land_ones by lia.
    assert (Z.lor acc (Z.land x (Z.ones w)) = Z.land (Z.lor acc x) (Z.ones w)) as ->.
    { rewrite Z.land_lor_distr_l. f_equal. rewrite Z.land_ones by lia.
      symmetry. by apply Z.mod_small. }
    rewrite Z.land_ones by lia. apply Z.mod_pos_bound. lia. }
  case_match; [done|]. case_match.
  - simplify_eq. split; [apply Hlor|]. by exists [b].
  - destruct (IH _ _ (Hlor _) H) as [Hv (pre & -> & Hpre)]. split; [done|].
    by exists (b :: pre).
Qed.

Lemma GetVarint64_result p v p' :
  GetVarint64 p = Some (v, p') -> is_u64 v /\ exists pre, p = pre ++ p' /\ pre <> [].
Proof. apply (varint_loop_result 64 63); lia. Qed.

Lemma GetVarint32_result p v p' :
  is_bytes p -> GetVarint32 p = Some (v, p') ->
  is_u32 v /\ exists pre, p = pre ++ p' /\ pre <> [].
Proof.
  intros Hp. unfold GetVarint32. rewrite GetVarint32Ptr_loop by done.
  apply (varint_loop_result 32 28); lia.
Qed.

(** A decoded length-prefixed slice and its rest are a suffix of the input: no
    byte outside the input is read. *)
Lemma GetLengthPrefixedSlice_result p v p' :
  is_bytes p -> GetLengthPrefixedSlice p = Some (v, p') ->
  exists pre, p = pre ++ v ++ p' /\ pre <> [].
Proof.
  intros Hp H. unfold GetLengthPrefixedSlice in H.
  destruct (GetVarint32 p) as [[len q]|] eqn:E; [|done].
  case_match; [|done]. simplify_eq.
  destruct (GetVarint32_result _ _ _ Hp E) as [_ (pre & -> & Hpre)].
  exists pre. by rewrite take_drop.
Qed.

(** Decode the head of a concatenation; [decode_step] normalises the
    concatenation and steps every decoder whose value is in range. *)
#[global] Arguments PutVarint32 : simpl never.
#[global] Arguments PutVarint64 : simpl never.
#[global] Arguments PutFixed32 : simpl never.
#[global] Arguments PutFixed64 : simpl never.
#[global] Arguments GetVarint32 : simpl never.
#[global] Arguments GetVarint64 : simpl never.
#[global] Arguments GetFixed32 : simpl never.
#[global] Arguments GetFixed64 : simpl never.
#[global] Arguments PutLengthPrefixedSlice : simpl never.
#[global] Arguments GetLengthPrefixedSlice : simpl never.
#[global] Arguments EncodeVarint32 : simpl never.
#[global] Arguments EncodeVarint64 : simpl never.
#[global] Arguments DecodeFixed32 : simpl never.
#[global] Arguments DecodeFixed64 : simpl never.

Create Rewrite HintDb codec.
#[export] Hint Rewrite GetFixed32_Put GetFixed64_Put GetVarint32_Put GetVarint64_Put
  GetLengthPrefixedSlice_Put using solve [eauto 3 with aegon] : codec.

Ltac decode_step := rewrite <- ?app_assoc; autorewrite with codec; cbn -[Z.add Z.mul Z.pow].

(** ** Codecs

    What the formats promise to the code that stores them: decoding what was
    encoded, in front of any other bytes, gives the value back and the other
    bytes untouched. *)
Class Codec (A : Type) := {
  codec_wf : A -> Prop;
  codec_enc : A -> bytes;
  codec_dec : bytes -> option (A * bytes);
  codec_roundtrip : forall a rest,
    codec_wf a -> codec_dec (codec_enc a ++ rest) = Some (a, rest) }.

(** [n] codec values one after the other. *)
Fixpoint dec_many {A} `{Codec A} (n : nat) (input : bytes) : option (list A * bytes) :=
  match n with
  | O => Some ([], input)
  | S n =>
      match codec_dec input with
      | Some (a, input) =>
          match dec_many n input with
          | Some (l, input) => Some (a :: l, input)
          | None => None
          end
      | None => None
      end
  end.

Lemma dec_many_roundtrip {A} `{Codec A} (l : list A) rest :
  Forall codec_wf l ->
  dec_many (length l) (concat (map codec_enc l) ++ rest) = Some (l, rest).
Proof.
  induction 1 as [|a l Ha Hl IH]; [done|]. simpl.
  by rewrite <- app_assoc, codec_roundtrip, IH.
Qed.
