(* ===== verification/BlobFormat.v ===== *)
(** * BlobFormat: the records stored in blob files and in the LSM tree

    [blob_format.h], [blob_format.cc] and the compression wrappers of
    [util.cc]: blob records with their checksummed headers, blob handles,
    blob indexes (with the link to the previous location that garbage
    collection leaves), file headers and file footers. *)
From S2P Require Import Prelude Coding Crc32c.

Local Open Scope Z_scope.
Local Open Scope aegon_scope.

Definition kBlobMaxHeaderSize : Z := 12.
Definition kRecordHeaderSize : Z := 9.
(** [BlockHandle::kMaxEncodedLength]: two varints. *)
Definition kMaxEncodedLength : Z := 2 * kMaxVarint64Length.
Definition kBlobFooterSize : Z := kMaxEncodedLength + 8 + 4.

Definition GetChar (src : bytes) : option (Z * bytes) :=
  match src with
  | [] => None
  | value :: src => Some (value, src)
  end.

(** [DecodeInto]: decode a whole slice, complaining about what is left. *)
Definition DecodeInto {A} (DecodeFrom : bytes -> res (A * bytes)) (src : bytes)
    (ignore_extra_bytes : bool) : res A :=
  '(target, tmp) <-? DecodeFrom src ;;
  if negb ignore_extra_bytes && negb (zlen tmp =? 0) then Fail Corruption else Ret target.

(** ** Blob records *)

Record BlobRecord : Type := {
  key : bytes;
  value : bytes }.

Definition BlobRecord_EncodeTo (r : BlobRecord) : bytes :=
  PutLengthPrefixedSlice (key r) ++ PutLengthPrefixedSlice (value r).

Definition BlobRecord_DecodeFrom (src : bytes) : res (BlobRecord * bytes) :=
  '(k, src) <-? or_fail Corruption (GetLengthPrefixedSlice src) ;;
  '(v, src) <-? or_fail Corruption (GetLengthPrefixedSlice src) ;;
  Ret ({| key := k; value := v |}, src).

Definition BlobRecord_size (r : BlobRecord) : Z := zlen (key r) + zlen (value r).

(** ** Compression

    The compression library is outside the program: [CompressData ty input]
    and [UncompressData ty input] stand for the functions of RocksDB's
    [util/compression.h] at the dictionary in use; [None] is their failure. *)
Definition kNoCompression : Z := 0.

Section Compression.
Context (CompressData UncompressData : Z -> bytes -> option bytes).

(** [Compress]: the compressed bytes and the type that was used. *)
Definition Compress (info_type : Z) (input : bytes) : bytes * Z :=
  if info_type =? kNoCompression then (input, info_type)
  else match CompressData info_type input with
       | None => (input, kNoCompression)
       | Some output => (output, info_type)
       end.

(** [Uncompress]; the assertion is the outer [option]. *)
Definition Uncompress (info_type : Z) (input : bytes) : option (res bytes) :=
  _ ← assert (negb (info_type =? kNoCompression));
  Some (or_fail Corruption (UncompressData info_type input)).

(** ** [BlobEncoder] *)

Record BlobEncoder : Type := {
  header_ : bytes;
  record_ : bytes }.

Definition EncodeSlice (info_type : Z) (record : bytes) : option BlobEncoder :=
  let '(record_, compression) := Compress info_type record in
  _ ← assert (zlen record_ <? 2 ^ 32 - 1);
  let header_4 := PutFixed32 (u32 (zlen record_)) ++ [u8 compression] in
  let crc := Value header_4 in
  let crc := Extend crc record_ in
  Some {| header_ := PutFixed32 crc ++ header_4; record_ := record_ |}.

Definition EncodeRecord (info_type : Z) (record : BlobRecord) : option BlobEncoder :=
  EncodeSlice info_type (BlobRecord_EncodeTo record).

Definition GetEncodedSize (e : BlobEncoder) : Z := kRecordHeaderSize + zlen (record_ e).

(** What an encoder's user writes to the file. *)
Definition encoded (e : BlobEncoder) : bytes := header_ e ++ record_ e.

(** ** [BlobDecoder] *)

Record BlobDecoder : Type := {
  crc_ : Z;
  header_crc_ : Z;
  record_size_ : Z;
  compression_ : Z }.

Definition DecodeHeader (src : bytes) : res (BlobDecoder * bytes) :=
  '(crc, src) <-? or_fail Corruption (GetFixed32 src) ;;
  let header_crc := Value (take (Z.to_nat (kRecordHeaderSize - 4)) src) in
  '(record_size, src) <-? or_fail Corruption (GetFixed32 src) ;;
  '(compression, src) <-? or_fail Corruption (GetChar src) ;;
  Ret ({| crc_ := crc; header_crc_ := header_crc; record_size_ := record_size;
          compression_ := compression |}, src).

(** [DecodeRecord]: [None] when [remove_prefix] asserts, because the slice
    is shorter than the record size of the header. *)
Definition DecodeRecord (d : BlobDecoder) (src : bytes) : option (res (BlobRecord * bytes)) :=
  _ ← assert (record_size_ d <=? zlen src);
  let input := take (Z.to_nat (record_size_ d)) src in
  let src := drop (Z.to_nat (record_size_ d)) src in
  let crc := Extend (header_crc_ d) input in
  if negb (crc =? crc_ d) then Some (Fail Corruption)
  else if compression_ d =? kNoCompression then
    Some (record <-? DecodeInto BlobRecord_DecodeFrom input false ;; Ret (record, src))
  else
    out ← Uncompress (compression_ d) input;
    Some (buffer <-? out ;;
          record <-? DecodeInto BlobRecord_DecodeFrom buffer false ;; Ret (record, src)).
End Compression.

(** ** Blob handles *)

Record BlobHandle : Type := {
  offset : Z;
  size : Z;
  index : Z }.

Definition BlobHandle_default : BlobHandle := {| offset := 0; size := 0; index := 0 |}.

Definition BlobHandle_EncodeTo (h : BlobHandle) : bytes :=
  PutVarint64 (offset h) ++ PutVarint64 (size h) ++ PutVarint64 (index h).

Definition BlobHandle_DecodeFrom (src : bytes) : res (BlobHandle * bytes) :=
  '(o, src) <-? or_fail Corruption (GetVarint64 src) ;;
  '(s, src) <-? or_fail Corruption (GetVarint64 src) ;;
  '(i, src) <-? or_fail Corruption (GetVarint64 src) ;;
  Ret ({| offset := o; size := s; index := i |}, src).

(** [operator==], which does not compare the index. *)
Definition BlobHandle_eqb (lhs rhs : BlobHandle) : bool :=
  (offset lhs =? offset rhs) && (size lhs =? size rhs).

(** ** Blob indexes *)

Definition kBlobRecord : Z := 1.

Record BlobIndex : Type := {
  file_number : Z;
  blob_handle : BlobHandle;
  old_file_number : Z;
  old_blob_handle : BlobHandle }.

Definition BlobIndex_default : BlobIndex :=
  {| file_number := 0; blob_handle := BlobHandle_default;
     old_file_number := 0; old_blob_handle := BlobHandle_default |}.

Definition BlobIndex_EncodeTo (i : BlobIndex) : bytes :=
  [kBlobRecord] ++ PutVarint64 (file_number i) ++ BlobHandle_EncodeTo (blob_handle i) ++
  (if 0 <? old_file_number i
   then PutVarint64 (old_file_number i) ++ BlobHandle_EncodeTo (old_blob_handle i)
   else []).

(** [DecodeFrom] leaves the old link of [self] alone when the slice ends after
    the handle. *)
Definition BlobIndex_DecodeFrom (self : BlobIndex) (src : bytes) : res (BlobIndex * bytes) :=
  '(ty, src) <-? or_fail Corruption (GetChar src) ;;
  if negb (ty =? kBlobRecord) then Fail Corruption else
  '(n, src) <-? or_fail Corruption (GetVarint64 src) ;;
  '(h, src) <-? BlobHandle_DecodeFrom src ;;
  if negb (zlen src =? 0) then
    '(on, src) <-? or_fail Corruption (GetVarint64 src) ;;
    '(oh, src) <-? BlobHandle_DecodeFrom src ;;
    Ret ({| file_number := n; blob_handle := h;
            old_file_number := on; old_blob_handle := oh |}, src)
  else
    Ret ({| file_number := n; blob_handle := h;
            old_file_number := old_file_number self;
            old_blob_handle := old_blob_handle self |}, src).

Definition BlobIndex_eqb (lhs rhs : BlobIndex) : bool :=
  (file_number lhs =? file_number rhs) && BlobHandle_eqb (blob_handle lhs) (blob_handle rhs).

(** ** File headers *)

Definition kHeaderMagicNumber : Z := 736142868.
Definition kVersion1 : Z := 1.
Definition kVersion2 : Z := 2.
Definition kMinEncodedLength : Z := 8.
Definition kHasUncompressionDictionary : Z := 1.

Record BlobFileHeader : Type := {
  version : Z;
  flags : Z }.

Definition BlobFileHeader_default : BlobFileHeader := {| version := kVersion2; flags := 0 |}.

Definition ValidateVersion (ver : Z) : Status :=
  if negb (ver =? kVersion1) && negb (ver =? kVersion2) then InvalidArgument else OK.

Definition BlobFileHeader_size (h : BlobFileHeader) : Z :=
  if version h =? kVersion1 then kMinEncodedLength else kBlobMaxHeaderSize.

Definition BlobFileHeader_EncodeTo (h : BlobFileHeader) : bytes :=
  PutFixed32 kHeaderMagicNumber ++ PutFixed32 (version h) ++
  (if version h =? kVersion2 then PutFixed32 (flags h) else []).

Definition BlobFileHeader_DecodeFrom (self : BlobFileHeader) (src : bytes)
    : res (BlobFileHeader * bytes) :=
  '(magic_number, src) <-? or_fail Corruption (GetFixed32 src) ;;
  if negb (magic_number =? kHeaderMagicNumber) then Fail Corruption else
  '(ver, src) <-? or_fail Corruption (GetFixed32 src) ;;
  if negb (ver =? kVersion1) && negb (ver =? kVersion2) then Fail Corruption else
  if ver =? kVersion2 then
    '(fl, src) <-? or_fail Corruption (GetFixed32 src) ;;
    if negb (Z.land fl (u32 (Z.lnot kHasUncompressionDictionary)) =? 0) then Fail Corruption
    else Ret ({| version := ver; flags := fl |}, src)
  else Ret ({| version := ver; flags := flags self |}, src).

(** ** Block handles and file footers *)

Record BlockHandle : Type := {
  bh_offset : Z;
  bh_size : Z }.

Definition NullBlockHandle : BlockHandle := {| bh_offset := 0; bh_size := 0 |}.

Definition BlockHandle_IsNull (h : BlockHandle) : bool := (bh_offset h =? 0) && (bh_size h =? 0).

Definition BlockHandle_EncodeTo (h : BlockHandle) : option bytes :=
  _ ← assert (negb (bh_offset h =? 2 ^ 64 - 1));
  _ ← assert (negb (bh_size h =? 2 ^ 64 - 1));
  Some (PutVarint64Varint64 (bh_offset h) (bh_size h)).

Definition BlockHandle_DecodeFrom (src : bytes) : res (BlockHandle * bytes) :=
  '(o, src) <-? or_fail Corruption (GetVarint64 src) ;;
  '(s, src) <-? or_fail Corruption (GetVarint64 src) ;;
  Ret ({| bh_offset := o; bh_size := s |}, src).

Definition kFooterMagicNumber : Z := 3161709545629806022.

(** [std::string::resize] of a part: cut or pad with zeros. *)
Definition resize (n : Z) (s : bytes) : bytes :=
  take (Z.to_nat n) s ++ replicate (Z.to_nat n - length s) 0.

(** The footer is its [meta_index_handle]. *)
Definition BlobFileFooter_EncodeTo (meta_index_handle : BlockHandle) : option bytes :=
  h ← BlockHandle_EncodeTo meta_index_handle;
  let enc := resize (kBlobFooterSize - 12) h ++ PutFixed64 kFooterMagicNumber in
  Some (enc ++ PutFixed32 (Value enc)).

(** [DecodeFrom]: [None] when [remove_prefix] asserts on the padding. *)
Definition BlobFileFooter_DecodeFrom (src : bytes) : option (res (BlockHandle * bytes)) :=
  let data := src in
  match BlockHandle_DecodeFrom src with
  | Fail _ => Some (Fail Corruption)
  | Ret (h, src) =>
      let n := kBlobFooterSize - 12 - (zlen data - zlen src) in
      _ ← assert (n <=? zlen src);
      let src := drop (Z.to_nat n) src in
      Some (
        '(magic_number, src) <-? or_fail Corruption (GetFixed64 src) ;;
        if negb (magic_number =? kFooterMagicNumber) then Fail Corruption else
        let decoded := take (Z.to_nat (zlen data - zlen src)) data in
        '(checksum, src) <-? or_fail Corruption (GetFixed32 src) ;;
        if negb (Value decoded =? checksum) then Fail Corruption else Ret (h, src))
  end.

(** ** Ranges *)

Definition BlobRecord_wf (r : BlobRecord) : Prop :=
  is_u32 (zlen (key r)) /\ is_u32 (zlen (value r)).

Definition BlobHandle_wf (h : BlobHandle) : Prop :=
  is_u64 (offset h) /\ is_u64 (size h) /\ is_u64 (index h).

Definition BlobIndex_wf (i : BlobIndex) : Prop :=
  is_u64 (file_number i) /\ BlobHandle_wf (blob_handle i) /\
  is_u64 (old_file_number i) /\ BlobHandle_wf (old_blob_handle i).

Definition BlockHandle_wf (h : BlockHandle) : Prop :=
  0 <= bh_offset h < 2 ^ 64 - 1 /\ 0 <= bh_size h < 2 ^ 64 - 1.

#[export] Hint Unfold BlobRecord_wf BlobHandle_wf BlobIndex_wf BlockHandle_wf : aegon.

(** ** Round trips *)

Lemma BlobRecord_roundtrip r rest :
  BlobRecord_wf r -> BlobRecord_DecodeFrom (BlobRecord_EncodeTo r ++ rest) = Ret (r, rest).
Proof.
  intros [Hk Hv]. unfold BlobRecord_DecodeFrom, BlobRecord_EncodeTo.
  do 2 decode_step. by destruct r.
Qed.

Lemma BlobHandle_roundtrip h rest :
  BlobHandle_wf h -> BlobHandle_DecodeFrom (BlobHandle_EncodeTo h ++ rest) = Ret (h, rest).
Proof.
  intros (Ho & Hs & Hi). unfold BlobHandle_DecodeFrom, BlobHandle_EncodeTo.
  do 3 decode_step. by destruct h.
Qed.

Lemma BlockHandle_roundtrip h enc rest :
  BlockHandle_wf h -> BlockHandle_EncodeTo h = Some enc ->
  BlockHandle_DecodeFrom (enc ++ rest) = Ret (h, rest) /\ 2 <= zlen enc <= kMaxEncodedLength.
Proof.
  intros [Ho Hs] Henc. unfold BlockHandle_EncodeTo in Henc. simplify_option_eq.
  assert (is_u64 (bh_offset h) /\ is_u64 (bh_size h)) as [Ho' Hs'] by (unfold is_u64; lia).
  split.
  - unfold BlockHandle_DecodeFrom, PutVarint64Varint64.
    change EncodeVarint64 with PutVarint64. do 2 decode_step. by destruct h.
  - unfold PutVarint64Varint64. rewrite zlen_app.
    pose proof (PutVarint64_bounds _ Ho'). pose proof (PutVarint64_bounds _ Hs').
    change EncodeVarint64 with PutVarint64. unfold kMaxEncodedLength. lia.
Qed.

#[export] Program Instance BlobRecord_codec : Codec BlobRecord := {
  codec_wf := BlobRecord_wf;
  codec_enc := BlobRecord_EncodeTo;
  codec_dec src :=
    match BlobRecord_DecodeFrom src with Ret p => Some p | Fail _ => None end }.
Next Obligation. intros. cbn in *. by rewrite BlobRecord_roundtrip. Qed.

#[export] Program Instance BlobHandle_codec : Codec BlobHandle := {
  codec_wf := BlobHandle_wf;
  codec_enc := BlobHandle_EncodeTo;
  codec_dec src :=
    match BlobHandle_DecodeFrom src with Ret p => Some p | Fail _ => None end }.
Next Obligation. intros. cbn in *. by rewrite BlobHandle_roundtrip. Qed.

Lemma PutVarint64_cons v : exists b p, PutVarint64 v = b :: p.
Proof.
  unfold PutVarint64, EncodeVarint64. cbn [EncodeVarint64_loop].
  destruct (v >=? 128); by eexists _, _.
Qed.

(** Decoding a blob index, when it carries a link to its previous location. *)
Lemma BlobIndex_roundtrip_linked self i rest :
  BlobIndex_wf i -> 0 < old_file_number i ->
  BlobIndex_DecodeFrom self (BlobIndex_EncodeTo i ++ rest) = Ret (i, rest).
Proof.
  intros (Hn & Hh & Hon & Hoh) Hpos. unfold BlobIndex_DecodeFrom, BlobIndex_EncodeTo.
  rewrite (proj2 (Z.ltb_lt _ _) Hpos). decode_step. decode_step.
  rewrite BlobHandle_roundtrip by done. cbn.
  destruct (PutVarint64_cons (old_file_number i)) as (b & p & Hb). rewrite Hb. cbn [app].
  replace (zlen _ =? 0) with false by (symmetry; apply Z.eqb_neq; zlia).
  cbn [negb]. rewrite app_comm_cons, <- Hb. decode_step.
  rewrite BlobHandle_roundtrip by done. by destruct i.
Qed.

(** Without a link nothing follows the handle, and the decoder keeps the link
    of the object it decodes into. *)
Lemma BlobIndex_roundtrip_unlinked self i :
  BlobIndex_wf i -> old_file_number i = 0 ->
  BlobIndex_DecodeFrom self (BlobIndex_EncodeTo i)
    = Ret ({| file_number := file_number i; blob_handle := blob_handle i;
              old_file_number := old_file_number self;
              old_blob_handle := old_blob_handle self |}, []).
Proof.
  intros (Hn & Hh & _ & _) H0. unfold BlobIndex_DecodeFrom, BlobIndex_EncodeTo.
  rewrite H0. cbn [Z.ltb Z.compare]. do 2 decode_step.
  rewrite BlobHandle_roundtrip by done. done.
Qed.

Lemma BlobFileHeader_roundtrip self h rest :
  (version h = kVersion1 /\ flags h = flags self) \/
  (version h = kVersion2 /\ (flags h = 0 \/ flags h = kHasUncompressionDictionary)) ->
  BlobFileHeader_DecodeFrom self (BlobFileHeader_EncodeTo h ++ rest) = Ret (h, rest)
  /\ zlen (BlobFileHeader_EncodeTo h) = BlobFileHeader_size h.
Proof.
  intros Hwf. unfold BlobFileHeader_DecodeFrom, BlobFileHeader_EncodeTo, BlobFileHeader_size.
  assert (is_u32 kHeaderMagicNumber) as Hm by done. assert (is_u32 (version h)) as Hv.
  { unfold is_u32. destruct Hwf as [[-> _]|[-> _]]; done. }
  do 2 decode_step.
  destruct Hwf as [[Hver Hfl]|[Hver Hfl]]; rewrite Hver; cbn -[Z.lnot];
    (split; [|by autorewrite with zlen]).
  - rewrite <- Hfl, <- Hver. by destruct h.
  - assert (is_u32 (flags h)) as Hf by (destruct Hfl as [-> | ->]; done).
    rewrite GetFixed32_Put by done. cbn -[Z.lnot].
    destruct h as [v f]; cbn in *. subst v. by destruct Hfl; subst f.
Qed.

Lemma resize_short n s : zlen s <= n -> exists pad, resize n s = s ++ pad /\ zlen (s ++ pad) = n.
Proof.
  intros Hs. exists (replicate (Z.to_nat n - length s) 0). unfold resize.
  unfold zlen in *. rewrite take_ge by lia. split; [done|].
  rewrite length_app, length_replicate. lia.
Qed.

Lemma is_bytes_replicate n b : is_byte b -> is_bytes (replicate n b).
Proof. intros. by apply Forall_replicate. Qed.

Lemma is_bytes_resize n s : is_bytes s -> is_bytes (resize n s).
Proof.
  intros Hs. apply is_bytes_app; [by apply Forall_take|]. by apply is_bytes_replicate.
Qed.

Lemma BlobFileFooter_length h enc : BlobFileFooter_EncodeTo h = Some enc -> zlen enc = kBlobFooterSize.
Proof.
  unfold BlobFileFooter_EncodeTo. intros H.
  destruct (BlockHandle_EncodeTo h) as [e|] eqn:E; [|done]. cbn in H. simplify_eq.
  autorewrite with zlen. unfold resize, zlen. rewrite length_app, length_take, length_replicate.
  unfold kBlobFooterSize, kMaxEncodedLength, kMaxVarint64Length. lia.
Qed.

Lemma BlobFileFooter_roundtrip h rest :
  BlockHandle_wf h ->
  exists enc, BlobFileFooter_EncodeTo h = Some enc /\
    BlobFileFooter_DecodeFrom (enc ++ rest) = Some (Ret (h, rest)).
Proof.
  intros Hwf. unfold BlobFileFooter_EncodeTo.
  destruct (BlockHandle_EncodeTo h) as [e|] eqn:E.
  2:{ exfalso. unfold BlockHandle_EncodeTo, assert in E. unfold BlockHandle_wf in Hwf.
      repeat (case_match; [|simplify_eq/=; lia]). done. }
  assert (is_bytes e) as Heb.
  { unfold BlockHandle_EncodeTo in E. simplify_option_eq. apply is_bytes_app; apply is_bytes_PutVarint64. }
  destruct (BlockHandle_roundtrip h e [] Hwf E) as [_ Hlen].
  destruct (resize_short (kBlobFooterSize - 12) e) as (pad & Hr & Hpad).
  { unfold kBlobFooterSize. lia. }
  pose proof (is_bytes_resize (kBlobFooterSize - 12) e Heb) as Hrb. rewrite Hr in Hrb. cbn [mbind option_bind]. rewrite Hr.
  eexists. split; [reflexivity|]. unfold BlobFileFooter_DecodeFrom.
  set (magic := PutFixed64 kFooterMagicNumber).
  set (crc := PutFixed32 (Value ((e ++ pad) ++ magic))).
  destruct (BlockHandle_roundtrip h e (pad ++ magic ++ crc ++ rest) Hwf E) as [Hd _].
  rewrite <- !app_assoc, Hd. rewrite (zlen_app e).
  replace (kBlobFooterSize - 12 - _) with (zlen pad) by (rewrite zlen_app in Hpad; lia).
  unfold assert. destruct (Z.leb_spec (zlen pad) (zlen (pad ++ magic ++ crc ++ rest))) as [_|Hc].
  2:{ rewrite zlen_app in Hc. pose proof (zlen_nonneg (magic ++ crc ++ rest)). lia. }
  cbn [mbind option_bind]. f_equal. rewrite zlen_to_nat, drop_app_length.
  unfold magic at 1. rewrite GetFixed64_Put by done. cbn -[Z.sub Z.add].
  rewrite (app_assoc e), (app_assoc (e ++ pad)).
  replace (Z.to_nat _) with (length ((e ++ pad) ++ magic)).
  2:{ unfold zlen. rewrite !length_app. lia. }
  rewrite take_app_length. unfold crc.
  assert (is_u32 (Value ((e ++ pad) ++ magic))) as Hv.
  { apply Value_u32, is_bytes_app; [done|apply is_bytes_PutFixed64]. }
  rewrite GetFixed32_Put by done. cbn -[Value Z.sub Z.add]. by rewrite Z.eqb_refl.
Qed.

(** ** Encoder and decoder *)

Lemma is_bytes_BlobRecord r :
  is_bytes (key r) -> is_bytes (value r) -> is_bytes (BlobRecord_EncodeTo r).
Proof. intros. unfold BlobRecord_EncodeTo. auto with aegon. Qed.

Lemma DecodeInto_roundtrip r :
  BlobRecord_wf r -> DecodeInto BlobRecord_DecodeFrom (BlobRecord_EncodeTo r) false = Ret r.
Proof.
  intros Hr. unfold DecodeInto. rewrite <- (app_nil_r (BlobRecord_EncodeTo r)).
  by rewrite BlobRecord_roundtrip.
Qed.

Lemma take_5_header (a : bytes) (b : Z) rest : length a = 4%nat -> take 5 (a ++ [b] ++ rest) = a ++ [b].
Proof. intros Ha. do 5 (destruct a as [|? a]; try done). Qed.

Lemma DecodeHeader_fields crc sz c body :
  is_u32 crc -> is_u32 sz ->
  DecodeHeader (PutFixed32 crc ++ (PutFixed32 sz ++ [c]) ++ body)
    = Ret ({| crc_ := crc; header_crc_ := Value (PutFixed32 sz ++ [c]);
              record_size_ := sz; compression_ := c |}, body).
Proof.
  intros Hcrc Hsz. unfold DecodeHeader. rewrite GetFixed32_Put by done.
  cbn -[Value Z.to_nat take app].
  change (Z.to_nat (kRecordHeaderSize - 4)) with 5%nat.
  rewrite <- app_assoc, take_5_header by done. by rewrite GetFixed32_Put.
Qed.

Section EncodeDecode.
Context (CompressData UncompressData : Z -> bytes -> option bytes).
(** The compression library: what it compressed it uncompresses, and it
    produces bytes. *)
Context (Huncompress : forall t x y, CompressData t x = Some y -> UncompressData t y = Some x).
Context (Hcompress_bytes : forall t x y, CompressData t x = Some y -> is_bytes y).

Lemma Compress_cases t x y c :
  Compress CompressData t x = (y, c) ->
  (y = x /\ c = kNoCompression) \/ (c = t /\ t <> kNoCompression /\ CompressData t x = Some y).
Proof.
  unfold Compress. destruct (Z.eqb_spec t kNoCompression) as [->|].
  - intros [= <- <-]. by left.
  - destruct (CompressData t x); intros [= <- <-]; auto.
Qed.

Lemma EncodeRecord_DecodeRecord t r e rest :
  is_byte t -> BlobRecord_wf r -> is_bytes (key r) -> is_bytes (value r) ->
  EncodeRecord CompressData t r = Some e ->
  length (header_ e) = 9%nat /\ zlen (encoded e) = GetEncodedSize e /\
  exists d, DecodeHeader (encoded e ++ rest) = Ret (d, record_ e ++ rest) /\
    record_size_ d = zlen (record_ e) /\
    DecodeRecord UncompressData d (record_ e ++ rest) = Some (Ret (r, rest)).
Proof.
  intros Ht Hr Hk Hv He. unfold EncodeRecord, EncodeSlice in He.
  destruct (Compress CompressData t (BlobRecord_EncodeTo r)) as [out c] eqn:Ec.
  apply Compress_cases in Ec. apply bind_Some in He as ([] & Hlen & He). apply Some_inj in He. subst e.
  unfold assert in Hlen. case_match; [|done]. clear Hlen.
  assert (is_bytes out /\ is_byte c) as [Hout Hcb].
  { destruct Ec as [[-> ->]|(-> & _ & Hc)]; [split; [by apply is_bytes_BlobRecord|done]|].
    split; [by eapply Hcompress_bytes|done]. }
  rewrite (u8_small c) by exact Hcb.
  assert (is_u32 (zlen out)) as Hlen by (pose proof (zlen_nonneg out); unfold is_u32; lia).
  rewrite u32_small by done.
  set (h4 := PutFixed32 (zlen out) ++ [c]).
  assert (is_bytes h4) as Hh4 by (unfold h4; auto with aegon).
  assert (is_u32 (Extend (Value h4) out)) as Hcrc by auto with aegon.
  assert (length h4 = 5%nat) as Hl4 by (unfold h4; by rewrite length_app, length_PutFixed32).
  split; [cbn [header_]; by rewrite length_app, length_PutFixed32, Hl4|]. split.
  { unfold encoded, GetEncodedSize. cbn [header_ record_]. autorewrite with zlen.
    unfold zlen at 1. rewrite Hl4. unfold kRecordHeaderSize. lia. }
  eexists. split.
  { unfold encoded. cbn [header_ record_]. rewrite <- app_assoc.
    unfold h4 at 2. rewrite <- app_assoc. by apply DecodeHeader_fields. }
  split; [done|].
  unfold DecodeRecord. cbn [record_size_ header_crc_ crc_ compression_ record_].
  unfold assert. destruct (Z.leb_spec (zlen out) (zlen (out ++ rest))) as [_|Hc]; [|zlia].
  cbn [mbind option_bind]. rewrite zlen_to_nat, take_app_length, drop_app_length.
  rewrite Z.eqb_refl. cbn [negb].
  destruct Ec as [[-> ->]|(-> & Hne & Hc)].
  - cbn [Z.eqb kNoCompression]. by rewrite DecodeInto_roundtrip.
  - destruct (Z.eqb_spec t kNoCompression) as [|_]; [done|].
    unfold Uncompress. destruct (Z.eqb_spec t kNoCompression) as [|_]; [done|].
    cbn. rewrite (Huncompress _ _ _ Hc). cbn. by rewrite DecodeInto_roundtrip.
Qed.
End EncodeDecode.

Lemma GetFixed32_result src v src' :
  GetFixed32 src = Some (v, src') ->
  exists b, src = b ++ src' /\ length b = 4%nat /\ v = le_value b.
Proof.
  unfold GetFixed32. destruct (Z.ltb_spec (zlen src) 4) as [|H]; [done|].
  intros [= <- <-]. exists (take 4 src). rewrite take_drop, length_take.
  unfold zlen in H. split; [done|]. split; [lia|done].
Qed.

Lemma PutFixed32_le_value b : is_bytes b -> length b = 4%nat -> PutFixed32 (le_value b) = b.
Proof.
  intros Hb Hl. unfold PutFixed32. rewrite <- Hl. clear Hl.
  induction Hb as [|x b Hx Hb IH]; [done|]. cbn [le_value length le_bytes].
  rewrite lor_shiftl_add by (unfold is_byte in Hx; lia). f_equal.
  - unfold u8. change (2 ^ 8) with 256. rewrite Z_mod_plus_full. by apply Z.mod_small.
  - rewrite Z.shiftr_div_pow2 by lia. rewrite Z.div_add by lia.
    unfold is_byte in Hx. by rewrite Z.div_small by lia.
Qed.

(** A record is only accepted when the stored checksum is the checksum of the
    length, the compression type and the stored bytes. *)
Lemma DecodeRecord_checked UncompressData src d src1 r rest :
  is_bytes src ->
  DecodeHeader src = Ret (d, src1) ->
  DecodeRecord UncompressData d src1 = Some (Ret (r, rest)) ->
  exists stored body, src = stored ++ body ++ rest /\
    stored = PutFixed32 (Value body) /\ zlen body = 5 + record_size_ d.
Proof.
  intros Hb Hh Hd. unfold DecodeHeader in Hh.
  destruct (GetFixed32 src) as [[crc s1]|] eqn:E1; [|done]. cbn -[Value] in Hh.
  destruct (GetFixed32 s1) as [[rs s2]|] eqn:E2; [|done]. cbn -[Value] in Hh.
  destruct s2 as [|c s2]; [done|]. cbn -[Value] in Hh. simplify_eq.
  apply GetFixed32_result in E1 as (b4 & -> & Hl1 & ->).
  apply GetFixed32_result in E2 as (r4 & -> & Hl2 & ->).
  unfold DecodeRecord in Hd. cbn [record_size_ header_crc_ crc_ compression_] in Hd.
  apply bind_Some in Hd as ([] & Ha & Hd). unfold assert in Ha.
  change (Z.to_nat (kRecordHeaderSize - 4)) with 5%nat in Hd.
  destruct (Z.leb_spec (le_value r4) (zlen src1)) as [Hle|]; [|done].
  destruct (Z.eqb_spec (Extend (Value (take 5 (r4 ++ c :: src1)))
    (take (Z.to_nat (le_value r4)) src1)) (le_value b4)) as [Hcrc|]; [|done].
  apply Forall_app in Hb as [Hb4 Hb]. pose proof Hb as Hb'.
  apply Forall_app in Hb as [Hr4 Hb]. inversion Hb as [|? ? Hcb Hs1]; subst.
  change (r4 ++ c :: src1) with (r4 ++ [c] ++ src1) in Hcrc.
  rewrite take_5_header in Hcrc by done.
  set (k := Z.to_nat (le_value r4)) in *.
  assert (is_bytes (take k src1)) as Htk by (apply Forall_take; exact Hs1).
  assert (is_bytes (r4 ++ [c])) as Hrc.
  { apply is_bytes_app; [done|]. apply is_bytes_cons; [done|constructor]. }
  rewrite Extend_Value in Hcrc by done.
  assert (rest = drop k src1) as ->.
  { revert Hd. cbn [negb]. destruct (c =? kNoCompression).
    - destruct (DecodeInto _ _ _); cbn; congruence.
    - destruct (Uncompress _ _ _) as [[]|]; cbn; try congruence.
      destruct (DecodeInto _ _ _); cbn; congruence. }
  exists b4, ((r4 ++ [c]) ++ take k src1). split.
  - rewrite <- !app_assoc. cbn [app]. by rewrite take_drop.
  - rewrite Hcrc. split; [by rewrite PutFixed32_le_value|]. cbn [record_size_].
    assert (is_u32 (le_value r4)) by by apply is_u32_le_value.
    rewrite !zlen_app. unfold zlen, is_u32 in *. rewrite length_take. cbn. lia.
Qed.
