(* ===== verification/BitMap.v ===== *)
(** * BitMap: the bitmap of invalid entries of a blob file

    [blob_validation_check.h] and [blob_validation_check.cc]. Bit [i] is the
    bit [7 - i mod 8] of byte [i / 8]; 1 means that the entry is invalid. *)
From S2P Require Import Prelude Coding.

Local Open Scope Z_scope.

(** [bits_] is [None] for the null pointer. A function that touches memory
    outside the allocation is [None]. *)
Record BitMap : Type := {
  valid_bits_ : Z;
  byte_size_ : Z;
  bits_ : option bytes }.

(** The constructors. *)
Definition BitMap_new (validBits : Z) : BitMap :=
  let byte := Z.shiftr validBits 3 + 1 in
  {| valid_bits_ := validBits; byte_size_ := byte;
     bits_ := Some (replicate (Z.to_nat byte) 0) |}.

Definition BitMap_default : BitMap :=
  {| valid_bits_ := 0; byte_size_ := 0; bits_ := None |}.

(** The move constructor: the new object and the emptied source. *)
Definition BitMap_move (bitMap : BitMap) : BitMap * BitMap :=
  ({| valid_bits_ := 0; byte_size_ := 0; bits_ := bits_ bitMap |},
   {| valid_bits_ := valid_bits_ bitMap; byte_size_ := byte_size_ bitMap; bits_ := None |}).

Definition load_byte (m : bytes) (byte : Z) : option Z :=
  b ← mem_read m byte 1; head b.

Definition SetBit (self : BitMap) (bitoffset on : Z) : option (Status * BitMap) :=
  if negb (Z.land on (Z.lnot 1) =? 0) || (valid_bits_ self <? bitoffset)
  then Some (InvalidArgument, self)
  else
    bits ← bits_ self;
    let byte := Z.shiftr bitoffset 3 in
    byteval ← load_byte bits byte;
    let bit := 7 - Z.land bitoffset 7 in
    let bitval := Z.land byteval (Z.shiftl 1 bit) in
    if negb ((if bitval =? 0 then 0 else 1) =? on) then
      let byteval := Z.land byteval (Z.lnot (Z.shiftl 1 bit)) in
      let byteval := Z.lor byteval (Z.shiftl (Z.land on 1) bit) in
      bits ← mem_write bits byte [u8 byteval];
      Some (OK, {| valid_bits_ := valid_bits_ self; byte_size_ := byte_size_ self;
                   bits_ := Some bits |})
    else Some (OK, self).

Definition GetBit (self : BitMap) (bitoffset : Z) : option (Status * Z) :=
  if valid_bits_ self <? bitoffset then Some (InvalidArgument, 0)
  else
    bits ← bits_ self;
    let byte := Z.shiftr bitoffset 3 in
    let bit := 7 - Z.land bitoffset 7 in
    b ← load_byte bits byte;
    let bitval := Z.land b (Z.shiftl 1 bit) in
    Some (OK, if bitval =? 0 then 0 else 1).

Inductive BitOpsType : Type := kBitAnd | kBitOr | kBitXor.

(** The operator of a [BitOpsType], on words as on bytes. *)
Definition bit_op (type : BitOpsType) : Z -> Z -> Z :=
  match type with kBitAnd => Z.land | kBitOr => Z.lor | kBitXor => Z.lxor end.

(** [lres[i] op= lp[i]] at byte offset [off]: little-endian words. *)
Definition word_op (type : BitOpsType) (lp lres : bytes) (off : Z) : option bytes :=
  r ← mem_read lres off 8;
  p ← mem_read lp off 8;
  mem_write lres off (le_bytes 8 (bit_op type (le_value r) (le_value p))).

(** The fast path, four words at a time: the bytes and the next index [j]. *)
Fixpoint fast_path (fuel : nat) (type : BitOpsType) (lp lres : bytes)
    (j aligned_remain_size : Z) : option (bytes * Z) :=
  match fuel with
  | O => Some (lres, j)
  | S fuel =>
      if aligned_remain_size >=? 32 then
        lres ← word_op type lp lres j;
        lres ← word_op type lp lres (j + 8);
        lres ← word_op type lp lres (j + 16);
        lres ← word_op type lp lres (j + 24);
        fast_path fuel type lp lres (j + 32) (aligned_remain_size - 32)
      else Some (lres, j)
  end.

(** The byte loop [for (; j < ops_size; j++)]. *)
Fixpoint byte_loop (n : nat) (type : BitOpsType) (other bits : bytes) (j : Z) : option bytes :=
  match n with
  | O => Some bits
  | S n =>
      output ← load_byte bits j;
      byte ← load_byte other j;
      bits ← mem_write bits j [u8 (bit_op type output byte)];
      byte_loop n type other bits (j + 1)
  end.

(** [BitOps]; [other] is [None] for the null pointer. *)
Definition BitOps (self : BitMap) (type : BitOpsType) (other : option BitMap)
    : option (Status * BitMap) :=
  match other with
  | None => Some (InvalidArgument, self)
  | Some other =>
      if negb (valid_bits_ self =? valid_bits_ other) then Some (InvalidArgument, self)
      else
        let ops_size := if byte_size_ other <? byte_size_ self
                        then byte_size_ other else byte_size_ self in
        if negb (ops_size =? 0) then
          bits ← bits_ self;
          obits ← bits_ other;
          '(bits, j) ← fast_path (Z.to_nat ops_size) type obits bits 0 ops_size;
          bits ← byte_loop (Z.to_nat (ops_size - j)) type obits bits j;
          Some (OK, {| valid_bits_ := valid_bits_ self; byte_size_ := byte_size_ self;
                       bits_ := Some bits |})
        else Some (OK, self)
  end.

(** [CopyTo]: the status and the new destination. *)
Definition CopyTo (self dest : BitMap) : option (Status * BitMap) :=
  match bits_ dest with
  | Some _ => Some (Corruption, dest)
  | None =>
      bits ← bits_ self;
      copy ← mem_read bits 0 (byte_size_ self);
      Some (OK, {| valid_bits_ := valid_bits_ self; byte_size_ := byte_size_ self;
                   bits_ := Some copy |})
  end.

(** ** The bits of a bitmap *)

Definition bit_of (l : bytes) (i : Z) : bool :=
  Z.testbit (nth (Z.to_nat (i / 8)) l 0) (7 - i mod 8).

Definition get (b : BitMap) (i : Z) : bool :=
  match bits_ b with Some l => bit_of l i | None => false end.

Definition BitMap_wf (b : BitMap) : Prop :=
  0 <= valid_bits_ b < 2 ^ 64 /\ byte_size_ b = valid_bits_ b / 8 + 1 /\
  exists l, bits_ b = Some l /\ zlen l = byte_size_ b /\ is_bytes l.

Lemma BitMap_new_wf n : 0 <= n < 2 ^ 64 -> BitMap_wf (BitMap_new n).
Proof.
  intros Hn. unfold BitMap_wf, BitMap_new. cbn -[Z.shiftr Z.div].
  rewrite Z.shiftr_div_pow2 by lia. change (2 ^ 3) with 8.
  split; [done|]. split; [done|]. eexists. split; [done|].
  assert (0 <= n / 8) by (apply Z.div_pos; lia).
  split; [unfold zlen; rewrite length_replicate; lia|]. by apply Forall_replicate.
Qed.

Lemma nth_replicate_0 n k : nth n (replicate k 0) 0 = 0.
Proof. revert n. induction k; intros [|n]; simpl; auto. Qed.

Lemma BitMap_new_get n i : get (BitMap_new n) i = false.
Proof. cbn -[Z.shiftr]. unfold bit_of. by rewrite nth_replicate_0, Z.bits_0. Qed.

Lemma load_byte_nth l i : 0 <= i < zlen l -> load_byte l i = Some (nth (Z.to_nat i) l 0).
Proof.
  intros Hi. destruct (mem_split l i 1) as (a & b & c & -> & Ha & Hb); [lia..|].
  destruct b as [|x [|? ?]]; [done| |unfold zlen in Hb; simpl in Hb; lia].
  unfold load_byte. rewrite mem_read_app by done. cbn. f_equal.
  rewrite app_nth2 by (unfold zlen in Ha; lia).
  replace (_ - _)%nat with O by (unfold zlen in Ha; lia). done.
Qed.

(** Storing a byte in range changes that byte only. *)
Lemma mem_write_byte l i x :
  0 <= i < zlen l -> exists l', mem_write l i [x] = Some l' /\ zlen l' = zlen l /\
    (is_bytes l -> is_byte x -> is_bytes l') /\
    forall k, nth k l' 0 = if Nat.eqb k (Z.to_nat i) then x else nth k l 0.
Proof.
  intros Hi. destruct (mem_split l i 1) as (a & b & c & -> & Ha & Hb); [lia..|].
  destruct b as [|y [|? ?]]; [done| |unfold zlen in Hb; simpl in Hb; lia].
  exists (a ++ [x] ++ c). rewrite mem_write_app by done. split; [done|]. split; [zlia|]. split.
  - intros Hl Hx. apply Forall_app in Hl as [Hla Hl]. apply Forall_app in Hl as [_ Hl].
    apply is_bytes_app; [done|]. by apply is_bytes_cons.
  - assert (Z.to_nat i = length a) as -> by (unfold zlen in Ha; lia).
    intros k. destruct (Nat.eqb_spec k (length a)) as [->|Hk].
    + rewrite app_nth2, Nat.sub_diag by lia. done.
    + destruct (Nat.lt_ge_cases k (length a)).
      * by rewrite !app_nth1 by lia.
      * rewrite (app_nth2 a ([x] ++ c)), (app_nth2 a ([y] ++ c)) by lia.
        by destruct (k - length a)%nat as [|m] eqn:E; [lia|].
Qed.

Lemma land_pow2_zero v k : 0 <= k -> Z.eqb (Z.land v (Z.shiftl 1 k)) 0 = negb (Z.testbit v k).
Proof.
  intros Hk. rewrite Z.shiftl_1_l. apply eq_true_iff_eq. rewrite Z.eqb_eq, negb_true_iff. split.
  - intros H. apply (f_equal (fun x => Z.testbit x k)) in H.
    rewrite Z.land_spec, Z.pow2_bits_true, Z.bits_0, andb_true_r in H by lia. done.
  - intros H. apply Z.bits_inj'. intros i Hi. rewrite Z.land_spec, Z.bits_0, Z.pow2_bits_eqb by lia.
    destruct (Z.eqb_spec k i) as [->|]; [by rewrite H|apply andb_false_r].
Qed.

Lemma testbit_u8 v k : 0 <= k < 8 -> Z.testbit (u8 v) k = Z.testbit v k.
Proof. intros. unfold u8. by rewrite Z.mod_pow2_bits_low by lia. Qed.

Lemma testbit_store v k on i :
  0 <= k < 8 -> 0 <= i < 8 -> on = 0 \/ on = 1 ->
  Z.testbit (u8 (Z.lor (Z.land v (Z.lnot (Z.shiftl 1 k))) (Z.shiftl (Z.land on 1) k))) i
    = if i =? k then on =? 1 else Z.testbit v i.
Proof.
  intros Hk Hi Hon. rewrite testbit_u8 by lia.
  rewrite Z.lor_spec, Z.land_spec, Z.lnot_spec, Z.shiftl_1_l, Z.pow2_bits_eqb by lia.
  rewrite (Z.eqb_sym k i).
  assert (Z.testbit (Z.shiftl (Z.land on 1) k) i = (i =? k) && (on =? 1)) as ->.
  { destruct Hon as [-> | ->]; cbn [Z.land Pos.land].
    - by rewrite Z.shiftl_0_l, Z.bits_0, andb_false_r.
    - rewrite Z.shiftl_1_l, Z.pow2_bits_eqb by lia. by rewrite (Z.eqb_sym k), andb_true_r. }
  destruct (i =? k); cbn; [by rewrite andb_false_r|]. by rewrite andb_true_r, orb_false_r.
Qed.

Lemma bit_index i : 0 <= i -> Z.shiftr i 3 = i / 8 /\ Z.land i 7 = i mod 8 /\ 0 <= i mod 8 < 8.
Proof.
  intros Hi. rewrite Z.shiftr_div_pow2 by lia. change 7 with (2 ^ 3 - 1).
  rewrite land_mask by lia. split; [done|]. split; [done|]. apply Z.mod_pos_bound. lia.
Qed.

Lemma bit_in_range b l i :
  BitMap_wf b -> bits_ b = Some l -> 0 <= i <= valid_bits_ b -> 0 <= i / 8 < zlen l.
Proof.
  intros (Hv & Hs & l' & Hl & Hlen & _) Hl' Hi. rewrite Hl in Hl'. simplify_eq.
  rewrite Hlen, Hs. split; [apply Z.div_pos; lia|].
  pose proof (Z.div_le_mono i (valid_bits_ b) 8). lia.
Qed.

Lemma GetBit_spec b i :
  BitMap_wf b -> 0 <= i <= valid_bits_ b -> GetBit b i = Some (OK, Z.b2z (get b i)).
Proof.
  intros Hwf Hi. unfold GetBit, get. destruct (Z.ltb_spec (valid_bits_ b) i) as [|_]; [lia|].
  destruct (bit_index i) as (-> & -> & Hm); [lia|].
  destruct (bits_ b) as [l|] eqn:Hl.
  2:{ destruct Hwf as (_ & _ & l & Hl' & _). congruence. }
  cbn [mbind option_bind]. rewrite load_byte_nth by by eapply bit_in_range.
  cbn [mbind option_bind]. rewrite land_pow2_zero by lia. unfold bit_of.
  by destruct (Z.testbit _ _).
Qed.

Lemma SetBit_spec b i on :
  BitMap_wf b -> 0 <= i <= valid_bits_ b -> on = 0 \/ on = 1 ->
  exists b', SetBit b i on = Some (OK, b') /\ BitMap_wf b' /\
    valid_bits_ b' = valid_bits_ b /\
    forall j, 0 <= j -> get b' j = if j =? i then on =? 1 else get b j.
Proof.
  intros Hwf Hi Hon. unfold SetBit.
  assert ((Z.land on (Z.lnot 1) =? 0) = true) as -> by by destruct Hon as [-> | ->].
  destruct (Z.ltb_spec (valid_bits_ b) i) as [|_]; [lia|]. cbn [negb orb].
  destruct (bit_index i) as (-> & -> & Hm); [lia|].
  pose proof Hwf as (Hv & Hs & l & Hl & Hlen & Hlb). rewrite Hl. cbn [mbind option_bind].
  pose proof (bit_in_range b l i Hwf Hl Hi) as Hr.
  rewrite load_byte_nth by done. cbn [mbind option_bind].
  set (v := nth (Z.to_nat (i / 8)) l 0). rewrite land_pow2_zero by lia.
  assert (forall j, 0 <= j -> j / 8 = i / 8 -> (j =? i) = (7 - j mod 8 =? 7 - i mod 8)) as Hji.
  { intros j Hj He. apply eq_true_iff_eq. rewrite !Z.eqb_eq. split; [by intros ->|intros Hmm].
    rewrite (Z.div_mod j 8), (Z.div_mod i 8) by lia. lia. }
  destruct (negb (_ =? on)) eqn:E.
  - destruct (mem_write_byte l (i / 8)
      (u8 (Z.lor (Z.land v (Z.lnot (Z.shiftl 1 (7 - i mod 8))))
              (Z.shiftl (Z.land on 1) (7 - i mod 8))))) as (l' & -> & Hl' & Hb' & Hn'); [done|].
    cbn [mbind option_bind]. eexists. split; [done|]. split; [|split; [done|]].
    + split; [done|]. split; [done|]. exists l'. cbn. rewrite Hl'.
      split; [done|]. split; [done|]. auto with aegon.
    + intros j Hj. unfold get. cbn [bits_]. rewrite Hl. unfold bit_of. rewrite Hn'.
      pose proof (Z.mod_pos_bound j 8 ltac:(lia)).
      assert (0 <= j / 8) by (apply Z.div_pos; lia).
      destruct (Nat.eqb_spec (Z.to_nat (j / 8)) (Z.to_nat (i / 8))) as [He|He].
      * assert (j / 8 = i / 8) as He' by lia.
        rewrite testbit_store by (done || lia). rewrite Hji by done.
        unfold v. by rewrite He'.
      * destruct (Z.eqb_spec j i) as [->|]; [by destruct He|done].
  - exists b. split; [done|]. split; [done|]. split; [done|]. intros j Hj.
    apply negb_false_iff in E. destruct (Z.eqb_spec j i) as [->|]; [|done].
    unfold get. rewrite Hl. unfold bit_of. fold v.
    destruct Hon as [-> | ->], (Z.testbit v _); done.
Qed.

(** ** The bit operations *)

(** The reference: byte by byte. *)
Definition bytewise (type : BitOpsType) (a b : bytes) : bytes := zip_with (bit_op type) a b.

Definition bool_op (type : BitOpsType) : bool -> bool -> bool :=
  match type with kBitAnd => andb | kBitOr => orb | kBitXor => xorb end.

Lemma bit_op_spec type a b i :
  Z.testbit (bit_op type a b) i = bool_op type (Z.testbit a i) (Z.testbit b i).
Proof. destruct type; cbn; by rewrite ?Z.land_spec, ?Z.lor_spec, ?Z.lxor_spec. Qed.

Lemma bool_op_false type : bool_op type false false = false.
Proof. by destruct type. Qed.

Lemma bit_op_byte type a b : is_byte a -> is_byte b -> is_byte (bit_op type a b).
Proof.
  unfold is_byte. intros Ha Hb. change 256 with (2 ^ 8).
  assert (0 <= bit_op type a b) as Hnn.
  { destruct type; cbn; [apply Z.land_nonneg|apply Z.lor_nonneg|apply Z.lxor_nonneg]; lia. }
  split; [done|]. replace (bit_op type a b) with (u8 (bit_op type a b)); [apply is_byte_u8|].
  unfold u8. rewrite <- Z.land_ones by lia. apply Z.bits_inj'. intros i Hi.
  rewrite Z.land_spec. destruct (Z.lt_ge_cases i 8).
  - rewrite Z.ones_spec_low by lia. apply andb_true_r.
  - rewrite Z.ones_spec_high by lia. rewrite bit_op_spec, !(testbit_above _ 8) by lia.
    by rewrite bool_op_false.
Qed.

(** A word operation is the byte operation on each of its bytes. *)
Lemma bit_op_le_value type a b :
  is_bytes a -> is_bytes b -> length a = length b ->
  le_bytes (length a) (bit_op type (le_value a) (le_value b)) = bytewise type a b.
Proof.
  intros Ha. revert b. induction Ha as [|x a Hx Ha IH]; intros [|y b] Hb Hlen; try done.
  inversion Hb as [|? ? Hy Hb']; subst. cbn [length le_bytes le_value bytewise zip_with].
  assert (forall u z, is_byte u -> forall i, 0 <= i ->
    Z.testbit (Z.lor u (Z.shiftl z 8)) i
      = if i <? 8 then Z.testbit u i else Z.testbit z (i - 8)) as Hbit.
  { intros u z Hu i Hi. rewrite Z.lor_spec, Z.shiftl_spec by lia.
    destruct (Z.ltb_spec i 8).
    - rewrite (Z.testbit_neg_r z) by lia. apply orb_false_r.
    - by rewrite (testbit_above u 8) by (unfold is_byte in Hu; lia). }
  f_equal.
  - pose proof (bit_op_byte type x y Hx Hy) as Hxy. apply Z.bits_inj'. intros i Hi.
    unfold u8. destruct (Z.lt_ge_cases i 8).
    + rewrite Z.mod_pow2_bits_low, !bit_op_spec, !Hbit by (done || lia).
      by destruct (Z.ltb_spec i 8); [|lia].
    + rewrite Z.mod_pow2_bits_high by lia. unfold is_byte in Hxy.
      by rewrite (testbit_above _ 8) by lia.
  - change (zip_with (bit_op type) a b) with (bytewise type a b). rewrite <- (IH b) by (done || by injection Hlen). f_equal.
    apply Z.bits_inj'. intros i Hi.
    rewrite Z.shiftr_spec, !bit_op_spec, !Hbit by (done || lia).
    destruct (Z.ltb_spec (i + 8) 8); [lia|]. by rewrite Z.add_simpl_r.
Qed.

(** What the loops keep: the first [j] bytes are done. *)
Definition ops_done (type : BitOpsType) (lp a : bytes) (j : Z) (lres : bytes) : Prop :=
  exists p1 p2 a1 a2, lp = p1 ++ p2 /\ a = a1 ++ a2 /\ zlen p1 = j /\ zlen a1 = j /\
    lres = bytewise type a1 p1 ++ a2.

Lemma bytewise_app type a1 a2 b1 b2 :
  length a1 = length b1 -> bytewise type (a1 ++ a2) (b1 ++ b2) = bytewise type a1 b1 ++ bytewise type a2 b2.
Proof. apply zip_with_app. Qed.

Lemma length_bytewise type a b : length a = length b -> length (bytewise type a b) = length a.
Proof. intros H. unfold bytewise. rewrite length_zip_with. lia. Qed.

(** One access of [n] bytes at [j] that computes the byte operation. *)
Lemma ops_done_step type lp a lres j n :
  is_bytes lp -> is_bytes a -> 0 <= j -> 0 <= n -> ops_done type lp a j lres ->
  j + n <= zlen lp -> j + n <= zlen a ->
  exists r p, mem_read lres j n = Some r /\ mem_read lp j n = Some p /\
    is_bytes r /\ is_bytes p /\ length r = Z.to_nat n /\ length p = Z.to_nat n /\
    exists lres', mem_write lres j (bytewise type r p) = Some lres' /\
      ops_done type lp a (j + n) lres'.
Proof.
  intros Hlp Ha Hj Hn (p1 & p2 & a1 & a2 & -> & -> & Hp1 & Ha1 & ->) Hlp' Ha'.
  apply Forall_app in Hlp as [Hbp1 Hbp2]. apply Forall_app in Ha as [Hba1 Hba2].
  destruct (mem_split p2 0 n) as ([|? ?] & p & p3 & -> & Hz & Hp); [lia|lia|zlia| |exfalso; zlia].
  destruct (mem_split a2 0 n) as ([|? ?] & r & a3 & -> & Hz2 & Hr); [lia|lia|zlia| |exfalso; zlia].
  assert (length a1 = length p1) as Hl by (unfold zlen in *; lia).
  assert (length r = length p) as Hl2 by (unfold zlen in *; lia).
  assert (zlen (bytewise type a1 p1) = j) as Hb.
  { unfold zlen in *. rewrite length_bytewise by done. lia. }
  cbn [app] in *. exists r, p.
  split; [by apply mem_read_app|]. split; [by apply mem_read_app|].
  apply Forall_app in Hbp2 as [Hbp _]. apply Forall_app in Hba2 as [Hbr _].
  split; [done|]. split; [done|]. split; [unfold zlen in *; lia|]. split; [unfold zlen in *; lia|].
  exists (bytewise type a1 p1 ++ bytewise type r p ++ a3). split.
  - apply mem_write_app; [done|]. unfold zlen. by rewrite length_bytewise.
  - exists (p1 ++ p), p3, (a1 ++ r), a3. rewrite <- !app_assoc.
    split; [done|]. split; [done|]. split; [zlia|]. split; [zlia|].
    rewrite bytewise_app by done. by rewrite <- app_assoc.
Qed.

Lemma word_op_spec type lp a lres j :
  is_bytes lp -> is_bytes a -> 0 <= j -> ops_done type lp a j lres ->
  j + 8 <= zlen lp -> j + 8 <= zlen a ->
  exists lres', word_op type lp lres j = Some lres' /\ ops_done type lp a (j + 8) lres'.
Proof.
  intros Hlp Ha Hj Hd H1 H2.
  destruct (ops_done_step type lp a lres j 8) as (r & p & Er & Ep & Hr & Hp & Hlr & Hlp8 & lres' & Ew & Hd');
    [done|done|lia|lia|done|done|done|].
  exists lres'. split; [|done]. unfold word_op. rewrite Er, Ep. cbn [mbind option_bind].
  change 8%nat with (Z.to_nat 8). rewrite <- Hlr, bit_op_le_value by (done || congruence). done.
Qed.

Lemma fast_path_spec fuel type lp a lres j rem :
  is_bytes lp -> is_bytes a -> 0 <= j -> 0 <= rem -> ops_done type lp a j lres ->
  j + rem <= zlen lp -> j + rem <= zlen a ->
  exists lres' j', fast_path fuel type lp lres j rem = Some (lres', j') /\
    j <= j' <= j + rem /\ ops_done type lp a j' lres'.
Proof.
  intros Hlp Ha. revert lres j rem. induction fuel as [|fuel IH];
    intros lres j rem Hj Hrem Hd H1 H2; cbn [fast_path].
  { exists lres, j. split; [done|]. split; [lia|done]. }
  rewrite Z.geb_leb. destruct (Z.leb_spec 32 rem); [|exists lres, j; split; [done|]; split; [lia|done]].
  destruct (word_op_spec type lp a lres j) as (l1 & -> & Hd1); [done|done|lia|done|lia|lia|].
  destruct (word_op_spec type lp a l1 (j + 8)) as (l2 & E2 & Hd2); [done|done|lia|done|lia|lia|].
  replace (j + 8 + 8) with (j + 16) in Hd2 by lia.
  destruct (word_op_spec type lp a l2 (j + 16)) as (l3 & E3 & Hd3); [done|done|lia|done|lia|lia|].
  replace (j + 16 + 8) with (j + 24) in Hd3 by lia.
  destruct (word_op_spec type lp a l3 (j + 24)) as (l4 & E4 & Hd4); [done|done|lia|done|lia|lia|].
  replace (j + 24 + 8) with (j + 32) in Hd4 by lia.
  cbn [mbind option_bind]. rewrite E2. cbn [mbind option_bind]. rewrite E3.
  cbn [mbind option_bind]. rewrite E4. cbn [mbind option_bind].
  destruct (IH l4 (j + 32) (rem - 32)) as (l' & j' & E' & Hj' & Hd'); [lia|lia|done|lia|lia|].
  exists l', j'. split; [done|]. split; [lia|done].
Qed.

Lemma byte_loop_spec n type lp a lres j :
  is_bytes lp -> is_bytes a -> 0 <= j -> ops_done type lp a j lres ->
  j + Z.of_nat n <= zlen lp -> j + Z.of_nat n <= zlen a ->
  exists lres', byte_loop n type lp lres j = Some lres' /\
    ops_done type lp a (j + Z.of_nat n) lres'.
Proof.
  intros Hlp Ha. revert lres j. induction n as [|n IH]; intros lres j Hj Hd H1 H2; cbn [byte_loop].
  { exists lres. split; [done|]. by rewrite Z.add_0_r. }
  destruct (ops_done_step type lp a lres j 1) as (r & p & Er & Ep & Hr & Hp & Hlr & Hlp1 & lres' & Ew & Hd');
    [done|done|lia|lia|done|lia|lia|].
  destruct r as [|x [|? ?]], p as [|y [|? ?]]; try done.
  inversion Hr; inversion Hp; subst.
  unfold load_byte. rewrite Er, Ep. cbn [mbind option_bind head].
  rewrite u8_small by by apply (bit_op_byte type x y). cbn [bytewise zip_with] in Ew. rewrite Ew.
  cbn [mbind option_bind]. destruct (IH lres' (j + 1)) as (l' & E & Hd''); [lia|done|lia|lia|].
  exists l'. split; [done|]. by replace (j + Z.of_nat (S n)) with (j + 1 + Z.of_nat n) by lia.
Qed.

(** [BitOps] on two bitmaps of the same file is the byte-wise operation,
    whatever part of it the word loop does. *)
Lemma BitOps_bytewise type a b la lb :
  BitMap_wf a -> BitMap_wf b -> valid_bits_ a = valid_bits_ b ->
  bits_ a = Some la -> bits_ b = Some lb ->
  BitOps a type (Some b) = Some (OK, {| valid_bits_ := valid_bits_ a; byte_size_ := byte_size_ a;
                                        bits_ := Some (bytewise type la lb) |}).
Proof.
  intros (Hva & Hsa & la' & Hla' & Hlena & Hba) (Hvb & Hsb & lb' & Hlb' & Hlenb & Hbb) Hv Hla Hlb.
  rewrite Hla in Hla'. rewrite Hlb in Hlb'. simplify_eq.
  unfold BitOps. rewrite Hv, Z.eqb_refl. cbn [negb].
  assert (byte_size_ b = byte_size_ a) as Hbs by congruence. rewrite Hbs, Z.ltb_irrefl.
  assert (0 < byte_size_ a) as Hpos.
  { rewrite Hsa. pose proof (Z.div_pos (valid_bits_ a) 8). lia. }
  destruct (Z.eqb_spec (byte_size_ a) 0) as [|_]; [lia|]. cbn [negb].
  rewrite Hla, Hlb. cbn [mbind option_bind].
  assert (ops_done type lb' la' 0 la') as Hd0 by by exists [], lb', [], la'.
  destruct (fast_path_spec (Z.to_nat (byte_size_ a)) type lb' la' la' 0 (byte_size_ a))
    as (l1 & j & -> & Hj & Hd1); [done|done|lia|lia|done|lia|lia|].
  cbn [mbind option_bind].
  destruct (byte_loop_spec (Z.to_nat (byte_size_ a - j)) type lb' la' l1 j)
    as (l2 & -> & p1 & p2 & a1 & a2 & -> & -> & Hp1 & Ha1 & ->); [done|done|lia|done|lia|lia|].
  cbn [mbind option_bind]. do 4 f_equal.
  assert (p2 = []) as -> by (destruct p2; [done|exfalso; zlia]).
  assert (a2 = []) as -> by (destruct a2; [done|exfalso; zlia]).
  by rewrite !app_nil_r.
Qed.

Lemma bit_of_bytewise type a b i :
  0 <= i -> length a = length b ->
  bit_of (bytewise type a b) i = bool_op type (bit_of a i) (bit_of b i).
Proof.
  intros Hi. unfold bit_of. generalize (7 - i mod 8) as k. generalize (Z.to_nat (i / 8)) as n.
  intros n k. revert b n. induction a as [|x a IH]; intros [|y b] n Hl; try done.
  - destruct n; cbn; by rewrite Z.bits_0, bool_op_false.
  - destruct n as [|n]; cbn; [apply bit_op_spec|]. apply IH. by injection Hl.
Qed.

Lemma BitOps_spec type a b :
  BitMap_wf a -> BitMap_wf b -> valid_bits_ a = valid_bits_ b ->
  exists a', BitOps a type (Some b) = Some (OK, a') /\ BitMap_wf a' /\
    valid_bits_ a' = valid_bits_ a /\
    forall i, 0 <= i -> get a' i = bool_op type (get a i) (get b i).
Proof.
  intros Ha Hb Hv. pose proof Ha as (Hva & Hsa & la & Hla & Hlena & Hba).
  pose proof Hb as (Hvb & Hsb & lb & Hlb & Hlenb & Hbb).
  eexists. split; [by eapply BitOps_bytewise|].
  assert (length la = length lb) as Hl by (unfold zlen in *; rewrite Hsa, Hv, <- Hsb in Hlena; lia).
  split; [|split; [done|]].
  - split; [done|]. split; [done|]. eexists. split; [done|]. cbn [byte_size_].
    split; [unfold zlen in *; by rewrite length_bytewise|].
    clear - Hba Hbb. revert lb Hbb. induction Hba as [|x la Hx Hla IH]; intros [|y lb] Hlb;
      try constructor; inversion Hlb; subst; [by apply bit_op_byte|by apply IH].
  - intros i Hi. unfold get. cbn [bits_]. rewrite Hla, Hlb. by apply bit_of_bytewise.
Qed.

(** Copying into an uninitialised bitmap makes an equal one. *)
Lemma CopyTo_spec a : BitMap_wf a -> CopyTo a BitMap_default = Some (OK, a).
Proof.
  intros (_ & _ & l & Hl & Hlen & _). unfold CopyTo. cbn [bits_ BitMap_default]. rewrite Hl.
  cbn [mbind option_bind]. rewrite <- (app_nil_r l) at 1. rewrite (mem_read_app [] l []) by done.
  cbn. rewrite <- Hl. by destruct a.
Qed.
