(* ===== verification/BlobFileMeta.v ===== *)
(** * BlobFileMeta: the metadata of a blob file

    [BlobFileMeta] of [blob_format.h] and [blob_format.cc]: its encoding in the
    manifest, its state machine, its live-data accounting and its bitmap of
    invalid entries. *)
From Stdlib Require Import SpecFloat.
From S2P Require Import Prelude Coding BlobFormat BitMap.

Local Open Scope Z_scope.
Local Open Scope aegon_scope.

(** ** Doubles

    IEEE binary64 with the rounding of the Standard Library's [SpecFloat]. *)
Definition double : Set := spec_float.

Definition d_of_int (z : Z) : double := binary_normalize 53 1024 z 0 false.
Definition d_div (a b : double) : double := SFdiv 53 1024 a b.
Definition d_sub (a b : double) : double := SFsub 53 1024 a b.
Definition d_lt (a b : double) : bool := SFltb a b.
Definition d_le (a b : double) : bool := SFleb a b.

(** [std::numeric_limits<double>::epsilon()], 2^-52. *)
Definition d_epsilon : double := S754_finite false 4503599627370496 (-104).

(** A decimal literal with one digit after the point. *)
Definition d_tenths (z : Z) : double := d_div (d_of_int z) (d_of_int 10).

(** ** Events and states *)

Inductive FileEvent : Type :=
  | Ev_kInit
  | kFlushCompleted
  | kCompactionCompleted
  | kGCCompleted
  | kGCBegin
  | kGCOutput
  | kFlushOrCompactionOutput
  | kDbRestart
  | kDelete
  | kNeedMerge
  | kReset.

Inductive FileState : Type :=
  | kInit
  | kNormal
  | kPendingLSM
  | kBeingGC
  | kPendingGC
  | kObsolete
  | kToMerge.

#[export] Instance FileEvent_eq_dec : EqDecision FileEvent.
Proof. solve_decision. Defined.

#[export] Instance FileState_eq_dec : EqDecision FileState.
Proof. solve_decision. Defined.

(** [FileStateTransit] on the state; [None] is a failed assertion. *)
Definition FileStateTransit (state_ : FileState) (event : FileEvent) : option FileState :=
  match event with
  | kFlushCompleted =>
      _ ← assert (bool_decide (state_ = kPendingLSM \/ state_ = kPendingGC \/ state_ = kNormal \/
                               state_ = kBeingGC \/ state_ = kObsolete));
      Some (if bool_decide (state_ = kPendingLSM) then kNormal else state_)
  | kGCCompleted =>
      if bool_decide (state_ = kObsolete) then Some state_ else
      _ ← assert (bool_decide (state_ = kPendingGC \/ state_ = kBeingGC));
      Some kNormal
  | kCompactionCompleted =>
      _ ← assert (bool_decide (state_ = kPendingLSM)); Some kNormal
  | kGCBegin =>
      _ ← assert (bool_decide (state_ = kNormal)); Some kBeingGC
  | kGCOutput =>
      _ ← assert (bool_decide (state_ = kInit)); Some kPendingGC
  | kFlushOrCompactionOutput =>
      _ ← assert (bool_decide (state_ = kInit)); Some kPendingLSM
  | kDbRestart =>
      _ ← assert (bool_decide (state_ = kInit)); Some kNormal
  | kDelete =>
      _ ← assert (bool_decide (state_ <> kObsolete)); Some kObsolete
  | kNeedMerge =>
      if bool_decide (state_ = kToMerge) then Some state_ else
      _ ← assert (bool_decide (state_ = kNormal)); Some kToMerge
  | kReset => Some kNormal
  | Ev_kInit => None
  end.

(** ** The metadata *)

Record BlobFileMeta : Type := mkMeta {
  file_number_ : Z;
  file_size_ : Z;
  file_entries_ : Z;
  file_level_ : Z;
  smallest_key_ : bytes;
  largest_key_ : bytes;
  live_data_size_ : Z;
  state_ : FileState;
  invalid_entry_indexes_ : option BitMap }.

(** [BlobFileMeta() = default], value-initialised by [make_shared]. *)
Definition BlobFileMeta_default : BlobFileMeta :=
  mkMeta 0 0 0 0 [] [] 0 kInit None.

Definition BlobFileMeta_new (number size entries level : Z) (smallest largest : bytes) : BlobFileMeta :=
  mkMeta number size entries level smallest largest 0 kInit (Some (BitMap_new entries)).

Definition set_state (m : BlobFileMeta) (s : FileState) : BlobFileMeta :=
  mkMeta (file_number_ m) (file_size_ m) (file_entries_ m) (file_level_ m)
    (smallest_key_ m) (largest_key_ m) (live_data_size_ m) s (invalid_entry_indexes_ m).

Definition set_live_data_size (m : BlobFileMeta) (size : Z) : BlobFileMeta :=
  mkMeta (file_number_ m) (file_size_ m) (file_entries_ m) (file_level_ m)
    (smallest_key_ m) (largest_key_ m) size (state_ m) (invalid_entry_indexes_ m).

Definition set_invalid (m : BlobFileMeta) (b : BitMap) : BlobFileMeta :=
  mkMeta (file_number_ m) (file_size_ m) (file_entries_ m) (file_level_ m)
    (smallest_key_ m) (largest_key_ m) (live_data_size_ m) (state_ m) (Some b).

Definition is_obsolete (m : BlobFileMeta) : bool := bool_decide (state_ m = kObsolete).

Definition transit (m : BlobFileMeta) (event : FileEvent) : option BlobFileMeta :=
  s ← FileStateTransit (state_ m) event; Some (set_state m s).

Definition BlobFileMeta_EncodeTo (m : BlobFileMeta) : bytes :=
  PutVarint64 (file_number_ m) ++ PutVarint64 (file_size_ m) ++ PutVarint64 (file_entries_ m) ++
  PutVarint32 (file_level_ m) ++ PutLengthPrefixedSlice (smallest_key_ m) ++
  PutLengthPrefixedSlice (largest_key_ m).

(** [DecodeFromLegacy]; the outer [option] is its assertions. *)
Definition BlobFileMeta_DecodeFromLegacy (self : BlobFileMeta) (src : bytes)
    : option (res (BlobFileMeta * bytes)) :=
  match ('(n, src) <-? or_fail Corruption (GetVarint64 src) ;;
         '(sz, src) <-? or_fail Corruption (GetVarint64 src) ;;
         Ret (n, sz, src)) with
  | Fail s => Some (Fail s)
  | Ret (n, sz, src) =>
      _ ← assert (zlen (smallest_key_ self) =? 0);
      _ ← assert (zlen (largest_key_ self) =? 0);
      Some (Ret (mkMeta n sz (file_entries_ self) (file_level_ self) (smallest_key_ self)
                   (largest_key_ self) (live_data_size_ self) (state_ self)
                   (invalid_entry_indexes_ self), src))
  end.

Definition BlobFileMeta_DecodeFrom (self : BlobFileMeta) (src : bytes)
    : res (BlobFileMeta * bytes) :=
  '(n, src) <-? or_fail Corruption (GetVarint64 src) ;;
  '(sz, src) <-? or_fail Corruption (GetVarint64 src) ;;
  '(en, src) <-? or_fail Corruption (GetVarint64 src) ;;
  '(lv, src) <-? or_fail Corruption (GetVarint32 src) ;;
  '(smallest, src) <-? or_fail Corruption (GetLengthPrefixedSlice src) ;;
  '(largest, src) <-? or_fail Corruption (GetLengthPrefixedSlice src) ;;
  Ret (mkMeta n sz en lv smallest largest (live_data_size_ self) (state_ self)
         (Some (BitMap_new en)), src).

Definition BlobFileMeta_eqb (lhs rhs : BlobFileMeta) : bool :=
  (file_number_ lhs =? file_number_ rhs) && (file_size_ lhs =? file_size_ rhs) &&
  (file_entries_ lhs =? file_entries_ rhs) && (file_level_ lhs =? file_level_ rhs).

(** [UpdateLiveDataSize]: the answer and the new metadata; [None] is a signed
    overflow. *)
Definition UpdateLiveDataSize (m : BlobFileMeta) (delta : Z) : option (bool * BlobFileMeta) :=
  let result := i64 (live_data_size_ m) + delta in
  _ ← assert ((- 2 ^ 63 <=? result) && (result <? 2 ^ 63));
  if result <? 0 then Some (false, set_live_data_size m 0)
  else Some (true, set_live_data_size m (u64 result)).

Definition NoLiveData (m : BlobFileMeta) : bool := live_data_size_ m =? 0.

Definition GetDiscardableRatio (m : BlobFileMeta) : double :=
  if file_size_ m =? 0 then d_of_int 0
  else d_sub (d_of_int 1)
         (d_div (d_of_int (live_data_size_ m))
                (d_of_int (u64 (file_size_ m - kBlobMaxHeaderSize - kBlobFooterSize)))).

Definition UpdateInvalidEntryIndexes (m : BlobFileMeta) (invalid_bits : option BitMap)
    : option (Status * BlobFileMeta) :=
  b ← invalid_entry_indexes_ m;
  '(s, b) ← BitOps b kBitOr invalid_bits;
  Some (s, set_invalid m b).

Definition CopyInvalidEntryIndexesTo (m : BlobFileMeta) (dest : BitMap) : option (Status * BitMap) :=
  b ← invalid_entry_indexes_ m; CopyTo b dest.

(** ** Bitmaps of invalid entries *)

(** A file whose bitmap was allocated for its entries. *)
Definition bits_ok (m : BlobFileMeta) : Prop :=
  exists bm, invalid_entry_indexes_ m = Some bm /\ BitMap_wf bm /\ valid_bits_ bm = file_entries_ m.

Definition invalid (m : BlobFileMeta) (i : Z) : bool :=
  match invalid_entry_indexes_ m with Some bm => get bm i | None => false end.

Lemma bits_ok_new number size entries level smallest largest :
  0 <= entries < 2 ^ 64 -> bits_ok (BlobFileMeta_new number size entries level smallest largest).
Proof. intros He. exists (BitMap_new entries). split; [done|]. split; [by apply BitMap_new_wf|done]. Qed.

Lemma UpdateInvalidEntryIndexes_spec m bm :
  bits_ok m -> BitMap_wf bm -> valid_bits_ bm = file_entries_ m ->
  exists bm', UpdateInvalidEntryIndexes m (Some bm) = Some (OK, set_invalid m bm') /\ bits_ok (set_invalid m bm') /\
    forall j, 0 <= j -> get bm' j = invalid m j || get bm j.
Proof.
  intros (b0 & Hb0 & Hw0 & Hv0) Hw Hv.
  destruct (BitOps_spec kBitOr b0 bm Hw0 Hw) as (bm' & Hop & Hw' & Hv' & Hg'); [by rewrite Hv0, Hv|].
  exists bm'. unfold UpdateInvalidEntryIndexes. rewrite Hb0. cbn [mbind option_bind]. rewrite Hop. split; [done|]. split.
  - exists bm'. split; [done|]. split; [done|]. cbn. by rewrite Hv', Hv0.
  - intros j Hj. unfold invalid. by rewrite Hg', Hb0.
Qed.

Lemma CopyInvalidEntryIndexesTo_spec m :
  bits_ok m -> exists bm, invalid_entry_indexes_ m = Some bm /\ BitMap_wf bm /\ valid_bits_ bm = file_entries_ m /\
    CopyInvalidEntryIndexesTo m BitMap_default = Some (OK, bm).
Proof.
  intros (bm & Hbm & Hw & Hv). exists bm. split_and!; [done..|]. unfold CopyInvalidEntryIndexesTo. rewrite Hbm. by apply CopyTo_spec.
Qed.

(** ** Round trip *)

Definition BlobFileMeta_wf (m : BlobFileMeta) : Prop :=
  is_u64 (file_number_ m) /\ is_u64 (file_size_ m) /\ is_u64 (file_entries_ m) /\
  is_u32 (file_level_ m) /\ is_u32 (zlen (smallest_key_ m)) /\ is_u32 (zlen (largest_key_ m)).

(** What is left of a file's metadata after a restart. *)
Definition persistent (m : BlobFileMeta) : BlobFileMeta :=
  BlobFileMeta_new (file_number_ m) (file_size_ m) (file_entries_ m) (file_level_ m)
    (smallest_key_ m) (largest_key_ m).

Lemma BlobFileMeta_roundtrip m rest :
  BlobFileMeta_wf m ->
  BlobFileMeta_DecodeFrom BlobFileMeta_default (BlobFileMeta_EncodeTo m ++ rest)
    = Ret (persistent m, rest).
Proof.
  intros (Hn & Hs & He & Hl & Hk1 & Hk2). unfold BlobFileMeta_DecodeFrom, BlobFileMeta_EncodeTo.
  rewrite <- !app_assoc.
  rewrite !GetVarint64_Put by done. cbn -[BitMap_new].
  rewrite !GetVarint64_Put by done. cbn -[BitMap_new].
  rewrite !GetVarint64_Put by done. cbn -[BitMap_new].
  rewrite GetVarint32_Put by done. cbn -[BitMap_new].
  rewrite GetLengthPrefixedSlice_Put by done. cbn -[BitMap_new].
  by rewrite GetLengthPrefixedSlice_Put by done.
Qed.

(** ** Runs of the state machine *)

Fixpoint run_events (s : FileState) (es : list FileEvent) : option FileState :=
  match es with
  | [] => Some s
  | e :: es => s ← FileStateTransit s e; run_events s es
  end.

Lemma run_events_app s a b :
  run_events s (a ++ b) = (s ← run_events s a; run_events s b).
Proof.
  revert s. induction a as [|e a IH]; intros s; [done|].
  cbn. destruct (FileStateTransit s e); cbn; [apply IH|done].
Qed.

(** Obsolete is final, up to the reset that only tests use. *)
Lemma obsolete_final es s :
  ~ kReset ∈ es -> run_events kObsolete es = Some s -> s = kObsolete.
Proof.
  induction es as [|e es IH]; intros Hr H; [by injection H|].
  apply not_elem_of_cons in Hr as [He Hr]. cbn in H.
  destruct e; try done; cbn in H; by apply IH in H.
Qed.

(** While a file is being collected, only the completion of the collection
    makes it available again. *)
Lemma being_gc_until_completed es s :
  ~ kReset ∈ es -> ~ kGCCompleted ∈ es -> run_events kBeingGC es = Some s ->
  s = kBeingGC \/ s = kObsolete.
Proof.
  induction es as [|e es IH]; intros Hr Hc H; [injection H as <-; by left|].
  apply not_elem_of_cons in Hr as [He Hr]. apply not_elem_of_cons in Hc as [He' Hc]. cbn in H.
  destruct e; try done; cbn in H; try by apply IH in H.
  right. by apply obsolete_final in H.
Qed.

(** Between two collections of the same file the first one completes: the
    state machine lets no file be collected twice at once. *)
Theorem no_concurrent_gc s es1 es2 s' :
  ~ kReset ∈ es2 ->
  run_events s (es1 ++ [kGCBegin] ++ es2 ++ [kGCBegin]) = Some s' ->
  kGCCompleted ∈ es2.
Proof.
  intros Hr H. destruct (decide (kGCCompleted ∈ es2)) as [|Hc]; [done|]. exfalso.
  rewrite run_events_app in H. apply bind_Some in H as (s1 & _ & H).
  cbn [app run_events] in H. apply bind_Some in H as (s2 & H2 & H).
  assert (s2 = kBeingGC) as -> by (destruct s1; by simplify_option_eq).
  rewrite run_events_app in H. apply bind_Some in H as (s3 & H3 & H).
  destruct (being_gc_until_completed _ _ Hr Hc H3) as [-> | ->]; done.
Qed.

Lemma no_concurrent_gc_witness : kGCCompleted ∈ [kFlushCompleted; kGCCompleted].
Proof.
  apply (no_concurrent_gc kInit [kFlushOrCompactionOutput; kFlushCompleted]
    [kFlushCompleted; kGCCompleted] kBeingGC).
  - set_solver.
  - reflexivity.
Defined.
