(* ===== verification/Options.v ===== *)
(** * Options: the options of the database and of its column families

    [include/titan/options.h] and the conversions of [options.cc]: the fields
    that Titan adds to the options of RocksDB, and the part of RocksDB's that
    Titan reads. The documented contract of a user [Comparator] is a class. *)
From S2P Require Import Prelude BlobFileMeta.

Local Open Scope Z_scope.

(** ** Comparators *)

(** [Comparator::Compare]: negative, zero or positive. *)
Class Comparator : Type := Compare : bytes -> bytes -> Z.

(** The contract of a comparator: a total order. *)
Class ComparatorLaws (C : Comparator) : Prop := {
  Compare_refl : forall a, Compare a a = 0;
  Compare_swap : forall a b, Compare a b < 0 <-> 0 < Compare b a;
  Compare_trans : forall a b c, Compare a b <= 0 -> Compare b c <= 0 -> Compare a c <= 0 }.

(** [BytewiseComparator], the default: [Slice::compare]. *)
Fixpoint Slice_compare (a b : bytes) : Z :=
  match a, b with
  | [], [] => 0
  | [], _ :: _ => -1
  | _ :: _, [] => 1
  | x :: a, y :: b => if x =? y then Slice_compare a b else if x <? y then -1 else 1
  end.

Definition BytewiseComparator : Comparator := Slice_compare.

Lemma Slice_compare_range a b : Slice_compare a b = -1 \/ Slice_compare a b = 0 \/ Slice_compare a b = 1.
Proof. revert b. induction a as [|x a IH]; intros [|y b]; cbn; auto. repeat case_match; auto. Qed.

Lemma Slice_compare_swap a b : Slice_compare b a = - Slice_compare a b.
Proof.
  revert b. induction a as [|x a IH]; intros [|y b]; cbn; try done.
  destruct (Z.eqb_spec x y) as [->|]; [by rewrite Z.eqb_refl|].
  rewrite (proj2 (Z.eqb_neq y x)) by done.
  destruct (Z.ltb_spec x y), (Z.ltb_spec y x); lia.
Qed.

Lemma Slice_compare_eq a b : Slice_compare a b = 0 -> a = b.
Proof.
  revert b. induction a as [|x a IH]; intros [|y b]; cbn; try done.
  destruct (Z.eqb_spec x y) as [->|]; [|by case_match].
  intros H. by rewrite (IH b).
Qed.

Lemma Slice_compare_trans a b c :
  Slice_compare a b <= 0 -> Slice_compare b c <= 0 -> Slice_compare a c <= 0.
Proof.
  revert b c. induction a as [|x a IH]; intros [|y b] [|z c]; cbn; try lia.
  destruct (Z.eqb_spec x y), (Z.eqb_spec y z), (Z.eqb_spec x z); subst; try done; eauto.
  all: repeat match goal with |- context [?u <? ?v] => destruct (Z.ltb_spec u v) end; lia.
Qed.

#[export] Instance BytewiseComparator_laws : ComparatorLaws BytewiseComparator.
Proof.
  split; unfold Compare, BytewiseComparator.
  - intros a. pose proof (Slice_compare_swap a a). lia.
  - intros a b. rewrite (Slice_compare_swap a b). lia.
  - apply Slice_compare_trans.
Qed.

(** ** Options *)

Inductive TitanBlobRunMode : Type :=
  | mode_kNormal
  | mode_kReadOnly
  | mode_kFallback.

#[export] Instance TitanBlobRunMode_eq_dec : EqDecision TitanBlobRunMode.
Proof. solve_decision. Defined.

Record TitanDBOptions : Type := mkDBOptions {
  dirname : string;
  disable_background_gc : bool;
  max_background_gc : Z;
  purge_obsolete_files_period_sec : Z;
  titan_stats_dump_period_sec : Z }.

Definition TitanDBOptions_default : TitanDBOptions := mkDBOptions "" false 1 10 600.

(** [num_levels] is the one field of [ColumnFamilyOptions] that Titan reads as
    a number; the comparator is a class argument, and the blob cache is not
    modelled. *)
Record TitanCFOptions : Type := mkCFOptions {
  num_levels : Z;
  min_blob_size : Z;
  blob_file_compression : Z;
  blob_file_target_size : Z;
  max_gc_batch_size : Z;
  min_gc_batch_size : Z;
  blob_file_discardable_ratio : double;
  merge_small_file_threshold : Z;
  blob_run_mode : TitanBlobRunMode;
  level_merge : bool;
  range_merge : bool;
  max_sorted_runs : Z;
  skip_value_in_compaction_filter : bool;
  use_bitmap : bool;
  gc_offload : bool;
  binary_file_path : string }.

Definition TitanCFOptions_default (levels : Z) : TitanCFOptions :=
  mkCFOptions levels 4096 0 (Z.shiftl 256 20) (Z.shiftl 1 30) (Z.shiftl 512 20) (d_tenths 5)
    (Z.shiftl 8 20) mode_kNormal false false 20 false false false "".

Record ImmutableTitanCFOptions : Type := mkImmutable {
  im_min_blob_size : Z;
  im_blob_file_compression : Z;
  im_blob_file_target_size : Z;
  im_max_gc_batch_size : Z;
  im_min_gc_batch_size : Z;
  im_blob_file_discardable_ratio : double;
  im_merge_small_file_threshold : Z;
  im_level_merge : bool;
  im_skip_value_in_compaction_filter : bool;
  im_use_bitmap : bool;
  im_gc_offload : bool;
  im_binary_file_path : string }.

Record MutableTitanCFOptions : Type := mkMutable {
  mut_blob_run_mode : TitanBlobRunMode }.

Definition ImmutableTitanCFOptions_of (opts : TitanCFOptions) : ImmutableTitanCFOptions :=
  mkImmutable (min_blob_size opts) (blob_file_compression opts) (blob_file_target_size opts)
    (max_gc_batch_size opts) (min_gc_batch_size opts) (blob_file_discardable_ratio opts)
    (merge_small_file_threshold opts) (level_merge opts) (skip_value_in_compaction_filter opts)
    (use_bitmap opts) (gc_offload opts) (binary_file_path opts).

Definition MutableTitanCFOptions_of (opts : TitanCFOptions) : MutableTitanCFOptions :=
  mkMutable (blob_run_mode opts).

(** The constructor of [TitanCFOptions] from the two parts; [levels] comes
    with the [ColumnFamilyOptions]. *)
Definition TitanCFOptions_of (levels : Z) (immutable_opts : ImmutableTitanCFOptions)
    (mutable_opts : MutableTitanCFOptions) : TitanCFOptions :=
  let d := TitanCFOptions_default levels in
  mkCFOptions levels (im_min_blob_size immutable_opts) (im_blob_file_compression immutable_opts)
    (im_blob_file_target_size immutable_opts) (im_max_gc_batch_size immutable_opts)
    (im_min_gc_batch_size immutable_opts) (im_blob_file_discardable_ratio immutable_opts)
    (im_merge_small_file_threshold immutable_opts) (mut_blob_run_mode mutable_opts)
    (level_merge d) (range_merge d) (max_sorted_runs d)
    (im_skip_value_in_compaction_filter immutable_opts)
    (use_bitmap d) (gc_offload d) (binary_file_path d).

Definition set_blob_run_mode (o : TitanCFOptions) (mode : TitanBlobRunMode) : TitanCFOptions :=
  mkCFOptions (num_levels o) (min_blob_size o) (blob_file_compression o) (blob_file_target_size o)
    (max_gc_batch_size o) (min_gc_batch_size o) (blob_file_discardable_ratio o)
    (merge_small_file_threshold o) mode (level_merge o) (range_merge o) (max_sorted_runs o)
    (skip_value_in_compaction_filter o) (use_bitmap o) (gc_offload o) (binary_file_path o).

(** The options rebuilt from the parts a column family keeps do not offload
    collections any more, whatever was asked for: the constructor copies
    neither [gc_offload] nor [use_bitmap], [level_merge] and
    [binary_file_path]. *)
Lemma rebuilt_options_lose_offload levels opts :
  let o := TitanCFOptions_of levels (ImmutableTitanCFOptions_of opts) (MutableTitanCFOptions_of opts) in
  gc_offload o = false /\ use_bitmap o = false /\ level_merge o = false /\
  binary_file_path o = "" /\ min_blob_size o = min_blob_size opts /\
  blob_run_mode o = blob_run_mode opts.
Proof. by repeat split. Qed.
