(* ===== verification/TitanStats.v ===== *)
(** * TitanStats: counters and properties of a column family

    [titan_stats.h], [titan_stats.cc] and
    [BlobFileMeta::GetDiscardableRatioLevel] of [blob_format.cc]: the relaxed
    64-bit counters of each column family and the look-up of a property by
    name. *)
From S2P Require Import Prelude BlobFileMeta.

Local Open Scope Z_scope.

(** ** Counters *)

Inductive StatsType : Type :=
  | LIVE_BLOB_SIZE
  | NUM_LIVE_BLOB_FILE
  | NUM_OBSOLETE_BLOB_FILE
  | LIVE_BLOB_FILE_SIZE
  | OBSOLETE_BLOB_FILE_SIZE
  | NUM_DISCARDABLE_RATIO_LE0
  | NUM_DISCARDABLE_RATIO_LE20
  | NUM_DISCARDABLE_RATIO_LE50
  | NUM_DISCARDABLE_RATIO_LE80
  | NUM_DISCARDABLE_RATIO_LE100.

#[export] Instance StatsType_eq_dec : EqDecision StatsType.
Proof. solve_decision. Defined.

(** The index of a counter in the array. *)
Definition StatsType_index (t : StatsType) : nat :=
  match t with
  | LIVE_BLOB_SIZE => 0
  | NUM_LIVE_BLOB_FILE => 1
  | NUM_OBSOLETE_BLOB_FILE => 2
  | LIVE_BLOB_FILE_SIZE => 3
  | OBSOLETE_BLOB_FILE_SIZE => 4
  | NUM_DISCARDABLE_RATIO_LE0 => 5
  | NUM_DISCARDABLE_RATIO_LE20 => 6
  | NUM_DISCARDABLE_RATIO_LE50 => 7
  | NUM_DISCARDABLE_RATIO_LE80 => 8
  | NUM_DISCARDABLE_RATIO_LE100 => 9
  end.

Definition INTERNAL_STATS_ENUM_MAX : nat := 10.

Inductive InternalOpStatsType : Type :=
  | COUNT
  | BYTES_READ
  | BYTES_WRITTEN
  | IO_BYTES_READ
  | IO_BYTES_WRITTEN
  | INPUT_FILE_NUM
  | OUTPUT_FILE_NUM
  | GC_READ_LSM_MICROS
  | GC_UPDATE_LSM_MICROS.

Definition InternalOpStatsType_index (t : InternalOpStatsType) : nat :=
  match t with
  | COUNT => 0
  | BYTES_READ => 1
  | BYTES_WRITTEN => 2
  | IO_BYTES_READ => 3
  | IO_BYTES_WRITTEN => 4
  | INPUT_FILE_NUM => 5
  | OUTPUT_FILE_NUM => 6
  | GC_READ_LSM_MICROS => 7
  | GC_UPDATE_LSM_MICROS => 8
  end.

Definition INTERNAL_OP_STATS_ENUM_MAX : nat := 9.

Inductive InternalOpType : Type :=
  | FLUSH
  | COMPACTION
  | GC.

Definition InternalOpType_index (t : InternalOpType) : nat :=
  match t with FLUSH => 0 | COMPACTION => 1 | GC => 2 end.

Definition INTERNAL_OP_ENUM_MAX : nat := 3.

Record TitanInternalStats : Type := mkInternalStats {
  stats_ : list Z;
  internal_op_stats_ : list (list Z) }.

Definition InternalOpStats : Type := (list Z).

(** [Clear]. *)
Definition Clear : TitanInternalStats :=
  mkInternalStats (replicate INTERNAL_STATS_ENUM_MAX 0)
    (replicate INTERNAL_OP_ENUM_MAX (replicate INTERNAL_OP_STATS_ENUM_MAX 0)).

Definition counter (s : TitanInternalStats) (t : StatsType) : Z :=
  default 0 (stats_ s !! StatsType_index t).

Definition TitanInternalStats_ResetStats (s : TitanInternalStats) (t : StatsType) : TitanInternalStats :=
  mkInternalStats (<[StatsType_index t := 0]> (stats_ s)) (internal_op_stats_ s).

Definition TitanInternalStats_AddStats (s : TitanInternalStats) (t : StatsType) (value : Z) : TitanInternalStats :=
  mkInternalStats (alter (fun v => u64 (v + value)) (StatsType_index t) (stats_ s)) (internal_op_stats_ s).

Definition TitanInternalStats_SubStats (s : TitanInternalStats) (t : StatsType) (value : Z) : TitanInternalStats :=
  mkInternalStats (alter (fun v => u64 (v - value)) (StatsType_index t) (stats_ s)) (internal_op_stats_ s).

(** ** The statistics of a database

    A null [TitanStats] pointer is [None]; a column family that was never
    initialised has no entry. *)
Definition TitanStats : Type := option (gmap Z TitanInternalStats).

Definition InitializeCF (st : gmap Z TitanInternalStats) (cf_id : Z) : gmap Z TitanInternalStats :=
  <[cf_id := Clear]> st.

Definition internal_stats (st : gmap Z TitanInternalStats) (cf_id : Z) : option TitanInternalStats :=
  st !! cf_id.

Definition on_internal_stats (f : TitanInternalStats -> TitanInternalStats)
    (stats : TitanStats) (cf_id : Z) : TitanStats :=
  match stats with
  | Some st =>
      match internal_stats st cf_id with
      | Some p => Some (<[cf_id := f p]> st)
      | None => Some st
      end
  | None => None
  end.

Definition ResetStats (stats : TitanStats) (cf_id : Z) (t : StatsType) : TitanStats :=
  on_internal_stats (fun p => TitanInternalStats_ResetStats p t) stats cf_id.

Definition AddStats (stats : TitanStats) (cf_id : Z) (t : StatsType) (value : Z) : TitanStats :=
  on_internal_stats (fun p => TitanInternalStats_AddStats p t value) stats cf_id.

Definition SubStats (stats : TitanStats) (cf_id : Z) (t : StatsType) (value : Z) : TitanStats :=
  on_internal_stats (fun p => TitanInternalStats_SubStats p t value) stats cf_id.

(** [TitanStats::Reset], less the ticker statistics of RocksDB. *)
Definition TitanStats_Reset (st : gmap Z TitanInternalStats) : gmap Z TitanInternalStats :=
  (fun _ => Clear) <$> st.

(** The counters of an internal operation, by pointer. *)
Definition GetAndResetStats (stats : option InternalOpStats) (t : InternalOpStatsType)
    : Z * option InternalOpStats :=
  match stats with
  | Some l => (default 0 (l !! InternalOpStatsType_index t), Some (<[InternalOpStatsType_index t := 0]> l))
  | None => (0, None)
  end.

Definition AddOpStats (stats : option InternalOpStats) (t : InternalOpStatsType) (value : Z)
    : option InternalOpStats :=
  (fun l => alter (fun v => u64 (v + value)) (InternalOpStatsType_index t) l) <$> stats.

Definition SubOpStats (stats : option InternalOpStats) (t : InternalOpStatsType) (value : Z)
    : option InternalOpStats :=
  (fun l => alter (fun v => u64 (v - value)) (InternalOpStatsType_index t) l) <$> stats.

(** ** Discardable ratio *)

Definition GetDiscardableRatioLevel (m : BlobFileMeta) : StatsType :=
  let ratio := GetDiscardableRatio m in
  if d_lt ratio d_epsilon then NUM_DISCARDABLE_RATIO_LE0
  else if d_le ratio (d_tenths 2) then NUM_DISCARDABLE_RATIO_LE20
  else if d_le ratio (d_tenths 5) then NUM_DISCARDABLE_RATIO_LE50
  else if d_le ratio (d_tenths 8) then NUM_DISCARDABLE_RATIO_LE80
  else if d_le ratio (d_of_int 1) || d_lt (d_sub ratio (d_of_int 1)) d_epsilon
  then NUM_DISCARDABLE_RATIO_LE100
  else NUM_DISCARDABLE_RATIO_LE100.

(** ** Properties by name *)

Definition titandb_prefix : string := "rocksdb.titandb.".
Definition num_blob_files_at_level_prefix : string := "num-blob-files-at-level".
Definition live_blob_size : string := "live-blob-size".
Definition num_live_blob_file : string := "num-live-blob-file".
Definition num_obsolete_blob_file : string := "num-obsolete-blob-file".
Definition live_blob_file_size : string := "live-blob-file-size".
Definition obsolete_blob_file_size : string := "obsolete-blob-file-size".
Definition num_discardable_ratio_le0_file : string := "num-discardable-ratio-le0-file".
Definition num_discardable_ratio_le20_file : string := "num-discardable-ratio-le20-file".
Definition num_discardable_ratio_le50_file : string := "num-discardable-ratio-le50-file".
Definition num_discardable_ratio_le80_file : string := "num-discardable-ratio-le80-file".
Definition num_discardable_ratio_le100_file : string := "num-discardable-ratio-le100-file".

(** A handler of [stats_type_string_map]: [HandleNumBlobFilesAtLevel], or
    [HandleStatsValue] bound to a counter. *)
Inductive PropertyHandler : Type :=
  | NumBlobFilesAtLevelHandler
  | StatsValueHandler (t : StatsType).

Definition stats_type_string_map : gmap string PropertyHandler :=
  list_to_map [
    (String.append titandb_prefix num_blob_files_at_level_prefix, NumBlobFilesAtLevelHandler);
    (String.append titandb_prefix live_blob_size, StatsValueHandler LIVE_BLOB_SIZE);
    (String.append titandb_prefix num_live_blob_file, StatsValueHandler NUM_LIVE_BLOB_FILE);
    (String.append titandb_prefix num_obsolete_blob_file, StatsValueHandler NUM_OBSOLETE_BLOB_FILE);
    (String.append titandb_prefix live_blob_file_size, StatsValueHandler LIVE_BLOB_FILE_SIZE);
    (String.append titandb_prefix obsolete_blob_file_size, StatsValueHandler OBSOLETE_BLOB_FILE_SIZE);
    (String.append titandb_prefix num_discardable_ratio_le0_file, StatsValueHandler NUM_DISCARDABLE_RATIO_LE0);
    (String.append titandb_prefix num_discardable_ratio_le20_file, StatsValueHandler NUM_DISCARDABLE_RATIO_LE20);
    (String.append titandb_prefix num_discardable_ratio_le50_file, StatsValueHandler NUM_DISCARDABLE_RATIO_LE50);
    (String.append titandb_prefix num_discardable_ratio_le80_file, StatsValueHandler NUM_DISCARDABLE_RATIO_LE80);
    (String.append titandb_prefix num_discardable_ratio_le100_file, StatsValueHandler NUM_DISCARDABLE_RATIO_LE100)].

Definition is_digit (c : Ascii.ascii) : bool :=
  let n := Ascii.N_of_ascii c in (48 <=? n)%N && (n <=? 57)%N.

(** The number of trailing digits, counted from the end. *)
Fixpoint suffix_digits (rev_property : list Ascii.ascii) : nat :=
  match rev_property with
  | c :: rest => if is_digit c then S (suffix_digits rest) else 0%nat
  | [] => 0%nat
  end.

Definition GetPropertyNameAndArg (property : string) : string * string :=
  let cs := String.list_ascii_of_string property in
  let sfx_len := suffix_digits (rev cs) in
  (String.string_of_list_ascii (take (length cs - sfx_len) cs),
   String.string_of_list_ascii (drop (length cs - sfx_len) cs)).

(** [ParseInt] on a string of digits: [None] when [std::stoi] throws, because
    there is no digit or the number is not an [int]. *)
Definition ParseInt (arg : string) : option Z :=
  match String.list_ascii_of_string arg with
  | [] => None
  | cs =>
      let n := foldl (fun acc c => acc * 10 + (Z.of_N (Ascii.N_of_ascii c) - 48)) 0 cs in
      if n <? 2 ^ 31 then Some n else None
  end.

Section Properties.
(** The number of blob files at a level, as the blob storage of the column
    family reports it. *)
Variable NumBlobFilesAtLevel : Z -> Z.

Definition HandleStatsValue (s : TitanInternalStats) (t : StatsType) : Z := counter s t.

Definition HandleNumBlobFilesAtLevel (arg : string) : option Z :=
  level ← ParseInt arg; Some (u64 (NumBlobFilesAtLevel level)).

(** The outer [option] is an exception, the inner one a property that is not
    known. *)
Definition GetIntProperty (s : TitanInternalStats) (property : string) : option (option Z) :=
  let ppt := GetPropertyNameAndArg property in
  match stats_type_string_map !! ppt.1 with
  | Some NumBlobFilesAtLevelHandler => v ← HandleNumBlobFilesAtLevel ppt.2; Some (Some v)
  | Some (StatsValueHandler t) => Some (Some (HandleStatsValue s t))
  | None => Some None
  end.

End Properties.

(** ** Laws of the counters *)

Definition stats_wf (s : TitanInternalStats) : Prop :=
  length (stats_ s) = INTERNAL_STATS_ENUM_MAX.

(** The counter of a column family of a database. *)
Definition cf_counter (stats : TitanStats) (cf_id : Z) (t : StatsType) : option Z :=
  st ← stats; s ← internal_stats st cf_id; stats_ s !! StatsType_index t.

Lemma StatsType_index_inj t t' : StatsType_index t = StatsType_index t' -> t = t'.
Proof. by destruct t, t'. Qed.

Lemma on_internal_stats_counter f stats cf cf' t :
  cf_counter (on_internal_stats f stats cf) cf' t =
    if decide (cf = cf')
    then st ← stats; s ← internal_stats st cf; stats_ (f s) !! StatsType_index t
    else cf_counter stats cf' t.
Proof.
  unfold cf_counter, on_internal_stats, internal_stats.
  destruct stats as [st|]; [|by case_decide].
  destruct (st !! cf) as [p|] eqn:E; simpl.
  - case_decide as Hc; subst; [by rewrite lookup_insert_eq, E|by rewrite lookup_insert_ne].
  - case_decide as Hc; subst; [by rewrite E|done].
Qed.

Lemma AddStats_counter stats cf t v cf' t' :
  cf_counter (AddStats stats cf t v) cf' t' =
    if decide (cf = cf' /\ t = t') then (fun c => u64 (c + v)) <$> cf_counter stats cf' t'
    else cf_counter stats cf' t'.
Proof.
  unfold AddStats. rewrite on_internal_stats_counter.
  destruct (decide (cf = cf')) as [->|]; [|rewrite decide_False; tauto].
  unfold cf_counter. destruct stats as [st|]; simpl; [|by case_decide].
  destruct (internal_stats st cf') as [s|]; simpl; [|by case_decide].
  case_decide as Hd.
  - destruct Hd as [_ ->]. by rewrite list_lookup_alter_eq.
  - rewrite list_lookup_alter_ne; [done|]. intros ?%StatsType_index_inj. tauto.
Qed.

Lemma SubStats_counter stats cf t v cf' t' :
  cf_counter (SubStats stats cf t v) cf' t' =
    if decide (cf = cf' /\ t = t') then (fun c => u64 (c - v)) <$> cf_counter stats cf' t'
    else cf_counter stats cf' t'.
Proof.
  unfold SubStats. rewrite on_internal_stats_counter.
  destruct (decide (cf = cf')) as [->|]; [|rewrite decide_False; tauto].
  unfold cf_counter. destruct stats as [st|]; simpl; [|by case_decide].
  destruct (internal_stats st cf') as [s|]; simpl; [|by case_decide].
  case_decide as Hd.
  - destruct Hd as [_ ->]. by rewrite list_lookup_alter_eq.
  - rewrite list_lookup_alter_ne; [done|]. intros ?%StatsType_index_inj. tauto.
Qed.

Lemma InitializeCF_counter st cf cf' t :
  cf_counter (Some (InitializeCF st cf)) cf' t =
    if decide (cf = cf') then Some 0 else cf_counter (Some st) cf' t.
Proof.
  unfold cf_counter, InitializeCF, internal_stats. simpl.
  case_decide as Hc; subst; [|by rewrite lookup_insert_ne].
  rewrite lookup_insert_eq. simpl. by destruct t.
Qed.

(** ** Laws of the property look-up *)

Lemma suffix_digits_le cs : (suffix_digits cs <= length cs)%nat.
Proof. induction cs as [|c cs IH]; simpl; [lia|]. destruct (is_digit c); lia. Qed.

Lemma suffix_digits_app ds cs :
  Forall (fun c => is_digit c = true) ds ->
  match cs with c :: _ => is_digit c = false | [] => True end ->
  suffix_digits (ds ++ cs) = length ds.
Proof.
  intros Hd Hc. induction Hd as [|d ds Hd _ IH]; simpl; [|by rewrite Hd, IH].
  destruct cs as [|c cs]; [done|]. simpl. by rewrite Hc.
Qed.

(** A name that does not end in a digit and an argument made of digits are
    told apart. *)
Lemma GetPropertyNameAndArg_app name arg :
  Forall (fun c => is_digit c = true) (String.list_ascii_of_string arg) ->
  match rev (String.list_ascii_of_string name) with c :: _ => is_digit c = false | [] => True end ->
  GetPropertyNameAndArg (String.append name arg) = (name, arg).
Proof.
  intros Ha Hn. unfold GetPropertyNameAndArg.
  assert (String.list_ascii_of_string (String.append name arg)
    = String.list_ascii_of_string name ++ String.list_ascii_of_string arg) as ->.
  { clear. induction name as [|c name IH]; simpl; [done|by rewrite IH]. }
  rewrite rev_app_distr, suffix_digits_app; [|by apply Forall_rev|done].
  rewrite length_rev, length_app, Nat.add_sub.
  rewrite take_app_length, drop_app_length.
  by rewrite !String.string_of_list_ascii_of_string.
Qed.
