(* ===== verification/VersionEdit.v ===== *)
(** * VersionEdit: a change of the set of blob files

    [version_edit.h] and [version_edit.cc]: the edit, its encoding in the
    manifest, and the comparison of two edits. *)
From S2P Require Import Prelude Coding BitMap BlobFileMeta.

Local Open Scope Z_scope.
Local Open Scope aegon_scope.

(** ** Tags *)

Definition kNextFileNumber : Z := 1.
Definition kColumnFamilyID : Z := 10.
Definition kAddedBlobFile : Z := 11.
Definition kDeletedBlobFile : Z := 12.
Definition kAddedBlobFileV2 : Z := 13.

(** ** The edit *)

Record VersionEdit : Type := mkEdit {
  has_next_file_number_ : bool;
  next_file_number_ : Z;
  column_family_id_ : Z;
  added_files_ : list BlobFileMeta;
  deleted_files_ : list (Z * Z) }.

Definition VersionEdit_default : VersionEdit := mkEdit false 0 0 [] [].

Definition SetNextFileNumber (e : VersionEdit) (v : Z) : VersionEdit :=
  mkEdit true v (column_family_id_ e) (added_files_ e) (deleted_files_ e).

Definition SetColumnFamilyID (e : VersionEdit) (v : Z) : VersionEdit :=
  mkEdit (has_next_file_number_ e) (next_file_number_ e) v (added_files_ e) (deleted_files_ e).

Definition AddBlobFile (e : VersionEdit) (file : BlobFileMeta) : VersionEdit :=
  mkEdit (has_next_file_number_ e) (next_file_number_ e) (column_family_id_ e)
    (added_files_ e ++ [file]) (deleted_files_ e).

Definition DeleteBlobFile (e : VersionEdit) (file_number obsolete_sequence : Z) : VersionEdit :=
  mkEdit (has_next_file_number_ e) (next_file_number_ e) (column_family_id_ e)
    (added_files_ e) (deleted_files_ e ++ [(file_number, obsolete_sequence)]).

(** ** Encoding *)

Definition VersionEdit_EncodeTo (e : VersionEdit) : bytes :=
  (if has_next_file_number_ e then PutVarint32Varint64 kNextFileNumber (next_file_number_ e) else []) ++
  PutVarint32Varint32 kColumnFamilyID (column_family_id_ e) ++
  concat (map (fun file => PutVarint32 kAddedBlobFileV2 ++ BlobFileMeta_EncodeTo file) (added_files_ e)) ++
  concat (map (fun file => PutVarint32Varint64 kDeletedBlobFile file.1) (deleted_files_ e)).

(** One iteration of the loop of [DecodeFrom]; the outer [option] is a failed
    assertion. *)
Definition DecodeFrom_step (e : VersionEdit) (src : bytes) : option (res (VersionEdit * bytes)) :=
  match GetVarint32 src with
  | None => Some (Fail Corruption)
  | Some (tag, src) =>
      if tag =? kNextFileNumber then
        match GetVarint64 src with
        | Some (v, src) => Some (Ret (SetNextFileNumber e v, src))
        | None => Some (Fail Corruption)
        end
      else if tag =? kColumnFamilyID then
        match GetVarint32 src with
        | Some (v, src) => Some (Ret (SetColumnFamilyID e v, src))
        | None => Some (Fail Corruption)
        end
      else if tag =? kAddedBlobFile then
        s ← BlobFileMeta_DecodeFromLegacy BlobFileMeta_default src;
        match s with
        | Ret (blob_file, src) => Some (Ret (AddBlobFile e blob_file, src))
        | Fail _ => Some (Fail Corruption)
        end
      else if tag =? kAddedBlobFileV2 then
        match BlobFileMeta_DecodeFrom BlobFileMeta_default src with
        | Ret (blob_file, src) => Some (Ret (AddBlobFile e blob_file, src))
        | Fail _ => Some (Fail Corruption)
        end
      else if tag =? kDeletedBlobFile then
        match GetVarint64 src with
        | Some (file_number, src) => Some (Ret (DeleteBlobFile e file_number 0, src))
        | None => Some (Fail Corruption)
        end
      else Some (Fail Corruption)
  end.

(** The loop runs until the slice is empty; [None] when the fuel runs out. *)
Fixpoint DecodeFrom_loop (fuel : nat) (e : VersionEdit) (src : bytes) : option (res VersionEdit) :=
  match src with
  | [] => Some (Ret e)
  | _ =>
      match fuel with
      | O => None
      | S fuel =>
          s ← DecodeFrom_step e src;
          match s with
          | Ret (e, src) => DecodeFrom_loop fuel e src
          | Fail st => Some (Fail st)
          end
      end
  end.

(** Every iteration consumes a byte, so the length of the slice is enough
    fuel. *)
Definition VersionEdit_DecodeFrom (e : VersionEdit) (src : bytes) : option (res VersionEdit) :=
  DecodeFrom_loop (length src) e src.

(** ** Comparison *)

(** [std::map::insert] keeps the entry that is already there. *)
Definition insert_new {V} (m : gmap Z V) (k : Z) (v : V) : gmap Z V :=
  match m !! k with Some _ => m | None => <[k := v]> m end.

Definition VersionEdit_eqb (lhs rhs : VersionEdit) : bool :=
  if negb (length (added_files_ lhs) =? length (added_files_ rhs))%nat then false else
  let blob_files := foldl (fun m f => insert_new m (file_number_ f) f) ∅ (added_files_ lhs) in
  if negb (forallb (fun f => match blob_files !! file_number_ f with
                             | Some g => BlobFileMeta_eqb g f
                             | None => false
                             end) (added_files_ rhs)) then false
  else eqb (has_next_file_number_ lhs) (has_next_file_number_ rhs) &&
       (next_file_number_ lhs =? next_file_number_ rhs) &&
       (column_family_id_ lhs =? column_family_id_ rhs) &&
       bool_decide (deleted_files_ lhs = deleted_files_ rhs).

(** ** The decoder terminates *)

Lemma is_bytes_suffix (pre rest : bytes) : is_bytes (pre ++ rest) -> is_bytes rest.
Proof. intros [_ H]%Forall_app. exact H. Qed.

(** What is left after a decoder is a suffix of its input. *)
Definition left_of (src src' : bytes) : Prop := exists pre, src = pre ++ src'.

Lemma left_of_trans a b c : left_of a b -> left_of b c -> left_of a c.
Proof. intros [p ->] [q ->]. exists (p ++ q). by rewrite app_assoc. Qed.

Lemma left_of_bytes a b : is_bytes a -> left_of a b -> is_bytes b.
Proof. intros Ha [p ->]. by apply is_bytes_suffix in Ha. Qed.

Lemma GetVarint64_left src v src' : GetVarint64 src = Some (v, src') -> left_of src src'.
Proof. intros H. apply GetVarint64_result in H as [_ (pre & -> & _)]. by exists pre. Qed.

Lemma GetVarint32_left src v src' :
  is_bytes src -> GetVarint32 src = Some (v, src') -> left_of src src'.
Proof. intros Hb H. apply GetVarint32_result in H as [_ (pre & -> & _)]; [|done]. by exists pre. Qed.

Lemma GetLengthPrefixedSlice_left src v src' :
  is_bytes src -> GetLengthPrefixedSlice src = Some (v, src') -> left_of src src'.
Proof.
  intros Hb H. apply GetLengthPrefixedSlice_result in H as (pre & -> & _); [|done].
  exists (pre ++ v). by rewrite app_assoc.
Qed.

Lemma BlobFileMeta_DecodeFrom_left m src m' src' :
  is_bytes src -> BlobFileMeta_DecodeFrom m src = Ret (m', src') -> left_of src src'.
Proof.
  intros Hb H. unfold BlobFileMeta_DecodeFrom in H.
  destruct (GetVarint64 src) as [[n s1]|] eqn:E1; [|done]. cbn in H.
  destruct (GetVarint64 s1) as [[sz s2]|] eqn:E2; [|done]. cbn in H.
  destruct (GetVarint64 s2) as [[en s3]|] eqn:E3; [|done]. cbn in H.
  destruct (GetVarint32 s3) as [[lv s4]|] eqn:E4; [|done]. cbn in H.
  destruct (GetLengthPrefixedSlice s4) as [[k1 s5]|] eqn:E5; [|done]. cbn in H.
  destruct (GetLengthPrefixedSlice s5) as [[k2 s6]|] eqn:E6; [|done]. cbn in H.
  injection H as _ <-.
  apply GetVarint64_left in E1, E2, E3.
  assert (left_of src s3) as L3 by eauto using left_of_trans.
  apply GetVarint32_left in E4; [|by eapply left_of_bytes].
  assert (left_of src s4) as L4 by eauto using left_of_trans.
  apply GetLengthPrefixedSlice_left in E5; [|by eapply left_of_bytes].
  assert (left_of src s5) as L5 by eauto using left_of_trans.
  apply GetLengthPrefixedSlice_left in E6; [|by eapply left_of_bytes].
  eauto using left_of_trans.
Qed.

(** The assertions of the legacy decoder hold of a fresh object. *)
Lemma DecodeFromLegacy_default src :
  BlobFileMeta_DecodeFromLegacy BlobFileMeta_default src =
    match GetVarint64 src with
    | Some (n, src) =>
        match GetVarint64 src with
        | Some (sz, src) => Some (Ret (mkMeta n sz 0 0 [] [] 0 kInit None, src))
        | None => Some (Fail Corruption)
        end
    | None => Some (Fail Corruption)
    end.
Proof.
  unfold BlobFileMeta_DecodeFromLegacy. destruct (GetVarint64 src) as [[n s1]|]; [|done].
  cbn. by destruct (GetVarint64 s1) as [[sz s2]|].
Qed.

(** A step never fails an assertion, and it consumes at least a byte. *)
Lemma DecodeFrom_step_total e src :
  is_bytes src ->
  exists r, DecodeFrom_step e src = Some r /\
    forall e' src', r = Ret (e', src') -> left_of src src' /\ (length src' < length src)%nat.
Proof.
  intros Hb. unfold DecodeFrom_step.
  destruct (GetVarint32 src) as [[tag s1]|] eqn:E1; [|by eexists].
  apply GetVarint32_result in E1 as [_ (pre & -> & Hpre)]; [|done].
  apply is_bytes_suffix in Hb.
  assert (forall s2, left_of s1 s2 ->
    left_of (pre ++ s1) s2 /\ (length s2 < length (pre ++ s1))%nat) as Hlen.
  { intros s2 [p ->]. split; [exists (pre ++ p); by rewrite app_assoc|].
    rewrite !length_app. destruct pre; [done|]. simpl. lia. }
  assert (forall (r : res (VersionEdit * bytes)),
    (forall e' s', r = Ret (e', s') -> left_of s1 s') ->
    exists r', Some r = Some r' /\ forall e' s', r' = Ret (e', s') ->
      left_of (pre ++ s1) s' /\ (length s' < length (pre ++ s1))%nat) as Hgo.
  { intros r Hr. exists r. split; [done|]. intros e' s' Hs. eapply Hlen, Hr, Hs. }
  case_match.
  { destruct (GetVarint64 s1) as [[v s2]|] eqn:E2; apply Hgo; [|done].
    intros ?? [= _ <-]. by eapply GetVarint64_left. }
  case_match.
  { destruct (GetVarint32 s1) as [[v s2]|] eqn:E2; apply Hgo; [|done].
    intros ?? [= _ <-]. by eapply GetVarint32_left. }
  case_match.
  { rewrite DecodeFromLegacy_default.
    destruct (GetVarint64 s1) as [[n s2]|] eqn:E2; [|by apply Hgo].
    destruct (GetVarint64 s2) as [[sz s3]|] eqn:E3; apply Hgo; [|done].
    intros ?? [= _ <-]. apply GetVarint64_left in E2, E3. eauto using left_of_trans. }
  case_match.
  { destruct (BlobFileMeta_DecodeFrom _ s1) as [[m s2]|] eqn:E2; apply Hgo; [|done].
    intros ?? [= _ <-]. by eapply BlobFileMeta_DecodeFrom_left. }
  case_match; [|by apply Hgo].
  destruct (GetVarint64 s1) as [[v s2]|] eqn:E2; apply Hgo; [|done].
  intros ?? [= _ <-]. by eapply GetVarint64_left.
Qed.

(** More fuel than bytes changes nothing. *)
Lemma DecodeFrom_loop_fuel fuel e src :
  is_bytes src -> (length src <= fuel)%nat ->
  DecodeFrom_loop fuel e src = VersionEdit_DecodeFrom e src.
Proof.
  revert e src. induction fuel as [fuel IH] using lt_wf_ind. intros e src Hb Hle.
  unfold VersionEdit_DecodeFrom. destruct src as [|b src]; [by destruct fuel|].
  destruct fuel as [|fuel]; [simpl in Hle; lia|].
  destruct (DecodeFrom_step_total e (b :: src) Hb) as (r & Hr & Hlt).
  cbn [DecodeFrom_loop length]. rewrite Hr. cbn.
  destruct r as [[e' src']|st]; [|done].
  destruct (Hlt _ _ eq_refl) as [Hleft Hl]. simpl in Hl, Hle.
  assert (is_bytes src') by eauto using left_of_bytes.
  rewrite (IH fuel) by (done || lia). symmetry.
  apply (IH (length src)); [lia|done|lia].
Qed.

(** The equation of the decoder. *)
Lemma DecodeFrom_unfold e src r :
  is_bytes src -> src <> [] -> DecodeFrom_step e src = Some r ->
  VersionEdit_DecodeFrom e src =
    match r with Ret (e', src') => VersionEdit_DecodeFrom e' src' | Fail st => Some (Fail st) end.
Proof.
  intros Hb Hne Hr. destruct src as [|b src]; [done|].
  destruct (DecodeFrom_step_total e (b :: src) Hb) as (r' & Hr' & Hlt).
  rewrite Hr in Hr'. injection Hr' as <-.
  unfold VersionEdit_DecodeFrom at 1. cbn [DecodeFrom_loop length]. rewrite Hr. cbn.
  destruct r as [[e' src']|st]; [|done].
  destruct (Hlt _ _ eq_refl) as [Hleft Hl]. simpl in Hl.
  apply DecodeFrom_loop_fuel; [by eapply left_of_bytes|lia].
Qed.

Lemma DecodeFrom_step_status e src st : DecodeFrom_step e src = Some (Fail st) -> st = Corruption.
Proof.
  unfold DecodeFrom_step.
  destruct (GetVarint32 src) as [[tag s]|]; [|congruence]. rewrite DecodeFromLegacy_default.
  repeat case_match; cbn; repeat case_match; congruence.
Qed.

(** Whatever bytes a manifest record holds, decoding it ends after at most
    one step per byte, fails no assertion, and either gives an edit or reports
    a corruption. *)
Theorem VersionEdit_DecodeFrom_total (e : VersionEdit) (src : bytes) :
  is_bytes src ->
  (exists e', VersionEdit_DecodeFrom e src = Some (Ret e')) \/
  VersionEdit_DecodeFrom e src = Some (Fail Corruption).
Proof.
  unfold VersionEdit_DecodeFrom. intros Hb. revert e Hb.
  assert (forall fuel e src, is_bytes src -> (length src <= fuel)%nat ->
    (exists e', DecodeFrom_loop fuel e src = Some (Ret e')) \/
    DecodeFrom_loop fuel e src = Some (Fail Corruption)) as H; [|by eauto].
  clear src. induction fuel as [|fuel IH]; intros e src Hb Hle.
  { destruct src; [|simpl in Hle; lia]. left. by exists e. }
  destruct src as [|b src]; [left; by exists e|].
  destruct (DecodeFrom_step_total e (b :: src) Hb) as (r & Hr & Hlt).
  cbn [DecodeFrom_loop]. rewrite Hr. cbn.
  destruct r as [[e' src']|st].
  - destruct (Hlt _ _ eq_refl) as [Hleft Hl]. apply IH; [by eapply left_of_bytes|lia].
  - right. by rewrite (DecodeFrom_step_status _ _ _ Hr).
Qed.

Lemma VersionEdit_DecodeFrom_total_witness :
  (exists e', VersionEdit_DecodeFrom VersionEdit_default [10; 3; 12; 200] = Some (Ret e')) \/
  VersionEdit_DecodeFrom VersionEdit_default [10; 3; 12; 200] = Some (Fail Corruption).
Proof.
  apply (VersionEdit_DecodeFrom_total VersionEdit_default [10; 3; 12; 200]).
  repeat constructor; unfold is_byte; lia.
Defined.

(** ** Round trip *)

Definition file_wf (m : BlobFileMeta) : Prop :=
  BlobFileMeta_wf m /\ is_bytes (smallest_key_ m) /\ is_bytes (largest_key_ m).

Definition VersionEdit_wf (e : VersionEdit) : Prop :=
  is_u64 (next_file_number_ e) /\ is_u32 (column_family_id_ e) /\
  Forall file_wf (added_files_ e) /\ Forall (fun d => is_u64 d.1) (deleted_files_ e).

(** What the manifest keeps of an edit: not the in-memory part of the files,
    not the sequence numbers of the deletions. *)
Definition persistent_edit (e : VersionEdit) : VersionEdit :=
  mkEdit (has_next_file_number_ e) (if has_next_file_number_ e then next_file_number_ e else 0)
    (column_family_id_ e) (map persistent (added_files_ e))
    (map (fun d => (d.1, 0)) (deleted_files_ e)).

Lemma is_bytes_BlobFileMeta_EncodeTo m : file_wf m -> is_bytes (BlobFileMeta_EncodeTo m).
Proof.
  intros (_ & H1 & H2). unfold BlobFileMeta_EncodeTo.
  auto 10 using is_bytes_PutVarint64, is_bytes_PutVarint32, is_bytes_PutLengthPrefixedSlice with aegon.
Qed.

Lemma PutVarint32_nonempty v rest : PutVarint32 v ++ rest <> [].
Proof.
  intros H%(f_equal zlen). pose proof (PutVarint32_bounds v). zlia.
Qed.

(** The encoding of the deletions, and of the additions in front of it. *)
Definition enc_deleted (l : list (Z * Z)) : bytes :=
  concat (map (fun file => PutVarint32Varint64 kDeletedBlobFile file.1) l).

Definition enc_added (l : list BlobFileMeta) : bytes :=
  concat (map (fun file => PutVarint32 kAddedBlobFileV2 ++ BlobFileMeta_EncodeTo file) l).

Lemma is_bytes_enc_deleted l : is_bytes (enc_deleted l).
Proof.
  induction l as [|d l IH]; [constructor|]. cbn. apply is_bytes_app; [|done].
  unfold PutVarint32Varint64. auto using is_bytes_app, is_bytes_PutVarint64, is_bytes_PutVarint32.
Qed.

Lemma is_bytes_enc_added l : Forall file_wf l -> is_bytes (enc_added l).
Proof.
  induction 1 as [|d l Hd Hl IH]; [constructor|]. cbn. apply is_bytes_app; [|done].
  auto using is_bytes_app, is_bytes_PutVarint32, is_bytes_BlobFileMeta_EncodeTo.
Qed.

Lemma decode_deleted l : forall e,
  Forall (fun d => is_u64 d.1) l ->
  VersionEdit_DecodeFrom e (enc_deleted l) =
    Some (Ret (mkEdit (has_next_file_number_ e) (next_file_number_ e) (column_family_id_ e)
                 (added_files_ e) (deleted_files_ e ++ map (fun d => (d.1, 0)) l))).
Proof.
  induction l as [|[n sq] l IH]; intros e Hl.
  { cbn. rewrite app_nil_r. by destruct e. }
  apply Forall_cons in Hl as [Hn Hl]. cbn in Hn.
  erewrite DecodeFrom_unfold; cycle -1.
  - unfold enc_deleted. cbn [map concat]. fold (enc_deleted l).
    unfold DecodeFrom_step, PutVarint32Varint64. rewrite <- !app_assoc.
    rewrite GetVarint32_Put by (unfold is_u32, kDeletedBlobFile; lia). cbn -[enc_deleted].
    by rewrite GetVarint64_Put.
  - cbv beta iota. rewrite IH by done. cbn. by rewrite <- app_assoc.
  - apply is_bytes_enc_deleted.
  - cbn. unfold PutVarint32Varint64. rewrite <- !app_assoc. apply PutVarint32_nonempty.
Qed.

Lemma decode_added l ds : forall e,
  Forall file_wf l -> Forall (fun d => is_u64 d.1) ds ->
  VersionEdit_DecodeFrom e (enc_added l ++ enc_deleted ds) =
    Some (Ret (mkEdit (has_next_file_number_ e) (next_file_number_ e) (column_family_id_ e)
                 (added_files_ e ++ map persistent l)
                 (deleted_files_ e ++ map (fun d => (d.1, 0)) ds))).
Proof.
  induction l as [|m l IH]; intros e Hl Hds.
  { cbn [enc_added map concat app]. rewrite decode_deleted by done. by rewrite app_nil_r. }
  pose proof Hl as Hall. apply Forall_cons in Hl as [Hm Hl].
  erewrite DecodeFrom_unfold; cycle -1.
  - unfold enc_added. cbn [map concat]. fold (enc_added l).
    unfold DecodeFrom_step. rewrite <- !app_assoc.
    rewrite GetVarint32_Put by (unfold is_u32, kAddedBlobFileV2; lia).
    cbn -[enc_added enc_deleted BlobFileMeta_DecodeFrom BlobFileMeta_EncodeTo].
    by rewrite BlobFileMeta_roundtrip by apply Hm.
  - cbv beta iota. rewrite IH by done. cbn. by rewrite <- app_assoc.
  - apply is_bytes_app; [by apply is_bytes_enc_added|apply is_bytes_enc_deleted].
  - cbn. rewrite <- !app_assoc. apply PutVarint32_nonempty.
Qed.

Lemma VersionEdit_decode_encode e :
  VersionEdit_wf e ->
  VersionEdit_DecodeFrom VersionEdit_default (VersionEdit_EncodeTo e) = Some (Ret (persistent_edit e)).
Proof.
  intros (Hn & Hc & Ha & Hd). unfold VersionEdit_EncodeTo.
  fold (enc_added (added_files_ e)). fold (enc_deleted (deleted_files_ e)).
  assert (forall e0, VersionEdit_DecodeFrom e0
    (PutVarint32Varint32 kColumnFamilyID (column_family_id_ e) ++
     enc_added (added_files_ e) ++ enc_deleted (deleted_files_ e)) =
    Some (Ret (mkEdit (has_next_file_number_ e0) (next_file_number_ e0) (column_family_id_ e)
      (added_files_ e0 ++ map persistent (added_files_ e))
      (deleted_files_ e0 ++ map (fun d => (d.1, 0)) (deleted_files_ e))))) as Hrest.
  { intros e0. unfold PutVarint32Varint32. rewrite <- app_assoc.
    erewrite DecodeFrom_unfold; cycle -1.
    - unfold DecodeFrom_step. rewrite GetVarint32_Put by (unfold is_u32, kColumnFamilyID; lia).
      cbn -[enc_added enc_deleted]. by rewrite GetVarint32_Put.
    - cbv beta iota. by rewrite decode_added.
    - auto using is_bytes_app, is_bytes_PutVarint32, is_bytes_enc_added, is_bytes_enc_deleted.
    - apply PutVarint32_nonempty. }
  destruct (has_next_file_number_ e) eqn:E.
  - unfold PutVarint32Varint64. rewrite <- app_assoc.
    erewrite DecodeFrom_unfold; cycle -1.
    + unfold DecodeFrom_step. rewrite GetVarint32_Put by (unfold is_u32, kNextFileNumber; lia).
      cbn -[enc_added enc_deleted PutVarint32Varint32]. by rewrite GetVarint64_Put.
    + cbv beta iota. rewrite Hrest. unfold persistent_edit. by rewrite E.
    + unfold PutVarint32Varint32. rewrite <- !app_assoc.
      auto 10 using is_bytes_app, is_bytes_PutVarint32, is_bytes_PutVarint64,
        is_bytes_enc_added, is_bytes_enc_deleted.
    + apply PutVarint32_nonempty.
  - cbn [app]. rewrite Hrest. unfold persistent_edit. by rewrite E.
Qed.

(** ** The comparison recognises what was written *)

Lemma insert_new_lookup (l : list BlobFileMeta) : forall (m : gmap Z BlobFileMeta) k f,
  m !! k = Some f -> foldl (fun m f => insert_new m (file_number_ f) f) m l !! k = Some f.
Proof.
  induction l as [|g l IH]; intros m k f Hm; [done|]. apply IH. unfold insert_new.
  destruct (m !! file_number_ g) eqn:E; [done|].
  destruct (decide (k = file_number_ g)) as [->|]; [congruence|by rewrite lookup_insert_ne].
Qed.

Lemma insert_new_all (l : list BlobFileMeta) : forall (m : gmap Z BlobFileMeta),
  NoDup (map file_number_ l) -> (forall f, f ∈ l -> m !! file_number_ f = None) ->
  forall f, f ∈ l ->
    foldl (fun m f => insert_new m (file_number_ f) f) m l !! file_number_ f = Some f.
Proof.
  induction l as [|g l IH]; intros m Hd Hm f Hf; [by apply elem_of_nil in Hf|].
  cbn in Hd. apply NoDup_cons in Hd as [Hg Hd]. cbn [foldl].
  assert (insert_new m (file_number_ g) g = <[file_number_ g := g]> m) as ->.
  { unfold insert_new. by rewrite Hm by apply list_elem_of_here. }
  apply elem_of_cons in Hf as [->|Hf].
  - apply insert_new_lookup. by rewrite lookup_insert_eq.
  - apply IH; [done| |done]. intros h Hh. rewrite lookup_insert_ne.
    + apply Hm. by apply list_elem_of_further.
    + intros Heq. apply Hg. rewrite Heq. by apply (list_elem_of_fmap_2 file_number_).
Qed.

Lemma VersionEdit_eqb_persistent e :
  NoDup (map file_number_ (added_files_ e)) ->
  Forall (fun d => d.2 = 0) (deleted_files_ e) ->
  (has_next_file_number_ e = false -> next_file_number_ e = 0) ->
  VersionEdit_eqb e (persistent_edit e) = true.
Proof.
  intros Hd Hs Hn. unfold VersionEdit_eqb. cbn. rewrite length_map, Nat.eqb_refl. cbn [negb].
  replace (forallb _ _) with true.
  - cbn [negb]. rewrite eqb_reflx, Z.eqb_refl.
    replace (_ =? _) with true by (symmetry; apply Z.eqb_eq; destruct (has_next_file_number_ e); auto).
    cbn [andb]. rewrite bool_decide_eq_true. clear Hd Hn.
    induction Hs as [|[n sq] l H1 _ IH]; [done|]. cbn in *. by rewrite <- IH, H1.
  - symmetry. apply forallb_forall. intros f Hf. apply in_map_iff in Hf as (g & <- & Hg).
    cbn. rewrite (insert_new_all _ ∅ Hd) by (done || by apply list_elem_of_In).
    unfold BlobFileMeta_eqb. cbn. by rewrite !Z.eqb_refl.
Qed.

(** C27: an edit written to the manifest reads back as itself, less the
    in-memory state of its files and the sequence numbers of its deletions; and
    the comparison of the code calls it equal to what was written, when the
    file numbers are distinct and there was nothing else to lose. *)
Theorem VersionEdit_roundtrip (e : VersionEdit) :
  VersionEdit_wf e ->
  VersionEdit_DecodeFrom VersionEdit_default (VersionEdit_EncodeTo e) = Some (Ret (persistent_edit e)) /\
  (NoDup (map file_number_ (added_files_ e)) ->
   Forall (fun d => d.2 = 0) (deleted_files_ e) ->
   (has_next_file_number_ e = false -> next_file_number_ e = 0) ->
   VersionEdit_eqb e (persistent_edit e) = true).
Proof. intros He. split; [by apply VersionEdit_decode_encode|apply VersionEdit_eqb_persistent]. Qed.

Definition example_edit : VersionEdit :=
  DeleteBlobFile
    (AddBlobFile (SetColumnFamilyID (SetNextFileNumber VersionEdit_default 300) 2)
       (BlobFileMeta_new 7 4096 12 6 [97] [122]))
    5 0.

Lemma VersionEdit_roundtrip_witness :
  VersionEdit_eqb example_edit (persistent_edit example_edit) = true /\
  VersionEdit_DecodeFrom VersionEdit_default (VersionEdit_EncodeTo example_edit)
    = Some (Ret (persistent_edit example_edit)).
Proof.
  assert (VersionEdit_wf example_edit) as Hwf.
  { split_and!; cbn; try (unfold is_u64, is_u32; lia);
      repeat constructor; cbn; try (unfold is_u64, is_u32, is_byte, zlen; cbn; lia). }
  destruct (VersionEdit_roundtrip example_edit Hwf) as [H1 H2]. split; [|exact H1].
  apply H2; [|repeat constructor|done]. cbn. repeat constructor. set_solver.
Defined.

(** ** Decoded edits are well typed *)

Lemma GetLengthPrefixedSlice_typed p v p' :
  is_bytes p -> GetLengthPrefixedSlice p = Some (v, p') -> is_bytes v /\ is_u32 (zlen v) /\ is_bytes p'.
Proof.
  intros Hp H. destruct (GetLengthPrefixedSlice_result _ _ _ Hp H) as (pre & Hpre & _).
  unfold GetLengthPrefixedSlice in H. destruct (GetVarint32 _) as [[len q]|] eqn:E; [|done].
  apply GetVarint32_result in E as [Hlen _]; [|done].
  rewrite Hpre in Hp. apply Forall_app in Hp as [_ [Hv Hp']%Forall_app]. split; [done|]. split; [|done].
  case_match; [|done]. injection H as <- _. unfold is_u32, zlen in *. rewrite length_take. lia.
Qed.

Lemma BlobFileMeta_DecodeFrom_typed src m src' :
  is_bytes src -> BlobFileMeta_DecodeFrom BlobFileMeta_default src = Ret (m, src') -> file_wf m.
Proof.
  intros Hb H. unfold BlobFileMeta_DecodeFrom in H.
  destruct (GetVarint64 src) as [[n s1]|] eqn:E1; [|done]. cbn in H.
  destruct (GetVarint64 s1) as [[sz s2]|] eqn:E2; [|done]. cbn in H.
  destruct (GetVarint64 s2) as [[en s3]|] eqn:E3; [|done]. cbn in H.
  destruct (GetVarint32 s3) as [[lv s4]|] eqn:E4; [|done]. cbn in H.
  destruct (GetLengthPrefixedSlice s4) as [[k1 s5]|] eqn:E5; [|done]. cbn in H.
  destruct (GetLengthPrefixedSlice s5) as [[k2 s6]|] eqn:E6; [|done]. cbn in H.
  injection H as <- _. pose proof (GetVarint64_left _ _ _ E1) as L1. pose proof (GetVarint64_left _ _ _ E2) as L2.
  pose proof (GetVarint64_left _ _ _ E3) as L3. assert (is_bytes s3) as Hs3 by eauto using left_of_bytes.
  pose proof (GetVarint32_left _ _ _ Hs3 E4) as L4. assert (is_bytes s4) as Hs4 by eauto using left_of_bytes.
  apply GetVarint64_result in E1 as [? _], E2 as [? _], E3 as [? _]. apply GetVarint32_result in E4 as [? _]; [|done].
  destruct (GetLengthPrefixedSlice_typed _ _ _ Hs4 E5) as (? & ? & Hs5).
  destruct (GetLengthPrefixedSlice_typed _ _ _ Hs5 E6) as (? & ? & _).
  by split_and!.
Qed.

Lemma DecodeFrom_step_typed e src e' src' :
  is_bytes src -> VersionEdit_wf e -> DecodeFrom_step e src = Some (Ret (e', src')) -> VersionEdit_wf e'.
Proof.
  intros Hb (H1 & H2 & H3 & H4) H. unfold DecodeFrom_step in H.
  destruct (GetVarint32 src) as [[tag s1]|] eqn:E1; [|done].
  pose proof (GetVarint32_left _ _ _ Hb E1) as L1. assert (is_bytes s1) as Hs1 by eauto using left_of_bytes.
  case_match.
  { destruct (GetVarint64 s1) as [[v s2]|] eqn:E2; [|done]. injection H as <- _. by apply GetVarint64_result in E2 as [? _]. }
  case_match.
  { destruct (GetVarint32 s1) as [[v s2]|] eqn:E2; [|done]. injection H as <- _. by apply GetVarint32_result in E2 as [? _]. }
  case_match.
  { rewrite DecodeFromLegacy_default in H. destruct (GetVarint64 s1) as [[n s2]|] eqn:E2; [|done].
    destruct (GetVarint64 s2) as [[sz s3]|] eqn:E3; [|done]. injection H as <- _.
    apply GetVarint64_result in E2 as [? _], E3 as [? _]. split; [done|]. split; [done|]. split; [|done].
    apply Forall_app. split; [done|].
    apply Forall_singleton. split; [|split; constructor]. split_and!; cbn; try done; unfold is_u64, is_u32; lia. }
  case_match.
  { destruct (BlobFileMeta_DecodeFrom _ s1) as [[m s2]|] eqn:E2; [|done]. injection H as <- _.
    apply BlobFileMeta_DecodeFrom_typed in E2; [|done]. split; [done|]. split; [done|]. split; [|done].
    apply Forall_app. split; [done|]. by apply Forall_singleton. }
  case_match; [|done]. destruct (GetVarint64 s1) as [[v s2]|] eqn:E2; [|done]. injection H as <- _.
  apply GetVarint64_result in E2 as [? _]. split; [done|]. split; [done|]. split; [done|].
  apply Forall_app. split; [done|]. by apply Forall_singleton.
Qed.

(** C28: whatever bytes a manifest record holds, decoding it ends, fails no
    assertion, and gives an edit or a corruption; and an edit that is decoded is
    well typed: its numbers fit their widths and its keys fit their length
    fields, so that, written again, it reads back as itself less the parts that
    only live in memory. *)
Theorem VersionEdit_DecodeFrom_typed (src : bytes) :
  is_bytes src ->
  (exists e, VersionEdit_DecodeFrom VersionEdit_default src = Some (Ret e) /\ VersionEdit_wf e /\
     VersionEdit_DecodeFrom VersionEdit_default (VersionEdit_EncodeTo e) = Some (Ret (persistent_edit e))) \/
  VersionEdit_DecodeFrom VersionEdit_default src = Some (Fail Corruption).
Proof.
  intros Hb. assert (forall fuel e src, is_bytes src -> (length src <= fuel)%nat -> VersionEdit_wf e ->
    (exists e', DecodeFrom_loop fuel e src = Some (Ret e') /\ VersionEdit_wf e') \/
    DecodeFrom_loop fuel e src = Some (Fail Corruption)) as H.
  { clear src Hb. induction fuel as [|fuel IH]; intros e src Hb Hle He.
    { destruct src; [|simpl in Hle; lia]. left. by exists e. }
    destruct src as [|b src]; [left; by exists e|].
    destruct (DecodeFrom_step_total e (b :: src) Hb) as (r & Hr & Hlt). cbn [DecodeFrom_loop]. rewrite Hr. cbn.
    destruct r as [[e' src']|st].
    - destruct (Hlt _ _ eq_refl) as [Hleft Hl].
      apply IH; [by eapply left_of_bytes|lia|exact (DecodeFrom_step_typed _ _ _ _ Hb He Hr)].
    - right. by rewrite (DecodeFrom_step_status _ _ _ Hr). }
  destruct (H (length src) VersionEdit_default src Hb (Nat.le_refl _)) as [(e & E & He)|E]; [|left|by right].
  { split_and!; try constructor; unfold is_u64, is_u32; cbn; lia. }
  exists e. split; [exact E|]. split; [done|]. by apply VersionEdit_decode_encode.
Qed.

(** An edit that deletes the file 200 of the column family 3. *)
Lemma VersionEdit_DecodeFrom_typed_witness :
  (exists e, VersionEdit_DecodeFrom VersionEdit_default [10; 3; 12; 200; 1] = Some (Ret e) /\ VersionEdit_wf e /\
     VersionEdit_DecodeFrom VersionEdit_default (VersionEdit_EncodeTo e) = Some (Ret (persistent_edit e))) \/
  VersionEdit_DecodeFrom VersionEdit_default [10; 3; 12; 200; 1] = Some (Fail Corruption).
Proof.
  apply (VersionEdit_DecodeFrom_typed [10; 3; 12; 200; 1]). repeat constructor; unfold is_byte; lia.
Defined.
