(* ===== verification/BlobStorage.v ===== *)
(** * BlobStorage: the blob files of a column family

    [blob_storage.h] and [blob_storage.cc]: the files by number, their count
    per level, their key ranges, the scores of the collector, and the obsolete
    files that wait to be deleted. The statistics of the database are threaded
    through the operations. [None] is a failed assertion or an index out of
    range. *)
From S2P Require Import Prelude BlobFileMeta TitanStats Options.

Local Open Scope Z_scope.

(** ** State *)

Record GCScore : Type := mkScore {
  file_number : Z;
  score : double }.

(** A metadata object is identified by its number: [blob_ranges_] and the lists
    of numbers point to the object that [files_] owns. [file_cache_] is the set
    of the files whose reader is cached. *)
Record BlobStorage : Type := mkStorage {
  cf_options_ : TitanCFOptions;
  blob_run_mode_ : TitanBlobRunMode;
  cf_id_ : Z;
  files_ : gmap Z BlobFileMeta;
  levels_file_count_ : list Z;
  blob_ranges_ : list (bytes * Z);
  file_cache_ : gset Z;
  gc_score_ : list GCScore;
  obsolete_files_ : list (Z * Z);
  destroyed_ : bool }.

Definition BlobStorage_new (cf_options : TitanCFOptions) (cf_id : Z) : BlobStorage :=
  mkStorage cf_options (blob_run_mode cf_options) cf_id ∅
    (replicate (Z.to_nat (num_levels cf_options)) 0) [] ∅ [] [] false.

Definition set_files (b : BlobStorage) (files : gmap Z BlobFileMeta) : BlobStorage :=
  mkStorage (cf_options_ b) (blob_run_mode_ b) (cf_id_ b) files (levels_file_count_ b)
    (blob_ranges_ b) (file_cache_ b) (gc_score_ b) (obsolete_files_ b) (destroyed_ b).

Definition set_gc_score (b : BlobStorage) (l : list GCScore) : BlobStorage :=
  mkStorage (cf_options_ b) (blob_run_mode_ b) (cf_id_ b) (files_ b) (levels_file_count_ b)
    (blob_ranges_ b) (file_cache_ b) l (obsolete_files_ b) (destroyed_ b).

Definition set_obsolete_files (b : BlobStorage) (l : list (Z * Z)) : BlobStorage :=
  mkStorage (cf_options_ b) (blob_run_mode_ b) (cf_id_ b) (files_ b) (levels_file_count_ b)
    (blob_ranges_ b) (file_cache_ b) (gc_score_ b) l (destroyed_ b).

Definition SetBlobRunMode (b : BlobStorage) (mode : TitanBlobRunMode) : BlobStorage :=
  mkStorage (cf_options_ b) mode (cf_id_ b) (files_ b) (levels_file_count_ b)
    (blob_ranges_ b) (file_cache_ b) (gc_score_ b) (obsolete_files_ b) (destroyed_ b).

Definition MarkDestroyed (b : BlobStorage) : BlobStorage :=
  mkStorage (cf_options_ b) (blob_run_mode_ b) (cf_id_ b) (files_ b) (levels_file_count_ b)
    (blob_ranges_ b) (file_cache_ b) (gc_score_ b) (obsolete_files_ b) true.

Definition cf_options (b : BlobStorage) : TitanCFOptions :=
  set_blob_run_mode (cf_options_ b) (blob_run_mode_ b).

Definition MaybeRemove (b : BlobStorage) : bool :=
  destroyed_ b && bool_decide (obsolete_files_ b = []).

Definition NumBlobFiles (b : BlobStorage) : Z := Z.of_nat (size (files_ b)).

Definition NumObsoleteBlobFiles (b : BlobStorage) : Z := zlen (obsolete_files_ b).

(** A vector access; [None] out of range. *)
Definition vector_at {A} (l : list A) (i : Z) : option A :=
  if 0 <=? i then l !! Z.to_nat i else None.

Definition NumBlobFilesAtLevel (b : BlobStorage) (level : Z) : option Z :=
  if level >=? zlen (levels_file_count_ b) then Some 0 else vector_at (levels_file_count_ b) level.

Definition FindFile (b : BlobStorage) (number : Z) : option (option BlobFileMeta) :=
  match files_ b !! number with
  | Some m => _ ← assert (number =? file_number_ m); Some (Some m)
  | None => Some None
  end.

(** Replace the metadata object of a file by its new state. *)
Definition update_file (b : BlobStorage) (number : Z) (m : BlobFileMeta) : BlobStorage :=
  set_files b (<[number := m]> (files_ b)).

(** ** Key ranges

    [std::multimap], as the list of its entries in order. *)
Section Ranges.
Context `{C : Comparator}.

(** [lower_bound] and [upper_bound], as positions. *)
Fixpoint lower_bound (l : list (bytes * Z)) (k : bytes) : nat :=
  match l with
  | [] => 0%nat
  | (k', _) :: l => if Compare k' k <? 0 then S (lower_bound l k) else 0%nat
  end.

Fixpoint upper_bound (l : list (bytes * Z)) (k : bytes) : nat :=
  match l with
  | [] => 0%nat
  | (k', _) :: l => if Compare k k' <? 0 then 0%nat else S (upper_bound l k)
  end.

(** [emplace] goes behind the entries with an equivalent key. *)
Definition ranges_emplace (l : list (bytes * Z)) (k : bytes) (number : Z) : list (bytes * Z) :=
  let p := upper_bound l k in take p l ++ (k, number) :: drop p l.

(** Remove the first entry with the given number among [n] entries. *)
Fixpoint erase_first (n : nat) (l : list (bytes * Z)) (number : Z) : list (bytes * Z) :=
  match n, l with
  | S n, (k, x) :: l => if x =? number then l else (k, x) :: erase_first n l number
  | _, _ => l
  end.

(** The loop over [equal_range] in [RemoveFile]. *)
Definition ranges_erase (l : list (bytes * Z)) (k : bytes) (number : Z) : list (bytes * Z) :=
  let first := lower_bound l k in
  let last := upper_bound l k in
  take first l ++ erase_first (last - first) (drop first l) number.

(** A range of keys: a null bound is the minimum or the maximum. *)
Record RangePtr : Type := mkRange {
  start : option bytes;
  limit : option bytes }.

(** Whether the iteration over a range selects the file. *)
Definition in_range (m : BlobFileMeta) (end_ : option bytes) (include_end : bool) : bool :=
  if is_obsolete m then false else
  match end_ with
  | None => true
  | Some e =>
      if zlen (largest_key_ m) =? 0 then false else
      (include_end && (Compare (largest_key_ m) e <=? 0)) ||
      (negb include_end && (Compare (largest_key_ m) e <? 0))
  end.

(** The body of the loop of [GetBlobFilesInRanges] for one entry. *)
Definition range_step (b : BlobStorage) (r : RangePtr) (include_end : bool)
    (files : list Z) (entry : bytes * Z) : option (list Z) :=
  m ← files_ b !! entry.2;
  if is_obsolete m then Some files else
  if (zlen (largest_key_ m) =? 0) && bool_decide (is_Some (limit r)) then Some files else
  let files := if in_range m (limit r) include_end then files ++ [file_number_ m] else files in
  _ ← assert ((zlen (smallest_key_ m) =? 0) ||
              match start r with None => true | Some k => Compare (smallest_key_ m) k >=? 0 end);
  Some files.

Fixpoint range_loop (b : BlobStorage) (r : RangePtr) (include_end : bool)
    (files : list Z) (entries : list (bytes * Z)) : option (list Z) :=
  match entries with
  | [] => Some files
  | e :: entries => files ← range_step b r include_end files e; range_loop b r include_end files entries
  end.

(** The iterator runs from [lower_bound] until it meets [upper_bound]; it runs
    past the end of the map when the first is behind the second. *)
Definition range_entries (b : BlobStorage) (r : RangePtr) : option (list (bytes * Z)) :=
  let l := blob_ranges_ b in
  let first := match start r with Some k => lower_bound l k | None => 0%nat end in
  let last := match limit r with Some k => upper_bound l k | None => length l end in
  if (first <=? last)%nat then Some (take (last - first) (drop first l)) else None.

Fixpoint GetBlobFilesInRanges (b : BlobStorage) (ranges : list RangePtr) (include_end : bool)
    (files : list Z) : option (list Z) :=
  match ranges with
  | [] => Some files
  | r :: ranges =>
      entries ← range_entries b r;
      files ← range_loop b r include_end files entries;
      GetBlobFilesInRanges b ranges include_end files
  end.

(** ** Scores *)

(** [std::sort] with the order of [ComputeGCScore]. The order of equal scores
    is not specified; this is insertion sort. *)
Fixpoint score_insert (x : GCScore) (l : list GCScore) : list GCScore :=
  match l with
  | [] => [x]
  | y :: l' => if d_lt (score x) (score y) then y :: score_insert x l' else x :: l
  end.

Definition score_sort (l : list GCScore) : list GCScore := foldr score_insert [] l.

Definition file_score (cf : TitanCFOptions) (n : Z) (m : BlobFileMeta) : GCScore :=
  mkScore n (if file_size_ m <? merge_small_file_threshold cf
             then blob_file_discardable_ratio cf else GetDiscardableRatio m).

Definition ComputeGCScore (b : BlobStorage) : BlobStorage :=
  set_gc_score b
    (score_sort
       (omap (fun '(n, m) => if is_obsolete m then None else Some (file_score (cf_options_ b) n m))
          (map_to_list (files_ b)))).

(** ** Files *)

(** [levels_file_count_[level] += d]. *)
Definition count_add (l : list Z) (level d : Z) : option (list Z) :=
  x ← vector_at l level; Some (<[Z.to_nat level := x + d]> l).

Definition AddBlobFile (b : BlobStorage) (st : TitanStats) (m : BlobFileMeta)
    : option (BlobStorage * TitanStats) :=
  counts ← count_add (levels_file_count_ b) (file_level_ m) 1;
  let files := match files_ b !! file_number_ m with
               | Some _ => files_ b
               | None => <[file_number_ m := m]> (files_ b)
               end in
  let b := mkStorage (cf_options_ b) (blob_run_mode_ b) (cf_id_ b) files counts
             (ranges_emplace (blob_ranges_ b) (smallest_key_ m) (file_number_ m))
             (file_cache_ b) (gc_score_ b) (obsolete_files_ b) (destroyed_ b) in
  let st := if negb (live_data_size_ m =? 0)
            then AddStats st (cf_id_ b) (GetDiscardableRatioLevel m) 1 else st in
  let st := AddStats st (cf_id_ b) LIVE_BLOB_FILE_SIZE (file_size_ m) in
  let st := AddStats st (cf_id_ b) NUM_LIVE_BLOB_FILE 1 in
  Some (b, st).

Definition MarkFileObsoleteLocked (b : BlobStorage) (st : TitanStats) (m : BlobFileMeta)
    (obsolete_sequence : Z) : option (BlobStorage * TitanStats) :=
  m' ← transit m kDelete;
  counts ← count_add (levels_file_count_ b) (file_level_ m) (-1);
  let b := mkStorage (cf_options_ b) (blob_run_mode_ b) (cf_id_ b)
             (<[file_number_ m := m']> (files_ b)) counts
             (blob_ranges_ b) (file_cache_ b) (gc_score_ b)
             (obsolete_files_ b ++ [(file_number_ m, obsolete_sequence)]) (destroyed_ b) in
  let st := SubStats st (cf_id_ b) (GetDiscardableRatioLevel m) 1 in
  let st := SubStats st (cf_id_ b) LIVE_BLOB_SIZE (live_data_size_ m) in
  let st := SubStats st (cf_id_ b) LIVE_BLOB_FILE_SIZE (file_size_ m) in
  let st := SubStats st (cf_id_ b) NUM_LIVE_BLOB_FILE 1 in
  let st := AddStats st (cf_id_ b) OBSOLETE_BLOB_FILE_SIZE (file_size_ m) in
  let st := AddStats st (cf_id_ b) NUM_OBSOLETE_BLOB_FILE 1 in
  Some (b, st).

Definition MarkFileObsolete (b : BlobStorage) (st : TitanStats) (number obsolete_sequence : Z)
    : option (bool * BlobStorage * TitanStats) :=
  match files_ b !! number with
  | None => Some (false, b, st)
  | Some m =>
      '(b, st) ← MarkFileObsoleteLocked b st m obsolete_sequence;
      Some (true, b, st)
  end.

Definition RemoveFile (b : BlobStorage) (st : TitanStats) (number : Z)
    : bool * BlobStorage * TitanStats :=
  match files_ b !! number with
  | None => (false, b, st)
  | Some m =>
      let b' := mkStorage (cf_options_ b) (blob_run_mode_ b) (cf_id_ b)
                  (delete number (files_ b)) (levels_file_count_ b)
                  (ranges_erase (blob_ranges_ b) (smallest_key_ m) (file_number_ m))
                  (file_cache_ b ∖ {[number]}) (gc_score_ b) (obsolete_files_ b) (destroyed_ b) in
      let st := SubStats st (cf_id_ b) OBSOLETE_BLOB_FILE_SIZE (file_size_ m) in
      let st := SubStats st (cf_id_ b) NUM_OBSOLETE_BLOB_FILE 1 in
      (true, b', st)
  end.

(** The loop of [GetObsoleteFiles] over the list; [kept] is what it has passed.
    The files are listed by number. *)
Fixpoint obsolete_loop (b : BlobStorage) (st : TitanStats) (kept todo : list (Z * Z))
    (oldest_sequence : Z) (names : list Z) : option (list Z * BlobStorage * TitanStats) :=
  match todo with
  | [] => Some (names, set_obsolete_files b kept, st)
  | (number, obsolete_sequence) :: todo =>
      if oldest_sequence >? obsolete_sequence then
        let '(removed, b, st) := RemoveFile b st number in
        _ ← assert removed;
        obsolete_loop b st kept todo oldest_sequence (names ++ [number])
      else obsolete_loop b st (kept ++ [(number, obsolete_sequence)]) todo oldest_sequence names
  end.

Definition GetObsoleteFiles (b : BlobStorage) (st : TitanStats) (names : list Z) (oldest_sequence : Z)
    : option (list Z * BlobStorage * TitanStats) :=
  obsolete_loop b st [] (obsolete_files_ b) oldest_sequence names.

Definition GetAllFiles (b : BlobStorage) (names : list Z) : list Z :=
  names ++ (map_to_list (files_ b)).*1.

Definition ExportBlobFiles (b : BlobStorage) : gmap Z BlobFileMeta := files_ b.

(** The fold of [InitializeAllFiles]. *)
Definition restart_files (files : gmap Z BlobFileMeta) : option (gmap Z BlobFileMeta) :=
  map_fold (fun n m acc => acc ← acc; m ← transit m kDbRestart; Some (<[n := m]> acc)) (Some files) files.

Definition InitializeAllFiles (b : BlobStorage) : option BlobStorage :=
  files ← restart_files (files_ b); Some (ComputeGCScore (set_files b files)).

End Ranges.
