(* ===== verification/BlobStorageProofs.v ===== *)
(** * BlobStorageProofs: the invariant of the blob storage

    The lemmas about the key ranges, the scores and the per-file sums, the
    invariant that ties the counts, the ranges, the obsolete list and the
    statistics to the files, and its preservation by every operation. *)
From Stdlib Require Import SpecFloat.
From S2P Require Import Prelude BitMap BlobFileMeta TitanStats Options BlobStorage.

Local Open Scope Z_scope.

(** ** Sums over the files *)

Definition sum_files (f : BlobFileMeta -> Z) (files : gmap Z BlobFileMeta) : Z :=
  map_fold (fun _ m acc => f m + acc) 0 files.

Lemma sum_files_empty f : sum_files f ∅ = 0.
Proof. unfold sum_files. by rewrite map_fold_empty. Qed.

Lemma sum_files_insert f files n m :
  files !! n = None -> sum_files f (<[n := m]> files) = f m + sum_files f files.
Proof. intros. unfold sum_files. rewrite map_fold_insert_L; [done|intros; lia|done]. Qed.

Lemma sum_files_delete f files n m :
  files !! n = Some m -> sum_files f (delete n files) = sum_files f files - f m.
Proof.
  intros H. rewrite <- (insert_delete_id files n m H) at 2.
  rewrite sum_files_insert by apply lookup_delete_eq. lia.
Qed.

Lemma sum_files_update f files n m m' :
  files !! n = Some m -> sum_files f (<[n := m']> files) = sum_files f files - f m + f m'.
Proof.
  intros H. rewrite <- (insert_delete_eq files n m').
  rewrite sum_files_insert by apply lookup_delete_eq.
  rewrite (sum_files_delete _ _ _ m) by done. lia.
Qed.

(** ** Key ranges *)

Section Ranges.
Context `{C : Comparator} `{L : !ComparatorLaws C}.

Lemma Compare_ge a b : 0 <= Compare a b -> Compare b a <= 0.
Proof. pose proof (Compare_swap a b). lia. Qed.

Lemma Compare_lt_le a b c : Compare a b < 0 -> Compare b c <= 0 -> Compare a c < 0.
Proof.
  intros H1 H2. destruct (Z.lt_ge_cases (Compare a c) 0) as [|H]; [done|].
  apply Compare_ge in H. pose proof (Compare_trans _ _ _ H2 H).
  apply Compare_swap in H1. lia.
Qed.

Lemma Compare_le_lt a b c : Compare a b <= 0 -> Compare b c < 0 -> Compare a c < 0.
Proof.
  intros H1 H2. destruct (Z.lt_ge_cases (Compare a c) 0) as [|H]; [done|].
  apply Compare_ge in H. pose proof (Compare_trans _ _ _ H H1).
  apply Compare_swap in H2. lia.
Qed.

Definition entry_le (x y : bytes * Z) : Prop := Compare x.1 y.1 <= 0.

Lemma lower_bound_before l k : Forall (fun e => Compare e.1 k < 0) (take (lower_bound l k) l).
Proof.
  induction l as [|[k' n] l IH]; cbn; [done|].
  destruct (Z.ltb_spec (Compare k' k) 0); cbn; auto.
Qed.

Lemma lower_bound_after l k :
  StronglySorted entry_le l -> Forall (fun e => 0 <= Compare e.1 k) (drop (lower_bound l k) l).
Proof.
  induction 1 as [|[k' n] l Hs IH Hf]; cbn; [done|].
  destruct (Z.ltb_spec (Compare k' k) 0) as [|Hc]; cbn; [done|].
  constructor; [done|]. eapply Forall_impl; [exact Hf|]. intros [k'' x] Hle. unfold entry_le in Hle.
  cbn in *. destruct (Z.lt_ge_cases (Compare k'' k) 0) as [H|]; [|lia].
  pose proof (Compare_le_lt _ _ _ Hle H). lia.
Qed.

Lemma upper_bound_before l k : Forall (fun e => Compare e.1 k <= 0) (take (upper_bound l k) l).
Proof.
  induction l as [|[k' n] l IH]; cbn; [done|].
  destruct (Z.ltb_spec (Compare k k') 0) as [|H]; cbn; [done|].
  constructor; [by apply Compare_ge|done].
Qed.

Lemma upper_bound_after l k :
  StronglySorted entry_le l -> Forall (fun e => Compare k e.1 < 0) (drop (upper_bound l k) l).
Proof.
  induction 1 as [|[k' n] l Hs IH Hf]; cbn; [done|].
  destruct (Z.ltb_spec (Compare k k') 0) as [Hc|]; cbn; [|done].
  constructor; [done|]. eapply Forall_impl; [exact Hf|]. intros [k'' x] Hle. unfold entry_le in Hle.
  cbn in *. by eapply Compare_lt_le.
Qed.

Lemma bounds_le l s e : Compare s e <= 0 -> (lower_bound l s <= upper_bound l e)%nat.
Proof.
  intros Hse. induction l as [|[k n] l IH]; cbn; [lia|].
  destruct (Z.ltb_spec (Compare k s) 0) as [Hk|]; [|lia].
  destruct (Z.ltb_spec (Compare e k) 0) as [He|]; [|lia].
  pose proof (Compare_lt_le _ _ _ Hk Hse). apply Compare_swap in He. lia.
Qed.

Lemma upper_bound_length l k : (upper_bound l k <= length l)%nat.
Proof. induction l as [|[k' n] l IH]; cbn; [lia|]. case_match; lia. Qed.

Lemma lower_bound_length l k : (lower_bound l k <= length l)%nat.
Proof. induction l as [|[k' n] l IH]; cbn; [lia|]. case_match; lia. Qed.

Lemma elem_of_take_in {A} (x : A) n l : x ∈ take n l -> x ∈ l.
Proof. intros H. eapply elem_of_sublist; [exact H|apply sublist_take]. Qed.

Lemma elem_of_drop_in {A} (x : A) n l : x ∈ drop n l -> x ∈ l.
Proof. intros H. eapply elem_of_sublist; [exact H|apply sublist_drop]. Qed.

Lemma ranges_emplace_perm l k n : ranges_emplace l k n ≡ₚ (k, n) :: l.
Proof. unfold ranges_emplace. by rewrite <- Permutation_middle, take_drop. Qed.

Lemma ranges_emplace_sorted l k n :
  StronglySorted entry_le l -> StronglySorted entry_le (ranges_emplace l k n).
Proof.
  intros Hl. unfold ranges_emplace. set (p := upper_bound l k).
  pose proof (upper_bound_before l k) as H1. pose proof (upper_bound_after l k Hl) as H2.
  fold p in H1, H2. rewrite <- (take_drop p l) in Hl.
  apply StronglySorted_app in Hl as (Hab & Ha & Hb).
  apply StronglySorted_app. split_and!; [|done|].
  - rewrite Forall_forall in H1. intros x y Hx [->|Hy]%elem_of_cons; [by apply H1|by apply Hab].
  - constructor; [done|]. eapply Forall_impl; [exact H2|]. unfold entry_le. cbn. lia.
Qed.

(** Erasing keeps the order and removes one entry. *)
Lemma erase_first_sublist n l x : sublist (erase_first n l x) l.
Proof.
  revert n. induction l as [|[k y] l IH]; intros [|n]; cbn; try reflexivity.
  case_match; [by apply sublist_cons|by apply sublist_skip].
Qed.

Lemma erase_first_perm n l x :
  (exists e, e ∈ take n l /\ e.2 = x) ->
  exists e, e ∈ l /\ e.2 = x /\ l ≡ₚ e :: erase_first n l x.
Proof.
  revert l. induction n as [|n IH]; intros [|[k y] l]; cbn; intros (e & He & Hx);
    try by apply elem_of_nil in He.
  destruct (Z.eqb_spec y x) as [->|Hne].
  - exists (k, x). split; [apply list_elem_of_here|]. done.
  - apply elem_of_cons in He as [->|He]; [done|].
    destruct (IH l) as (e' & He' & Hx' & Hp); [by exists e|].
    exists e'. split; [by apply list_elem_of_further|]. split; [done|].
    rewrite Hp at 1. by rewrite Permutation_swap.
Qed.

Lemma sublist_sorted (l1 l2 : list (bytes * Z)) :
  sublist l1 l2 -> StronglySorted entry_le l2 -> StronglySorted entry_le l1.
Proof.
  induction 1 as [|x l1 l2 Hs IH|x l1 l2 Hs IH]; intros H; [done| |].
  - apply StronglySorted_inv in H as [H1 H2]. constructor; [by apply IH|].
    rewrite Forall_forall in *. intros y Hy. apply H2. by eapply elem_of_sublist.
  - apply IH. by apply StronglySorted_inv in H as [? _].
Qed.

Lemma ranges_erase_sorted l k n :
  StronglySorted entry_le l -> StronglySorted entry_le (ranges_erase l k n).
Proof.
  apply sublist_sorted. unfold ranges_erase.
  set (a := lower_bound l k). set (z := upper_bound l k).
  transitivity (take a l ++ drop a l); [|by rewrite take_drop].
  apply sublist_app; [reflexivity|apply erase_first_sublist].
Qed.

Lemma ranges_erase_perm l k n :
  StronglySorted entry_le l -> (k, n) ∈ l -> NoDup l.*2 -> l ≡ₚ (k, n) :: ranges_erase l k n.
Proof.
  intros Hs Hin Hd. unfold ranges_erase.
  set (a := lower_bound l k). set (z := upper_bound l k).
  assert (a <= z)%nat as Haz by (apply bounds_le; rewrite Compare_refl; lia).
  assert ((k, n) ∈ take (z - a) (drop a l)) as Hmid.
  { rewrite <- (take_drop a l) in Hin. apply elem_of_app in Hin as [Hin|Hin].
    - pose proof (lower_bound_before l k) as H. rewrite Forall_forall in H.
      apply H in Hin. cbn in Hin. rewrite Compare_refl in Hin. lia.
    - rewrite <- (take_drop (z - a) (drop a l)), drop_drop in Hin.
      replace (a + (z - a))%nat with z in Hin by lia.
      apply elem_of_app in Hin as [Hin|Hin]; [done|].
      pose proof (upper_bound_after l k Hs) as H. rewrite Forall_forall in H.
      apply H in Hin. cbn in Hin. rewrite Compare_refl in Hin. lia. }
  destruct (erase_first_perm (z - a) (drop a l) n) as (e & He & Hx & Hp).
  { by exists (k, n). }
  assert (e = (k, n)) as ->.
  { assert (e ∈ l) as H1 by (by eapply elem_of_drop_in).
    apply list_elem_of_lookup in H1 as [i Hi]. apply list_elem_of_lookup in Hin as [j Hj].
    assert (i = j) as ->; [|congruence].
    eapply NoDup_lookup; [exact Hd|..]; rewrite list_lookup_fmap, ?Hi, ?Hj; cbn; by rewrite ?Hx. }
  transitivity (take a l ++ drop a l); [by rewrite take_drop|].
  rewrite Hp at 1. by rewrite Permutation_middle.
Qed.

(** The entries between two bounds are those whose key is between them. *)
Lemma range_entries_elem b r :
  StronglySorted entry_le (blob_ranges_ b) ->
  match start r, limit r with Some s, Some e => Compare s e <= 0 | _, _ => True end ->
  exists l, range_entries b r = Some l /\ sublist l (blob_ranges_ b) /\
    forall e, e ∈ l <-> e ∈ blob_ranges_ b /\
      match start r with Some s => 0 <= Compare e.1 s | None => True end /\
      match limit r with Some x => Compare e.1 x <= 0 | None => True end.
Proof.
  intros Hs Hr. unfold range_entries. set (l := blob_ranges_ b) in *.
  set (a := match start r with Some k => lower_bound l k | None => 0%nat end).
  set (z := match limit r with Some k => upper_bound l k | None => length l end).
  assert (a <= z)%nat as Haz.
  { unfold a, z. destruct (start r), (limit r); try lia; [by apply bounds_le|].
    apply lower_bound_length. }
  rewrite (proj2 (Nat.leb_le a z)) by done. eexists. split; [done|].
  assert (l = take a l ++ take (z - a) (drop a l) ++ drop z l) as Hl.
  { rewrite <- (take_drop a l) at 1. f_equal.
    rewrite <- (take_drop (z - a) (drop a l)) at 1. f_equal. rewrite drop_drop. f_equal. lia. }
  split.
  { rewrite Hl at 2. apply sublist_inserts_l, sublist_inserts_r. reflexivity. }
  assert (forall e, e ∈ take (z - a) (drop a l) -> e ∈ drop a l /\ e ∈ take z l) as Hsub.
  { intros e He. split; [by eapply elem_of_take_in|].
    rewrite take_drop_commute in He. replace (a + (z - a))%nat with z in He by lia.
    by eapply elem_of_drop_in. }
  assert (forall e, e ∈ take a l -> match start r with Some s => Compare e.1 s < 0 | None => False end) as Hbefore.
  { unfold a. destruct (start r) as [s|]; intros e He; [|by apply elem_of_nil in He].
    pose proof (lower_bound_before l s) as H. rewrite Forall_forall in H. by apply H. }
  assert (forall e, e ∈ drop z l -> match limit r with Some x => Compare x e.1 < 0 | None => False end) as Hafter.
  { unfold z. destruct (limit r) as [x|]; intros e He.
    - pose proof (upper_bound_after l x Hs) as H. rewrite Forall_forall in H. by apply H.
    - rewrite drop_ge in He by lia. by apply elem_of_nil in He. }
  intros e. split.
  - intros He. destruct (Hsub e He) as [H1 H2]. split_and!.
    + by eapply elem_of_drop_in.
    + unfold a in H1. destruct (start r) as [s|]; [|done].
      pose proof (lower_bound_after l s Hs) as H. rewrite Forall_forall in H. by apply H.
    + unfold z in H2. destruct (limit r) as [x|]; [|done].
      pose proof (upper_bound_before l x) as H. rewrite Forall_forall in H. by apply H.
  - intros (He & H1 & H2). rewrite Hl in He.
    apply elem_of_app in He as [He|[He|He]%elem_of_app]; [|done|].
    + apply Hbefore in He. destruct (start r); lia.
    + apply Hafter in He. destruct (limit r); [|done]. apply Compare_swap in He. lia.
Qed.
End Ranges.

(** ** Scores *)

Definition not_nan (d : double) : Prop := d <> S754_nan.

Lemma d_lt_asym a b : d_lt a b = true -> d_lt b a = false.
Proof.
  unfold d_lt, SFltb, SFcompare.
  destruct a as [[]|[]| |[] ma ea], b as [[]|[]| |[] mb eb]; try done;
    change (Pos.compare_cont Eq) with Pos.compare;
    destruct (Z.compare_spec ea eb), (Z.compare_spec eb ea); try done; try lia;
    destruct (Pos.compare_spec ma mb), (Pos.compare_spec mb ma); try done; lia.
Qed.

(** "Not less than" is transitive when nothing is a NaN. *)
Lemma d_not_lt_trans a b c :
  not_nan a -> not_nan b -> not_nan c ->
  d_lt a b = false -> d_lt b c = false -> d_lt a c = false.
Proof.
  unfold not_nan, d_lt, SFltb, SFcompare.
  destruct a as [[]|[]| |[] ma ea], b as [[]|[]| |[] mb eb], c as [[]|[]| |[] mc ec];
    intros Ha Hb Hc; try done; change (Pos.compare_cont Eq) with Pos.compare;
    destruct (Z.compare_spec ea eb), (Z.compare_spec eb ec), (Z.compare_spec ea ec);
    try done; try lia;
    destruct (Pos.compare_spec ma mb), (Pos.compare_spec mb mc), (Pos.compare_spec ma mc);
    try done; lia.
Qed.

Definition score_ge (x y : GCScore) : Prop := d_lt (score x) (score y) = false.

Lemma score_insert_perm x l : score_insert x l ≡ₚ x :: l.
Proof.
  induction l as [|y l IH]; cbn; [done|]. case_match; [|done].
  by rewrite IH, Permutation_swap.
Qed.

Lemma score_sort_perm l : score_sort l ≡ₚ l.
Proof. induction l as [|x l IH]; cbn; [done|]. by rewrite score_insert_perm, IH. Qed.

Lemma score_insert_sorted x l :
  Forall (fun y => not_nan (score y)) (x :: l) ->
  StronglySorted score_ge l -> StronglySorted score_ge (score_insert x l).
Proof.
  intros Hn Hs. apply Forall_cons in Hn as [Hx Hn].
  induction Hs as [|y l Hs IH Hf]; cbn; [by repeat constructor|].
  apply Forall_cons in Hn as [Hy Hn].
  destruct (d_lt (score x) (score y)) eqn:E.
  - constructor; [by apply IH|]. rewrite score_insert_perm.
    constructor; [by apply d_lt_asym|done].
  - constructor; [by constructor|]. constructor; [done|].
    rewrite Forall_forall in *. intros z Hz. unfold score_ge in *.
    eapply (d_not_lt_trans _ (score y)); auto.
Qed.

Lemma score_sort_sorted l :
  Forall (fun y => not_nan (score y)) l -> StronglySorted score_ge (score_sort l).
Proof.
  induction 1 as [|x l Hx Hl IH]; cbn; [constructor|].
  apply score_insert_sorted; [|done]. constructor; [done|]. by rewrite score_sort_perm.
Qed.

(** The scores before sorting: one per file that is not obsolete. *)
Definition raw_scores (b : BlobStorage) : list GCScore :=
  omap (fun '(n, m) => if is_obsolete m then None else Some (file_score (cf_options_ b) n m))
    (map_to_list (files_ b)).

Lemma raw_scores_elem b x :
  x ∈ raw_scores b <-> exists n m, files_ b !! n = Some m /\ is_obsolete m = false /\
                       x = file_score (cf_options_ b) n m.
Proof.
  unfold raw_scores. rewrite list_elem_of_omap. split.
  - intros ([n m] & Hin & Hx). apply elem_of_map_to_list in Hin.
    destruct (is_obsolete m) eqn:E; [done|]. exists n, m. by simplify_eq.
  - intros (n & m & Hin & Ho & ->). exists (n, m).
    rewrite Ho. split; [by apply elem_of_map_to_list|done].
Qed.

Lemma raw_scores_numbers b :
  (file_number <$> raw_scores b) ≡ₚ
  (map_to_list (filter (fun e : Z * BlobFileMeta => is_obsolete e.2 = false) (files_ b))).*1.
Proof.
  unfold raw_scores. rewrite map_filter_alt.
  assert (forall l : list (Z * BlobFileMeta), NoDup l.*1 ->
    file_number <$> omap (fun '(n, m) => if is_obsolete m then None else
       Some (file_score (cf_options_ b) n m)) l =
    (filter (fun e : Z * BlobFileMeta => is_obsolete e.2 = false) l).*1) as H.
  { induction l as [|[n m] l IH]; intros Hd; [done|]. cbn in Hd.
    apply NoDup_cons in Hd as [_ Hd]. specialize (IH Hd).
    rewrite filter_cons. cbn -[filter] in *. destruct (is_obsolete m); cbn -[filter] in *.
    - by rewrite decide_False by done.
    - rewrite decide_True by done. cbn -[filter]. by f_equal. }
  rewrite H by apply NoDup_fst_map_to_list.
  rewrite map_to_list_to_map; [done|].
  eapply sublist_NoDup; [apply (NoDup_fst_map_to_list (files_ b))|].
  apply fmap_sublist, sublist_filter.
Qed.

(** ** The invariant *)

Definition live (m : BlobFileMeta) : bool := negb (is_obsolete m).

Definition at_level (l : nat) (m : BlobFileMeta) : Z :=
  if live m && (file_level_ m =? Z.of_nat l) then 1 else 0.

Lemma at_level_live l m :
  live m = true -> at_level l m = if file_level_ m =? Z.of_nat l then 1 else 0.
Proof. unfold at_level. by intros ->. Qed.

Lemma at_level_obsolete l m : live m = false -> at_level l m = 0.
Proof. unfold at_level. by intros ->. Qed.

Definition range_of (e : Z * BlobFileMeta) : bytes * Z := (smallest_key_ e.2, e.1).

(** What the data structures of a storage say of its files. *)
Record storage_wf `{C : Comparator} (b : BlobStorage) : Prop := {
  wf_number : forall n m, files_ b !! n = Some m -> file_number_ m = n;
  wf_level : forall n m, files_ b !! n = Some m -> 0 <= file_level_ m < zlen (levels_file_count_ b);
  wf_count : forall l c, levels_file_count_ b !! l = Some c -> c = sum_files (at_level l) (files_ b);
  wf_obsolete_nodup : NoDup (obsolete_files_ b).*1;
  wf_obsolete : forall n, n ∈ (obsolete_files_ b).*1 <->
    exists m, files_ b !! n = Some m /\ is_obsolete m = true;
  wf_ranges : blob_ranges_ b ≡ₚ range_of <$> map_to_list (files_ b);
  wf_sorted : StronglySorted entry_le (blob_ranges_ b) }.

(** The counters whose value the files determine. *)
Definition tracked (t : StatsType) : option (BlobFileMeta -> Z) :=
  match t with
  | NUM_LIVE_BLOB_FILE => Some (fun m => if live m then 1 else 0)
  | LIVE_BLOB_FILE_SIZE => Some (fun m => if live m then file_size_ m else 0)
  | NUM_OBSOLETE_BLOB_FILE => Some (fun m => if live m then 0 else 1)
  | OBSOLETE_BLOB_FILE_SIZE => Some (fun m => if live m then 0 else file_size_ m)
  | _ => None
  end.

Definition stats_ok (st : TitanStats) (b : BlobStorage) : Prop :=
  forall t g v, tracked t = Some g -> cf_counter st (cf_id_ b) t = Some v ->
    v = u64 (sum_files g (files_ b)).

(** The part of a file that the structures of the storage depend on. *)
Definition same_file (m m' : BlobFileMeta) : Prop :=
  file_number_ m' = file_number_ m /\ file_size_ m' = file_size_ m /\
  file_level_ m' = file_level_ m /\ smallest_key_ m' = smallest_key_ m /\
  is_obsolete m' = is_obsolete m.

Lemma u64_add_u64 a b : u64 (u64 a + b) = u64 (a + b).
Proof. unfold u64. by rewrite Zplus_mod_idemp_l. Qed.

Lemma u64_sub_u64 a b : u64 (u64 a - b) = u64 (a - b).
Proof. unfold u64. by rewrite Zminus_mod_idemp_l. Qed.

Lemma tracked_ratio m : tracked (GetDiscardableRatioLevel m) = None.
Proof. unfold GetDiscardableRatioLevel. by repeat case_match. Qed.

(** Follow the counters through a sequence of updates. *)
Ltac counters H :=
  repeat (rewrite AddStats_counter in H || rewrite SubStats_counter in H);
  repeat match type of H with
    | context [decide (?P /\ ?t = ?u)] => first
        [ rewrite (decide_True (P := P /\ t = u)) in H by (split; reflexivity)
        | rewrite (decide_False (P := P /\ t = u)) in H by
            (let E := fresh in intros [_ E]; first [discriminate E |
               apply (f_equal tracked) in E; rewrite tracked_ratio in E; discriminate E]) ]
    end.

Lemma stats_ok_counter st b t g v :
  stats_ok st b -> tracked t = Some g -> cf_counter st (cf_id_ b) t = Some v ->
  v = u64 (sum_files g (files_ b)).
Proof. intros H. apply H. Qed.

Lemma ranges_insert files n m :
  files !! n = None ->
  range_of <$> map_to_list (<[n := m]> files) ≡ₚ (smallest_key_ m, n) :: (range_of <$> map_to_list files).
Proof. intros H. by rewrite map_to_list_insert. Qed.

Lemma ranges_delete files n m :
  files !! n = Some m ->
  range_of <$> map_to_list files ≡ₚ (smallest_key_ m, n) :: (range_of <$> map_to_list (delete n files)).
Proof. intros H. by rewrite <- (map_to_list_delete files n m H). Qed.

Lemma ranges_update files n m m' :
  files !! n = Some m -> smallest_key_ m' = smallest_key_ m ->
  range_of <$> map_to_list (<[n := m']> files) ≡ₚ range_of <$> map_to_list files.
Proof.
  intros H Hk. rewrite (ranges_delete files n m H), <- insert_delete_eq.
  rewrite ranges_insert by apply lookup_delete_eq. by rewrite Hk.
Qed.

Lemma ranges_numbers files : (range_of <$> map_to_list files).*2 = (map_to_list files).*1.
Proof. rewrite <- list_fmap_compose. done. Qed.

(** *** Counts per level *)

Lemma vector_at_nat {A} (l : list A) i : vector_at l (Z.of_nat i) = l !! i.
Proof. unfold vector_at. rewrite (proj2 (Z.leb_le _ _)) by lia. by rewrite Nat2Z.id. Qed.

Lemma count_add_ok l level d :
  0 <= level < zlen l ->
  exists l', count_add l level d = Some l' /\ length l' = length l /\
    forall i c', l' !! i = Some c' -> exists c, l !! i = Some c /\
      c' = if level =? Z.of_nat i then c + d else c.
Proof.
  intros Hl. unfold count_add, vector_at, zlen in *. rewrite (proj2 (Z.leb_le _ _)) by lia.
  destruct (lookup_lt_is_Some_2 l (Z.to_nat level)) as [x Hx]; [lia|]. rewrite Hx. cbn.
  eexists. split; [done|]. split; [by rewrite length_insert|]. intros i c' Hi.
  destruct (Z.eqb_spec level (Z.of_nat i)) as [->|Hne].
  - rewrite Nat2Z.id in Hi, Hx. rewrite list_lookup_insert_eq in Hi by lia. exists x. by simplify_eq.
  - rewrite list_lookup_insert_ne in Hi by lia. by exists c'.
Qed.

(** *** Preservation *)

(** The old value of the one counter that [Hv] depends on comes from [Hst]. *)
Ltac follow_counter Hst Hv :=
  repeat rewrite <- option_fmap_compose in Hv;
  first [apply fmap_Some in Hv as (? & Hv & ->) | idtac];
  eapply Hst in Hv; [|reflexivity]; subst; unfold compose; cbv beta;
  rewrite ?u64_add_u64, ?u64_sub_u64, ?u64_add_u64; f_equal; lia.

Section Preservation.
Context `{C : Comparator} `{L : !ComparatorLaws C}.

Lemma AddBlobFile_wf b st m :
  storage_wf b -> stats_ok st b ->
  files_ b !! file_number_ m = None -> is_obsolete m = false ->
  0 <= file_level_ m < zlen (levels_file_count_ b) ->
  exists b' st', AddBlobFile b st m = Some (b', st') /\
    storage_wf b' /\ stats_ok st' b' /\
    files_ b' = <[file_number_ m := m]> (files_ b) /\ cf_id_ b' = cf_id_ b /\
    length (levels_file_count_ b') = length (levels_file_count_ b) /\
    obsolete_files_ b' = obsolete_files_ b /\ destroyed_ b' = destroyed_ b /\
    cf_options_ b' = cf_options_ b.
Proof.
  intros Hb Hst Hnew Hlive Hlev. unfold AddBlobFile.
  destruct (count_add_ok _ _ 1 Hlev) as (cs & -> & Hlen & Hcs). cbn. rewrite Hnew.
  eexists _, _. split; [done|]. split; [|split; [|done]]; [split; cbn|].
  - intros n m' [[<- <-]|[_ H]]%lookup_insert_Some; [done|by apply (wf_number _ Hb)].
  - unfold zlen in *. rewrite Hlen.
    intros n m' [[<- <-]|[_ H]]%lookup_insert_Some; [done|by apply (wf_level _ Hb) in H].
  - intros l c' Hl. destruct (Hcs _ _ Hl) as (c & Hc & ->).
    rewrite sum_files_insert by done. rewrite (wf_count _ Hb _ _ Hc).
    rewrite at_level_live by (unfold live; by rewrite Hlive). case_match; lia.
  - apply (wf_obsolete_nodup _ Hb).
  - intros n. rewrite (wf_obsolete _ Hb). split; intros (m' & H & Ho).
    + exists m'. rewrite lookup_insert_ne; [done|]. intros <-. congruence.
    + exists m'. apply lookup_insert_Some in H as [[<- <-]|[_ H]]; [congruence|done].
  - rewrite ranges_emplace_perm, ranges_insert by done. f_equiv. apply (wf_ranges _ Hb).
  - apply ranges_emplace_sorted, (wf_sorted _ Hb).
  - intros t g v Ht Hv. cbn [files_ cf_id_] in *. rewrite sum_files_insert by done.
    assert (live m = true) as Hlm by (unfold live; by rewrite Hlive).
    destruct t; try done; apply Some_inj in Ht; subst g; cbv beta; rewrite Hlm;
      destruct (live_data_size_ m =? 0); cbn [negb] in Hv; counters Hv; by follow_counter Hst Hv.
Qed.

(** Deleting is possible in every state but the obsolete one. *)
Lemma transit_delete m :
  is_obsolete m = false -> transit m kDelete = Some (set_state m kObsolete).
Proof. unfold is_obsolete, transit. intros H. by destruct (state_ m). Qed.

Lemma MarkFileObsolete_wf b st n m seq :
  storage_wf b -> stats_ok st b -> files_ b !! n = Some m -> is_obsolete m = false ->
  exists b' st', MarkFileObsolete b st n seq = Some (true, b', st') /\
    storage_wf b' /\ stats_ok st' b' /\
    files_ b' = <[n := set_state m kObsolete]> (files_ b) /\ cf_id_ b' = cf_id_ b /\
    length (levels_file_count_ b') = length (levels_file_count_ b) /\
    obsolete_files_ b' = obsolete_files_ b ++ [(n, seq)] /\ destroyed_ b' = destroyed_ b /\
    cf_options_ b' = cf_options_ b.
Proof.
  intros Hb Hst Hm Hlive. unfold MarkFileObsolete, MarkFileObsoleteLocked. rewrite Hm.
  rewrite transit_delete by done. cbn.
  pose proof (wf_number _ Hb _ _ Hm) as Hn. rewrite Hn.
  destruct (count_add_ok _ _ (-1) (wf_level _ Hb _ _ Hm)) as (cs & -> & Hlen & Hcs). cbn.
  assert (live m = true) as Hlm by (unfold live; by rewrite Hlive).
  eexists _, _. split; [done|]. split; [|split; [|done]]; [split; cbn|].
  - intros n' m' [[<- <-]|[_ H]]%lookup_insert_Some; [done|by apply (wf_number _ Hb)].
  - unfold zlen. rewrite Hlen. fold (zlen (levels_file_count_ b)).
    intros n' m' [[<- <-]|[_ H]]%lookup_insert_Some; [apply (wf_level _ Hb _ _ Hm)|by eapply (wf_level _ Hb)].
  - intros l c' Hl. destruct (Hcs _ _ Hl) as (c & Hc & ->).
    rewrite (sum_files_update _ _ _ m) by done. rewrite (wf_count _ Hb _ _ Hc).
    rewrite at_level_live by done. rewrite at_level_obsolete by done. case_match; lia.
  - rewrite fmap_app. apply NoDup_app. split; [apply (wf_obsolete_nodup _ Hb)|].
    split; [|apply NoDup_singleton]. cbn. intros x Hx Hx'%list_elem_of_singleton. subst x.
    apply (wf_obsolete _ Hb) in Hx as (m' & ? & ?). congruence.
  - intros n'. rewrite fmap_app, elem_of_app, (wf_obsolete _ Hb). cbn.
    rewrite list_elem_of_singleton. split.
    + intros [(m' & H & Ho)| ->].
      * exists m'. rewrite lookup_insert_ne; [done|]. intros <-. congruence.
      * exists (set_state m kObsolete). by rewrite lookup_insert_eq.
    + intros (m' & [[<- <-]|[_ H]]%lookup_insert_Some & Ho); [by right|left; by exists m'].
  - rewrite (ranges_update _ _ m) by done. apply (wf_ranges _ Hb).
  - apply (wf_sorted _ Hb).
  - intros t g v Ht Hv. cbn [files_ cf_id_] in *. rewrite (sum_files_update _ _ _ m) by done.
    destruct t; try done; apply Some_inj in Ht; subst g; cbv beta; rewrite Hlm;
      change (live (set_state m kObsolete)) with false;
      change (file_size_ (set_state m kObsolete)) with (file_size_ m);
      counters Hv; by follow_counter Hst Hv.
Qed.

(** Removing the file of an entry of the obsolete list, in the middle of the
    walk over that list. *)
Lemma RemoveFile_wf b st n seq kept todo :
  storage_wf (set_obsolete_files b (kept ++ (n, seq) :: todo)) -> stats_ok st b ->
  exists b' st', RemoveFile b st n = (true, b', st') /\
    storage_wf (set_obsolete_files b' (kept ++ todo)) /\ stats_ok st' b' /\
    files_ b' = delete n (files_ b) /\ cf_id_ b' = cf_id_ b /\
    levels_file_count_ b' = levels_file_count_ b /\ destroyed_ b' = destroyed_ b /\
    cf_options_ b' = cf_options_ b.
Proof.
  intros Hb Hst. unfold RemoveFile.
  assert (n ∈ (obsolete_files_ (set_obsolete_files b (kept ++ (n, seq) :: todo))).*1) as Hin.
  { cbn. rewrite fmap_app, elem_of_app, fmap_cons. right. apply list_elem_of_here. }
  apply (wf_obsolete _ Hb) in Hin as (m & Hm & Ho). cbn in Hm. rewrite Hm.
  pose proof (wf_number _ Hb _ _ Hm) as Hn.
  pose proof (wf_obsolete_nodup _ Hb) as Hnd. cbn in Hnd. rewrite fmap_app, fmap_cons in Hnd. cbn in Hnd.
  rewrite <- Permutation_middle, NoDup_cons in Hnd.
  assert ((smallest_key_ m, n) ∈ blob_ranges_ b) as Hrange.
  { rewrite (wf_ranges _ Hb). apply (list_elem_of_fmap_2' range_of _ (n, m)); [|done].
    by apply elem_of_map_to_list. }
  assert (NoDup (blob_ranges_ b).*2) as Hrd.
  { eapply NoDup_Permutation_proper.
    - rewrite (fmap_Permutation snd _ _ (wf_ranges _ Hb)), ranges_numbers. reflexivity.
    - apply NoDup_fst_map_to_list. }
  assert (live m = false) as Hlm by (unfold live; by rewrite Ho).
  eexists _, _. split; [done|]. split; [|split; [|done]]; [split; cbn|].
  - intros n' m' [_ H]%lookup_delete_Some. by apply (wf_number _ Hb).
  - intros n' m' [_ H]%lookup_delete_Some. by apply (wf_level _ Hb) in H.
  - intros l c Hl. rewrite (sum_files_delete _ _ _ m) by done.
    rewrite at_level_obsolete by done. rewrite (wf_count _ Hb _ _ Hl). cbn. lia.
  - rewrite fmap_app. apply Hnd.
  - intros n'. pose proof (wf_obsolete _ Hb n') as Hiff. cbn in Hiff.
    rewrite fmap_app, elem_of_app, fmap_cons, elem_of_cons in Hiff. cbn in Hiff.
    rewrite fmap_app, elem_of_app. destruct Hnd as [Hnn _]. rewrite elem_of_app in Hnn. split.
    + intros H. assert (n' <> n) by (intros ->; tauto).
      rewrite lookup_delete_ne by done. apply Hiff. tauto.
    + intros (m' & [Hne H]%lookup_delete_Some & Ho').
      destruct (proj2 Hiff (ex_intro _ m' (conj H Ho'))) as [|[->|]]; [by left|done|by right].
  - rewrite Hn. apply (Permutation_cons_inv (a := (smallest_key_ m, n))).
    rewrite <- ranges_erase_perm, <- ranges_delete by (done || apply (wf_sorted _ Hb)).
    apply (wf_ranges _ Hb).
  - by apply ranges_erase_sorted, (wf_sorted _ Hb).
  - intros t g v Ht Hv. cbn [files_ cf_id_] in *. rewrite (sum_files_delete _ _ _ m) by done.
    destruct t; try done; apply Some_inj in Ht; subst g; cbv beta; rewrite Hlm;
      counters Hv; by follow_counter Hst Hv.
Qed.

(** The entries of the obsolete list that a sequence number makes visible to
    no snapshot. *)
Definition expired (oldest : Z) (l : list (Z * Z)) : list (Z * Z) :=
  filter (fun e : Z * Z => e.2 < oldest) l.

Definition unexpired (oldest : Z) (l : list (Z * Z)) : list (Z * Z) :=
  filter (fun e : Z * Z => ~ e.2 < oldest) l.

Lemma obsolete_loop_spec todo : forall b st kept oldest names,
  storage_wf (set_obsolete_files b (kept ++ todo)) -> stats_ok st b ->
  exists b' st', obsolete_loop b st kept todo oldest names
      = Some (names ++ (expired oldest todo).*1, b', st') /\
    storage_wf b' /\ stats_ok st' b' /\
    obsolete_files_ b' = kept ++ unexpired oldest todo /\
    (forall n, files_ b' !! n =
      if decide (n ∈ (expired oldest todo).*1) then None else files_ b !! n) /\
    cf_id_ b' = cf_id_ b /\ levels_file_count_ b' = levels_file_count_ b /\
    destroyed_ b' = destroyed_ b /\ cf_options_ b' = cf_options_ b.
Proof.
  induction todo as [|[n seq] todo IH]; intros b st kept oldest names Hb Hst.
  { cbn. rewrite !app_nil_r in *. eexists _, _. split; [done|]. by split_and!. }
  cbn [obsolete_loop]. unfold expired, unexpired. rewrite !filter_cons. cbn [snd].
  rewrite Z.gtb_ltb. destruct (Z.ltb_spec seq oldest) as [Hlt|Hge].
  - destruct (RemoveFile_wf _ _ _ _ _ _ Hb Hst) as (b1 & st1 & -> & Hb1 & Hst1 & Hf & Hc & Hl & Hd & Ho).
    cbn [assert mbind option_bind].
    destruct (IH b1 st1 kept oldest (names ++ [n]) Hb1 Hst1)
      as (b' & st' & -> & Hb' & Hst' & Hob & Hf' & Hc' & Hl' & Hd' & Ho').
    rewrite (decide_True (P := seq < oldest)), (decide_False (P := ~ seq < oldest)) by lia.
    eexists _, _. rewrite <- app_assoc. split; [done|]. split_and!; try done; try congruence.
    intros n'. rewrite Hf', Hf. cbn [fmap list_fmap fst].
    rewrite (decide_ext _ (n' = n \/ n' ∈ (expired oldest todo).*1) _ _ (elem_of_cons _ _ _)).
    destruct (decide (n' = n)) as [->|Hne].
    + rewrite lookup_delete_eq. rewrite (decide_True (P := n = n \/ _)) by tauto. by case_decide.
    + rewrite lookup_delete_ne by done. repeat case_decide; tauto.
  - rewrite (decide_False (P := seq < oldest)), (decide_True (P := ~ seq < oldest)) by lia.
    destruct (IH b st (kept ++ [(n, seq)]) oldest names) as (b' & st' & -> & H); [|done|].
    { by rewrite <- app_assoc. }
    eexists _, _. split; [done|]. rewrite <- app_assoc in H. exact H.
Qed.

Lemma GetObsoleteFiles_wf b st oldest names :
  storage_wf b -> stats_ok st b ->
  exists b' st', GetObsoleteFiles b st names oldest
      = Some (names ++ (expired oldest (obsolete_files_ b)).*1, b', st') /\
    storage_wf b' /\ stats_ok st' b' /\
    obsolete_files_ b' = unexpired oldest (obsolete_files_ b) /\
    (forall n, files_ b' !! n =
      if decide (n ∈ (expired oldest (obsolete_files_ b)).*1) then None else files_ b !! n) /\
    cf_id_ b' = cf_id_ b /\ levels_file_count_ b' = levels_file_count_ b /\
    destroyed_ b' = destroyed_ b /\ cf_options_ b' = cf_options_ b.
Proof.
  intros Hb Hst. apply (obsolete_loop_spec (obsolete_files_ b) b st [] oldest names); [|done].
  cbn [app]. by destruct b, Hb; split.
Qed.

(** A change of a file that none of the structures depend on. *)
Lemma update_file_wf b st n m m' :
  storage_wf b -> stats_ok st b -> files_ b !! n = Some m -> same_file m m' ->
  storage_wf (update_file b n m') /\ stats_ok st (update_file b n m').
Proof.
  intros Hb Hst Hm (Hn & Hs & Hlv & Hk & Ho).
  assert (live m' = live m) as Hlm by (unfold live; by rewrite Ho).
  split; [split; cbn|].
  - intros n' x [[<- <-]|[_ H]]%lookup_insert_Some; [|by apply (wf_number _ Hb)].
    rewrite Hn. by apply (wf_number _ Hb).
  - intros n' x [[<- <-]|[_ H]]%lookup_insert_Some; [|by eapply (wf_level _ Hb)].
    rewrite Hlv. by apply (wf_level _ Hb _ _ Hm).
  - intros l c Hl. rewrite (sum_files_update _ _ _ m) by done. rewrite (wf_count _ Hb _ _ Hl).
    assert (at_level l m' = at_level l m) as ->; [|lia]. unfold at_level. by rewrite Hlm, Hlv.
  - apply (wf_obsolete_nodup _ Hb).
  - intros n'. rewrite (wf_obsolete _ Hb). destruct (decide (n = n')) as [<-|Hne].
    + rewrite lookup_insert_eq. split; intros (x & Hx & Hox).
      * exists m'. rewrite Ho. split; congruence.
      * exists m. split; congruence.
    + by rewrite lookup_insert_ne.
  - rewrite (ranges_update _ _ m) by done. apply (wf_ranges _ Hb).
  - apply (wf_sorted _ Hb).
  - intros t g v Ht Hv. cbn [files_ cf_id_ update_file set_files] in *.
    rewrite (sum_files_update _ _ _ m) by done. rewrite (Hst _ _ _ Ht Hv). f_equal.
    assert (g m' = g m) as ->; [|lia].
    destruct t; try done; apply Some_inj in Ht; subst g; cbv beta; by rewrite ?Hlm, ?Hs.
Qed.

(** An event other than a deletion or the tests' reset leaves an obsolete file
    obsolete and makes no file obsolete. *)
Lemma transit_same m e m' :
  transit m e = Some m' -> e <> kDelete -> e <> kReset -> same_file m m'.
Proof.
  unfold transit. destruct (FileStateTransit (state_ m) e) as [s|] eqn:E; [|done].
  intros [= <-] Hd Hr. split_and!; try done. unfold is_obsolete. cbn.
  destruct e; try done; unfold FileStateTransit in E; destruct (state_ m); vm_compute in E;
    first [discriminate E | injection E as <-; reflexivity].
Qed.

Lemma BlobStorage_new_wf cf id : storage_wf (BlobStorage_new cf id).
Proof.
  split; cbn; try done.
  - intros l c Hl. apply lookup_replicate in Hl as [-> _]. by rewrite sum_files_empty.
  - constructor.
  - intros n. split; [by intros ?%elem_of_nil|by intros (? & ? & ?)].
  - constructor.
Qed.

Lemma ComputeGCScore_wf b : storage_wf b -> storage_wf (ComputeGCScore b).
Proof. intros []. by split. Qed.

(** *** Reachable states

    Every way in which the program changes a storage: the operations of the
    class, and the changes it makes to a metadata object through the pointers
    it got from [FindFile]. *)
Inductive storage_step : BlobStorage * TitanStats -> BlobStorage * TitanStats -> Prop :=
  | step_add b st m b' st' :
      files_ b !! file_number_ m = None -> is_obsolete m = false ->
      AddBlobFile b st m = Some (b', st') -> storage_step (b, st) (b', st')
  | step_delete b st n seq found b' st' :
      MarkFileObsolete b st n seq = Some (found, b', st') -> storage_step (b, st) (b', st')
  | step_purge b st names oldest names' b' st' :
      GetObsoleteFiles b st names oldest = Some (names', b', st') -> storage_step (b, st) (b', st')
  | step_event b st n m e m' :
      files_ b !! n = Some m -> transit m e = Some m' -> e <> kDelete -> e <> kReset ->
      storage_step (b, st) (update_file b n m', st)
  | step_live_data b st n m delta r m' :
      files_ b !! n = Some m -> UpdateLiveDataSize m delta = Some (r, m') ->
      storage_step (b, st) (update_file b n m', st)
  | step_invalid_entries b st n m bits s m' :
      files_ b !! n = Some m -> UpdateInvalidEntryIndexes m bits = Some (s, m') ->
      storage_step (b, st) (update_file b n m', st)
  | step_score b st : storage_step (b, st) (ComputeGCScore b, st)
  | step_destroy b st : storage_step (b, st) (MarkDestroyed b, st)
  | step_mode b st mode : storage_step (b, st) (SetBlobRunMode b mode, st).

Lemma storage_step_wf x y :
  storage_step x y -> storage_wf x.1 /\ stats_ok x.2 x.1 -> storage_wf y.1 /\ stats_ok y.2 y.1.
Proof.
  intros Hstep [Hb Hst]. destruct Hstep as
    [b st m b' st' Hnew Hlive H|b st n seq found b' st' H|b st names oldest names' b' st' H
    |b st n m e m' Hm He Hd Hr|b st n m d r m' Hm H|b st n m bits s m' Hm H|b st|b st|b st mode];
    cbn [fst snd] in *.
  - assert (0 <= file_level_ m < zlen (levels_file_count_ b)) as Hlev.
    { unfold AddBlobFile, count_add, vector_at in H.
      destruct (Z.leb_spec 0 (file_level_ m)); [|discriminate H]. apply bind_Some in H as (? & (? & Hl & _)%bind_Some & _).
      apply lookup_lt_Some in Hl. unfold zlen. lia. }
    destruct (AddBlobFile_wf b st m) as (b1 & st1 & H1 & ? & ? & _); [done..|].
    rewrite H in H1. by injection H1 as <- <-.
  - destruct (files_ b !! n) as [m|] eqn:Hm.
    + destruct (is_obsolete m) eqn:Ho.
      * exfalso. unfold MarkFileObsolete in H. rewrite Hm in H.
        unfold MarkFileObsoleteLocked, transit in H. unfold is_obsolete in Ho.
        apply bool_decide_eq_true in Ho. by rewrite Ho in H.
      * destruct (MarkFileObsolete_wf b st n m seq) as (b1 & st1 & H1 & ? & ? & _); [done..|].
        rewrite H in H1. by injection H1 as -> <- <-.
    + unfold MarkFileObsolete in H. rewrite Hm in H. by injection H as _ <- <-.
  - destruct (GetObsoleteFiles_wf b st oldest names) as (b1 & st1 & H1 & ? & ? & _); [done..|].
    rewrite H in H1. by injection H1 as _ <- <-.
  - eapply update_file_wf; eauto using transit_same.
  - apply (update_file_wf _ _ _ m); [done..|]. unfold UpdateLiveDataSize in H.
    apply bind_Some in H as ([] & _ & H). case_match; by injection H as _ <-.
  - apply (update_file_wf _ _ _ m); [done..|]. unfold UpdateInvalidEntryIndexes in H.
    apply bind_Some in H as (x & _ & H). apply bind_Some in H as ([s' x'] & _ & H). by injection H as _ <-.
  - by split; [apply ComputeGCScore_wf|].
  - split; [by destruct Hb; split|done].
  - split; [by destruct Hb; split|done].
Qed.

Lemma reachable_wf cf id st0 b st :
  rtc storage_step (BlobStorage_new cf id, Some (InitializeCF st0 id)) (b, st) ->
  storage_wf b /\ stats_ok st b.
Proof.
  intros H. remember (BlobStorage_new cf id, Some (InitializeCF st0 id)) as x eqn:Hx.
  assert (storage_wf x.1 /\ stats_ok x.2 x.1) as Hinit.
  { subst x. split; [apply BlobStorage_new_wf|]. intros t g v Ht Hv.
    cbn [fst snd] in *. rewrite InitializeCF_counter, decide_True in Hv by done.
    apply Some_inj in Hv. subst v. unfold BlobStorage_new. cbn [files_].
    by rewrite sum_files_empty. }
  clear Hx. change b with ((b, st).1). change st with ((b, st).2) at 2.
  induction H as [x|x y z Hstep _ IH]; [done|]. eauto using storage_step_wf.
Qed.
End Preservation.

(** ** Files in key ranges *)

Section InRanges.
Context `{C : Comparator} `{L : !ComparatorLaws C}.

(** The file lies in the range, as far as its keys are known. *)
Definition selects (r : RangePtr) (include_end : bool) (m : BlobFileMeta) : Prop :=
  is_obsolete m = false /\
  match start r with Some s => 0 <= Compare (smallest_key_ m) s | None => True end /\
  match limit r with
  | Some e => Compare (smallest_key_ m) e <= 0 /\ largest_key_ m <> [] /\
      (Compare (largest_key_ m) e < 0 \/ include_end = true /\ Compare (largest_key_ m) e = 0)
  | None => True
  end.

Lemma in_range_iff r include_end m :
  is_obsolete m = false -> (largest_key_ m = [] -> limit r = None) ->
  in_range m (limit r) include_end = true <->
  match limit r with
  | Some e => Compare (largest_key_ m) e < 0 \/ include_end = true /\ Compare (largest_key_ m) e = 0
  | None => True
  end.
Proof.
  intros Ho Hl. unfold in_range. rewrite Ho. destruct (limit r) as [e|]; [|done].
  destruct (Z.eqb_spec (zlen (largest_key_ m)) 0) as [Hz|Hz].
  { destruct (largest_key_ m); [by specialize (Hl eq_refl)|]. unfold zlen in Hz. simpl in Hz. lia. }
  rewrite orb_true_iff, !andb_true_iff, negb_true_iff, Z.leb_le, Z.ltb_lt.
  destruct include_end; naive_solver lia.
Qed.

Lemma range_entry b k n :
  storage_wf b -> (k, n) ∈ blob_ranges_ b ->
  exists m, files_ b !! n = Some m /\ smallest_key_ m = k /\ file_number_ m = n.
Proof.
  intros Hb Hin. rewrite (wf_ranges _ Hb) in Hin.
  apply list_elem_of_fmap in Hin as ([n' m] & Heq & Hm). injection Heq as -> ->.
  apply elem_of_map_to_list in Hm. exists m. split; [done|]. split; [done|].
  by apply (wf_number _ Hb).
Qed.

(** Whether an entry of the ranges is selected. *)
Definition selected (b : BlobStorage) (r : RangePtr) (include_end : bool) (n : Z) : Prop :=
  exists m, files_ b !! n = Some m /\ selects r include_end m.

Lemma range_step_spec b r include_end files k n :
  storage_wf b -> (k, n) ∈ blob_ranges_ b ->
  match start r with Some s => 0 <= Compare k s | None => True end ->
  match limit r with Some x => Compare k x <= 0 | None => True end ->
  exists found, range_step b r include_end files (k, n) = Some (files ++ found) /\
    sublist found [n] /\ forall x, x ∈ found <-> x = n /\ selected b r include_end n.
Proof.
  intros Hb Hr Hs He. destruct (range_entry _ _ _ Hb Hr) as (m & Hm & <- & Hn).
  assert (forall (P : Prop), ~ P -> exists found, Some files = Some (files ++ found) /\
    sublist found [n] /\ forall x, x ∈ found <-> x = n /\ P) as Hnone.
  { intros P HP. exists []. rewrite app_nil_r. split; [done|]. split; [apply sublist_nil_l|].
    intros x. split; [by intros ?%elem_of_nil|tauto]. }
  unfold range_step. cbn [snd]. rewrite Hm. cbn [mbind option_bind].
  destruct (is_obsolete m) eqn:Ho.
  { apply Hnone. intros (m' & Hm' & Ho' & _). congruence. }
  destruct ((zlen (largest_key_ m) =? 0) && bool_decide (is_Some (limit r))) eqn:E.
  { apply Hnone. intros (m' & Hm' & _ & _ & Hlim). rewrite Hm in Hm'. injection Hm' as <-.
    apply andb_true_iff in E as [E1 [e E2]%bool_decide_eq_true]. rewrite E2 in Hlim.
    destruct Hlim as (_ & Hlim & _). apply Z.eqb_eq in E1.
    destruct (largest_key_ m); [done|]. unfold zlen in E1. simpl in E1. lia. }
  assert ((zlen (smallest_key_ m) =? 0) ||
    match start r with None => true | Some s => Compare (smallest_key_ m) s >=? 0 end = true) as ->.
  { destruct (start r); [|by rewrite orb_true_r]. apply orb_true_iff. right. rewrite Z.geb_leb.
    by apply Z.leb_le. }
  cbn [assert mbind option_bind]. rewrite Hn.
  assert (largest_key_ m = [] -> limit r = None) as Hlk.
  { intros H. rewrite H in E. cbn in E. apply bool_decide_eq_false in E.
    by apply eq_None_not_Some. }
  pose proof (in_range_iff r include_end m Ho Hlk) as Hiff.
  destruct (in_range m (limit r) include_end).
  - exists [n]. split; [done|]. split; [done|]. intros x. rewrite list_elem_of_singleton.
    split; [|tauto]. intros ->. split; [done|]. exists m. split; [done|]. unfold selects.
    split; [done|]. split; [done|]. destruct (limit r) as [e|]; [|done].
    split; [done|]. split; [|by apply Hiff]. intros H. by specialize (Hlk H).
  - apply Hnone. intros (m' & Hm' & _ & _ & Hlim). rewrite Hm in Hm'. injection Hm' as <-.
    destruct (limit r); [|by apply (proj2 Hiff) in Hlim].
    destruct Hlim as (_ & _ & H). by apply (proj2 Hiff) in H.
Qed.

Lemma range_loop_spec b r include_end entries : forall files,
  storage_wf b ->
  (forall e, e ∈ entries -> e ∈ blob_ranges_ b /\
     match start r with Some s => 0 <= Compare e.1 s | None => True end /\
     match limit r with Some x => Compare e.1 x <= 0 | None => True end) ->
  exists found, range_loop b r include_end files entries = Some (files ++ found) /\
    sublist found entries.*2 /\
    forall n, n ∈ found <-> n ∈ entries.*2 /\ selected b r include_end n.
Proof.
  induction entries as [|[k n] entries IH]; intros files Hb Hin.
  { exists []. rewrite app_nil_r. split; [done|]. split; [done|]. set_solver. }
  destruct (Hin (k, n) (list_elem_of_here _ _)) as (Hr & Hs & He).
  destruct (range_step_spec b r include_end files k n Hb Hr Hs He) as (found1 & Hstep & Hsub1 & Hf1).
  destruct (IH (files ++ found1) Hb) as (found2 & Hloop & Hsub2 & Hf2).
  { intros e Hin'. apply Hin. by apply list_elem_of_further. }
  exists (found1 ++ found2). cbn [range_loop]. rewrite Hstep. cbn [mbind option_bind].
  rewrite Hloop, app_assoc. split; [done|]. cbn [fmap list_fmap snd]. split.
  - change (n :: (snd <$> entries)) with ([n] ++ (snd <$> entries)). by apply sublist_app.
  - intros x. rewrite elem_of_app, elem_of_cons, Hf1, Hf2. naive_solver.
Qed.

(** A range whose bounds, when it has both, are in order. *)
Definition ordered (r : RangePtr) : Prop :=
  match start r, limit r with Some s, Some e => Compare s e <= 0 | _, _ => True end.

Lemma single_range_spec b r include_end files :
  storage_wf b -> ordered r ->
  exists entries found, range_entries b r = Some entries /\
    range_loop b r include_end files entries = Some (files ++ found) /\
    NoDup found /\ forall n, n ∈ found <-> selected b r include_end n.
Proof.
  intros Hb Hr. destruct (range_entries_elem b r (wf_sorted _ Hb) Hr) as (l & Hl & Hsub & Hin).
  destruct (range_loop_spec b r include_end l files Hb) as (found & Hloop & Hfs & Hf).
  { intros e He. by apply Hin. }
  exists l, found. split; [done|]. split; [done|]. split.
  - eapply sublist_NoDup; [|exact Hfs]. eapply sublist_NoDup; [|apply fmap_sublist, Hsub].
    rewrite (fmap_Permutation snd _ _ (wf_ranges _ Hb)), ranges_numbers.
    apply NoDup_fst_map_to_list.
  - intros n. rewrite Hf. split; [tauto|]. intros Hsel. split; [|done].
    destruct Hsel as (m & Hm & Ho & Hs & He).
    assert ((smallest_key_ m, n) ∈ l) as Hl'; [|by apply (list_elem_of_fmap_2 snd) in Hl'].
    apply Hin. cbn. split.
    + rewrite (wf_ranges _ Hb). apply (list_elem_of_fmap_2' range_of _ (n, m)); [|done].
      by apply elem_of_map_to_list.
    + split; [done|]. destruct (limit r); [apply He|done].
Qed.

Lemma GetBlobFilesInRanges_spec b include_end ranges : forall files,
  storage_wf b -> Forall ordered ranges ->
  exists found, GetBlobFilesInRanges b ranges include_end files = Some (files ++ found) /\
    (forall n, n ∈ found <-> exists r, r ∈ ranges /\ selected b r include_end n) /\
    ((length ranges <= 1)%nat -> NoDup found).
Proof.
  induction ranges as [|r ranges IH]; intros files Hb Ho.
  { exists []. rewrite app_nil_r. split; [done|]. split; [|constructor].
    intros n. split; [by intros ?%elem_of_nil|by intros (? & ?%elem_of_nil & _)]. }
  apply Forall_cons in Ho as [Hr Ho]. cbn [GetBlobFilesInRanges].
  destruct (single_range_spec b r include_end files Hb Hr) as (l & f1 & -> & Hl & Hnd & Hf1).
  cbn [mbind option_bind]. rewrite Hl. cbn [mbind option_bind].
  destruct (IH (files ++ f1) Hb Ho) as (f2 & -> & Hf2 & _).
  exists (f1 ++ f2). rewrite app_assoc. split; [done|]. split.
  - intros n. rewrite elem_of_app, Hf1, Hf2. setoid_rewrite elem_of_cons. naive_solver.
  - intros Hlen. destruct ranges; [|simpl in Hlen; lia].
    assert (f2 = []) as ->; [|by rewrite app_nil_r].
    destruct f2 as [|n f2]; [done|]. exfalso.
    destruct (proj1 (Hf2 n) (list_elem_of_here _ _)) as (? & ?%elem_of_nil & _). done.
Qed.
End InRanges.
