(* ===== verification/BlobStorageSpec.v ===== *)
(** * BlobStorageSpec: what a blob storage promises

    The properties of [BlobStorage]: the invariant of all its reachable states,
    and what each query gives in terms of the files alone. *)
From S2P Require Import Prelude BitMap BlobFileMeta TitanStats Options BlobStorage BlobStorageProofs.

Local Open Scope Z_scope.

(** ** An example *)

Definition example_file (n sz level live_size : Z) (smallest largest : bytes) (s : FileState) : BlobFileMeta :=
  set_live_data_size (set_state (BlobFileMeta_new n sz 8 level smallest largest) s) live_size.

Definition example_empty : BlobStorage * TitanStats :=
  (BlobStorage_new (TitanCFOptions_default 7) 0, Some (InitializeCF ∅ 0)).

Definition example_add (x : BlobStorage * TitanStats) (m : BlobFileMeta) : BlobStorage * TitanStats :=
  default x (AddBlobFile (C := BytewiseComparator) x.1 x.2 m).

(** Three files; the second one is obsolete since sequence number 50. *)
Definition example_storage : BlobStorage * TitanStats :=
  let x := example_add example_empty (example_file 7 10000000 6 4000000 [97] [99] kNormal) in
  let x := example_add x (example_file 8 20000000 5 1000000 [98] [102] kNormal) in
  let x := example_add x (example_file 9 9000000 6 0 [104] [] kNormal) in
  match MarkFileObsolete x.1 x.2 8 50 with Some (_, b, st) => (b, st) | None => x end.

Lemma example_reachable :
  rtc (storage_step (C := BytewiseComparator)) example_empty example_storage.
Proof.
  eapply rtc_l; [eapply step_add with (m := example_file 7 10000000 6 4000000 [97] [99] kNormal); vm_compute; reflexivity|].
  eapply rtc_l; [eapply step_add with (m := example_file 8 20000000 5 1000000 [98] [102] kNormal); vm_compute; reflexivity|].
  eapply rtc_l; [eapply step_add with (m := example_file 9 9000000 6 0 [104] [] kNormal); vm_compute; reflexivity|].
  eapply rtc_l; [eapply step_delete with (n := 8) (seq := 50); vm_compute; reflexivity|].
  match goal with |- rtc _ ?x ?y => replace x with y by (vm_compute; reflexivity) end. apply rtc_refl.
Qed.

Lemma example_wf :
  storage_wf (C := BytewiseComparator) example_storage.1 /\ stats_ok example_storage.2 example_storage.1.
Proof.
  pose proof example_reachable as H. unfold example_empty in H.
  destruct example_storage as [b st]. by apply reachable_wf in H.
Qed.

(** ** The invariant *)

(** C14: in every reachable state of a blob storage, the files are stored under
    their own numbers, the count of each level is the number of its files that
    are not obsolete, the obsolete list names each obsolete file once and no
    other file, the key ranges hold each file once in key order, and the live
    and obsolete file counters of the statistics are the sums over the files. *)
Theorem storage_invariant `{C : Comparator} `{L : !ComparatorLaws C} cf id st0 b st :
  rtc storage_step (BlobStorage_new cf id, Some (InitializeCF st0 id)) (b, st) ->
  storage_wf b /\ stats_ok st b.
Proof. apply reachable_wf. Qed.

Lemma storage_invariant_witness :
  storage_wf (C := BytewiseComparator) example_storage.1 /\ stats_ok example_storage.2 example_storage.1.
Proof.
  apply (storage_invariant (C := BytewiseComparator) (TitanCFOptions_default 7) 0 ∅
    example_storage.1 example_storage.2).
  rewrite <- surjective_pairing. exact example_reachable.
Defined.

(** Purging obsolete files hands out exactly the files that became obsolete
    before the oldest snapshot, forgets them, touches no file that is not
    obsolete, and hands out nothing when it is asked the same again. *)
Theorem GetObsoleteFiles_exact `{C : Comparator} `{L : !ComparatorLaws C} b st oldest :
  storage_wf b -> stats_ok st b ->
  exists names b' st', GetObsoleteFiles b st [] oldest = Some (names, b', st') /\
    (forall n, n ∈ names <-> exists seq, (n, seq) ∈ obsolete_files_ b /\ seq < oldest) /\
    (forall n, n ∈ names ->
       files_ b' !! n = None /\ exists m, files_ b !! n = Some m /\ state_ m = kObsolete) /\
    (forall n, n ∉ names -> files_ b' !! n = files_ b !! n) /\
    GetObsoleteFiles b' st' [] oldest = Some ([], b', st').
Proof.
  intros Hb Hst.
  destruct (GetObsoleteFiles_wf b st oldest [] Hb Hst) as (b' & st' & H1 & Hb' & Hst' & Ho & Hf & _).
  exists (expired oldest (obsolete_files_ b)).*1, b', st'. split; [exact H1|].
  assert (forall n, n ∈ (expired oldest (obsolete_files_ b)).*1 <->
    exists seq, (n, seq) ∈ obsolete_files_ b /\ seq < oldest) as Hin.
  { intros n. rewrite list_elem_of_fmap. unfold expired. setoid_rewrite list_elem_of_filter.
    split; [intros ([n' s] & -> & ? & ?); by exists s|intros (s & ? & ?); by exists (n, s)]. }
  split; [done|]. split; [|split].
  - intros n Hn. rewrite Hf, decide_True by done. split; [done|].
    apply Hin in Hn as (s & Hs & _). apply (list_elem_of_fmap_2 fst) in Hs.
    apply (wf_obsolete _ Hb) in Hs as (m & Hm & Hob). exists m. split; [done|].
    by apply bool_decide_eq_true in Hob.
  - intros n Hn. by rewrite Hf, decide_False.
  - destruct (GetObsoleteFiles_wf b' st' oldest [] Hb' Hst') as (_ & _ & _ & _).
    unfold GetObsoleteFiles. assert (forall l kept,
      Forall (fun e : Z * Z => ~ e.2 < oldest) l ->
      obsolete_loop b' st' kept l oldest [] = Some ([], set_obsolete_files b' (kept ++ l), st')) as Hloop.
    { induction l as [|[n s] l IH]; intros kept Hl; cbn; [by rewrite app_nil_r|].
      apply Forall_cons in Hl as [Hs Hl]. cbn in Hs. rewrite Z.gtb_ltb, (proj2 (Z.ltb_ge s oldest)) by lia.
      rewrite IH by done. by rewrite <- app_assoc. }
    rewrite Hloop; [cbn; by destruct b'|]. rewrite Ho.
    apply Forall_forall. intros e He. by apply list_elem_of_filter in He as [? _].
Qed.

Lemma GetObsoleteFiles_exact_witness :
  exists names b' st',
    GetObsoleteFiles (C := BytewiseComparator) example_storage.1 example_storage.2 [] 51 = Some (names, b', st') /\
    8 ∈ names.
Proof.
  destruct example_wf as [Hb Hst].
  destruct (GetObsoleteFiles_exact (C := BytewiseComparator) _ _ 51 Hb Hst) as (ns & b' & st' & H1 & H2 & _).
  exists ns, b', st'. split; [exact H1|]. apply H2. exists 50. split; [|lia].
  replace (obsolete_files_ example_storage.1) with [(8, 50)] by (vm_compute; reflexivity).
  apply list_elem_of_here.
Defined.

(** C30: the files found in a list of key ranges are exactly the files that are
    not obsolete and lie, with both ends, in one of the ranges: the walk from
    the lower to the upper bound neither misses nor invents a file, and it
    fails no assertion, when the bounds of each range are in order; a single
    range gives each file once. *)
Theorem GetBlobFilesInRanges_exact `{C : Comparator} `{L : !ComparatorLaws C} b include_end ranges :
  storage_wf b -> Forall ordered ranges ->
  exists found, GetBlobFilesInRanges b ranges include_end [] = Some found /\
    (forall n, n ∈ found <-> exists r m, r ∈ ranges /\ files_ b !! n = Some m /\ selects r include_end m) /\
    ((length ranges <= 1)%nat -> NoDup found).
Proof.
  intros Hb Ho. destruct (GetBlobFilesInRanges_spec b include_end ranges [] Hb Ho)
    as (found & H1 & H2 & H3).
  exists found. split; [done|]. split; [|done]. intros n. rewrite H2. unfold selected. naive_solver.
Qed.

Lemma GetBlobFilesInRanges_exact_witness :
  exists found, GetBlobFilesInRanges (C := BytewiseComparator) example_storage.1
      [mkRange (Some [96]) (Some [99])] true [] = Some found /\ NoDup found.
Proof.
  destruct (GetBlobFilesInRanges_exact (C := BytewiseComparator) example_storage.1 true
    [mkRange (Some [96]) (Some [99])]) as (found & H1 & _ & H3).
  - apply example_wf.
  - constructor; [|constructor]. vm_compute. discriminate.
  - exists found. split; [exact H1|]. apply H3. vm_compute. lia.
Defined.

(** After scoring, there is one score for each file that is not obsolete
    and none for others, a small file has the configured ratio as its score and
    any other its discardable ratio, and the scores are in descending order
    when none is a NaN. *)
Theorem ComputeGCScore_sorted b :
  Forall (fun x => score x <> SpecFloat.S754_nan) (gc_score_ (ComputeGCScore b)) ->
  StronglySorted (fun x y => d_lt (score x) (score y) = false) (gc_score_ (ComputeGCScore b)) /\
  NoDup (file_number <$> gc_score_ (ComputeGCScore b)) /\
  forall x, x ∈ gc_score_ (ComputeGCScore b) <->
    exists m, files_ b !! file_number x = Some m /\ is_obsolete m = false /\
      score x = if file_size_ m <? merge_small_file_threshold (cf_options_ b)
                then blob_file_discardable_ratio (cf_options_ b) else GetDiscardableRatio m.
Proof.
  unfold ComputeGCScore. cbn [gc_score_ set_gc_score]. fold (raw_scores b). intros Hn.
  rewrite score_sort_perm in Hn. split; [by apply score_sort_sorted|]. split.
  - rewrite (fmap_Permutation file_number _ _ (score_sort_perm _)), raw_scores_numbers.
    apply NoDup_fst_map_to_list.
  - intros x. rewrite score_sort_perm, raw_scores_elem. split.
    + intros (n & m & Hm & Ho & ->). by exists m.
    + intros (m & Hm & Ho & Hs). exists (file_number x), m. split; [done|]. split; [done|].
      unfold file_score. rewrite <- Hs. by destruct x.
Qed.

Lemma ComputeGCScore_sorted_witness :
  NoDup (file_number <$> gc_score_ (ComputeGCScore example_storage.1)).
Proof.
  apply (ComputeGCScore_sorted example_storage.1).
  vm_compute. repeat constructor; discriminate.
Defined.

(** ** The ratio counters drift *)

Lemma AddBlobFile_ratio `{C : Comparator} b st m b' st' t :
  AddBlobFile b st m = Some (b', st') -> tracked t = None ->
  cf_counter st' (cf_id_ b) t =
    if decide (live_data_size_ m <> 0 /\ GetDiscardableRatioLevel m = t)
    then (fun c => u64 (c + 1)) <$> cf_counter st (cf_id_ b) t else cf_counter st (cf_id_ b) t.
Proof.
  unfold AddBlobFile. intros (cs & _ & H)%bind_Some Ht. apply Some_inj, (f_equal snd) in H.
  cbn [snd cf_id_] in H. subst st'.
  rewrite !AddStats_counter, (decide_False (P := _ /\ NUM_LIVE_BLOB_FILE = t)) by (intros [_ <-]; done).
  rewrite (decide_False (P := _ /\ LIVE_BLOB_FILE_SIZE = t)) by (intros [_ <-]; done).
  destruct (Z.eqb_spec (live_data_size_ m) 0) as [Hz|Hz]; cbn [negb].
  - by rewrite decide_False by tauto.
  - rewrite AddStats_counter. repeat case_decide; tauto.
Qed.

Lemma MarkFileObsolete_ratio `{C : Comparator} b st n seq m b' st' t :
  files_ b !! n = Some m -> MarkFileObsolete b st n seq = Some (true, b', st') ->
  tracked t = None -> t <> LIVE_BLOB_SIZE ->
  cf_counter st' (cf_id_ b) t =
    if decide (GetDiscardableRatioLevel m = t)
    then (fun c => u64 (c - 1)) <$> cf_counter st (cf_id_ b) t else cf_counter st (cf_id_ b) t.
Proof.
  intros Hm H Ht Hl. unfold MarkFileObsolete, MarkFileObsoleteLocked in H. rewrite Hm in H.
  apply bind_Some in H as ([b1 st1] & (m' & _ & (cs & _ & H)%bind_Some)%bind_Some & H2).
  injection H2 as _ <-. apply Some_inj, (f_equal snd) in H. cbn [snd cf_id_] in H. subst st1.
  rewrite !AddStats_counter, !SubStats_counter.
  rewrite (decide_False (P := _ /\ NUM_OBSOLETE_BLOB_FILE = t)) by (intros [_ <-]; done).
  rewrite (decide_False (P := _ /\ OBSOLETE_BLOB_FILE_SIZE = t)) by (intros [_ <-]; done).
  rewrite (decide_False (P := _ /\ NUM_LIVE_BLOB_FILE = t)) by (intros [_ <-]; done).
  rewrite (decide_False (P := _ /\ LIVE_BLOB_FILE_SIZE = t)) by (intros [_ <-]; done).
  rewrite (decide_False (P := _ /\ LIVE_BLOB_SIZE = t)) by (intros [_ <-]; done).
  repeat case_decide; tauto.
Qed.

(** A file whose live size was never set is counted in no discardable-ratio
    class when it is added but is taken out of one when it becomes obsolete:
    the counter of the class ends one below where it began, and wraps around to
    the largest 64-bit number when it began at zero. *)
Theorem ratio_counter_drifts `{C : Comparator} b st m b1 st1 seq b2 st2 c :
  files_ b !! file_number_ m = None -> live_data_size_ m = 0 ->
  AddBlobFile b st m = Some (b1, st1) ->
  MarkFileObsolete b1 st1 (file_number_ m) seq = Some (true, b2, st2) ->
  cf_counter st (cf_id_ b) (GetDiscardableRatioLevel m) = Some c ->
  cf_counter st2 (cf_id_ b) (GetDiscardableRatioLevel m) = Some (u64 (c - 1)).
Proof.
  intros Hnew Hlive Hadd Hdel Hc.
  assert (cf_id_ b1 = cf_id_ b /\ files_ b1 !! file_number_ m = Some m) as [Hid Hm].
  { unfold AddBlobFile in Hadd. apply bind_Some in Hadd as (cs & _ & H). rewrite Hnew in H.
    injection H as <- _. split; [done|]. apply lookup_insert_eq. }
  pose proof (tracked_ratio m) as Ht.
  assert (GetDiscardableRatioLevel m <> LIVE_BLOB_SIZE) as Hne.
  { unfold GetDiscardableRatioLevel. by repeat case_match. }
  rewrite <- Hid, (MarkFileObsolete_ratio _ _ _ _ _ _ _ _ Hm Hdel Ht Hne), decide_True, Hid by done.
  rewrite (AddBlobFile_ratio _ _ _ _ _ _ Hadd Ht), decide_False by tauto. by rewrite Hc.
Qed.

Definition example_unknown : BlobFileMeta := example_file 9 9000000 6 0 [104] [105] kNormal.

Lemma ratio_counter_drifts_witness :
  exists b2 st2, MarkFileObsolete (example_add example_empty example_unknown).1
      (example_add example_empty example_unknown).2 9 0 = Some (true, b2, st2) /\
    cf_counter st2 0 NUM_DISCARDABLE_RATIO_LE100 = Some (2 ^ 64 - 1).
Proof.
  destruct (MarkFileObsolete (example_add example_empty example_unknown).1
    (example_add example_empty example_unknown).2 9 0) as [[[found b2] st2]|] eqn:E;
    [|vm_compute in E; discriminate E].
  assert (found = true) as -> by (apply (f_equal (option_map (fun x => x.1.1))) in E; vm_compute in E; by injection E).
  exists b2, st2. split; [reflexivity|].
  replace (2 ^ 64 - 1) with (u64 (0 - 1)) by (vm_compute; reflexivity).
  replace NUM_DISCARDABLE_RATIO_LE100 with (GetDiscardableRatioLevel example_unknown) by (vm_compute; reflexivity).
  refine (ratio_counter_drifts (C := BytewiseComparator) example_empty.1 example_empty.2 example_unknown
    (example_add example_empty example_unknown).1 (example_add example_empty example_unknown).2 0 b2 st2 0 _ _ _ E _);
    vm_compute; reflexivity.
Defined.
