(* ===== verification/EditCollector.v ===== *)
(** * EditCollector: edits applied in batch

    [edit_collector.h]: the edits of a batch are collected per column family,
    checked against the blob storages by [Seal], and applied by [Apply]. A
    [BlobFileSet] is its map of column families here; [None] is a failed
    assertion or an index out of range in a storage. The iteration order of the
    hash maps is the order of [map_to_list]. *)
From S2P Require Import Prelude BitMap BlobFileMeta TitanStats Options VersionEdit BlobStorage BlobStorageProofs.

Local Open Scope Z_scope.

(** ** One column family *)

Record CFEditCollector : Type := mkCF {
  cf_added_files_ : gmap Z BlobFileMeta;
  cf_deleted_files_ : gmap Z Z }.

Definition CFEditCollector_new : CFEditCollector := mkCF ∅ ∅.

Definition CF_AddFile (c : CFEditCollector) (file : BlobFileMeta) : Status * CFEditCollector :=
  match cf_added_files_ c !! file_number_ file with
  | Some _ => (Corruption, c)
  | None => (OK, mkCF (<[file_number_ file := file]> (cf_added_files_ c)) (cf_deleted_files_ c))
  end.

Definition CF_DeleteFile (c : CFEditCollector) (number obsolete_sequence : Z) : Status * CFEditCollector :=
  match cf_deleted_files_ c !! number with
  | Some _ => (Corruption, c)
  | None => (OK, mkCF (cf_added_files_ c) (<[number := obsolete_sequence]> (cf_deleted_files_ c)))
  end.

Section Collector.
Context `{C : Comparator}.

Fixpoint seal_added (b : BlobStorage) (l : list (Z * BlobFileMeta)) : option Status :=
  match l with
  | [] => Some OK
  | (number, _) :: l =>
      blob ← FindFile b number;
      match blob with Some _ => Some Corruption | None => seal_added b l end
  end.

Fixpoint seal_deleted (c : CFEditCollector) (b : BlobStorage) (l : list (Z * Z)) : option Status :=
  match l with
  | [] => Some OK
  | (number, _) :: l =>
      if bool_decide (is_Some (cf_added_files_ c !! number)) then seal_deleted c b l else
      blob ← FindFile b number;
      match blob with
      | None => Some Corruption
      | Some m => if is_obsolete m then Some Corruption else seal_deleted c b l
      end
  end.

Definition CF_Seal (c : CFEditCollector) (b : BlobStorage) : option Status :=
  s ← seal_added b (map_to_list (cf_added_files_ c));
  if negb (ok s) then Some s else seal_deleted c b (map_to_list (cf_deleted_files_ c)).

Fixpoint apply_added (c : CFEditCollector) (b : BlobStorage) (st : TitanStats)
    (l : list (Z * BlobFileMeta)) : option (BlobStorage * TitanStats) :=
  match l with
  | [] => Some (b, st)
  | (number, file) :: l =>
      if bool_decide (is_Some (cf_deleted_files_ c !! number)) then apply_added c b st l else
      '(b, st) ← BlobStorage.AddBlobFile b st file;
      apply_added c b st l
  end.

Fixpoint apply_deleted (c : CFEditCollector) (b : BlobStorage) (st : TitanStats)
    (l : list (Z * Z)) : option (Status * BlobStorage * TitanStats) :=
  match l with
  | [] => Some (OK, b, st)
  | (number, obsolete_sequence) :: l =>
      if bool_decide (is_Some (cf_added_files_ c !! number)) then apply_deleted c b st l else
      '(found, b, st) ← MarkFileObsolete b st number obsolete_sequence;
      if negb found then Some (NotFound, b, st) else apply_deleted c b st l
  end.

Definition CF_Apply (c : CFEditCollector) (b : BlobStorage) (st : TitanStats)
    : option (Status * BlobStorage * TitanStats) :=
  '(b, st) ← apply_added c b st (map_to_list (cf_added_files_ c));
  '(s, b, st) ← apply_deleted c b st (map_to_list (cf_deleted_files_ c));
  if negb (ok s) then Some (s, b, st) else Some (OK, ComputeGCScore b, st).

(** ** The batch *)

Record EditCollector : Type := mkCollector {
  status_ : Status;
  sealed_ : bool;
  ec_has_next_file_number_ : bool;
  ec_next_file_number_ : Z;
  ec_column_families_ : gmap Z CFEditCollector }.

Definition EditCollector_new : EditCollector := mkCollector OK false false 0 ∅.

Definition set_status (e : EditCollector) (s : Status) : EditCollector :=
  mkCollector s (sealed_ e) (ec_has_next_file_number_ e) (ec_next_file_number_ e) (ec_column_families_ e).

Definition set_collector (e : EditCollector) (s : Status) (cf : Z) (c : CFEditCollector) : EditCollector :=
  mkCollector s (sealed_ e) (ec_has_next_file_number_ e) (ec_next_file_number_ e)
    (<[cf := c]> (ec_column_families_ e)).

Fixpoint add_files (c : CFEditCollector) (l : list BlobFileMeta) : Status * CFEditCollector :=
  match l with
  | [] => (OK, c)
  | file :: l =>
      let '(s, c) := CF_AddFile c file in
      if negb (ok s) then (s, c) else add_files c l
  end.

Fixpoint delete_files (c : CFEditCollector) (l : list (Z * Z)) : Status * CFEditCollector :=
  match l with
  | [] => (OK, c)
  | (number, seq) :: l =>
      let '(s, c) := CF_DeleteFile c number seq in
      if negb (ok s) then (s, c) else delete_files c l
  end.

Definition AddEdit (e : EditCollector) (edit : VersionEdit) : Status * EditCollector :=
  if sealed_ e then (Incomplete, e) else
  let cf_id := column_family_id_ edit in
  let collector := default CFEditCollector_new (ec_column_families_ e !! cf_id) in
  let '(s, collector) := add_files collector (added_files_ edit) in
  if negb (ok s) then (s, set_collector e s cf_id collector) else
  let '(s, collector) := delete_files collector (deleted_files_ edit) in
  if negb (ok s) then (s, set_collector e s cf_id collector) else
  let changed := negb (bool_decide (added_files_ edit = [] /\ deleted_files_ edit = [])) in
  let e := set_collector e (if changed then s else status_ e) cf_id collector in
  if has_next_file_number_ edit then
    if next_file_number_ edit <? ec_next_file_number_ e then (Corruption, set_status e Corruption)
    else (OK, mkCollector (status_ e) (sealed_ e) true (next_file_number_ edit) (ec_column_families_ e))
  else (OK, e).

Fixpoint seal_cfs (cfs : gmap Z BlobStorage) (l : list (Z * CFEditCollector)) : option Status :=
  match l with
  | [] => Some OK
  | (cf_id, c) :: l =>
      match cfs !! cf_id with
      | None => seal_cfs cfs l
      | Some storage =>
          s ← CF_Seal c storage;
          if negb (ok s) then Some s else seal_cfs cfs l
      end
  end.

Definition Seal (e : EditCollector) (cfs : gmap Z BlobStorage) : option (Status * EditCollector) :=
  if negb (ok (status_ e)) then Some (status_ e, e) else
  s ← seal_cfs cfs (map_to_list (ec_column_families_ e));
  if negb (ok s) then Some (s, set_status e s)
  else Some (OK, mkCollector OK true (ec_has_next_file_number_ e) (ec_next_file_number_ e)
                   (ec_column_families_ e)).

Fixpoint apply_cfs (cfs : gmap Z BlobStorage) (st : TitanStats) (l : list (Z * CFEditCollector))
    : option (Status * gmap Z BlobStorage * TitanStats) :=
  match l with
  | [] => Some (OK, cfs, st)
  | (cf_id, c) :: l =>
      match cfs !! cf_id with
      | None => apply_cfs cfs st l
      | Some storage =>
          '(s, storage, st) ← CF_Apply c storage st;
          let cfs := <[cf_id := storage]> cfs in
          if negb (ok s) then Some (s, cfs, st) else apply_cfs cfs st l
      end
  end.

Definition Apply (e : EditCollector) (cfs : gmap Z BlobStorage) (st : TitanStats)
    : option (Status * gmap Z BlobStorage * TitanStats) :=
  if negb (ok (status_ e)) then Some (status_ e, cfs, st) else
  if negb (sealed_ e) then Some (Incomplete, cfs, st) else
  apply_cfs cfs st (map_to_list (ec_column_families_ e)).

Definition GetNextFileNumber (e : EditCollector) : res Z :=
  if negb (ok (status_ e)) then Fail (status_ e)
  else if ec_has_next_file_number_ e then Ret (ec_next_file_number_ e) else Fail Corruption.

End Collector.
