(* ===== verification/EditCollectorProofs.v ===== *)
(** * EditCollectorProofs: sealing and applying a batch of edits

    A batch that [Seal] accepts is applied by [Apply] in full; the effect on
    the files of a storage is a function of the collected maps. *)
From S2P Require Import Prelude BitMap BlobFileMeta TitanStats Options VersionEdit BlobStorage BlobStorageProofs EditCollector.

Local Open Scope Z_scope.

(** ** Frames: an operation touches the counters of its column family only *)

Definition other_counters (cf : Z) (st st' : TitanStats) : Prop :=
  forall cf' t, cf' <> cf -> cf_counter st' cf' t = cf_counter st cf' t.

Lemma other_counters_refl cf st : other_counters cf st st.
Proof. done. Qed.

Lemma other_counters_trans cf st1 st2 st3 :
  other_counters cf st1 st2 -> other_counters cf st2 st3 -> other_counters cf st1 st3.
Proof. intros H1 H2 cf' t Hne. by rewrite H2, H1. Qed.

Section Frames.
Context `{C : Comparator}.

Lemma AddBlobFile_other b st m b' st' :
  AddBlobFile b st m = Some (b', st') -> other_counters (cf_id_ b) st st'.
Proof.
  unfold AddBlobFile. intros (cs & _ & H)%bind_Some. apply Some_inj, (f_equal snd) in H.
  cbn in H. subst st'. intros cf' t Hne.
  destruct (live_data_size_ m =? 0); cbn [negb]; rewrite !AddStats_counter, !decide_False by (intros [? _]; congruence); done.
Qed.

Lemma MarkFileObsolete_other b st n seq r b' st' :
  MarkFileObsolete b st n seq = Some (r, b', st') -> other_counters (cf_id_ b) st st'.
Proof.
  unfold MarkFileObsolete, MarkFileObsoleteLocked.
  destruct (files_ b !! n) as [m|]; [|intros [= _ _ <-]; apply other_counters_refl].
  intros ([b1 st1] & (m' & _ & (cs & _ & H)%bind_Some)%bind_Some & H2)%bind_Some.
  injection H2 as _ _ ->. apply Some_inj, (f_equal snd) in H. cbn in H. subst st'. intros cf' t Hne.
  rewrite !AddStats_counter, !SubStats_counter, !decide_False by (intros [? _]; congruence). done.
Qed.
End Frames.

(** ** One column family *)

Section CF.
Context `{C : Comparator} `{L : !ComparatorLaws C}.

(** What [Seal] accepts. *)
Definition sealable (c : CFEditCollector) (b : BlobStorage) : Prop :=
  (forall n, is_Some (cf_added_files_ c !! n) -> files_ b !! n = None) /\
  (forall n, is_Some (cf_deleted_files_ c !! n) -> cf_added_files_ c !! n = None ->
     exists m, files_ b !! n = Some m /\ is_obsolete m = false).

Lemma FindFile_wf b n : storage_wf b -> FindFile b n = Some (files_ b !! n).
Proof.
  intros Hb. unfold FindFile. destruct (files_ b !! n) as [m|] eqn:Hm; [|done].
  by rewrite (wf_number _ Hb _ _ Hm), Z.eqb_refl.
Qed.

Lemma seal_added_spec b l :
  storage_wf b ->
  (seal_added b l = Some OK /\ forall e, e ∈ l -> files_ b !! e.1 = None) \/
  (seal_added b l = Some Corruption /\ exists e, e ∈ l /\ is_Some (files_ b !! e.1)).
Proof.
  intros Hb. induction l as [|[n f] l IH]; cbn.
  { left. split; [done|]. by intros e ?%elem_of_nil. }
  rewrite FindFile_wf by done. cbn. destruct (files_ b !! n) as [m|] eqn:Hm.
  - right. split; [done|]. exists (n, f). split; [apply list_elem_of_here|]. by exists m.
  - destruct IH as [[-> H]|[-> (e & He & H)]]; [left|right]; (split; [done|]).
    + intros e [->|He]%elem_of_cons; [done|by apply H].
    + exists e. split; [by apply list_elem_of_further|done].
Qed.

Lemma seal_deleted_spec c b l :
  storage_wf b ->
  (seal_deleted c b l = Some OK /\ forall e, e ∈ l -> cf_added_files_ c !! e.1 = None ->
     exists m, files_ b !! e.1 = Some m /\ is_obsolete m = false) \/
  (seal_deleted c b l = Some Corruption /\ exists e, e ∈ l /\ cf_added_files_ c !! e.1 = None /\
     forall m, files_ b !! e.1 = Some m -> is_obsolete m = true).
Proof.
  intros Hb. induction l as [|[n s] l IH]; cbn.
  { left. split; [done|]. by intros e ?%elem_of_nil. }
  assert (forall e, e ∈ l -> e ∈ (n, s) :: l) as Hfur by (intros; by apply list_elem_of_further).
  case_bool_decide as Ha.
  { destruct IH as [[-> H]|[-> (e & He & H)]]; [left|right]; (split; [done|]); [|by exists e; auto].
    intros e [->|He]%elem_of_cons Hn; [|by apply H]. cbn in Hn. rewrite Hn in Ha. by destruct Ha. }
  apply eq_None_not_Some in Ha. rewrite FindFile_wf by done. cbn.
  destruct (files_ b !! n) as [m|] eqn:Hm.
  - destruct (is_obsolete m) eqn:Ho.
    + right. split; [done|]. exists (n, s). split; [apply list_elem_of_here|].
      split; [done|]. cbn. intros m' H. congruence.
    + destruct IH as [[-> H]|[-> (e & He & H)]]; [left|right]; (split; [done|]); [|by exists e; auto].
      intros e [->|He]%elem_of_cons Hn; [|by apply H]. by exists m.
  - right. split; [done|]. exists (n, s). split; [apply list_elem_of_here|].
    split; [done|]. cbn. intros m' H. congruence.
Qed.

(** Sealing decides [sealable]. *)
Lemma CF_Seal_spec c b :
  storage_wf b ->
  (CF_Seal c b = Some OK /\ sealable c b) \/ (CF_Seal c b = Some Corruption /\ ~ sealable c b).
Proof.
  intros Hb. unfold CF_Seal, sealable.
  destruct (seal_added_spec b (map_to_list (cf_added_files_ c)) Hb) as [[-> H1]|[-> (e & He & H1)]]; cbn.
  - destruct (seal_deleted_spec c b (map_to_list (cf_deleted_files_ c)) Hb) as [[-> H2]|[-> (e & He & Ha & H2)]].
    + left. split; [done|]. split.
      * intros n [m Hm]. apply (H1 (n, m)). by apply elem_of_map_to_list.
      * intros n [s Hs]. apply (H2 (n, s)). by apply elem_of_map_to_list.
    + right. split; [done|]. intros [_ H]. destruct e as [n s]. apply elem_of_map_to_list in He.
      destruct (H n) as (m & Hm & Ho); [by exists s|done|]. cbn in H2. rewrite (H2 _ Hm) in Ho. done.
  - right. split; [done|]. intros [H _]. destruct e as [n f]. apply elem_of_map_to_list in He.
    cbn in H1. rewrite (H n) in H1 by (by exists f). by destruct H1.
Qed.

(** A file that can be added. *)
Definition addable (b : BlobStorage) (n : Z) (m : BlobFileMeta) : Prop :=
  file_number_ m = n /\ is_obsolete m = false /\ 0 <= file_level_ m < zlen (levels_file_count_ b).

Lemma apply_added_spec c l : forall b st,
  storage_wf b -> stats_ok st b -> NoDup l.*1 ->
  (forall n m, (n, m) ∈ l -> files_ b !! n = None /\ (cf_deleted_files_ c !! n = None -> addable b n m)) ->
  exists b' st', apply_added c b st l = Some (b', st') /\ storage_wf b' /\ stats_ok st' b' /\
    (forall n, files_ b' !! n =
       match (list_to_map l : gmap Z BlobFileMeta) !! n, cf_deleted_files_ c !! n with
       | Some m, None => Some m
       | _, _ => files_ b !! n
       end) /\
    cf_id_ b' = cf_id_ b /\ zlen (levels_file_count_ b') = zlen (levels_file_count_ b) /\
    obsolete_files_ b' = obsolete_files_ b /\ destroyed_ b' = destroyed_ b /\
    cf_options_ b' = cf_options_ b /\ other_counters (cf_id_ b) st st'.
Proof.
  induction l as [|[n m] l IH]; intros b st Hb Hst Hnd Hl.
  { exists b, st. by split_and!. }
  cbn in Hnd. apply NoDup_cons in Hnd as [Hn Hnd].
  assert (forall n' m', (n', m') ∈ l -> n' <> n) as Hdiff.
  { intros n' m' Hin ->. apply Hn. by apply (list_elem_of_fmap_2 fst) in Hin. }
  destruct (Hl n m (list_elem_of_here _ _)) as (Hnone & Hadd).
  cbn [apply_added list_to_map foldr]. case_bool_decide as Hd.
  - destruct (IH b st Hb Hst Hnd) as (b' & st' & -> & Hb' & Hst' & Hf & Hrest).
    { intros n' m' Hin. apply Hl. by apply list_elem_of_further. }
    eexists _, _. split; [done|]. split; [done|]. split; [done|]. split; [|done].
    intros n'. rewrite Hf. cbn. destruct (decide (n' = n)) as [->|Hne].
    + rewrite lookup_insert_eq. destruct Hd as [s ->]. by case_match.
    + by rewrite lookup_insert_ne.
  - apply eq_None_not_Some in Hd. destruct (Hadd Hd) as (Hnum & Hlive & Hlev).
    assert (files_ b !! file_number_ m = None) as Hnone' by (by rewrite Hnum).
    destruct (AddBlobFile_wf b st m Hb Hst Hnone' Hlive Hlev)
      as (b1 & st1 & HA & Hb1 & Hst1 & Hf1 & Hc1 & Hl1 & Ho1 & Hd1 & Hcf1).
    pose proof (AddBlobFile_other _ _ _ _ _ HA) as Hoth.
    rewrite HA. cbn [mbind option_bind].
    assert (zlen (levels_file_count_ b1) = zlen (levels_file_count_ b)) as Hz by (unfold zlen; by rewrite Hl1).
    destruct (IH b1 st1 Hb1 Hst1 Hnd) as (b' & st' & -> & Hb' & Hst' & Hf & Hc & Hz' & Ho & Hd' & Hcf & Hoth').
    { intros n' m' Hin. destruct (Hl n' m') as (? & ?); [by apply list_elem_of_further|].
      unfold addable. rewrite Hz. split; [|done]. rewrite Hf1, Hnum, lookup_insert_ne; [done|].
      intros ->. by apply Hdiff in Hin. }
    eexists _, _. split; [done|]. split_and!; try done; try congruence.
    + intros n'. rewrite Hf, Hf1, Hnum. cbn. destruct (decide (n' = n)) as [->|Hne].
      * rewrite !lookup_insert_eq, Hd. rewrite not_elem_of_list_to_map_1; [done|done].
      * by rewrite !lookup_insert_ne.
    + eapply other_counters_trans; [exact Hoth|]. by rewrite <- Hc1.
Qed.

Lemma apply_deleted_spec c l : forall b st,
  storage_wf b -> stats_ok st b -> NoDup l.*1 ->
  (forall n s, (n, s) ∈ l -> cf_added_files_ c !! n = None ->
     exists m, files_ b !! n = Some m /\ is_obsolete m = false) ->
  exists b' st', apply_deleted c b st l = Some (OK, b', st') /\ storage_wf b' /\ stats_ok st' b' /\
    (forall n, files_ b' !! n =
       match (list_to_map l : gmap Z Z) !! n, cf_added_files_ c !! n with
       | Some _, None => (fun m => set_state m kObsolete) <$> files_ b !! n
       | _, _ => files_ b !! n
       end) /\
    (forall n s, (n, s) ∈ obsolete_files_ b' <->
       (n, s) ∈ obsolete_files_ b \/ ((n, s) ∈ l /\ cf_added_files_ c !! n = None)) /\
    cf_id_ b' = cf_id_ b /\ zlen (levels_file_count_ b') = zlen (levels_file_count_ b) /\
    destroyed_ b' = destroyed_ b /\ cf_options_ b' = cf_options_ b /\ other_counters (cf_id_ b) st st'.
Proof.
  induction l as [|[n s] l IH]; intros b st Hb Hst Hnd Hl.
  { exists b, st. split_and!; try done. set_solver. }
  cbn in Hnd. apply NoDup_cons in Hnd as [Hn Hnd].
  assert (forall n' s', (n', s') ∈ l -> n' <> n) as Hdiff.
  { intros n' m' Hin ->. apply Hn. by apply (list_elem_of_fmap_2 fst) in Hin. }
  cbn [apply_deleted list_to_map foldr]. case_bool_decide as Ha.
  - destruct (IH b st Hb Hst Hnd) as (b' & st' & -> & Hb' & Hst' & Hf & Ho & Hrest).
    { intros n' s' Hin. apply Hl with s'. by apply list_elem_of_further. }
    eexists _, _. split; [done|]. split; [done|]. split; [done|]. split; [|split; [|done]].
    + intros n'. rewrite Hf. cbn. destruct (decide (n' = n)) as [->|Hne].
      * rewrite lookup_insert_eq. destruct Ha as [m ->]. by case_match.
      * by rewrite lookup_insert_ne.
    + intros n' s'. rewrite Ho, elem_of_cons. split; [tauto|].
      intros [?|[[[= -> ->]|?] ?]]; [by left| |by right]. by destruct Ha as [m ?]; congruence.
  - apply eq_None_not_Some in Ha.
    destruct (Hl n s (list_elem_of_here _ _) Ha) as (m & Hm & Hlive).
    destruct (MarkFileObsolete_wf b st n m s Hb Hst Hm Hlive)
      as (b1 & st1 & HA & Hb1 & Hst1 & Hf1 & Hc1 & Hl1 & Ho1 & Hd1 & Hcf1).
    pose proof (MarkFileObsolete_other _ _ _ _ _ _ _ HA) as Hoth.
    rewrite HA. cbn [mbind option_bind negb].
    assert (zlen (levels_file_count_ b1) = zlen (levels_file_count_ b)) as Hz by (unfold zlen; by rewrite Hl1).
    destruct (IH b1 st1 Hb1 Hst1 Hnd) as (b' & st' & -> & Hb' & Hst' & Hf & Ho & Hc & Hz' & Hd' & Hcf & Hoth').
    { intros n' s' Hin Ha'. rewrite Hf1, lookup_insert_ne by (symmetry; by eapply Hdiff).
      eapply Hl; [by apply list_elem_of_further|done]. }
    eexists _, _. split; [done|]. split_and!; try done; try congruence.
    + intros n'. rewrite Hf, Hf1. cbn. destruct (decide (n' = n)) as [->|Hne].
      * rewrite !lookup_insert_eq, Ha, Hm. by rewrite not_elem_of_list_to_map_1.
      * by rewrite !lookup_insert_ne.
    + intros n' s'. rewrite Ho, Ho1, elem_of_app, list_elem_of_singleton, elem_of_cons.
      split; [|naive_solver]. intros [[?|[= -> ->]]|[? ?]]; tauto.
    + eapply other_counters_trans; [exact Hoth|]. by rewrite <- Hc1.
Qed.

(** The files after an edit. *)
Definition edited (c : CFEditCollector) (files : gmap Z BlobFileMeta) (n : Z) : option BlobFileMeta :=
  match cf_added_files_ c !! n, cf_deleted_files_ c !! n with
  | Some m, None => Some m
  | None, Some _ => (fun m => set_state m kObsolete) <$> files !! n
  | _, _ => files !! n
  end.

Lemma CF_Apply_spec c b st :
  storage_wf b -> stats_ok st b -> sealable c b ->
  (forall n m, cf_added_files_ c !! n = Some m -> cf_deleted_files_ c !! n = None -> addable b n m) ->
  exists b' st', CF_Apply c b st = Some (OK, b', st') /\ storage_wf b' /\ stats_ok st' b' /\
    (forall n, files_ b' !! n = edited c (files_ b) n) /\
    (forall n s, (n, s) ∈ obsolete_files_ b' <->
       (n, s) ∈ obsolete_files_ b \/ (cf_deleted_files_ c !! n = Some s /\ cf_added_files_ c !! n = None)) /\
    cf_id_ b' = cf_id_ b /\ zlen (levels_file_count_ b') = zlen (levels_file_count_ b) /\
    destroyed_ b' = destroyed_ b /\ cf_options_ b' = cf_options_ b /\ other_counters (cf_id_ b) st st'.
Proof.
  intros Hb Hst [Ha Hd] Hadd. unfold CF_Apply.
  destruct (apply_added_spec c (map_to_list (cf_added_files_ c)) b st Hb Hst)
    as (b1 & st1 & -> & Hb1 & Hst1 & Hf1 & Hc1 & Hl1 & Ho1 & Hd1 & Hcf1 & Hoth1).
  { apply NoDup_fst_map_to_list. }
  { intros n m Hin%elem_of_map_to_list. split; [|by apply Hadd]. apply Ha. by exists m. }
  rewrite list_to_map_to_list in Hf1. cbn [mbind option_bind].
  destruct (apply_deleted_spec c (map_to_list (cf_deleted_files_ c)) b1 st1 Hb1 Hst1)
    as (b2 & st2 & -> & Hb2 & Hst2 & Hf2 & Ho2 & Hc2 & Hl2 & Hd2 & Hcf2 & Hoth2).
  { apply NoDup_fst_map_to_list. }
  { intros n s Hin%elem_of_map_to_list Hna. rewrite Hf1, Hna. apply Hd; [by exists s|done]. }
  rewrite list_to_map_to_list in Hf2. cbn [mbind option_bind ok negb].
  exists (ComputeGCScore b2), st2. split; [done|]. split; [by apply ComputeGCScore_wf|].
  cbn [ComputeGCScore set_gc_score files_ obsolete_files_ cf_id_ levels_file_count_ destroyed_ cf_options_].
  split_and!; try done; try congruence.
  - intros n. rewrite Hf2, Hf1. unfold edited.
    destruct (cf_added_files_ c !! n), (cf_deleted_files_ c !! n); done.
  - intros n s. by rewrite Ho2, Ho1, elem_of_map_to_list.
  - eapply other_counters_trans; [exact Hoth1|]. by rewrite <- Hc1.
Qed.
End CF.

(** ** The edits of a batch *)

Definition by_number (f : BlobFileMeta) : Z * BlobFileMeta := (file_number_ f, f).

(** An edit adds and deletes no file twice, also counting what the collector
    already holds. *)
Definition collectable (c : CFEditCollector) (e : VersionEdit) : Prop :=
  NoDup (file_number_ <$> added_files_ e) /\ NoDup (deleted_files_ e).*1 /\
  (forall f, f ∈ added_files_ e -> cf_added_files_ c !! file_number_ f = None) /\
  (forall d, d ∈ deleted_files_ e -> cf_deleted_files_ c !! d.1 = None).

(** The collector behind an edit. *)
Definition collect (c : CFEditCollector) (e : VersionEdit) : CFEditCollector :=
  mkCF (list_to_map (by_number <$> added_files_ e) ∪ cf_added_files_ c)
       (list_to_map (deleted_files_ e) ∪ cf_deleted_files_ c).

Lemma add_files_spec l : forall c,
  (NoDup (file_number_ <$> l) /\ (forall f, f ∈ l -> cf_added_files_ c !! file_number_ f = None) /\
   add_files c l = (OK, mkCF (list_to_map (by_number <$> l) ∪ cf_added_files_ c) (cf_deleted_files_ c))) \/
  (~ (NoDup (file_number_ <$> l) /\ (forall f, f ∈ l -> cf_added_files_ c !! file_number_ f = None)) /\
   (add_files c l).1 = Corruption).
Proof.
  induction l as [|f l IH]; intros c.
  { left. cbn. split; [constructor|]. split; [by intros f ?%elem_of_nil|].
    rewrite (left_id_L ∅ (∪)). by destruct c. }
  cbn [add_files fmap list_fmap]. unfold CF_AddFile.
  destruct (cf_added_files_ c !! file_number_ f) as [g|] eqn:Hf.
  { right. cbn. split; [|done]. intros [_ H]. rewrite (H f (list_elem_of_here _ _)) in Hf. done. }
  cbn [ok negb]. destruct (IH (mkCF (<[file_number_ f := f]> (cf_added_files_ c)) (cf_deleted_files_ c)))
    as [(Hnd & Hfr & ->)|(Hbad & Hs)].
  - left. assert (file_number_ f ∉ file_number_ <$> l) as Hnin.
    { intros (g & Hg & Hin)%list_elem_of_fmap. apply Hfr in Hin. cbn in Hin.
      rewrite <- Hg, lookup_insert_eq in Hin. done. }
    split; [by constructor|]. split.
    + intros g [->|Hg]%elem_of_cons; [done|]. specialize (Hfr _ Hg). cbn in Hfr.
      by apply lookup_insert_None in Hfr as [? _].
    + cbn. do 2 f_equal. rewrite <- insert_union_l, insert_union_r; [done|].
      apply not_elem_of_list_to_map_1. by rewrite <- list_fmap_compose.
  - right. split; [|done]. intros [Hnd Hfr]. apply NoDup_cons in Hnd as [Hnin Hnd]. apply Hbad.
    split; [done|]. intros g Hg. cbn. rewrite lookup_insert_ne.
    + apply Hfr. by apply list_elem_of_further.
    + intros Heq. apply Hnin. rewrite Heq. by apply list_elem_of_fmap_2.
Qed.

Lemma delete_files_spec l : forall c,
  (NoDup l.*1 /\ (forall d, d ∈ l -> cf_deleted_files_ c !! d.1 = None) /\
   delete_files c l = (OK, mkCF (cf_added_files_ c) (list_to_map l ∪ cf_deleted_files_ c))) \/
  (~ (NoDup l.*1 /\ (forall d, d ∈ l -> cf_deleted_files_ c !! d.1 = None)) /\
   (delete_files c l).1 = Corruption).
Proof.
  induction l as [|[n s] l IH]; intros c.
  { left. cbn. split; [constructor|]. split; [by intros f ?%elem_of_nil|].
    rewrite (left_id_L ∅ (∪)). by destruct c. }
  cbn [delete_files fmap list_fmap]. unfold CF_DeleteFile.
  destruct (cf_deleted_files_ c !! n) as [g|] eqn:Hf.
  { right. cbn. split; [|done]. intros [_ H].
    specialize (H (n, s) (list_elem_of_here _ _)). cbn in H. congruence. }
  cbn [ok negb]. destruct (IH (mkCF (cf_added_files_ c) (<[n := s]> (cf_deleted_files_ c))))
    as [(Hnd & Hfr & ->)|(Hbad & Hs)].
  - left. assert (n ∉ l.*1) as Hnin.
    { intros ([n' s'] & Hg & Hin)%list_elem_of_fmap. apply Hfr in Hin. cbn in Hin, Hg. subst n'.
      by rewrite lookup_insert_eq in Hin. }
    split; [by constructor|]. split.
    + intros g [->|Hg]%elem_of_cons; [done|]. specialize (Hfr _ Hg). cbn in Hfr.
      by apply lookup_insert_None in Hfr as [? _].
    + cbn. do 2 f_equal. rewrite <- insert_union_l, insert_union_r; [done|].
      by apply not_elem_of_list_to_map_1.
  - right. split; [|done]. intros [Hnd Hfr]. apply NoDup_cons in Hnd as [Hnin Hnd]. apply Hbad.
    split; [done|]. intros [n' s'] Hg. cbn. rewrite lookup_insert_ne.
    + apply (Hfr (n', s')). by apply list_elem_of_further.
    + intros ->. apply Hnin. by apply (list_elem_of_fmap_2 fst) in Hg.
Qed.

(** Adding an edit to a healthy collector. *)
Lemma AddEdit_spec ec e :
  status_ ec = OK -> sealed_ ec = false ->
  (has_next_file_number_ e = true -> ec_next_file_number_ ec <= next_file_number_ e) ->
  let cf := column_family_id_ e in
  let c := default CFEditCollector_new (ec_column_families_ ec !! cf) in
  (collectable c e /\
   AddEdit ec e = (OK, mkCollector OK false (has_next_file_number_ e || ec_has_next_file_number_ ec)
     (if has_next_file_number_ e then next_file_number_ e else ec_next_file_number_ ec)
     (<[cf := collect c e]> (ec_column_families_ ec)))) \/
  (~ collectable c e /\ (AddEdit ec e).1 = Corruption).
Proof.
  intros Hs Hse Hn cf c. unfold AddEdit. rewrite Hse. fold cf. fold c.
  destruct (add_files_spec (added_files_ e) c) as [(Hnd1 & Hf1 & ->)|(Hbad & Ha)].
  - cbn [ok negb]. destruct (delete_files_spec (deleted_files_ e)
      (mkCF (list_to_map (by_number <$> added_files_ e) ∪ cf_added_files_ c) (cf_deleted_files_ c)))
      as [(Hnd2 & Hf2 & ->)|(Hbad & Hd)].
    + left. split; [by split_and!|]. cbn. rewrite Hs, Hse. destruct (has_next_file_number_ e).
      * destruct (Z.ltb_spec (next_file_number_ e) (ec_next_file_number_ ec)); [specialize (Hn eq_refl); lia|].
        by case_match.
      * unfold set_collector. rewrite Hse. by case_match.
    + right. split; [by intros (? & ? & ? & ?); apply Hbad|].
      destruct (delete_files _ _) as [s c'] eqn:E. cbn in Hd. subst s. done.
  - right. split; [by intros (? & ? & ? & ?); apply Hbad|].
    destruct (add_files _ _) as [s c'] eqn:E. cbn in Ha. subst s. done.
Qed.

(** ** All column families *)

Section CFS.
Context `{C : Comparator} `{L : !ComparatorLaws C}.

(** Each storage is well formed and counted under its own number. *)
Definition cfs_wf (st : TitanStats) (cfs : gmap Z BlobStorage) : Prop :=
  forall cf b, cfs !! cf = Some b -> cf_id_ b = cf /\ storage_wf b /\ stats_ok st b.

(** The effect of a column family's part of a batch on its storage. *)
Definition storage_edited (c : CFEditCollector) (b b' : BlobStorage) : Prop :=
  (forall n, files_ b' !! n = edited c (files_ b) n) /\
  (forall n s, (n, s) ∈ obsolete_files_ b' <->
     (n, s) ∈ obsolete_files_ b \/ (cf_deleted_files_ c !! n = Some s /\ cf_added_files_ c !! n = None)) /\
  zlen (levels_file_count_ b') = zlen (levels_file_count_ b) /\
  destroyed_ b' = destroyed_ b /\ cf_options_ b' = cf_options_ b.

Lemma stats_ok_other st st' cf b :
  other_counters cf st st' -> cf_id_ b <> cf -> stats_ok st b -> stats_ok st' b.
Proof. intros Ho Hne Hst t g v Ht Hv. rewrite Ho in Hv by done. by eapply Hst. Qed.

Lemma seal_cfs_spec cfs l st :
  cfs_wf st cfs ->
  (seal_cfs cfs l = Some OK /\ forall cf c b, (cf, c) ∈ l -> cfs !! cf = Some b -> sealable c b) \/
  (seal_cfs cfs l = Some Corruption /\
     exists cf c b, (cf, c) ∈ l /\ cfs !! cf = Some b /\ ~ sealable c b).
Proof.
  intros Hwf. induction l as [|[cf c] l IH]; cbn.
  { left. split; [done|]. by intros ? ? ? ?%elem_of_nil. }
  assert (forall x, x ∈ l -> x ∈ (cf, c) :: l) as Hfur by (intros; by apply list_elem_of_further).
  destruct (cfs !! cf) as [b|] eqn:Hb.
  - destruct (Hwf _ _ Hb) as (_ & Hbw & _). destruct (CF_Seal_spec c b Hbw) as [[-> Hs]|[-> Hs]]; cbn.
    + destruct IH as [[-> H]|[-> (cf' & c' & b' & ? & ? & ?)]]; [left|right; split; [done|]; exists cf', c', b'; auto].
      split; [done|]. intros cf' c' b' [[= -> ->]|Hin]%elem_of_cons Hb'; [|by eapply H].
      rewrite Hb in Hb'. by injection Hb' as <-.
    + right. split; [done|]. exists cf, c, b. split; [apply list_elem_of_here|done].
  - destruct IH as [[-> H]|[-> (cf' & c' & b' & ? & ? & ?)]]; [left|right; split; [done|]; exists cf', c', b'; auto].
    split; [done|]. intros cf' c' b' [[= -> ->]|Hin]%elem_of_cons Hb'; [congruence|by eapply H].
Qed.

Lemma apply_cfs_spec l : forall cfs st,
  cfs_wf st cfs -> NoDup l.*1 ->
  (forall cf c b, (cf, c) ∈ l -> cfs !! cf = Some b -> sealable c b /\
     forall n m, cf_added_files_ c !! n = Some m -> cf_deleted_files_ c !! n = None -> addable b n m) ->
  exists cfs' st', apply_cfs cfs st l = Some (OK, cfs', st') /\ cfs_wf st' cfs' /\
    forall cf, match (list_to_map l : gmap Z CFEditCollector) !! cf, cfs !! cf with
               | Some c, Some b => exists b', cfs' !! cf = Some b' /\ storage_edited c b b'
               | _, x => cfs' !! cf = x
               end.
Proof.
  induction l as [|[cf c] l IH]; intros cfs st Hwf Hnd Hl.
  { exists cfs, st. split; [done|]. split; [done|]. intros cf. cbn. by rewrite lookup_empty. }
  cbn in Hnd. apply NoDup_cons in Hnd as [Hn Hnd].
  assert (forall cf' c', (cf', c') ∈ l -> cf' <> cf) as Hdiff.
  { intros cf' c' Hin ->. apply Hn. by apply (list_elem_of_fmap_2 fst) in Hin. }
  assert ((list_to_map l : gmap Z CFEditCollector) !! cf = None) as Hlcf by by apply not_elem_of_list_to_map_1.
  cbn [apply_cfs]. destruct (cfs !! cf) as [b|] eqn:Hb.
  - destruct (Hwf _ _ Hb) as (Hid & Hbw & Hst).
    destruct (Hl cf c b (list_elem_of_here _ _) Hb) as [Hs Ha].
    destruct (CF_Apply_spec c b st Hbw Hst Hs Ha)
      as (b1 & st1 & -> & Hb1 & Hst1 & Hf1 & Ho1 & Hid1 & Hlv1 & Hd1 & Hcf1 & Hoth).
    cbn [mbind option_bind ok negb].
    destruct (IH (<[cf := b1]> cfs) st1) as (cfs' & st' & -> & Hwf' & Hcfs); [|done| |].
    { intros cf' b' [[<- <-]|[Hne Hb']]%lookup_insert_Some; [by rewrite Hid1|].
      destruct (Hwf _ _ Hb') as (Hid' & Hw' & Hst'). split; [done|]. split; [done|].
      eapply stats_ok_other; [exact Hoth| |done]. congruence. }
    { intros cf' c' b' Hin. rewrite lookup_insert_ne by (symmetry; by eapply Hdiff).
      apply Hl. by apply list_elem_of_further. }
    exists cfs', st'. split; [done|]. split; [done|]. intros cf'. specialize (Hcfs cf'). cbn.
    destruct (decide (cf' = cf)) as [->|Hne].
    + rewrite lookup_insert_eq, Hb. rewrite Hlcf, lookup_insert_eq in Hcfs.
      exists b1. split; [done|]. by split_and!.
    + rewrite lookup_insert_ne by done. by rewrite lookup_insert_ne in Hcfs.
  - destruct (IH cfs st Hwf Hnd) as (cfs' & st' & -> & Hwf' & Hcfs).
    { intros cf' c' b' Hin. apply Hl. by apply list_elem_of_further. }
    exists cfs', st'. split; [done|]. split; [done|]. intros cf'. specialize (Hcfs cf'). cbn.
    destruct (decide (cf' = cf)) as [->|Hne].
    + rewrite lookup_insert_eq, Hb. by rewrite Hlcf, Hb in Hcfs.
    + by rewrite lookup_insert_ne.
Qed.
End CFS.
