(* ===== verification/BlobFileSet.v ===== *)
(** * BlobFileSet: the blob files of all column families, and the manifest

    [blob_file_set.h] and [blob_file_set.cc]. The disk is a record of what the
    code reads and writes there; the outcome of every write is an argument.
    [None] is a failed assertion, an index out of range in a storage, or a
    call through a null manifest writer. *)
From S2P Require Import Prelude Coding BlobFormat BitMap BlobFileMeta TitanStats Options VersionEdit BlobStorage BlobStorageProofs EditCollector EditCollectorProofs.

Local Open Scope Z_scope.

(** ** The disk *)

(** What [log::Reader] finds in a manifest: a record, or a damaged region that
    it reports and skips. *)
Inductive LogItem : Type :=
  | Rec (record : bytes)
  | Bad.

(** [CURRENT] holds the name of a manifest, here its number, and a newline. *)
Record CurrentFile : Type := mkCurrent {
  current_manifest : Z;
  ends_with_newline : bool }.

Record Disk : Type := mkDisk {
  current_ : option CurrentFile;
  manifests_ : gmap Z (list LogItem);
  blobs_ : gset Z }.

(** A file of the Titan directory. *)
Inductive FileName : Type :=
  | BlobFileName (number : Z)
  | DescriptorFileName (number : Z)
  | CurrentFileName.

(** The outcome of the writes of one operation. *)
Record IO : Type := mkIO {
  io_new_file : Status;
  io_add_record : nat -> Status;
  io_sync : Status;
  io_set_current : Status }.

Definition io_ok : IO := mkIO OK (fun _ => OK) OK OK.

(** ** State *)

(** [manifest_] is the number of the file its writer appends to. *)
Record BlobFileSet : Type := mkSet {
  fs_stats_ : TitanStats;
  obsolete_manifests_ : list Z;
  obsolete_columns_ : gset Z;
  column_families_ : gmap Z BlobStorage;
  manifest_ : option Z;
  fs_next_file_number_ : Z;
  manifest_file_number_ : Z }.

(** [manifest_file_number_] is not initialised. *)
Definition BlobFileSet_new (stats : TitanStats) (garbage : Z) : BlobFileSet :=
  mkSet stats [] ∅ ∅ None 1 garbage.

Definition set_column_families (s : BlobFileSet) (cfs : gmap Z BlobStorage) (st : TitanStats) : BlobFileSet :=
  mkSet st (obsolete_manifests_ s) (obsolete_columns_ s) cfs (manifest_ s)
    (fs_next_file_number_ s) (manifest_file_number_ s).

Definition set_next_file_number (s : BlobFileSet) (n : Z) : BlobFileSet :=
  mkSet (fs_stats_ s) (obsolete_manifests_ s) (obsolete_columns_ s) (column_families_ s) (manifest_ s)
    n (manifest_file_number_ s).

Definition set_obsolete_columns (s : BlobFileSet) (cols : gset Z) : BlobFileSet :=
  mkSet (fs_stats_ s) (obsolete_manifests_ s) cols (column_families_ s) (manifest_ s)
    (fs_next_file_number_ s) (manifest_file_number_ s).

Definition NewFileNumber (s : BlobFileSet) : Z * BlobFileSet :=
  (fs_next_file_number_ s, set_next_file_number s (u64 (fs_next_file_number_ s + 1))).

Definition GetBlobStorage (s : BlobFileSet) (cf_id : Z) : option BlobStorage :=
  column_families_ s !! cf_id.

Definition IsColumnFamilyObsolete (s : BlobFileSet) (cf_id : Z) : bool :=
  bool_decide (cf_id ∈ obsolete_columns_ s).

(** [emplace] keeps a storage that is already there; its counters are cleared
    all the same. *)
Definition AddColumnFamily (s : BlobFileSet) (cf : Z * TitanCFOptions) : BlobFileSet :=
  set_column_families s
    (insert_new (column_families_ s) cf.1 (BlobStorage_new cf.2 cf.1))
    ((fun st => InitializeCF st cf.1) <$> fs_stats_ s).

Definition AddColumnFamilies (s : BlobFileSet) (cfs : gmap Z TitanCFOptions) : BlobFileSet :=
  foldl AddColumnFamily s (map_to_list cfs).

Section Set_.
Context `{C : Comparator}.

(** ** The manifest *)

(** The edits of [WriteSnapshot]. *)
Definition snapshot_edit (cf : Z * BlobStorage) : VersionEdit :=
  mkEdit false 0 cf.1
    (omap (fun e : Z * BlobFileMeta => if is_obsolete e.2 then None else Some e.2)
       (map_to_list (files_ cf.2))) [].

Definition snapshot_edits (s : BlobFileSet) : list VersionEdit :=
  SetNextFileNumber VersionEdit_default (fs_next_file_number_ s) ::
  (snapshot_edit <$> map_to_list (column_families_ s)).

(** The records go out one by one, until a write fails. *)
Fixpoint write_records (io : IO) (i : nat) (edits : list VersionEdit) : Status * list LogItem :=
  match edits with
  | [] => (OK, [])
  | e :: edits =>
      if negb (ok (io_add_record io i)) then (io_add_record io i, [])
      else let '(s, l) := write_records io (S i) edits in (s, Rec (VersionEdit_EncodeTo e) :: l)
  end.

Definition WriteSnapshot (io : IO) (s : BlobFileSet) : Status * list LogItem :=
  write_records io 0 (snapshot_edits s).

Definition OpenManifest (io : IO) (s : BlobFileSet) (d : Disk) (number : Z) : Status * BlobFileSet * Disk :=
  if negb (ok (io_new_file io)) then (io_new_file io, s, d) else
  let '(st, items) := WriteSnapshot io s in
  let d := mkDisk (current_ d) (<[number := items]> (manifests_ d)) (blobs_ d) in
  let st := if ok st then io_sync io else st in
  let '(st, d) :=
    if ok st
    then (io_set_current io,
          if ok (io_set_current io) then mkDisk (Some (mkCurrent number true)) (manifests_ d) (blobs_ d) else d)
    else (st, d) in
  if ok st
  then (OK, mkSet (fs_stats_ s) (obsolete_manifests_ s) (obsolete_columns_ s) (column_families_ s)
              (Some number) (fs_next_file_number_ s) number, d)
  else (st, mkSet (fs_stats_ s) (obsolete_manifests_ s ++ [number]) (obsolete_columns_ s)
              (column_families_ s) None (fs_next_file_number_ s) (manifest_file_number_ s), d).

Definition LogAndApply (io : IO) (s : BlobFileSet) (d : Disk) (edit : VersionEdit)
    : option (Status * BlobFileSet * Disk) :=
  let edit := SetNextFileNumber edit (fs_next_file_number_ s) in
  let record := VersionEdit_EncodeTo edit in
  let '(st, collector) := AddEdit EditCollector_new edit in
  if negb (ok st) then Some (st, s, d) else
  '(st, collector) ← Seal collector (column_families_ s);
  if negb (ok st) then Some (st, s, d) else
  number ← manifest_ s;
  if negb (ok (io_add_record io 0)) then Some (io_add_record io 0, s, d) else
  let d := mkDisk (current_ d) (alter (fun items => items ++ [Rec record]) number (manifests_ d)) (blobs_ d) in
  if negb (ok (io_sync io)) then Some (io_sync io, s, d) else
  '(st, cfs, stats) ← Apply collector (column_families_ s) (fs_stats_ s);
  Some (st, set_column_families s cfs stats, d).

(** ** Column families *)

Fixpoint DropColumnFamilies (io : IO) (s : BlobFileSet) (d : Disk) (column_families : list Z)
    (obsolete_sequence : Z) (st : Status) : option (Status * BlobFileSet * Disk) :=
  match column_families with
  | [] => Some (st, s, d)
  | cf_id :: column_families =>
      match column_families_ s !! cf_id with
      | None => Some (NotFound, s, d)
      | Some storage =>
          let edit := mkEdit false 0 cf_id []
            (omap (fun e : Z * BlobFileMeta =>
                     if is_obsolete e.2 then None else Some (e.1, obsolete_sequence))
               (map_to_list (files_ storage))) in
          '(st, s, d) ← LogAndApply io s d edit;
          if negb (ok st) then Some (st, s, d) else
          DropColumnFamilies io (set_obsolete_columns s ({[cf_id]} ∪ obsolete_columns_ s)) d
            column_families obsolete_sequence st
      end
  end.

Definition MaybeDestroyColumnFamily (s : BlobFileSet) (cf_id : Z) : Status * BlobFileSet :=
  let s := set_obsolete_columns s (obsolete_columns_ s ∖ {[cf_id]}) in
  match column_families_ s !! cf_id with
  | None => (NotFound, s)
  | Some storage =>
      let storage := MarkDestroyed storage in
      if MaybeRemove storage
      then (OK, set_column_families s (delete cf_id (column_families_ s)) (fs_stats_ s))
      else (OK, set_column_families s (<[cf_id := storage]> (column_families_ s)) (fs_stats_ s))
  end.

Definition DeleteBlobFilesInRanges (io : IO) (s : BlobFileSet) (d : Disk) (cf_id : Z)
    (ranges : list RangePtr) (include_end : bool) (obsolete_sequence : Z)
    : option (Status * BlobFileSet * Disk) :=
  match column_families_ s !! cf_id with
  | None => Some (NotFound, s, d)
  | Some storage =>
      files ← GetBlobFilesInRanges storage ranges include_end [];
      LogAndApply io s d (mkEdit false 0 cf_id [] (map (fun n => (n, obsolete_sequence)) files))
  end.

(** ** Files *)

Fixpoint obsolete_cfs (s : BlobFileSet) (l : list Z) (oldest_sequence : Z) (names : list Z)
    : option (list Z * BlobFileSet) :=
  match l with
  | [] => Some (names, s)
  | cf_id :: l =>
      match column_families_ s !! cf_id with
      | None => obsolete_cfs s l oldest_sequence names
      | Some storage =>
          if bool_decide (cf_id ∈ obsolete_columns_ s) then obsolete_cfs s l oldest_sequence names else
          '(names, storage, st) ← BlobStorage.GetObsoleteFiles storage (fs_stats_ s) names oldest_sequence;
          let cfs := if MaybeRemove storage then delete cf_id (column_families_ s)
                     else <[cf_id := storage]> (column_families_ s) in
          obsolete_cfs (set_column_families s cfs st) l oldest_sequence names
      end
  end.

Definition GetObsoleteFiles (s : BlobFileSet) (oldest_sequence : Z) : option (list FileName * BlobFileSet) :=
  '(names, s) ← obsolete_cfs s ((map_to_list (column_families_ s)).*1) oldest_sequence [];
  Some (map BlobFileName names ++ map DescriptorFileName (obsolete_manifests_ s),
        mkSet (fs_stats_ s) [] (obsolete_columns_ s) (column_families_ s) (manifest_ s)
          (fs_next_file_number_ s) (manifest_file_number_ s)).

(** The edits and the files of a checkpoint. *)
Definition all_files_edit (cf : Z * BlobStorage) : VersionEdit :=
  mkEdit false 0 cf.1 ((map_to_list (files_ cf.2)).*2) [].

Definition GetAllFiles (s : BlobFileSet) : list FileName * list VersionEdit :=
  (map BlobFileName
     (foldl (fun names cf => BlobStorage.GetAllFiles cf.2 names) [] (map_to_list (column_families_ s)))
   ++ [DescriptorFileName (manifest_file_number_ s); CurrentFileName],
   SetNextFileNumber VersionEdit_default (fs_next_file_number_ s) ::
   (all_files_edit <$> map_to_list (column_families_ s))).

(** ** Recovery *)

(** The loop over the records; [s] is the status that the reader's reports go
    to. [Fail] is a return out of the loop. *)
Fixpoint read_loop (items : list LogItem) (s : Status) (collector : EditCollector)
    : option (res (Status * EditCollector)) :=
  match items with
  | [] => Some (Ret (s, collector))
  | Bad :: items => read_loop items (if ok s then Corruption else s) collector
  | Rec record :: items =>
      if negb (ok s) then Some (Ret (s, collector)) else
      r ← VersionEdit_DecodeFrom VersionEdit_default record;
      match r with
      | Fail st => Some (Fail st)
      | Ret edit =>
          let '(st, collector) := AddEdit collector edit in
          if negb (ok st) then Some (Fail st) else read_loop items st collector
      end
  end.

Definition kMaxSequenceNumber : Z := 2 ^ 56 - 1.

(** The purge of the storages at the end of recovery. *)
Fixpoint purge_cfs (s : BlobFileSet) (l : list Z) : option BlobFileSet :=
  match l with
  | [] => Some s
  | cf_id :: l =>
      match column_families_ s !! cf_id with
      | None => purge_cfs s l
      | Some storage =>
          '(_, storage, st) ← BlobStorage.GetObsoleteFiles storage (fs_stats_ s) [] kMaxSequenceNumber;
          purge_cfs (set_column_families s (<[cf_id := storage]> (column_families_ s)) st) l
      end
  end.

Definition alive_files (s : BlobFileSet) : gset Z :=
  list_to_set (flat_map (fun cf : Z * BlobStorage => file_number_ <$> (map_to_list (files_ cf.2)).*2)
                 (map_to_list (column_families_ s))).

(** Delete the manifests and the blob files that nothing refers to. *)
Definition purge_disk (d : Disk) (alive : gset Z) : Disk :=
  mkDisk (current_ d) (filter (fun e => e.1 ∈ alive) (manifests_ d)) (filter (fun n => n ∈ alive) (blobs_ d)).

Definition Recover (io : IO) (s : BlobFileSet) (d : Disk) : option (Status * BlobFileSet * Disk) :=
  match current_ d with
  | None => Some (NotFound, s, d)
  | Some c =>
      if negb (ends_with_newline c) then Some (Corruption, s, d) else
      match manifests_ d !! current_manifest c with
      | None => Some (NotFound, s, d)
      | Some items =>
          r ← read_loop items OK EditCollector_new;
          match r with
          | Fail st => Some (st, s, d)
          | Ret (_, collector) =>
              '(st, collector) ← Seal collector (column_families_ s);
              if negb (ok st) then Some (st, s, d) else
              '(st, cfs, stats) ← Apply collector (column_families_ s) (fs_stats_ s);
              let s := set_column_families s cfs stats in
              if negb (ok st) then Some (st, s, d) else
              match GetNextFileNumber collector with
              | Fail st => Some (st, s, d)
              | Ret next_file_number =>
                  let s := set_next_file_number s next_file_number in
                  let '(new_manifest, s) := NewFileNumber s in
                  let '(st, s, d) := OpenManifest io s d new_manifest in
                  if negb (ok st) then Some (st, s, d) else
                  s ← purge_cfs s ((map_to_list (column_families_ s)).*1);
                  Some (OK, s, purge_disk d ({[new_manifest]} ∪ alive_files s))
              end
          end
      end
  end.

Definition Open (io : IO) (s : BlobFileSet) (d : Disk) (cfs : gmap Z TitanCFOptions)
    : option (Status * BlobFileSet * Disk) :=
  let s := AddColumnFamilies s cfs in
  match current_ d with
  | Some _ => Recover io s d
  | None => let '(n, s) := NewFileNumber s in Some (OpenManifest io s d n)
  end.

End Set_.
