(* ===== verification/BlobFileSetProofs.v ===== *)
(** * BlobFileSetProofs: logging, replaying and recovering the manifest

    What [LogAndApply] does on every branch, and the correspondence between the
    records of the manifest and the files in memory, which every operation
    keeps and recovery relies on. *)
From S2P Require Import Prelude Coding BitMap BlobFileMeta TitanStats Options VersionEdit BlobStorage BlobStorageProofs EditCollector EditCollectorProofs BlobFileSet.

Local Open Scope Z_scope.

Section Proofs.
Context `{C : Comparator} `{L : !ComparatorLaws C}.

Definition set_wf (s : BlobFileSet) : Prop := cfs_wf (fs_stats_ s) (column_families_ s).

(** The edit that goes to the manifest. *)
Definition logged (s : BlobFileSet) (e : VersionEdit) : VersionEdit :=
  SetNextFileNumber e (fs_next_file_number_ s).

Lemma collect_new e :
  collect CFEditCollector_new e =
    mkCF (list_to_map (by_number <$> added_files_ e)) (list_to_map (deleted_files_ e)).
Proof. unfold collect. cbn. by rewrite !(right_id_L ∅ (∪)). Qed.

(** *** Logging an edit *)

(** The edit is acceptable for the storage of its column family. *)
Definition acceptable (b : BlobStorage) (e : VersionEdit) : Prop :=
  collectable CFEditCollector_new e /\ sealable (collect CFEditCollector_new e) b.

Lemma collect_new_added e n m :
  cf_added_files_ (collect CFEditCollector_new e) !! n = Some m ->
  m ∈ added_files_ e /\ file_number_ m = n.
Proof.
  rewrite collect_new. cbn. intros H%elem_of_list_to_map_2.
  apply list_elem_of_fmap in H as (f & [= -> ->] & Hf). done.
Qed.

Lemma LogAndApply_spec io s d e b k :
  set_wf s -> manifest_ s = Some k -> 0 <= fs_next_file_number_ s ->
  column_families_ s !! column_family_id_ e = Some b ->
  (forall f, f ∈ added_files_ e -> addable b (file_number_ f) f) ->
  let d' := mkDisk (current_ d)
    (alter (fun items => items ++ [Rec (VersionEdit_EncodeTo (logged s e))]) k (manifests_ d)) (blobs_ d) in
  (~ acceptable b e /\ LogAndApply io s d e = Some (Corruption, s, d)) \/
  (acceptable b e /\ ok (io_add_record io 0) = false /\
   LogAndApply io s d e = Some (io_add_record io 0, s, d)) \/
  (acceptable b e /\ io_add_record io 0 = OK /\ ok (io_sync io) = false /\
   LogAndApply io s d e = Some (io_sync io, s, d')) \/
  (acceptable b e /\ io_add_record io 0 = OK /\ io_sync io = OK /\
   exists cfs' st' b', LogAndApply io s d e = Some (OK, set_column_families s cfs' st', d') /\
     cfs_wf st' cfs' /\
     cfs' !! column_family_id_ e = Some b' /\ storage_edited (collect CFEditCollector_new e) b b' /\
     forall cf, cf <> column_family_id_ e -> cfs' !! cf = column_families_ s !! cf).
Proof.
  intros Hwf Hk Hn Hb Hadd d'. unfold LogAndApply. fold (logged s e).
  assert (collect CFEditCollector_new (logged s e) = collect CFEditCollector_new e) as Hcol by done.
  destruct (AddEdit_spec EditCollector_new (logged s e) eq_refl eq_refl (fun _ => Hn)) as [[Hc ->]|[Hc Hst]].
  2:{ left. split; [by intros [H _]|]. destruct (AddEdit _ _) as [st c]. cbn in Hst. by subst st. }
  cbn [ok negb column_family_id_ logged SetNextFileNumber ec_column_families_ EditCollector_new] in *.
  rewrite lookup_empty in *. cbn [default from_option id] in *. rewrite Hcol in *.
  unfold Seal. cbn [status_ ok negb ec_column_families_].
  rewrite insert_empty, map_to_list_singleton.
  destruct (seal_cfs_spec (column_families_ s) [(column_family_id_ e, collect CFEditCollector_new e)]
    (fs_stats_ s) Hwf) as [[-> Hs]|[-> (cf & c & b' & Hin & Hb' & Hs)]].
  2:{ left. split; [|done]. intros [_ H]. apply list_elem_of_singleton in Hin. injection Hin as -> ->.
      rewrite Hb in Hb'. by injection Hb' as <-. }
  specialize (Hs _ _ _ (list_elem_of_here _ _) Hb). right.
  assert (acceptable b e) as Hacc by done.
  cbn [mbind option_bind ok negb]. rewrite Hk. cbn [mbind option_bind].
  destruct (io_add_record io 0) eqn:Ha; cbn [ok negb]; [|by left..]. right.
  destruct (io_sync io) eqn:Hsy; cbn [ok negb]; [|by left..]. right.
  unfold Apply. cbn [status_ ok negb sealed_ ec_column_families_].
  rewrite map_to_list_singleton.
  destruct (apply_cfs_spec [(column_family_id_ e, collect CFEditCollector_new e)]
    (column_families_ s) (fs_stats_ s) Hwf) as (cfs' & st' & -> & Hwf' & Hcfs).
  { cbn. apply NoDup_singleton. }
  { intros cf c b' Hin Hb'. apply list_elem_of_singleton in Hin. injection Hin as -> ->.
    rewrite Hb in Hb'. injection Hb' as <-. split; [done|]. intros n m Hm _.
    apply collect_new_added in Hm as [Hm <-]. by apply Hadd. }
  split; [done|]. split; [done|]. split; [done|].
  pose proof (Hcfs (column_family_id_ e)) as Hcf. cbn in Hcf. rewrite lookup_insert_eq, Hb in Hcf.
  destruct Hcf as (b' & Hb' & He). exists cfs', st', b'. split; [done|]. split; [done|]. split; [done|].
  split; [done|]. intros cf Hne. specialize (Hcfs cf). cbn in Hcfs.
  rewrite lookup_insert_ne, lookup_empty in Hcfs by done. exact Hcfs.
Qed.

(** *** The manifest and the memory *)

(** A file that is not obsolete. *)
Definition live_file (files : gmap Z BlobFileMeta) (n : Z) : option BlobFileMeta :=
  m ← files !! n; if is_obsolete m then None else Some m.

(** A file that a collector would leave in an empty storage. *)
Definition replayed (c : CFEditCollector) (n : Z) : option BlobFileMeta :=
  match cf_added_files_ c !! n, cf_deleted_files_ c !! n with
  | Some m, None => Some m
  | _, _ => None
  end.

Definition cf_collector (ec : EditCollector) (cf : Z) : CFEditCollector :=
  default CFEditCollector_new (ec_column_families_ ec !! cf).

(** A collector that holds the edits of one manifest. *)
Record collector_wf (ec : EditCollector) : Prop := {
  cw_status : status_ ec = OK;
  cw_sealed : sealed_ ec = false;
  cw_deleted : forall cf n, is_Some (cf_deleted_files_ (cf_collector ec cf) !! n) ->
    is_Some (cf_added_files_ (cf_collector ec cf) !! n);
  cw_added : forall cf n m, cf_added_files_ (cf_collector ec cf) !! n = Some m ->
    file_number_ m = n /\ is_obsolete m = false }.

(** The collector holds the persistent part of the files in memory. *)
Definition image (ec : EditCollector) (s : BlobFileSet) : Prop :=
  forall cf b n, column_families_ s !! cf = Some b ->
    replayed (cf_collector ec cf) n = persistent <$> live_file (files_ b) n.

(** The manifest that the writer appends to, read back, gives such a
    collector. *)
Definition durable (s : BlobFileSet) (d : Disk) (ec : EditCollector) : Prop :=
  exists k items, manifest_ s = Some k /\ current_ d = Some (mkCurrent k true) /\
    manifests_ d !! k = Some items /\ read_loop items OK EditCollector_new = Some (Ret (OK, ec)) /\
    collector_wf ec /\ ec_has_next_file_number_ ec = true /\
    0 <= ec_next_file_number_ ec <= fs_next_file_number_ s /\ image ec s.

Lemma read_loop_app items1 items2 : forall st ec st1 ec1,
  ok st = true -> read_loop items1 st ec = Some (Ret (st1, ec1)) -> ok st1 = true ->
  read_loop (items1 ++ items2) st ec = read_loop items2 st1 ec1.
Proof.
  induction items1 as [|[r|] items1 IH]; intros st ec st1 ec1 Hst H H1; cbn in *.
  - by injection H as -> ->.
  - rewrite Hst in *. cbn [negb] in *. apply bind_Some in H as (x & Hx & H). rewrite Hx.
    cbn [mbind option_bind]. destruct x as [e|]; [|done].
    destruct (AddEdit ec e) as [st2 ec2] eqn:E. destruct (ok st2) eqn:E2; [|done]. cbn [negb] in *.
    by eapply IH.
  - rewrite Hst in *. exfalso. clear IH. revert H H1.
    assert (forall l s e s' e', ok s = false ->
      read_loop l s e = Some (Ret (s', e')) -> ok s' = false) as Hbad.
    { clear. induction l as [|[r|] l IH]; intros s e s' e' Hs H; cbn in H.
      - by injection H as -> ->.
      - rewrite Hs in H. cbn in H. by injection H as -> ->.
      - rewrite Hs in H. by eapply IH. }
    intros H H1. apply Hbad in H; [congruence|done].
Qed.

(** Reading one more record. *)
Lemma read_loop_record items ec e ec' :
  read_loop items OK EditCollector_new = Some (Ret (OK, ec)) ->
  VersionEdit_wf e -> AddEdit ec (persistent_edit e) = (OK, ec') ->
  read_loop (items ++ [Rec (VersionEdit_EncodeTo e)]) OK EditCollector_new = Some (Ret (OK, ec')).
Proof.
  intros Hi He Ha. erewrite read_loop_app; [|done|exact Hi|done].
  cbn [read_loop ok negb]. rewrite VersionEdit_decode_encode by done. cbn [mbind option_bind].
  by rewrite Ha.
Qed.

(** *** Logging keeps the manifest and the memory in step *)

Lemma persistent_numbers l : file_number_ <$> map persistent l = file_number_ <$> l.
Proof. induction l as [|f l IH]; [done|]. cbn in *. by rewrite IH. Qed.

Lemma persistent_map l :
  (list_to_map (by_number <$> map persistent l) : gmap Z BlobFileMeta)
  = persistent <$> list_to_map (by_number <$> l).
Proof. induction l as [|f l IH]; cbn; [by rewrite fmap_empty|]. by rewrite fmap_insert, IH. Qed.

Lemma unsequenced_map (l : list (Z * Z)) :
  (list_to_map (map (fun d => (d.1, 0)) l) : gmap Z Z) = (fun _ => 0) <$> (list_to_map l : gmap Z Z).
Proof. induction l as [|[n q] l IH]; cbn; [by rewrite fmap_empty|]. by rewrite fmap_insert, IH. Qed.

(** The collector of a column family after one more logged edit. *)
Lemma collect_persistent_added c e n :
  cf_added_files_ (collect c (persistent_edit e)) !! n =
  (persistent <$> (cf_added_files_ (collect CFEditCollector_new e) !! n)) ∪ (cf_added_files_ c !! n).
Proof.
  rewrite collect_new. cbn. by rewrite persistent_map, lookup_union, lookup_fmap.
Qed.

Lemma collect_persistent_deleted c e n :
  cf_deleted_files_ (collect c (persistent_edit e)) !! n =
  ((fun _ => 0) <$> (cf_deleted_files_ (collect CFEditCollector_new e) !! n)) ∪ (cf_deleted_files_ c !! n).
Proof.
  rewrite collect_new. cbn. by rewrite unsequenced_map, lookup_union, lookup_fmap.
Qed.

Lemma cf_collector_insert st se h nx cf c m cf' :
  cf_collector (mkCollector st se h nx (<[cf := c]> m)) cf' =
    if decide (cf = cf') then c else default CFEditCollector_new (m !! cf').
Proof.
  unfold cf_collector. cbn. case_decide as H; [subst; by rewrite lookup_insert_eq|by rewrite lookup_insert_ne].
Qed.

(** What an acceptable edit does to the storage and to the collector agrees. *)
Lemma replay_edit c b b' e :
  acceptable b e -> storage_edited (collect CFEditCollector_new e) b b' ->
  (forall n, is_Some (cf_deleted_files_ c !! n) -> is_Some (cf_added_files_ c !! n)) ->
  (forall f, f ∈ added_files_ e -> is_obsolete f = false /\ cf_added_files_ c !! file_number_ f = None) ->
  (forall n, replayed c n = persistent <$> live_file (files_ b) n) ->
  let c' := collect c (persistent_edit e) in
  (forall n, replayed c' n = persistent <$> live_file (files_ b') n) /\
  (forall n, is_Some (cf_deleted_files_ c' !! n) -> is_Some (cf_added_files_ c' !! n)) /\
  collectable c (persistent_edit e).
Proof.
  intros [(Hnd1 & Hnd2 & _) [Hsa Hsd]] (Hf & _) Hda Hfresh Hrep c'.
  set (ce := collect CFEditCollector_new e) in *.
  assert (forall n m, cf_added_files_ ce !! n = Some m ->
    is_obsolete m = false /\ cf_added_files_ c !! n = None /\ cf_deleted_files_ c !! n = None /\ files_ b !! n = None) as Hnew.
  { intros n m Hm. pose proof (Hsa n (mk_is_Some _ _ Hm)).
    apply collect_new_added in Hm as [Hm <-]. apply Hfresh in Hm as [? Hn]. split_and!; try done.
    apply eq_None_not_Some. intros H'%Hda. rewrite Hn in H'. by destruct H'. }
  assert (forall n, is_Some (cf_deleted_files_ ce !! n) -> cf_added_files_ ce !! n = None ->
    is_Some (cf_added_files_ c !! n) /\ cf_deleted_files_ c !! n = None) as Hdel.
  { intros n Hd Ha. destruct (Hsd n Hd Ha) as (m & Hm & Ho). specialize (Hrep n).
    unfold live_file, replayed in Hrep. rewrite Hm in Hrep. cbn in Hrep. rewrite Ho in Hrep. cbn in Hrep.
    destruct (cf_added_files_ c !! n); [|done]. by destruct (cf_deleted_files_ c !! n). }
  split; [|split].
  - intros n. unfold replayed, c'. rewrite collect_persistent_added, collect_persistent_deleted. fold ce.
    unfold live_file. rewrite Hf. unfold edited.
    destruct (cf_added_files_ ce !! n) as [m|] eqn:Ea.
    + destruct (Hnew _ _ Ea) as (Ho & H1 & H2 & H3). rewrite H1, H2.
      destruct (cf_deleted_files_ ce !! n); cbn; [by rewrite H3|by rewrite Ho].
    + destruct (cf_deleted_files_ ce !! n) as [q|] eqn:Ed.
      * destruct (Hdel n (mk_is_Some _ _ Ed) Ea) as ([m' ->] & ->). cbn. by destruct (files_ b !! n).
      * cbn. rewrite !(left_id_L None (∪)). apply Hrep.
  - intros n. unfold c'. rewrite collect_persistent_added, collect_persistent_deleted. fold ce.
    destruct (cf_added_files_ ce !! n) as [m|] eqn:Ea.
    { intros _. cbn. destruct (cf_added_files_ c !! n); by eexists. }
    destruct (cf_deleted_files_ ce !! n) as [q|] eqn:Ed.
    { intros _. destruct (Hdel n (mk_is_Some _ _ Ed) Ea) as [[m' ->] _]. by eexists. }
    cbn. rewrite !(left_id_L None (∪)). apply Hda.
  - unfold collectable. cbn [added_files_ deleted_files_ persistent_edit]. split_and!.
    + by rewrite persistent_numbers.
    + replace (map _ (deleted_files_ e)).*1 with (deleted_files_ e).*1; [done|].
      clear. induction (deleted_files_ e) as [|[n q] l IH]; [done|]. cbn in *. by rewrite <- IH.
    + intros f Hin. apply list_elem_of_In, in_map_iff in Hin as (g & <- & Hg%list_elem_of_In). cbn.
      by apply Hfresh in Hg as [_ ?].
    + intros d Hin. apply list_elem_of_In, in_map_iff in Hin as ([n q] & <- & Hg%list_elem_of_In). cbn.
      assert (cf_deleted_files_ ce !! n = Some q) as Hd.
      { unfold ce. rewrite collect_new. by apply elem_of_list_to_map_1. }
      destruct (cf_added_files_ ce !! n) as [m|] eqn:Ea; [by apply (Hnew _ _ Ea)|].
      by apply (Hdel n (mk_is_Some _ _ Hd) Ea).
Qed.

Lemma LogAndApply_durable io s d e b ec s' d' :
  set_wf s -> durable s d ec -> VersionEdit_wf (logged s e) ->
  column_families_ s !! column_family_id_ e = Some b ->
  (forall f, f ∈ added_files_ e -> addable b (file_number_ f) f /\
     cf_added_files_ (cf_collector ec (column_family_id_ e)) !! file_number_ f = None) ->
  LogAndApply io s d e = Some (OK, s', d') ->
  exists ec', durable s' d' ec' /\ set_wf s' /\
    fs_next_file_number_ s' = fs_next_file_number_ s /\
    ec_next_file_number_ ec' = fs_next_file_number_ s /\
    (forall cf n, is_Some (cf_added_files_ (cf_collector ec' cf) !! n) ->
       is_Some (cf_added_files_ (cf_collector ec cf) !! n) \/
       exists f, f ∈ added_files_ e /\ file_number_ f = n).
Proof.
  intros Hwf (k & items & Hk & Hcur & Hitems & Hread & Hcw & Hhas & Hnext & Himg) Hew Hb Hfresh Hlog.
  destruct (LogAndApply_spec io s d e b k Hwf Hk) as [[_ H]|[(_ & Ha & H)|[(_ & _ & Ha & H)|
    (Hacc & _ & _ & cfs' & st' & b' & H & Hwf' & Hb' & Hed & Hoth)]]]; try done.
  { lia. }
  { intros f Hf. by apply Hfresh. }
  { rewrite Hlog in H. discriminate H. }
  { rewrite Hlog in H. injection H as H _ _. by rewrite <- H in Ha. }
  { rewrite Hlog in H. injection H as H _ _. by rewrite <- H in Ha. }
  rewrite Hlog in H. injection H as -> ->.
  destruct (replay_edit (cf_collector ec (column_family_id_ e)) b b' e Hacc Hed) as (Hrep & Hda & Hcol).
  { by apply (cw_deleted _ Hcw). }
  { intros f Hf. destruct (Hfresh f Hf) as ((_ & Ho & _) & ?). done. }
  { intros n. by apply Himg. }
  destruct (AddEdit_spec ec (persistent_edit (logged s e))) as [[_ HA]|[Hbad _]];
    [apply Hcw|apply Hcw|cbn; lia| |by destruct Hbad].
  cbn [column_family_id_ persistent_edit logged SetNextFileNumber next_file_number_ has_next_file_number_] in HA.
  match type of HA with _ = (_, ?x) => exists x end.
  split; [|split; [exact Hwf'|split; [done|split; [done|]]]].
  - exists k, (items ++ [Rec (VersionEdit_EncodeTo (logged s e))]).
    split; [exact Hk|]. split; [exact Hcur|]. cbn [manifests_].
    split; [by rewrite lookup_alter_eq, Hitems|].
    split; [exact (read_loop_record _ _ _ _ Hread Hew HA)|].
    split; [split; [done|done| |]|split; [done|split; [cbn; lia|]]].
    + intros cf n. rewrite cf_collector_insert. case_decide; [apply Hda|apply (cw_deleted _ Hcw)].
    + intros cf n m. rewrite cf_collector_insert. case_decide; [|apply (cw_added _ Hcw)].
      change (collect _ _) with (collect (cf_collector ec (column_family_id_ e)) (persistent_edit e)).
      rewrite collect_persistent_added. intros [Hm|[_ Hm]]%union_Some; [|by apply (cw_added _ Hcw) in Hm].
      apply fmap_Some in Hm as (f & Hf & ->). by apply collect_new_added in Hf as [_ <-].
    + intros cf x n Hx. cbn in Hx. rewrite cf_collector_insert. case_decide as Heq.
      * subst cf. rewrite Hb' in Hx. injection Hx as <-. apply Hrep.
      * rewrite Hoth in Hx by done. by apply Himg.
  - intros cf n. rewrite cf_collector_insert. case_decide as Heq; [subst cf|by left].
    change (collect _ _) with (collect (cf_collector ec (column_family_id_ e)) (persistent_edit e)).
    rewrite collect_persistent_added. intros [m [Hm|[_ Hm]]%union_Some]; [right|left; by eexists].
    apply fmap_Some in Hm as (f & Hf & ->). exists f. by apply collect_new_added in Hf.
Qed.

(** *** The snapshot at the head of a manifest *)

(** Everything that goes to the manifest fits its encoding. *)
Definition encodable (s : BlobFileSet) : Prop :=
  is_u64 (fs_next_file_number_ s) /\
  forall cf b, column_families_ s !! cf = Some b ->
    is_u32 cf /\ forall n m, files_ b !! n = Some m -> file_wf m.

Definition snapshot_files (files : gmap Z BlobFileMeta) : list BlobFileMeta :=
  omap (fun e : Z * BlobFileMeta => if is_obsolete e.2 then None else Some e.2) (map_to_list files).

Lemma snapshot_files_elem files f :
  f ∈ snapshot_files files <-> exists n, live_file files n = Some f.
Proof.
  unfold snapshot_files, live_file. rewrite list_elem_of_omap. split.
  - intros ([n m] & Hin%elem_of_map_to_list & H). exists n. rewrite Hin.
    cbn [mbind option_bind snd] in *. by destruct (is_obsolete m).
  - intros (n & (m & Hm & H)%bind_Some). exists (n, m). split; [by apply elem_of_map_to_list|].
    cbn [snd]. destruct (is_obsolete m); [discriminate H|done].
Qed.

Lemma snapshot_files_nodup files :
  (forall n m, files !! n = Some m -> file_number_ m = n) ->
  NoDup (file_number_ <$> snapshot_files files).
Proof.
  intros Hn. eapply sublist_NoDup; [apply (NoDup_fst_map_to_list files)|].
  unfold snapshot_files.
  assert (forall n m, (n, m) ∈ map_to_list files -> file_number_ m = n) as H.
  { intros n m Hin%elem_of_map_to_list. by apply Hn. }
  revert H. generalize (map_to_list files). clear. induction l as [|[n m] l IH]; intros H; [done|].
  cbn. assert (sublist (file_number_ <$> omap (fun e : Z * BlobFileMeta =>
    if is_obsolete e.2 then None else Some e.2) l) l.*1) as IH'.
  { apply IH. intros. apply H. by apply list_elem_of_further. }
  destruct (is_obsolete m); cbn; [by apply sublist_cons|].
  rewrite (H n m (list_elem_of_here _ _)). by apply sublist_skip.
Qed.

Lemma snapshot_files_map files n :
  (forall n m, files !! n = Some m -> file_number_ m = n) ->
  (list_to_map (by_number <$> snapshot_files files) : gmap Z BlobFileMeta) !! n = live_file files n.
Proof.
  intros Hn. destruct (live_file files n) as [m|] eqn:E.
  - apply elem_of_list_to_map_1.
    + rewrite <- list_fmap_compose. by apply snapshot_files_nodup.
    + assert (file_number_ m = n) as <-.
      { unfold live_file in E. apply bind_Some in E as (x & Hx & E). apply Hn in Hx.
        destruct (is_obsolete x); congruence. }
      apply (list_elem_of_fmap_2 by_number). apply snapshot_files_elem. by eexists.
  - apply not_elem_of_list_to_map_1. rewrite <- list_fmap_compose.
    intros (m & -> & Hm)%list_elem_of_fmap. cbn in E.
    apply snapshot_files_elem in Hm as (n' & Hm). pose proof Hm as Hm'. unfold live_file in Hm'.
    apply bind_Some in Hm' as (x & Hx & H). pose proof (Hn _ _ Hx) as Hxn.
    destruct (is_obsolete x); [done|]. injection H as <-. congruence.
Qed.

Lemma snapshot_edit_wf s cf b :
  encodable s -> column_families_ s !! cf = Some b -> VersionEdit_wf (snapshot_edit (cf, b)).
Proof.
  intros [_ He] Hb. destruct (He _ _ Hb) as [Hcf Hf]. split_and!; cbn.
  - unfold is_u64. lia.
  - done.
  - apply Forall_forall. intros f Hin. apply snapshot_files_elem in Hin as (n & Hn).
    unfold live_file in Hn. apply bind_Some in Hn as (m & Hm & H).
    destruct (is_obsolete m); [done|]. injection H as <-. by eapply Hf.
  - constructor.
Qed.

Lemma write_records_ok io edits : forall i items,
  write_records io i edits = (OK, items) ->
  items = (fun e => Rec (VersionEdit_EncodeTo e)) <$> edits.
Proof.
  induction edits as [|e edits IH]; intros i items H; cbn in H; [by injection H as <-|].
  destruct (io_add_record io i) eqn:E; cbn in H; try discriminate H.
  destruct (write_records io (S i) edits) as [st l] eqn:E2. injection H as -> <-.
  cbn. f_equal. by eapply IH.
Qed.

(** *** Manifests that are written at once *)

(** The records of a manifest that is written at once. *)
Definition records (edits : list VersionEdit) : list LogItem :=
  (fun e => Rec (VersionEdit_EncodeTo e)) <$> edits.

(** Edits that add the files [kept] of each column family and do nothing else. *)
Record adds_files (s : BlobFileSet) (edit_of : Z * BlobStorage -> VersionEdit)
    (kept : BlobStorage -> Z -> option BlobFileMeta) : Prop := {
  af_edit : forall cf b, column_families_ s !! cf = Some b ->
    VersionEdit_wf (edit_of (cf, b)) /\ column_family_id_ (edit_of (cf, b)) = cf /\
    has_next_file_number_ (edit_of (cf, b)) = false /\ deleted_files_ (edit_of (cf, b)) = [] /\
    NoDup (file_number_ <$> added_files_ (edit_of (cf, b)));
  af_files : forall cf b n, column_families_ s !! cf = Some b ->
    (list_to_map (by_number <$> added_files_ (edit_of (cf, b))) : gmap Z BlobFileMeta) !! n = kept b n }.

Lemma adds_collect s edit_of kept cf b n :
  adds_files s edit_of kept -> column_families_ s !! cf = Some b ->
  let c := collect CFEditCollector_new (persistent_edit (edit_of (cf, b))) in
  cf_added_files_ c !! n = persistent <$> kept b n /\ cf_deleted_files_ c !! n = None.
Proof.
  intros Haf Hb c. destruct (af_edit _ _ _ Haf _ _ Hb) as (_ & _ & _ & Hdel & _).
  unfold c. rewrite collect_persistent_added, collect_persistent_deleted, collect_new.
  cbn [cf_added_files_ cf_deleted_files_ CFEditCollector_new].
  rewrite Hdel, (af_files _ _ _ Haf _ _ _ Hb). cbn. rewrite lookup_empty. cbn. by destruct (kept b n).
Qed.

Lemma adds_kept s edit_of kept cf b n m :
  adds_files s edit_of kept -> column_families_ s !! cf = Some b -> kept b n = Some m -> file_number_ m = n.
Proof.
  intros Haf Hb. rewrite <- (af_files _ _ _ Haf _ _ _ Hb). intros H%elem_of_list_to_map_2.
  by apply list_elem_of_fmap in H as (f & [= -> ->] & _).
Qed.

(** Reading the records of the column families. *)
Lemma read_adds_cfs s edit_of kept l : forall ec,
  adds_files s edit_of kept -> NoDup l.*1 ->
  (forall cf b, (cf, b) ∈ l -> column_families_ s !! cf = Some b /\ cf_collector ec cf = CFEditCollector_new) ->
  status_ ec = OK -> sealed_ ec = false ->
  exists cols, read_loop (records (edit_of <$> l)) OK ec
      = Some (Ret (OK, mkCollector OK false (ec_has_next_file_number_ ec) (ec_next_file_number_ ec) cols)) /\
    forall cf, default CFEditCollector_new (cols !! cf) =
      match (list_to_map l : gmap Z BlobStorage) !! cf with
      | Some b => collect CFEditCollector_new (persistent_edit (edit_of (cf, b)))
      | None => cf_collector ec cf
      end.
Proof.
  induction l as [|[cf b] l IH]; intros ec Haf Hnd Hl Hst Hse.
  { exists (ec_column_families_ ec). split; [|done].
    cbn. destruct ec; cbn in *. by subst. }
  cbn in Hnd. apply NoDup_cons in Hnd as [Hn Hnd].
  destruct (Hl cf b (list_elem_of_here _ _)) as [Hb Hec].
  destruct (af_edit _ _ _ Haf _ _ Hb) as (Hwf & Hcf & Hhas & Hdel & Hnum).
  cbn [fmap list_fmap read_loop records ok negb].
  rewrite VersionEdit_decode_encode by done. cbn [mbind option_bind].
  destruct (AddEdit_spec ec (persistent_edit (edit_of (cf, b))) Hst Hse) as [[_ ->]|[Hbad _]].
  { cbn [persistent_edit has_next_file_number_]. by rewrite Hhas. }
  2:{ exfalso. apply Hbad. cbn [column_family_id_ persistent_edit]. rewrite Hcf.
      fold (cf_collector ec cf). rewrite Hec. split_and!; cbn.
      - by rewrite persistent_numbers.
      - rewrite Hdel. constructor.
      - intros f _. apply (lookup_empty (M := gmap Z)).
      - rewrite Hdel. intros f Hf. by apply elem_of_nil in Hf. }
  cbn [ok negb column_family_id_ persistent_edit has_next_file_number_ next_file_number_].
  rewrite Hhas, Hcf. cbn [orb]. fold (cf_collector ec cf). rewrite Hec.
  edestruct (IH (mkCollector OK false (ec_has_next_file_number_ ec) (ec_next_file_number_ ec)
    (<[cf := collect CFEditCollector_new (persistent_edit (edit_of (cf, b)))]> (ec_column_families_ ec))))
    as (cols & Hr & Hcols); [done|done| |done|done|].
  { intros cf' b' Hin. assert (cf' <> cf) as Hne.
    { intros ->. apply Hn. by apply (list_elem_of_fmap_2 fst) in Hin. }
    rewrite cf_collector_insert, decide_False by done. apply Hl. by apply list_elem_of_further. }
  exists cols. split; [exact Hr|]. intros cf'. rewrite Hcols, cf_collector_insert. cbn.
  destruct (decide (cf' = cf)) as [->|Hne].
  - by rewrite lookup_insert_eq, not_elem_of_list_to_map_1, decide_True by done.
  - rewrite lookup_insert_ne by done. by rewrite (decide_False (P := cf = cf')) by done.
Qed.

(** Reading such a manifest gives a collector that holds the kept files. *)
Lemma read_adds s edit_of kept :
  is_u64 (fs_next_file_number_ s) -> adds_files s edit_of kept ->
  exists ec, read_loop (records (SetNextFileNumber VersionEdit_default (fs_next_file_number_ s) ::
      (edit_of <$> map_to_list (column_families_ s)))) OK EditCollector_new = Some (Ret (OK, ec)) /\
    collector_wf ec /\ ec_has_next_file_number_ ec = true /\ ec_next_file_number_ ec = fs_next_file_number_ s /\
    (forall cf b n, column_families_ s !! cf = Some b ->
       replayed (cf_collector ec cf) n = persistent <$> kept b n) /\
    (forall cf n, is_Some (cf_added_files_ (cf_collector ec cf) !! n) ->
       exists b, column_families_ s !! cf = Some b /\ is_Some (kept b n)).
Proof.
  intros Hn Haf.
  set (ec0 := mkCollector OK false true (fs_next_file_number_ s) {[0 := CFEditCollector_new]}).
  assert (forall cf, cf_collector ec0 cf = CFEditCollector_new) as Hec0.
  { intros cf. unfold cf_collector, ec0. cbn. destruct (decide (cf = 0)) as [->|Hne].
    - by rewrite lookup_singleton_eq. - by rewrite lookup_singleton_ne. }
  destruct (read_adds_cfs s edit_of kept (map_to_list (column_families_ s)) ec0)
    as (cols & Hr & Hcols); [done|apply NoDup_fst_map_to_list| |done|done|].
  { intros cf b Hin%elem_of_map_to_list. by split. }
  rewrite list_to_map_to_list in Hcols.
  set (ec := mkCollector OK false true (fs_next_file_number_ s) cols).
  assert (forall cf b n, column_families_ s !! cf = Some b ->
    cf_added_files_ (cf_collector ec cf) !! n = persistent <$> kept b n /\
    cf_deleted_files_ (cf_collector ec cf) !! n = None) as Hcol.
  { intros cf b n Hb. unfold cf_collector, ec. cbn [ec_column_families_]. rewrite Hcols, Hb.
    by apply (adds_collect s). }
  assert (forall cf, column_families_ s !! cf = None -> cf_collector ec cf = CFEditCollector_new) as Hnone.
  { intros cf Hb. unfold cf_collector at 1, ec. cbn [ec_column_families_]. by rewrite Hcols, Hb. }
  exists ec. split; [|split; [split; [done|done| |]|split; [done|split; [done|split]]]].
  - cbn [records fmap list_fmap read_loop ok negb].
    rewrite VersionEdit_decode_encode by (split_and!; cbn; try done; constructor). cbn [mbind option_bind].
    assert (AddEdit EditCollector_new (persistent_edit
      (SetNextFileNumber VersionEdit_default (fs_next_file_number_ s))) = (OK, ec0)) as ->; [|exact Hr].
    unfold AddEdit. cbn -[Z.ltb]. rewrite (proj2 (Z.ltb_ge _ 0)) by apply Hn. done.
  - intros cf n. destruct (column_families_ s !! cf) as [b|] eqn:Hb.
    + destruct (Hcol cf b n Hb) as [_ ->]. by intros [? ?].
    + rewrite (Hnone _ Hb). cbn. rewrite lookup_empty. by intros [? ?].
  - intros cf n m. destruct (column_families_ s !! cf) as [b|] eqn:Hb.
    + destruct (Hcol cf b n Hb) as [-> _]. intros (x & Hx & ->)%fmap_Some.
      split; [|done]. exact (adds_kept _ _ _ _ _ _ _ Haf Hb Hx).
    + rewrite (Hnone _ Hb). cbn. by rewrite lookup_empty.
  - intros cf b n Hb. unfold replayed. destruct (Hcol cf b n Hb) as [-> ->]. by destruct (kept b n).
  - intros cf n. destruct (column_families_ s !! cf) as [b|] eqn:Hb.
    + destruct (Hcol cf b n Hb) as [-> _]. rewrite fmap_is_Some. intros Hk. by exists b.
    + rewrite (Hnone _ Hb). cbn. rewrite lookup_empty. by intros [? ?].
Qed.

Lemma snapshot_adds s :
  set_wf s -> encodable s -> adds_files s snapshot_edit (fun b n => live_file (files_ b) n).
Proof.
  intros Hwf Henc. split.
  - intros cf b Hb. destruct (Hwf _ _ Hb) as (_ & Hbw & _). split; [by eapply snapshot_edit_wf|].
    split_and!; [done|done|done|]. apply snapshot_files_nodup, (wf_number _ Hbw).
  - intros cf b n Hb. destruct (Hwf _ _ Hb) as (_ & Hbw & _). apply snapshot_files_map, (wf_number _ Hbw).
Qed.

(** A manifest that was opened holds the image of the memory. *)
Lemma OpenManifest_durable io s d k s' d' :
  set_wf s -> encodable s -> OpenManifest io s d k = (OK, s', d') ->
  exists ec, durable s' d' ec /\ set_wf s' /\
    column_families_ s' = column_families_ s /\ fs_stats_ s' = fs_stats_ s /\
    fs_next_file_number_ s' = fs_next_file_number_ s /\
    ec_next_file_number_ ec = fs_next_file_number_ s /\
    (forall cf n, is_Some (cf_added_files_ (cf_collector ec cf) !! n) ->
       exists b, column_families_ s !! cf = Some b /\ is_Some (files_ b !! n)) /\
    manifest_ s' = Some k /\ blobs_ d' = blobs_ d.
Proof.
  intros Hwf Henc H. unfold OpenManifest in H.
  destruct (io_new_file io) eqn:E1; cbn [ok negb] in H; try discriminate H.
  unfold WriteSnapshot in H. destruct (write_records io 0 (snapshot_edits s)) as [st items] eqn:Ew.
  destruct st; cbn [ok] in H; try discriminate H.
  destruct (io_sync io) eqn:E2; cbn [ok] in H; try discriminate H.
  destruct (io_set_current io) eqn:E3; cbn [ok] in H; try discriminate H.
  injection H as <- <-. apply write_records_ok in Ew.
  destruct (read_adds s _ _ (proj1 Henc) (snapshot_adds s Hwf Henc)) as (ec & Hr & Hcw & Hhas & Hnx & Himg & Hused).
  exists ec. split; [|split; [exact Hwf|split_and!; try done]].
  - exists k, items. cbn [manifest_ current_ manifests_ fs_next_file_number_].
    rewrite lookup_insert_eq, Ew, Hnx. split_and!; try done; try lia. apply Henc.
  - intros cf n (b & Hb & [m Hm])%Hused. exists b. split; [done|].
    unfold live_file in Hm. apply bind_Some in Hm as (z & Hz & _). by exists z.
Qed.

(** *** Opening the column families *)

Definition fresh_set (s : BlobFileSet) : Prop :=
  set_wf s /\ forall cf b, column_families_ s !! cf = Some b -> exists o, b = BlobStorage_new o cf.

Lemma fresh_stats st cf o : stats_ok (Some (InitializeCF st cf)) (BlobStorage_new o cf).
Proof.
  intros t g v Ht Hv. cbn [cf_id_ BlobStorage_new] in Hv.
  rewrite InitializeCF_counter, decide_True in Hv by done.
  apply Some_inj in Hv. subst v. unfold BlobStorage_new. cbn [files_]. by rewrite sum_files_empty.
Qed.

Lemma AddColumnFamily_fresh s x : fresh_set s -> fresh_set (AddColumnFamily s x).
Proof.
  intros [Hwf Hnew]. destruct x as [cf o].
  assert (forall cf' b, column_families_ (AddColumnFamily s (cf, o)) !! cf' = Some b ->
    exists o', b = BlobStorage_new o' cf') as H.
  { intros cf' b. cbn. unfold insert_new. destruct (column_families_ s !! cf); [apply Hnew|].
    intros [[<- <-]|[_ H]]%lookup_insert_Some; [by exists o|by apply Hnew]. }
  split; [|done]. intros cf' b Hb. destruct (H _ _ Hb) as (o' & ->).
  split; [done|]. split; [apply BlobStorage_new_wf|]. cbn [fs_stats_ AddColumnFamily set_column_families].
  destruct (fs_stats_ s) as [st|] eqn:Est; cbn; [|by intros t g v _ Hv].
  destruct (decide (cf' = cf)) as [->|Hne]; [apply fresh_stats|].
  cbn in Hb. unfold insert_new in Hb.
  assert (column_families_ s !! cf' = Some (BlobStorage_new o' cf')) as Hb'.
  { destruct (column_families_ s !! cf); [done|]. by rewrite lookup_insert_ne in Hb. }
  destruct (Hwf _ _ Hb') as (_ & _ & Hst). rewrite Est in Hst. intros t g v Ht Hv.
  change (cf_counter (Some (InitializeCF st cf)) cf' t = Some v) in Hv. rewrite InitializeCF_counter in Hv.
  rewrite decide_False in Hv by done. by eapply Hst.
Qed.

Lemma AddColumnFamilies_lookup l : forall s cf,
  NoDup l.*1 -> (forall x, x ∈ l -> column_families_ s !! x.1 = None) ->
  column_families_ (foldl AddColumnFamily s l) !! cf =
    match (list_to_map l : gmap Z TitanCFOptions) !! cf with
    | Some o => Some (BlobStorage_new o cf)
    | None => column_families_ s !! cf
    end.
Proof.
  induction l as [|[cf' o] l IH]; intros s cf Hnd Hl; [done|].
  cbn in Hnd. apply NoDup_cons in Hnd as [Hn Hnd].
  pose proof (Hl (cf', o) (list_elem_of_here _ _)) as Hnone. cbn in Hnone. cbn [foldl].
  assert (column_families_ (AddColumnFamily s (cf', o)) = <[cf' := BlobStorage_new o cf']> (column_families_ s)) as Heq.
  { cbn. unfold insert_new. by rewrite Hnone. }
  rewrite IH; [|done|].
  - rewrite Heq. cbn. destruct (decide (cf = cf')) as [->|Hne].
    + by rewrite !lookup_insert_eq, not_elem_of_list_to_map_1.
    + by rewrite !lookup_insert_ne.
  - intros [cf2 o2] Hin. rewrite Heq. cbn. rewrite lookup_insert_ne.
    + apply (Hl (cf2, o2)). by apply list_elem_of_further.
    + intros ->. apply Hn. by apply (list_elem_of_fmap_2 fst) in Hin.
Qed.

Lemma open_fresh stats g cfs :
  let s0 := AddColumnFamilies (BlobFileSet_new stats g) cfs in
  fresh_set s0 /\ manifest_ s0 = None /\ fs_next_file_number_ s0 = 1 /\
  forall cf, column_families_ s0 !! cf = (fun o => BlobStorage_new o cf) <$> cfs !! cf.
Proof.
  unfold AddColumnFamilies. split; [|split; [|split]].
  - assert (forall l s, fresh_set s -> fresh_set (foldl AddColumnFamily s l)) as H.
    { induction l as [|x l IH]; intros s Hs; [done|]. cbn. by apply IH, AddColumnFamily_fresh. }
    apply H. split; by intros cf b Hb.
  - assert (forall l s, manifest_ (foldl AddColumnFamily s l) = manifest_ s) as H.
    { induction l as [|x l IH]; intros s; [done|]. cbn. by rewrite IH. }
    by rewrite H.
  - assert (forall l s, fs_next_file_number_ (foldl AddColumnFamily s l) = fs_next_file_number_ s) as H.
    { induction l as [|x l IH]; intros s; [done|]. cbn. by rewrite IH. }
    by rewrite H.
  - intros cf. rewrite AddColumnFamilies_lookup.
    + rewrite list_to_map_to_list. by destruct (cfs !! cf).
    + apply NoDup_fst_map_to_list.
    + intros x _. apply (lookup_empty (M := gmap Z)).
Qed.

(** *** Recovery *)

Lemma purge_cfs_nothing l : forall s,
  (forall cf b, column_families_ s !! cf = Some b -> obsolete_files_ b = []) -> purge_cfs s l = Some s.
Proof.
  induction l as [|cf l IH]; intros s Hs; [done|]. cbn [purge_cfs].
  destruct (column_families_ s !! cf) as [b|] eqn:Hb; [|by apply IH].
  unfold BlobStorage.GetObsoleteFiles. rewrite (Hs _ _ Hb). cbn [obsolete_loop mbind option_bind].
  replace (set_obsolete_files b []) with b.
  - rewrite insert_id by done. destruct s. by apply IH.
  - specialize (Hs _ _ Hb). destruct b. cbn in *. by subst.
Qed.

Lemma write_records_io_ok edits : forall i, exists items, write_records io_ok i edits = (OK, items).
Proof.
  induction edits as [|e edits IH]; intros i; [by eexists|].
  destruct (IH (S i)) as [items H]. cbn [write_records io_ok io_add_record ok negb]. cbn in H. rewrite H. by eexists.
Qed.

Lemma OpenManifest_io_ok s d k :
  exists items, OpenManifest io_ok s d k =
    (OK, mkSet (fs_stats_ s) (obsolete_manifests_ s) (obsolete_columns_ s) (column_families_ s)
           (Some k) (fs_next_file_number_ s) k,
     mkDisk (Some (mkCurrent k true)) (<[k := items]> (manifests_ d)) (blobs_ d)).
Proof.
  unfold OpenManifest, WriteSnapshot. destruct (write_records_io_ok (snapshot_edits s) 0) as [items ->].
  by exists items.
Qed.

(** Sealing and applying a replayed manifest in freshly opened storages. *)
Lemma apply_replayed ec s s0 (cfs : gmap Z TitanCFOptions) :
  collector_wf ec -> image ec s -> fresh_set s0 ->
  (forall cf, column_families_ s0 !! cf = (fun o => BlobStorage_new o cf) <$> cfs !! cf) ->
  (forall cf o, cfs !! cf = Some o -> exists b, column_families_ s !! cf = Some b /\
     forall n m, live_file (files_ b) n = Some m -> 0 <= file_level_ m < num_levels o) ->
  exists cfs' st', Seal ec (column_families_ s0) = Some (OK,
      mkCollector OK true (ec_has_next_file_number_ ec) (ec_next_file_number_ ec) (ec_column_families_ ec)) /\
    apply_cfs (column_families_ s0) (fs_stats_ s0) (map_to_list (ec_column_families_ ec)) = Some (OK, cfs', st') /\
    cfs_wf st' cfs' /\
    (forall cf, is_Some (cfs' !! cf) <-> is_Some (cfs !! cf)) /\
    forall cf b b', column_families_ s !! cf = Some b -> cfs' !! cf = Some b' ->
      obsolete_files_ b' = [] /\ destroyed_ b' = false /\
      forall n, files_ b' !! n = persistent <$> live_file (files_ b) n.
Proof.
  intros Hcw Himg [Hwf Hnew] Hcf0 Hcfs.
  assert (forall cf c b0, ec_column_families_ ec !! cf = Some c -> column_families_ s0 !! cf = Some b0 ->
    sealable c b0 /\ forall n m, cf_added_files_ c !! n = Some m -> cf_deleted_files_ c !! n = None -> addable b0 n m)
    as Hok.
  { intros cf c b0 Hc Hb0. assert (cf_collector ec cf = c) as Hcc by (unfold cf_collector; by rewrite Hc).
    rewrite Hcf0 in Hb0. apply fmap_Some in Hb0 as (o & Ho & ->). split; [split|].
    - intros n _. apply (lookup_empty (M := gmap Z)).
    - intros n Hd Ha. exfalso. rewrite <- Hcc in Hd, Ha. apply (cw_deleted _ Hcw) in Hd. rewrite Ha in Hd. by destruct Hd.
    - intros n m Ha Hd. rewrite <- Hcc in Ha, Hd. destruct (cw_added _ Hcw _ _ _ Ha) as [Hnum Hobs].
      split; [done|]. split; [done|]. destruct (Hcfs _ _ Ho) as (b & Hb & Hlev).
      pose proof (Himg _ _ n Hb) as Hi. unfold replayed in Hi. rewrite Ha, Hd in Hi. symmetry in Hi.
      apply fmap_Some in Hi as (x & Hx & ->). apply Hlev in Hx. cbn. unfold zlen. rewrite length_replicate. lia. }
  destruct (seal_cfs_spec (column_families_ s0) (map_to_list (ec_column_families_ ec)) (fs_stats_ s0) Hwf)
    as [[Hseal _]|[_ (cf & c & b & Hin%elem_of_map_to_list & Hb & Hbad)]].
  2:{ exfalso. apply Hbad. by apply (Hok cf c b). }
  destruct (apply_cfs_spec (map_to_list (ec_column_families_ ec)) (column_families_ s0) (fs_stats_ s0) Hwf)
    as (cfs' & st' & Happ & Hwf' & Hres).
  { apply NoDup_fst_map_to_list. }
  { intros cf c b Hin%elem_of_map_to_list. by apply Hok. }
  rewrite list_to_map_to_list in Hres.
  exists cfs', st'. split; [|split; [done|split; [done|split]]].
  - unfold Seal. rewrite (cw_status _ Hcw). cbn [ok negb]. rewrite Hseal. done.
  - intros cf. specialize (Hres cf). rewrite Hcf0 in Hres.
    destruct (ec_column_families_ ec !! cf), (cfs !! cf); cbn in Hres; try (rewrite Hres; by split; intros [? ?]).
    destruct Hres as (b' & -> & _). by split; eexists.
  - intros cf b b' Hb Hb'. specialize (Hres cf). rewrite Hcf0 in Hres.
    destruct (cfs !! cf) as [o|] eqn:Ho; cbn in Hres.
    2:{ exfalso. destruct (ec_column_families_ ec !! cf); congruence. }
    pose proof (fun n => Himg _ _ n Hb) as Hi.
    destruct (ec_column_families_ ec !! cf) as [c|] eqn:Hc.
    + destruct Hres as (b'' & Hb'' & Hf & Hob & _ & Hd & _). rewrite Hb' in Hb''. injection Hb'' as <-.
      assert (cf_collector ec cf = c) as Hcc by (unfold cf_collector; by rewrite Hc).
      rewrite Hcc in Hi. split; [|split; [done|]].
      * destruct (obsolete_files_ b') as [|[n q] l] eqn:Eo; [done|]. exfalso.
        destruct (proj1 (Hob n q) (list_elem_of_here _ _)) as [Hx|[Hx Ha]]; [by apply elem_of_nil in Hx|].
        rewrite <- Hcc in Hx, Ha. pose proof (cw_deleted _ Hcw cf n (mk_is_Some _ _ Hx)) as H.
        rewrite Ha in H. by destruct H.
      * intros n. rewrite Hf, <- Hi. unfold edited, replayed. cbn [files_ BlobStorage_new]. rewrite lookup_empty.
        by destruct (cf_added_files_ c !! n), (cf_deleted_files_ c !! n).
    + rewrite Hb' in Hres. injection Hres as ->. split; [done|]. split; [done|]. intros n.
      rewrite <- Hi. unfold replayed, cf_collector. rewrite Hc. cbn. by rewrite lookup_empty.
Qed.
End Proofs.
