(* ===== verification/BlobFileSetSpec.v ===== *)
(** * BlobFileSetSpec: crash consistency of the set of blob files

    The properties of [BlobFileSet]: every branch of [LogAndApply], the
    correspondence of manifest and memory in every reachable state, and what a
    restart recovers. *)
From S2P Require Import Prelude Coding BitMap BlobFileMeta TitanStats Options VersionEdit BlobStorage BlobStorageProofs EditCollector EditCollectorProofs BlobFileSet BlobFileSetProofs.

Local Open Scope Z_scope.

Section World.
Context `{C : Comparator} `{L : !ComparatorLaws C}.

(** ** Histories

    A state of the set of blob files, the disk, and the file numbers that were
    handed out for files that no edit has added yet. *)
Record world : Type := mkWorld {
  w_set : BlobFileSet;
  w_disk : Disk;
  w_pending : gset Z }.

Definition added_numbers (e : VersionEdit) : gset Z := list_to_set (file_number_ <$> added_files_ e).

(** The options given at a restart fit the files: the column families exist,
    and they have the levels of their files. *)
Definition reopens (s : BlobFileSet) (cfs : gmap Z TitanCFOptions) : Prop :=
  forall cf o, cfs !! cf = Some o -> exists b, column_families_ s !! cf = Some b /\
    forall n m, live_file (files_ b) n = Some m -> 0 <= file_level_ m < num_levels o.

(** What happens to the set of blob files besides purges and restarts. A write
    that fails at the synchronisation of the manifest is left out: the record may
    or may not be on disk then. *)
Inductive set_op : world -> world -> Prop :=
  | step_alloc s d p :
      fs_next_file_number_ s < 2 ^ 64 - 2 ->
      set_op (mkWorld s d p)
        (mkWorld (NewFileNumber s).2 d ({[(NewFileNumber s).1]} ∪ p))
  | step_log io s d p e b st s' d' :
      column_families_ s !! column_family_id_ e = Some b ->
      VersionEdit_wf (logged s e) ->
      (forall f, f ∈ added_files_ e -> file_number_ f ∈ p /\ addable b (file_number_ f) f) ->
      io_sync io = OK ->
      LogAndApply io s d e = Some (st, s', d') ->
      set_op (mkWorld s d p) (mkWorld s' d' (p ∖ added_numbers e))
  | step_file s d p cf b n m m' :
      column_families_ s !! cf = Some b -> files_ b !! n = Some m ->
      same_file m m' -> persistent m' = persistent m ->
      set_op (mkWorld s d p)
        (mkWorld (set_column_families s (<[cf := update_file b n m']> (column_families_ s)) (fs_stats_ s)) d p)
  | step_destroy_cf s d p cf :
      set_op (mkWorld s d p) (mkWorld (MaybeDestroyColumnFamily s cf).2 d p)
  | step_drop_cf s d p cf :
      set_op (mkWorld s d p) (mkWorld (set_obsolete_columns s ({[cf]} ∪ obsolete_columns_ s)) d p).

Inductive set_step : world -> world -> Prop :=
  | step_op w w' : set_op w w' -> set_step w w'
  | step_purge_obsolete s d p oldest names s' :
      GetObsoleteFiles s oldest = Some (names, s') -> set_step (mkWorld s d p) (mkWorld s' d p)
  | step_restart io s d p stats garbage cfs s' d' :
      reopens s cfs -> fs_next_file_number_ s < 2 ^ 64 - 2 ->
      Open io (BlobFileSet_new stats garbage) d cfs = Some (OK, s', d') ->
      set_step (mkWorld s d p) (mkWorld s' d' ∅).

(** The start: a database opened on a disk without a manifest. *)
Definition initial (w : world) : Prop :=
  exists io stats garbage d cfs, current_ d = None /\ (forall cf, is_Some (cfs !! cf) -> is_u32 cf) /\
    Open io (BlobFileSet_new stats garbage) d cfs = Some (OK, w_set w, w_disk w) /\ w_pending w = ∅.

(** ** The invariant *)

Definition world_ok (w : world) : Prop :=
  set_wf (w_set w) /\ encodable (w_set w) /\
  exists ec, durable (w_set w) (w_disk w) ec /\
    (forall cf n, is_Some (cf_added_files_ (cf_collector ec cf) !! n) ->
       n < ec_next_file_number_ ec /\ n ∉ w_pending w) /\
    (forall n, n ∈ w_pending w -> n < fs_next_file_number_ (w_set w)).

(** A change that leaves the persistent part of the files that are not obsolete
    alone. *)
Definition shrinks (s s' : BlobFileSet) : Prop :=
  manifest_ s' = manifest_ s /\ fs_next_file_number_ s' = fs_next_file_number_ s /\
  forall cf b', column_families_ s' !! cf = Some b' ->
    exists b, column_families_ s !! cf = Some b /\ forall n,
      persistent <$> live_file (files_ b') n = persistent <$> live_file (files_ b) n /\
      forall m', files_ b' !! n = Some m' -> exists m, files_ b !! n = Some m /\ persistent m' = persistent m.

Lemma file_wf_persistent m m' : persistent m' = persistent m -> file_wf m -> file_wf m'.
Proof. intros H Hm. change (file_wf (persistent m')). rewrite H. exact Hm. Qed.

Lemma shrinks_ok s s' d p :
  world_ok (mkWorld s d p) -> set_wf s' -> shrinks s s' -> world_ok (mkWorld s' d p).
Proof.
  intros (Hwf & [Hn Henc] & ec & (k & items & Hk & Hcur & Hit & Hread & Hcw & Hhas & Hnx & Himg) & Hused & Hpend)
    Hwf' (Hm & Hnext & Hcf). cbn in *.
  split; [done|]. split.
  - split; cbn; [by rewrite Hnext|]. intros cf b' Hb'. destruct (Hcf _ _ Hb') as (b & Hb & Hf).
    destruct (Henc _ _ Hb) as [Hid Hfw]. split; [done|]. intros n m' Hm'.
    destruct (Hf n) as [_ Hp]. destruct (Hp _ Hm') as (m & Hmm & Hpp).
    eapply file_wf_persistent; [exact Hpp|]. by eapply Hfw.
  - exists ec. cbn. rewrite Hnext. split; [|done].
    exists k, items. rewrite Hm, Hnext. split_and!; try done; try lia.
    intros cf b' n Hb'. destruct (Hcf _ _ Hb') as (b & Hb & Hf). destruct (Hf n) as [-> _]. by apply Himg.
Qed.

Lemma shrinks_refl s s' :
  manifest_ s' = manifest_ s -> fs_next_file_number_ s' = fs_next_file_number_ s ->
  (forall cf b', column_families_ s' !! cf = Some b' ->
     exists b, column_families_ s !! cf = Some b /\ files_ b' = files_ b) -> shrinks s s'.
Proof.
  intros H1 H2 H3. split; [done|]. split; [done|]. intros cf b' Hb'.
  destruct (H3 _ _ Hb') as (b & Hb & Hf). exists b. split; [done|]. intros n. rewrite Hf.
  split; [done|]. intros m' Hm'. by exists m'.
Qed.

Lemma shrinks_trans s1 s2 s3 : shrinks s1 s2 -> shrinks s2 s3 -> shrinks s1 s3.
Proof.
  intros (H1 & H2 & H3) (H4 & H5 & H6). split; [congruence|]. split; [congruence|].
  intros cf b3 Hb3. destruct (H6 _ _ Hb3) as (b2 & Hb2 & H7). destruct (H3 _ _ Hb2) as (b1 & Hb1 & H8).
  exists b1. split; [done|]. intros n. destruct (H7 n) as [H9 H10], (H8 n) as [H11 H12]. split; [congruence|].
  intros m3 Hm3. destruct (H10 _ Hm3) as (m2 & Hm2 & ?). destruct (H12 _ Hm2) as (m1 & Hm1 & ?).
  exists m1. split; [done|congruence].
Qed.

(** *** Purging *)

Lemma RemoveFile_other b st n r b' st' :
  RemoveFile b st n = (r, b', st') -> cf_id_ b' = cf_id_ b /\ other_counters (cf_id_ b) st st'.
Proof.
  unfold RemoveFile. destruct (files_ b !! n) as [m|]; intros H; injection H as <- <- <-; [|done].
  split; [done|]. intros cf' t Hne.
  rewrite !SubStats_counter, !decide_False by (intros [? _]; congruence). done.
Qed.

Lemma obsolete_loop_other todo : forall b st kept oldest names names' b' st',
  obsolete_loop b st kept todo oldest names = Some (names', b', st') ->
  other_counters (cf_id_ b) st st'.
Proof.
  induction todo as [|[n q] todo IH]; intros b st kept oldest names names' b' st' H; cbn in H.
  - by injection H as _ _ <-.
  - destruct (oldest >? q); [|by eapply IH].
    destruct (RemoveFile b st n) as [[r b1] st1] eqn:E. apply RemoveFile_other in E as [Hid Ho].
    apply bind_Some in H as ([] & _ & H). apply IH in H. rewrite Hid in H.
    by eapply other_counters_trans.
Qed.

(** The purge of one storage. *)
Lemma obsolete_cf_wf s cf b oldest names names1 b1 st1 :
  set_wf s -> column_families_ s !! cf = Some b ->
  BlobStorage.GetObsoleteFiles b (fs_stats_ s) names oldest = Some (names1, b1, st1) ->
  let s1 := set_column_families s (if MaybeRemove b1 then delete cf (column_families_ s)
              else <[cf := b1]> (column_families_ s)) st1 in
  set_wf s1 /\
  (forall cf' b', column_families_ s1 !! cf' = Some b' ->
     cf' = cf /\ b' = b1 \/ column_families_ s !! cf' = Some b') /\
  names1 = names ++ (expired oldest (obsolete_files_ b)).*1 /\
  obsolete_files_ b1 = unexpired oldest (obsolete_files_ b) /\
  destroyed_ b1 = destroyed_ b /\
  (forall n, files_ b1 !! n = if decide (n ∈ (expired oldest (obsolete_files_ b)).*1) then None else files_ b !! n).
Proof.
  intros Hwf Hb Hg s1. destruct (Hwf _ _ Hb) as (Hid & Hbw & Hst).
  destruct (GetObsoleteFiles_wf b (fs_stats_ s) oldest names Hbw Hst)
    as (b2 & st2 & Hg' & Hbw' & Hst' & Hob & Hf & Hid' & Hlv & Hde & _).
  rewrite Hg in Hg'. injection Hg' as -> <- <-.
  pose proof (obsolete_loop_other _ _ _ _ _ _ _ _ _ Hg) as Hoth. rewrite Hid in Hoth.
  assert (forall cf' b', column_families_ s1 !! cf' = Some b' ->
     cf' = cf /\ b' = b1 \/ cf' <> cf /\ column_families_ s !! cf' = Some b') as Hcfs.
  { intros cf' b' Hb'. cbn in Hb'. destruct (MaybeRemove b1).
    - apply lookup_delete_Some in Hb' as [? ?]. right. by split.
    - apply lookup_insert_Some in Hb' as [[<- <-]|[? ?]]; [by left|right; by split]. }
  split; [|split; [|done]].
  - intros cf' b' [[-> ->]|[Hne Hb2]]%Hcfs.
    + split; [by rewrite Hid'|done].
    + destruct (Hwf _ _ Hb2) as (Hi & Hw & Hs). split; [done|]. split; [done|].
      eapply stats_ok_other; [exact Hoth| |exact Hs]. congruence.
  - intros cf' b' [?|[_ ?]]%Hcfs; [by left|by right].
Qed.

Lemma obsolete_cfs_shrinks l : forall s oldest names names' s',
  set_wf s -> obsolete_cfs s l oldest names = Some (names', s') -> set_wf s' /\ shrinks s s'.
Proof.
  induction l as [|cf l IH]; intros s oldest names names' s' Hwf H; cbn in H.
  { injection H as _ <-. split; [done|]. apply shrinks_refl; [done|done|]. intros cf b' Hb'. by exists b'. }
  destruct (column_families_ s !! cf) as [b|] eqn:Hb; [|by eapply IH].
  case_bool_decide; [by eapply IH|].
  apply bind_Some in H as ([[names1 b1] st1] & Hg & H).
  destruct (obsolete_cf_wf _ _ _ _ _ _ _ _ Hwf Hb Hg) as (Hwf1 & Hcfs & _ & _ & _ & Hf).
  destruct (Hwf _ _ Hb) as (_ & Hbw & _).
  destruct (IH _ _ _ _ _ Hwf1 H) as [Hwf' Hsh]. split; [done|].
  eapply shrinks_trans; [|exact Hsh]. split; [done|]. split; [done|]. intros cf' b' Hb'.
  destruct (Hcfs _ _ Hb') as [[-> ->]|Hb2].
  - exists b. split; [done|]. intros n. unfold live_file. rewrite Hf. case_decide as Hin.
    + split; [|done]. cbn.
      assert (n ∈ (obsolete_files_ b).*1) as Hn.
      { eapply elem_of_sublist; [exact Hin|]. apply fmap_sublist, sublist_filter. }
      apply (wf_obsolete _ Hbw) in Hn as (m & -> & Ho). cbn. by rewrite Ho.
    + split; [done|]. intros m' Hm'. by exists m'.
  - exists b'. split; [done|]. intros n. split; [done|]. intros m' Hm'. by exists m'.
Qed.

(** *** The steps *)

Lemma world_ok_set s d p :
  world_ok (mkWorld s d p) -> forall s', manifest_ s' = manifest_ s ->
  fs_next_file_number_ s' = fs_next_file_number_ s ->
  fs_stats_ s' = fs_stats_ s -> column_families_ s' = column_families_ s -> world_ok (mkWorld s' d p).
Proof.
  intros Hok s' H1 H2 H3 H4. apply shrinks_ok with (s := s); [done| |].
  - unfold set_wf. rewrite H3, H4. apply Hok.
  - apply shrinks_refl; [done|done|]. intros cf b' Hb'. rewrite H4 in Hb'. by exists b'.
Qed.

Lemma alloc_ok s d p :
  world_ok (mkWorld s d p) -> fs_next_file_number_ s < 2 ^ 64 - 2 ->
  world_ok (mkWorld (NewFileNumber s).2 d ({[(NewFileNumber s).1]} ∪ p)).
Proof.
  intros (Hwf & [Hn Henc] & ec & (k & items & Hk & Hcur & Hit & Hread & Hcw & Hhas & Hnx & Himg) & Hused & Hpend) Hlt.
  unfold is_u64 in Hn. cbn in Hn, Henc, Hused, Hpend, Hnx, Hwf.
  assert (u64 (fs_next_file_number_ s + 1) = fs_next_file_number_ s + 1) as Hu.
  { apply u64_small. unfold is_u64. lia. }
  unfold NewFileNumber. rewrite Hu. split; [done|]. split.
  - split; [|done]. unfold is_u64. cbn. lia.
  - exists ec. cbn. split; [|split].
    + exists k, items. cbn. split_and!; try done; lia.
    + intros cf n H. destruct (Hused _ _ H) as [H1 H2]. split; [done|].
      rewrite not_elem_of_union, not_elem_of_singleton. split; [lia|done].
    + intros n [->%elem_of_singleton|H]%elem_of_union; [lia|]. specialize (Hpend _ H). lia.
Qed.

Lemma world_ok_pending s d p p' : p' ⊆ p -> world_ok (mkWorld s d p) -> world_ok (mkWorld s d p').
Proof.
  intros Hp (Hwf & He & ec & Hd & Hu & Hpend). split; [done|]. split; [done|].
  exists ec. split; [done|]. split; cbn in *.
  - intros cf n H. apply Hu in H as [? ?]. split; [done|]. set_solver.
  - intros n H. apply Hpend. set_solver.
Qed.

Lemma log_ok io s d p e b st s' d' :
  world_ok (mkWorld s d p) ->
  column_families_ s !! column_family_id_ e = Some b -> VersionEdit_wf (logged s e) ->
  (forall f, f ∈ added_files_ e -> file_number_ f ∈ p /\ addable b (file_number_ f) f) ->
  io_sync io = OK -> LogAndApply io s d e = Some (st, s', d') ->
  world_ok (mkWorld s' d' (p ∖ added_numbers e)).
Proof.
  intros Hok Hb Hew Hadd Hsync Hlog. pose proof Hok as (Hwf & [Hn Henc] & ec & Hdur & Hused & Hpend).
  cbn in *. pose proof Hdur as (k & items & Hk & _).
  destruct (LogAndApply_spec io s d e b k Hwf Hk) as [[_ H]|[(_ & Ha & H)|[(_ & _ & Ha & H)|
    (Hacc & _ & _ & cfs' & st' & b' & H & Hwf' & Hb' & Hed & Hoth)]]]; [apply Hn|done|apply Hadd|..].
  1,2: rewrite Hlog in H; injection H as _ -> ->; eapply world_ok_pending; [|exact Hok]; set_solver.
  { by rewrite Hsync in Ha. }
  pose proof Hlog as Hlog'. rewrite H in Hlog'. injection Hlog' as <- <- <-.
  edestruct (LogAndApply_durable io s d e b ec) as (ec' & Hdur' & Hwf'' & Hnx & Hec' & Hused');
    [exact Hwf|exact Hdur|exact Hew|exact Hb| |exact H|].
  { intros f Hf. destruct (Hadd _ Hf) as [Hp Ha]. split; [done|]. apply eq_None_not_Some.
    intros [_ Hnp]%Hused. done. }
  split; [done|]. split.
  - split; [done|]. intros cf x Hx. cbn in Hx. destruct (decide (cf = column_family_id_ e)) as [->|Hne].
    + rewrite Hb' in Hx. injection Hx as <-. destruct (Henc _ _ Hb) as [Hid Hfw]. split; [done|].
      intros n m Hm. destruct Hed as [Hf _]. rewrite Hf in Hm. unfold edited in Hm.
      destruct Hew as (_ & _ & Hfiles & _). rewrite Forall_forall in Hfiles.
      destruct (cf_added_files_ (collect CFEditCollector_new e) !! n) as [y|] eqn:Ea.
      * destruct (cf_deleted_files_ _ !! n); [by eapply Hfw|]. injection Hm as <-.
        apply collect_new_added in Ea as [Hy _]. by apply Hfiles.
      * destruct (cf_deleted_files_ _ !! n); [|by eapply Hfw].
        apply fmap_Some in Hm as (y & Hy & ->). exact (Hfw _ _ Hy).
    + rewrite Hoth in Hx by done. by apply Henc.
  - pose proof Hdur' as (k' & items' & _ & _ & _ & _ & _ & _ & Hnx' & _).
    exists ec'. split; [exact Hdur'|]. cbn. split.
    + intros cf n Hcn. rewrite Hec'. destruct (Hused' _ _ Hcn) as [Ho|(f & Hf & <-)].
      * destruct (Hused _ _ Ho) as [Hlt Hnp]. split; [|set_solver].
        pose proof Hdur as (k0 & items0 & _ & _ & _ & _ & _ & _ & Hnx0 & _). lia.
      * split; [apply Hpend; by apply Hadd|]. unfold added_numbers.
        rewrite elem_of_difference. intros [_ Hno]. apply Hno. apply elem_of_list_to_set.
        by apply (list_elem_of_fmap_2 file_number_).
    + intros n [Hin _]%elem_of_difference. by apply Hpend.
Qed.

Lemma file_ok s d p cf b n m m' :
  world_ok (mkWorld s d p) -> column_families_ s !! cf = Some b -> files_ b !! n = Some m ->
  same_file m m' -> persistent m' = persistent m ->
  world_ok (mkWorld (set_column_families s (<[cf := update_file b n m']> (column_families_ s)) (fs_stats_ s)) d p).
Proof.
  intros Hok Hb Hm Hsame Hp. pose proof Hok as (Hwf & _). cbn in Hwf.
  destruct (Hwf _ _ Hb) as (Hid & Hbw & Hst).
  destruct (update_file_wf _ _ _ _ _ Hbw Hst Hm Hsame) as [Hbw' Hst'].
  apply shrinks_ok with (s := s); [done| |].
  - intros cf' x Hx; cbn [column_families_ set_column_families set_obsolete_columns] in Hx; apply lookup_insert_Some in Hx as [[<- <-]|[_ Hx]]; [done|by apply Hwf].
  - split; [done|]. split; [done|].
    intros cf' x Hx; cbn [column_families_ set_column_families set_obsolete_columns] in Hx; apply lookup_insert_Some in Hx as [[<- <-]|[_ Hx]].
    + exists b. split; [done|]. intros n'. cbn [update_file set_files files_]. unfold live_file.
      destruct (decide (n' = n)) as [->|Hne].
      * rewrite lookup_insert_eq, Hm. cbn [mbind option_bind].
        destruct Hsame as (_ & _ & _ & _ & ->). split.
        -- destruct (is_obsolete m); cbn; [done|by rewrite Hp].
        -- intros x [= <-]. by exists m.
      * rewrite lookup_insert_ne by done. split; [done|]. intros x Hx. by exists x.
    + exists x. split; [done|]. intros n'. split; [done|]. intros y Hy. by exists y.
Qed.

Lemma destroy_ok s d p cf :
  world_ok (mkWorld s d p) -> world_ok (mkWorld (MaybeDestroyColumnFamily s cf).2 d p).
Proof.
  intros Hok. pose proof Hok as (Hwf & _). cbn in Hwf. unfold MaybeDestroyColumnFamily. cbn [column_families_ set_obsolete_columns].
  destruct (column_families_ s !! cf) as [b|] eqn:Hb; cbn [snd]; [|by apply (world_ok_set s)].
  destruct (Hwf _ _ Hb) as (Hid & Hbw & Hst).
  assert (storage_wf (MarkDestroyed b) /\ stats_ok (fs_stats_ s) (MarkDestroyed b)) as [Hbw' Hst'].
  { split; [by destruct Hbw; split|done]. }
  destruct (MaybeRemove (MarkDestroyed b)); cbn [snd]; apply shrinks_ok with (s := s); try done.
  - intros cf' x Hx; cbn [column_families_ set_column_families set_obsolete_columns] in Hx; apply lookup_delete_Some in Hx as [_ Hx]. by apply Hwf.
  - apply shrinks_refl; [done|done|]. intros cf' x Hx; cbn [column_families_ set_column_families set_obsolete_columns] in Hx; apply lookup_delete_Some in Hx as [_ Hx]. by exists x.
  - intros cf' x Hx; cbn [column_families_ set_column_families set_obsolete_columns] in Hx; apply lookup_insert_Some in Hx as [[<- <-]|[_ Hx]]; [done|by apply Hwf].
  - apply shrinks_refl; [done|done|].
    intros cf' x Hx; cbn [column_families_ set_column_families set_obsolete_columns] in Hx; apply lookup_insert_Some in Hx as [[<- <-]|[_ Hx]]; [by exists b|by exists x].
Qed.

(** *** Restarting *)

(** What a restart needs of the disk. *)
Definition recoverable (s : BlobFileSet) (d : Disk) : Prop :=
  encodable s /\ exists ec, durable s d ec /\
    forall cf n, is_Some (cf_added_files_ (cf_collector ec cf) !! n) -> n < ec_next_file_number_ ec.

Lemma world_recoverable s d p : world_ok (mkWorld s d p) -> recoverable s d.
Proof.
  intros (_ & He & ec & Hd & Hu & _). split; [done|]. exists ec. split; [done|]. intros cf n H. by apply Hu in H as [? _].
Qed.

(** A restart up to the new manifest. *)
Lemma Open_replay io s d stats garbage cfs :
  recoverable s d -> reopens s cfs -> fs_next_file_number_ s < 2 ^ 64 - 2 ->
  exists s2 number, set_wf s2 /\ encodable s2 /\ fs_next_file_number_ s2 = number + 1 /\
    (forall cf b n, column_families_ s2 !! cf = Some b -> is_Some (files_ b !! n) -> n < number) /\
    (forall cf, is_Some (column_families_ s2 !! cf) <-> is_Some (cfs !! cf)) /\
    (forall cf b b', column_families_ s !! cf = Some b -> column_families_ s2 !! cf = Some b' ->
       forall n, files_ b' !! n = persistent <$> live_file (files_ b) n) /\
    Open io (BlobFileSet_new stats garbage) d cfs =
      (let '(st, s3, d3) := OpenManifest io s2 d number in
       if negb (ok st) then Some (st, s3, d3)
       else Some (OK, s3, purge_disk d3 ({[number]} ∪ alive_files s3))).
Proof.
  intros ([Hn Henc] & ec & (k & items & Hk & Hcur & Hit & Hread & Hcw & Hhas & Hnx & Himg) & Hused) Hre Hlt.
  destruct (open_fresh stats garbage cfs) as (Hfresh & _ & _ & Hcf0).
  set (s0 := AddColumnFamilies (BlobFileSet_new stats garbage) cfs) in *.
  destruct (apply_replayed ec s s0 cfs Hcw Himg Hfresh Hcf0 Hre)
    as (cfs' & st' & Hseal & Happ & Hwf' & Hdom & Hfiles).
  set (number := ec_next_file_number_ ec) in *.
  assert (u64 (number + 1) = number + 1) as Hu.
  { apply u64_small. unfold is_u64. lia. }
  exists (set_next_file_number (set_column_families s0 cfs' st') (number + 1)), number.
  assert (forall cf b', cfs' !! cf = Some b' -> exists b, column_families_ s !! cf = Some b /\
    obsolete_files_ b' = [] /\ forall n, files_ b' !! n = persistent <$> live_file (files_ b) n) as Hb'.
  { intros cf b' Hb'. destruct (proj1 (Hdom cf) (mk_is_Some _ _ Hb')) as [o Ho].
    destruct (Hre _ _ Ho) as (b & Hb & _). exists b. split; [done|].
    by destruct (Hfiles _ _ _ Hb Hb') as (? & _ & ?). }
  split; [exact Hwf'|]. split; [|split; [done|split; [|split; [exact Hdom|split]]]].
  - split; [cbn; unfold is_u64; lia|]. intros cf b' Hx. cbn in Hx.
    destruct (Hb' _ _ Hx) as (b & Hb & _ & Hf). destruct (Henc _ _ Hb) as [Hid Hfw]. split; [done|].
    intros n m Hm. rewrite Hf in Hm. apply fmap_Some in Hm as (x & Hl & ->).
    unfold live_file in Hl. apply bind_Some in Hl as (y & Hy & Hl).
    destruct (is_obsolete y); [done|]. injection Hl as <-. exact (Hfw _ _ Hy).
  - intros cf b' n Hx [m Hm]. cbn in Hx. destruct (Hb' _ _ Hx) as (b & Hb & _ & Hf).
    rewrite Hf in Hm. specialize (Himg _ _ n Hb). rewrite Hm in Himg.
    apply (Hused cf). unfold replayed in Himg. by destruct (cf_added_files_ (cf_collector ec cf) !! n).
  - intros cf b b' Hb Hx n. cbn in Hx. by apply (Hfiles _ _ _ Hb Hx).
  - unfold Open. fold s0. rewrite Hcur. unfold Recover. rewrite Hcur. cbn [ends_with_newline current_manifest negb].
    rewrite Hit, Hread. cbn [mbind option_bind]. rewrite Hseal. cbn [mbind option_bind ok negb].
    unfold Apply. cbn [status_ sealed_ ok negb ec_column_families_]. rewrite Happ. cbn [mbind option_bind ok negb].
    unfold GetNextFileNumber. cbn [status_ ok negb ec_has_next_file_number_ ec_next_file_number_]. rewrite Hhas.
    unfold NewFileNumber. cbn [fs_next_file_number_ set_next_file_number]. fold number. rewrite Hu.
    cbn [fs_stats_ obsolete_manifests_ obsolete_columns_ column_families_ manifest_ manifest_file_number_ set_column_families].
    unfold set_next_file_number. cbn [fs_stats_ obsolete_manifests_ obsolete_columns_ column_families_ manifest_ manifest_file_number_].
    destruct (OpenManifest io _ d number) as [[st s3] d3] eqn:Eo. destruct (ok st) eqn:Est; [|done]. cbn [negb].
    rewrite purge_cfs_nothing; [done|].
    assert (column_families_ s3 = cfs') as ->.
    { unfold OpenManifest in Eo. repeat case_match; by simplify_eq. }
    intros cf b' Hx. by destruct (Hb' _ _ Hx) as (? & ? & ? & ?).
Qed.

Lemma durable_purge s d ec alive :
  durable s d ec -> (forall k, manifest_ s = Some k -> k ∈ alive) -> durable s (purge_disk d alive) ec.
Proof.
  intros (k & items & Hk & Hcur & Hit & H) Ha. exists k, items. split; [done|]. split; [done|].
  split; [|done]. cbn. apply map_lookup_filter_Some. split; [done|]. cbn. by apply Ha.
Qed.

Lemma restart_ok io s d p stats garbage cfs s' d' :
  world_ok (mkWorld s d p) -> reopens s cfs -> fs_next_file_number_ s < 2 ^ 64 - 2 ->
  Open io (BlobFileSet_new stats garbage) d cfs = Some (OK, s', d') -> world_ok (mkWorld s' d' ∅).
Proof.
  intros Hok Hre Hlt Ho.
  destruct (Open_replay io s d stats garbage cfs (world_recoverable _ _ _ Hok) Hre Hlt) as (s2 & number & Hwf2 & Henc2 & Hnx2 & Hlow & _ & _ & He).
  rewrite He in Ho. destruct (OpenManifest io s2 d number) as [[st s3] d3] eqn:Eo.
  destruct st; cbn [ok negb] in Ho; try discriminate Ho. injection Ho as <- <-.
  destruct (OpenManifest_durable _ _ _ _ _ _ Hwf2 Henc2 Eo)
    as (ec & Hdur & Hwf3 & Hcfs & Hst & Hn3 & Hec & Hused & Hman & _).
  split; [done|]. split.
  - destruct Henc2 as [H1 H2]. split; cbn; [by rewrite Hn3|by rewrite Hcfs].
  - exists ec. cbn. split; [|split; [|set_solver]].
    + apply durable_purge; [done|]. intros k Hk. set_solver.
    + intros cf n H. split; [|set_solver]. apply Hused in H as (b & Hb & Hf).
      rewrite Hec, Hnx2. specialize (Hlow _ _ _ Hb Hf). lia.
Qed.

Lemma initial_ok w : initial w -> world_ok w.
Proof.
  intros (io & stats & garbage & d & cfs & Hcur & Hids & Ho & Hp). destruct w as [s d' p]. cbn in *. subst p.
  unfold Open in Ho. rewrite Hcur in Ho.
  destruct (open_fresh stats garbage cfs) as (Hfresh & _ & Hn & Hcf0).
  set (s0 := AddColumnFamilies (BlobFileSet_new stats garbage) cfs) in *.
  unfold NewFileNumber in Ho. rewrite Hn in Ho. apply Some_inj in Ho.
  set (s1 := set_next_file_number s0 (u64 (1 + 1))) in *.
  assert (set_wf s1) as Hwf by apply Hfresh.
  assert (encodable s1) as Henc.
  { split; [done|]. intros cf b Hb. cbn in Hb. rewrite Hcf0 in Hb. apply fmap_Some in Hb as (o & Hc & ->).
    split; [by apply Hids; exists o|]. intros n m Hm. cbn in Hm. by rewrite lookup_empty in Hm. }
  destruct (OpenManifest_durable _ _ _ _ _ _ Hwf Henc Ho)
    as (ec & Hdur & Hwf3 & Hcfs & Hst & Hn3 & Hec & Hused & Hman & _).
  split; [done|]. split.
  - destruct Henc as [H1 H2]. split; cbn; [by rewrite Hn3|by rewrite Hcfs].
  - exists ec. cbn. split; [done|]. split; [|set_solver].
    intros cf n H. apply Hused in H as (b & Hb & [m Hm]). exfalso.
    cbn in Hb. rewrite Hcf0 in Hb. apply fmap_Some in Hb as (o & Hc & ->). cbn in Hm. by rewrite lookup_empty in Hm.
Qed.

Lemma set_op_ok w w' : set_op w w' -> world_ok w -> world_ok w'.
Proof.
  intros Hstep Hok. destruct Hstep.
  - by apply alloc_ok.
  - by eapply log_ok.
  - by eapply file_ok.
  - by apply destroy_ok.
  - by apply (world_ok_set s).
Qed.

Lemma set_step_ok w w' : set_step w w' -> world_ok w -> world_ok w'.
Proof.
  intros Hstep Hok. destruct Hstep; [by eapply set_op_ok| |by eapply restart_ok].
  match goal with H : GetObsoleteFiles _ _ = _ |- _ => rename H into Hg end.
  unfold GetObsoleteFiles in Hg. apply bind_Some in Hg as ([ns s1] & Ho & Hg). injection Hg as _ <-.
  pose proof Hok as (Hwf & _). destruct (obsolete_cfs_shrinks _ _ _ _ _ _ Hwf Ho) as [Hwf' Hsh].
  apply (world_ok_set s1); try done. by eapply shrinks_ok.
Qed.

Lemma reachable_ok w0 w : initial w0 -> rtc set_step w0 w -> world_ok w.
Proof. intros Hi%initial_ok H. induction H; eauto using set_step_ok. Qed.

(** A restart from a recoverable disk. *)
Lemma Open_restores s d stats garbage cfs :
  recoverable s d -> reopens s cfs -> fs_next_file_number_ s < 2 ^ 64 - 2 ->
  exists s' d', Open io_ok (BlobFileSet_new stats garbage) d cfs = Some (OK, s', d') /\
    forall cf b, column_families_ s !! cf = Some b -> is_Some (cfs !! cf) ->
      exists b', column_families_ s' !! cf = Some b' /\
        forall n, files_ b' !! n = persistent <$> live_file (files_ b) n /\
          (is_Some (files_ b' !! n) -> n ∈ blobs_ d -> n ∈ blobs_ d').
Proof.
  intros Hok Hre Hlt.
  destruct (Open_replay io_ok s d stats garbage cfs Hok Hre Hlt)
    as (s2 & number & Hwf2 & Henc2 & Hnx2 & _ & Hdom & Hfiles & ->).
  destruct (OpenManifest_io_ok s2 d number) as [items ->]. cbn [ok negb].
  eexists _, _. split; [reflexivity|]. cbn [column_families_ blobs_ purge_disk]. intros cf b Hb Hc.
  apply Hdom in Hc as [b' Hb']. exists b'. split; [done|]. intros n. split; [by eapply Hfiles|].
  intros [m Hm] Hn. apply elem_of_filter. split; [|done]. apply elem_of_union_r.
  unfold alive_files. apply elem_of_list_to_set, list_elem_of_In, in_flat_map.
  exists (cf, b'). split; [by apply list_elem_of_In, elem_of_map_to_list|].
  apply list_elem_of_In, list_elem_of_fmap. exists m. destruct (Hwf2 _ _ Hb') as (_ & Hbw & _).
  split; [symmetry; by apply (wf_number _ Hbw)|].
  apply (list_elem_of_fmap_2' snd _ (n, m)); [|done]. by apply elem_of_map_to_list.
Qed.
End World.

(** ** Properties *)


(** An example: a file is added, its state changes, and the process stops. *)
Definition example_cfs : gmap Z TitanCFOptions := {[0 := TitanCFOptions_default 7]}.

Definition example_disk : Disk := mkDisk None ∅ {[2]}.

Definition example_opened : BlobFileSet * Disk :=
  match Open (C := BytewiseComparator) io_ok (BlobFileSet_new (Some ∅) 77) example_disk example_cfs with
  | Some (_, s, d) => (s, d)
  | None => (BlobFileSet_new None 0, example_disk)
  end.

Definition example_added : VersionEdit :=
  mkEdit false 0 0
    [set_live_data_size (set_state (BlobFileMeta_new 2 1000 8 6 [97] [99]) kPendingLSM) 500] [].

Definition example_logged : BlobFileSet * Disk :=
  match LogAndApply (C := BytewiseComparator) io_ok (NewFileNumber example_opened.1).2 example_opened.2 example_added with
  | Some (_, s, d) => (s, d)
  | None => example_opened
  end.

Lemma example_initial : initial (C := BytewiseComparator) (mkWorld example_opened.1 example_opened.2 ∅).
Proof.
  exists io_ok, (Some ∅), 77, example_disk, example_cfs. split; [done|]. split.
  - intros cf [o Ho]. unfold example_cfs in Ho. apply lookup_singleton_Some in Ho as [<- _].
    unfold is_u32. lia.
  - split; [vm_compute; reflexivity|done].
Qed.

Lemma example_steps :
  rtc (set_step (C := BytewiseComparator)) (mkWorld example_opened.1 example_opened.2 ∅)
    (mkWorld example_logged.1 example_logged.2 (({[2]} ∪ ∅) ∖ added_numbers example_added)).
Proof.
  eapply rtc_l.
  { apply step_op, step_alloc. vm_compute. reflexivity. }
  eapply rtc_l; [|apply rtc_refl].
  replace ((NewFileNumber example_opened.1).1) with 2 by (vm_compute; reflexivity).
  apply step_op, (step_log (C := BytewiseComparator) io_ok _ _ _ example_added
    (BlobStorage_new (TitanCFOptions_default 7) 0) OK); [vm_compute; reflexivity| | |done|vm_compute; reflexivity].
  - split_and!; [vm_compute; split; [discriminate|reflexivity]|vm_compute; split; [discriminate|reflexivity]| |constructor].
    constructor; [|constructor]. split_and!; try (vm_compute; split; [discriminate|reflexivity]);
      repeat constructor; try (vm_compute; discriminate).
  - intros f Hf. apply list_elem_of_singleton in Hf. subst f. split; [vm_compute; set_solver|].
    split; [done|]. split; [done|]. vm_compute. split; [discriminate|reflexivity].
Qed.

Definition example_blob : BlobFileMeta :=
  set_live_data_size (set_state (BlobFileMeta_new 2 1000 8 6 [97] [99]) kPendingLSM) 500.

Definition example_logged_storage : BlobStorage :=
  default (BlobStorage_new (TitanCFOptions_default 7) 0) (column_families_ example_logged.1 !! 0).

Lemma example_logged_files :
  column_families_ example_logged.1 !! 0 = Some example_logged_storage /\
  files_ example_logged_storage = {[2 := example_blob]}.
Proof. split; vm_compute; reflexivity. Qed.

Lemma example_reopens : reopens example_logged.1 example_cfs.
Proof.
  intros cf o Ho. unfold example_cfs in Ho. apply lookup_singleton_Some in Ho as [<- <-].
  exists example_logged_storage. split; [apply example_logged_files|].
  intros n m Hm. unfold live_file in Hm. rewrite (proj2 example_logged_files) in Hm.
  apply bind_Some in Hm as (x & Hx & Hm). apply lookup_singleton_Some in Hx as [_ <-].
  injection Hm as <-. vm_compute. split; [discriminate|reflexivity].
Qed.




(** *** Damaged manifests *)

Lemma read_loop_stopped rest ec : read_loop rest Corruption ec = Some (Ret (Corruption, ec)).
Proof. induction rest as [|[r|] rest IH]; [done|done|exact IH]. Qed.

Lemma OpenManifest_disk `{C : Comparator} io s d1 d2 k :
  blobs_ d1 = blobs_ d2 ->
  (OpenManifest io s d1 k).1 = (OpenManifest io s d2 k).1 /\
  blobs_ (OpenManifest io s d1 k).2 = blobs_ (OpenManifest io s d2 k).2.
Proof.
  intros Hb. unfold OpenManifest. destruct (io_new_file io); cbn [ok negb]; try done.
  destruct (WriteSnapshot io s) as [st items].
  destruct st, (io_sync io), (io_set_current io); done.
Qed.

(** A damaged region in the manifest does not fail recovery: the status of
    the reader is overwritten, and the database opens with the edits before
    the damage, as if the records after it had never been written. *)
Theorem Recover_ignores_damage `{C : Comparator} io s d k items rest ec :
  current_ d = Some (mkCurrent k true) -> manifests_ d !! k = Some (items ++ Bad :: rest) ->
  read_loop items OK EditCollector_new = Some (Ret (OK, ec)) ->
  let d0 := mkDisk (current_ d) (<[k := items]> (manifests_ d)) (blobs_ d) in
  match Recover io s d, Recover io s d0 with
  | Some (st, s', d'), Some (st0, s0', d0') => st = st0 /\ s' = s0' /\ blobs_ d' = blobs_ d0'
  | r, r0 => r = r0
  end.
Proof.
  intros Hcur Hit Hread d0. unfold Recover. cbn [current_ manifests_ d0]. rewrite Hcur.
  cbn [ends_with_newline current_manifest negb]. rewrite Hit, lookup_insert_eq.
  erewrite read_loop_app; [|done|exact Hread|done]. cbn [read_loop ok]. rewrite read_loop_stopped, Hread.
  cbn [mbind option_bind]. destruct (Seal ec (column_families_ s)) as [[st ec']|]; [|done].
  cbn [mbind option_bind]. destruct (ok st); cbn [negb]; [|done].
  destruct (Apply ec' _ _) as [[[st2 cfs] stats]|]; [|done]. cbn [mbind option_bind].
  destruct (ok st2); cbn [negb]; [|done]. destruct (GetNextFileNumber ec') as [nx|]; [|done].
  destruct (NewFileNumber _) as [m s1].
  destruct (OpenManifest_disk io s1 d d0 m) as [He Hbl]; [done|].
  destruct (OpenManifest io s1 d m) as [[st3 s2] d1]. destruct (OpenManifest io s1 d0 m) as [[st4 s3] d2].
  cbn in He, Hbl. injection He as <- <-. destruct (ok st3); cbn [negb]; [|done].
  destruct (purge_cfs s2 _) as [s4|]; [|done]. cbn [mbind option_bind]. split; [done|]. split; [done|].
  cbn. by rewrite Hbl.
Qed.

(** The example's manifest, damaged before the record that adds the file. *)
Lemma Recover_ignores_damage_witness :
  let items := [Rec (VersionEdit_EncodeTo (SetNextFileNumber VersionEdit_default 2)); Rec (VersionEdit_EncodeTo (mkEdit false 0 0 [] []))] in
  let d := mkDisk (Some (mkCurrent 1 true)) {[1 := items ++ Bad :: [Rec (VersionEdit_EncodeTo (logged example_opened.1 example_added))]]} {[2]} in
  let d0 := mkDisk (current_ d) (<[1 := items]> (manifests_ d)) (blobs_ d) in
  let s := AddColumnFamilies (BlobFileSet_new None 0) example_cfs in
  match Recover (C := BytewiseComparator) io_ok s d, Recover (C := BytewiseComparator) io_ok s d0 with
  | Some (st, s', d'), Some (st0, s0', d0') => st = st0 /\ s' = s0' /\ blobs_ d' = blobs_ d0'
  | r, r0 => r = r0
  end.
Proof.
  intros items d d0 s.
  refine (Recover_ignores_damage (C := BytewiseComparator) io_ok s d 1 items _ _ _ _ _);
    [reflexivity|vm_compute; reflexivity|vm_compute; reflexivity].
Defined.

(** After the damage the file is unknown, recovery reports success, and the
    blob file is deleted from the disk. *)
Lemma damage_loses_data :
  let items := [Rec (VersionEdit_EncodeTo (SetNextFileNumber VersionEdit_default 2)); Rec (VersionEdit_EncodeTo (mkEdit false 0 0 [] []))] in
  let d := mkDisk (Some (mkCurrent 1 true)) {[1 := items ++ Bad :: [Rec (VersionEdit_EncodeTo (logged example_opened.1 example_added))]]} {[5]} in
  exists s' d', Open (C := BytewiseComparator) io_ok (BlobFileSet_new None 0) d example_cfs = Some (OK, s', d') /\ blobs_ d' = ∅.
Proof. eexists _, _. split; vm_compute; reflexivity. Qed.

(** *** Deleting the files in ranges *)

(** Deleting the blob files in a single key range whose bounds are in order
    always succeeds when the manifest can be written: exactly the files of the
    column family that are not obsolete and lie in the range become obsolete,
    as of the given sequence number. *)
Theorem DeleteBlobFilesInRanges_single `{C : Comparator} `{L : !ComparatorLaws C} s d cf b k r include_end seq :
  set_wf s -> manifest_ s = Some k -> 0 <= fs_next_file_number_ s ->
  column_families_ s !! cf = Some b -> ordered r ->
  exists s' d' b', DeleteBlobFilesInRanges io_ok s d cf [r] include_end seq = Some (OK, s', d') /\
    column_families_ s' !! cf = Some b' /\
    (forall n m, files_ b !! n = Some m -> selects r include_end m ->
       files_ b' !! n = Some (set_state m kObsolete) /\ (n, seq) ∈ obsolete_files_ b') /\
    (forall n, (forall m, files_ b !! n = Some m -> ~ selects r include_end m) ->
       files_ b' !! n = files_ b !! n).
Proof.
  intros Hwf Hk Hn Hb Ho. destruct (Hwf _ _ Hb) as (Hid & Hbw & Hst).
  destruct (GetBlobFilesInRanges_spec b include_end [r] [] Hbw) as (found & Hg & Hin & Hnd).
  { by constructor. }
  specialize (Hnd (le_n _)). unfold DeleteBlobFilesInRanges. rewrite Hb, Hg. cbn [mbind option_bind app].
  set (e := mkEdit false 0 cf [] (map (fun n => (n, seq)) found)).
  assert (forall n, cf_deleted_files_ (collect CFEditCollector_new e) !! n
    = if decide (n ∈ found) then Some seq else None) as Hdel.
  { intros n. rewrite collect_new. cbn. clear. induction found as [|x l IH]; [done|]. cbn.
    destruct (decide (n = x)) as [->|Hne].
    - rewrite lookup_insert_eq, decide_True; [done|]. apply list_elem_of_here.
    - rewrite lookup_insert_ne, IH by done. destruct (decide (n ∈ l)) as [Hd|Hd].
      + by rewrite decide_True by (by apply list_elem_of_further).
      + by rewrite decide_False by (by intros [?|?]%elem_of_cons). }
  assert (forall n, cf_added_files_ (collect CFEditCollector_new e) !! n = None) as Hadd.
  { intros n. rewrite collect_new. apply (lookup_empty (M := gmap Z)). }
  assert (acceptable b e) as Hacc.
  { split.
    - split_and!; cbn; [constructor| |by intros f ?%elem_of_nil|intros x _; apply (lookup_empty (M := gmap Z))].
      rewrite <- list_fmap_compose. unfold compose. cbn. by rewrite list_fmap_id.
    - split; [intros n H; rewrite Hadd in H; by destruct H|]. intros n H _. rewrite Hdel in H.
      case_decide as Hf; [|by destruct H]. apply Hin in Hf as (r' & _ & m & Hm & Hob & _). by exists m. }
  destruct (LogAndApply_spec io_ok s d e b k Hwf Hk Hn Hb) as [[Hna _]|[(_ & Hio & _)|[(_ & _ & Hio & _)|
    (_ & _ & _ & cfs' & st' & b' & -> & Hwf' & Hb' & (Hf & Hob & _) & Hoth)]]]; try done.
  { intros f Hf. by apply elem_of_nil in Hf. }
  eexists _, _, b'. split; [reflexivity|]. split; [exact Hb'|].
  assert (forall n, n ∈ found <-> exists m, files_ b !! n = Some m /\ selects r include_end m) as Hin'.
  { intros n. rewrite Hin. setoid_rewrite list_elem_of_singleton. unfold selected. naive_solver. }
  split.
  - intros n m Hm Hs. assert (n ∈ found) as Hnf by (apply Hin'; by exists m). split.
    + rewrite Hf. unfold edited. by rewrite Hadd, Hdel, decide_True, Hm by done.
    + apply Hob. right. by rewrite Hdel, decide_True.
  - intros n Hno. rewrite Hf. unfold edited. rewrite Hadd, Hdel, decide_False; [done|].
    intros (m & Hm & Hs)%Hin'. by eapply Hno.
Qed.

Lemma DeleteBlobFilesInRanges_single_witness :
  exists s' d' b', DeleteBlobFilesInRanges (C := BytewiseComparator) io_ok example_logged.1 example_logged.2 0
      [mkRange (Some [96]) None] true 40 = Some (OK, s', d') /\
    column_families_ s' !! 0 = Some b' /\ (2, 40) ∈ obsolete_files_ b'.
Proof.
  destruct (DeleteBlobFilesInRanges_single (C := BytewiseComparator) example_logged.1 example_logged.2 0
    example_logged_storage 1 (mkRange (Some [96]) None) true 40) as (s' & d' & b' & H1 & H2 & H3 & _).
  - apply (reachable_ok _ _ example_initial example_steps).
  - vm_compute. reflexivity.
  - vm_compute. discriminate.
  - apply example_logged_files.
  - done.
  - exists s', d', b'. split; [exact H1|]. split; [exact H2|].
    apply (H3 2 example_blob); [by rewrite (proj2 example_logged_files)|].
    split; [reflexivity|]. split; [vm_compute; discriminate|done].
Defined.

(** Two ranges that both select some file name it twice, and the deletion
    is refused as a corruption: nothing is logged and nothing deleted. *)
Theorem overlapping_ranges_refused `{C : Comparator} `{L : !ComparatorLaws C} io s d cf b k r1 r2 include_end seq n :
  set_wf s -> manifest_ s = Some k -> 0 <= fs_next_file_number_ s ->
  column_families_ s !! cf = Some b -> ordered r1 -> ordered r2 ->
  selected b r1 include_end n -> selected b r2 include_end n ->
  DeleteBlobFilesInRanges io s d cf [r1; r2] include_end seq = Some (Corruption, s, d).
Proof.
  intros Hwf Hk Hn Hb Ho1 Ho2 Hs1 Hs2. destruct (Hwf _ _ Hb) as (Hid & Hbw & Hst).
  unfold DeleteBlobFilesInRanges. rewrite Hb. cbn [GetBlobFilesInRanges].
  destruct (single_range_spec b r1 include_end [] Hbw Ho1) as (l1 & f1 & -> & Hl1 & _ & Hf1).
  cbn [mbind option_bind]. rewrite Hl1. cbn [mbind option_bind app].
  destruct (single_range_spec b r2 include_end f1 Hbw Ho2) as (l2 & f2 & -> & Hl2 & _ & Hf2).
  cbn [mbind option_bind]. rewrite Hl2. cbn [mbind option_bind].
  set (e := mkEdit false 0 cf [] (map (fun n => (n, seq)) (f1 ++ f2))).
  destruct (LogAndApply_spec io s d e b k Hwf Hk Hn Hb) as [[_ H]|Hacc]; [|exact H|].
  { intros f Hf. by apply elem_of_nil in Hf. }
  exfalso. assert (acceptable b e) as [(_ & Hnd & _) _] by tauto.
  cbn in Hnd. rewrite <- list_fmap_compose in Hnd. unfold compose in Hnd. cbn in Hnd.
  rewrite list_fmap_id in Hnd. apply NoDup_app in Hnd as (_ & Hd & _).
  apply (Hd n); [by apply Hf1|by apply Hf2].
Qed.

Lemma overlapping_ranges_refused_witness :
  DeleteBlobFilesInRanges (C := BytewiseComparator) io_ok example_logged.1 example_logged.2 0
    [mkRange (Some [96]) None; mkRange (Some [97]) None] true 40
  = Some (Corruption, example_logged.1, example_logged.2).
Proof.
  refine (overlapping_ranges_refused (C := BytewiseComparator) io_ok _ _ 0 example_logged_storage 1 _ _ true 40 2
    _ _ _ _ _ _ _ _).
  - apply (reachable_ok _ _ example_initial example_steps).
  - vm_compute. reflexivity.
  - vm_compute. discriminate.
  - apply example_logged_files.
  - done.
  - done.
  - exists example_blob. split; [by rewrite (proj2 example_logged_files)|].
    split; [reflexivity|]. split; [vm_compute; discriminate|done].
  - exists example_blob. split; [by rewrite (proj2 example_logged_files)|].
    split; [reflexivity|]. split; [vm_compute; discriminate|done].
Defined.
