(* ===== verification/GCPicker.v ===== *)
(** * GCPicker: choosing the files of a garbage collection

    [blob_gc.h], [blob_gc.cc], [blob_gc_picker.h] and [blob_gc_picker.cc]: the
    inputs of a collection are chosen among the scored files of a blob storage,
    and marked for its duration. A file is named by its number. [None] is a
    failed assertion or a null metadata pointer. *)
From S2P Require Import Prelude BitMap BlobFileMeta TitanStats Options BlobStorage BlobStorageProofs BlobStorageSpec.

Local Open Scope Z_scope.

(** ** The collection *)

Record BlobGC : Type := mkGC {
  inputs_ : list Z;
  outputs_ : list Z;
  titan_cf_options_ : TitanCFOptions;
  trigger_next_ : bool }.

(** [FileStateTransit] on each file of a list, through its pointer. *)
Fixpoint transit_files (b : BlobStorage) (l : list Z) (e : FileEvent) : option BlobStorage :=
  match l with
  | [] => Some b
  | n :: l =>
      m ← files_ b !! n;
      m' ← transit m e;
      transit_files (update_file b n m') l e
  end.

Definition MarkFilesBeingGC (b : BlobStorage) (gc : BlobGC) : option BlobStorage :=
  transit_files b (inputs_ gc) kGCBegin.

(** The constructor. *)
Definition BlobGC_new (b : BlobStorage) (blob_files : list Z) (cf : TitanCFOptions) (need_trigger_next : bool)
    : option (BlobGC * BlobStorage) :=
  let gc := mkGC blob_files [] cf need_trigger_next in
  b ← MarkFilesBeingGC b gc; Some (gc, b).

Definition AddOutputFile (gc : BlobGC) (blob_file : Z) : BlobGC :=
  mkGC (inputs_ gc) (outputs_ gc ++ [blob_file]) (titan_cf_options_ gc) (trigger_next_ gc).

(** The inputs are shared with the storage. One that has left it was obsolete
    then, and stays so. *)
Fixpoint release_inputs (b : BlobStorage) (l : list Z) : option BlobStorage :=
  match l with
  | [] => Some b
  | n :: l =>
      match files_ b !! n with
      | Some m => m' ← transit m kGCCompleted; release_inputs (update_file b n m') l
      | None => release_inputs b l
      end
  end.

(** The outputs are plain pointers into the storage; a file that has left it is
    gone. *)
Definition ReleaseGcFiles (b : BlobStorage) (gc : BlobGC) : option BlobStorage :=
  b ← release_inputs b (inputs_ gc);
  transit_files b (outputs_ gc) kGCCompleted.

(** ** The picker *)

Definition CheckBlobFile (blob_file : option BlobFileMeta) : option bool :=
  _ ← assert match blob_file with None => true | Some m => negb (bool_decide (state_ m = kInit)) end;
  Some match blob_file with None => false | Some m => bool_decide (state_ m = kNormal) end.

(** The local variables of [PickBlobGC]. *)
Record PickState : Type := mkPick {
  blob_files : list Z;
  batch_size : Z;
  estimate_output_size : Z;
  stop_picking : bool;
  maybe_continue_next_time : bool;
  next_gc_size : Z }.

Definition PickState_init : PickState := mkPick [] 0 0 false false 0.

(** The loop over the scores. *)
Fixpoint pick_loop (b : BlobStorage) (cf : TitanCFOptions) (scores : list GCScore) (p : PickState)
    : option PickState :=
  match scores with
  | [] => Some p
  | gc_score :: scores =>
      if d_lt (score gc_score) (blob_file_discardable_ratio cf) then Some p else
      blob_file ← FindFile b (file_number gc_score);
      checked ← CheckBlobFile blob_file;
      m ← blob_file;
      if negb checked then pick_loop b cf scores p else
      if negb (stop_picking p) then
        let batch := u64 (batch_size p + file_size_ m) in
        pick_loop b cf scores
          (mkPick (blob_files p ++ [file_number_ m]) batch
             (u64 (estimate_output_size p + live_data_size_ m))
             (if batch >=? max_gc_batch_size cf then true else stop_picking p)
             (maybe_continue_next_time p) (next_gc_size p))
      else
        let next := u64 (next_gc_size p + file_size_ m) in
        let p' := mkPick (blob_files p) (batch_size p) (estimate_output_size p) (stop_picking p)
                    (if next >? min_gc_batch_size cf then true else maybe_continue_next_time p) next in
        if next >? min_gc_batch_size cf then Some p' else pick_loop b cf scores p'
  end.

(** The collection, if there is one to be done, and the storage with its files
    marked. *)
Definition PickBlobGC (b : BlobStorage) (cf : TitanCFOptions) : option (option BlobGC * BlobStorage) :=
  p ← pick_loop b cf (gc_score_ b) PickState_init;
  if bool_decide (blob_files p = []) || (batch_size p <? min_gc_batch_size cf) then Some (None, b) else
  let single :=
    match blob_files p with
    | [n] =>
        match files_ b !! n with
        | Some m => (file_size_ m <=? merge_small_file_threshold cf) &&
                    d_lt (GetDiscardableRatio m) (blob_file_discardable_ratio cf)
        | None => false
        end
    | _ => false
    end in
  if single then Some (None, b) else
  '(gc, b) ← BlobGC_new b (blob_files p) cf (maybe_continue_next_time p);
  Some (Some gc, b).

(** ** Reference: what is to be picked *)

(** The scores worth collecting come first; of those, the files in use are
    skipped. *)
Fixpoint candidates (b : BlobStorage) (cf : TitanCFOptions) (scores : list GCScore) : list BlobFileMeta :=
  match scores with
  | [] => []
  | x :: scores =>
      if d_lt (score x) (blob_file_discardable_ratio cf) then [] else
      match files_ b !! file_number x with
      | Some m => if bool_decide (state_ m = kNormal) then m :: candidates b cf scores
                  else candidates b cf scores
      | None => candidates b cf scores
      end
  end.

(** The shortest prefix whose total size reaches [max], or everything; and
    what is left. *)
Fixpoint batch (max acc : Z) (l : list BlobFileMeta) : list BlobFileMeta * list BlobFileMeta :=
  match l with
  | [] => ([], [])
  | m :: l =>
      if u64 (acc + file_size_ m) >=? max then ([m], l)
      else let '(a, r) := batch max (u64 (acc + file_size_ m)) l in (m :: a, r)
  end.

Definition total_size (l : list BlobFileMeta) : Z := foldl (fun acc m => u64 (acc + file_size_ m)) 0 l.

(** Some prefix is larger than [min]. *)
Fixpoint exceeds (min acc : Z) (l : list BlobFileMeta) : bool :=
  match l with
  | [] => false
  | m :: l => if u64 (acc + file_size_ m) >? min then true else exceeds min (u64 (acc + file_size_ m)) l
  end.

(** ** The loop computes the reference *)

(** The scores speak of files of the storage, which were initialised. *)
Definition scores_known (b : BlobStorage) (scores : list GCScore) : Prop :=
  Forall (fun x => exists m, files_ b !! file_number x = Some m /\ file_number_ m = file_number x /\
                             state_ m <> kInit) scores.

Lemma pick_file b x m :
  files_ b !! file_number x = Some m -> file_number_ m = file_number x -> state_ m <> kInit ->
  FindFile b (file_number x) = Some (Some m) /\
  CheckBlobFile (Some m) = Some (bool_decide (state_ m = kNormal)).
Proof.
  intros Hm Hn Hs. unfold FindFile, CheckBlobFile. rewrite Hm, Hn, Z.eqb_refl.
  by rewrite (bool_decide_eq_false_2 _ Hs).
Qed.

(** After picking has stopped, only the size that remains matters. *)
Lemma pick_loop_stopped b cf scores : forall p,
  scores_known b scores -> stop_picking p = true -> maybe_continue_next_time p = false ->
  exists p', pick_loop b cf scores p = Some p' /\
    blob_files p' = blob_files p /\ batch_size p' = batch_size p /\
    maybe_continue_next_time p' = exceeds (min_gc_batch_size cf) (next_gc_size p) (candidates b cf scores).
Proof.
  induction scores as [|x scores IH]; intros p Hk Hstop Hcont; [by exists p|].
  apply Forall_cons in Hk as [(m & Hm & Hn & Hi) Hk]. cbn [pick_loop candidates].
  destruct (d_lt _ _); [by exists p|].
  destruct (pick_file b x m Hm Hn Hi) as [-> HC]. cbn [mbind option_bind]. rewrite HC, Hm.
  cbn [mbind option_bind].
  destruct (bool_decide (state_ m = kNormal)); cbn [negb]; [|by apply IH].
  rewrite Hstop. cbn [negb exceeds].
  destruct (u64 (next_gc_size p + file_size_ m) >? min_gc_batch_size cf); [by eexists|].
  by edestruct IH as (p' & -> & ?); [done..|]; exists p'.
Qed.

Lemma pick_loop_spec b cf scores : forall p,
  scores_known b scores -> stop_picking p = false -> maybe_continue_next_time p = false ->
  next_gc_size p = 0 ->
  let '(picked, rest) := batch (max_gc_batch_size cf) (batch_size p) (candidates b cf scores) in
  exists p', pick_loop b cf scores p = Some p' /\
    blob_files p' = blob_files p ++ (file_number_ <$> picked) /\
    batch_size p' = foldl (fun acc m => u64 (acc + file_size_ m)) (batch_size p) picked /\
    maybe_continue_next_time p' = exceeds (min_gc_batch_size cf) 0 rest.
Proof.
  induction scores as [|x scores IH]; intros p Hk Hstop Hcont Hnext.
  { cbn. exists p. by rewrite app_nil_r. }
  apply Forall_cons in Hk as [(m & Hm & Hn & Hi) Hk]. cbn [pick_loop candidates].
  destruct (d_lt _ _); [cbn; exists p; by rewrite app_nil_r|].
  destruct (pick_file b x m Hm Hn Hi) as [-> HC]. cbn [mbind option_bind]. rewrite HC, Hm.
  cbn [mbind option_bind].
  destruct (bool_decide (state_ m = kNormal)); cbn [negb]; [|by apply IH].
  rewrite Hstop. cbn [negb batch].
  destruct (u64 (batch_size p + file_size_ m) >=? max_gc_batch_size cf) eqn:E.
  - edestruct (pick_loop_stopped b cf scores) as (p' & -> & H1 & H2 & H3); [done| | |]; try reflexivity; [exact Hcont|].
    exists p'. split; [done|]. rewrite H1, H2, H3. cbn. by rewrite Hnext.
  - specialize (IH (mkPick (blob_files p ++ [file_number_ m]) (u64 (batch_size p + file_size_ m))
      (u64 (estimate_output_size p + live_data_size_ m)) false (maybe_continue_next_time p) (next_gc_size p))
      Hk eq_refl Hcont Hnext). cbn [batch_size] in IH.
    destruct (batch (max_gc_batch_size cf) (u64 (batch_size p + file_size_ m)) (candidates b cf scores)) as [a r].
    destruct IH as (p' & -> & H1 & H2 & H3). exists p'. split; [done|]. rewrite H1, H2, H3. cbn.
    by rewrite <- app_assoc.
Qed.

(** ** Marking *)

Lemma transit_files_spec e (g : FileState -> FileState) l : forall b,
  NoDup l ->
  (forall n, n ∈ l -> exists m, files_ b !! n = Some m /\ FileStateTransit (state_ m) e = Some (g (state_ m))) ->
  exists files', transit_files b l e = Some (set_files b files') /\
    forall n, files' !! n = if decide (n ∈ l) then (fun m => set_state m (g (state_ m))) <$> files_ b !! n
                            else files_ b !! n.
Proof.
  induction l as [|n l IH]; intros b Hnd Hl.
  { exists (files_ b). split; [by destruct b|]. intros n. by rewrite decide_False by apply not_elem_of_nil. }
  apply NoDup_cons in Hnd as [Hn Hnd]. destruct (Hl n (list_elem_of_here _ _)) as (m & Hm & Ht).
  cbn [transit_files]. unfold transit. rewrite Hm. cbn [mbind option_bind]. rewrite Ht. cbn [mbind option_bind].
  destruct (IH (update_file b n (set_state m (g (state_ m)))) Hnd) as (files' & -> & Hf).
  { intros n' Hn'. cbn. rewrite lookup_insert_ne by (intros ->; done).
    apply Hl. by apply list_elem_of_further. }
  exists files'. split; [done|]. intros n'. rewrite Hf. cbn [update_file set_files files_].
  destruct (decide (n' = n)) as [->|Hne].
  - rewrite decide_False by done. rewrite decide_True by apply list_elem_of_here.
    by rewrite lookup_insert_eq, Hm.
  - rewrite lookup_insert_ne by done. destruct (decide (n' ∈ l)) as [Hd|Hd].
    + by rewrite decide_True by (by apply list_elem_of_further).
    + by rewrite decide_False by (by intros [?|?]%elem_of_cons).
Qed.

(** What releasing does to a file. *)
Definition released (m : BlobFileMeta) : BlobFileMeta :=
  if is_obsolete m then m else set_state m kNormal.

Lemma transit_released m :
  state_ m = kBeingGC \/ state_ m = kPendingGC \/ state_ m = kObsolete -> transit m kGCCompleted = Some (released m).
Proof.
  unfold transit, released, is_obsolete. by destruct m as [? ? ? ? ? ? ? st ?]; cbn; intros [->|[->| ->]].
Qed.

Lemma release_inputs_spec l : forall b,
  NoDup l ->
  (forall n m, n ∈ l -> files_ b !! n = Some m -> state_ m = kBeingGC \/ state_ m = kPendingGC \/ state_ m = kObsolete) ->
  exists files', release_inputs b l = Some (set_files b files') /\
    forall n, files' !! n = if decide (n ∈ l) then released <$> files_ b !! n else files_ b !! n.
Proof.
  induction l as [|n l IH]; intros b Hnd Hl.
  { exists (files_ b). split; [by destruct b|]. intros n. by rewrite decide_False by apply not_elem_of_nil. }
  apply NoDup_cons in Hnd as [Hn Hnd]. cbn [release_inputs]. destruct (files_ b !! n) as [m|] eqn:Hm.
  - rewrite (transit_released m) by (apply (Hl n); [apply list_elem_of_here|done]). cbn [mbind option_bind].
    destruct (IH (update_file b n (released m)) Hnd) as (files' & -> & Hf).
    { intros n' m' Hn' Hm'. cbn in Hm'. rewrite lookup_insert_ne in Hm' by (intros ->; done).
      apply (Hl n'); [by apply list_elem_of_further|done]. }
    exists files'. split; [done|]. intros n'. rewrite Hf. cbn [update_file set_files files_]. destruct (decide (n' = n)) as [->|Hne].
    + rewrite decide_False by done. rewrite decide_True by apply list_elem_of_here. by rewrite lookup_insert_eq, Hm.
    + rewrite lookup_insert_ne by done. apply decide_ext. rewrite elem_of_cons. intuition.
  - destruct (IH b Hnd) as (files' & -> & Hf); [intros n' m' Hn'; apply (Hl n'); by apply list_elem_of_further|].
    exists files'. split; [done|]. intros n'. rewrite Hf. destruct (decide (n' = n)) as [->|Hne].
    + rewrite decide_False by done. rewrite decide_True by apply list_elem_of_here. by rewrite Hm.
    + apply decide_ext. rewrite elem_of_cons. intuition.
Qed.

Lemma candidates_elem b cf scores m :
  m ∈ candidates b cf scores ->
  exists x, x ∈ scores /\ files_ b !! file_number x = Some m /\ state_ m = kNormal.
Proof.
  induction scores as [|x scores IH]; cbn; [by intros ?%elem_of_nil|].
  destruct (d_lt _ _); [by intros ?%elem_of_nil|].
  assert (m ∈ candidates b cf scores ->
    exists y, y ∈ x :: scores /\ files_ b !! file_number y = Some m /\ state_ m = kNormal) as Hrec.
  { intros (y & ? & ?)%IH. exists y. split; [by apply list_elem_of_further|done]. }
  destruct (files_ b !! file_number x) as [m'|] eqn:Hm; [|done].
  case_bool_decide as Hs; [|done]. intros [->|H]%elem_of_cons; [|by apply Hrec].
  exists x. split; [apply list_elem_of_here|done].
Qed.

Lemma candidates_sublist b cf scores :
  scores_known b scores -> sublist (file_number_ <$> candidates b cf scores) (file_number <$> scores).
Proof.
  induction 1 as [|x scores (m & Hm & Hn & _) _ IH]; cbn; [done|].
  destruct (d_lt _ _); [apply sublist_nil_l|]. rewrite Hm.
  case_bool_decide; cbn; [rewrite Hn; by apply sublist_skip|by apply sublist_cons].
Qed.

Lemma batch_app max l : forall acc, let '(a, r) := batch max acc l in l = a ++ r.
Proof.
  induction l as [|m l IH]; intros acc; cbn; [done|].
  destruct (_ >=? max); [done|]. specialize (IH (u64 (acc + file_size_ m))). destruct (batch max _ l) as [a r]. cbn. by f_equal.
Qed.

(** A single small file that is not worth collecting by its ratio. *)
Definition single_small (cf : TitanCFOptions) (picked : list BlobFileMeta) : bool :=
  match picked with
  | [m] => (file_size_ m <=? merge_small_file_threshold cf) &&
           d_lt (GetDiscardableRatio m) (blob_file_discardable_ratio cf)
  | _ => false
  end.

Lemma PickBlobGC_spec b cf :
  NoDup (file_number <$> gc_score_ b) -> scores_known b (gc_score_ b) ->
  let '(picked, rest) := batch (max_gc_batch_size cf) 0 (candidates b cf (gc_score_ b)) in
  if bool_decide (picked = []) || (total_size picked <? min_gc_batch_size cf) || single_small cf picked
  then PickBlobGC b cf = Some (None, b)
  else exists files',
    PickBlobGC b cf = Some (Some (mkGC (file_number_ <$> picked) [] cf (exceeds (min_gc_batch_size cf) 0 rest)),
                            set_files b files') /\
    (forall m, m ∈ picked -> files_ b !! file_number_ m = Some m /\ state_ m = kNormal) /\
    forall n, files' !! n = if decide (n ∈ file_number_ <$> picked)
                            then (fun m => set_state m kBeingGC) <$> files_ b !! n else files_ b !! n.
Proof.
  intros Hnd Hk. pose proof (pick_loop_spec b cf (gc_score_ b) PickState_init Hk eq_refl eq_refl eq_refl) as Hp.
  cbn [batch_size PickState_init blob_files] in Hp.
  pose proof (batch_app (max_gc_batch_size cf) (candidates b cf (gc_score_ b)) 0) as Hsplit.
  destruct (batch (max_gc_batch_size cf) 0 (candidates b cf (gc_score_ b))) as [picked rest].
  destruct Hp as (p' & Hloop & Hbf & Hbs & Hct). cbn [app] in Hbf.
  assert (forall m, m ∈ picked -> files_ b !! file_number_ m = Some m /\ state_ m = kNormal) as Hin.
  { intros m Hm. assert (m ∈ candidates b cf (gc_score_ b)) as Hc by (rewrite Hsplit; set_solver).
    apply candidates_elem in Hc as (x & Hx & Hf & Hs). split; [|done].
    unfold scores_known in Hk. rewrite Forall_forall in Hk. destruct (Hk _ Hx) as (m' & Hm' & Hn & _).
    rewrite Hf in Hm'. injection Hm' as <-. by rewrite Hn. }
  assert (NoDup (file_number_ <$> picked)) as Hndp.
  { eapply sublist_NoDup; [exact Hnd|]. transitivity (file_number_ <$> candidates b cf (gc_score_ b)); [|by apply candidates_sublist].
    rewrite Hsplit, fmap_app. by apply sublist_inserts_r. }
  unfold PickBlobGC. rewrite Hloop. cbn [mbind option_bind].
  rewrite Hbs. fold (total_size picked). rewrite Hbf, Hct.
  replace (bool_decide (file_number_ <$> picked = [])) with (bool_decide (picked = [])) by (by destruct picked).
  destruct (bool_decide (picked = []) || (total_size picked <? min_gc_batch_size cf)); [done|]. cbn [orb].
  match goal with |- context [if ?s then Some (None, b) else _] => assert (s = single_small cf picked) as -> end.
  { destruct picked as [|m [|]]; try done. cbn. destruct (Hin m (list_elem_of_here _ _)) as [-> _]. done. }
  destruct (single_small cf picked); [done|].
  destruct (transit_files_spec kGCBegin (fun _ => kBeingGC) (file_number_ <$> picked) b Hndp) as (files' & Ht & Hf).
  { intros n (m & -> & Hm)%list_elem_of_fmap. destruct (Hin _ Hm) as [Hfm Hs].
    exists m. split; [done|]. by rewrite Hs. }
  exists files'. unfold BlobGC_new, MarkFilesBeingGC. cbn [inputs_]. rewrite Ht. cbn. done.
Qed.

(** ** Freshly scored storages *)

(** The files carry their numbers and are past initialisation. *)
Definition initialised (b : BlobStorage) : Prop :=
  forall n m, files_ b !! n = Some m -> file_number_ m = n /\ state_ m <> kInit.

Lemma ComputeGCScore_known b : initialised b ->
  NoDup (file_number <$> gc_score_ (ComputeGCScore b)) /\
  scores_known (ComputeGCScore b) (gc_score_ (ComputeGCScore b)).
Proof.
  intros Hb. unfold ComputeGCScore, scores_known. cbn [gc_score_ set_gc_score files_]. fold (raw_scores b). split.
  - rewrite (fmap_Permutation file_number _ _ (score_sort_perm _)), raw_scores_numbers.
    apply NoDup_fst_map_to_list.
  - rewrite score_sort_perm. apply Forall_forall. intros x Hx.
    apply raw_scores_elem in Hx as (n & m & Hm & _ & ->). destruct (Hb n m Hm).
    by exists m.
Qed.

Lemma transit_initialised b (l : list Z) (s : FileState) files' :
  s <> kInit ->
  (forall n, files' !! n = if decide (n ∈ l) then (fun m => set_state m s) <$> files_ b !! n else files_ b !! n) ->
  initialised b -> initialised (set_files b files').
Proof.
  intros Hs Hf Hb n m. cbn [files_ set_files]. rewrite Hf. destruct (decide _); [|apply Hb].
  destruct (files_ b !! n) as [m'|] eqn:Hm; [|done]. intros [= <-]. destruct (Hb n m' Hm). by split.
Qed.

(** What a pick yields, in one statement. *)
Lemma pick_known b cf : NoDup (file_number <$> gc_score_ b) -> scores_known b (gc_score_ b) ->
  exists r files',
    PickBlobGC b cf = Some (r, set_files b files') /\
    let l := match r with Some gc => inputs_ gc | None => [] end in
    NoDup l /\
    (forall n, n ∈ l -> exists m, files_ b !! n = Some m /\ state_ m = kNormal) /\
    (forall gc, r = Some gc -> outputs_ gc = [] /\ l <> []) /\
    forall n, files' !! n = if decide (n ∈ l) then (fun m => set_state m kBeingGC) <$> files_ b !! n
                            else files_ b !! n.
Proof.
  intros Hnd Hk. pose proof (PickBlobGC_spec _ cf Hnd Hk) as Hs.
  pose proof (batch_app (max_gc_batch_size cf) (candidates b cf (gc_score_ b)) 0) as Hsplit.
  destruct (batch _ _ _) as [picked rest]. destruct (bool_decide_reflect (picked = [])) as [Hp|Hp]; cbn [orb] in Hs.
  2: destruct ((total_size picked <? min_gc_batch_size cf) || single_small cf picked).
  1-2: exists None, (files_ b); split; [rewrite Hs; by destruct b|]; split_and!; [constructor|by intros ? ?%elem_of_nil|done|];
    intros n; by rewrite decide_False by apply not_elem_of_nil.
  destruct Hs as (files' & -> & Hin & Hf). eexists _, files'. split; [reflexivity|]. cbn [inputs_ outputs_].
  split_and!; [| |intros gc [= <-]; split; [done|by destruct picked]|done].
  - eapply sublist_NoDup; [exact Hnd|].
    transitivity (file_number_ <$> candidates b cf (gc_score_ b)); [|by apply candidates_sublist].
    rewrite Hsplit, fmap_app. by apply sublist_inserts_r.
  - intros n (m & -> & Hm)%list_elem_of_fmap. exists m. by apply Hin.
Qed.

Lemma pick_scored b cf : initialised b ->
  exists r files',
    PickBlobGC (ComputeGCScore b) cf = Some (r, set_files (ComputeGCScore b) files') /\
    let l := match r with Some gc => inputs_ gc | None => [] end in
    NoDup l /\
    (forall n, n ∈ l -> exists m, files_ b !! n = Some m /\ state_ m = kNormal) /\
    (forall gc, r = Some gc -> outputs_ gc = [] /\ l <> []) /\
    forall n, files' !! n = if decide (n ∈ l) then (fun m => set_state m kBeingGC) <$> files_ b !! n
                            else files_ b !! n.
Proof. intros Hb. destruct (ComputeGCScore_known b Hb) as [Hnd Hk]. exact (pick_known _ cf Hnd Hk). Qed.

(** ** Properties *)

(** C19: on a freshly scored storage the picker does not fail, and takes, in the
    order of the scores, the shortest run of normal files worth collecting that
    fills a batch, and marks exactly these; it takes nothing when there are
    none, when they do not make up the minimal batch or when the batch is one
    small file without enough garbage; and it asks for another round exactly
    when what is left over exceeds the minimal batch. *)
Theorem PickBlobGC_correct b cf :
  initialised b ->
  let b := ComputeGCScore b in
  let '(picked, rest) := batch (max_gc_batch_size cf) 0 (candidates b cf (gc_score_ b)) in
  exists r b', PickBlobGC b cf = Some (r, b') /\
  match r with
  | None => b' = b /\ (picked = [] \/ total_size picked < min_gc_batch_size cf \/ single_small cf picked = true)
  | Some gc =>
      picked <> [] /\ min_gc_batch_size cf <= total_size picked /\ single_small cf picked = false /\
      inputs_ gc = file_number_ <$> picked /\
      trigger_next_ gc = exceeds (min_gc_batch_size cf) 0 rest /\
      (forall n, n ∈ inputs_ gc -> exists m, files_ b !! n = Some m /\ state_ m = kNormal /\
         files_ b' !! n = Some (set_state m kBeingGC)) /\
      (forall n, n ∉ inputs_ gc -> files_ b' !! n = files_ b !! n)
  end.
Proof.
  intros Hb b1. destruct (ComputeGCScore_known b Hb) as [Hnd Hk]. fold b1 in Hnd, Hk. clearbody b1.
  pose proof (PickBlobGC_spec b1 cf Hnd Hk) as Hs.
  destruct (batch _ _ _) as [picked rest].
  destruct (bool_decide (picked = [])) eqn:E1; [apply bool_decide_eq_true in E1|apply bool_decide_eq_false in E1];
    cbn [orb] in Hs.
  { exists None, b1. auto. }
  destruct (Z.ltb_spec (total_size picked) (min_gc_batch_size cf)) as [E2|E2]; cbn [orb] in Hs.
  { exists None, b1. auto. }
  destruct (single_small cf picked) eqn:E3; [exists None, b1; by auto|].
  destruct Hs as (files' & Hp & Hin & Hf). eexists _, _. split; [exact Hp|]. cbn [inputs_ trigger_next_].
  split_and!; try done.
  - intros n Hn. cbn [files_ set_files]. rewrite Hf, decide_True by done.
    apply list_elem_of_fmap in Hn as (m & -> & Hm). destruct (Hin _ Hm) as [-> ?]. by exists m.
  - intros n Hn. cbn [files_ set_files]. by rewrite Hf, decide_False.
Qed.

(** C40: two collections never share a file. When a second one is picked, after
    a new scoring, while the first has not been released, their inputs are
    disjoint; and once both are released, when they have not changed anything,
    every file of the storage is what it was before the first. *)
Theorem PickBlobGC_exclusive b cf1 cf2 gc1 b1 gc2 b2 :
  initialised b ->
  PickBlobGC (ComputeGCScore b) cf1 = Some (Some gc1, b1) ->
  PickBlobGC (ComputeGCScore b1) cf2 = Some (Some gc2, b2) ->
  inputs_ gc1 ## inputs_ gc2 /\
  exists b3 b4, ReleaseGcFiles b2 gc1 = Some b3 /\ ReleaseGcFiles b3 gc2 = Some b4 /\ files_ b4 = files_ b.
Proof.
  intros Hb H1 H2.
  destruct (pick_scored b cf1 Hb) as (r1 & files1 & E1 & Hnd1 & Hin1 & Ho1 & Hf1). rewrite H1 in E1.
  injection E1 as <- ->. destruct (Ho1 gc1 eq_refl) as [Ho _]. clear Ho1. rename Ho into Ho1.
  assert (initialised (set_files (ComputeGCScore b) files1)) as Hb1.
  { by apply (transit_initialised _ (inputs_ gc1) kBeingGC). }
  destruct (pick_scored _ cf2 Hb1) as (r2 & files2 & E2 & Hnd2 & Hin2 & Ho2 & Hf2). rewrite H2 in E2.
  injection E2 as <- ->. destruct (Ho2 gc2 eq_refl) as [Ho _]. clear Ho2. rename Ho into Ho2. cbn [files_ set_files ComputeGCScore set_gc_score] in *.
  assert (inputs_ gc1 ## inputs_ gc2) as Hdisj.
  { intros n Hn1 Hn2. destruct (Hin2 n Hn2) as (m & Hm & Hs). rewrite Hf1, decide_True in Hm by done.
    destruct (files_ b !! n) as [m0|]; [|done]. injection Hm as <-. done. }
  split; [done|].
  match goal with |- context [ReleaseGcFiles ?x gc1] => set (x2 := x) end.
  destruct (release_inputs_spec (inputs_ gc1) x2 Hnd1) as (files3 & E3 & Hf3).
  { intros n m' Hn. cbn [files_ x2 set_files]. rewrite Hf2, decide_False by (intros ?; by apply (Hdisj n)).
    rewrite Hf1, decide_True by done. destruct (Hin1 n Hn) as (m & -> & _). intros [= <-]. by left. }
  destruct (release_inputs_spec (inputs_ gc2) (set_files x2 files3) Hnd2) as (files4 & E4 & Hf4).
  { intros n m' Hn. cbn [files_ set_files]. rewrite Hf3, decide_False by (intros ?; by apply (Hdisj n)).
    cbn [files_ x2 set_files]. rewrite Hf2, decide_True by done.
    destruct (Hin2 n Hn) as (m & -> & _). intros [= <-]. by left. }
  eexists _, _. unfold ReleaseGcFiles. rewrite Ho1, Ho2, E3. cbn [mbind option_bind transit_files].
  split; [reflexivity|]. rewrite E4. split; [reflexivity|]. cbn [files_ set_files].
  apply map_eq. intros n. rewrite Hf4. cbn [files_ set_files]. rewrite Hf3. cbn [files_ x2 set_files]. rewrite Hf2, Hf1.
  destruct (decide (n ∈ inputs_ gc1)) as [Hn1|Hn1], (decide (n ∈ inputs_ gc2)) as [Hn2|Hn2];
    [by destruct (Hdisj n)| | |done].
  - destruct (Hin1 n Hn1) as (m & -> & Hs). cbn. f_equal. destruct m. cbn in *. by subst.
  - destruct (Hin2 n Hn2) as (m & Hm & Hs). rewrite Hf1, decide_False in Hm by done. rewrite Hm. cbn.
    f_equal. destruct m. cbn in *. by subst.
Qed.

Definition example_gc_options : TitanCFOptions :=
  mkCFOptions 7 4096 0 268435456 15000000 1000000 (d_tenths 5) 8388608 mode_kNormal
    false false 20 false true true "gc.xclbin".

(** Files 11 (two tenths live), 12 (a tenth live) and 13 (all live). *)
Definition example_gc_storage : BlobStorage :=
  (example_add
     (example_add
        (example_add (BlobStorage_new example_gc_options 0, None)
           (example_file 11 10000000 6 2000000 [97] [99] kNormal))
        (example_file 12 20000000 6 2000000 [98] [102] kNormal))
     (example_file 13 30000000 6 29999956 [100] [110] kNormal)).1.

Lemma example_gc_initialised : initialised example_gc_storage.
Proof.
  assert (map_Forall (fun n m => file_number_ m = n /\ state_ m <> kInit) (files_ example_gc_storage)) as H.
  { apply (bool_decide_unpack _). vm_compute. exact I. }
  intros n m Hm. by apply H in Hm.
Qed.

Lemma PickBlobGC_correct_witness :
  exists gc b', PickBlobGC (ComputeGCScore example_gc_storage) example_gc_options = Some (Some gc, b') /\
    inputs_ gc = [12] /\ trigger_next_ gc = true.
Proof.
  pose proof (PickBlobGC_correct example_gc_storage example_gc_options example_gc_initialised) as H.
  cbv zeta in H. destruct (batch _ _ _) as [picked rest] eqn:E. vm_compute in E. injection E as <- <-.
  destruct H as ([gc|] & b' & H & Hr); [|vm_compute in H; discriminate H].
  exists gc, b'. split; [exact H|]. destruct Hr as (_ & _ & _ & H1 & H2 & _).
  rewrite H1, H2. split; vm_compute; reflexivity.
Defined.

Lemma PickBlobGC_exclusive_witness :
  exists gc1 b1 gc2 b2,
    PickBlobGC (ComputeGCScore example_gc_storage) example_gc_options = Some (Some gc1, b1) /\
    PickBlobGC (ComputeGCScore b1) example_gc_options = Some (Some gc2, b2) /\
    inputs_ gc1 = [12] /\ inputs_ gc2 = [11] /\ inputs_ gc1 ## inputs_ gc2.
Proof.
  destruct (PickBlobGC (ComputeGCScore example_gc_storage) example_gc_options) as [[[gc1|] b1]|] eqn:E1;
    [|vm_compute in E1; discriminate E1|vm_compute in E1; discriminate E1].
  destruct (PickBlobGC (ComputeGCScore b1) example_gc_options) as [[[gc2|] b2]|] eqn:E2.
  - exists gc1, b1, gc2, b2. split; [reflexivity|]. split; [exact E2|].
    pose proof (PickBlobGC_exclusive _ _ _ _ _ _ _ example_gc_initialised E1 E2) as [Hd _].
    split_and!; [..|exact Hd].
    + vm_compute in E1. by injection E1 as <- _.
    + vm_compute in E1. injection E1 as _ <-. vm_compute in E2. by injection E2 as <- _.
  - vm_compute in E1. injection E1 as _ <-. vm_compute in E2. discriminate E2.
  - vm_compute in E1. injection E1 as _ <-. vm_compute in E2. discriminate E2.
Defined.
