(* ===== verification/Collectors.v ===== *)
(** * Collectors: what a table file says about blobs

    [blob_file_size_collector.h/.cc] and [blob_validation_collector.h/.cc]: the
    two properties that every table file carries, how they are built from the
    entries of the table, and how [db_impl_gc.cc] reads them back. *)
From S2P Require Import Prelude Coding BlobFormat VersionEdit.

Local Open Scope Z_scope.

(** ** Ordered maps *)

(** [std::map] is traversed in the order of its keys. *)
Definition key_le {A} (x y : Z * A) : Prop := x.1 <= y.1.

#[export] Instance key_le_dec {A} : RelDecision (@key_le A).
Proof. intros x y. apply Z_le_dec. Defined.

#[export] Instance key_le_total {A} : Total (@key_le A).
Proof. intros x y. unfold key_le. lia. Qed.

Definition in_order {A} (m : gmap Z A) : list (Z * A) := merge_sort key_le (map_to_list m).

(** ** The types of table entries *)

Inductive EntryType : Type :=
  | kEntryPut
  | kEntryDelete
  | kEntrySingleDelete
  | kEntryMerge
  | kEntryRangeDeletion
  | kEntryBlobIndex
  | kEntryDeleteWithTimestamp
  | kEntryOther.

#[export] Instance EntryType_eq_dec : EqDecision EntryType.
Proof. solve_decision. Defined.

(** [UserCollectedProperties], and the properties of a table by pointer. *)
Definition UserCollectedProperties : Type := gmap string bytes.

Definition TableProperties : Type := option UserCollectedProperties.

Definition emplace (props : UserCollectedProperties) (k : string) (v : bytes) : UserCollectedProperties :=
  match props !! k with Some _ => props | None => <[k := v]> props end.

(** ** Live sizes *)

Definition BlobFileSizeCollector_kPropertiesName : string := "TitanDB.blob_discardable_size".

Definition BlobFileSizeCollector_Encode (blob_files_size : gmap Z Z) : bytes :=
  PutVarint32 (u32 (Z.of_nat (base.size blob_files_size))) ++
  concat (map (fun bfs : Z * Z => PutVarint64 bfs.1 ++ PutVarint64 bfs.2) (in_order blob_files_size)).

(** The loop of [Decode]: what was decoded before a failure stays in the map. *)
Fixpoint size_decode_loop (num : nat) (slice : bytes) (blob_files_size : gmap Z Z) : bool * gmap Z Z :=
  match num with
  | O => (true, blob_files_size)
  | S num =>
      match GetVarint64 slice with
      | None => (false, blob_files_size)
      | Some (file_number, slice) =>
          match GetVarint64 slice with
          | None => (false, blob_files_size)
          | Some (sz, slice) => size_decode_loop num slice (<[file_number := sz]> blob_files_size)
          end
      end
  end.

Definition BlobFileSizeCollector_Decode (slice : bytes) (blob_files_size : gmap Z Z) : bool * gmap Z Z :=
  match GetVarint32 slice with
  | None => (false, blob_files_size)
  | Some (num, slice) => size_decode_loop (Z.to_nat num) slice blob_files_size
  end.

Definition BlobFileSizeCollector_AddUserKey (blob_files_size_ : gmap Z Z) (value : bytes) (type : EntryType)
    : Status * gmap Z Z :=
  if negb (bool_decide (type = kEntryBlobIndex)) then (OK, blob_files_size_) else
  match BlobIndex_DecodeFrom BlobIndex_default value with
  | Fail s => (s, blob_files_size_)
  | Ret (index, _) =>
      match blob_files_size_ !! BlobFormat.file_number index with
      | None => (OK, <[BlobFormat.file_number index := BlobFormat.size (blob_handle index)]> blob_files_size_)
      | Some v => (OK, <[BlobFormat.file_number index := u64 (v + BlobFormat.size (blob_handle index))]> blob_files_size_)
      end
  end.

Definition BlobFileSizeCollector_Finish (blob_files_size_ : gmap Z Z) (properties : UserCollectedProperties)
    : UserCollectedProperties :=
  if bool_decide (blob_files_size_ = ∅) then properties
  else emplace properties BlobFileSizeCollector_kPropertiesName (BlobFileSizeCollector_Encode blob_files_size_).

(** ** Entry indexes *)

Definition BlobValidationCollector_kPropertiesName : string := "TitanDB.blob_validation".

(** The order in which a hash map is traversed is that of [map_to_list]. *)
Definition BlobValidationCollector_Encode (blob_entry_indexes : gmap Z (list Z)) : bytes :=
  PutVarint32 (u32 (Z.of_nat (base.size blob_entry_indexes))) ++
  concat (map (fun item : Z * list Z =>
                 PutVarint64 item.1 ++ PutVarint32 (u32 (zlen item.2)) ++
                 concat (map PutVarint64 item.2))
            (map_to_list blob_entry_indexes)).

(** [push_back] on the vector of a file, which [operator\[\]] creates. *)
Definition push_index (m : gmap Z (list Z)) (file_number entry : Z) : gmap Z (list Z) :=
  <[file_number := default [] (m !! file_number) ++ [entry]]> m.

Fixpoint index_decode_loop (n : nat) (file_number : Z) (slice : bytes) (m : gmap Z (list Z))
    : bool * bytes * gmap Z (list Z) :=
  match n with
  | O => (true, slice, m)
  | S n =>
      match GetVarint64 slice with
      | None => (false, slice, m)
      | Some (entry, slice) => index_decode_loop n file_number slice (push_index m file_number entry)
      end
  end.

Fixpoint validation_decode_loop (num : nat) (slice : bytes) (m : gmap Z (list Z)) : bool * gmap Z (list Z) :=
  match num with
  | O => (true, m)
  | S num =>
      match GetVarint64 slice with
      | None => (false, m)
      | Some (file_number, slice) =>
          match GetVarint32 slice with
          | None => (false, m)
          | Some (n, slice) =>
              let '(b, slice, m) := index_decode_loop (Z.to_nat n) file_number slice m in
              if b : bool then validation_decode_loop num slice m else (false, m)
          end
      end
  end.

Definition BlobValidationCollector_Decode (slice : bytes) (blob_entry_indexes : gmap Z (list Z))
    : bool * gmap Z (list Z) :=
  match GetVarint32 slice with
  | None => (false, blob_entry_indexes)
  | Some (num, slice) => validation_decode_loop (Z.to_nat num) slice blob_entry_indexes
  end.

Definition BlobValidationCollector_AddUserKey (blob_invalid_entries_ : gmap Z (list Z)) (value : bytes)
    (type : EntryType) : Status * gmap Z (list Z) :=
  if negb (bool_decide (type = kEntryBlobIndex)) then (OK, blob_invalid_entries_) else
  match BlobIndex_DecodeFrom BlobIndex_default value with
  | Fail s => (s, blob_invalid_entries_)
  | Ret (index, _) =>
      (OK, push_index blob_invalid_entries_ (BlobFormat.file_number index) (BlobFormat.index (blob_handle index)))
  end.

Definition BlobValidationCollector_Finish (blob_invalid_entries_ : gmap Z (list Z))
    (properties : UserCollectedProperties) : UserCollectedProperties :=
  if bool_decide (blob_invalid_entries_ = ∅) then properties
  else emplace properties BlobValidationCollector_kPropertiesName
         (BlobValidationCollector_Encode blob_invalid_entries_).

(** ** Reading the properties of a table *)

Definition int64_ok (z : Z) : bool := (- 2 ^ 63 <=? z) && (z <? 2 ^ 63).

(** The loop that adds the sizes to the differences; [None] is a signed
    overflow. *)
Fixpoint add_sizes (to_add : bool) (sizes : list (Z * Z)) (diff : gmap Z Z) : option (gmap Z Z) :=
  match sizes with
  | [] => Some diff
  | (file_number, sz) :: sizes =>
      let d := i64 sz in
      _ ← assert (to_add || int64_ok (- d));
      let d := if to_add then d else - d in
      let v := default 0 (diff !! file_number) + d in
      _ ← assert (int64_ok v);
      add_sizes to_add sizes (<[file_number := v]> diff)
  end.

Definition ExtractGCStatsFromTableProperty (table_properties : TableProperties) (to_add : bool)
    (blob_file_size_diff : gmap Z Z) : option (Status * gmap Z Z) :=
  match table_properties with
  | None => Some (OK, blob_file_size_diff)
  | Some prop =>
      match prop !! BlobFileSizeCollector_kPropertiesName with
      | None => Some (OK, blob_file_size_diff)
      | Some slice =>
          let '(decoded, blob_file_sizes) := BlobFileSizeCollector_Decode slice ∅ in
          if negb decoded then Some (Corruption, blob_file_size_diff) else
          diff ← add_sizes to_add (in_order blob_file_sizes) blob_file_size_diff;
          Some (OK, diff)
      end
  end.

Definition ExtractBlobValidationFromTableProperty (table_properties : TableProperties)
    (blob_validation_diff_index : gmap Z (list Z)) : Status * gmap Z (list Z) :=
  match table_properties with
  | None => (OK, blob_validation_diff_index)
  | Some prop =>
      match prop !! BlobValidationCollector_kPropertiesName with
      | None => (OK, blob_validation_diff_index)
      | Some slice =>
          let '(decoded, m) := BlobValidationCollector_Decode slice blob_validation_diff_index in
          if negb decoded then (Corruption, m) else (OK, m)
      end
  end.
