(* ===== verification/CollectorsProofs.v ===== *)
(** * CollectorsProofs: the properties of a table tell what it references

    The two encodings round-trip, and what is read back from a finished table is
    exactly what its entries reference: the total size per blob file, and the
    indexes of the referenced records. *)
From S2P Require Import Prelude Coding BlobFormat VersionEdit Collectors.

Local Open Scope Z_scope.

(** ** Reference: the blob indexes in a table *)

(** An entry of a table: its value and its type. *)
Abbreviation entry := (bytes * EntryType)%type (only parsing).

Definition ref_of (e : entry) : option BlobIndex :=
  if bool_decide (e.2 = kEntryBlobIndex) then
    match BlobIndex_DecodeFrom BlobIndex_default e.1 with Ret (i, _) => Some i | Fail _ => None end
  else None.

Definition refs (entries : list entry) : list BlobIndex := omap ref_of entries.

Definition refs_to (n : Z) (l : list BlobIndex) : list BlobIndex :=
  filter (fun i => BlobFormat.file_number i = n) l.

Definition sum_sizes (l : list BlobIndex) : Z :=
  foldr (fun i acc => BlobFormat.size (blob_handle i) + acc) 0 l.

Definition indexes (l : list BlobIndex) : list Z := (fun i => BlobFormat.index (blob_handle i)) <$> l.

(** The collectors of a table under construction. *)
Definition build_sizes (entries : list entry) : gmap Z Z :=
  foldl (fun m e => (BlobFileSizeCollector_AddUserKey m e.1 e.2).2) ∅ entries.

Definition build_indexes (entries : list entry) : gmap Z (list Z) :=
  foldl (fun m e => (BlobValidationCollector_AddUserKey m e.1 e.2).2) ∅ entries.

(** ** Lists and maps *)

Lemma in_order_perm {A} (m : gmap Z A) : in_order m ≡ₚ map_to_list m.
Proof. apply merge_sort_Permutation. Qed.

Lemma in_order_nodup {A} (m : gmap Z A) : NoDup (in_order m).*1.
Proof. rewrite (fmap_Permutation fst _ _ (in_order_perm m)). apply NoDup_fst_map_to_list. Qed.

Lemma in_order_elem {A} (m : gmap Z A) k v : (k, v) ∈ in_order m <-> m !! k = Some v.
Proof. rewrite in_order_perm. apply elem_of_map_to_list. Qed.

Lemma in_order_length {A} (m : gmap Z A) : length (in_order m) = base.size m.
Proof. by rewrite (Permutation_length (in_order_perm m)), length_map_to_list. Qed.

Lemma in_order_to_map {A} (m : gmap Z A) : list_to_map (in_order m) = m.
Proof.
  rewrite <- (list_to_map_to_list m) at 2. apply list_to_map_proper; [apply in_order_nodup|apply in_order_perm].
Qed.

Lemma foldl_insert {A} (l : list (Z * A)) : forall m : gmap Z A,
  NoDup l.*1 -> foldl (fun m kv => <[kv.1 := kv.2]> m) m l = list_to_map l ∪ m.
Proof.
  induction l as [|[k v] l IH]; intros m Hnd; cbn.
  { by rewrite (left_id_L ∅ (∪)). }
  apply NoDup_cons in Hnd as [Hk Hnd]. rewrite IH by done.
  rewrite <- insert_union_l, insert_union_r; [done|]. by apply not_elem_of_list_to_map_1.
Qed.

Lemma foldl_omap {A B C} (f : C -> B -> C) (g : A -> option B) (l : list A) : forall c,
  foldl (fun c a => match g a with Some b => f c b | None => c end) c l = foldl f c (omap g l).
Proof. induction l as [|a l IH]; intros c; cbn; [done|]. rewrite IH. by destruct (g a). Qed.

Lemma foldl_ext {A B} (f g : B -> A -> B) (l : list A) : forall b,
  (forall b a, f b a = g b a) -> foldl f b l = foldl g b l.
Proof. induction l as [|a l IH]; intros b H; cbn; [done|]. rewrite H. by apply IH. Qed.

Lemma refs_to_app n a b : refs_to n (a ++ b) = refs_to n a ++ refs_to n b.
Proof. apply filter_app. Qed.

Lemma refs_to_cons n i l :
  refs_to n (i :: l) = if decide (BlobFormat.file_number i = n) then i :: refs_to n l else refs_to n l.
Proof. unfold refs_to. by rewrite filter_cons. Qed.

Lemma sum_sizes_app a b : sum_sizes (a ++ b) = sum_sizes a + sum_sizes b.
Proof. unfold sum_sizes. induction a as [|i a IH]; cbn; [done|]. rewrite IH. lia. Qed.

(** What the decoder of blob indexes yields has 64-bit fields. *)
Definition ref_wf (i : BlobIndex) : Prop :=
  is_u64 (BlobFormat.file_number i) /\ is_u64 (BlobFormat.size (blob_handle i)) /\
  is_u64 (BlobFormat.index (blob_handle i)).

Lemma BlobHandle_DecodeFrom_wf src h src' :
  BlobHandle_DecodeFrom src = Ret (h, src') -> is_u64 (BlobFormat.size h) /\ is_u64 (BlobFormat.index h).
Proof.
  unfold BlobHandle_DecodeFrom. destruct (GetVarint64 src) as [[o s1]|] eqn:E1; cbn; [|done].
  destruct (GetVarint64 s1) as [[z s2]|] eqn:E2; cbn; [|done].
  destruct (GetVarint64 s2) as [[i s3]|] eqn:E3; cbn; [|done].
  intros [= <- <-]. cbn. by apply GetVarint64_result in E2 as [? _], E3 as [? _].
Qed.

Lemma BlobIndex_DecodeFrom_wf self src i src' :
  BlobIndex_DecodeFrom self src = Ret (i, src') -> ref_wf i.
Proof.
  unfold BlobIndex_DecodeFrom. destruct (GetChar src) as [[ty s1]|]; cbn; [|done].
  destruct (negb _); [done|]. destruct (GetVarint64 s1) as [[n s2]|] eqn:E2; cbn; [|done].
  destruct (BlobHandle_DecodeFrom s2) as [[h s3]|] eqn:E3; cbn; [|done].
  apply GetVarint64_result in E2 as [H2 _]. apply BlobHandle_DecodeFrom_wf in E3 as [? ?].
  destruct (negb _); [|by intros [= <- <-]].
  destruct (GetVarint64 s3) as [[on s4]|]; cbn; [|done].
  destruct (BlobHandle_DecodeFrom s4) as [[oh s5]|]; cbn; [|done]. by intros [= <- <-].
Qed.

Lemma refs_wf entries : Forall ref_wf (refs entries).
Proof.
  apply Forall_forall. intros i ([v t] & _ & Hi)%list_elem_of_omap. unfold ref_of in Hi.
  destruct (bool_decide _); [|done]. cbn in Hi.
  destruct (BlobIndex_DecodeFrom BlobIndex_default v) as [[i' s]|] eqn:E; [|done]. injection Hi as <-.
  by apply BlobIndex_DecodeFrom_wf in E.
Qed.

Lemma refs_length entries : (length (refs entries) <= length entries)%nat.
Proof. unfold refs. induction entries as [|e l IH]; cbn; [lia|]. destruct (ref_of e); cbn; lia. Qed.

(** ** What the collectors build *)

Lemma build_indexes_refs entries :
  build_indexes entries =
    foldl (fun m i => push_index m (BlobFormat.file_number i) (BlobFormat.index (blob_handle i))) ∅ (refs entries).
Proof.
  unfold build_indexes, refs. rewrite <- foldl_omap. apply foldl_ext. intros m [v t].
  unfold BlobValidationCollector_AddUserKey, ref_of. cbn. destruct (bool_decide _); cbn; [|done].
  by destruct (BlobIndex_DecodeFrom _ _) as [[]|].
Qed.

Lemma foldl_push (l : list BlobIndex) : forall m n,
  foldl (fun m i => push_index m (BlobFormat.file_number i) (BlobFormat.index (blob_handle i))) m l !! n =
    if decide (refs_to n l = []) then m !! n else Some (default [] (m !! n) ++ indexes (refs_to n l)).
Proof.
  induction l as [|i l IH]; intros m n; cbn [foldl]; [done|]. rewrite IH, !refs_to_cons.
  unfold push_index. destruct (decide (BlobFormat.file_number i = n)) as [<-|Hne].
  - rewrite lookup_insert_eq. cbn. rewrite (decide_False (P := _ :: _ = [])) by done.
    case_decide as E; [by rewrite E|]. by rewrite <- app_assoc.
  - by rewrite lookup_insert_ne by done.
Qed.

Lemma build_indexes_lookup entries n :
  build_indexes entries !! n =
    if decide (refs_to n (refs entries) = []) then None else Some (indexes (refs_to n (refs entries))).
Proof. rewrite build_indexes_refs, foldl_push, lookup_empty. done. Qed.

(** One reference, added to the sizes. *)
Definition add_ref (m : gmap Z Z) (i : BlobIndex) : gmap Z Z :=
  match m !! BlobFormat.file_number i with
  | None => <[BlobFormat.file_number i := BlobFormat.size (blob_handle i)]> m
  | Some v => <[BlobFormat.file_number i := u64 (v + BlobFormat.size (blob_handle i))]> m
  end.

Lemma build_sizes_refs entries : build_sizes entries = foldl add_ref ∅ (refs entries).
Proof.
  unfold build_sizes, refs. rewrite <- foldl_omap. apply foldl_ext. intros m [v t].
  unfold BlobFileSizeCollector_AddUserKey, ref_of, add_ref. cbn. destruct (bool_decide _); cbn; [|done].
  destruct (BlobIndex_DecodeFrom _ _) as [[i s]|]; [|done]. by destruct (m !! _).
Qed.

Lemma sum_sizes_nonneg l : Forall ref_wf l -> 0 <= sum_sizes l.
Proof. induction 1 as [|i l (_ & [? _] & _) _ IH]; cbn; [done|]. unfold sum_sizes in IH. lia. Qed.

Lemma sum_sizes_refs_to n l : Forall ref_wf l -> 0 <= sum_sizes (refs_to n l) <= sum_sizes l.
Proof.
  induction 1 as [|i l (_ & [? _] & _) _ IH]; [done|]. rewrite refs_to_cons.
  destruct (decide _); unfold sum_sizes in *; cbn; lia.
Qed.

Lemma build_sizes_lookup entries n :
  sum_sizes (refs entries) < 2 ^ 64 ->
  build_sizes entries !! n =
    if decide (refs_to n (refs entries) = []) then None else Some (sum_sizes (refs_to n (refs entries))).
Proof.
  rewrite build_sizes_refs. pose proof (refs_wf entries) as Hwf. revert Hwf. generalize (refs entries). intros l.
  induction l as [|i l IH] using rev_ind; intros Hwf Hs; [done|].
  apply Forall_app in Hwf as [Hwf Hi]. apply Forall_singleton in Hi as (_ & [Hi _] & _).
  rewrite sum_sizes_app in Hs. cbn in Hs. rewrite foldl_app. cbn [foldl].
  pose proof (sum_sizes_refs_to n l Hwf) as Hn. specialize (IH Hwf ltac:(lia)).
  rewrite refs_to_app, refs_to_cons. change (refs_to n []) with (@nil BlobIndex). unfold add_ref at 1.
  destruct (decide (BlobFormat.file_number i = n)) as [Hin|Hin].
  - rewrite Hin, IH. rewrite (decide_False (P := _ ++ _ = [])) by (intros [_ ?]%app_eq_nil; done).
    rewrite sum_sizes_app. cbn. case_decide as E.
    + rewrite lookup_insert_eq, E. cbn. f_equal. lia.
    + rewrite lookup_insert_eq. f_equal. rewrite u64_small by (unfold is_u64; lia). lia.
  - rewrite !app_nil_r, <- IH. destruct (foldl add_ref ∅ l !! BlobFormat.file_number i); by rewrite lookup_insert_ne by done.
Qed.

(** ** The encoding of the sizes *)

Lemma size_decode_loop_spec l : forall rest m,
  Forall (fun kv : Z * Z => is_u64 kv.1 /\ is_u64 kv.2) l ->
  size_decode_loop (length l) (concat (map (fun bfs => PutVarint64 bfs.1 ++ PutVarint64 bfs.2) l) ++ rest) m =
    (true, foldl (fun m kv => <[kv.1 := kv.2]> m) m l).
Proof.
  induction l as [|[k v] l IH]; intros rest m H; [done|]. apply Forall_cons in H as [[Hk Hv] H].
  cbn [length map concat fst snd size_decode_loop foldl]. rewrite <- !app_assoc.
  rewrite GetVarint64_Put by done. rewrite GetVarint64_Put by done. by apply IH.
Qed.

Definition sizes_wf (m : gmap Z Z) : Prop :=
  Z.of_nat (base.size m) < 2 ^ 32 /\ map_Forall (fun k v => is_u64 k /\ is_u64 v) m.

Lemma BlobFileSizeCollector_Decode_Encode m :
  sizes_wf m -> BlobFileSizeCollector_Decode (BlobFileSizeCollector_Encode m) ∅ = (true, m).
Proof.
  intros [Hs Hm]. unfold BlobFileSizeCollector_Decode, BlobFileSizeCollector_Encode.
  assert (is_u32 (Z.of_nat (base.size m))) as Hu by (unfold is_u32; lia).
  rewrite u32_small by done. rewrite GetVarint32_Put by done.
  rewrite Nat2Z.id, <- in_order_length. rewrite <- (app_nil_r (concat _)), size_decode_loop_spec.
  - by rewrite foldl_insert, in_order_to_map, (right_id_L ∅ (∪)) by apply in_order_nodup.
  - apply Forall_forall. intros [k v] Hin%in_order_elem. by apply (Hm k v).
Qed.

(** ** The encoding of the indexes *)

Lemma index_decode_loop_spec l : forall n rest m,
  Forall is_u64 l ->
  index_decode_loop (length l) n (concat (map PutVarint64 l) ++ rest) m =
    (true, rest, foldl (fun m e => push_index m n e) m l).
Proof.
  induction l as [|e l IH]; intros n rest m H; [done|]. apply Forall_cons in H as [He H].
  cbn [length map concat index_decode_loop foldl]. rewrite <- app_assoc, GetVarint64_Put by done. by apply IH.
Qed.

Lemma foldl_push_file n l : forall (m : gmap Z (list Z)) k,
  default [] (foldl (fun m e => push_index m n e) m l !! k) =
    default [] (m !! k) ++ (if decide (k = n) then l else []).
Proof.
  induction l as [|e l IH]; intros m k; cbn [foldl].
  - case_decide; by rewrite app_nil_r.
  - rewrite IH. unfold push_index. destruct (decide (k = n)) as [->|Hne].
    + rewrite lookup_insert_eq. cbn. by rewrite <- app_assoc.
    + by rewrite lookup_insert_ne by done.
Qed.

Lemma validation_decode_loop_spec l : forall rest m,
  NoDup l.*1 ->
  Forall (fun kv : Z * list Z => is_u64 kv.1 /\ is_u32 (zlen kv.2) /\ Forall is_u64 kv.2) l ->
  exists m', validation_decode_loop (length l)
    (concat (map (fun item : Z * list Z => PutVarint64 item.1 ++ PutVarint32 (u32 (zlen item.2)) ++
                  concat (map PutVarint64 item.2)) l) ++ rest) m = (true, m') /\
    forall n, default [] (m' !! n) = default [] (m !! n) ++ default [] ((list_to_map l : gmap Z (list Z)) !! n).
Proof.
  induction l as [|[k es] l IH]; intros rest m Hnd H.
  { exists m. split; [done|]. intros n. cbn [list_to_map foldr]. by rewrite (lookup_empty (M := gmap Z)), app_nil_r. }
  apply Forall_cons in H as [(Hk & Hz & He) H]. cbn in Hnd. apply NoDup_cons in Hnd as [Hnk Hnd].
  cbn [length map concat fst snd validation_decode_loop]. rewrite <- !app_assoc.
  rewrite GetVarint64_Put by done. rewrite u32_small by done. rewrite GetVarint32_Put by done.
  rewrite zlen_to_nat, index_decode_loop_spec by done.
  destruct (IH rest (foldl (fun m e => push_index m k e) m es) Hnd H) as (m' & Hm & Hm').
  exists m'. split; [exact Hm|]. intros n. rewrite Hm', foldl_push_file, <- app_assoc. f_equal.
  cbn. destruct (decide (n = k)) as [->|Hne].
  - rewrite lookup_insert_eq. cbn. rewrite not_elem_of_list_to_map_1 by done. by rewrite app_nil_r.
  - by rewrite lookup_insert_ne by done.
Qed.

Definition indexes_wf (m : gmap Z (list Z)) : Prop :=
  Z.of_nat (base.size m) < 2 ^ 32 /\
  map_Forall (fun k l => is_u64 k /\ is_u32 (zlen l) /\ Forall is_u64 l) m.

Lemma BlobValidationCollector_Decode_Encode m m0 :
  indexes_wf m ->
  exists m', BlobValidationCollector_Decode (BlobValidationCollector_Encode m) m0 = (true, m') /\
    forall n, default [] (m' !! n) = default [] (m0 !! n) ++ default [] (m !! n).
Proof.
  intros [Hs Hm]. unfold BlobValidationCollector_Decode, BlobValidationCollector_Encode.
  assert (is_u32 (Z.of_nat (base.size m))) as Hu by (unfold is_u32; lia).
  rewrite u32_small by done. rewrite GetVarint32_Put by done.
  rewrite Nat2Z.id, <- length_map_to_list.
  destruct (validation_decode_loop_spec (map_to_list m) [] m0) as (m' & H & H').
  - apply NoDup_fst_map_to_list.
  - apply Forall_forall. intros [k v] Hin%elem_of_map_to_list. by apply (Hm k v).
  - rewrite app_nil_r in H. exists m'. split; [exact H|]. intros n. by rewrite H', list_to_map_to_list.
Qed.

(** ** A finished table *)

(** The properties of a table with these entries. *)
Definition table_properties (entries : list entry) : TableProperties :=
  Some (BlobValidationCollector_Finish (build_indexes entries)
          (BlobFileSizeCollector_Finish (build_sizes entries) ∅)).

Lemma emplace_eq props k v : props !! k = None -> emplace props k v !! k = Some v.
Proof. intros H. unfold emplace. rewrite H. apply lookup_insert_eq. Qed.

Lemma emplace_ne props k v k' : k <> k' -> emplace props k v !! k' = props !! k'.
Proof. intros H. unfold emplace. destruct (props !! k); [done|]. by apply lookup_insert_ne. Qed.

Lemma size_Finish_lookup m :
  BlobFileSizeCollector_Finish m ∅ !! BlobFileSizeCollector_kPropertiesName =
    if bool_decide (m = ∅) then None else Some (BlobFileSizeCollector_Encode m).
Proof. unfold BlobFileSizeCollector_Finish. case_bool_decide; [done|]. by rewrite emplace_eq. Qed.

Lemma table_sizes_lookup entries :
  match table_properties entries with Some p => p !! BlobFileSizeCollector_kPropertiesName | None => None end =
    if bool_decide (build_sizes entries = ∅) then None
    else Some (BlobFileSizeCollector_Encode (build_sizes entries)).
Proof.
  unfold table_properties, BlobValidationCollector_Finish.
  case_bool_decide; [apply size_Finish_lookup|]. rewrite emplace_ne by done. apply size_Finish_lookup.
Qed.

Lemma table_indexes_lookup entries :
  match table_properties entries with Some p => p !! BlobValidationCollector_kPropertiesName | None => None end =
    if bool_decide (build_indexes entries = ∅) then None
    else Some (BlobValidationCollector_Encode (build_indexes entries)).
Proof.
  unfold table_properties, BlobValidationCollector_Finish.
  assert (BlobFileSizeCollector_Finish (build_sizes entries) ∅ !! BlobValidationCollector_kPropertiesName = None) as H.
  { unfold BlobFileSizeCollector_Finish. case_bool_decide; [done|]. by rewrite emplace_ne. }
  case_bool_decide; [exact H|by rewrite emplace_eq].
Qed.

Lemma size_foldl_add_ref l : forall m : gmap Z Z, (base.size (foldl add_ref m l) <= base.size m + length l)%nat.
Proof.
  induction l as [|i l IH]; intros m; cbn [foldl length]; [lia|]. specialize (IH (add_ref m i)).
  assert (base.size (add_ref m i) <= S (base.size m))%nat; [|lia].
  unfold add_ref. destruct (m !! _) eqn:E; rewrite map_size_insert, E; cbn; lia.
Qed.

Lemma size_foldl_push l : forall m : gmap Z (list Z),
  (base.size (foldl (fun m i => push_index m (BlobFormat.file_number i) (BlobFormat.index (blob_handle i))) m l)
   <= base.size m + length l)%nat.
Proof.
  induction l as [|i l IH]; intros m; cbn [foldl length]; [lia|].
  specialize (IH (push_index m (BlobFormat.file_number i) (BlobFormat.index (blob_handle i)))).
  assert (base.size (push_index m (BlobFormat.file_number i) (BlobFormat.index (blob_handle i))) <= S (base.size m))%nat; [|lia].
  unfold push_index. rewrite map_size_insert. destruct (m !! _); cbn; lia.
Qed.

Lemma refs_to_elem n l i : i ∈ refs_to n l <-> BlobFormat.file_number i = n /\ i ∈ l.
Proof. unfold refs_to. by rewrite list_elem_of_filter. Qed.

Lemma refs_to_wf n entries : refs_to n (refs entries) <> [] -> is_u64 n.
Proof.
  destruct (refs_to n (refs entries)) as [|i l] eqn:E; [done|]. intros _.
  assert (i ∈ refs_to n (refs entries)) as Hi by (rewrite E; apply list_elem_of_here).
  apply refs_to_elem in Hi as [<- Hi]. pose proof (refs_wf entries) as Hwf. rewrite Forall_forall in Hwf.
  by apply Hwf.
Qed.

Lemma build_sizes_wf entries :
  sum_sizes (refs entries) < 2 ^ 64 -> zlen entries < 2 ^ 32 -> sizes_wf (build_sizes entries).
Proof.
  intros Hs Hl. split.
  - rewrite build_sizes_refs. pose proof (size_foldl_add_ref (refs entries) ∅) as H. rewrite map_size_empty in H.
    pose proof (refs_length entries). unfold zlen in Hl. lia.
  - intros n v Hv. rewrite build_sizes_lookup in Hv by done. case_decide as E; [done|]. injection Hv as <-.
    split; [by apply refs_to_wf in E|]. pose proof (sum_sizes_refs_to n _ (refs_wf entries)). unfold is_u64. lia.
Qed.

Lemma refs_to_length n l : (length (refs_to n l) <= length l)%nat.
Proof. apply length_filter. Qed.

Lemma build_indexes_wf entries : zlen entries < 2 ^ 32 -> indexes_wf (build_indexes entries).
Proof.
  intros Hl. pose proof (refs_length entries) as Hr. unfold zlen in Hl. split.
  - rewrite build_indexes_refs. pose proof (size_foldl_push (refs entries) ∅) as H. rewrite map_size_empty in H. lia.
  - intros n l Hv. rewrite build_indexes_lookup in Hv. case_decide as E; [done|]. injection Hv as <-.
    split; [by apply refs_to_wf in E|]. split.
    + unfold is_u32, zlen, indexes. rewrite length_fmap. pose proof (refs_to_length n (refs entries)). lia.
    + apply Forall_fmap, Forall_forall. intros i [_ Hi]%refs_to_elem. pose proof (refs_wf entries) as Hwf.
      rewrite Forall_forall in Hwf. by apply Hwf.
Qed.

Definition signed (to_add : bool) (z : Z) : Z := if to_add then z else - z.

Lemma i64_small z : 0 <= z < 2 ^ 63 -> i64 z = z.
Proof. intros H. unfold i64. rewrite u64_small by (unfold is_u64; lia). destruct (Z.ltb_spec z (2 ^ 63)); lia. Qed.

Lemma int64_ok_iff z : int64_ok z = true <-> - 2 ^ 63 <= z < 2 ^ 63.
Proof. unfold int64_ok. rewrite andb_true_iff, Z.leb_le, Z.ltb_lt. tauto. Qed.

Lemma add_sizes_spec to_add l : forall diff,
  NoDup l.*1 ->
  (forall k v, (k, v) ∈ l -> 0 <= v < 2 ^ 63 /\ int64_ok (default 0 (diff !! k) + signed to_add v) = true) ->
  exists diff', add_sizes to_add l diff = Some diff' /\
    forall n, diff' !! n = match (list_to_map l : gmap Z Z) !! n with
                           | Some v => Some (default 0 (diff !! n) + signed to_add v)
                           | None => diff !! n
                           end.
Proof.
  induction l as [|[k v] l IH]; intros diff Hnd H.
  { exists diff. split; [done|]. intros n. cbn [list_to_map foldr]. by rewrite (lookup_empty (M := gmap Z)). }
  cbn in Hnd. apply NoDup_cons in Hnd as [Hk Hnd].
  destruct (H k v (list_elem_of_here _ _)) as [Hv Hok]. cbn [add_sizes]. rewrite i64_small by done.
  replace (to_add || int64_ok (- v)) with true.
  2:{ symmetry. destruct to_add; [done|]. cbn. apply int64_ok_iff. lia. }
  cbn [assert mbind option_bind]. fold (signed to_add v). rewrite Hok. cbn [assert mbind option_bind].
  destruct (IH (<[k := default 0 (diff !! k) + signed to_add v]> diff) Hnd) as (diff' & -> & Hd).
  { intros k' v' Hin. rewrite lookup_insert_ne; [by apply H, list_elem_of_further|].
    intros ->. apply Hk. apply list_elem_of_fmap. by exists (k', v'). }
  exists diff'. split; [done|]. intros n. rewrite Hd. cbn. destruct (decide (n = k)) as [->|Hne].
  - by rewrite not_elem_of_list_to_map_1, !lookup_insert_eq by done.
  - by rewrite !lookup_insert_ne by done.
Qed.

(** What the statistics of a finished table add to the differences. *)
Lemma extract_sizes_spec entries to_add diff :
  sum_sizes (refs entries) < 2 ^ 63 -> zlen entries < 2 ^ 32 ->
  (forall n, int64_ok (default 0 (diff !! n) + signed to_add (sum_sizes (refs_to n (refs entries)))) = true) ->
  exists diff', ExtractGCStatsFromTableProperty (table_properties entries) to_add diff = Some (OK, diff') /\
    forall n, diff' !! n = if decide (refs_to n (refs entries) = []) then diff !! n
                           else Some (default 0 (diff !! n) + signed to_add (sum_sizes (refs_to n (refs entries)))).
Proof.
  intros Hs Hl Hok. pose proof (table_sizes_lookup entries) as Ht. unfold table_properties in *. cbn in Ht.
  unfold ExtractGCStatsFromTableProperty. rewrite Ht.
  assert (forall n, build_sizes entries !! n = if decide (refs_to n (refs entries) = []) then None
            else Some (sum_sizes (refs_to n (refs entries)))) as Hb by (intros n; apply build_sizes_lookup; lia).
  case_bool_decide as E.
  { exists diff. split; [done|]. intros n. specialize (Hb n). rewrite E, lookup_empty in Hb. by case_decide. }
  rewrite BlobFileSizeCollector_Decode_Encode by (apply build_sizes_wf; [lia|done]). cbn [negb].
  destruct (add_sizes_spec to_add (in_order (build_sizes entries)) diff) as (diff' & -> & Hd).
  - apply in_order_nodup.
  - intros k v Hkv%in_order_elem. rewrite Hb in Hkv. case_decide; [done|]. injection Hkv as <-.
    pose proof (sum_sizes_refs_to k _ (refs_wf entries)). split; [lia|]. apply Hok.
  - exists diff'. split; [done|]. intros n. rewrite Hd, in_order_to_map, Hb. by case_decide.
Qed.

Lemma extract_indexes_spec entries m :
  zlen entries < 2 ^ 32 ->
  exists m', ExtractBlobValidationFromTableProperty (table_properties entries) m = (OK, m') /\
    forall n, default [] (m' !! n) = default [] (m !! n) ++ indexes (refs_to n (refs entries)).
Proof.
  intros Hl. pose proof (table_indexes_lookup entries) as Ht. unfold table_properties in *. cbn in Ht.
  unfold ExtractBlobValidationFromTableProperty. rewrite Ht.
  assert (forall n, default [] (build_indexes entries !! n) = indexes (refs_to n (refs entries))) as Hb.
  { intros n. rewrite build_indexes_lookup. destruct (decide (refs_to n (refs entries) = [])) as [E|]; [by rewrite E|done]. }
  case_bool_decide as E.
  { exists m. split; [done|]. intros n. specialize (Hb n). rewrite E in Hb. cbn in Hb. by rewrite <- Hb, app_nil_r. }
  destruct (BlobValidationCollector_Decode_Encode (build_indexes entries) m (build_indexes_wf entries Hl)) as (m' & -> & Hm).
  exists m'. split; [done|]. intros n. by rewrite Hm, Hb.
Qed.

(** ** Properties *)

(** C21: whatever entries a table is built from, what its two properties say,
    once written and read back, is exactly what the entries reference: for each
    blob file the total size of the records that the table references, and the
    list of their indexes, in the order of the entries. *)
Theorem table_properties_exact (entries : list entry) to_add :
  sum_sizes (refs entries) < 2 ^ 63 -> zlen entries < 2 ^ 32 ->
  exists diff idx,
    ExtractGCStatsFromTableProperty (table_properties entries) to_add ∅ = Some (OK, diff) /\
    ExtractBlobValidationFromTableProperty (table_properties entries) ∅ = (OK, idx) /\
    forall n, default 0 (diff !! n) = signed to_add (sum_sizes (refs_to n (refs entries))) /\
              default [] (idx !! n) = indexes (refs_to n (refs entries)).
Proof.
  intros Hs Hl. destruct (extract_sizes_spec entries to_add ∅ Hs Hl) as (diff & H1 & Hd).
  { intros n. rewrite lookup_empty. pose proof (sum_sizes_refs_to n _ (refs_wf entries)).
    apply int64_ok_iff. destruct to_add; cbn; lia. }
  destruct (extract_indexes_spec entries ∅ Hl) as (idx & H2 & Hi). exists diff, idx. split; [done|]. split; [done|].
  intros n. rewrite Hd, Hi, lookup_empty. split; [|done].
  destruct (decide (refs_to n (refs entries) = [])) as [E|]; [|done]. rewrite E. by destruct to_add.
Qed.

(** A blob index to record [i] of file [n], as the table stores it. *)
Definition example_entry (n i sz : Z) : bytes * EntryType :=
  (BlobIndex_EncodeTo {| BlobFormat.file_number := n;
     blob_handle := {| offset := 12 + 100 * i; BlobFormat.size := sz; BlobFormat.index := i |};
     old_file_number := 0; old_blob_handle := BlobHandle_default |}, kEntryBlobIndex).

Lemma table_properties_exact_witness :
  exists diff idx,
    ExtractGCStatsFromTableProperty
      (table_properties [example_entry 7 0 40; ([120], kEntryPut); example_entry 9 3 50; example_entry 7 2 60])
      false ∅ = Some (OK, diff) /\
    ExtractBlobValidationFromTableProperty
      (table_properties [example_entry 7 0 40; ([120], kEntryPut); example_entry 9 3 50; example_entry 7 2 60])
      ∅ = (OK, idx) /\
    default 0 (diff !! 7) = -100 /\ default [] (idx !! 7) = [0; 2].
Proof.
  destruct (table_properties_exact
    [example_entry 7 0 40; ([120], kEntryPut); example_entry 9 3 50; example_entry 7 2 60] false)
    as (diff & idx & H1 & H2 & H); [vm_compute; reflexivity|vm_compute; reflexivity|].
  exists diff, idx. split; [exact H1|]. split; [exact H2|]. destruct (H 7) as [-> ->]. vm_compute. done.
Defined.
