(* ===== verification/GCStats.v ===== *)
(** * GCStats: live sizes and invalid entries, from flushes and compactions

    The event handlers of [db_impl.cc] that keep the statistics behind garbage
    collection: [OnFlushCompleted], [OnCompactionCompleted],
    [DeleteFilesInRanges] and [MarkFileIfNeedMerge], and [InitializeGC] of
    [db_impl_gc.cc]. Each runs with [mutex_] held. [None] is a failed assertion
    or a signed overflow. *)
From S2P Require Import Prelude Coding BlobFormat BitMap BlobFileMeta TitanStats Options VersionEdit BlobStorage EditCollector BlobFileSet Collectors.

Local Open Scope Z_scope.

(** ** Flushes *)

(** One file of [OnFlushCompleted]. *)
Definition flush_file (cf_id : Z) (x : BlobStorage * TitanStats) (file_diff : Z * Z)
    : option (BlobStorage * TitanStats) :=
  let '(b, st) := x in
  let '(file_number, delta) := file_diff in
  file ← FindFile b file_number;
  match file with
  | None => Some (b, st)
  | Some file =>
      if negb (bool_decide (state_ file = kPendingLSM)) then Some (b, st) else
      _ ← assert (0 <=? delta);
      let delta := if negb (live_data_size_ file =? 0) then i64 (u64 delta - live_data_size_ file) else delta in
      let file := set_live_data_size file (u64 delta) in
      let st := AddStats st cf_id (GetDiscardableRatioLevel file) 1 in
      file ← transit file kFlushCompleted;
      Some (update_file b file_number file, st)
  end.

Definition OnFlushCompleted (s : BlobFileSet) (cf_id : Z) (table_properties : TableProperties)
    : option BlobFileSet :=
  '(st, blob_file_size_diff) ← ExtractGCStatsFromTableProperty table_properties true ∅;
  _ ← assert (ok st);
  b ← GetBlobStorage s cf_id;
  '(b, stats) ← fold_option (flush_file cf_id) (b, fs_stats_ s) (in_order blob_file_size_diff);
  Some (set_column_families s (<[cf_id := b]> (column_families_ s)) stats).

(** ** Compactions *)

(** What RocksDB tells about a compaction. *)
Record CompactionJobInfo : Type := mkJobInfo {
  job_cf_id : Z;
  job_status : Status;
  input_files : list string;
  output_files : list string;
  prop_collection : gmap string TableProperties;
  output_level : Z }.

(** The tables of a list of files that have properties. *)
Definition tables (prop_collection : gmap string TableProperties) (files : list string) : list TableProperties :=
  omap (fun file_name => prop_collection !! file_name) files.

(** [update_diff]. *)
Definition update_diff (to_add : bool) (diff : gmap Z Z) (table : TableProperties) : option (gmap Z Z) :=
  '(gc_stats_status, diff) ← ExtractGCStatsFromTableProperty table to_add diff;
  _ ← assert (ok gc_stats_status);
  Some diff.

Definition compaction_diff (info : CompactionJobInfo) : option (gmap Z Z) :=
  diff ← fold_option (update_diff false) ∅ (tables (prop_collection info) (input_files info));
  fold_option (update_diff true) diff (tables (prop_collection info) (output_files info)).

(** [validation_diff]. *)
Definition validation_diff (m : gmap Z (list Z)) (table : TableProperties) : option (gmap Z (list Z)) :=
  let '(blob_validation_status, m) := ExtractBlobValidationFromTableProperty table m in
  _ ← assert (ok blob_validation_status);
  Some m.

(** [SetBit] on every index of a list. *)
Definition set_bit (on : Z) (bm : BitMap) (index : Z) : option BitMap :=
  '(s, bm) ← SetBit bm index on;
  _ ← assert (ok s);
  Some bm.

Definition invalid_bitmap (file_entries : Z) (may_invalid valid : list Z) : option BitMap :=
  bm ← fold_option (set_bit 1) (BitMap_new file_entries) may_invalid;
  fold_option (set_bit 0) bm valid.

(** One file of the loop over [blob_may_invalid_indexes]. *)
Definition invalidate_file (blob_valid_indexes : gmap Z (list Z)) (b : BlobStorage) (item : Z * list Z)
    : option BlobStorage :=
  let '(file_number, may_invalid) := item in
  file ← FindFile b file_number;
  match file with
  | None => Some b
  | Some file =>
      if is_obsolete file then Some b else
      bm ← invalid_bitmap (file_entries_ file) may_invalid (default [] (blob_valid_indexes !! file_number));
      '(s, file) ← UpdateInvalidEntryIndexes file (Some bm);
      _ ← assert (ok s);
      Some (update_file b file_number file)
  end.

Definition invalidate_entries (b : BlobStorage) (info : CompactionJobInfo) : option BlobStorage :=
  blob_may_invalid_indexes ← fold_option validation_diff ∅ (tables (prop_collection info) (input_files info));
  blob_valid_indexes ← fold_option validation_diff ∅ (tables (prop_collection info) (output_files info));
  fold_option (invalidate_file blob_valid_indexes) b (map_to_list blob_may_invalid_indexes).

(** What the loop over the size differences changes: the storage, the
    statistics, the edit and [to_merge_candidates]. *)
Record CompactionState : Type := mkCompaction {
  c_storage : BlobStorage;
  c_stats : TitanStats;
  c_edit : VersionEdit;
  c_candidates : list Z }.

Definition settled (m : BlobFileMeta) : bool := bool_decide (state_ m = kNormal \/ state_ m = kToMerge).

(** The last statement of the loop, for a file whose metadata is [file]. *)
Definition count_file (cf_id file_number : Z) (file : BlobFileMeta) (c : CompactionState) : CompactionState :=
  mkCompaction (update_file (c_storage c) file_number file)
    (if settled file then AddStats (c_stats c) cf_id (GetDiscardableRatioLevel file) 1 else c_stats c)
    (c_edit c) (c_candidates c).

(** A file of a compaction whose events overtook each other. *)
Definition compaction_pending (cf_id latest_sequence file_number delta : Z) (file : BlobFileMeta) (c : CompactionState)
    : option CompactionState :=
  if delta <=? 0 then
    _ ← assert (int64_ok (- delta));
    '(ok, file) ← UpdateLiveDataSize file (- delta);
    _ ← assert ok;
    Some (mkCompaction (update_file (c_storage c) file_number file) (c_stats c) (c_edit c) (c_candidates c))
  else
    let delta := if negb (live_data_size_ file =? 0) then i64 (u64 delta - live_data_size_ file) else delta in
    let file := set_live_data_size file (u64 delta) in
    let stats := AddStats (c_stats c) cf_id (GetDiscardableRatioLevel file) 1 in
    file ← transit file kCompactionCompleted;
    let edit := if NoLiveData file then VersionEdit.DeleteBlobFile (c_edit c) (file_number_ file) latest_sequence
                else c_edit c in
    Some (count_file cf_id file_number file
            (mkCompaction (c_storage c) stats edit (c_candidates c ++ [file_number]))).

(** A file that is not being written or collected. *)
Definition compaction_settled (cf_options : TitanCFOptions) (count_sorted_run : bool)
    (cf_id latest_sequence file_number delta : Z) (file : BlobFileMeta) (c : CompactionState)
    : option CompactionState :=
  _ ← assert (negb (delta >? 0));
  let stats := SubStats (c_stats c) cf_id (GetDiscardableRatioLevel file) 1 in
  '(ok, file) ← UpdateLiveDataSize file delta;
  _ ← assert ok;
  let stats := SubStats stats cf_id LIVE_BLOB_SIZE delta in
  if negb (level_merge cf_options) then
    Some (count_file cf_id file_number file (mkCompaction (c_storage c) stats (c_edit c) (c_candidates c)))
  else if NoLiveData file then
    Some (count_file cf_id file_number file
            (mkCompaction (c_storage c) stats
               (VersionEdit.DeleteBlobFile (c_edit c) (file_number_ file) latest_sequence) (c_candidates c)))
  else if (file_level_ file >=? num_levels cf_options - 2) &&
          d_lt (blob_file_discardable_ratio cf_options) (GetDiscardableRatio file) then
    file ← transit file kNeedMerge;
    Some (count_file cf_id file_number file (mkCompaction (c_storage c) stats (c_edit c) (c_candidates c)))
  else
    Some (count_file cf_id file_number file
            (mkCompaction (c_storage c) stats (c_edit c)
               (if count_sorted_run then c_candidates c ++ [file_number] else c_candidates c))).

Definition compaction_file (cf_options : TitanCFOptions) (count_sorted_run : bool) (cf_id latest_sequence : Z)
    (c : CompactionState) (file_diff : Z * Z) : option CompactionState :=
  let '(file_number, delta) := file_diff in
  file ← FindFile (c_storage c) file_number;
  match file with
  | None => Some c
  | Some file =>
      if is_obsolete file then Some c
      else if bool_decide (state_ file = kPendingLSM)
      then compaction_pending cf_id latest_sequence file_number delta file c
      else if settled file
      then compaction_settled cf_options count_sorted_run cf_id latest_sequence file_number delta file c
      else Some c
  end.

(** ** Files that overlap too much *)

(** An end of a blob file: its number, and whether it is the smallest key. *)
Definition blob_end : Type := Z * bool.

Definition end_key (files : gmap Z BlobFileMeta) (e : blob_end) : bytes :=
  match files !! e.1 with
  | Some m => if e.2 then smallest_key_ m else largest_key_ m
  | None => []
  end.

(** [blob_ends_cmp], and its complement, by which the ends are sorted. *)
Definition blob_ends_cmp (files : gmap Z BlobFileMeta) (end1 end2 : blob_end) : bool :=
  let cmp := Slice_compare (end_key files end1) (end_key files end2) in
  if cmp =? 0 then negb end1.2 && end2.2 else cmp <? 0.

Definition end_le (files : gmap Z BlobFileMeta) (end1 end2 : blob_end) : Prop :=
  blob_ends_cmp files end2 end1 = false.

#[export] Instance end_le_dec files : RelDecision (end_le files).
Proof. intros x y. unfold end_le. apply _. Defined.

(** The files of a set, all marked. *)
Definition mark_need_merge (b : BlobStorage) (n : Z) : option BlobStorage :=
  m ← files_ b !! n; m ← transit m kNeedMerge; Some (update_file b n m).

Fixpoint count_runs (max_sorted_runs : Z) (ends : list blob_end) (set : gset Z) (b : BlobStorage)
    : option BlobStorage :=
  match ends with
  | [] => Some b
  | (n, true) :: ends =>
      let set := {[n]} ∪ set in
      b ← (if Z.of_nat (base.size set) >? u64 max_sorted_runs
           then fold_option mark_need_merge b (elements set) else Some b);
      count_runs max_sorted_runs ends set b
  | (n, false) :: ends => count_runs max_sorted_runs ends (set ∖ {[n]}) b
  end.

Definition MarkFileIfNeedMerge (b : BlobStorage) (files : list Z) (max_sorted_runs : Z) : option BlobStorage :=
  if bool_decide (files = []) then Some b else
  count_runs max_sorted_runs
    (merge_sort (end_le (files_ b)) (flat_map (fun n => [(n, true); (n, false)]) files)) ∅ b.

(** ** The handler of compactions *)

Section Handlers.
Context `{C : Comparator}.

(** The answer says whether the column family goes into the queue of the
    collector. *)
Definition OnCompactionCompleted (io : IO) (s : BlobFileSet) (d : Disk) (initialized use_bitmap : bool)
    (latest_sequence : Z) (info : CompactionJobInfo) : option (BlobFileSet * Disk * bool) :=
  _ ← assert initialized;
  if negb (ok (job_status info)) then Some (s, d, false) else
  blob_file_size_diff ← compaction_diff info;
  let cf_id := job_cf_id info in
  match GetBlobStorage s cf_id with
  | None => Some (s, d, false)
  | Some b =>
      b ← (if use_bitmap then invalidate_entries b info else Some b);
      let cf_options := cf_options_ b in
      let count_sorted_run := level_merge cf_options && range_merge cf_options &&
                              (num_levels cf_options - 1 =? output_level info) in
      c ← fold_option (compaction_file cf_options count_sorted_run cf_id latest_sequence)
            (mkCompaction b (fs_stats_ s) VersionEdit_default []) (in_order blob_file_size_diff);
      let s := set_column_families s (<[cf_id := c_storage c]> (column_families_ s)) (c_stats c) in
      if level_merge cf_options then
        '(_, s, d) ← LogAndApply io s d (c_edit c);
        b ← GetBlobStorage s cf_id;
        b ← MarkFileIfNeedMerge b (c_candidates c) (max_sorted_runs cf_options);
        Some (set_column_families s (<[cf_id := b]> (column_families_ s)) (fs_stats_ s), d, false)
      else
        Some (set_column_families s (<[cf_id := ComputeGCScore (c_storage c)]> (column_families_ s)) (fs_stats_ s),
              d, true)
  end.

(** ** Deleting tables *)

(** One file of [DeleteFilesInRanges]. *)
Definition range_delete_file (cf_options : TitanCFOptions) (cf_id latest_sequence : Z)
    (c : CompactionState) (file_size : Z * Z) : option CompactionState :=
  let '(file_number, delta) := file_size in
  file ← FindFile (c_storage c) file_number;
  match file with
  | None => Some c
  | Some file =>
      if is_obsolete file then Some c else
      let before := GetDiscardableRatioLevel file in
      '(ok, file) ← UpdateLiveDataSize file delta;
      _ ← assert ok;
      let after := GetDiscardableRatioLevel file in
      let stats := if bool_decide (before = after) then c_stats c
                   else SubStats (AddStats (c_stats c) cf_id after 1) cf_id before 1 in
      '(file, edit) ←
        (if negb (level_merge cf_options) then Some (file, c_edit c)
         else if NoLiveData file
         then Some (file, VersionEdit.DeleteBlobFile (c_edit c) (file_number_ file) latest_sequence)
         else if d_lt (blob_file_discardable_ratio cf_options) (GetDiscardableRatio file)
         then file ← transit file kNeedMerge; Some (file, c_edit c)
         else Some (file, c_edit c));
      let stats := SubStats stats cf_id LIVE_BLOB_SIZE (- delta) in
      Some (mkCompaction (update_file (c_storage c) file_number file) stats edit (c_candidates c))
  end.

(** [DeleteFilesInRanges], from where the properties of the deleted tables are
    known; [deleted] is what the base database answers. *)
Definition DeleteFilesInRanges (io : IO) (s : BlobFileSet) (d : Disk) (cf_id latest_sequence : Z)
    (props : list TableProperties) (deleted : Status) : option (Status * BlobFileSet * Disk * bool) :=
  blob_file_size_diff ← fold_option (update_diff false) ∅ props;
  if negb (ok deleted) then Some (deleted, s, d, false) else
  match GetBlobStorage s cf_id with
  | None => Some (NotFound, s, d, false)
  | Some b =>
      let cf_options := cf_options_ b in
      c ← fold_option (range_delete_file cf_options cf_id latest_sequence)
            (mkCompaction b (fs_stats_ s) VersionEdit_default []) (in_order blob_file_size_diff);
      let s := set_column_families s (<[cf_id := c_storage c]> (column_families_ s)) (c_stats c) in
      if level_merge cf_options then
        '(_, s, d) ← LogAndApply io s d (c_edit c);
        Some (deleted, s, d, false)
      else
        Some (deleted,
              set_column_families s (<[cf_id := ComputeGCScore (c_storage c)]> (column_families_ s)) (fs_stats_ s),
              d, true)
  end.

End Handlers.

(** ** Opening *)

(** One file of [InitializeGC]. *)
Definition initialize_file (cf_id : Z) (x : BlobStorage * TitanStats) (file_size : Z * Z)
    : option (BlobStorage * TitanStats) :=
  let '(b, st) := x in
  let '(file_number, size) := file_size in
  _ ← assert (0 <=? size);
  file ← FindFile b file_number;
  match file with
  | None => Some (b, st)
  | Some file =>
      _ ← assert (live_data_size_ file =? 0);
      let file := set_live_data_size file (u64 size) in
      Some (update_file b file_number file, AddStats st cf_id (GetDiscardableRatioLevel file) 1)
  end.

(** [InitializeGC] for one column family, once it is flushed: the properties of
    its tables are given. *)
Definition initialize_diff (e : Status * gmap Z Z) (table : TableProperties) : option (Status * gmap Z Z) :=
  if negb (ok e.1) then Some e else ExtractGCStatsFromTableProperty table true e.2.

Definition InitializeGC (s : BlobFileSet) (cf_id : Z) (collection : list TableProperties)
    : option (Status * BlobFileSet) :=
  '(st, blob_file_size_diff) ← fold_option initialize_diff (OK, ∅) collection;
  if negb (ok st) then Some (st, s) else
  b ← GetBlobStorage s cf_id;
  '(b, stats) ← fold_option (initialize_file cf_id) (b, fs_stats_ s) (in_order blob_file_size_diff);
  b ← InitializeAllFiles b;
  Some (OK, set_column_families s (<[cf_id := b]> (column_families_ s)) stats).
