(* ===== verification/GCStatsProofs.v ===== *)
(** * GCStatsProofs: invalid entries and live sizes are what the tables say

    A record that some table references is never marked invalid; a compaction
    marks exactly the records it stops referencing, and moves the live sizes by
    exactly what it adds and removes; the events of a flush and of a compaction
    may come in either order. *)
From S2P Require Import Prelude Coding BlobFormat BitMap BlobFileMeta TitanStats Options VersionEdit BlobStorage BlobStorageProofs EditCollector BlobFileSet Collectors CollectorsProofs GCStats.

Local Open Scope Z_scope.

(** ** Bitmaps of invalid entries *)

Lemma set_bits_spec on l : forall bm,
  BitMap_wf bm -> on = 0 \/ on = 1 -> Forall (fun i => 0 <= i <= valid_bits_ bm) l ->
  exists bm', fold_option (set_bit on) bm l = Some bm' /\ BitMap_wf bm' /\ valid_bits_ bm' = valid_bits_ bm /\
    forall j, 0 <= j -> get bm' j = if decide (j ∈ l) then on =? 1 else get bm j.
Proof.
  induction l as [|i l IH]; intros bm Hwf Hon Hl.
  { exists bm. split; [done|]. split; [done|]. split; [done|]. intros j _. by rewrite decide_False by apply not_elem_of_nil. }
  apply Forall_cons in Hl as [Hi Hl]. cbn [fold_option set_bit].
  destruct (SetBit_spec bm i on Hwf Hi Hon) as (bm1 & E & Hwf1 & Hv1 & Hg1).
  assert (set_bit on bm i = Some bm1) as -> by (unfold set_bit; by rewrite E). cbn [mbind option_bind].
  destruct (IH bm1 Hwf1 Hon) as (bm' & -> & Hwf' & Hv' & Hg'); [by rewrite Hv1|].
  exists bm'. split; [done|]. split; [done|]. split; [by rewrite Hv'|]. intros j Hj. rewrite Hg', Hg1 by done.
  destruct (decide (j ∈ l)) as [Hin|Hin].
  - by rewrite decide_True by (by apply list_elem_of_further).
  - destruct (Z.eqb_spec j i) as [->|Hne]; [by rewrite decide_True by apply list_elem_of_here|].
    by rewrite decide_False by (by intros [?|?]%elem_of_cons).
Qed.

Lemma invalid_bitmap_spec n may valid :
  0 <= n < 2 ^ 64 -> Forall (fun i => 0 <= i <= n) may -> Forall (fun i => 0 <= i <= n) valid ->
  exists bm, invalid_bitmap n may valid = Some bm /\ BitMap_wf bm /\ valid_bits_ bm = n /\
    forall j, 0 <= j -> get bm j = bool_decide (j ∈ may /\ j ∉ valid).
Proof.
  intros Hn Hm Hv. unfold invalid_bitmap.
  destruct (set_bits_spec 1 may (BitMap_new n) (BitMap_new_wf n Hn) ltac:(auto) Hm) as (b1 & -> & Hw1 & Hv1 & Hg1).
  cbn [mbind option_bind]. destruct (set_bits_spec 0 valid b1 Hw1 ltac:(auto)) as (b2 & -> & Hw2 & Hv2 & Hg2).
  { by rewrite Hv1. }
  exists b2. split; [done|]. split; [done|]. split; [by rewrite Hv2, Hv1|]. intros j Hj.
  rewrite Hg2, Hg1, BitMap_new_get by done. repeat case_decide; symmetry;
    first [apply bool_decide_eq_true; by split | apply bool_decide_eq_false; tauto].
Qed.

(** What the compaction does to the file [n]. *)
Definition with_invalid (may valid : list Z) (m : BlobFileMeta) : BlobFileMeta :=
  if is_obsolete m then m else
  match invalid_bitmap (file_entries_ m) may valid with
  | Some bm => match UpdateInvalidEntryIndexes m (Some bm) with Some (_, m') => m' | None => m end
  | None => m
  end.

Lemma with_invalid_spec may valid m :
  bits_ok m -> is_obsolete m = false ->
  Forall (fun i => 0 <= i <= file_entries_ m) may -> Forall (fun i => 0 <= i <= file_entries_ m) valid ->
  exists bm bm',
    invalid_bitmap (file_entries_ m) may valid = Some bm /\
    UpdateInvalidEntryIndexes m (Some bm) = Some (OK, set_invalid m bm') /\
    with_invalid may valid m = set_invalid m bm' /\ bits_ok (set_invalid m bm') /\
    forall j, 0 <= j -> get bm' j = invalid m j || bool_decide (j ∈ may /\ j ∉ valid).
Proof.
  intros Hb Ho Hm Hv. pose proof Hb as (b0 & _ & (Hn & _) & Hv0).
  destruct (invalid_bitmap_spec (file_entries_ m) may valid) as (bm & Hbm & Hw & Hvb & Hg); [lia|done|done|].
  destruct (UpdateInvalidEntryIndexes_spec m bm Hb Hw Hvb) as (bm' & Hop & Hb' & Hg').
  exists bm, bm'. unfold with_invalid. rewrite Ho, Hbm, Hop. split_and!; try done.
  intros j Hj. by rewrite Hg', Hg.
Qed.

(** ** The tables of a compaction *)

Definition all_refs (tables : list (list entry)) : list BlobIndex := concat (refs <$> tables).

(** A compaction reads and writes tables with these entries. *)
Definition compacts (info : CompactionJobInfo) (ins outs : list (list entry)) : Prop :=
  tables (prop_collection info) (input_files info) = table_properties <$> ins /\
  tables (prop_collection info) (output_files info) = table_properties <$> outs /\
  Forall (fun t => zlen t < 2 ^ 32) (ins ++ outs) /\
  sum_sizes (all_refs ins) + sum_sizes (all_refs outs) < 2 ^ 63.

Lemma indexes_app a b : indexes (a ++ b) = indexes a ++ indexes b.
Proof. apply fmap_app. Qed.

Lemma validation_diff_spec ts : forall m,
  Forall (fun t => zlen t < 2 ^ 32) ts ->
  exists m', fold_option validation_diff m (table_properties <$> ts) = Some m' /\
    forall n, default [] (m' !! n) = default [] (m !! n) ++ indexes (refs_to n (all_refs ts)).
Proof.
  induction ts as [|t ts IH]; intros m H.
  { exists m. split; [done|]. intros n. by rewrite app_nil_r. }
  apply Forall_cons in H as [Ht H]. rewrite fmap_cons. cbn [fold_option].
  destruct (extract_indexes_spec t m Ht) as (m1 & E & Hm1).
  assert (validation_diff m (table_properties t) = Some m1) as -> by (unfold validation_diff; by rewrite E).
  cbn [mbind option_bind].
  destruct (IH m1 H) as (m' & -> & Hm'). exists m'. split; [done|]. intros n. rewrite Hm', Hm1, <- app_assoc.
  f_equal. unfold all_refs. rewrite fmap_cons. cbn [concat]. by rewrite refs_to_app, indexes_app.
Qed.

(** The references of the tables fit the files. *)
Definition refs_fit (b : BlobStorage) (l : list BlobIndex) : Prop :=
  forall i m, i ∈ l -> files_ b !! BlobFormat.file_number i = Some m -> is_obsolete m = false ->
    BlobFormat.index (blob_handle i) <= file_entries_ m.

(** The files of a storage, with sound bitmaps and numbers. *)
Definition files_ok (b : BlobStorage) : Prop :=
  forall n m, files_ b !! n = Some m -> file_number_ m = n /\ (is_obsolete m = false -> bits_ok m).

Lemma indexes_fit b n m ts :
  refs_fit b (all_refs ts) -> files_ b !! n = Some m -> is_obsolete m = false ->
  Forall (fun i => 0 <= i <= file_entries_ m) (indexes (refs_to n (all_refs ts))).
Proof.
  intros Hfit Hm Ho. apply Forall_fmap, Forall_forall. intros i [<- Hi]%refs_to_elem. cbn.
  split; [|by eapply Hfit].
  unfold all_refs in Hi. apply list_elem_of_In, in_concat in Hi as (l & Hl & Hi).
  apply list_elem_of_In, list_elem_of_fmap in Hl as (t & -> & _). apply list_elem_of_In in Hi.
  pose proof (refs_wf t) as Hwf. rewrite Forall_forall in Hwf. destruct (Hwf i Hi) as (_ & _ & [? _]). done.
Qed.

(** A file with some of its entries marked, or as it was. *)
Definition marks (P : Z -> Prop) `{!forall j, Decision (P j)} (m m' : BlobFileMeta) : Prop :=
  (m' = m \/ exists bm, m' = set_invalid m bm) /\
  (is_obsolete m = true -> m' = m) /\
  (is_obsolete m = false -> bits_ok m' /\ forall j, 0 <= j -> invalid m' j = invalid m j || bool_decide (P j)).

(** The compaction read a reference to entry [j] of file [n] and did not write
    it back. *)
Definition dropped (ins outs : list (list entry)) (n j : Z) : Prop :=
  j ∈ indexes (refs_to n (all_refs ins)) /\ j ∉ indexes (refs_to n (all_refs outs)).

#[export] Instance dropped_dec ins outs n j : Decision (dropped ins outs n j).
Proof. unfold dropped. apply _. Defined.

Lemma invalidate_file_spec b s valid ins outs k v :
  files_ok b -> refs_fit b (all_refs ins) -> refs_fit b (all_refs outs) ->
  v = indexes (refs_to k (all_refs ins)) ->
  default [] (valid !! k) = indexes (refs_to k (all_refs outs)) ->
  files_ s !! k = files_ b !! k ->
  exists s', invalidate_file valid s (k, v) = Some s' /\ cf_options_ s' = cf_options_ s /\
    files_ s' = alter (with_invalid v (indexes (refs_to k (all_refs outs)))) k (files_ s).
Proof.
  intros Hok Hfi Hfo -> Hv Hget. unfold invalidate_file, FindFile. rewrite Hget.
  destruct (files_ b !! k) as [m|] eqn:Hm; rewrite ?Hm.
  2:{ exists s. split; [done|]. split; [done|]. symmetry. by apply alter_id; rewrite Hget. }
  destruct (Hok k m Hm) as [Hn Hbits]. rewrite Hn, Z.eqb_refl. cbn [assert mbind option_bind].
  destruct (is_obsolete m) eqn:Hob.
  { exists s. split; [done|]. split; [done|]. symmetry. apply alter_id. intros x Hx.
    rewrite Hget in Hx. injection Hx as <-. unfold with_invalid. by rewrite Hob. }
  rewrite Hv. destruct (with_invalid_spec (indexes (refs_to k (all_refs ins))) (indexes (refs_to k (all_refs outs))) m
    (Hbits eq_refl) Hob) as (bm & bm' & -> & Hup & Hwi & _); [by eapply indexes_fit..|].
  cbn [mbind option_bind]. rewrite Hup. cbn [mbind option_bind ok assert].
  eexists. split; [reflexivity|]. split; [done|]. cbn [files_ update_file set_files].
  apply map_eq. intros n. destruct (decide (n = k)) as [->|].
  - by rewrite lookup_insert_eq, lookup_alter_eq, Hget; cbn; rewrite Hwi.
  - by rewrite lookup_insert_ne, lookup_alter_ne.
Qed.

(** What [invalidate_entries] does to each file. *)
Lemma invalidate_entries_spec b info ins outs :
  compacts info ins outs -> files_ok b -> refs_fit b (all_refs ins) -> refs_fit b (all_refs outs) ->
  exists b', invalidate_entries b info = Some b' /\ cf_options_ b' = cf_options_ b /\
    forall n, match files_ b !! n with
              | Some m => exists m', files_ b' !! n = Some m' /\ marks (dropped ins outs n) m m'
              | None => files_ b' !! n = None
              end.
Proof.
  intros (Hi & Ho & Hz & _) Hok Hfi Hfo. apply Forall_app in Hz as [Hzi Hzo].
  unfold invalidate_entries. rewrite Hi, Ho.
  destruct (validation_diff_spec ins ∅ Hzi) as (may & -> & Hmay). cbn [mbind option_bind].
  destruct (validation_diff_spec outs ∅ Hzo) as (valid & -> & Hvalid). cbn [mbind option_bind].
  destruct (fold_option_keyed files_ (invalidate_file valid)
    (fun n v m => with_invalid v (indexes (refs_to n (all_refs outs))) m)
    (fun b' => cf_options_ b' = cf_options_ b) (map_to_list may) b) as (b' & Hb' & Hcf & Hfiles);
    [apply NoDup_fst_map_to_list|done| |].
  - intros s k v Hcf Hkv%elem_of_map_to_list Hget.
    destruct (invalidate_file_spec b s valid ins outs k v Hok Hfi Hfo) as (s' & ? & ? & ?).
    + specialize (Hmay k). by rewrite Hkv, lookup_empty in Hmay.
    + specialize (Hvalid k). by rewrite lookup_empty in Hvalid.
    + done.
    + exists s'. split; [done|]. split; [congruence|done].
  - exists b'. split; [exact Hb'|]. split; [done|]. intros n. specialize (Hfiles n). specialize (Hmay n).
    rewrite list_to_map_to_list in Hfiles. rewrite lookup_empty in Hmay. cbn in Hmay.
    destruct (files_ b !! n) as [m|] eqn:Hm; [|by destruct (may !! n)].
    destruct (Hok n m Hm) as [_ Hbits].
    destruct (may !! n) as [v|] eqn:Hv; cbn in Hmay, Hfiles.
    + subst v. eexists. split; [exact Hfiles|]. destruct (is_obsolete m) eqn:Hob.
      { unfold with_invalid, marks. rewrite Hob. split_and!; [by left|done|done]. }
      destruct (with_invalid_spec (indexes (refs_to n (all_refs ins))) (indexes (refs_to n (all_refs outs))) m
        (Hbits eq_refl) Hob) as (bm & bm' & _ & _ & -> & Hbo & Hg); [by eapply indexes_fit..|].
      unfold marks. rewrite Hob. split_and!; [right; by eexists|done|]. intros _. split; [done|].
      intros j Hj. unfold invalid at 1. cbn [invalid_entry_indexes_ set_invalid]. rewrite Hg by done. reflexivity.
    + exists m. split; [done|]. split_and!; [by left|done|]. intros Hob. split; [by apply Hbits|].
      intros j _. rewrite bool_decide_eq_false_2, orb_false_r; [done|]. intros [Hj _]. rewrite <- Hmay in Hj.
      by apply elem_of_nil in Hj.
Qed.

(** ** Records that a table references *)

Definition loc (i : BlobIndex) : Z * Z := (BlobFormat.file_number i, BlobFormat.index (blob_handle i)).

(** None of these references is to a record marked invalid. *)
Definition clear (b : BlobStorage) (l : list BlobIndex) : Prop :=
  forall i m, i ∈ l -> files_ b !! BlobFormat.file_number i = Some m -> is_obsolete m = false ->
    invalid m (BlobFormat.index (blob_handle i)) = false.

(** The tables of the tree and the storage, as flushes, compactions and all the
    operations that leave the bitmaps alone change them. RocksDB's part is that
    no record is referenced twice, and that a compaction writes only references
    that it read, or to records that were never marked. *)
Inductive lsm_step : list (list entry) * BlobStorage -> list (list entry) * BlobStorage -> Prop :=
  | lsm_flush ts b t :
      clear b (refs t) -> NoDup (loc <$> all_refs (t :: ts)) ->
      lsm_step (ts, b) (t :: ts, b)
  | lsm_compact ts b ins outs rest info b' :
      ts ≡ₚ ins ++ rest -> compacts info ins outs ->
      refs_fit b (all_refs ins) -> refs_fit b (all_refs outs) ->
      (forall i, i ∈ all_refs outs -> loc i ∈ loc <$> all_refs ins \/ clear b [i]) ->
      NoDup (loc <$> all_refs (outs ++ rest)) ->
      invalidate_entries b info = Some b' ->
      lsm_step (ts, b) (outs ++ rest, b')
  | lsm_storage ts b b' :
      files_ok b' ->
      (forall n m', files_ b' !! n = Some m' -> is_obsolete m' = false ->
         (forall j, invalid m' j = false) \/
         exists m, files_ b !! n = Some m /\ is_obsolete m = false /\ forall j, invalid m' j = invalid m j) ->
      lsm_step (ts, b) (ts, b').

Definition lsm_ok (x : list (list entry) * BlobStorage) : Prop :=
  NoDup (loc <$> all_refs x.1) /\ files_ok x.2 /\ clear x.2 (all_refs x.1).

Lemma all_refs_app a b : all_refs (a ++ b) = all_refs a ++ all_refs b.
Proof. unfold all_refs. by rewrite fmap_app, concat_app. Qed.

Lemma all_refs_perm a b : a ≡ₚ b -> all_refs a ≡ₚ all_refs b.
Proof.
  unfold all_refs. induction 1 as [|x l l' _ IH|x y l|l1 l2 l3 _ IH1 _ IH2]; cbn; [done|by rewrite IH| |by rewrite IH1].
  rewrite !app_assoc. by rewrite (Permutation_app_comm (refs y) (refs x)).
Qed.

Lemma indexes_loc n j l : j ∈ indexes (refs_to n l) <-> (n, j) ∈ loc <$> l.
Proof.
  unfold indexes. rewrite !list_elem_of_fmap. split.
  - intros (i & -> & [<- Hi]%refs_to_elem). by exists i.
  - intros (i & [= -> ->] & Hi). exists i. split; [done|]. by apply refs_to_elem.
Qed.

Lemma elem_index_nonneg ts i : i ∈ all_refs ts -> 0 <= BlobFormat.index (blob_handle i).
Proof.
  intros Hi. apply list_elem_of_In, in_concat in Hi as (l & Hl & Hi).
  apply list_elem_of_In, list_elem_of_fmap in Hl as (t & -> & _). apply list_elem_of_In in Hi.
  pose proof (refs_wf t) as Hwf. rewrite Forall_forall in Hwf. by destruct (Hwf i Hi) as (_ & _ & [? _]).
Qed.

Lemma compact_clear b ins outs rest info b' :
  compacts info ins outs -> files_ok b -> refs_fit b (all_refs ins) -> refs_fit b (all_refs outs) ->
  NoDup (loc <$> all_refs (ins ++ rest)) -> clear b (all_refs (ins ++ rest)) ->
  (forall i, i ∈ all_refs outs -> loc i ∈ loc <$> all_refs ins \/ clear b [i]) ->
  invalidate_entries b info = Some b' ->
  files_ok b' /\ clear b' (all_refs (outs ++ rest)).
Proof.
  intros Hc Hok Hfi Hfo Hnd Hcl Hout Hb'.
  destruct (invalidate_entries_spec b info ins outs Hc Hok Hfi Hfo) as (b1 & E & _ & Hf).
  rewrite Hb' in E. injection E as <-. split.
  - intros n m' Hm'. specialize (Hf n). destruct (files_ b !! n) as [m|] eqn:Hm; [|by rewrite Hf in Hm'].
    destruct Hf as (m1 & E & Hs & Ho & Hn). rewrite Hm' in E. injection E as <-.
    destruct (Hok n m Hm) as [Hnum _]. assert (file_number_ m' = n /\ is_obsolete m' = is_obsolete m) as [-> ->].
    { destruct Hs as [->|[bm ->]]; done. }
    split; [done|]. intros Hob. by apply Hn.
  - intros i m' Hi Hm' Hob. specialize (Hf (BlobFormat.file_number i)).
    destruct (files_ b !! BlobFormat.file_number i) as [m|] eqn:Hm; [|by rewrite Hf in Hm'].
    destruct Hf as (m1 & E & Hs & _ & Hn). rewrite Hm' in E. injection E as <-.
    assert (is_obsolete m = false) as Hom by (destruct Hs as [->|[bm ->]]; done).
    destruct (Hn Hom) as [_ Hinv]. rewrite Hinv.
    2:{ eapply elem_index_nonneg. exact Hi. }
    rewrite all_refs_app in Hi, Hnd, Hcl. apply orb_false_iff.
    rewrite bool_decide_eq_false. unfold dropped. rewrite !indexes_loc. fold (loc i).
    apply elem_of_app in Hi as [Hi|Hi].
    + split; [|intros [_ H]; apply H; by apply list_elem_of_fmap_2].
      destruct (Hout i Hi) as [Hin|Hfresh]; [|by apply (Hfresh i m); [apply list_elem_of_here|..]].
      apply list_elem_of_fmap in Hin as (i0 & Hl & Hi0). injection Hl as H1 H2.
      rewrite H2. apply (Hcl i0 m); [apply elem_of_app; by left|by rewrite <- H1|done].
    + split; [apply (Hcl i m); [apply elem_of_app; by right|done..]|]. intros [H _].
      rewrite fmap_app in Hnd. apply NoDup_app in Hnd as (_ & Hdis & _). apply (Hdis _ H). by apply list_elem_of_fmap_2.
Qed.

Lemma lsm_step_ok x y : lsm_step x y -> lsm_ok x -> lsm_ok y.
Proof.
  intros Hs (Hnd & Hok & Hcl). unfold lsm_ok.
  destruct Hs as [ts b t Ht Hn|ts b ins outs rest info b' Hp Hc Hfi Hfo Hout Hn Hb'|ts b b' Hok' Hsame]; cbn [fst snd] in *.
  - split; [done|]. split; [done|]. change (t :: ts) with ([t] ++ ts). rewrite all_refs_app.
    intros i m [Hi|Hi]%elem_of_app; [|by apply Hcl]. apply Ht. unfold all_refs in Hi. cbn in Hi. by rewrite app_nil_r in Hi.
  - split; [done|]. rewrite (all_refs_perm _ _ Hp) in Hnd.
    eapply compact_clear; try done. intros i m Hi. apply Hcl. by rewrite (all_refs_perm _ _ Hp).
  - split; [done|]. split; [done|]. intros i m' Hi Hm' Hob. destruct (Hsame _ _ Hm' Hob) as [->|(m & Hm & Ho & ->)]; [done|].
    by apply (Hcl i m).
Qed.

(** ** Live sizes *)

Definition all_size (n : Z) (ts : list (list entry)) : Z := sum_sizes (refs_to n (all_refs ts)).

Lemma all_refs_wf ts : Forall ref_wf (all_refs ts).
Proof.
  unfold all_refs. induction ts as [|t ts IH]; cbn; [constructor|]. apply Forall_app. split; [apply refs_wf|exact IH].
Qed.

Lemma all_refs_cons t ts : all_refs (t :: ts) = refs t ++ all_refs ts.
Proof. reflexivity. Qed.

Lemma all_size_cons n t ts : all_size n (t :: ts) = sum_sizes (refs_to n (refs t)) + all_size n ts.
Proof. unfold all_size. by rewrite all_refs_cons, refs_to_app, sum_sizes_app. Qed.

Lemma update_diff_spec (to_add : bool) ts : forall (diff : gmap Z Z) (lo hi : Z),
  Forall (fun t => zlen t < 2 ^ 32) ts ->
  (forall n, lo <= default 0 (diff !! n) <= hi) ->
  - 2 ^ 63 <= lo + (if to_add then 0 else - sum_sizes (all_refs ts)) ->
  hi + (if to_add then sum_sizes (all_refs ts) else 0) < 2 ^ 63 -> sum_sizes (all_refs ts) < 2 ^ 63 ->
  exists diff', fold_option (update_diff to_add) diff (table_properties <$> ts) = Some diff' /\
    forall n, default 0 (diff' !! n) = default 0 (diff !! n) + signed to_add (all_size n ts) /\
              (diff' !! n = None <-> diff !! n = None /\ refs_to n (all_refs ts) = []).
Proof.
  induction ts as [|t ts IH]; intros diff lo hi Hl Hd Hlo Hhi Hs.
  { exists diff. split; [done|]. intros n. split; [destruct to_add; cbn; lia|]. cbn. tauto. }
  apply Forall_cons in Hl as [Ht Hl]. rewrite all_refs_cons, sum_sizes_app in *.
  pose proof (sum_sizes_nonneg _ (refs_wf t)). pose proof (sum_sizes_nonneg _ (all_refs_wf ts)).
  assert (forall n, 0 <= sum_sizes (refs_to n (refs t)) <= sum_sizes (refs t)) as Hn
    by (intros n; apply sum_sizes_refs_to, refs_wf).
  destruct (extract_sizes_spec t to_add diff) as (d1 & E & Hd1); [lia|done| |].
  { intros n. specialize (Hd n). specialize (Hn n). apply int64_ok_iff. destruct to_add; cbn; lia. }
  rewrite fmap_cons. cbn [fold_option].
  assert (update_diff to_add diff (table_properties t) = Some d1) as -> by (unfold update_diff; by rewrite E).
  cbn [mbind option_bind].
  assert (forall n, default 0 (d1 !! n) = default 0 (diff !! n) + signed to_add (sum_sizes (refs_to n (refs t)))) as Hv.
  { intros n. rewrite Hd1. destruct (decide (refs_to n (refs t) = [])) as [Er|]; [|done].
    rewrite Er. destruct to_add; cbn; lia. }
  destruct (IH d1 (lo + (if to_add then 0 else - sum_sizes (refs t))) (hi + (if to_add then sum_sizes (refs t) else 0)))
    as (diff' & -> & Hd'); [done| |destruct to_add; lia|destruct to_add; lia|lia|].
  { intros n. specialize (Hd n). specialize (Hn n). rewrite Hv. destruct to_add; cbn; lia. }
  exists diff'. split; [done|]. intros n. destruct (Hd' n) as [-> ->]. rewrite Hv, all_size_cons. split.
  - destruct to_add; cbn; lia.
  - rewrite Hd1, refs_to_app. destruct (decide (refs_to n (refs t) = [])) as [Er|Er].
    + rewrite Er. cbn. done.
    + split; [by intros [? _]|]. by intros [_ [? _]%app_eq_nil].
Qed.

(** The difference that a compaction makes to a file. *)
Lemma compaction_diff_spec info ins outs :
  compacts info ins outs ->
  exists diff, compaction_diff info = Some diff /\
    forall n, default 0 (diff !! n) = all_size n outs - all_size n ins /\
              (diff !! n = None <-> refs_to n (all_refs ins) = [] /\ refs_to n (all_refs outs) = []).
Proof.
  intros (Hi & Ho & Hz & Hs). apply Forall_app in Hz as [Hzi Hzo]. unfold compaction_diff. rewrite Hi, Ho.
  pose proof (sum_sizes_nonneg _ (all_refs_wf ins)). pose proof (sum_sizes_nonneg _ (all_refs_wf outs)).
  destruct (update_diff_spec false ins ∅ 0 0 Hzi) as (d1 & -> & Hd1); [|lia..|].
  { intros n. by rewrite lookup_empty. }
  cbn [mbind option_bind].
  destruct (update_diff_spec true outs d1 (- sum_sizes (all_refs ins)) 0 Hzo) as (d2 & -> & Hd2); [|lia..|].
  { intros n. destruct (Hd1 n) as [-> _]. rewrite lookup_empty. cbn.
    pose proof (sum_sizes_refs_to n _ (all_refs_wf ins)). unfold all_size. lia. }
  exists d2. split; [done|]. intros n. destruct (Hd1 n) as [H1 H2], (Hd2 n) as [-> ->]. rewrite H1, H2, lookup_empty.
  cbn. split; [lia|tauto].
Qed.

(** Reference: a file after a compaction that changed its live size by
    [delta], without level merge. *)
Definition compacted (delta : Z) (m : BlobFileMeta) : BlobFileMeta :=
  match state_ m with
  | kPendingLSM =>
      if delta <=? 0 then set_live_data_size m (live_data_size_ m - delta)
      else set_state (set_live_data_size m (delta - live_data_size_ m)) kNormal
  | kNormal | kToMerge => set_live_data_size m (live_data_size_ m + delta)
  | _ => m
  end.

(** The sizes that make sense: a settled file only loses live data, and no more
    than it has; a pending one was not charged more than it is given. *)
Definition sane (delta : Z) (m : BlobFileMeta) : Prop :=
  0 <= live_data_size_ m < 2 ^ 63 /\
  match state_ m with
  | kPendingLSM => if delta <=? 0 then live_data_size_ m - delta < 2 ^ 63
                   else live_data_size_ m <= delta /\ delta < 2 ^ 63
  | kNormal | kToMerge => delta <= 0 /\ 0 <= live_data_size_ m + delta
  | _ => True
  end.

Lemma UpdateLiveDataSize_spec m delta :
  0 <= live_data_size_ m < 2 ^ 63 -> 0 <= live_data_size_ m + delta < 2 ^ 63 ->
  UpdateLiveDataSize m delta = Some (true, set_live_data_size m (live_data_size_ m + delta)).
Proof.
  intros Hm Hd. unfold UpdateLiveDataSize. rewrite i64_small by done.
  assert (((- 2 ^ 63 <=? live_data_size_ m + delta) && (live_data_size_ m + delta <? 2 ^ 63)) = true) as -> by lia.
  cbn [assert mbind option_bind]. destruct (Z.ltb_spec (live_data_size_ m + delta) 0); [lia|].
  rewrite u64_small by (unfold is_u64; lia). done.
Qed.

(** Charging a pending file with what it was already charged. *)
Lemma pending_delta delta live :
  0 <= live < 2 ^ 63 -> 0 <= delta < 2 ^ 63 -> live <= delta ->
  u64 (if negb (live =? 0) then i64 (u64 delta - live) else delta) = delta - live.
Proof.
  intros H1 H2 H3. rewrite (u64_small delta) by (unfold is_u64; lia).
  destruct (Z.eqb_spec live 0) as [->|]; cbn [negb].
  - rewrite u64_small by (unfold is_u64; lia). lia.
  - rewrite i64_small by lia. apply u64_small. unfold is_u64. lia.
Qed.

Lemma state_transit m e s : FileStateTransit (state_ m) e = Some s -> transit m e = Some (set_state m s).
Proof. unfold transit. by intros ->. Qed.

Lemma compaction_pending_spec cf_id seq n delta m c :
  state_ m = kPendingLSM -> sane delta m ->
  exists c', compaction_pending cf_id seq n delta m c = Some c' /\
    c_storage c' = update_file (c_storage c) n (compacted delta m).
Proof.
  intros Hst [H1 H2]. unfold compaction_pending, compacted. rewrite Hst in *.
  destruct (Z.leb_spec delta 0) as [Hd|Hd].
  - assert (int64_ok (- delta) = true) as -> by (apply int64_ok_iff; lia). cbn [assert mbind option_bind].
    rewrite UpdateLiveDataSize_spec by lia. cbn [assert mbind option_bind].
    eexists. split; [reflexivity|]. cbn [c_storage]. unfold Z.sub. reflexivity.
  - rewrite pending_delta by lia. rewrite (state_transit _ _ kNormal) by (cbn; by rewrite Hst).
    cbn [mbind option_bind]. by eexists.
Qed.

Lemma compaction_settled_spec cf_options csr cf_id seq n delta m c :
  level_merge cf_options = false -> state_ m = kNormal \/ state_ m = kToMerge -> sane delta m ->
  exists c', compaction_settled cf_options csr cf_id seq n delta m c = Some c' /\
    c_storage c' = update_file (c_storage c) n (compacted delta m).
Proof.
  intros Hlm Hst [H1 H2].
  assert (compacted delta m = set_live_data_size m (live_data_size_ m + delta) /\
          delta <= 0 /\ 0 <= live_data_size_ m + delta) as (-> & Hd & Hl).
  { unfold compacted. destruct Hst as [E|E]; rewrite E in *; done. }
  unfold compaction_settled. assert ((delta >? 0) = false) as -> by lia. cbn [negb assert mbind option_bind].
  rewrite UpdateLiveDataSize_spec by lia. cbn [assert mbind option_bind]. rewrite Hlm. cbn [negb]. by eexists.
Qed.

Lemma alter_update b n m f :
  files_ b !! n = Some m -> files_ (update_file b n (f m)) = alter f n (files_ b).
Proof.
  intros Hm. apply map_eq. intros k. cbn [files_ update_file set_files]. destruct (decide (k = n)) as [->|].
  - by rewrite lookup_insert_eq, lookup_alter_eq, Hm.
  - by rewrite lookup_insert_ne, lookup_alter_ne.
Qed.

(** Evaluate the decisions of the goal on closed terms. *)
Ltac eval_decides :=
  repeat match goal with |- context [@bool_decide ?P ?d] =>
    let v := eval vm_compute in (@bool_decide P d) in
    lazymatch v with true => idtac | false => idtac end; change (@bool_decide P d) with v end; cbv match.

Lemma compaction_file_spec cf_options csr cf_id seq c n delta :
  level_merge cf_options = false ->
  (forall m, files_ (c_storage c) !! n = Some m -> file_number_ m = n /\ sane delta m) ->
  exists c', compaction_file cf_options csr cf_id seq c (n, delta) = Some c' /\
    files_ (c_storage c') = alter (compacted delta) n (files_ (c_storage c)) /\
    cf_options_ (c_storage c') = cf_options_ (c_storage c).
Proof.
  intros Hlm Hn. unfold compaction_file, FindFile. destruct (files_ (c_storage c) !! n) as [m|] eqn:Hm.
  2:{ exists c. split; [done|]. split; [|done]. symmetry. apply alter_id. by rewrite Hm. }
  destruct (Hn m eq_refl) as [Hnum Hsane]. rewrite Hnum, Z.eqb_refl. cbn [assert mbind option_bind].
  assert (compacted delta m = m -> exists c', Some c = Some c' /\
    files_ (c_storage c') = alter (compacted delta) n (files_ (c_storage c)) /\
    cf_options_ (c_storage c') = cf_options_ (c_storage c)) as Hsame.
  { intros E. exists c. split; [done|]. split; [|done]. symmetry. apply alter_id. intros x Hx.
    rewrite Hm in Hx. by injection Hx as <-. }
  unfold is_obsolete, settled. unfold compacted at 1 in Hsame.
  destruct (state_ m) eqn:Hst; eval_decides; try (by apply Hsame).
  all: lazymatch goal with
       | |- context [compaction_pending] =>
           destruct (compaction_pending_spec cf_id seq n delta m c Hst Hsane) as (c' & -> & Hc)
       | |- _ => destruct (compaction_settled_spec cf_options csr cf_id seq n delta m c Hlm ltac:(auto) Hsane) as (c' & -> & Hc)
       end; exists c'; split; [done|]; rewrite Hc; split; [by apply alter_update|done].
Qed.
