(* ===== verification/GCStatsSpec.v ===== *)
(** * GCStatsSpec: what the event handlers guarantee, and where they go wrong *)
From S2P Require Import Prelude Coding BlobFormat BitMap BlobFileMeta TitanStats Options VersionEdit BlobStorage BlobStorageProofs BlobStorageSpec EditCollector EditCollectorProofs BlobFileSet BlobFileSetProofs BlobFileSetSpec Collectors CollectorsProofs GCStats GCStatsProofs.

Local Open Scope Z_scope.

(** ** The compaction handler, file by file *)

Lemma compacted_0 m : compacted 0 m = m.
Proof. unfold compacted. destruct m as [? ? ? ? ? ? live st ?], st; cbn; rewrite ?Z.add_0_r, ?Z.sub_0_r; done. Qed.

Lemma sane_marks P `{!forall j, Decision (P j)} m m' delta : marks P m m' -> sane delta m -> sane delta m'.
Proof. by intros [[->|[bm ->]] _]. Qed.

Lemma compaction_loop_spec cf_options csr cf_id seq diff c :
  level_merge cf_options = false ->
  (forall n m, files_ (c_storage c) !! n = Some m -> file_number_ m = n /\ sane (default 0 (diff !! n)) m) ->
  exists c', fold_option (compaction_file cf_options csr cf_id seq) c (in_order diff) = Some c' /\
    cf_options_ (c_storage c') = cf_options_ (c_storage c) /\
    forall n, files_ (c_storage c') !! n = compacted (default 0 (diff !! n)) <$> files_ (c_storage c) !! n.
Proof.
  intros Hlm Hn.
  destruct (fold_option_keyed (fun c => files_ (c_storage c)) (compaction_file cf_options csr cf_id seq)
    (fun _ delta => compacted delta) (fun c' => cf_options_ (c_storage c') = cf_options_ (c_storage c)) (in_order diff) c)
    as (c' & -> & Hc & Hf); [apply in_order_nodup|done| |].
  - intros c1 n delta Hc Hin%in_order_elem Hget.
    destruct (compaction_file_spec cf_options csr cf_id seq c1 n delta Hlm) as (c2 & ? & ? & ?).
    + intros m Hm. rewrite Hget in Hm. apply Hn in Hm. by rewrite Hin in Hm.
    + exists c2. split; [done|]. split; [congruence|done].
  - exists c'. split; [done|]. split; [done|]. intros n. rewrite Hf, in_order_to_map.
    destruct (diff !! n); cbn; [done|]. destruct (files_ (c_storage c) !! n) as [m|]; cbn; [|done]. by rewrite compacted_0.
Qed.

(** Marking the entries, when the column family has bitmaps. *)
Lemma invalidate_if_spec (use_bitmap : bool) b info ins outs :
  compacts info ins outs -> files_ok b -> refs_fit b (all_refs ins) -> refs_fit b (all_refs outs) ->
  exists b1, (if use_bitmap then invalidate_entries b info else Some b) = Some b1 /\
    cf_options_ b1 = cf_options_ b /\
    forall n, match files_ b !! n with
              | None => files_ b1 !! n = None
              | Some m => exists m1, (if use_bitmap then marks (dropped ins outs n) m m1 else m1 = m) /\
                            files_ b1 !! n = Some m1
              end.
Proof.
  intros Hc Hok Hfi Hfo. destruct use_bitmap.
  - destruct (invalidate_entries_spec b info ins outs Hc Hok Hfi Hfo) as (b1 & ? & ? & Hf).
    exists b1. split; [done|]. split; [done|]. intros n. specialize (Hf n). destruct (files_ b !! n); [|done].
    destruct Hf as (m1 & ? & ?). by exists m1.
  - exists b. split; [done|]. split; [done|]. intros n. destruct (files_ b !! n) as [m|]; [by exists m|done].
Qed.

(** C13: what a compaction changes, without level merge, when its table
    properties are those of its tables, the records they refer to are within the
    bitmaps of their files, and no live size becomes negative or too large
    ([sane]; the code asserts it): its handler reaches its end, queues its column
    family for collection, and changes each blob file by the references written
    minus the references read ([compacted]): a file in the normal state or
    waiting for a merge changes its live size by the difference, which is not
    positive; for a file that waits for the event that creates it, a difference
    that is not positive is added to what has been noted of it, and a positive one,
    less what has been noted, becomes its live size, and the file normal; the files
    that are being collected, the outputs of collections and the obsolete files
    keep their live size. With bitmaps, it marks exactly the entries that
    were read and not written back. Nothing else changes. *)
Theorem compaction_exact `{C : Comparator} io s d use_bitmap seq info b ins outs :
  job_status info = OK -> compacts info ins outs ->
  GetBlobStorage s (job_cf_id info) = Some b -> level_merge (cf_options_ b) = false ->
  files_ok b -> refs_fit b (all_refs ins) -> refs_fit b (all_refs outs) ->
  (forall n m, files_ b !! n = Some m -> sane (all_size n outs - all_size n ins) m) ->
  exists s' b', OnCompactionCompleted io s d true use_bitmap seq info = Some (s', d, true) /\
    GetBlobStorage s' (job_cf_id info) = Some b' /\
    (forall cf, cf <> job_cf_id info -> GetBlobStorage s' cf = GetBlobStorage s cf) /\
    forall n, match files_ b !! n with
              | None => files_ b' !! n = None
              | Some m => exists m1, (if use_bitmap : bool then marks (dropped ins outs n) m m1 else m1 = m) /\
                            files_ b' !! n = Some (compacted (all_size n outs - all_size n ins) m1)
              end.
Proof.
  intros Hst Hc Hb Hlm Hok Hfi Hfo Hsane. unfold OnCompactionCompleted. rewrite Hst. cbn [assert mbind option_bind ok negb].
  destruct (compaction_diff_spec info ins outs Hc) as (diff & -> & Hdiff). cbn [mbind option_bind]. rewrite Hb.
  destruct (invalidate_if_spec use_bitmap b info ins outs Hc Hok Hfi Hfo) as (b1 & -> & Hcf & Hb1).
  cbn [mbind option_bind]. rewrite Hcf, Hlm.
  destruct (compaction_loop_spec (cf_options_ b) (false && range_merge (cf_options_ b) && (num_levels (cf_options_ b) - 1 =? output_level info))
    (job_cf_id info) seq diff (mkCompaction b1 (fs_stats_ s) VersionEdit_default []) Hlm) as (c' & -> & _ & Hc').
  { intros n m1 Hm1. cbn [c_storage] in Hm1. specialize (Hb1 n). destruct (files_ b !! n) as [m|] eqn:Hm; [|by rewrite Hb1 in Hm1].
    destruct Hb1 as (m2 & Hmark & E). rewrite Hm1 in E. injection E as <-. destruct (Hdiff n) as [-> _].
    destruct (Hok n m Hm) as [Hnum _]. specialize (Hsane n m Hm). destruct use_bitmap; [|by subst].
    split; [|by eapply sane_marks]. destruct Hmark as [[->|[bm ->]] _]; done. }
  cbn [mbind option_bind]. eexists _, _. split; [reflexivity|]. unfold GetBlobStorage, set_column_families.
  cbn [column_families_]. rewrite lookup_insert_eq. split; [reflexivity|]. split.
  - intros cf Hne. by rewrite !lookup_insert_ne by congruence.
  - intros n. cbn [files_ ComputeGCScore set_gc_score]. rewrite Hc'. cbn [c_storage]. specialize (Hb1 n).
    destruct (Hdiff n) as [-> _]. destruct (files_ b !! n) as [m|]; [|by rewrite Hb1].
    destruct Hb1 as (m1 & Hmark & ->). by exists m1.
Qed.

(** ** Records in use are never marked *)

(** C11: in every state that flushes, compactions and the other operations
    reach from an empty tree, no record of a live blob file that some table
    still references is marked invalid, so that a collection that trusts the
    bitmap never drops live data. *)
Theorem referenced_never_invalid b0 ts b :
  files_ok b0 -> rtc lsm_step ([], b0) (ts, b) ->
  forall t i m, t ∈ ts -> i ∈ refs t ->
    files_ b !! BlobFormat.file_number i = Some m -> is_obsolete m = false ->
    invalid m (BlobFormat.index (blob_handle i)) = false.
Proof.
  intros H0 Hr. assert (lsm_ok (ts, b)) as (_ & _ & Hcl).
  { set (x := ([], b0)) in Hr. set (y := (ts, b)) in *. assert (lsm_ok x) as Hx.
    { split; [constructor|]. split; [done|]. intros i m Hi. by apply elem_of_nil in Hi. }
    clearbody x y. induction Hr as [|x y z Hxy _ IH]; [done|]. by apply IH, (lsm_step_ok x). }
  intros t i m Ht Hi. apply Hcl. cbn [fst]. unfold all_refs. apply list_elem_of_In, in_concat.
  exists (refs t). split; apply list_elem_of_In; [by apply list_elem_of_fmap_2|done].
Qed.

(** ** The order of the events *)

(** The events of a flush and of a later compaction may be delivered in
    either order: a new blob file, of which the flush referenced [F] bytes and
    the compaction dropped [Dr], ends up normal with [F - Dr] live bytes
    either way. *)
Theorem event_order cf_options csr cf_id seq b st n m F Dr :
  level_merge cf_options = false ->
  files_ b !! n = Some m -> file_number_ m = n -> state_ m = kPendingLSM -> live_data_size_ m = 0 ->
  0 <= Dr <= F -> F < 2 ^ 63 ->
  exists b1 st1 c1 c2 b2 st2,
    flush_file cf_id (b, st) (n, F) = Some (b1, st1) /\
    compaction_file cf_options csr cf_id seq (mkCompaction b1 st1 VersionEdit_default []) (n, - Dr) = Some c1 /\
    compaction_file cf_options csr cf_id seq (mkCompaction b st VersionEdit_default []) (n, - Dr) = Some c2 /\
    flush_file cf_id (c_storage c2, c_stats c2) (n, F) = Some (b2, st2) /\
    files_ (c_storage c1) = files_ b2 /\
    files_ b2 !! n = Some (set_state (set_live_data_size m (F - Dr)) kNormal).
Proof.
  intros Hlm Hm Hn Hst Hl HD HF.
  assert (forall (b : BlobStorage) m st, files_ b !! n = Some m -> file_number_ m = n -> state_ m = kPendingLSM ->
    0 <= live_data_size_ m <= F -> exists st',
    flush_file cf_id (b, st) (n, F) =
      Some (update_file b n (set_state (set_live_data_size m (F - live_data_size_ m)) kNormal), st')) as Hflush.
  { clear - HF. intros b m st Hm Hn Hst Hl. unfold flush_file, FindFile. rewrite Hm, Hn, Z.eqb_refl.
    cbn [assert mbind option_bind]. rewrite Hst. eval_decides. cbn [negb].
    assert ((0 <=? F) = true) as -> by lia. cbn [assert mbind option_bind].
    rewrite pending_delta by lia. rewrite (state_transit _ _ kNormal) by (cbn; by rewrite Hst).
    cbn [mbind option_bind]. by eexists. }
  destruct (Hflush b m st Hm Hn Hst ltac:(lia)) as (st1 & E1). rewrite Hl, Z.sub_0_r in E1.
  set (m1 := set_state (set_live_data_size m F) kNormal) in *.
  destruct (compaction_file_spec cf_options csr cf_id seq (mkCompaction (update_file b n m1) st1 VersionEdit_default []) n (- Dr) Hlm)
    as (c1 & E2 & Hf1 & _).
  { cbn. rewrite lookup_insert_eq. intros m' [= <-]. split; [done|]. unfold sane. cbn. lia. }
  destruct (compaction_file_spec cf_options csr cf_id seq (mkCompaction b st VersionEdit_default []) n (- Dr) Hlm)
    as (c2 & E3 & Hf2 & _).
  { cbn. rewrite Hm. intros m' [= <-]. split; [done|]. unfold sane. rewrite Hst, Hl.
    destruct (Z.leb_spec (- Dr) 0); lia. }
  cbn [c_storage] in Hf1, Hf2.
  assert (files_ (c_storage c2) !! n = Some (set_live_data_size m Dr)) as Hm2.
  { rewrite Hf2, lookup_alter_eq, Hm. cbn. unfold compacted. rewrite Hst, Hl.
    destruct (Z.leb_spec (- Dr) 0); [|lia]. do 3 f_equal. lia. }
  destruct (Hflush (c_storage c2) _ (c_stats c2) Hm2 Hn Hst ltac:(cbn; lia)) as (st2 & E4).
  eexists _, st1, c1, c2, _, st2. split; [exact E1|]. split; [exact E2|]. split; [exact E3|]. split; [exact E4|].
  cbn [files_ update_file set_files] in *. cbn [live_data_size_ set_live_data_size]. rewrite lookup_insert_eq.
  split; [|by destruct m]. rewrite Hf1, Hf2. apply map_eq. intros k. destruct (decide (k = n)) as [->|].
  - rewrite lookup_alter_eq, !lookup_insert_eq. cbn. by destruct m.
  - by rewrite lookup_alter_ne, !lookup_insert_ne, lookup_alter_ne.
Qed.

(** ** Statistics that go wrong *)

Lemma cf_counter_add st cf t v k : cf_counter st cf t = Some v ->
  cf_counter (AddStats st cf t k) cf t = Some (u64 (v + k)).
Proof. intros H. rewrite AddStats_counter, decide_True by done. by rewrite H. Qed.

(** A blob file written by a compaction is counted twice in the class of its
    discardable ratio: once where it is settled, and once more at the end of the
    loop, where it is in the normal state. *)
Theorem compaction_output_counted_twice cf_options csr cf_id seq c n m delta v :
  files_ (c_storage c) !! n = Some m -> file_number_ m = n -> state_ m = kPendingLSM ->
  0 < delta < 2 ^ 63 -> 0 <= live_data_size_ m <= delta ->
  let level := GetDiscardableRatioLevel (compacted delta m) in
  cf_counter (c_stats c) cf_id level = Some v -> 0 <= v < 2 ^ 64 - 2 ->
  exists c', compaction_file cf_options csr cf_id seq c (n, delta) = Some c' /\
    cf_counter (c_stats c') cf_id level = Some (v + 2).
Proof.
  intros Hm Hn Hst Hd Hl level Hv Hr. unfold compaction_file, FindFile. rewrite Hm, Hn, Z.eqb_refl.
  cbn [assert mbind option_bind]. unfold is_obsolete. rewrite Hst. eval_decides.
  assert (compacted delta m = set_state (set_live_data_size m (delta - live_data_size_ m)) kNormal) as Hc.
  { unfold compacted. rewrite Hst. destruct (Z.leb_spec delta 0); [lia|done]. }
  unfold compaction_pending. destruct (Z.leb_spec delta 0); [lia|]. rewrite pending_delta by lia.
  rewrite (state_transit _ _ kNormal) by (cbn; by rewrite Hst). cbn [mbind option_bind].
  rewrite <- Hc. eexists. split; [reflexivity|]. unfold count_file. cbn [c_stats].
  assert (settled (compacted delta m) = true) as -> by (rewrite Hc; done).
  replace (GetDiscardableRatioLevel (set_live_data_size m (delta - live_data_size_ m))) with level
    by (unfold level; by rewrite Hc).
  fold level. erewrite cf_counter_add by (by apply cf_counter_add). unfold u64. rewrite Zplus_mod_idemp_l.
  f_equal. rewrite Z.mod_small; lia.
Qed.

(** When a compaction drops live data of a settled file, the live size of
    the file falls by that much, and the counter behind [live-blob-size] rises by
    it, since the negative difference is subtracted. *)
Theorem live_blob_size_grows cf_options csr cf_id seq c n m delta v :
  level_merge cf_options = false ->
  files_ (c_storage c) !! n = Some m -> file_number_ m = n -> state_ m = kNormal ->
  0 <= live_data_size_ m + delta -> delta < 0 -> live_data_size_ m < 2 ^ 63 ->
  cf_counter (c_stats c) cf_id LIVE_BLOB_SIZE = Some v -> 0 <= v -> v - delta < 2 ^ 64 ->
  exists c', compaction_file cf_options csr cf_id seq c (n, delta) = Some c' /\
    files_ (c_storage c') !! n = Some (set_live_data_size m (live_data_size_ m + delta)) /\
    cf_counter (c_stats c') cf_id LIVE_BLOB_SIZE = Some (v - delta).
Proof.
  intros Hlm Hm Hn Hst Hl Hd Hb Hv Hv0 Hr. unfold compaction_file, FindFile. rewrite Hm, Hn, Z.eqb_refl.
  cbn [assert mbind option_bind]. unfold is_obsolete, settled. rewrite Hst. eval_decides.
  unfold compaction_settled. assert ((delta >? 0) = false) as -> by lia. cbn [negb assert mbind option_bind].
  rewrite UpdateLiveDataSize_spec by lia. cbn [assert mbind option_bind]. rewrite Hlm. cbn [negb].
  eexists. split; [reflexivity|]. unfold count_file. cbn [c_storage c_stats update_file set_files files_].
  rewrite lookup_insert_eq. split; [done|].
  assert (settled (set_live_data_size m (live_data_size_ m + delta)) = true) as ->.
  { unfold settled. cbn. rewrite Hst. done. }
  assert (forall m', GetDiscardableRatioLevel m' <> LIVE_BLOB_SIZE) as Hne.
  { intros m'. unfold GetDiscardableRatioLevel. repeat case_match; done. }
  rewrite AddStats_counter, decide_False by (intros [_ H]; by apply Hne in H).
  rewrite SubStats_counter, decide_True by done.
  rewrite SubStats_counter, decide_False by (intros [_ H]; by apply Hne in H).
  rewrite Hv. cbn. by rewrite u64_small by (unfold is_u64; lia).
Qed.

(** With level merge, a file of another column family than the default one
    that loses its last live data is never deleted: the edit that should delete
    it does not name the column family, is looked up in the default one, and is
    refused there. *)
Theorem level_merge_delete_refused `{C : Comparator} `{L : !ComparatorLaws C}
    cf_options csr cf_id seq b st n m io s d k b0 :
  level_merge cf_options = true ->
  files_ b !! n = Some m -> file_number_ m = n -> state_ m = kNormal -> 0 <= live_data_size_ m < 2 ^ 63 ->
  set_wf s -> manifest_ s = Some k -> 0 <= fs_next_file_number_ s ->
  column_families_ s !! 0 = Some b0 -> files_ b0 !! n = None ->
  exists c, compaction_file cf_options csr cf_id seq (mkCompaction b st VersionEdit_default []) (n, - live_data_size_ m) = Some c /\
    files_ (c_storage c) !! n = Some (set_live_data_size m 0) /\
    deleted_files_ (c_edit c) = [(n, seq)] /\
    LogAndApply io s d (c_edit c) = Some (Corruption, s, d).
Proof.
  intros Hlm Hm Hn Hst Hl Hwf Hk Hnext Hb0 Hno. unfold compaction_file, FindFile. cbn [c_storage].
  rewrite Hm, Hn, Z.eqb_refl. cbn [assert mbind option_bind]. unfold is_obsolete, settled. rewrite Hst. eval_decides.
  unfold compaction_settled. assert ((- live_data_size_ m >? 0) = false) as -> by lia. cbn [negb assert mbind option_bind].
  rewrite UpdateLiveDataSize_spec by lia. cbn [assert mbind option_bind]. rewrite Hlm, Z.add_opp_diag_r. cbn [negb].
  eexists. split; [reflexivity|]. cbn [c_storage c_edit count_file update_file set_files files_]. rewrite lookup_insert_eq.
  split; [done|]. split; [by cbn; rewrite Hn|].
  match goal with |- LogAndApply _ _ _ ?e = _ => set (edit := e) end.
  assert (~ acceptable b0 edit) as Hna.
  { intros [_ [_ Hs]]. destruct (Hs n) as (m' & Hm' & _); [| |by rewrite Hno in Hm'].
    - rewrite collect_new. cbn. rewrite Hn, lookup_insert_eq. by eexists.
    - done. }
  destruct (LogAndApply_spec io s d edit b0 k Hwf Hk Hnext Hb0) as [[_ H]|[(H & _)|[(H & _)|(H & _)]]]; try done.
  by intros f ?%elem_of_nil.
Qed.

(** ** Examples *)

(** Blob file 7 has four entries, of which the table references two. *)
Definition example_blob (live : Z) (s : FileState) : BlobFileMeta :=
  mkMeta 7 10000000 4 6 [97] [99] live s (Some (BitMap_new 4)).

Definition example_blobs (merge : bool) (m : BlobFileMeta) : BlobStorage :=
  set_files (BlobStorage_new (mkCFOptions 7 4096 0 268435456 15000000 1000000 (d_tenths 5) 8388608 mode_kNormal
                                merge false 20 false true true "gc.xclbin") 3) {[7 := m]}.

Definition example_table : list (bytes * EntryType) := [example_entry 7 0 40; example_entry 7 2 60].

(** A compaction that keeps the reference to entry 2 only. *)
Definition example_job : CompactionJobInfo :=
  mkJobInfo 3 OK ["in"%string] ["out"%string]
    (<["in"%string := table_properties example_table]>
       {["out"%string := table_properties [example_entry 7 2 60]]}) 6.

Lemma example_compacts : compacts example_job [example_table] [[example_entry 7 2 60]].
Proof. split; [reflexivity|]. split; [reflexivity|]. split; [repeat constructor|]. vm_compute. reflexivity. Qed.

Lemma example_files_ok merge live s : files_ok (example_blobs merge (example_blob live s)).
Proof.
  intros n m Hm. cbn in Hm. apply lookup_singleton_Some in Hm as [<- <-]. split; [done|]. intros _.
  exists (BitMap_new 4). split; [done|]. split; [by apply BitMap_new_wf|done].
Qed.

Lemma example_fit merge live s ts :
  Forall (fun i => BlobFormat.index (blob_handle i) <= 4) (all_refs ts) ->
  refs_fit (example_blobs merge (example_blob live s)) (all_refs ts).
Proof.
  intros H i m Hi Hm _. cbn in Hm. apply lookup_singleton_Some in Hm as [_ <-]. rewrite Forall_forall in H.
  cbn. by apply H.
Qed.

Lemma compaction_exact_witness :
  let b := example_blobs false (example_blob 100 kNormal) in
  let s := set_column_families (BlobFileSet_new None 0) {[3 := b]} None in
  exists s' b', OnCompactionCompleted (C := BytewiseComparator) io_ok s (mkDisk None ∅ ∅) true true 9 example_job
      = Some (s', mkDisk None ∅ ∅, true) /\
    GetBlobStorage s' 3 = Some b' /\
    exists m', files_ b' !! 7 = Some m' /\ live_data_size_ m' = 60 /\ invalid m' 0 = true /\ invalid m' 2 = false.
Proof.
  intros b s.
  destruct (compaction_exact (C := BytewiseComparator) io_ok s (mkDisk None ∅ ∅) true 9 example_job b
    [example_table] [[example_entry 7 2 60]] eq_refl example_compacts eq_refl eq_refl
    (example_files_ok false 100 kNormal)) as (s' & b' & H1 & H2 & _ & H3).
  - apply example_fit. vm_compute. by repeat constructor.
  - apply example_fit. vm_compute. by repeat constructor.
  - intros n m Hm. cbn in Hm. apply lookup_singleton_Some in Hm as [<- <-]. split; vm_compute; done.
  - exists s', b'. split; [exact H1|]. split; [exact H2|]. specialize (H3 7).
    change (files_ b !! 7) with (Some (example_blob 100 kNormal)) in H3.
    destruct H3 as (m1 & (Hs & _ & Hinv) & Hb). destruct (Hinv eq_refl) as [_ Hi].
    eexists. split; [exact Hb|]. destruct Hs as [->|[bm ->]].
    + specialize (Hi 0 ltac:(lia)). vm_compute in Hi. discriminate Hi.
    + split; [vm_compute; reflexivity|]. change (invalid (compacted _ ?m) ?j) with (invalid m j).
      rewrite !Hi by done. split; vm_compute; reflexivity.
Defined.

Lemma referenced_never_invalid_witness :
  exists b m, rtc lsm_step ([], example_blobs false (example_blob 100 kNormal)) ([[example_entry 7 2 60]], b) /\
    files_ b !! 7 = Some m /\ invalid m 2 = false.
Proof.
  set (b := example_blobs false (example_blob 100 kNormal)).
  destruct (invalidate_entries b example_job) as [b'|] eqn:E; [|vm_compute in E; discriminate E].
  assert (rtc lsm_step ([], b) ([[example_entry 7 2 60]], b')) as Hr.
  { eapply rtc_l; [apply (lsm_flush [] b example_table)|].
    - intros i m _ Hm _. cbn in Hm. apply lookup_singleton_Some in Hm as [_ <-]. unfold invalid. cbn -[get BitMap_new].
      apply BitMap_new_get.
    - vm_compute. repeat constructor; set_solver.
    - eapply rtc_l; [|apply rtc_refl].
      apply (lsm_compact [example_table] b [example_table] [[example_entry 7 2 60]] [] example_job);
        [done|apply example_compacts| | | | |exact E].
      + apply example_fit. vm_compute. by repeat constructor.
      + apply example_fit. vm_compute. by repeat constructor.
      + intros i Hi. left. vm_compute in Hi. apply list_elem_of_singleton in Hi as ->. vm_compute. set_solver.
      + vm_compute. repeat constructor; set_solver. }
  destruct (files_ b' !! 7) as [m|] eqn:Hm; [|vm_compute in E; injection E as <-; vm_compute in Hm; discriminate Hm].
  exists b', m. split; [exact Hr|]. split; [exact Hm|].
  eapply (referenced_never_invalid b [[example_entry 7 2 60]] b' (example_files_ok _ _ _) Hr [example_entry 7 2 60]
    {| BlobFormat.file_number := 7; blob_handle := {| offset := 212; BlobFormat.size := 60; BlobFormat.index := 2 |};
       old_file_number := 0; old_blob_handle := BlobHandle_default |}).
  - apply list_elem_of_here.
  - vm_compute. apply list_elem_of_here.
  - exact Hm.
  - vm_compute in E. injection E as <-. vm_compute in Hm. injection Hm as <-. reflexivity.
Defined.

Lemma event_order_witness :
  exists b2, files_ b2 !! 7 = Some (set_state (set_live_data_size (example_blob 0 kPendingLSM) 60) kNormal).
Proof.
  destruct (event_order (cf_options_ (example_blobs false (example_blob 0 kPendingLSM))) false 3 9
    (example_blobs false (example_blob 0 kPendingLSM)) None 7 (example_blob 0 kPendingLSM) 100 40)
    as (_ & _ & _ & _ & b2 & _ & _ & _ & _ & _ & _ & H); try done.
  exists b2. exact H.
Defined.

(** The statistics of column family 3, all zero. *)
Definition example_stats : TitanStats := Some (InitializeCF ∅ 3).

Lemma compaction_output_counted_twice_witness :
  exists c', compaction_file (TitanCFOptions_default 7) false 3 9
      (mkCompaction (example_blobs false (example_blob 0 kPendingLSM)) example_stats VersionEdit_default []) (7, 9000000) = Some c' /\
    cf_counter (c_stats c') 3 NUM_DISCARDABLE_RATIO_LE20 = Some 2.
Proof.
  apply (compaction_output_counted_twice (TitanCFOptions_default 7) false 3 9
    (mkCompaction (example_blobs false (example_blob 0 kPendingLSM)) example_stats VersionEdit_default []) 7
    (example_blob 0 kPendingLSM) 9000000 0); try done.
Defined.

Lemma live_blob_size_grows_witness :
  exists c', compaction_file (TitanCFOptions_default 7) false 3 9
      (mkCompaction (example_blobs false (example_blob 9000000 kNormal))
         (AddStats example_stats 3 LIVE_BLOB_SIZE 9000000) VersionEdit_default []) (7, -1000000) = Some c' /\
    files_ (c_storage c') !! 7 = Some (set_live_data_size (example_blob 9000000 kNormal) 8000000) /\
    cf_counter (c_stats c') 3 LIVE_BLOB_SIZE = Some 10000000.
Proof.
  apply (live_blob_size_grows (TitanCFOptions_default 7) false 3 9
    (mkCompaction (example_blobs false (example_blob 9000000 kNormal))
       (AddStats example_stats 3 LIVE_BLOB_SIZE 9000000) VersionEdit_default []) 7
    (example_blob 9000000 kNormal) (-1000000) 9000000); try done.
Defined.

Lemma level_merge_delete_refused_witness :
  exists c, compaction_file (cf_options_ (example_blobs true (example_blob 100 kNormal))) false 3 9
      (mkCompaction (example_blobs true (example_blob 100 kNormal)) None VersionEdit_default []) (7, -100) = Some c /\
    LogAndApply (C := BytewiseComparator) io_ok example_logged.1 example_logged.2 (c_edit c)
      = Some (Corruption, example_logged.1, example_logged.2).
Proof.
  destruct (level_merge_delete_refused (C := BytewiseComparator) (cf_options_ (example_blobs true (example_blob 100 kNormal)))
    false 3 9 (example_blobs true (example_blob 100 kNormal)) None 7 (example_blob 100 kNormal) io_ok
    example_logged.1 example_logged.2 1 example_logged_storage) as (c & H1 & _ & _ & H2).
  - reflexivity.
  - reflexivity.
  - reflexivity.
  - reflexivity.
  - cbn. lia.
  - apply (reachable_ok _ _ example_initial example_steps).
  - vm_compute. reflexivity.
  - vm_compute. discriminate.
  - apply example_logged_files.
  - by rewrite (proj2 example_logged_files).
  - exists c. split; [exact H1|exact H2].
Defined.
