(* ===== verification/LiveSizes.v ===== *)
(** * LiveSizes: the books of live data under any order of events

    RocksDB installs the tables of a flush, of a compaction or of a deletion of
    ranges first, and tells Titan afterwards, from threads of its own, so that
    the handlers of [db_impl.cc] run in any order. This file keeps the books:
    what the handlers have to have noted of a blob file is what the tables refer
    to, less what the events say that are still on their way. *)
From S2P Require Import Prelude Coding BlobFormat BitMap BlobFileMeta TitanStats Options VersionEdit BlobStorage BlobStorageProofs BlobStorageSpec EditCollector EditCollectorProofs BlobFileSet BlobFileSetProofs BlobFileSetSpec Collectors CollectorsProofs GCStats GCStatsProofs GCStatsSpec.

Local Open Scope Z_scope.

(** ** What each handler does to the files *)

(** Reference: a file after the event of the flush that referred to [delta]
    bytes of it. *)
Definition flushed (delta : Z) (m : BlobFileMeta) : BlobFileMeta :=
  match state_ m with
  | kPendingLSM => set_state (set_live_data_size m (delta - live_data_size_ m)) kNormal
  | _ => m
  end.

(** Reference: a file after a deletion of tables. *)
Definition range_deleted (delta : Z) (m : BlobFileMeta) : BlobFileMeta :=
  if is_obsolete m then m else set_live_data_size m (live_data_size_ m + delta).

Lemma range_deleted_0 m : range_deleted 0 m = m.
Proof. unfold range_deleted. destruct m, (is_obsolete _); cbn; rewrite ?Z.add_0_r; done. Qed.

Lemma lookup_put (s : BlobFileSet) cf b st : GetBlobStorage (set_column_families s (<[cf := b]> (column_families_ s)) st) cf = Some b.
Proof. unfold GetBlobStorage. cbn. by rewrite lookup_insert_eq. Qed.

Lemma flush_file_spec cf b st n delta m :
  files_ b !! n = Some m -> file_number_ m = n -> 0 <= delta < 2 ^ 63 ->
  (state_ m = kPendingLSM -> 0 <= live_data_size_ m <= delta) ->
  exists b' st', flush_file cf (b, st) (n, delta) = Some (b', st') /\
    files_ b' = alter (flushed delta) n (files_ b) /\ cf_options_ b' = cf_options_ b.
Proof.
  intros Hm Hn Hd Hl. unfold flush_file, FindFile. rewrite Hm, Hn, Z.eqb_refl. cbn [assert mbind option_bind].
  destruct (decide (state_ m = kPendingLSM)) as [Hst|Hst].
  - rewrite Hst. eval_decides. cbn [negb]. specialize (Hl Hst).
    assert ((0 <=? delta) = true) as -> by lia. cbn [assert mbind option_bind].
    rewrite pending_delta by lia. rewrite (state_transit _ _ kNormal) by (cbn; by rewrite Hst).
    cbn [mbind option_bind]. eexists _, _. split; [reflexivity|]. split; [|done].
    rewrite <- (alter_update b n m (flushed delta) Hm). unfold flushed. by rewrite Hst.
  - rewrite bool_decide_false by done. cbn [negb]. eexists _, _. split; [reflexivity|]. split; [|done].
    symmetry. apply alter_id. intros x Hx. rewrite Hm in Hx. injection Hx as <-. unfold flushed.
    by destruct (state_ m).
Qed.

Lemma OnFlushCompleted_files s cf t b :
  GetBlobStorage s cf = Some b -> zlen t < 2 ^ 32 -> sum_sizes (refs t) < 2 ^ 63 ->
  (forall n m, files_ b !! n = Some m -> file_number_ m = n /\
     (state_ m = kPendingLSM -> refs_to n (refs t) <> [] -> 0 <= live_data_size_ m <= sum_sizes (refs_to n (refs t)))) ->
  exists s' b', OnFlushCompleted s cf (table_properties t) = Some s' /\ GetBlobStorage s' cf = Some b' /\
    cf_options_ b' = cf_options_ b /\
    forall n, files_ b' !! n = (if decide (refs_to n (refs t) = []) then files_ b !! n
                                else flushed (sum_sizes (refs_to n (refs t))) <$> files_ b !! n).
Proof.
  intros Hb Hl Hs Hok. unfold OnFlushCompleted.
  assert (forall n, 0 <= sum_sizes (refs_to n (refs t)) < 2 ^ 63) as Hn.
  { intros n. pose proof (sum_sizes_refs_to n _ (refs_wf t)). lia. }
  destruct (extract_sizes_spec t true ∅ Hs Hl) as (diff & -> & Hd).
  { intros n. rewrite lookup_empty. apply int64_ok_iff. specialize (Hn n). cbn. lia. }
  cbn [mbind option_bind ok assert]. rewrite Hb. cbn [mbind option_bind].
  destruct (fold_option_keyed (fun x : BlobStorage * TitanStats => files_ x.1) (flush_file cf) (fun _ => flushed)
    (fun x => cf_options_ x.1 = cf_options_ b) (in_order diff) (b, fs_stats_ s)) as ([b' st'] & -> & Hc & Hf);
    [apply in_order_nodup|done| |].
  - intros [b1 st1] n delta Hc Hin%in_order_elem Hget. cbn [fst] in *. rewrite Hd, lookup_empty in Hin.
    destruct (decide _) as [|Hne] in Hin; [done|]. injection Hin as <-. change (default 0 None) with 0.
    rewrite Z.add_0_l. change (signed true ?x) with x.
    destruct (files_ b !! n) as [m|] eqn:Hm.
    + destruct (Hok n m Hm) as [Hnum Hp].
      destruct (flush_file_spec cf b1 st1 n (sum_sizes (refs_to n (refs t))) m) as (b2 & st2 & ? & ? & ?); [done..|by auto|].
      exists (b2, st2). split; [done|]. split; [cbn; congruence|done].
    + exists (b1, st1). unfold flush_file, FindFile. rewrite Hget. split; [done|]. split; [done|]. cbn.
      symmetry. apply alter_id. by rewrite Hget.
  - cbn [mbind option_bind fst] in *. eexists _, b'. split; [reflexivity|]. split; [apply lookup_put|]. split; [done|].
    intros n. rewrite Hf, in_order_to_map, Hd, lookup_empty. by case_decide.
Qed.

Lemma range_delete_file_spec cf_options cf seq c n delta m :
  level_merge cf_options = false -> files_ (c_storage c) !! n = Some m -> file_number_ m = n ->
  (is_obsolete m = false -> 0 <= live_data_size_ m < 2 ^ 63 /\ 0 <= live_data_size_ m + delta < 2 ^ 63) ->
  exists c', range_delete_file cf_options cf seq c (n, delta) = Some c' /\
    files_ (c_storage c') = alter (range_deleted delta) n (files_ (c_storage c)) /\
    cf_options_ (c_storage c') = cf_options_ (c_storage c).
Proof.
  intros Hlm Hm Hn Hs. unfold range_delete_file, FindFile. rewrite Hm, Hn, Z.eqb_refl. cbn [assert mbind option_bind].
  destruct (is_obsolete m) eqn:Ho.
  - exists c. split; [done|]. split; [|done]. symmetry. apply alter_id. intros x Hx.
    rewrite Hm in Hx. injection Hx as <-. unfold range_deleted. by rewrite Ho.
  - destruct (Hs eq_refl) as [H1 H2]. rewrite UpdateLiveDataSize_spec by done.
    cbn [assert mbind option_bind]. rewrite Hlm. cbn [negb mbind option_bind]. eexists. split; [reflexivity|].
    cbn [c_storage]. split; [|done]. rewrite <- (alter_update _ n m (range_deleted delta) Hm). unfold range_deleted. by rewrite Ho.
Qed.

(** A file whose creation has not been reported has no live size to take from:
    unlike the handler of compactions, this one does not expect it. *)
Lemma range_delete_pending_stops cf_options cf seq c n delta m :
  files_ (c_storage c) !! n = Some m -> file_number_ m = n -> state_ m = kPendingLSM -> live_data_size_ m = 0 ->
  - 2 ^ 63 <= delta < 0 -> range_delete_file cf_options cf seq c (n, delta) = None.
Proof.
  intros Hm Hn Hst Hl Hd. unfold range_delete_file, FindFile. rewrite Hm, Hn, Z.eqb_refl. cbn [assert mbind option_bind].
  unfold is_obsolete. rewrite Hst, bool_decide_false by done. unfold UpdateLiveDataSize. rewrite Hl, i64_small by lia.
  assert (((- 2 ^ 63 <=? 0 + delta) && (0 + delta <? 2 ^ 63)) = true) as -> by lia.
  cbn [assert mbind option_bind]. by assert ((0 + delta <? 0) = true) as -> by lia.
Qed.

(** A section of the handler leaves the other files alone. *)
Lemma range_delete_file_other cf_options cf seq c k delta c' n :
  range_delete_file cf_options cf seq c (k, delta) = Some c' -> n <> k -> files_ (c_storage c') !! n = files_ (c_storage c) !! n.
Proof.
  intros H Hne. unfold range_delete_file in H. apply bind_Some in H as (file & _ & H).
  destruct file as [file|]; [|by injection H as <-]. destruct (is_obsolete file); [by injection H as <-|].
  apply bind_Some in H as ([ok m] & _ & H). apply bind_Some in H as ([] & _ & H). apply bind_Some in H as ([m' e] & _ & H).
  injection H as <-. cbn. by rewrite lookup_insert_ne by congruence.
Qed.

(** The handler does not get past a file that has less live data than is to be
    taken from it. *)
Lemma range_delete_stops cf_options cf seq n delta m l : forall c,
  NoDup l.*1 -> (n, delta) ∈ l -> files_ (c_storage c) !! n = Some m -> file_number_ m = n -> is_obsolete m = false ->
  0 <= live_data_size_ m < 2 ^ 63 -> live_data_size_ m + delta < 0 ->
  fold_option (range_delete_file cf_options cf seq) c l = None.
Proof.
  induction l as [|[k d] l IH]; intros c Hnd Hin Hm Hn Ho Hl Hd; [by apply elem_of_nil in Hin|].
  cbn [fmap list_fmap] in Hnd. apply NoDup_cons in Hnd as [Hk Hnd]. cbn [fold_option].
  apply elem_of_cons in Hin as [[= <- <-]|Hin].
  - assert (range_delete_file cf_options cf seq c (n, delta) = None) as ->; [|done].
    unfold range_delete_file, FindFile. rewrite Hm, Hn, Z.eqb_refl. cbn [assert mbind option_bind]. rewrite Ho.
    unfold UpdateLiveDataSize. rewrite i64_small by lia. destruct (assert _) as [[]|]; [|done]. cbn [mbind option_bind].
    by rewrite (proj2 (Z.ltb_lt _ _) Hd).
  - destruct (range_delete_file cf_options cf seq c (k, d)) as [c'|] eqn:E; [|done]. cbn [mbind option_bind].
    apply IH; try done. rewrite (range_delete_file_other _ _ _ _ _ _ _ _ E); [done|].
    intros ->. apply Hk. apply list_elem_of_fmap. by exists (k, delta).
Qed.

Section Handlers.
Context `{C : Comparator}.

(** When the base database fails, nothing has been done. *)
Lemma DeleteFilesInRanges_fails io s d cf seq ts failure :
  Forall (fun t => zlen t < 2 ^ 32) ts -> sum_sizes (all_refs ts) < 2 ^ 63 -> ok failure = false ->
  DeleteFilesInRanges io s d cf seq (table_properties <$> ts) failure = Some (failure, s, d, false).
Proof.
  intros Hz Hs Hf. unfold DeleteFilesInRanges. pose proof (sum_sizes_nonneg _ (all_refs_wf ts)) as Hnn.
  destruct (update_diff_spec false ts ∅ 0 0 Hz) as (diff & -> & _); [intros n; by rewrite lookup_empty|lia..|].
  cbn [mbind option_bind]. by rewrite Hf.
Qed.

Lemma DeleteFilesInRanges_files io s d cf seq ts b :
  GetBlobStorage s cf = Some b -> level_merge (cf_options_ b) = false ->
  Forall (fun t => zlen t < 2 ^ 32) ts -> sum_sizes (all_refs ts) < 2 ^ 63 ->
  (forall n m, files_ b !! n = Some m -> file_number_ m = n /\
     (is_obsolete m = false -> 0 <= live_data_size_ m < 2 ^ 63 /\ 0 <= live_data_size_ m - all_size n ts)) ->
  exists s' b', DeleteFilesInRanges io s d cf seq (table_properties <$> ts) OK = Some (OK, s', d, true) /\
    GetBlobStorage s' cf = Some b' /\ cf_options_ b' = cf_options_ b /\
    (forall cf', cf' <> cf -> GetBlobStorage s' cf' = GetBlobStorage s cf') /\
    forall n, files_ b' !! n = range_deleted (- all_size n ts) <$> files_ b !! n.
Proof.
  intros Hb Hlm Hz Hs Hok. unfold DeleteFilesInRanges.
  pose proof (sum_sizes_nonneg _ (all_refs_wf ts)) as Hnn.
  assert (forall n, 0 <= all_size n ts < 2 ^ 63) as Hn.
  { intros n. pose proof (sum_sizes_refs_to n _ (all_refs_wf ts)). unfold all_size. lia. }
  destruct (update_diff_spec false ts ∅ 0 0 Hz) as (diff & -> & Hd); [intros n; by rewrite lookup_empty|lia..|].
  cbn [mbind option_bind ok negb]. rewrite Hb, Hlm.
  destruct (fold_option_keyed (fun c => files_ (c_storage c)) (range_delete_file (cf_options_ b) cf seq)
    (fun _ => range_deleted) (fun c => cf_options_ (c_storage c) = cf_options_ b) (in_order diff)
    (mkCompaction b (fs_stats_ s) VersionEdit_default [])) as (c' & -> & Hc & Hf); [apply in_order_nodup|done| |].
  - intros c1 n delta Hc Hin%in_order_elem Hget. cbn [c_storage] in *.
    destruct (Hd n) as [Hv _]. rewrite Hin, lookup_empty in Hv. cbn in Hv.
    destruct (files_ b !! n) as [m|] eqn:Hm.
    + destruct (Hok n m Hm) as [Hnum Hp]. specialize (Hn n).
      destruct (range_delete_file_spec (cf_options_ b) cf seq c1 n delta m) as (c2 & ? & ? & ?); [done..| |].
      { intros Ho. specialize (Hp Ho). lia. }
      exists c2. split; [done|]. split; [congruence|done].
    + exists c1. unfold range_delete_file, FindFile. rewrite Hget. split; [done|]. split; [done|].
      symmetry. apply alter_id. by rewrite Hget.
  - cbn [mbind option_bind]. eexists _, _. split; [reflexivity|]. split; [apply lookup_put|]. split; [done|]. split.
    { intros cf' Hne. unfold GetBlobStorage. cbn. by rewrite !lookup_insert_ne by congruence. }
    intros n. cbn [files_ ComputeGCScore set_gc_score]. rewrite Hf, in_order_to_map. cbn [c_storage].
    destruct (Hd n) as [Hv _]. rewrite lookup_empty in Hv. cbn in Hv. destruct (diff !! n) as [v|]; cbn in Hv.
    + by rewrite Hv.
    + assert (all_size n ts = 0) as -> by lia. destruct (files_ b !! n); cbn; [|done]. by rewrite range_deleted_0.
Qed.

(** A deletion of ranges that takes more from a file than has been noted of it. *)
Lemma DeleteFilesInRanges_stops io s d cf seq ts b n m :
  GetBlobStorage s cf = Some b -> Forall (fun t => zlen t < 2 ^ 32) ts -> sum_sizes (all_refs ts) < 2 ^ 63 ->
  files_ b !! n = Some m -> file_number_ m = n -> is_obsolete m = false -> 0 <= live_data_size_ m < 2 ^ 63 ->
  live_data_size_ m < all_size n ts ->
  DeleteFilesInRanges io s d cf seq (table_properties <$> ts) OK = None.
Proof.
  intros Hb Hz Hs Hm Hn Ho Hl Hlt. unfold DeleteFilesInRanges. pose proof (sum_sizes_nonneg _ (all_refs_wf ts)).
  destruct (update_diff_spec false ts ∅ 0 0 Hz) as (diff & -> & Hd); [intros k; by rewrite lookup_empty|lia..|].
  cbn [mbind option_bind ok negb]. rewrite Hb. destruct (Hd n) as [Hv _]. rewrite lookup_empty in Hv. cbn in Hv.
  destruct (diff !! n) as [v|] eqn:E; cbn in Hv; [|lia].
  erewrite (range_delete_stops _ _ _ n v m); try done; [apply in_order_nodup|by apply in_order_elem|lia].
Qed.

(** The compaction handler, without what the bitmaps say. *)
Lemma OnCompactionCompleted_files io s d use_bitmap seq info b ins outs :
  job_status info = OK -> compacts info ins outs ->
  GetBlobStorage s (job_cf_id info) = Some b -> level_merge (cf_options_ b) = false ->
  files_ok b -> refs_fit b (all_refs ins) -> refs_fit b (all_refs outs) ->
  (forall n m, files_ b !! n = Some m -> sane (all_size n outs - all_size n ins) m) ->
  exists s' b', OnCompactionCompleted io s d true use_bitmap seq info = Some (s', d, true) /\
    GetBlobStorage s' (job_cf_id info) = Some b' /\ cf_options_ b' = cf_options_ b /\
    forall n, match files_ b !! n with
              | None => files_ b' !! n = None
              | Some m => exists m1, (m1 = m \/ exists bm, m1 = set_invalid m bm) /\
                            files_ b' !! n = Some (compacted (all_size n outs - all_size n ins) m1)
              end.
Proof.
  intros Hst Hc Hb Hlm Hok Hfi Hfo Hsane. unfold OnCompactionCompleted. rewrite Hst. cbn [assert mbind option_bind ok negb].
  destruct (compaction_diff_spec info ins outs Hc) as (diff & -> & Hdiff). cbn [mbind option_bind]. rewrite Hb.
  destruct (invalidate_if_spec use_bitmap b info ins outs Hc Hok Hfi Hfo) as (b1 & -> & Hcf & Hb1).
  cbn [mbind option_bind]. rewrite Hcf, Hlm.
  assert (forall n m, files_ b !! n = Some m -> exists m1, files_ b1 !! n = Some m1 /\ (m1 = m \/ exists bm, m1 = set_invalid m bm)) as Hmark.
  { intros n m Hm. specialize (Hb1 n). rewrite Hm in Hb1. destruct Hb1 as (m1 & Hmk & ?). exists m1. split; [done|].
    destruct use_bitmap; [|by left]. by destruct Hmk. }
  destruct (compaction_loop_spec (cf_options_ b) (false && range_merge (cf_options_ b) && (num_levels (cf_options_ b) - 1 =? output_level info))
    (job_cf_id info) seq diff (mkCompaction b1 (fs_stats_ s) VersionEdit_default []) Hlm) as (c' & -> & Hc' & Hf).
  { cbn [c_storage]. intros n m1 Hm1. specialize (Hb1 n). destruct (files_ b !! n) as [m|] eqn:Hm; [|by rewrite Hb1 in Hm1].
    destruct (Hmark n m Hm) as (m2 & E & Hs). rewrite Hm1 in E. injection E as <-.
    destruct (Hdiff n) as [-> _], (Hok n m Hm) as [? _]. specialize (Hsane n m Hm). by destruct Hs as [->|[bm ->]]. }
  cbn [mbind option_bind]. eexists _, _. split; [reflexivity|]. split; [apply lookup_put|]. split; [cbn in *; congruence|].
  intros n. cbn [files_ ComputeGCScore set_gc_score]. rewrite Hf. cbn [c_storage]. destruct (Hdiff n) as [-> _]. specialize (Hb1 n).
  destruct (files_ b !! n) as [m|] eqn:Hm; [|by rewrite Hb1].
  destruct (Hmark n m Hm) as (m1 & -> & Hs). by exists m1.
Qed.

End Handlers.
