(* ===== verification/LiveSizesSpec.v ===== *)
(** * LiveSizesSpec: live sizes are exact once all events have arrived

    The tables of a column family, the events that RocksDB still has to deliver
    and the blob files, as flushes, compactions, deletions of ranges and the
    operations of the storage change them, in any order; and which deletions of
    ranges come too early. *)
From S2P Require Import Prelude Coding BlobFormat BitMap BlobFileMeta TitanStats Options VersionEdit BlobStorage BlobStorageProofs BlobStorageSpec EditCollector EditCollectorProofs BlobFileSet BlobFileSetProofs BlobFileSetSpec Collectors CollectorsProofs GCStats GCStatsProofs GCStatsSpec LiveSizes.

Local Open Scope Z_scope.

(** ** Sums over tables *)

Lemma sum_sizes_perm a b : a ≡ₚ b -> sum_sizes a = sum_sizes b.
Proof. unfold sum_sizes. induction 1; cbn; lia. Qed.

Lemma all_size_app n a b : all_size n (a ++ b) = all_size n a + all_size n b.
Proof. unfold all_size. by rewrite all_refs_app, refs_to_app, sum_sizes_app. Qed.

Lemma all_size_perm n a b : a ≡ₚ b -> all_size n a = all_size n b.
Proof. intros H. unfold all_size. apply sum_sizes_perm. unfold refs_to. by rewrite (all_refs_perm _ _ H). Qed.

Lemma all_size_bounds n ts : 0 <= all_size n ts <= sum_sizes (all_refs ts).
Proof. apply sum_sizes_refs_to, all_refs_wf. Qed.

Definition positive (ts : list (list entry)) : Prop := Forall (fun i => 0 < BlobFormat.size (blob_handle i)) (all_refs ts).

Lemma positive_refs n ts : positive ts -> all_size n ts <= 0 -> refs_to n (all_refs ts) = [].
Proof.
  intros Hp Hs. unfold all_size in Hs. destruct (refs_to n (all_refs ts)) as [|i l] eqn:E; [done|].
  assert (i ∈ refs_to n (all_refs ts)) as Hi by (rewrite E; apply list_elem_of_here). apply refs_to_elem in Hi as [_ Hi].
  unfold positive in Hp. rewrite Forall_forall in Hp. specialize (Hp i Hi).
  assert (Forall ref_wf l) as Hl.
  { apply Forall_forall. intros j Hj. assert (j ∈ refs_to n (all_refs ts)) as H by (rewrite E; by apply list_elem_of_further).
    apply refs_to_elem in H as [_ H]. pose proof (all_refs_wf ts) as Hwf. rewrite Forall_forall in Hwf. by apply Hwf. }
  pose proof (sum_sizes_nonneg l Hl). cbn in Hs. unfold sum_sizes in *. lia.
Qed.

(** ** Events *)

(** With the entries of the tables that the base database wrote and dropped. *)
Inductive Event : Type :=
  | Flush (t : list entry)
  | Compaction (info : CompactionJobInfo) (ins outs : list (list entry))
  | RangeDelete (ts : list (list entry)).

Definition event_ins (e : Event) : list (list entry) :=
  match e with Flush _ => [] | Compaction _ ins _ => ins | RangeDelete ts => ts end.

Definition event_outs (e : Event) : list (list entry) :=
  match e with Flush t => [t] | Compaction _ _ outs => outs | RangeDelete _ => [] end.

(** The bytes of the file [n] that an event adds to the tables. *)
Definition delta (n : Z) (e : Event) : Z := all_size n (event_outs e) - all_size n (event_ins e).

(** What the events of a list have still to say about the file [n]. *)
Definition owed (n : Z) (es : list Event) : Z := foldr (fun e a => delta n e + a) 0 es.

Lemma owed_perm n a b : a ≡ₚ b -> owed n a = owed n b.
Proof. unfold owed. induction 1; cbn; lia. Qed.

Lemma owed_nonpos n es : Forall (fun e => delta n e <= 0) es -> owed n es <= 0.
Proof. induction 1; cbn; [done|]. unfold owed in *. lia. Qed.

Definition mentions (n : Z) (ts : list (list entry)) : Prop := refs_to n (all_refs ts) <> [].

Instance mentions_dec n ts : Decision (mentions n ts).
Proof. unfold mentions. apply _. Defined.

Lemma mentions_app n a b : mentions n (a ++ b) <-> mentions n a \/ mentions n b.
Proof.
  unfold mentions. rewrite all_refs_app, refs_to_app. destruct (refs_to n (all_refs a)); cbn; [tauto|]. split; [by left|done].
Qed.

Lemma mentions_perm n a b : a ≡ₚ b -> mentions n a -> mentions n b.
Proof.
  unfold mentions, refs_to. intros Hp Ha Hb. apply Ha. apply Permutation_nil. rewrite <- Hb. by rewrite (all_refs_perm _ _ Hp).
Qed.

Lemma mentions_split n ts a b : ts ≡ₚ a ++ b -> mentions n ts <-> mentions n a \/ mentions n b.
Proof.
  intros Hp. rewrite <- mentions_app. split; apply mentions_perm; [done|by symmetry].
Qed.

Lemma mentions_pos n ts : positive ts -> mentions n ts -> 0 < all_size n ts.
Proof. intros Hp Hm. destruct (Z.lt_ge_cases 0 (all_size n ts)); [done|]. destruct Hm. by apply positive_refs. Qed.

Lemma not_mentioned n ts : ~ mentions n ts -> all_size n ts = 0.
Proof. unfold mentions, all_size. intros H. apply dec_stable in H. by rewrite H. Qed.

(** No table and no event refers to the file [n]. *)
Definition unused (n : Z) (ts : list (list entry)) (es : list Event) : Prop :=
  ~ mentions n ts /\ Forall (fun e => ~ mentions n (event_ins e) /\ ~ mentions n (event_outs e)) es.

Lemma unused_owed n ts es : unused n ts es -> owed n es = 0 /\ all_size n ts = 0.
Proof.
  intros [Ht He]. split; [|by apply not_mentioned]. induction He as [|e es [Hi Ho] _ IH]; [done|].
  change (delta n e + owed n es = 0). rewrite IH. unfold delta. by rewrite (not_mentioned _ _ Hi), (not_mentioned _ _ Ho).
Qed.

(** One of the events has created the file [n], the others drop references. *)
Definition created (n : Z) (es : list Event) : Prop :=
  exists e rest, es ≡ₚ e :: rest /\ 0 < delta n e /\ Forall (fun e => delta n e <= 0) rest.

Lemma created_split n e es es' :
  created n es -> es ≡ₚ e :: es' ->
  (0 < delta n e /\ Forall (fun e => delta n e <= 0) es') \/ (delta n e <= 0 /\ created n es').
Proof.
  intros (e0 & rest & Hp0 & Hpos & Hr) Hp. rewrite Hp0 in Hp. destruct (Z.lt_ge_cases 0 (delta n e)) as [Hd|Hd].
  - left. split; [done|]. assert (e ∈ e0 :: rest) as Hin by (rewrite Hp; apply list_elem_of_here).
    apply elem_of_cons in Hin as [->|Hin]; [by rewrite <- (Permutation_cons_inv Hp)|].
    rewrite Forall_forall in Hr. specialize (Hr e Hin). lia.
  - right. split; [done|]. assert (e0 ∈ e :: es') as Hin by (rewrite <- Hp; apply list_elem_of_here).
    apply elem_of_cons in Hin as [->|[rest' E]%elem_of_Permutation]; [lia|].
    exists e0, rest'. split; [done|]. split; [done|]. rewrite E, (Permutation_swap e0 e) in Hp.
    apply Permutation_cons_inv in Hp. rewrite Hp in Hr. by apply Forall_cons in Hr as [_ ?].
Qed.

(** ** The books of a file *)

(** [ms] are the files of which a handler has overlooked a change. *)
Definition file_ok (ts : list (list entry)) (es : list Event) (ms : gset Z) (n : Z) (m : BlobFileMeta) : Prop :=
  match state_ m with
  | kObsolete => True
  | kPendingLSM => live_data_size_ m = owed n es - all_size n ts /\ (unused n ts es \/ created n es)
  | kNormal | kToMerge | kBeingGC =>
      Forall (fun e => delta n e <= 0) es /\ all_size n ts - owed n es <= live_data_size_ m /\
      (n ∉ ms -> live_data_size_ m = all_size n ts - owed n es)
  | _ => False
  end.

(** What the handler of an event does to the file [n]. *)
Definition after (n : Z) (e : Event) (m : BlobFileMeta) : BlobFileMeta :=
  match e with
  | Flush t => if decide (refs_to n (refs t) = []) then m else flushed (sum_sizes (refs_to n (refs t))) m
  | Compaction _ ins outs => compacted (all_size n outs - all_size n ins) m
  | RangeDelete ts => range_deleted (- all_size n ts) m
  end.

(** Compactions leave the files alone that are being collected. *)
Definition overlooked (e : Event) (b : BlobStorage) : gset Z :=
  match e with
  | Compaction _ _ _ =>
      dom (filter (fun x : Z * BlobFileMeta => state_ x.2 = kBeingGC /\ delta x.1 e <> 0) (files_ b))
  | _ => ∅
  end.

Section Books.
Context (cf : Z).

(** What RocksDB tells is about tables that the collectors can describe. *)
Definition event_wf (e : Event) : Prop :=
  positive (event_ins e) /\ positive (event_outs e) /\
  match e with
  | Flush t => zlen t < 2 ^ 32 /\ sum_sizes (refs t) < 2 ^ 63
  | Compaction info ins outs => job_cf_id info = cf /\ job_status info = OK /\ compacts info ins outs
  | RangeDelete ts => Forall (fun t => zlen t < 2 ^ 32) ts /\ sum_sizes (all_refs ts) < 2 ^ 63
  end.

Lemma event_bounds n e : event_wf e -> 0 <= all_size n (event_ins e) < 2 ^ 63 /\ 0 <= all_size n (event_outs e) < 2 ^ 63.
Proof.
  intros (_ & _ & H). pose proof (all_size_bounds n (event_ins e)). pose proof (all_size_bounds n (event_outs e)).
  destruct e as [t|info ins outs|ts]; cbn [event_ins event_outs] in *.
  - assert (all_refs [t] = refs t) as E by apply app_nil_r. rewrite E in *. change (all_size n []) with 0. lia.
  - destruct H as (_ & _ & _ & _ & _ & Hs). pose proof (sum_sizes_nonneg _ (all_refs_wf ins)).
    pose proof (sum_sizes_nonneg _ (all_refs_wf outs)). lia.
  - change (all_size n []) with 0. lia.
Qed.

(** The base database has installed the tables of an event. *)
Lemma file_ok_install ts rest es ms e n m :
  event_wf e -> ts ≡ₚ event_ins e ++ rest ->
  (0 < delta n e -> unused n ts es /\ state_ m = kPendingLSM) ->
  file_ok ts es ms n m -> file_ok (event_outs e ++ rest) (e :: es) ms n m.
Proof.
  intros Hwf Hp Hnew H. pose proof (event_bounds n e Hwf) as [Hi Ho].
  assert (all_size n (event_outs e ++ rest) = all_size n ts + delta n e) as Hs.
  { rewrite (all_size_perm n _ _ Hp), !all_size_app. unfold delta. lia. }
  assert (owed n (e :: es) = delta n e + owed n es) as Ho' by done.
  assert (state_ m <> kPendingLSM -> delta n e <= 0) as Hd.
  { intros Hst. destruct (Z.lt_ge_cases 0 (delta n e)) as [Hpos|]; [|lia]. by destruct (Hnew Hpos). }
  unfold file_ok in *. destruct (state_ m) eqn:Hst; try done; rewrite Hs, Ho'.
  1,3,4: destruct H as (H1 & H2 & H3); specialize (Hd ltac:(done)); split; [by constructor|]; split; [lia|]; intros Hm; specialize (H3 Hm); lia.
  destruct H as [Hl H]. split; [lia|]. destruct (Z.lt_ge_cases 0 (delta n e)) as [Hpos|Hneg].
  - right. exists e, es. split; [done|]. split; [done|]. destruct (Hnew Hpos) as [[_ Hu] _].
    apply (Forall_impl _ _ _ Hu). intros e' [H1 H2]. unfold delta. rewrite (not_mentioned _ _ H1), (not_mentioned _ _ H2). lia.
  - destruct H as [[Ht Hu]|(e0 & r & Hpe & Hpos & Hr)].
    + left. rewrite (mentions_split _ _ _ _ Hp) in Ht.
      assert (~ mentions n (event_ins e)) as Hni by tauto.
      assert (~ mentions n (event_outs e)) as Hno.
      { intros Hm. apply mentions_pos in Hm; [|by destruct Hwf as (_ & ? & _)].
        unfold delta in Hneg. rewrite (not_mentioned _ _ Hni) in Hneg. lia. }
      split; [rewrite mentions_app; tauto|by constructor].
    + right. exists e0, (e :: r). split; [rewrite Hpe; apply Permutation_swap|]. split; [done|]. by constructor.
Qed.

(** A file that was created by an event still to come has no more live data
    than that event says. *)
Lemma pending_bounds ts es ms n m e es' :
  file_ok ts es ms n m -> state_ m = kPendingLSM -> es ≡ₚ e :: es' -> event_wf e -> Forall event_wf es ->
  0 <= live_data_size_ m ->
  (0 < delta n e /\ live_data_size_ m <= delta n e < 2 ^ 63 /\ Forall (fun e => delta n e <= 0) es') \/
  (delta n e <= 0 /\ 0 <= live_data_size_ m - delta n e < 2 ^ 63 /\ (unused n ts es' \/ created n es')).
Proof.
  intros H Hst Hp Hwf Hes Hl. unfold file_ok in H. rewrite Hst in H. destruct H as [Hlive H].
  pose proof (event_bounds n e Hwf) as [Hi Ho]. pose proof (all_size_bounds n ts) as [Hts _].
  rewrite (owed_perm n _ _ Hp) in Hlive. change (owed n (e :: es')) with (delta n e + owed n es') in Hlive.
  destruct H as [Hu|Hc].
  - right. destruct (unused_owed _ _ _ Hu) as [Hz1 Hz2]. destruct Hu as [Ht Hu]. rewrite Hp in Hu.
    apply Forall_cons in Hu as [[H1 H2] Hu]. rewrite (owed_perm n _ _ Hp) in Hz1. unfold owed in Hz1. cbn in Hz1.
    assert (delta n e = 0) as Hd by (unfold delta; by rewrite (not_mentioned _ _ H1), (not_mentioned _ _ H2)).
    rewrite Hd. unfold owed in Hlive. split; [done|]. split; [lia|]. left. by split.
  - destruct (created_split n e es es' Hc Hp) as [[Hd Hr]|[Hd Hr]].
    + left. pose proof (owed_nonpos _ _ Hr). split; [done|]. split; [|done]. unfold delta in *. lia.
    + right. split; [done|]. split; [|by right]. destruct Hr as (e0 & r & Hp0 & Hpos & Hr).
      rewrite (owed_perm n _ _ Hp0) in Hlive. change (owed n (e0 :: r)) with (delta n e0 + owed n r) in Hlive.
      pose proof (owed_nonpos _ _ Hr). assert (event_wf e0) as Hwf0.
      { rewrite Hp, Hp0 in Hes. by apply Forall_cons in Hes as [_ [? _]%Forall_cons]. }
      pose proof (event_bounds n e0 Hwf0). assert (delta n e0 < 2 ^ 63) by (unfold delta; lia). lia.
Qed.

(** A settled file only loses live data, and no more than it has. *)
Lemma settled_bounds ts es ms n m e es' :
  file_ok ts es ms n m -> state_ m = kNormal \/ state_ m = kToMerge \/ state_ m = kBeingGC -> es ≡ₚ e :: es' ->
  delta n e <= 0 /\ 0 <= live_data_size_ m + delta n e /\ Forall (fun e => delta n e <= 0) es' /\
  all_size n ts - owed n es' <= live_data_size_ m + delta n e /\
  (n ∉ ms -> live_data_size_ m + delta n e = all_size n ts - owed n es').
Proof.
  intros H Hst Hp. unfold file_ok in H. pose proof (all_size_bounds n ts) as [Hts _].
  assert (Forall (fun e => delta n e <= 0) es /\ all_size n ts - owed n es <= live_data_size_ m /\
          (n ∉ ms -> live_data_size_ m = all_size n ts - owed n es)) as (H1 & H2 & H3).
  { by destruct Hst as [E|[E|E]]; rewrite E in H. }
  rewrite Hp in H1. apply Forall_cons in H1 as [Hd Hr]. rewrite (owed_perm n _ _ Hp) in *.
  change (owed n (e :: es')) with (delta n e + owed n es') in *. pose proof (owed_nonpos _ _ Hr).
  split; [done|]. split; [lia|]. split; [done|]. split; [lia|]. intros Hm. specialize (H3 Hm). lia.
Qed.

Lemma overlooked_elem info ins outs b n m :
  files_ b !! n = Some m -> n ∉ overlooked (Compaction info ins outs) b -> state_ m = kBeingGC ->
  delta n (Compaction info ins outs) = 0.
Proof.
  intros Hm Hn Hst. cbn in Hn. rewrite not_elem_of_dom in Hn. apply map_lookup_filter_None in Hn as [E|Hn]; [congruence|].
  specialize (Hn m Hm). cbn in Hn. apply dec_stable. intros Hne. by apply Hn.
Qed.

Lemma flush_delta n t : delta n (Flush t) = sum_sizes (refs_to n (refs t)).
Proof. unfold delta, all_size. cbn. rewrite app_nil_r. apply Z.sub_0_r. Qed.

Lemma range_delta n l : delta n (RangeDelete l) = - all_size n l.
Proof. reflexivity. Qed.

Lemma flush_delta_pos n t : event_wf (Flush t) -> refs_to n (refs t) <> [] -> 0 < delta n (Flush t).
Proof.
  intros (_ & Hp & _) Hr. change (0 < all_size n [t] - 0). rewrite Z.sub_0_r. apply mentions_pos; [done|].
  unfold mentions, all_refs. cbn. by rewrite app_nil_r.
Qed.

(** The handler of an event keeps the books of a file. *)
Lemma file_ok_deliver ts es es' ms b e n m :
  file_ok ts es ms n m -> 0 <= live_data_size_ m < 2 ^ 63 ->
  es ≡ₚ e :: es' -> Forall event_wf es -> event_wf e ->
  (forall info ins outs, e = Compaction info ins outs -> n ∉ overlooked e b -> state_ m = kBeingGC -> delta n e = 0) ->
  (forall l, e = RangeDelete l -> state_ m = kPendingLSM -> ~ mentions n l) ->
  file_ok ts es' (ms ∪ overlooked e b) n (after n e m) /\ 0 <= live_data_size_ (after n e m) < 2 ^ 63.
Proof.
  intros H Hl Hp Hes Hwf Hov Hr.
  assert (state_ m = kNormal \/ state_ m = kToMerge \/ state_ m = kBeingGC \/ state_ m = kPendingLSM \/ state_ m = kObsolete) as Hst
    by (unfold file_ok in H; destruct (state_ m); tauto).
  assert (state_ m = kObsolete -> after n e m = m) as Hobs.
  { intros E. destruct e; cbn; unfold flushed, compacted, range_deleted, is_obsolete; rewrite E; [by case_decide|done|done]. }
  destruct (decide (state_ m = kObsolete)) as [E|Hno].
  { rewrite Hobs by done. split; [|done]. unfold file_ok. by rewrite E. }
  destruct (decide (state_ m = kPendingLSM)) as [E|Hnp].
  - destruct (pending_bounds ts es ms n m e es' H E Hp Hwf Hes ltac:(lia)) as [(Hd & Hb & Hf)|(Hd & Hb & Hu)];
      unfold file_ok in H; rewrite E in H; destruct H as [Hlive _]; rewrite (owed_perm n _ _ Hp) in Hlive;
      change (owed n (e :: es')) with (delta n e + owed n es') in Hlive.
    + assert (after n e m = set_state (set_live_data_size m (delta n e - live_data_size_ m)) kNormal) as ->.
      { destruct e as [t|info ins outs|l]; cbn [after].
        - rewrite flush_delta in *. rewrite decide_False by (intros Hn; rewrite Hn in Hd; cbn in Hd; lia). unfold flushed. by rewrite E.
        - unfold compacted. rewrite E. change (all_size n outs - all_size n ins) with (delta n (Compaction info ins outs)).
          by assert ((delta n (Compaction info ins outs) <=? 0) = false) as -> by lia.
        - rewrite range_delta in Hd. pose proof (all_size_bounds n l). lia. }
      cbn. split; [|lia]. split; [done|]. split; lia.
    + assert (after n e m = set_live_data_size m (live_data_size_ m - delta n e)) as ->.
      { destruct e as [t|info ins outs|l]; cbn [after].
        - rewrite decide_True.
          2:{ apply dec_stable. intros Hn. pose proof (flush_delta_pos n t Hwf Hn). lia. }
          assert (delta n (Flush t) = 0) as ->.
          { rewrite flush_delta in *. pose proof (sum_sizes_refs_to n _ (refs_wf t)). lia. }
          rewrite Z.sub_0_r. by destruct m.
        - unfold compacted. rewrite E. change (all_size n outs - all_size n ins) with (delta n (Compaction info ins outs)).
          by assert ((delta n (Compaction info ins outs) <=? 0) = true) as -> by lia.
        - specialize (Hr l eq_refl E). rewrite range_delta, (not_mentioned _ _ Hr). change (- 0) with 0. rewrite range_deleted_0, Z.sub_0_r. by destruct m. }
      split; [|cbn; lia]. unfold file_ok. cbn [state_ set_live_data_size live_data_size_]. rewrite E. split; [lia|done].
  - destruct (settled_bounds ts es ms n m e es' H ltac:(tauto) Hp) as (Hd & Hb & Hf & Hge & Heq).
    assert (after n e m = set_live_data_size m (live_data_size_ m + delta n e) \/
            (after n e m = m /\ (n ∉ overlooked e b -> delta n e = 0))) as [->| [-> Hz]].
    { destruct e as [t|info ins outs|l]; cbn [after].
      - right. split; [case_decide; [done|]; unfold flushed; by destruct (state_ m)|]. intros _.
        rewrite flush_delta in *. pose proof (sum_sizes_refs_to n _ (refs_wf t)). lia.
      - unfold compacted, delta. cbn [event_ins event_outs]. destruct Hst as [E|[E|[E|[?|?]]]]; [left; by rewrite E..| |done|done].
        right. rewrite E. split; [done|]. intros Hn. by apply (Hov info ins outs).
      - left. unfold range_deleted, is_obsolete. by rewrite bool_decide_false. }
    + split; [|cbn; lia]. unfold file_ok. cbn [state_ set_live_data_size live_data_size_].
      destruct Hst as [E|[E|[E|[?|?]]]]; try done; rewrite E; (split; [done|]; split; [done|]; intros Hn; apply Heq; set_solver).
    + split; [|done]. unfold file_ok.
      destruct Hst as [E|[E|[E|[?|?]]]]; try done; rewrite E; (split; [done|]; split; [lia|]; intros Hn;
        rewrite <- Heq by set_solver; rewrite Hz by set_solver; lia).
Qed.

(** ** The system *)

Context `{C : Comparator} (from_gc : Z -> bool).

(** The tables, the events that are still to be delivered, the blob files, and
    those of which a change was overlooked. [from_gc] are the numbers of the
    outputs of collections, whose live sizes are set by the collection. *)
Record World : Type := mkWorld {
  lsm : list (list entry);
  undelivered : list Event;
  blob_files : BlobFileSet;
  missed : gset Z }.

(** The handler of an event. *)
Definition handle (io : IO) (d : Disk) (use_bitmap : bool) (seq : Z) (e : Event) (s : BlobFileSet) : option BlobFileSet :=
  match e with
  | Flush t => OnFlushCompleted s cf (table_properties t)
  | Compaction info _ _ => '(s, _, _) ← OnCompactionCompleted io s d true use_bitmap seq info; Some s
  | RangeDelete ts => '(_, s, _, _) ← DeleteFilesInRanges io s d cf seq (table_properties <$> ts) OK; Some s
  end.

(** What a handler relies on besides the books: that the outputs of collections
    were given enough live data, that the references of a compaction fit the
    bitmaps, and that tables are not deleted before the event that created their
    blob files. *)
Definition deliverable (e : Event) (b : BlobStorage) : Prop :=
  (forall n m, files_ b !! n = Some m -> from_gc n = true -> is_obsolete m = false ->
     state_ m <> kPendingLSM /\
     match e with Flush _ => True | _ => delta n e <= 0 /\ 0 <= live_data_size_ m + delta n e end) /\
  match e with
  | Flush _ => True
  | Compaction _ ins outs => files_ok b /\ refs_fit b (all_refs ins) /\ refs_fit b (all_refs outs)
  | RangeDelete ts => forall n m, files_ b !! n = Some m -> state_ m = kPendingLSM -> ~ mentions n ts
  end.

Definition settled (m : BlobFileMeta) : Prop := state_ m = kNormal \/ state_ m = kToMerge \/ state_ m = kBeingGC.

(** What the other operations do to a file that no collection has written: they
    leave its live size alone, or add it before it is used. *)
Definition kept (ts : list (list entry)) (es : list Event) (b : BlobStorage) (n : Z) (m' : BlobFileMeta) : Prop :=
  (exists m, files_ b !! n = Some m /\ live_data_size_ m' = live_data_size_ m /\
     (state_ m' = state_ m \/ settled m /\ settled m')) \/
  (state_ m' = kPendingLSM /\ live_data_size_ m' = 0 /\ unused n ts es).

Inductive step : World -> World -> Prop :=
  | step_install ts rest es s ms e b :
      event_wf e -> ts ≡ₚ event_ins e ++ rest -> GetBlobStorage s cf = Some b ->
      (forall n m, from_gc n = false -> files_ b !! n = Some m -> 0 < delta n e ->
         unused n ts es /\ state_ m = kPendingLSM) ->
      step (mkWorld ts es s ms) (mkWorld (event_outs e ++ rest) (e :: es) s ms)
  | step_deliver ts es e es' s s' ms b io d use_bitmap seq :
      es ≡ₚ e :: es' -> GetBlobStorage s cf = Some b -> deliverable e b ->
      handle io d use_bitmap seq e s = Some s' ->
      step (mkWorld ts es s ms) (mkWorld ts es' s' (ms ∪ overlooked e b))
  | step_storage ts es s s' ms b b' :
      GetBlobStorage s cf = Some b -> GetBlobStorage s' cf = Some b' -> level_merge (cf_options_ b') = false ->
      (forall n m', files_ b' !! n = Some m' ->
         file_number_ m' = n /\ 0 <= live_data_size_ m' < 2 ^ 63 /\
         (from_gc n = false -> is_obsolete m' = false -> kept ts es b n m')) ->
      step (mkWorld ts es s ms) (mkWorld ts es s' ms).

(** The invariant. *)
Definition books (w : World) : Prop :=
  exists b, GetBlobStorage (blob_files w) cf = Some b /\ level_merge (cf_options_ b) = false /\
    Forall event_wf (undelivered w) /\
    forall n m, files_ b !! n = Some m ->
      file_number_ m = n /\ 0 <= live_data_size_ m < 2 ^ 63 /\
      (from_gc n = false -> file_ok (lsm w) (undelivered w) (missed w) n m).

(** A file as a handler sees it. *)
Record ready (ts : list (list entry)) (es es' : list Event) (ms : gset Z) (e : Event) (n : Z) (m : BlobFileMeta) : Prop := {
  rd_number : file_number_ m = n;
  rd_live : 0 <= live_data_size_ m < 2 ^ 63;
  rd_events : es ≡ₚ e :: es' /\ Forall event_wf es /\ event_wf e;
  rd_gc : from_gc n = true -> is_obsolete m = false -> state_ m <> kPendingLSM /\
    match e with Flush _ => True | _ => delta n e <= 0 /\ 0 <= live_data_size_ m + delta n e end;
  rd_ok : from_gc n = false -> file_ok ts es ms n m;
  rd_range : forall l, e = RangeDelete l -> state_ m = kPendingLSM -> ~ mentions n l }.

(** An event that is not a flush leaves a live size in its bounds. *)
Lemma ready_shrinks ts es es' ms e n m :
  ready ts es es' ms e n m -> (forall t, e <> Flush t) -> is_obsolete m = false -> state_ m <> kPendingLSM ->
  from_gc n = true \/ settled m -> delta n e <= 0 /\ 0 <= live_data_size_ m + delta n e.
Proof.
  intros [_ _ [Hp _] Hgc Hok _] Hf Ho Hnp Hc. destruct (from_gc n) eqn:Hg.
  - destruct (Hgc eq_refl Ho) as [_ H]. destruct e as [t|info ins outs|l]; [by destruct (Hf t)|done|done].
  - destruct Hc as [|Hs]; [done|]. by destruct (settled_bounds ts es ms n m e es' (Hok eq_refl) Hs Hp) as (? & ? & _).
Qed.

Lemma ready_settled ts es es' ms e n m :
  ready ts es es' ms e n m -> is_obsolete m = false -> state_ m <> kPendingLSM -> from_gc n = true \/ settled m.
Proof.
  intros [_ _ _ _ Hok _] Ho Hnp. destruct (from_gc n); [by left|]. right. specialize (Hok eq_refl).
  unfold file_ok, is_obsolete, settled in *. destruct (state_ m); naive_solver.
Qed.

Lemma ready_pending ts es es' ms e n m :
  ready ts es es' ms e n m -> state_ m = kPendingLSM ->
  (0 < delta n e /\ live_data_size_ m <= delta n e < 2 ^ 63) \/ (delta n e <= 0 /\ live_data_size_ m - delta n e < 2 ^ 63).
Proof.
  intros [_ Hl (Hp & Hes & Hwf) Hgc Hok _] Hst. destruct (from_gc n) eqn:Hg.
  - destruct (Hgc eq_refl) as [? _]; [unfold is_obsolete; by rewrite Hst|done].
  - destruct (pending_bounds ts es ms n m e es' (Hok eq_refl) Hst Hp Hwf Hes ltac:(lia)) as [(? & ? & _)|(? & ? & _)]; [left|right]; lia.
Qed.

Lemma ready_sane ts es es' ms info ins outs n m :
  ready ts es es' ms (Compaction info ins outs) n m -> sane (all_size n outs - all_size n ins) m.
Proof.
  intros H. change (all_size n outs - all_size n ins) with (delta n (Compaction info ins outs)).
  pose proof (rd_live _ _ _ _ _ _ _ H) as Hl. split; [done|].
  pose proof (ready_pending _ _ _ _ _ _ _ H) as Hpend. pose proof (ready_settled _ _ _ _ _ _ _ H) as Hset.
  assert (is_obsolete m = false -> state_ m <> kPendingLSM ->
    delta n (Compaction info ins outs) <= 0 /\ 0 <= live_data_size_ m + delta n (Compaction info ins outs)) as Hsh.
  { intros Ho Hn. eapply ready_shrinks; [exact H|done|done|done|by apply Hset]. }
  unfold is_obsolete in Hsh. destruct (state_ m); try done; try (by apply Hsh).
  destruct (Hpend eq_refl) as [[Hd ?]|[Hd ?]]; destruct (Z.leb_spec (delta n (Compaction info ins outs)) 0); lia.
Qed.

Lemma ready_range ts es es' ms l n m :
  ready ts es es' ms (RangeDelete l) n m -> is_obsolete m = false ->
  0 <= live_data_size_ m < 2 ^ 63 /\ 0 <= live_data_size_ m - all_size n l.
Proof.
  intros H Ho. pose proof (rd_live _ _ _ _ _ _ _ H) as Hl. split; [done|].
  destruct (decide (state_ m = kPendingLSM)) as [Hst|Hst].
  - pose proof (rd_range _ _ _ _ _ _ _ H l eq_refl Hst) as Hn. rewrite (not_mentioned _ _ Hn). lia.
  - assert (delta n (RangeDelete l) <= 0 /\ 0 <= live_data_size_ m + delta n (RangeDelete l)) as [_ Hd].
    { eapply ready_shrinks; [exact H|done|done|done|by eapply ready_settled]. }
    rewrite range_delta in Hd. lia.
Qed.

Lemma ready_flush ts es es' ms t n m :
  ready ts es es' ms (Flush t) n m -> state_ m = kPendingLSM -> refs_to n (refs t) <> [] ->
  0 <= live_data_size_ m <= sum_sizes (refs_to n (refs t)).
Proof.
  intros H Hst Hr. pose proof (rd_live _ _ _ _ _ _ _ H). destruct (rd_events _ _ _ _ _ _ _ H) as (_ & _ & Hwf).
  pose proof (flush_delta_pos n t Hwf Hr). destruct (ready_pending _ _ _ _ _ _ _ H Hst); rewrite flush_delta in *; lia.
Qed.

(** Handlers keep the bounds of a live size and the books of a file. *)
Lemma ready_after ts es es' ms b e n m :
  ready ts es es' ms e n m ->
  (forall info ins outs, e = Compaction info ins outs -> n ∉ overlooked e b -> state_ m = kBeingGC -> delta n e = 0) ->
  file_number_ (after n e m) = n /\ 0 <= live_data_size_ (after n e m) < 2 ^ 63 /\
  (from_gc n = false -> file_ok ts es' (ms ∪ overlooked e b) n (after n e m)).
Proof.
  intros H Hov. pose proof H as [Hn Hl (Hp & Hes & Hwf) Hgc Hok Hr]. split.
  { destruct e; cbn; unfold flushed, compacted, range_deleted; repeat case_decide; repeat case_match; done. }
  destruct (from_gc n) eqn:Hg.
  2:{ destruct (file_ok_deliver ts es es' ms b e n m (Hok eq_refl) Hl Hp Hes Hwf Hov Hr) as [? ?]. by split. }
  split; [|done]. destruct (is_obsolete m) eqn:Ho.
  { unfold is_obsolete in Ho. apply bool_decide_eq_true in Ho.
    destruct e; cbn; unfold flushed, compacted, range_deleted, is_obsolete; rewrite Ho; [by case_decide|done|].
    by rewrite bool_decide_true. }
  destruct (Hgc eq_refl eq_refl) as [Hnp Hd]. destruct e as [t|info ins outs|l]; cbn [after].
  - unfold flushed. case_decide; [done|]. by destruct (state_ m).
  - change (all_size n outs - all_size n ins) with (delta n (Compaction info ins outs)). unfold compacted.
    destruct (state_ m); try done; cbn [live_data_size_ set_live_data_size]; lia.
  - rewrite range_delta in Hd. unfold range_deleted. rewrite Ho. cbn. lia.
Qed.

Definition same_books (m m1 : BlobFileMeta) : Prop := m1 = m \/ exists bm, m1 = set_invalid m bm.

Lemma ready_same ts es es' ms e n m m1 : same_books m m1 -> ready ts es es' ms e n m -> ready ts es es' ms e n m1.
Proof. intros [->|[bm ->]] H; [done|]. destruct H. by split. Qed.

(** Every handler runs to its end, and does to each file what [after] says. *)
Lemma handle_spec io d use_bitmap seq ts es es' ms e s b :
  GetBlobStorage s cf = Some b -> level_merge (cf_options_ b) = false -> event_wf e -> deliverable e b ->
  (forall n m, files_ b !! n = Some m -> ready ts es es' ms e n m) ->
  exists s' b', handle io d use_bitmap seq e s = Some s' /\ GetBlobStorage s' cf = Some b' /\
    level_merge (cf_options_ b') = false /\
    forall n m', files_ b' !! n = Some m' ->
      exists m m1, files_ b !! n = Some m /\ same_books m m1 /\ m' = after n e m1.
Proof.
  intros Hb Hlm (_ & _ & Hwf) [_ Hdel] Hr. destruct e as [t|info ins outs|l]; cbn [handle].
  - destruct Hwf as [Hz Hs]. destruct (OnFlushCompleted_files s cf t b Hb Hz Hs) as (s' & b' & -> & Hb' & Hc & Hf).
    { intros n m Hm. specialize (Hr n m Hm). split; [by destruct Hr|]. intros Hst Hne. by eapply ready_flush. }
    exists s', b'. split; [done|]. split; [done|]. split; [congruence|]. intros n m' Hm'. rewrite Hf in Hm'. cbn [after].
    case_decide; [exists m', m'; by repeat split; [|left]|].
    apply fmap_Some in Hm' as (m & Hm & ->). exists m, m. by repeat split; [|left].
  - destruct Hwf as (Hcf & Hst & Hc), Hdel as (Hok & Hfi & Hfo). rewrite <- Hcf in Hb |- *.
    destruct (OnCompactionCompleted_files io s d use_bitmap seq info b ins outs Hst Hc Hb Hlm Hok Hfi Hfo) as (s' & b' & -> & Hb' & Ho & Hf).
    { intros n m Hm. eapply ready_sane. by apply Hr. }
    exists s', b'. split; [done|]. split; [done|]. split; [congruence|]. intros n m' Hm'. specialize (Hf n).
    destruct (files_ b !! n) as [m|]; [|congruence]. destruct Hf as (m1 & Hs & E). rewrite Hm' in E. injection E as ->.
    by exists m, m1.
  - destruct Hwf as [Hz Hs]. destruct (DeleteFilesInRanges_files io s d cf seq l b Hb Hlm Hz Hs) as (s' & b' & -> & Hb' & Hc & _ & Hf).
    { intros n m Hm. specialize (Hr n m Hm). split; [by destruct Hr|]. intros Ho. by eapply ready_range. }
    exists s', b'. split; [done|]. split; [done|]. split; [congruence|]. intros n m' Hm'. rewrite Hf in Hm'.
    apply fmap_Some in Hm' as (m & Hm & ->). exists m, m. by repeat split; [|left].
Qed.

Lemma books_ready ts es es' s ms e b :
  books (mkWorld ts es s ms) -> GetBlobStorage s cf = Some b -> es ≡ₚ e :: es' -> deliverable e b ->
  level_merge (cf_options_ b) = false /\ event_wf e /\ Forall event_wf es' /\
  forall n m, files_ b !! n = Some m -> ready ts es es' ms e n m.
Proof.
  intros (b0 & Hb & Hlm & Hes & Hf) Hb' Hp [Hgc Hr]. cbn [blob_files lsm undelivered missed] in *.
  rewrite Hb' in Hb. injection Hb as <-.
  assert (event_wf e /\ Forall event_wf es') as [Hwf Hes'] by (by rewrite Hp in Hes; apply Forall_cons in Hes).
  split; [done|]. split; [done|]. split; [done|]. intros n m Hm. destruct (Hf n m Hm) as (H1 & H2 & H3).
  split; [done..| |done|].
  - intros Hg Ho. by apply (Hgc n m).
  - intros l -> Hst. by apply (Hr n m).
Qed.

Lemma books_deliver io d use_bitmap seq ts es es' s ms e b :
  books (mkWorld ts es s ms) -> GetBlobStorage s cf = Some b -> es ≡ₚ e :: es' -> deliverable e b ->
  exists s', handle io d use_bitmap seq e s = Some s' /\ books (mkWorld ts es' s' (ms ∪ overlooked e b)).
Proof.
  intros Hbk Hb Hp Hdel. destruct (books_ready ts es es' s ms e b Hbk Hb Hp Hdel) as (Hlm & Hwf & Hes' & Hr).
  destruct (handle_spec io d use_bitmap seq ts es es' ms e s b Hb Hlm Hwf Hdel Hr) as (s' & b' & E & Hb' & Hlm' & Hf).
  exists s'. split; [done|]. exists b'. split; [done|]. split; [done|]. split; [done|].
  cbn [blob_files lsm undelivered missed]. intros n m' Hm'. destruct (Hf n m' Hm') as (m & m1 & Hm & Hs & ->).
  apply (ready_after ts es es'); [by eapply ready_same, Hr|]. intros info ins outs -> Hn Hst.
  apply (overlooked_elem info ins outs b n m); [done..|]. by destruct Hs as [->|[bm ->]].
Qed.

Lemma file_ok_storage ts es ms n m m' :
  file_ok ts es ms n m -> live_data_size_ m' = live_data_size_ m -> is_obsolete m' = false ->
  state_ m' = state_ m \/ settled m /\ settled m' -> file_ok ts es ms n m'.
Proof.
  unfold file_ok, settled. intros H Hl Ho [E|[Hs Hs']]; [by rewrite E, Hl|].
  destruct Hs as [E|[E|E]], Hs' as [E'|[E'|E']]; rewrite E in H; rewrite E', Hl; exact H.
Qed.

Lemma books_step w w' : step w w' -> books w -> books w'.
Proof.
  intros [ts rest es s ms e b Hwf Hp Hb Hnew|ts es e es' s s' ms b io d ub seq Hp Hb Hdel E|ts es s s' ms b b' Hb Hb' Hlm Hk] Hbk.
  - destruct Hbk as (b0 & Hb0 & Hlm & Hes & Hf). cbn [blob_files lsm undelivered missed] in *.
    rewrite Hb in Hb0. injection Hb0 as <-. exists b. cbn [blob_files lsm undelivered missed].
    split; [done|]. split; [done|]. split; [by constructor|]. intros n m Hm. destruct (Hf n m Hm) as (H1 & H2 & H3).
    split; [done|]. split; [done|]. intros Hg. apply (file_ok_install ts rest es ms e n m Hwf Hp); [by apply Hnew|by apply H3].
  - destruct (books_deliver io d ub seq ts es es' s ms e b Hbk Hb Hp Hdel) as (s1 & E' & H). rewrite E in E'. by injection E' as <-.
  - destruct Hbk as (b0 & Hb0 & _ & Hes & Hf). cbn [blob_files lsm undelivered missed] in *.
    rewrite Hb in Hb0. injection Hb0 as <-. exists b'. cbn [blob_files lsm undelivered missed].
    split; [done|]. split; [done|]. split; [done|]. intros n m' Hm'. destruct (Hk n m' Hm') as (H1 & H2 & H3).
    split; [done|]. split; [done|]. intros Hg. destruct (is_obsolete m') eqn:Ho.
    { unfold is_obsolete in Ho. apply bool_decide_eq_true in Ho. unfold file_ok. by rewrite Ho. }
    destruct (H3 Hg eq_refl) as [(m & Hm & Hl & Hs)|(Hst & Hl & Hu)].
    + destruct (Hf n m Hm) as (_ & _ & H). apply (file_ok_storage ts es ms n m); auto.
    + unfold file_ok. rewrite Hst, Hl. destruct (unused_owed n ts es Hu) as [-> ->]. split; [done|by left].
Qed.

(** A database that has just been opened: the live sizes are exact, and nothing
    is on its way. *)
Definition just_opened (w : World) : Prop :=
  undelivered w = [] /\
  exists b, GetBlobStorage (blob_files w) cf = Some b /\ level_merge (cf_options_ b) = false /\
    forall n m, files_ b !! n = Some m ->
      file_number_ m = n /\ 0 <= live_data_size_ m < 2 ^ 63 /\
      (from_gc n = false -> is_obsolete m = false -> settled m /\ live_data_size_ m = all_size n (lsm w)).

Lemma books_opened w : just_opened w -> books w.
Proof.
  intros (Hu & b & Hb & Hlm & Hf). exists b. rewrite Hu. split; [done|]. split; [done|]. split; [done|].
  intros n m Hm. destruct (Hf n m Hm) as (H1 & H2 & H3). split; [done|]. split; [done|]. intros Hg.
  destruct (is_obsolete m) eqn:Ho.
  { unfold is_obsolete in Ho. apply bool_decide_eq_true in Ho. unfold file_ok. by rewrite Ho. }
  destruct (H3 Hg eq_refl) as [Hs Hl]. change (owed n []) with 0. unfold file_ok.
  destruct Hs as [E|[E|E]]; rewrite E, Hl; (split; [done|]; change (owed n []) with 0; lia).
Qed.

(** C12: from the opening of the database on, without level merge, the events of
    flushes, compactions and deletions of ranges (in which RocksDB deletes the
    tables that were collected) are delivered in any order, and other threads
    change the blob files in between. The handler of a flush or of a
    compaction always reaches its end, and so does that of a deletion of ranges
    unless the deleted tables refer to a file whose creating event is still on its
    way; when they refer to more of such a file than has been noted of it, the
    handler stops at a failed assertion. The live size of a blob file that a flush
    or a compaction has settled is never less than what the tables refer to, so
    that no file seems to hold more garbage than it does; and once all events have
    arrived it is exactly what the tables refer to, unless a compaction came while
    the file was being collected. The outputs of collections are not accounted for:
    of them the handlers rely on enough live data ([deliverable]), and of a
    compaction on its references being within the bitmaps of the files. *)
Theorem live_sizes_exact w0 w b :
  just_opened w0 -> rtc step w0 w -> GetBlobStorage (blob_files w) cf = Some b ->
  (forall e es', undelivered w ≡ₚ e :: es' -> deliverable e b ->
     forall io d use_bitmap seq, is_Some (handle io d use_bitmap seq e (blob_files w))) /\
  (forall l es' n m, undelivered w ≡ₚ RangeDelete l :: es' ->
     files_ b !! n = Some m -> state_ m = kPendingLSM -> live_data_size_ m < all_size n l ->
     forall io d use_bitmap seq, handle io d use_bitmap seq (RangeDelete l) (blob_files w) = None) /\
  forall n m, files_ b !! n = Some m -> from_gc n = false -> is_obsolete m = false ->
    (settled m -> all_size n (lsm w) <= live_data_size_ m) /\
    (undelivered w = [] -> n ∉ missed w -> live_data_size_ m = all_size n (lsm w)).
Proof.
  intros H0%books_opened Hr Hb. assert (books w) as Hbk by (induction Hr as [|x y z Hxy _ IH]; [done|]; eauto using books_step).
  clear H0 Hr. destruct w as [ts es s ms]. split; [|split].
  - intros e es' Hp Hdel io d ub seq. destruct (books_deliver io d ub seq ts es es' s ms e b Hbk Hb Hp Hdel) as (s' & E & _). by exists s'.
  - intros l es' n m Hp Hm Hst Hlt io d ub seq. destruct Hbk as (b0 & Hb0 & _ & Hes & Hf).
    cbn [blob_files lsm undelivered missed] in *. rewrite Hb in Hb0. injection Hb0 as <-.
    destruct (Hf n m Hm) as (Hn & Hl & _). rewrite Hp in Hes. apply Forall_cons in Hes as [(_ & _ & Hz & Hs) _].
    cbn [handle]. rewrite (DeleteFilesInRanges_stops io s d cf seq l b n m); try done. unfold is_obsolete. by rewrite Hst.
  - destruct Hbk as (b0 & Hb0 & _ & _ & Hf). cbn [blob_files lsm undelivered missed] in *. rewrite Hb in Hb0. injection Hb0 as <-.
    intros n m Hm Hg Ho. destruct (Hf n m Hm) as (_ & Hl & Hok). specialize (Hok Hg). pose proof (all_size_bounds n ts) as [Hts _]. split.
    + intros Hs. assert (Forall (fun e => delta n e <= 0) es /\ all_size n ts - owed n es <= live_data_size_ m) as [H1%owed_nonpos H2]; [|lia].
      unfold file_ok in Hok. by destruct Hs as [E|[E|E]]; rewrite E in Hok; destruct Hok as (? & ? & _).
    + intros -> Hms. unfold file_ok in Hok. change (owed n []) with 0 in Hok. unfold is_obsolete in Ho.
      destruct (state_ m); try done; try (destruct Hok as (_ & _ & Hok); specialize (Hok Hms); lia).
      destruct Hok as [Hok _]. lia.
Qed.

End Books.

(** ** Example *)

(** Blob file 7 is written by a flush; a compaction of the new table drops its
    first entry, and the event of the compaction comes first. *)
Section Example.
#[local] Existing Instance BytewiseComparator.

Definition example_no_gc (n : Z) : bool := false.

Definition example_storage (b : BlobStorage) : BlobFileSet := set_column_families (BlobFileSet_new None 0) {[3 := b]} None.

Definition example_pending : BlobStorage := example_blobs false (example_blob 0 kPendingLSM).

Definition example_kept : list (list entry) := [[example_entry 7 2 60]].

Definition example_compaction : Event := Compaction example_job [example_table] example_kept.

Definition example_handle (e : Event) (s : BlobFileSet) : BlobFileSet :=
  default s (handle 3 io_ok (mkDisk None ∅ ∅) true 9 e s).

Definition example_blobs_of (s : BlobFileSet) : BlobStorage := default example_pending (GetBlobStorage s 3).

Definition example_compacted : BlobFileSet := example_handle example_compaction (example_storage example_pending).

Definition example_delivered : BlobFileSet := example_handle (Flush example_table) example_compacted.

Lemma example_handled e s : bool_decide (is_Some (handle 3 io_ok (mkDisk None ∅ ∅) true 9 e s)) = true ->
  handle 3 io_ok (mkDisk None ∅ ∅) true 9 e s = Some (example_handle e s).
Proof. intros H%bool_decide_eq_true. unfold example_handle. by destruct H as [s' ->]. Qed.

Lemma example_positive l : forallb (fun i => 0 <? BlobFormat.size (blob_handle i)) (all_refs l) = true -> positive l.
Proof. rewrite forallb_forall. intros H. apply Forall_forall. intros i Hi%list_elem_of_In. specialize (H i Hi). lia. Qed.

Lemma example_file n m : files_ example_pending !! n = Some m -> n = 7 /\ m = example_blob 0 kPendingLSM.
Proof.
  unfold example_pending, example_blobs. cbn [files_ set_files]. by intros [<- <-]%lookup_singleton_Some.
Qed.

Lemma example_opened : just_opened 3 example_no_gc (mkWorld [] [] (example_storage (set_files example_pending ∅)) ∅).
Proof.
  split; [done|]. exists (set_files example_pending ∅). split; [done|]. split; [done|]. intros n m Hm. discriminate Hm.
Qed.

Lemma example_run :
  rtc (step 3 example_no_gc)
    (mkWorld [] [] (example_storage (set_files example_pending ∅)) ∅)
    (mkWorld example_kept [] example_delivered
       ((∅ ∪ overlooked example_compaction example_pending) ∪ overlooked (Flush example_table) (example_blobs_of example_compacted))).
Proof.
  assert (unused 7 [] []) as Hu by (split; [by intros H; apply H|constructor]).
  eapply rtc_l; [eapply (step_storage 3 example_no_gc [] [] _ (example_storage example_pending) ∅); [reflexivity..|]|].
  { intros n m' Hm. apply example_file in Hm as [-> ->]. split; [done|]. split; [done|]. intros _ _. by right. }
  eapply rtc_l; [eapply (step_install 3 example_no_gc [] [] [] (example_storage example_pending) ∅ (Flush example_table)); [|done|reflexivity|]|].
  { split; [by apply example_positive|]. split; [by apply example_positive|]. by split. }
  { intros n m _ Hm _. apply example_file in Hm as [-> ->]. by split. }
  eapply rtc_l; [eapply (step_install 3 example_no_gc [example_table] [] _ (example_storage example_pending) ∅ example_compaction); [|done|reflexivity|]|].
  { split; [by apply example_positive|]. split; [by apply example_positive|]. split; [done|]. split; [done|]. apply example_compacts. }
  { intros n m _ Hm Hd. apply example_file in Hm as [-> _]. vm_compute in Hd. discriminate Hd. }
  eapply rtc_l; [eapply (step_deliver 3 example_no_gc _ _ example_compaction [Flush example_table]); [done|reflexivity| |by apply example_handled]|].
  { split; [done|]. split; [apply example_files_ok|]. split; apply example_fit; vm_compute; by repeat constructor. }
  eapply rtc_l; [eapply (step_deliver 3 example_no_gc _ _ (Flush example_table) [] _ _ _ (example_blobs_of example_compacted));
    [done|vm_compute; reflexivity| |by apply example_handled]|].
  { by split. }
  apply rtc_refl.
Qed.

Lemma live_sizes_exact_witness :
  exists b m, GetBlobStorage example_delivered 3 = Some b /\ files_ b !! 7 = Some m /\ state_ m = kNormal /\
    live_data_size_ m = all_size 7 example_kept /\ all_size 7 example_kept = 60.
Proof.
  destruct (GetBlobStorage example_delivered 3) as [b|] eqn:Hb; [|vm_compute in Hb; discriminate Hb].
  destruct (files_ b !! 7) as [m|] eqn:Hm.
  2:{ vm_compute in Hb. injection Hb as <-. vm_compute in Hm. discriminate Hm. }
  assert (state_ m = kNormal) as Hst.
  { vm_compute in Hb. injection Hb as <-. vm_compute in Hm. by injection Hm as <-. }
  destruct (live_sizes_exact 3 example_no_gc _ _ b example_opened example_run Hb) as (_ & _ & H).
  exists b, m. split; [done|]. split; [done|]. split; [done|]. split; [|reflexivity].
  destruct (H 7 m Hm eq_refl) as [_ Heq]; [unfold is_obsolete; by rewrite Hst|]. apply Heq; [done|].
  apply (bool_decide_eq_false_1 (7 ∈ _)). vm_compute. reflexivity.
Defined.

End Example.
