(* ===== verification/GCScheduler.v ===== *)
(** * GCScheduler: scheduling of the background garbage collections

    The part of [db_impl_gc.cc], [db_impl.h] and [db_impl.cc] that queues column
    families, hands jobs to the thread pool, and keeps collections and drops of
    column families apart: the variables that [mutex_] protects, and one
    function per section of code that runs with it held. A thread is where it
    will take the mutex next; waiting on [bg_cv_] releases it. *)
From S2P Require Import Prelude BlobFileMeta Options.

Local Open Scope Z_scope.

(** ** State *)

(** [int] counters; the queue holds column family ids. [pool_joined] says that
    the thread pool has stopped taking jobs from its queue. *)
Record DB : Type := mkDB {
  gc_queue_ : list Z;
  bg_gc_scheduled_ : Z;
  bg_gc_running_ : Z;
  unscheduled_gc_ : Z;
  drop_cf_requests_ : Z;
  shuting_down_ : bool;
  pool_joined : bool }.

Definition DB_init : DB := mkDB [] 0 0 0 0 false false.

(** Waiting on [bg_cv_], or about to test the condition of the wait. *)
Inductive Cv : Type := Asleep | Awake.

Inductive Thread : Type :=
  (** a job in the queue of the thread pool *)
  | Submitted
  (** [BackgroundCallGC], waiting until no drop is requested *)
  | BGWait (cv : Cv)
  (** [TEST_StartGC], waiting for the same *)
  | TestWait (cf : Z) (cv : Cv)
  (** [BackgroundGC] while [BlobGCJob::Run] executes without the mutex, with the
      [trigger_next] of the collection; [test] in [TEST_StartGC] *)
  | GC (test : bool) (cf : Z) (trigger_next : bool)
  (** after [BackgroundGC], while the log is flushed without the mutex *)
  | FlushLog (test : bool)
  (** [DropColumnFamilies]: at its beginning, waiting for the running
      collections, and dropping in the base database without the mutex *)
  | DropStart
  | DropWait (cv : Cv)
  | Dropping
  (** the end of [OnCompactionCompleted], [DeleteFilesInRanges] and
      [InitializeGC] *)
  | Enqueue (cfs : list Z)
  (** [WaitBackgroundJob] and [TEST_WaitForBackgroundGC] *)
  | JobsWait (cv : Cv)
  (** [CloseImpl]: at its beginning, in [JoinAllThreads], and in the wait that
      follows *)
  | CloseStart
  | CloseJoin
  | CloseWait (cv : Cv).

(** What is decided outside of this part: what the picker answers and whether
    the base database drops the column families. *)
Inductive Pick : Type := NothingToDo | Picked (trigger_next : bool).

Record Choice : Type := mkChoice { pick : Pick; drop_ok : bool }.

(** What a section of code leaves: where its thread continues, the variables,
    how many jobs it submitted and whether it called [SignalAll]. *)
Record Outcome : Type := mkOut {
  next : option Thread;
  db : DB;
  submitted : nat;
  signalled : bool }.

(** ** Operations on the variables *)

Definition AddToGCQueue (d : DB) (column_family_id : Z) : DB :=
  mkDB (gc_queue_ d ++ [column_family_id]) (bg_gc_scheduled_ d) (bg_gc_running_ d)
    (unscheduled_gc_ d + 1) (drop_cf_requests_ d) (shuting_down_ d) (pool_joined d).

(** [None] is the failed assertion on an empty queue. *)
Definition PopFirstFromGCQueue (d : DB) : option (Z * DB) :=
  match gc_queue_ d with
  | [] => None
  | cf :: q => Some (cf, mkDB q (bg_gc_scheduled_ d) (bg_gc_running_ d) (unscheduled_gc_ d)
                           (drop_cf_requests_ d) (shuting_down_ d) (pool_joined d))
  end.

Definition set_running (d : DB) (n : Z) : DB :=
  mkDB (gc_queue_ d) (bg_gc_scheduled_ d) n (unscheduled_gc_ d) (drop_cf_requests_ d)
    (shuting_down_ d) (pool_joined d).

Definition set_scheduled (d : DB) (n : Z) : DB :=
  mkDB (gc_queue_ d) n (bg_gc_running_ d) (unscheduled_gc_ d) (drop_cf_requests_ d)
    (shuting_down_ d) (pool_joined d).

Definition set_unscheduled (d : DB) (n : Z) : DB :=
  mkDB (gc_queue_ d) (bg_gc_scheduled_ d) (bg_gc_running_ d) n (drop_cf_requests_ d)
    (shuting_down_ d) (pool_joined d).

Definition set_drops (d : DB) (n : Z) : DB :=
  mkDB (gc_queue_ d) (bg_gc_scheduled_ d) (bg_gc_running_ d) (unscheduled_gc_ d) n
    (shuting_down_ d) (pool_joined d).

Definition set_closing (d : DB) (down joined : bool) : DB :=
  mkDB (gc_queue_ d) (bg_gc_scheduled_ d) (bg_gc_running_ d) (unscheduled_gc_ d) (drop_cf_requests_ d)
    down joined.

Section Scheduler.

Context (db_options_ : TitanDBOptions).

(** The loop of [MaybeScheduleGC]; the fuel bounds its rounds, each of which
    decrements [unscheduled_gc_]. *)
Fixpoint schedule_loop (fuel : nat) (d : DB) (n : nat) : DB * nat :=
  match fuel with
  | O => (d, n)
  | S fuel =>
      if (unscheduled_gc_ d >? 0) && (bg_gc_scheduled_ d <? max_background_gc db_options_) then
        schedule_loop fuel
          (set_scheduled (set_unscheduled d (unscheduled_gc_ d - 1)) (bg_gc_scheduled_ d + 1)) (S n)
      else (d, n)
  end.

(** The variables, and the number of submitted jobs. *)
Definition MaybeScheduleGC (d : DB) : DB * nat :=
  if disable_background_gc db_options_ then (d, O) else
  if shuting_down_ d then (d, O) else
  schedule_loop (Z.to_nat (unscheduled_gc_ d)) d O.

(** [BackgroundGC] up to where the mutex is released: a collection runs, or
    there is nothing to do. *)
Definition BackgroundGC_begin (test : bool) (cf : Z) (p : Pick) : Thread :=
  match p with NothingToDo => FlushLog test | Picked trigger_next => GC test cf trigger_next end.

(** [BackgroundGC] from where the mutex is taken again. *)
Definition BackgroundGC_end (d : DB) (cf : Z) (trigger_next : bool) : DB :=
  if trigger_next &&
     (u64 (bg_gc_scheduled_ d - 1 + zlen (gc_queue_ d)) <? u32 (2 * u32 (max_background_gc db_options_)))
  then AddToGCQueue d cf else d.

(** The end of [BackgroundCallGC] and of [TEST_StartGC]; only the former
    schedules. *)
Definition finish (test : bool) (d : DB) : Outcome :=
  let d := set_scheduled (set_running d (bg_gc_running_ d - 1)) (bg_gc_scheduled_ d - 1) in
  let '(d, n) := if test then (d, O) else MaybeScheduleGC d in
  mkOut None d n ((bg_gc_scheduled_ d =? 0) || (bg_gc_running_ d =? 0)).

(** [BackgroundCallGC] from its wait to where the mutex is released. *)
Definition BackgroundCallGC (d : DB) (p : Pick) : Outcome :=
  if drop_cf_requests_ d >? 0 then mkOut (Some (BGWait Asleep)) d O false else
  let d := set_running d (bg_gc_running_ d + 1) in
  match PopFirstFromGCQueue d with
  | Some (cf, d) => mkOut (Some (BackgroundGC_begin false cf p)) d O false
  | None => finish false d
  end.

(** [TEST_StartGC] likewise. *)
Definition TEST_StartGC (d : DB) (cf : Z) (p : Pick) : Outcome :=
  if drop_cf_requests_ d >? 0 then mkOut (Some (TestWait cf Asleep)) d O false else
  let d := set_scheduled (set_running d (bg_gc_running_ d + 1)) (bg_gc_scheduled_ d + 1) in
  mkOut (Some (BackgroundGC_begin true cf p)) d O false.

(** [DropColumnFamilies]: its wait, and what follows the drop in the base
    database. *)
Definition drop_wait (d : DB) : Outcome :=
  if bg_gc_running_ d >? 0 then mkOut (Some (DropWait Asleep)) d O false
  else mkOut (Some Dropping) d O false.

Definition drop_end (d : DB) (ok : bool) : Outcome :=
  if ok then
    let d := set_drops d (drop_cf_requests_ d - 1) in
    mkOut None d O (drop_cf_requests_ d =? 0)
  else mkOut None d O false.

(** [WaitBackgroundJob] and the last wait of [CloseImpl]. *)
Definition WaitBackgroundJob (d : DB) (waiting : Cv -> Thread) : Outcome :=
  mkOut (if bg_gc_scheduled_ d >? 0 then Some (waiting Asleep) else None) d O false.

(** The next section of code of a thread; [None] is a failed assertion. *)
Definition run (t : Thread) (c : Choice) (d : DB) : option Outcome :=
  match t with
  | Submitted => _ ← assert (bg_gc_scheduled_ d >? 0); Some (BackgroundCallGC d (pick c))
  | BGWait _ => Some (BackgroundCallGC d (pick c))
  | TestWait cf _ => Some (TEST_StartGC d cf (pick c))
  | GC test cf trigger_next => Some (mkOut (Some (FlushLog test)) (BackgroundGC_end d cf trigger_next) O false)
  | FlushLog test => Some (finish test d)
  | DropStart => Some (drop_wait (set_drops d (drop_cf_requests_ d + 1)))
  | DropWait _ => Some (drop_wait d)
  | Dropping => Some (drop_end d (drop_ok c))
  | Enqueue cfs =>
      let '(d, n) := MaybeScheduleGC (foldl AddToGCQueue d cfs) in Some (mkOut None d n false)
  | JobsWait _ => Some (WaitBackgroundJob d JobsWait)
  | CloseStart => Some (mkOut (Some CloseJoin) (set_closing d true true) O false)
  | CloseJoin => Some (WaitBackgroundJob d CloseWait)
  | CloseWait _ => Some (WaitBackgroundJob d CloseWait)
  end.

(** ** Interleaving *)

(** A job that a thread of the pool executes. *)
Definition started (t : Thread) : bool :=
  match t with BGWait _ | GC false _ _ | FlushLog false => true | _ => false end.

(** Threads that wait are not run; [JoinAllThreads] waits for the jobs that were
    started, and the others are not started any more. *)
Definition enabled (t : Thread) (others : list Thread) (d : DB) : bool :=
  match t with
  | BGWait Asleep | TestWait _ Asleep | DropWait Asleep | JobsWait Asleep | CloseWait Asleep => false
  | Submitted => negb (pool_joined d)
  | CloseJoin => forallb (fun t => negb (started t)) others
  | _ => true
  end.

Definition awake (t : Thread) : Thread :=
  match t with
  | BGWait _ => BGWait Awake
  | TestWait cf _ => TestWait cf Awake
  | DropWait _ => DropWait Awake
  | JobsWait _ => JobsWait Awake
  | CloseWait _ => CloseWait Awake
  | t => t
  end.

(** [SignalAll]. *)
Definition SignalAll (signalled : bool) (ts : list Thread) : list Thread :=
  if signalled then awake <$> ts else ts.

(** The calls into this part; those of the tests only with [tests]. *)
Definition entry (tests : bool) (t : Thread) : Prop :=
  match t with
  | DropStart | Enqueue _ | JobsWait Awake | CloseStart => True
  | TestWait _ Awake => tests = true
  | _ => False
  end.

Definition sys : Type := DB * list Thread.

Definition others_after (o : Outcome) (others : list Thread) : list Thread :=
  option_list (next o) ++ SignalAll (signalled o) others ++ replicate (submitted o) Submitted.

Inductive run_step (c : Choice) : sys -> sys -> Prop :=
  | run_thread d t ts others o :
      ts ≡ₚ t :: others -> enabled t others d = true -> run t c d = Some o ->
      run_step c (d, ts) (db o, others_after o others).

Inductive sys_step (tests : bool) : sys -> sys -> Prop :=
  | sys_run c s s' : run_step c s s' -> sys_step tests s s'
  | sys_call d ts t : entry tests t -> sys_step tests (d, ts) (d, t :: ts).

Definition reachable (tests : bool) : sys -> Prop := rtc (sys_step tests) (DB_init, []).

End Scheduler.
