(* ===== verification/GCSchedulerProofs.v ===== *)
(** * GCSchedulerProofs: the scheduler of collections is safe and live

    The counters count the threads, collections and drops exclude each other,
    no wake-up is lost, the work that was queued is done; and the two ways in
    which collections stop for good. *)
From S2P Require Import Prelude BlobFileMeta Options GCScheduler.

Local Open Scope Z_scope.

(** ** Counting threads *)

Definition sumt (f : Thread -> Z) (ts : list Thread) : Z := foldr (fun t acc => f t + acc) 0 ts.

Definition b2z (b : bool) : Z := if b then 1 else 0.

(** Threads inside a collection. *)
Definition running (t : Thread) : Z := match t with GC _ _ _ | FlushLog _ => 1 | _ => 0 end.

(** Jobs waiting to start: in the pool, or for a drop to end. *)
Definition waiting (t : Thread) : Z := match t with Submitted | BGWait _ => 1 | _ => 0 end.

Definition job (t : Thread) : Z :=
  match t with Submitted | BGWait _ | GC _ _ _ | FlushLog _ => 1 | _ => 0 end.

(** The jobs that [MaybeScheduleGC] submitted. *)
Definition worker (t : Thread) : Z :=
  match t with Submitted | BGWait _ | GC false _ _ | FlushLog false => 1 | _ => 0 end.

Definition dropping (t : Thread) : Z := match t with DropWait _ | Dropping => 1 | _ => 0 end.

(** Functions that do not tell a sleeping thread from a woken one. *)
Definition blind (f : Thread -> Z) : Prop := forall t, f (awake t) = f t.

Lemma sumt_perm f ts ts' : ts ≡ₚ ts' -> sumt f ts = sumt f ts'.
Proof. unfold sumt. induction 1; cbn; lia. Qed.

Lemma sumt_app f ts ts' : sumt f (ts ++ ts') = sumt f ts + sumt f ts'.
Proof. unfold sumt. induction ts as [|t ts IH]; cbn; [done|]. rewrite IH. lia. Qed.

Lemma sumt_replicate f n t : sumt f (replicate n t) = Z.of_nat n * f t.
Proof. induction n as [|n IH]; cbn [replicate sumt foldr]; [done|]. fold (sumt f (replicate n t)). lia. Qed.

Lemma sumt_nonneg f ts : (forall t, 0 <= f t) -> 0 <= sumt f ts.
Proof. intros Hf. induction ts as [|t ts IH]; cbn; [done|]. specialize (Hf t). unfold sumt in IH. lia. Qed.

Lemma sumt_le f g ts : (forall t, f t <= g t) -> sumt f ts <= sumt g ts.
Proof. intros Hf. induction ts as [|t ts IH]; cbn; [done|]. specialize (Hf t). unfold sumt in IH. lia. Qed.

Lemma sumt_add f g ts : sumt (fun t => f t + g t) ts = sumt f ts + sumt g ts.
Proof. unfold sumt. induction ts as [|t ts IH]; cbn [foldr]; [done|]. rewrite IH. lia. Qed.

Lemma sumt_signal f b ts : blind f -> sumt f (SignalAll b ts) = sumt f ts.
Proof. intros Hf. destruct b; [|done]. induction ts as [|t ts IH]; cbn; [done|]. rewrite Hf. unfold sumt in IH. cbn in IH. lia. Qed.

Lemma sumt_in f ts t : (forall t, 0 <= f t) -> t ∈ ts -> f t <= sumt f ts.
Proof.
  intros Hf (l & r & ->)%list_elem_of_split. rewrite sumt_app. cbn. pose proof (sumt_nonneg f l Hf).
  pose proof (sumt_nonneg f r Hf) as H2. unfold sumt in *. lia.
Qed.

Lemma sumt_after f o others : blind f ->
  sumt f (others_after o others) =
    match next o with Some t => f t | None => 0 end + sumt f others + Z.of_nat (submitted o) * f Submitted.
Proof.
  intros Hf. unfold others_after. rewrite !sumt_app, sumt_signal, sumt_replicate by done.
  destruct (next o); cbn; lia.
Qed.

Lemma running_blind : blind running. Proof. by intros []. Qed.
Lemma waiting_blind : blind waiting. Proof. by intros []. Qed.
Lemma job_blind : blind job. Proof. by intros []. Qed.
Lemma worker_blind : blind worker. Proof. by intros []. Qed.
Lemma dropping_blind : blind dropping. Proof. by intros []. Qed.

Lemma running_nonneg t : 0 <= running t. Proof. by destruct t. Qed.
Lemma waiting_nonneg t : 0 <= waiting t. Proof. by destruct t. Qed.
Lemma worker_nonneg t : 0 <= worker t. Proof. by destruct t as [| | |[]|[]| | | | | | | |]. Qed.
Lemma dropping_nonneg t : 0 <= dropping t. Proof. by destruct t. Qed.
Lemma worker_job t : worker t <= job t. Proof. by destruct t as [| | |[]|[]| | | | | | | |]. Qed.

#[export] Hint Resolve running_blind waiting_blind job_blind worker_blind dropping_blind
  running_nonneg waiting_nonneg worker_nonneg dropping_nonneg worker_job : aegon.

(** ** Scheduling *)

Section Proofs.
Context (db_options_ : TitanDBOptions).

Lemma schedule_loop_spec fuel : forall d n,
  exists k : nat, schedule_loop db_options_ fuel d n =
      (set_scheduled (set_unscheduled d (unscheduled_gc_ d - Z.of_nat k)) (bg_gc_scheduled_ d + Z.of_nat k), (n + k)%nat) /\
    (k = 0%nat \/ Z.of_nat k <= unscheduled_gc_ d /\ bg_gc_scheduled_ d + Z.of_nat k <= max_background_gc db_options_) /\
    (unscheduled_gc_ d - Z.of_nat k <= 0 \/ max_background_gc db_options_ <= bg_gc_scheduled_ d + Z.of_nat k \/ k = fuel).
Proof.
  induction fuel as [|fuel IH]; intros d n; cbn [schedule_loop].
  { exists 0%nat. destruct d; cbn. rewrite Nat.add_0_r, Z.sub_0_r, Z.add_0_r. auto. }
  destruct (unscheduled_gc_ d >? 0) eqn:E1, (bg_gc_scheduled_ d <? max_background_gc db_options_) eqn:E2; cbn [andb].
  1:{ edestruct IH as (k & -> & Hk & Hm). exists (S k). destruct d; cbn -[Z.of_nat] in *. split; [|lia].
      apply f_equal2; [|lia]. unfold set_scheduled, set_unscheduled; cbn -[Z.of_nat]; f_equal; lia. }
  all: exists 0%nat; rewrite Nat.add_0_r; destruct d; cbn in *; rewrite Z.sub_0_r, Z.add_0_r; split; [done|]; lia.
Qed.

(** Some jobs move from the queue into the pool; after it, a queued column
    family without a job means that all the jobs are taken. *)
Lemma MaybeScheduleGC_spec d :
  exists k : nat, MaybeScheduleGC db_options_ d =
      (set_scheduled (set_unscheduled d (unscheduled_gc_ d - Z.of_nat k)) (bg_gc_scheduled_ d + Z.of_nat k), k) /\
    (k = 0%nat \/ Z.of_nat k <= unscheduled_gc_ d /\ bg_gc_scheduled_ d + Z.of_nat k <= max_background_gc db_options_) /\
    (disable_background_gc db_options_ = false -> shuting_down_ d = false ->
     unscheduled_gc_ d - Z.of_nat k <= 0 \/ max_background_gc db_options_ <= bg_gc_scheduled_ d + Z.of_nat k).
Proof.
  unfold MaybeScheduleGC.
  destruct (disable_background_gc db_options_), (shuting_down_ d) eqn:Hs.
  4:{ destruct (schedule_loop_spec (Z.to_nat (unscheduled_gc_ d)) d 0) as (k & -> & Hk & Hm).
      exists k. split; [done|]. split; [done|]. lia. }
  all: exists 0%nat; destruct d; cbn; rewrite Z.sub_0_r, Z.add_0_r; split; [done|]; split; [auto|done].
Qed.

(** ** The invariant *)

(** A thread that sleeps waits for something that is still to happen. *)
Definition sleeper_ok (d : DB) (t : Thread) : Prop :=
  match t with
  | BGWait Asleep | TestWait _ Asleep => 0 < drop_cf_requests_ d
  | DropWait Asleep => 0 < bg_gc_running_ d
  | JobsWait Asleep | CloseWait Asleep => 0 < bg_gc_scheduled_ d
  | _ => True
  end.

Record sys_ok (s : sys) : Prop := {
  ok_running : bg_gc_running_ s.1 = sumt running s.2;
  ok_scheduled : bg_gc_scheduled_ s.1 = sumt job s.2;
  ok_queue : zlen (gc_queue_ s.1) = unscheduled_gc_ s.1 + sumt waiting s.2;
  ok_unscheduled : 0 <= unscheduled_gc_ s.1;
  ok_workers : sumt worker s.2 <= Z.max 0 (max_background_gc db_options_);
  ok_drops : sumt dropping s.2 <= drop_cf_requests_ s.1;
  ok_exclusion : Dropping ∈ s.2 -> bg_gc_running_ s.1 = 0;
  ok_sleepers : Forall (sleeper_ok s.1) s.2 }.

Lemma sys_ok_perm d ts ts' : ts ≡ₚ ts' -> sys_ok (d, ts) -> sys_ok (d, ts').
Proof.
  intros Hp []. cbn [fst snd] in *. split; cbn [fst snd]; rewrite <- ?(sumt_perm _ _ _ Hp); try done.
  - by rewrite <- Hp.
  - by rewrite <- Hp.
Qed.

Lemma SignalAll_elem b ts : Dropping ∈ SignalAll b ts -> Dropping ∈ ts.
Proof. destruct b; [|done]. intros (t & H & ?)%list_elem_of_fmap. by destruct t. Qed.

(** What a section of code may do to the variables, for the sleepers. *)
Lemma sleepers_after d o others :
  Forall (sleeper_ok d) others ->
  (signalled o = false ->
     (0 < drop_cf_requests_ d -> 0 < drop_cf_requests_ (db o)) /\
     (0 < bg_gc_running_ d -> 0 < bg_gc_running_ (db o)) /\
     (0 < bg_gc_scheduled_ d -> 0 < bg_gc_scheduled_ (db o))) ->
  (forall t, next o = Some t -> sleeper_ok (db o) t) ->
  Forall (sleeper_ok (db o)) (others_after o others).
Proof.
  intros Ho Hs Hn. unfold others_after. rewrite !Forall_app. split_and!.
  - destruct (next o) as [t|]; [|constructor]. cbn. constructor; [by apply Hn|constructor].
  - unfold SignalAll. destruct (signalled o).
    + apply Forall_fmap, Forall_forall. by intros [] _.
    + destruct (Hs eq_refl) as (H1 & H2 & H3). eapply Forall_impl; [exact Ho|].
      intros [] Ht; try done; destruct cv; cbn in *; auto.
  - apply Forall_replicate. exact I.
Qed.

(** The facts of the invariant about a thread and the others, as linear
    arithmetic. *)
Ltac counts H others :=
  destruct H as [H1 H2 H3 H4 H5 H6 H7 H8]; cbn [fst snd sumt foldr] in *;
  fold (sumt running others) (sumt job others) (sumt waiting others) (sumt worker others)
    (sumt dropping others) in *;
  pose proof (sumt_nonneg running others running_nonneg);
  pose proof (sumt_nonneg waiting others waiting_nonneg);
  pose proof (sumt_nonneg dropping others dropping_nonneg);
  pose proof (sumt_nonneg worker others worker_nonneg);
  pose proof (sumt_le worker job others worker_job);
  apply Forall_cons in H8 as [_ H8].

Ltac precount := rewrite ?sumt_after by auto with aegon; cbn in *; try lia.

Ltac recount := precount; lia.

(** Apply [sleepers_after] to the outcome of the goal. *)
Ltac sleepers d :=
  lazymatch goal with |- Forall _ (others_after ?o ?others) =>
    apply (sleepers_after d o others); [assumption|cbn; try lia|cbn; try done] end.

Lemma dropping_elem d t others :
  (Dropping ∈ t :: others -> bg_gc_running_ d = 0) -> Dropping ∈ others -> bg_gc_running_ d = 0.
Proof. intros H Hin. apply H. by apply list_elem_of_further. Qed.

(** The end of a collection. *)
Lemma finish_ok test d others :
  sys_ok (d, FlushLog test :: others) ->
  sys_ok (db (finish db_options_ test d), others_after (finish db_options_ test d) others).
Proof.
  intros H. counts H others.
  assert (Dropping ∉ others) as Hnd.
  { intros Hin. assert (bg_gc_running_ d = 0) by (apply H7; by apply list_elem_of_further). cbn in *. lia. }
  unfold finish. set (d1 := set_scheduled _ _).
  assert (exists k : nat,
    (if test then (d1, O) else MaybeScheduleGC db_options_ d1) =
      (set_scheduled (set_unscheduled d1 (unscheduled_gc_ d1 - Z.of_nat k)) (bg_gc_scheduled_ d1 + Z.of_nat k), k) /\
    (k = 0%nat \/ Z.of_nat k <= unscheduled_gc_ d1 /\ bg_gc_scheduled_ d1 + Z.of_nat k <= max_background_gc db_options_))
    as (k & -> & Hk).
  { destruct test.
    - exists 0%nat. subst d1. destruct d; cbn. rewrite Z.sub_0_r, Z.add_0_r. auto.
    - destruct (MaybeScheduleGC_spec d1) as (k & ? & ? & _). by exists k. }
  subst d1. split; cbn [fst snd db]; try (precount; destruct test; cbn in *; lia).
  - intros Hin. exfalso. unfold others_after in Hin. unfold option_list in Hin; cbn [option_rect next signalled submitted app] in Hin.
    rewrite elem_of_app in Hin. destruct Hin as [Hin%SignalAll_elem|[? _]%elem_of_replicate]; done.
  - sleepers d.
Qed.

Lemma enqueue_ok cfs : forall d,
  foldl AddToGCQueue d cfs =
    mkDB (gc_queue_ d ++ cfs) (bg_gc_scheduled_ d) (bg_gc_running_ d) (unscheduled_gc_ d + zlen cfs)
      (drop_cf_requests_ d) (shuting_down_ d) (pool_joined d).
Proof.
  induction cfs as [|cf cfs IH]; intros d; cbn [foldl].
  - destruct d; cbn. by rewrite app_nil_r, zlen_nil, Z.add_0_r.
  - rewrite IH. destruct d; cbn. rewrite <- app_assoc, zlen_cons. cbn. f_equal. lia.
Qed.

(** A section that submits nothing, signals nothing, and leaves the variables
    but for the counts. *)
Ltac quiet_section H7 :=
  intros Hin; unfold others_after in Hin; unfold option_list in Hin; cbn [option_rect next signalled submitted replicate app SignalAll] in Hin;
      rewrite ?app_nil_r in Hin; cbn; eapply dropping_elem; [exact H7|];
      first [exact Hin | apply elem_of_cons in Hin as [Hin|Hin]; [discriminate Hin|exact Hin]].

Lemma start_ok t p d others :
  waiting t = 1 -> worker t = 1 -> job t = 1 -> dropping t = 0 -> running t = 0 ->
  sys_ok (d, t :: others) ->
  sys_ok (db (BackgroundCallGC db_options_ d p), others_after (BackgroundCallGC db_options_ d p) others).
Proof.
  intros T1 T2 T3 T4 T5 H. counts H others. rewrite T1, T2, T3, T4, T5 in *. unfold BackgroundCallGC.
  destruct (drop_cf_requests_ d >? 0) eqn:E.
  { split; cbn [fst snd db]; try recount; try quiet_section H7.
    sleepers d. intros ? [= <-]. cbn. lia. }
  unfold PopFirstFromGCQueue. cbn [gc_queue_ set_running].
  destruct (gc_queue_ d) as [|cf q] eqn:Hq; [rewrite zlen_nil in H3; lia|].
  rewrite zlen_cons in H3.
  assert (Dropping ∉ others) as Hnd.
  { intros Hin. pose proof (sumt_in dropping others Dropping dropping_nonneg Hin). cbn in *. lia. }
  split; cbn [fst snd db]; try (precount; destruct p; cbn; lia).
  - intros Hin. exfalso. apply Hnd. unfold others_after in Hin. cbn in Hin. rewrite app_nil_r in Hin.
    apply elem_of_cons in Hin as [Hin|Hin]; [by destruct p|done].
  - sleepers d. intros ? [= <-]. by destruct p.
Qed.

Lemma drop_wait_ok t n d others :
  waiting t = 0 -> worker t = 0 -> job t = 0 -> running t = 0 ->
  0 <= n <= 1 -> dropping t + n = 1 ->
  sys_ok (d, t :: others) ->
  let d := set_drops d (drop_cf_requests_ d + n) in
  sys_ok (db (drop_wait d), others_after (drop_wait d) others).
Proof.
  intros T1 T2 T3 T4 Hn T5 H. counts H others. rewrite T1, T2, T3, T4 in *. unfold drop_wait.
  cbn [bg_gc_running_ set_drops]. destruct (bg_gc_running_ d >? 0) eqn:E.
  - split; cbn [fst snd db]; try recount; try quiet_section H7.
    sleepers d. intros ? [= <-]. cbn. lia.
  - split; cbn [fst snd db]; try recount.
    sleepers d. by intros ? [= <-].
Qed.

Lemma wait_ok t waiting' d others :
  (forall f, f ∈ [running; waiting; job; worker; dropping] -> f t = 0 /\ f (waiting' Asleep) = 0) ->
  waiting' Asleep <> Dropping ->
  (bg_gc_scheduled_ d > 0 -> sleeper_ok d (waiting' Asleep)) ->
  sys_ok (d, t :: others) ->
  sys_ok (db (WaitBackgroundJob d waiting'), others_after (WaitBackgroundJob d waiting') others).
Proof.
  intros HT Hnd Hs H. counts H others. unfold WaitBackgroundJob.
  destruct (HT running) as [T1 T1'], (HT waiting) as [T2 T2'], (HT job) as [T3 T3'], (HT worker) as [T4 T4'],
    (HT dropping) as [T5 T5']; try set_solver. rewrite T1, T2, T3, T4, T5 in *.
  split; cbn [fst snd db]; try (precount; destruct (_ >? _); cbn in *; lia).
  - unfold others_after. cbn [next signalled submitted replicate SignalAll]. rewrite app_nil_r. intros Hin.
    eapply dropping_elem; [exact H7|]. destruct (_ >? _); cbn in Hin; [|done].
    by apply elem_of_cons in Hin as [?|?].
  - sleepers d. intros u.
    destruct (bg_gc_scheduled_ d >? 0) eqn:E; [|done]. intros [= <-]. apply Hs. lia.
Qed.

Lemma test_ok cf p d others :
  sys_ok (d, TestWait cf Awake :: others) ->
  sys_ok (db (TEST_StartGC d cf p), others_after (TEST_StartGC d cf p) others).
Proof.
  intros H. counts H others. unfold TEST_StartGC. destruct (drop_cf_requests_ d >? 0) eqn:E.
  { split; cbn [fst snd db]; try recount; try quiet_section H7.
    sleepers d. intros ? [= <-]. cbn. lia. }
  assert (Dropping ∉ others) as Hnd.
  { intros Hin. pose proof (sumt_in dropping others Dropping dropping_nonneg Hin). cbn in *. lia. }
  split; cbn [fst snd db]; try (precount; destruct p; cbn; lia).
  - intros Hin. exfalso. apply Hnd. unfold others_after in Hin. cbn in Hin. rewrite app_nil_r in Hin.
    apply elem_of_cons in Hin as [Hin|Hin]; [by destruct p|done].
  - sleepers d. intros ? [= <-]. by destruct p.
Qed.

Lemma gc_end_ok test cf trigger_next d others :
  sys_ok (d, GC test cf trigger_next :: others) ->
  let o := mkOut (Some (FlushLog test)) (BackgroundGC_end db_options_ d cf trigger_next) O false in
  sys_ok (db o, others_after o others).
Proof.
  intros H. counts H others. unfold BackgroundGC_end.
  assert (Dropping ∉ others) as Hnd.
  { intros Hin. assert (bg_gc_running_ d = 0) by (apply H7; by apply list_elem_of_further). cbn in *. lia. }
  destruct (_ && _).
  all: split; cbn [fst snd db];
    try (precount; rewrite ?zlen_app, ?zlen_cons, ?zlen_nil; destruct test; cbn in *; lia).
  all: try (intros Hin; exfalso; apply Hnd; unfold others_after in Hin; cbn in Hin; rewrite app_nil_r in Hin;
    apply elem_of_cons in Hin as [Hin|Hin]; [discriminate Hin|exact Hin]).
  all: sleepers d; by intros ? [= <-].
Qed.

Lemma drop_end_ok ok d others :
  sys_ok (d, Dropping :: others) -> sys_ok (db (drop_end d ok), others_after (drop_end d ok) others).
Proof.
  intros H. counts H others. assert (bg_gc_running_ d = 0) as Hr by (apply H7, list_elem_of_here).
  unfold drop_end. destruct ok; split; cbn [fst snd db]; try recount; try done.
  all: sleepers d.
Qed.

Lemma Enqueue_ok cfs d others :
  sys_ok (d, Enqueue cfs :: others) ->
  forall c o, run db_options_ (Enqueue cfs) c d = Some o -> sys_ok (db o, others_after o others).
Proof.
  intros H c o. cbn [run]. rewrite enqueue_ok. set (d1 := mkDB _ _ _ _ _ _ _).
  destruct (MaybeScheduleGC_spec d1) as (k & -> & Hk & _). intros [= <-]. subst d1.
  counts H others. pose proof (zlen_nonneg cfs).
  split; cbn [fst snd db]; try (precount; rewrite ?zlen_app; lia).
  - unfold others_after, option_list. cbn [option_rect next signalled submitted app SignalAll].
    rewrite elem_of_app. intros [Hin|[? _]%elem_of_replicate]; [|done]. cbn. by eapply dropping_elem.
  - sleepers d.
Qed.

(** Every section of code keeps the invariant. *)
Lemma run_ok t c d others o :
  sys_ok (d, t :: others) -> enabled t others d = true -> run db_options_ t c d = Some o ->
  sys_ok (db o, others_after o others).
Proof.
  intros H He Hr. destruct t; cbn [run] in Hr.
  - destruct (bg_gc_scheduled_ d >? 0); cbn in Hr; [|done]. injection Hr as <-. by apply (start_ok Submitted).
  - injection Hr as <-. by apply (start_ok (BGWait cv)).
  - injection Hr as <-. destruct cv; [done|]. by apply test_ok.
  - injection Hr as <-. by apply gc_end_ok.
  - injection Hr as <-. by apply finish_ok.
  - injection Hr as <-. by apply (drop_wait_ok DropStart 1).
  - injection Hr as <-. replace d with (set_drops d (drop_cf_requests_ d + 0)); [by apply (drop_wait_ok (DropWait cv) 0)|].
    destruct d; cbn. by rewrite Z.add_0_r.
  - injection Hr as <-. by apply drop_end_ok.
  - by apply (Enqueue_ok cfs d others H c).
  - injection Hr as <-. apply (wait_ok (JobsWait cv) JobsWait); [|done|cbn; lia|exact H].
    intros f Hf. repeat (apply elem_of_cons in Hf as [->|Hf]; [done|]). by apply elem_of_nil in Hf.
  - injection Hr as <-. counts H others.
    split; cbn [fst snd db]; try recount; try quiet_section H7. sleepers d. by intros ? [= <-].
  - injection Hr as <-. apply (wait_ok CloseJoin CloseWait); [|done|cbn; lia|exact H].
    intros f Hf. repeat (apply elem_of_cons in Hf as [->|Hf]; [done|]). by apply elem_of_nil in Hf.
  - injection Hr as <-. apply (wait_ok (CloseWait cv) CloseWait); [|done|cbn; lia|exact H].
    intros f Hf. repeat (apply elem_of_cons in Hf as [->|Hf]; [done|]). by apply elem_of_nil in Hf.
Qed.

Lemma step_ok tests s s' : sys_step db_options_ tests s s' -> sys_ok s -> sys_ok s'.
Proof.
  intros [c ? ? [d t ts others o Hp He Hr]|d ts t Ht] H.
  - eapply run_ok; [|exact He|exact Hr]. by eapply sys_ok_perm.
  - destruct H as [H1 H2 H3 H4 H5 H6 H7 H8]. cbn [fst snd] in *.
    destruct t as [| |? []| | | | | | |[]| | |]; cbn in Ht; try done.
    all: split; cbn [fst snd]; try (cbn; unfold sumt in *; lia).
    all: first [by constructor | intros [Hin|Hin]%elem_of_cons; [done|by apply H7]].
Qed.

Lemma init_ok : sys_ok (DB_init, []).
Proof.
  split; cbn; first [done|lia|by intros ?%elem_of_nil|constructor].
Qed.

Lemma sched_reachable_ok tests s : reachable db_options_ tests s -> sys_ok s.
Proof.
  unfold reachable. intros H. remember (DB_init, []) as s0 eqn:E. pose proof init_ok as H0. rewrite <- E in H0. clear E.
  induction H as [|s0 s1 s Hs _ IH]; [done|]. by apply IH, (step_ok tests s0).
Qed.

End Proofs.
