(* ===== verification/GCSchedulerSpec.v ===== *)
(** * GCSchedulerSpec: what the scheduler of collections promises

    Safety of every interleaving, termination and completeness of the work once
    nothing new arrives, and the two ways in which it stops for good. *)
From Stdlib Require Import Zwf.
From S2P Require Import Prelude BlobFileMeta Options GCScheduler GCSchedulerProofs.

Local Open Scope Z_scope.

Section Spec.
Context (db_options_ : TitanDBOptions).

#[local] Abbreviation run := (run db_options_).
#[local] Abbreviation run_step := (run_step db_options_).
#[local] Abbreviation sys_step := (sys_step db_options_).
#[local] Abbreviation reachable := (reachable db_options_).

(** ** Termination *)

(** The work that is left to a thread; a queued column family without a job is
    worth more than the job it becomes. *)
Definition work (t : Thread) : Z :=
  match t with
  | Submitted => 6 | BGWait _ | TestWait _ _ => 5
  | GC _ _ trigger_next => if trigger_next then 11 else 4
  | FlushLog _ => 3
  | DropStart => 5 | DropWait _ => 4 | Dropping => 3
  | Enqueue cfs => 7 * zlen cfs + 1
  | JobsWait _ => 1 | CloseStart => 4 | CloseJoin => 3 | CloseWait _ => 2
  end.

Definition total_work (s : sys) : Z := 7 * unscheduled_gc_ s.1 + sumt work s.2.

(** Threads that are about to test the condition of a wait. *)
Definition testing (t : Thread) : Z :=
  match t with
  | BGWait Awake | TestWait _ Awake | DropWait Awake | JobsWait Awake | CloseWait Awake => 1
  | _ => 0
  end.

Lemma work_pos t : 1 <= work t.
Proof. destruct t as [| | |? ? []| | | | | | | | |]; cbn; try lia. pose proof (zlen_nonneg cfs). lia. Qed.

Lemma work_nonneg t : 0 <= work t.
Proof. pose proof (work_pos t). lia. Qed.

Lemma work_blind : blind work. Proof. by intros []. Qed.

Lemma testing_nonneg t : 0 <= testing t.
Proof. destruct t as [|[]|? []| | | |[]| | |[]| | |[]]; cbn; lia. Qed.

(** No collection asks for another one. *)
Definition calm (c : Choice) : Prop := pick c <> Picked true.

Definition calm_step (s s' : sys) : Prop := exists c, calm c /\ run_step c s s'.

(** Each section of code does some of the work, or puts its thread to sleep. *)
Definition lighter (x y : Z * Z) : Prop := x.1 < y.1 \/ x.1 = y.1 /\ x.2 < y.2.

Definition weight (s : sys) : Z * Z := (total_work s, sumt testing s.2).

Lemma total_work_after o others :
  total_work (db o, others_after o others) =
    7 * unscheduled_gc_ (db o) + match next o with Some t => work t | None => 0 end +
    sumt work others + Z.of_nat (submitted o) * 6.
Proof. unfold total_work. cbn [fst snd]. rewrite sumt_after by exact work_blind. cbn. lia. Qed.

Lemma testing_after o others : submitted o = 0%nat -> signalled o = false ->
  sumt testing (others_after o others) = match next o with Some t => testing t | None => 0 end + sumt testing others.
Proof.
  intros H1 H2. unfold others_after. rewrite H1, H2. cbn [SignalAll replicate]. rewrite app_nil_r, sumt_app.
  destruct (next o); cbn; lia.
Qed.

(** An outcome that does some of the work. *)
Definition works (d : DB) (t : Thread) (o : Outcome) : Prop :=
  7 * unscheduled_gc_ (db o) + match next o with Some t => work t | None => 0 end + Z.of_nat (submitted o) * 6
  < 7 * unscheduled_gc_ d + work t.

(** An outcome that puts the thread to sleep. *)
Definition sleeps (d : DB) (t : Thread) (o : Outcome) : Prop :=
  unscheduled_gc_ (db o) = unscheduled_gc_ d /\ submitted o = 0%nat /\ signalled o = false /\
  exists t', next o = Some t' /\ work t' = work t /\ testing t' = 0 /\ testing t = 1.

Lemma finish_works test d : works d (FlushLog test) (finish db_options_ test d).
Proof.
  unfold finish, works. destruct test; cbn [next submitted db].
  - cbn. lia.
  - set (d1 := set_scheduled _ _). destruct (MaybeScheduleGC_spec db_options_ d1) as (k & -> & Hk & _).
    subst d1. cbn in *. lia.
Qed.

Lemma run_weight t c d o others :
  calm c -> enabled t others d = true -> run t c d = Some o -> works d t o \/ sleeps d t o.
Proof.
  intros Hc He Hr.
  assert (forall p, p = pick c -> (t = Submitted \/ t = BGWait Awake) ->
    o = BackgroundCallGC db_options_ d p -> works d t o \/ sleeps d t o) as Hstart.
  { intros p -> Ht ->. unfold BackgroundCallGC. destruct (drop_cf_requests_ d >? 0).
    - destruct Ht as [->| ->]; [left; unfold works; cbn; lia|right].
      repeat split; try done. by eexists.
    - left. unfold PopFirstFromGCQueue. cbn [gc_queue_ set_running]. destruct (gc_queue_ d) as [|cf q].
      + pose proof (finish_works false (set_running d (bg_gc_running_ d + 1))) as Hf. unfold works in *.
        cbn [unscheduled_gc_ set_running work] in Hf. destruct Ht as [->| ->]; cbn [work]; lia.
      + unfold works. cbn. destruct Ht as [->| ->]; cbn; destruct (pick c) as [|[]] eqn:Ep; cbn; try lia; by destruct Hc. }
  destruct t; cbn [GCScheduler.run] in Hr.
  - destruct (bg_gc_scheduled_ d >? 0); cbn in Hr; [|done]. injection Hr as <-. eapply Hstart; auto.
  - injection Hr as <-. destruct cv; [done|]. eapply Hstart; auto.
  - injection Hr as <-. destruct cv; [done|]. unfold TEST_StartGC. destruct (drop_cf_requests_ d >? 0).
    + right. repeat split; try done. by eexists.
    + left. unfold works. cbn. destruct (pick c) as [|[]] eqn:Ep; cbn; try lia; by destruct Hc.
  - injection Hr as <-. left. unfold works, BackgroundGC_end. destruct trigger_next; cbn; [|lia].
    destruct (_ <? _); cbn; lia.
  - injection Hr as <-. left. apply finish_works.
  - injection Hr as <-. left. unfold works, drop_wait. destruct (_ >? 0); cbn; lia.
  - injection Hr as <-. destruct cv; [done|]. unfold drop_wait. destruct (_ >? 0).
    + right. repeat split; try done. by eexists.
    + left. unfold works. cbn. lia.
  - injection Hr as <-. left. unfold works, drop_end. destruct (drop_ok c); cbn; lia.
  - rewrite enqueue_ok in Hr. set (d1 := mkDB _ _ _ _ _ _ _) in Hr.
    destruct (MaybeScheduleGC_spec db_options_ d1) as (k & Hm & Hk & _). rewrite Hm in Hr. injection Hr as <-.
    left. subst d1. unfold works. cbn in *. pose proof (zlen_nonneg cfs). lia.
  - injection Hr as <-. destruct cv; [done|]. unfold WaitBackgroundJob. destruct (_ >? 0).
    + right. repeat split; try done. by eexists.
    + left. unfold works. cbn. lia.
  - injection Hr as <-. left. unfold works. cbn. lia.
  - injection Hr as <-. left. unfold works, WaitBackgroundJob. destruct (_ >? 0); cbn; lia.
  - injection Hr as <-. destruct cv; [done|]. unfold WaitBackgroundJob. destruct (_ >? 0).
    + right. repeat split; try done. by eexists.
    + left. unfold works. cbn. lia.
Qed.

Lemma calm_step_lighter s s' : calm_step s s' -> lighter (weight s') (weight s).
Proof.
  intros (c & Hc & [d t ts others o Hp He Hr]). unfold lighter, weight. cbn [fst snd].
  rewrite total_work_after. unfold total_work. cbn [fst snd].
  rewrite (sumt_perm work _ _ Hp), (sumt_perm testing _ _ Hp). cbn [sumt foldr].
  fold (sumt work others) (sumt testing others).
  destruct (run_weight t c d o others Hc He Hr) as [Hw|(H1 & H2 & H3 & t' & H4 & H5 & H6 & H7)].
  - left. unfold works in Hw. lia.
  - right. rewrite testing_after by done. rewrite H1, H2, H4. lia.
Qed.

Lemma lighter_wf : well_founded (fun x y : Z * Z => 0 <= x.1 /\ 0 <= x.2 /\ lighter x y).
Proof.
  intros [a b]. revert b. induction (Zwf_well_founded 0 a) as [a _ IHa]. intros b.
  induction (Zwf_well_founded 0 b) as [b _ IHb]. constructor. intros [a' b'] (H1 & H2 & [H|[H H']]); cbn in *.
  - apply IHa. unfold Zwf. lia.
  - subst a'. apply IHb. unfold Zwf. lia.
Qed.

(** From a reachable state, every sequence of sections of code ends. *)
Lemma calm_terminates s : sys_ok db_options_ s -> Acc (fun s' s => calm_step s s') s.
Proof.
  remember (weight s) as w eqn:Hw. revert s Hw. induction (lighter_wf w) as [w _ IH]. intros s -> Hs.
  constructor. intros s' Hstep.
  assert (sys_ok db_options_ s') as Hs'.
  { destruct Hstep as (c & _ & Hr). apply (step_ok db_options_ false s s'); [by apply (sys_run db_options_ false c)|done]. }
  refine (IH (weight s') _ s' eq_refl Hs'). split_and!.
  - unfold weight, total_work. cbn [fst]. pose proof (sumt_nonneg work s'.2 work_nonneg). destruct Hs'. lia.
  - apply sumt_nonneg, testing_nonneg.
  - by apply calm_step_lighter.
Qed.

(** ** Progress *)

Lemma sumt_pos_in f ts : (forall t, 0 <= f t) -> 0 < sumt f ts -> exists t, t ∈ ts /\ 0 < f t.
Proof.
  intros Hf. induction ts as [|t ts IH]; cbn; [lia|]. intros H. destruct (Z.eq_dec (f t) 0) as [E|E].
  - destruct IH as (t' & ? & ?); [unfold sumt; lia|]. exists t'. split; [by apply list_elem_of_further|done].
  - exists t. specialize (Hf t). split; [apply list_elem_of_here|lia].
Qed.

(** Nobody closes the database. *)
Definition closing (t : Thread) : bool :=
  match t with CloseStart | CloseJoin | CloseWait _ => true | _ => false end.

Definition open (s : sys) : Prop :=
  shuting_down_ s.1 = false /\ pool_joined s.1 = false /\ forall t, t ∈ s.2 -> closing t = false.

(** No assertion fails. *)
Lemma run_total t c d others : sys_ok db_options_ (d, t :: others) -> exists o, run t c d = Some o.
Proof.
  intros H. destruct t; cbn [GCScheduler.run]; try by eexists.
  - assert ((bg_gc_scheduled_ d >? 0) = true) as ->; [|by eexists].
    destruct H as [_ H2 _ _ _ _ _ _]. cbn in *.
    assert (0 <= sumt job others) by (apply sumt_nonneg; by intros []). unfold sumt in *. lia.
  - destruct (MaybeScheduleGC _ _). by eexists.
Qed.

(** When there is a thread, one of them can go on. *)
Lemma someone_enabled d ts :
  sys_ok db_options_ (d, ts) -> open (d, ts) -> drop_cf_requests_ d = sumt dropping ts -> ts <> [] ->
  exists t, t ∈ ts /\ forall others, enabled t others d = true.
Proof.
  intros H (_ & Hp & Hc) Hd Hne. destruct H as [H1 H2 _ _ _ _ _ H8]. cbn [fst snd] in *.
  assert (0 < sumt running ts -> exists t, t ∈ ts /\ forall others, enabled t others d = true) as Hrun.
  { intros (t & Hin & Ht)%sumt_pos_in; [|exact running_nonneg]. exists t. split; [done|]. by destruct t. }
  assert (0 < sumt dropping ts -> exists t, t ∈ ts /\ forall others, enabled t others d = true) as Hdrop.
  { intros (t & Hin & Ht)%sumt_pos_in; [|exact dropping_nonneg]. rewrite Forall_forall in H8.
    specialize (H8 t Hin). destruct t; cbn in *; try lia; [|by eexists]. destruct cv; [apply Hrun; cbn in *; lia|by eexists]. }
  assert (0 < sumt job ts -> exists t, t ∈ ts /\ forall others, enabled t others d = true) as Hjob.
  { intros (t & Hin & Ht)%sumt_pos_in; [|by intros []]. rewrite Forall_forall in H8.
    specialize (H8 t Hin). destruct t; cbn in *; try lia; [| |by eexists..].
    - exists Submitted. split; [done|]. intros. cbn. by rewrite Hp.
    - destruct cv; [apply Hdrop; cbn in *; lia|by eexists]. }
  destruct ts as [|t ts]; [done|]. rewrite Forall_forall in H8.
  specialize (H8 t (list_elem_of_here _ _)). specialize (Hc t (list_elem_of_here _ _)).
  assert (t ∈ t :: ts) as Hin by apply list_elem_of_here.
  destruct t as [|[]|? []| | | |[]| | |[]| | |[]]; cbn in H8, Hc; try done; try (eexists; split; [exact Hin|done]).
  - eexists; split; [exact Hin|]. intros. cbn. by rewrite Hp.
  - apply Hdrop. lia.
  - apply Hdrop. lia.
  - apply Hrun. lia.
  - apply Hjob. lia.
Qed.

(** ** No queued column family is forgotten *)

Definition in_test (t : Thread) : Z :=
  match t with TestWait _ _ | GC true _ _ | FlushLog true => 1 | _ => 0 end.

Lemma in_test_blind : blind in_test. Proof. by intros []. Qed.
Lemma in_test_nonneg t : 0 <= in_test t. Proof. by destruct t as [| | |[]|[]| | | | | | | |]. Qed.

(** Without the calls of the tests, as long as some column family has no job,
    there is a job, and its end will schedule. *)
Definition busy (s : sys) : Prop :=
  sumt in_test s.2 = 0 /\
  (0 < unscheduled_gc_ s.1 -> shuting_down_ s.1 = false -> disable_background_gc db_options_ = false ->
   0 < max_background_gc db_options_ -> 0 < sumt worker s.2).

Lemma jobs_are_workers ts : sumt in_test ts = 0 -> sumt job ts <= sumt worker ts.
Proof.
  intros H. transitivity (sumt (fun t => worker t + in_test t) ts); [|rewrite sumt_add; lia].
  apply sumt_le. by intros [| | |[]|[]| | | | | | | |].
Qed.

(** After [MaybeScheduleGC]. *)
Lemma scheduled_busy d k o others :
  sys_ok db_options_ (db o, others_after o others) -> sumt in_test (others_after o others) = 0 ->
  MaybeScheduleGC db_options_ d = (db o, k) -> busy (db o, others_after o others).
Proof.
  intros H Ht Hm. split; [done|]. intros Hu Hs Hd Hmax. cbn [fst snd] in *.
  destruct (MaybeScheduleGC_spec db_options_ d) as (k' & Hm' & _ & Hend). rewrite Hm in Hm'. injection Hm' as Hdb _.
  rewrite Hdb in Hu, Hs. cbn in Hu, Hs. destruct (Hend Hd Hs) as [?|Hle]; [lia|].
  pose proof (jobs_are_workers _ Ht). destruct H as [_ H2 _ _ _ _ _ _]. cbn [fst snd] in H2.
  rewrite Hdb in H2 at 1. cbn in H2. lia.
Qed.

(** A section that queues nothing, by the lemma that says so. *)
Ltac keep H := apply H; [first [left; by eexists|by right]|left; cbn; lia|by cbn].

Lemma run_busy t c d others o :
  sys_ok db_options_ (d, t :: others) -> enabled t others d = true -> run t c d = Some o ->
  busy (d, t :: others) -> busy (db o, others_after o others).
Proof.
  intros H He Hr [Ht Hb]. pose proof (run_ok db_options_ t c d others o H He Hr) as Ho.
  cbn [fst snd sumt foldr] in Ht, Hb. fold (sumt in_test others) in Ht. fold (sumt worker others) in Hb.
  pose proof (sumt_nonneg in_test others in_test_nonneg) as Hn. pose proof (in_test_nonneg t) as Hn'.
  assert (forall o', (next o' = None \/ exists t', next o' = Some t' /\ in_test t' = in_test t) ->
    sumt in_test (others_after o' others) = 0) as Hafter.
  { intros o' Hnext. rewrite sumt_after by exact in_test_blind. cbn [in_test].
    destruct Hnext as [->|(t' & -> & ->)]; lia. }
  assert ((exists t', next o = Some t' /\ in_test t' = in_test t /\ worker t' = worker t) \/
          (next o = None /\ worker t = 0 /\ in_test t = 0) ->
    unscheduled_gc_ (db o) <= unscheduled_gc_ d \/ 0 < worker t ->
    (shuting_down_ (db o) = false -> shuting_down_ d = false) -> busy (db o, others_after o others)) as Hkeep.
  { intros Hnext Hu Hs. split; cbn [fst snd].
    - apply Hafter. destruct Hnext as [(t' & ? & ? & _)|(? & _)]; [right; by exists t'|by left].
    - intros H1 H2 H3 H4. rewrite sumt_after by auto with aegon. cbn [worker].
      pose proof (sumt_nonneg worker others worker_nonneg).
      destruct Hnext as [(t' & -> & _ & ->)|(-> & Hw & _)]; [|rewrite Hw in *].
      + destruct Hu as [Hu|Hu]; [|lia]. specialize (Hb ltac:(lia) (Hs H2) H3 H4). lia.
      + specialize (Hb ltac:(lia) (Hs H2) H3 H4). lia. }
  destruct t; cbn [GCScheduler.run] in Hr.
  1: destruct (bg_gc_scheduled_ d >? 0); cbn in Hr; [|done].
  1,2: injection Hr as <-; unfold BackgroundCallGC in *; destruct (drop_cf_requests_ d >? 0);
    [apply Hkeep; [left; by eexists|by left|done]|]; unfold PopFirstFromGCQueue in *; cbn [gc_queue_ set_running] in *;
    destruct (gc_queue_ d) as [|cf q] eqn:Hq;
    [destruct H as [_ _ H3 H4 _ _ _ _]; cbn [fst snd sumt foldr waiting] in H3, H4; rewrite Hq, zlen_nil in H3;
     pose proof (sumt_nonneg waiting others waiting_nonneg); unfold sumt in *; lia
    |apply Hkeep; [left; destruct (pick c); by eexists|by right|done]].
  - cbn in Ht. lia.
  - destruct test; [cbn in Ht; lia|]. injection Hr as <-. apply Hkeep; [left; by eexists|by right|].
    unfold BackgroundGC_end. cbn [db]. by destruct (_ && _).
  - destruct test; [cbn in Ht; lia|]. injection Hr as <-. unfold finish in *.
    destruct (MaybeScheduleGC db_options_ _) as [d' k] eqn:Hm.
    eapply scheduled_busy; [exact Ho| |exact Hm]. apply Hafter. by left.
  - injection Hr as <-. unfold drop_wait in *. destruct (_ >? 0); keep Hkeep.
  - injection Hr as <-. unfold drop_wait in *. destruct (_ >? 0); keep Hkeep.
  - injection Hr as <-. unfold drop_end in *. destruct (drop_ok c); keep Hkeep.
  - destruct (MaybeScheduleGC db_options_ _) as [d' k] eqn:Hm. injection Hr as <-.
    eapply scheduled_busy; [exact Ho| |exact Hm]. apply Hafter. by left.
  - injection Hr as <-. unfold WaitBackgroundJob in *. destruct (_ >? 0); keep Hkeep.
  - injection Hr as <-. keep Hkeep.
  - injection Hr as <-. unfold WaitBackgroundJob in *. destruct (_ >? 0); keep Hkeep.
  - injection Hr as <-. unfold WaitBackgroundJob in *. destruct (_ >? 0); keep Hkeep.
Qed.

Lemma busy_perm d ts ts' : ts ≡ₚ ts' -> busy (d, ts) -> busy (d, ts').
Proof. unfold busy. cbn [fst snd]. intros Hp. by rewrite !(sumt_perm _ _ _ Hp). Qed.

Lemma reachable_busy s : reachable false s -> busy s.
Proof.
  unfold GCScheduler.reachable. intros H. apply (rtc_ind_r (fun s => sys_ok db_options_ s /\ busy s) (DB_init, [])) in H; [by destruct H| |].
  - split; [apply init_ok|by split].
  - intros s1 s2 _ Hs [Hok Hb]. split; [by apply (step_ok db_options_ false s1)|].
    destruct Hs as [c ? ? [d t ts others o Hp He Hr]|d ts t Ht].
    + apply (run_busy t c d); [by eapply sys_ok_perm|done|done|by eapply busy_perm].
    + destruct Hb as [Hb1 Hb2]. cbn [fst snd] in *. destruct t as [| |? []| | | | | | |[]| | |]; cbn in Ht; try done.
      all: split; cbn in *; unfold sumt in *; lia.
Qed.

(** ** Drops that succeed *)

(** A section whose choices ask for no further collection and fail no drop. *)
Definition smooth (c : Choice) : Prop := calm c /\ drop_ok c = true.

Definition smooth_step (s s' : sys) : Prop := exists c, smooth c /\ run_step c s s'.

Definition no_failed_drop (s : sys) : Prop := drop_cf_requests_ s.1 = sumt dropping s.2.

(** The variables that most sections leave alone. *)
Lemma run_frame t c d o : run t c d = Some o ->
  (closing t = false -> shuting_down_ (db o) = shuting_down_ d /\ pool_joined (db o) = pool_joined d /\
     forall t', next o = Some t' -> closing t' = false) /\
  drop_cf_requests_ (db o) + dropping t =
    drop_cf_requests_ d + match next o with Some t' => dropping t' | None => 0 end +
    match t with Dropping => if drop_ok c then 0 else 1 | _ => 0 end.
Proof.
  intros Hr. unfold finish in Hr. destruct t; cbn [GCScheduler.run] in Hr.
  1: destruct (bg_gc_scheduled_ d >? 0); cbn in Hr; [|done].
  1,2: injection Hr as <-; unfold BackgroundCallGC, PopFirstFromGCQueue; destruct (drop_cf_requests_ d >? 0);
    [cbn; split; [intros _; split_and!; try done; by intros ? [= <-]|lia]|]; cbn [gc_queue_ set_running];
    destruct (gc_queue_ d);
    [unfold finish; destruct (MaybeScheduleGC_spec db_options_
       (set_scheduled (set_running (set_running d (bg_gc_running_ d + 1)) (bg_gc_running_ (set_running d (bg_gc_running_ d + 1)) - 1))
          (bg_gc_scheduled_ (set_running d (bg_gc_running_ d + 1)) - 1))) as (k & -> & _); cbn; split; [done|lia]
    |destruct (pick c); cbn; split; try lia; intros _; split_and!; try done; by intros ? [= <-]].
  - injection Hr as <-. unfold TEST_StartGC. destruct (_ >? 0); [|destruct (pick c)]; cbn; split; try lia;
      intros _; split_and!; try done; by intros ? [= <-].
  - injection Hr as <-. unfold BackgroundGC_end. destruct (_ && _); cbn; split; try lia;
      intros _; split_and!; try done; by intros ? [= <-].
  - injection Hr as <-. unfold finish. destruct test; [cbn; split; [done|lia]|].
    destruct (MaybeScheduleGC_spec db_options_ (set_scheduled (set_running d (bg_gc_running_ d - 1)) (bg_gc_scheduled_ d - 1)))
      as (k & -> & _). cbn. split; [done|lia].
  - injection Hr as <-. unfold drop_wait. destruct (_ >? 0); cbn; split; try lia;
      intros _; split_and!; try done; by intros ? [= <-].
  - injection Hr as <-. unfold drop_wait. destruct (_ >? 0); cbn; split; try lia;
      intros _; split_and!; try done; by intros ? [= <-].
  - injection Hr as <-. unfold drop_end. destruct (drop_ok c); cbn; split; try lia; done.
  - rewrite enqueue_ok in Hr. set (d1 := mkDB _ _ _ _ _ _ _) in Hr.
    destruct (MaybeScheduleGC_spec db_options_ d1) as (k & Hm & _). rewrite Hm in Hr. injection Hr as <-. subst d1.
    cbn. split; [done|lia].
  - injection Hr as <-. unfold WaitBackgroundJob. destruct (_ >? 0); cbn; split; try lia;
      intros _; split_and!; try done; by intros ? [= <-].
  - injection Hr as <-. cbn. split; [done|lia].
  - injection Hr as <-. unfold WaitBackgroundJob. destruct (_ >? 0); cbn; split; try lia; done.
  - injection Hr as <-. unfold WaitBackgroundJob. destruct (_ >? 0); cbn; split; try lia; done.
Qed.

Lemma closing_awake t : closing (awake t) = closing t.
Proof. by destruct t. Qed.

Lemma others_after_elem t o others : t ∈ others_after o others ->
  next o = Some t \/ t = Submitted \/ exists t', t' ∈ others /\ (t = t' \/ t = awake t').
Proof.
  unfold others_after. rewrite !elem_of_app. intros [H|[H|H]].
  - left. destruct (next o); cbn in H; [|by apply elem_of_nil in H]. apply list_elem_of_singleton in H. by subst.
  - right. right. unfold SignalAll in H. destruct (signalled o); [|by exists t; auto].
    apply list_elem_of_fmap in H as (t' & -> & ?). exists t'. auto.
  - right. left. by apply elem_of_replicate in H as [-> _].
Qed.

Lemma smooth_step_keeps s s' : smooth_step s s' ->
  reachable false s -> open s -> no_failed_drop s -> reachable false s' /\ open s' /\ no_failed_drop s'.
Proof.
  intros (c & [Hc Hd] & Hs) Hr. split; [by eapply rtc_r; [|apply (sys_run _ _ c)]|].
  destruct Hs as [d t ts others o Hp He Hrun]. destruct H as (H1 & H2 & H3). cbn [fst snd] in *.
  destruct (run_frame t c d o Hrun) as [Hf1 Hf2].
  assert (closing t = false) as Ht by (apply H3; rewrite Hp; apply list_elem_of_here).
  destruct (Hf1 Ht) as (F1 & F2 & F3). split.
  - unfold open. cbn [fst snd]. rewrite F1, F2. split_and!; try done.
    intros t' [Hn|[->|(u & Hu & Ht')]]%others_after_elem; [by apply F3|done|].
    assert (closing u = false) as Hcu by (apply H3; rewrite Hp; by apply list_elem_of_further).
    destruct Ht' as [->| ->]; [done|by rewrite closing_awake].
  - unfold no_failed_drop in *. cbn [fst snd] in *. rewrite sumt_after by auto with aegon. cbn [dropping].
    rewrite (sumt_perm _ _ _ Hp) in H0. cbn [sumt foldr] in H0. fold (sumt dropping others) in H0.
    rewrite Hd in Hf2. destruct t; lia.
Qed.

(** ** What a run does *)

(** The column family that a section takes from the queue, with the answer of
    the picker for it. *)
Definition asked (t : Thread) (c : Choice) (d : DB) : list (Z * Pick) :=
  match t with
  | Submitted | BGWait _ =>
      if drop_cf_requests_ d >? 0 then [] else match gc_queue_ d with cf :: _ => [(cf, pick c)] | [] => [] end
  | _ => []
  end.

(** The column families that a section puts into the queue. *)
Definition queued (t : Thread) (d : DB) : list Z :=
  match t with
  | Enqueue cfs => cfs
  | GC _ cf trigger_next => drop (length (gc_queue_ d)) (gc_queue_ (BackgroundGC_end db_options_ d cf trigger_next))
  | _ => []
  end.

(** The column family whose collection a thread executes, outside of the mutex. *)
Definition collecting (t : Thread) : list Z :=
  match t with GC _ cf _ => [cf] | _ => [] end.

(** What the calls that have not run yet will put into the queue. *)
Definition to_queue (t : Thread) : list Z :=
  match t with Enqueue cfs => cfs | _ => [] end.

Definition picked (a : Z * Pick) : list Z :=
  match a.2 with Picked _ => [a.1] | NothingToDo => [] end.

(** A sequence of sections: the answers of the picker and what was put into the
    queue, in order, and the collections that were executed. *)
Inductive smooth_run : sys -> list (Z * Pick) -> list Z -> list Z -> sys -> Prop :=
  | smooth_done s : smooth_run s [] [] [] s
  | smooth_more c d t ts others o a q r s' :
      smooth c -> ts ≡ₚ t :: others -> enabled t others d = true -> run t c d = Some o ->
      smooth_run (db o, others_after o others) a q r s' ->
      smooth_run (d, ts) (asked t c d ++ a) (queued t d ++ q) (collecting t ++ r) s'.

Lemma smooth_run_rtc s a q r s' : smooth_run s a q r s' -> rtc smooth_step s s'.
Proof.
  induction 1 as [|c d t ts others o a q r s' Hc Hp He Hr _ IH]; [done|].
  eapply rtc_l; [|exact IH]. exists c. split; [done|]. by apply (run_thread db_options_ c d t ts others).
Qed.

(** Every sequence of sections is such a run. *)
Lemma rtc_smooth_run s s' : rtc smooth_step s s' -> exists a q r, smooth_run s a q r s'.
Proof.
  induction 1 as [s|s1 s2 s3 (c & Hc & Hs) _ (a & q & r & IH)]; [exists [], [], []; constructor|].
  destruct Hs as [d t ts others o Hp He Hr]. eexists _, _, _. by eapply smooth_more.
Qed.

(** The queue of a section: it takes from its front and adds at its end. *)
Lemma run_queue t c d o : run t c d = Some o -> (asked t c d).*1 ++ gc_queue_ (db o) = gc_queue_ d ++ queued t d.
Proof.
  intros Hr.
  assert (forall p, gc_queue_ (db (finish db_options_ p d)) = gc_queue_ d) as Hfin.
  { intros [|]; unfold finish; [done|]. destruct (MaybeScheduleGC_spec db_options_
      (set_scheduled (set_running d (bg_gc_running_ d - 1)) (bg_gc_scheduled_ d - 1))) as (k & -> & _). done. }
  assert (forall p, p = pick c -> o = BackgroundCallGC db_options_ d p -> (t = Submitted \/ exists cv, t = BGWait cv) ->
    (asked t c d).*1 ++ gc_queue_ (db o) = gc_queue_ d ++ queued t d) as Hstart.
  { intros p -> -> Ht. assert (asked t c d = if drop_cf_requests_ d >? 0 then [] else
      match gc_queue_ d with cf :: _ => [(cf, pick c)] | [] => [] end) as -> by (by destruct Ht as [->|[? ->]]).
    assert (queued t d = []) as -> by (by destruct Ht as [->|[? ->]]). rewrite app_nil_r.
    unfold BackgroundCallGC, PopFirstFromGCQueue. destruct (drop_cf_requests_ d >? 0); [done|]. cbn [gc_queue_ set_running].
    destruct (gc_queue_ d) as [|cf q] eqn:Eq; [|done]. unfold finish.
    match goal with |- context [MaybeScheduleGC _ ?x] => destruct (MaybeScheduleGC_spec db_options_ x) as (k & -> & _) end.
    cbn. by rewrite Eq. }
  destruct t; cbn [GCScheduler.run] in Hr.
  - destruct (bg_gc_scheduled_ d >? 0); cbn in Hr; [|done]. injection Hr as <-. eapply Hstart; auto.
  - injection Hr as <-. eapply Hstart; eauto.
  - injection Hr as <-. unfold TEST_StartGC. cbn. rewrite app_nil_r. by destruct (_ >? 0).
  - injection Hr as <-. cbn. unfold BackgroundGC_end. destruct (_ && _); cbn.
    + by rewrite drop_app_length.
    + by rewrite drop_all, app_nil_r.
  - injection Hr as <-. cbn [asked queued fmap list_fmap app]. by rewrite Hfin, app_nil_r.
  - injection Hr as <-. unfold drop_wait. cbn. rewrite app_nil_r. by destruct (_ >? 0).
  - injection Hr as <-. unfold drop_wait. cbn. rewrite app_nil_r. by destruct (_ >? 0).
  - injection Hr as <-. unfold drop_end. cbn. rewrite app_nil_r. by destruct (drop_ok c).
  - rewrite enqueue_ok in Hr. set (d1 := mkDB _ _ _ _ _ _ _) in Hr.
    destruct (MaybeScheduleGC_spec db_options_ d1) as (k & Hm & _). rewrite Hm in Hr. by injection Hr as <-.
  - injection Hr as <-. unfold WaitBackgroundJob. cbn. by rewrite app_nil_r.
  - injection Hr as <-. cbn. by rewrite app_nil_r.
  - injection Hr as <-. cbn. by rewrite app_nil_r.
  - injection Hr as <-. cbn. by rewrite app_nil_r.
Qed.

(** What the picker chose is what the thread goes on to collect. *)
Lemma run_collecting t c d o : (forall cf cv, t <> TestWait cf cv) -> run t c d = Some o ->
  from_option collecting [] (next o) = asked t c d ≫= picked.
Proof.
  intros Htest Hr.
  assert (forall b d', next (finish db_options_ b d') = None) as Hfin.
  { intros b d'. unfold finish. destruct b; [done|]. by destruct (MaybeScheduleGC _ _). }
  assert (from_option collecting [] (next (BackgroundCallGC db_options_ d (pick c))) =
    (if drop_cf_requests_ d >? 0 then [] else match gc_queue_ d with cf :: _ => [(cf, pick c)] | [] => [] end) ≫= picked) as Hstart.
  { unfold BackgroundCallGC, PopFirstFromGCQueue. destruct (drop_cf_requests_ d >? 0); [done|]. cbn [gc_queue_ set_running].
    destruct (gc_queue_ d); [by rewrite Hfin|]. cbn. unfold picked. cbn. by destruct (pick c). }
  destruct t; cbn [GCScheduler.run] in Hr.
  - destruct (bg_gc_scheduled_ d >? 0); cbn in Hr; [|done]. by injection Hr as <-.
  - by injection Hr as <-.
  - by destruct (Htest cf cv).
  - by injection Hr as <-.
  - injection Hr as <-. by rewrite Hfin.
  - injection Hr as <-. unfold drop_wait. clear Hstart. by destruct (_ >? 0).
  - injection Hr as <-. unfold drop_wait. clear Hstart. by destruct (_ >? 0).
  - injection Hr as <-. unfold drop_end. by destruct (drop_ok c).
  - destruct (MaybeScheduleGC _ _). by injection Hr as <-.
  - injection Hr as <-. unfold WaitBackgroundJob. clear Hstart. by destruct (_ >? 0).
  - by injection Hr as <-.
  - injection Hr as <-. unfold WaitBackgroundJob. clear Hstart. by destruct (_ >? 0).
  - injection Hr as <-. unfold WaitBackgroundJob. clear Hstart. by destruct (_ >? 0).
Qed.

(** The calls that are left to run lose nothing. *)
Lemma run_to_queue t c d o : run t c d = Some o -> to_queue t ⊆+ queued t d /\ from_option to_queue [] (next o) = [].
Proof.
  intros Hr. split; [destruct t; try apply submseteq_nil_l; done|].
  assert (forall b d', next (finish db_options_ b d') = None) as Hfin.
  { intros b d'. unfold finish. destruct b; [done|]. by destruct (MaybeScheduleGC _ _). }
  assert (forall p, from_option to_queue [] (next (BackgroundCallGC db_options_ d p)) = []) as Hstart.
  { intros p. unfold BackgroundCallGC, PopFirstFromGCQueue. destruct (drop_cf_requests_ d >? 0); [done|]. cbn [gc_queue_ set_running].
    destruct (gc_queue_ d); [by rewrite Hfin|]. cbn. by destruct p. }
  destruct t; cbn [GCScheduler.run] in Hr;
    try (injection Hr as <-; unfold drop_wait, drop_end, WaitBackgroundJob; rewrite ?Hfin, ?Hstart; clear Hstart; cbn;
      by repeat match goal with |- context [if ?b then _ else _] => destruct b end).
  - destruct (bg_gc_scheduled_ d >? 0); cbn in Hr; [|done]. injection Hr as <-. apply Hstart.
  - injection Hr as <-. clear Hstart. unfold TEST_StartGC, BackgroundGC_begin. destruct (_ >? 0); [done|]. by destruct (pick c).
  - destruct (MaybeScheduleGC _ _). by injection Hr as <-.
Qed.

(** A list for each thread, which neither a wake-up nor a new job changes. *)
Lemma after_bind (f : Thread -> list Z) o others :
  (forall t, f (awake t) = f t) -> f Submitted = [] ->
  others_after o others ≫= f = from_option f [] (next o) ++ (others ≫= f).
Proof.
  intros Ha Hs. unfold others_after. rewrite !bind_app.
  assert (replicate (submitted o) Submitted ≫= f = []) as ->.
  { induction (submitted o) as [|n IH]; [done|]. cbn [replicate]. by rewrite bind_cons, Hs, IH. }
  rewrite app_nil_r. f_equal.
  - destruct (next o); [|done]. cbn. by rewrite app_nil_r.
  - unfold SignalAll. destruct (signalled o); [|done].
    induction others as [|t ts IH]; [done|]. rewrite fmap_cons, !bind_cons. by rewrite Ha, IH.
Qed.

(** The account of a run without the calls of the tests. *)
Lemma smooth_run_account s a q r s' : smooth_run s a q r s' -> reachable false s -> open s -> no_failed_drop s ->
  a.*1 ++ gc_queue_ s'.1 = gc_queue_ s.1 ++ q /\
  s.2 ≫= to_queue ⊆+ q ++ (s'.2 ≫= to_queue) /\
  r ++ (s'.2 ≫= collecting) ≡ₚ (s.2 ≫= collecting) ++ (a ≫= picked).
Proof.
  induction 1 as [s|c d t ts others o a q r s' Hc Hp He Hr Hrun IH]; intros H1 H2 H3.
  { cbn. rewrite !app_nil_r. done. }
  assert (smooth_step (d, ts) (db o, others_after o others)) as Hstep.
  { exists c. split; [done|]. by apply (run_thread db_options_ c d t ts others). }
  destruct (smooth_step_keeps _ _ Hstep H1 H2 H3) as (H1' & H2' & H3').
  destruct (IH H1' H2' H3') as (I1 & I2 & I3). cbn [fst snd] in *.
  assert (forall cf cv, t <> TestWait cf cv) as Htest.
  { intros cf cv ->. pose proof (reachable_busy _ H1) as [Hb _]. cbn [snd] in Hb. rewrite (sumt_perm _ _ _ Hp) in Hb.
    cbn in Hb. pose proof (sumt_nonneg in_test others in_test_nonneg). unfold sumt in *. lia. }
  assert (forall f : Thread -> list Z, ts ≫= f ≡ₚ f t ++ (others ≫= f)) as Hbind by (intros f; by rewrite Hp).
  rewrite (after_bind to_queue) in I2 by (done || by intros []).
  rewrite (after_bind collecting) in I3 by (done || by intros []).
  destruct (run_to_queue t c d o Hr) as [Hq1 Hq2]. rewrite Hq2 in I2. rewrite (run_collecting t c d o Htest Hr) in I3.
  split_and!.
  - rewrite fmap_app, <- app_assoc, I1, !app_assoc. by rewrite (run_queue t c d o Hr).
  - rewrite Hbind, <- app_assoc. by apply submseteq_app.
  - rewrite Hbind, bind_app, <- app_assoc, I3. by solve_Permutation.
Qed.

(** ** A drop that is never taken back *)

(** A drop is counted that no thread is executing; [n] jobs wait. *)
Definition drop_pending (n : Z) (s : sys) : Prop :=
  sys_ok db_options_ s /\ sumt dropping s.2 < drop_cf_requests_ s.1 /\ n <= sumt waiting s.2.

Lemma drop_pending_step tests n s s' : sys_step tests s s' -> drop_pending n s -> drop_pending n s'.
Proof.
  intros Hs (Hok & Hlt & Hw). split; [by eapply step_ok|].
  destruct Hs as [c ? ? [d t ts others o Hp He Hrun]|d ts t Ht]; cbn [fst snd] in *.
  - rewrite (sumt_perm dropping _ _ Hp) in Hlt. rewrite (sumt_perm waiting _ _ Hp) in Hw.
    cbn [sumt foldr] in Hlt, Hw. fold (sumt dropping others) in Hlt. fold (sumt waiting others) in Hw.
    destruct (run_frame t c d o Hrun) as [_ Hf]. rewrite !sumt_after by auto with aegon. cbn [dropping waiting].
    pose proof (sumt_nonneg dropping others dropping_nonneg). pose proof (dropping_nonneg t).
    split; [destruct t; try lia; destruct (drop_ok c); lia|].
    assert (waiting t <= match next o with Some t' => waiting t' | None => 0 end) as Hwt; [|lia].
    destruct (Z.eq_dec (waiting t) 0) as [->|Hne]; [destruct (next o) as [[]|]; cbn; lia|].
    assert ((drop_cf_requests_ d >? 0) = true) as E by lia.
    destruct t; cbn in Hne; try done; cbn [GCScheduler.run] in Hrun; unfold BackgroundCallGC in Hrun; rewrite E in Hrun.
    + destruct (bg_gc_scheduled_ d >? 0); cbn in Hrun; [|done]. by injection Hrun as <-.
    + by injection Hrun as <-.
  - cbn [sumt foldr]. fold (sumt dropping ts) (sumt waiting ts).
    destruct t as [| |? []| | | | | | |[]| | |]; cbn in Ht; try done; cbn; lia.
Qed.

Lemma drop_pending_steps tests n s s' : rtc (sys_step tests) s s' -> drop_pending n s -> drop_pending n s'.
Proof. induction 1 as [|x y z Hxy _ IH]; [done|]. intros H. by eapply IH, drop_pending_step. Qed.

(** ** Jobs that the pool discards *)

Definition discarded (s : sys) : Prop :=
  sys_ok db_options_ s /\ pool_joined s.1 = true /\ Submitted ∈ s.2.

Lemma discarded_step tests s s' : sys_step tests s s' -> discarded s -> discarded s'.
Proof.
  intros Hs (Hok & Hj & Hin). split; [by eapply step_ok|].
  destruct Hs as [c ? ? [d t ts others o Hp He Hrun]|d ts t Ht]; cbn [fst snd] in *;
    [|split; [done|by apply list_elem_of_further]].
  split.
  - destruct (run_frame t c d o Hrun) as [Hf _]. destruct (closing t) eqn:Hc.
    + destruct t; cbn in Hc; try done; cbn in Hrun; by injection Hrun as <-.
    + destruct Hf as (_ & -> & _); done.
  - rewrite Hp in Hin. apply elem_of_cons in Hin as [<-|Hin]; [cbn in He; by rewrite Hj in He|].
    unfold others_after. rewrite !elem_of_app. right. left. unfold SignalAll.
    destruct (signalled o); [|done]. apply list_elem_of_fmap. by exists Submitted.
Qed.

Lemma discarded_steps tests s s' : rtc (sys_step tests) s s' -> discarded s -> discarded s'.
Proof. induction 1 as [|x y z Hxy _ IH]; [done|]. intros H. by eapply IH, discarded_step. Qed.

(** As long as a job waits, nobody returns from waiting for the jobs. *)
Lemma jobs_wait d ts w : sys_ok db_options_ (d, ts) -> 0 < sumt waiting ts ->
  next (WaitBackgroundJob d w) = Some (w Asleep).
Proof.
  intros [_ H2 _ _ _ _ _ _] Hpos. unfold WaitBackgroundJob. cbn [next fst snd] in *.
  assert (sumt waiting ts <= sumt job ts) by (apply sumt_le; by intros []).
  by assert ((bg_gc_scheduled_ d >? 0) = true) as -> by lia.
Qed.

End Spec.

(** ** Properties *)

(** C18: in every state that any interleaving of the calls reaches, no assertion
    can fail; the counters count the collections and the jobs; at most
    [max_background_gc] jobs are submitted; every job that waits to start will
    find a column family in the queue; no collection is inside its body while
    the base database drops column families; and no thread sleeps on a
    condition that holds. *)
Theorem scheduler_safe db_options_ tests d ts :
  reachable db_options_ tests (d, ts) ->
  (forall t c, t ∈ ts -> exists o, run db_options_ t c d = Some o) /\
  bg_gc_running_ d = sumt running ts /\
  bg_gc_scheduled_ d = sumt job ts /\
  sumt worker ts <= Z.max 0 (max_background_gc db_options_) /\
  sumt waiting ts <= zlen (gc_queue_ d) /\
  (Dropping ∈ ts -> forall t, t ∈ ts -> running t = 0) /\
  Forall (sleeper_ok d) ts.
Proof.
  intros Hr%sched_reachable_ok. pose proof Hr as [H1 H2 H3 H4 H5 H6 H7 H8]. cbn [fst snd] in *.
  split_and!; try done; try lia.
  - intros t c (l & r & ->)%list_elem_of_split. apply (run_total db_options_ t c d (l ++ r)).
    eapply sys_ok_perm; [|exact Hr]. by rewrite Permutation_middle.
  - intros Hd t Ht. specialize (H7 Hd). pose proof (sumt_in running ts t running_nonneg Ht).
    pose proof (running_nonneg t). lia.
Qed.

(** C26: while nothing new is called, nobody closes the database, no drop has
    failed or fails and the picker asks for no further round, the scheduler
    terminates: every sequence of sections of code ends, and where none can go on
    every call has returned and all the counters are back to zero. In such a run
    the picker was asked for the queued column families, those that calls under way
    put into the queue included, in the order of the queue, each one as often as it
    was put there; and the collections that were executed are those that were under
    way and those for which the picker found files, each one once. *)
Theorem scheduler_quiesces db_options_ s :
  disable_background_gc db_options_ = false -> 0 < max_background_gc db_options_ ->
  reachable db_options_ false s -> open s -> no_failed_drop s ->
  Acc (fun s' s => smooth_step db_options_ s s') s /\
  (forall s', rtc (smooth_step db_options_) s s' -> exists a q r, smooth_run db_options_ s a q r s') /\
  forall a q r s', smooth_run db_options_ s a q r s' -> (forall s'', ~ smooth_step db_options_ s' s'') ->
    a.*1 = gc_queue_ s.1 ++ q /\ s.2 ≫= to_queue ⊆+ q /\
    r ≡ₚ (s.2 ≫= collecting) ++ (a ≫= picked) /\
    s'.2 = [] /\ gc_queue_ s'.1 = [] /\ unscheduled_gc_ s'.1 = 0 /\ bg_gc_scheduled_ s'.1 = 0 /\
    bg_gc_running_ s'.1 = 0 /\ drop_cf_requests_ s'.1 = 0.
Proof.
  intros Hdis Hmax Hr Ho Hn. split; [|split; [apply rtc_smooth_run|]].
  { pose proof (calm_terminates db_options_ s (sched_reachable_ok _ _ _ Hr)) as Hacc. clear Hr Ho Hn.
    induction Hacc as [s _ IH]. constructor. intros s' (c & [Hc _] & Hs). apply IH. by exists c. }
  intros a q r s' Hrun Hstuck. pose proof (smooth_run_rtc _ _ _ _ _ _ Hrun) as Hs.
  destruct (smooth_run_account _ _ _ _ _ _ Hrun Hr Ho Hn) as (Hacc1 & Hacc2 & Hacc3). clear Hrun.
  assert (reachable db_options_ false s' /\ open s' /\ no_failed_drop s') as (Hr' & Ho' & Hn').
  { clear Hstuck Hacc1 Hacc2 Hacc3. induction Hs as [|x y z Hxy _ IH]; [done|].
    destruct (smooth_step_keeps db_options_ x y Hxy Hr Ho Hn) as (? & ? & ?). by apply IH. }
  clear Hs Hr Ho Hn. destruct s' as [d ts].
  pose proof (sched_reachable_ok _ _ _ Hr') as Hok. pose proof (reachable_busy _ _ Hr') as [_ Hb].
  assert (ts = []) as ->.
  { destruct (decide (ts = [])) as [|Hne]; [done|exfalso].
    destruct (someone_enabled db_options_ d ts Hok Ho' Hn' Hne) as (t & (l1 & l2 & ->)%list_elem_of_split & He).
    assert (sys_ok db_options_ (d, t :: l1 ++ l2)) as Hok'.
    { eapply sys_ok_perm; [|exact Hok]. by rewrite Permutation_middle. }
    destruct (run_total db_options_ t (mkChoice NothingToDo true) d (l1 ++ l2) Hok') as (o & Hrun).
    eapply Hstuck. exists (mkChoice NothingToDo true). split; [by split|].
    apply (run_thread db_options_ _ d t _ (l1 ++ l2) o); [by rewrite Permutation_middle|apply He|done]. }
  destruct Hok as [H1 H2 H3 H4 _ _ _ _], Ho' as (Hsh & _). unfold no_failed_drop in Hn'. cbn in *.
  assert (unscheduled_gc_ d = 0) as Hu.
  { destruct (Z.eq_dec (unscheduled_gc_ d) 0) as [|Hne]; [done|]. specialize (Hb ltac:(lia) Hsh Hdis Hmax). lia. }
  assert (gc_queue_ d = []) as Hq by (destruct (gc_queue_ d); [done|]; rewrite zlen_cons in H3; zlia).
  rewrite ?Hq, ?app_nil_r in *. split_and!; done.
Qed.

(** After a drop that the base database refused no collection starts any
    more, for [drop_cf_requests_] is not taken back: every job that waits goes
    on waiting, and [WaitBackgroundJob] and [CloseImpl] do not return as long as
    there is one. *)
Theorem failed_drop_stops_gc db_options_ tests c d others o d' ts' :
  reachable db_options_ tests (d, Dropping :: others) ->
  drop_ok c = false -> run db_options_ Dropping c d = Some o ->
  rtc (sys_step db_options_ tests) (db o, others_after o others) (d', ts') ->
  0 < drop_cf_requests_ d' /\
  sumt waiting others <= sumt waiting ts' /\
  (forall t c o, running t = 0 -> run db_options_ t c d' = Some o ->
     match next o with Some t' => running t' = 0 | None => True end) /\
  (0 < sumt waiting others -> forall waiting', next (WaitBackgroundJob d' waiting') = Some (waiting' Asleep)).
Proof.
  intros Hr Hc Hrun Hrtc. cbn [run] in Hrun. injection Hrun as <-. unfold drop_end in Hrtc. rewrite Hc in Hrtc.
  assert (drop_pending db_options_ (sumt waiting others) (d, others)) as H0.
  { pose proof (sched_reachable_ok _ _ _ Hr) as Hok. pose proof (drop_end_ok db_options_ false d others Hok) as Hok'.
    cbn in Hok'. rewrite app_nil_r in Hok'. destruct Hok as [_ _ _ _ _ H6 _ _]. cbn in H6.
    split; [exact Hok'|]. cbn [fst snd]. unfold sumt in *. lia. }
  cbn in Hrtc. rewrite app_nil_r in Hrtc.
  pose proof (drop_pending_steps _ _ _ _ _ Hrtc H0) as (Hok & Hlt & Hw). cbn [fst snd] in *.
  pose proof (sumt_nonneg dropping ts' dropping_nonneg). split; [lia|]. split; [done|].
  assert ((drop_cf_requests_ d' >? 0) = true) as E by lia. split.
  - intros t c' o Ht Ho. destruct t; cbn in Ht; try done; cbn [run] in Ho;
      unfold BackgroundCallGC, TEST_StartGC, drop_wait, drop_end, WaitBackgroundJob in Ho; rewrite ?E in Ho.
    1: destruct (bg_gc_scheduled_ d' >? 0); cbn in Ho; [|done].
    all: try (injection Ho as <-; cbn; repeat match goal with |- context [if ?b then _ else _] => destruct b end; done).
    destruct (MaybeScheduleGC _ _). by injection Ho as <-.
  - intros Hpos w. eapply jobs_wait; [exact Hok|lia].
Qed.

(** Closing the database while a submitted job has not been started never
    returns: the thread pool discards the job, so that [bg_gc_scheduled_], which
    [CloseImpl] then waits for, stays above zero, and its column family stays in
    the queue. *)
Theorem close_discards_jobs db_options_ tests d others c o d' ts' :
  reachable db_options_ tests (d, CloseStart :: others) -> Submitted ∈ others ->
  run db_options_ CloseStart c d = Some o ->
  rtc (sys_step db_options_ tests) (db o, others_after o others) (d', ts') ->
  Submitted ∈ ts' /\ gc_queue_ d' <> [] /\ 0 < bg_gc_scheduled_ d' /\
  forall waiting', next (WaitBackgroundJob d' waiting') = Some (waiting' Asleep).
Proof.
  intros Hr Hin Hrun Hrtc. pose proof (sched_reachable_ok _ _ _ Hr) as Hok.
  assert (discarded db_options_ (db o, others_after o others)) as H0.
  { split; [by eapply run_ok|]. cbn in Hrun. injection Hrun as <-. split; [done|].
    cbn. rewrite app_nil_r. by apply list_elem_of_further. }
  destruct (discarded_steps _ _ _ _ Hrtc H0) as (Hok' & _ & Hin'). cbn [fst snd] in *.
  pose proof (sumt_in waiting ts' Submitted waiting_nonneg Hin') as Hw. cbn [waiting] in Hw.
  assert (sumt waiting ts' <= sumt job ts') by (apply sumt_le; by intros []).
  split; [done|]. pose proof Hok' as [_ H2 H3 H4 _ _ _ _]. cbn [fst snd] in *. split_and!.
  - intros E. rewrite E, zlen_nil in H3. lia.
  - lia.
  - intros w. eapply jobs_wait; [exact Hok'|lia].
Qed.

(** ** Examples *)

(** Two column families are queued, and one job may run at a time. *)
Definition example_queue : DB := mkDB [7; 8] 1 0 1 0 false false.

Lemma example_queued tests : reachable TitanDBOptions_default tests (example_queue, [Submitted]).
Proof.
  eapply rtc_l; [by apply (sys_call _ _ _ _ (Enqueue [7; 8]))|]. eapply rtc_l; [|apply rtc_refl].
  apply (sys_run _ _ (mkChoice NothingToDo true)).
  by apply (run_thread TitanDBOptions_default _ DB_init (Enqueue [7; 8]) _ []
    (mkOut None example_queue 1 false)).
Qed.

(** A drop begins while the job has not started. *)
Definition example_drop : DB := mkDB [7; 8] 1 0 1 1 false false.

Lemma example_dropping tests : reachable TitanDBOptions_default tests (example_drop, [Dropping; Submitted]).
Proof.
  eapply rtc_r; [eapply rtc_r; [apply example_queued|by apply (sys_call _ _ _ _ DropStart)]|].
  apply (sys_run _ _ (mkChoice NothingToDo true)).
  by apply (run_thread TitanDBOptions_default _ example_queue DropStart _ [Submitted]
    (mkOut (Some Dropping) example_drop 0 false)).
Qed.

Lemma scheduler_safe_witness : Forall (sleeper_ok example_drop) [Dropping; Submitted].
Proof. exact (proj2 (proj2 (proj2 (proj2 (proj2 (proj2 (scheduler_safe _ _ _ _ (example_dropping false)))))))). Defined.

Lemma scheduler_quiesces_witness :
  Acc (fun s' s => smooth_step TitanDBOptions_default s s') (example_queue, [Submitted]).
Proof.
  refine (proj1 (scheduler_quiesces TitanDBOptions_default _ eq_refl eq_refl (example_queued false) _ eq_refl)).
  split; [reflexivity|]. split; [reflexivity|]. intros t [->|Ht]%elem_of_cons; [reflexivity|by apply elem_of_nil in Ht].
Defined.

Lemma failed_drop_stops_gc_witness :
  next (WaitBackgroundJob example_drop JobsWait) = Some (JobsWait Asleep).
Proof.
  refine (proj2 (proj2 (proj2 (failed_drop_stops_gc TitanDBOptions_default false
    (mkChoice NothingToDo false) example_drop [Submitted] _ example_drop [Submitted] (example_dropping false) eq_refl eq_refl _))) _ JobsWait).
  - apply rtc_refl.
  - reflexivity.
Defined.

Lemma close_discards_jobs_witness :
  let d := set_closing example_queue true true in
  next (WaitBackgroundJob d CloseWait) = Some (CloseWait Asleep).
Proof.
  refine (proj2 (proj2 (proj2 (close_discards_jobs TitanDBOptions_default false example_queue [Submitted]
    (mkChoice NothingToDo true) _ (set_closing example_queue true true) [CloseJoin; Submitted] _ _ eq_refl _))) CloseWait).
  - eapply rtc_r; [apply example_queued|by apply (sys_call _ _ _ _ CloseStart)].
  - apply list_elem_of_here.
  - apply rtc_refl.
Defined.
