(* ===== verification/Database.v ===== *)
(** * Database: opening and closing, column families, options

    The part of [db_impl.h] and [db_impl.cc] that puts the others together:
    [TitanDBImpl] and [Open], the creation and destruction of column families,
    [SetOptions] and the options and properties that can be asked for, and
    [InitializeGC] of [db_impl_gc.cc] as a whole. What RocksDB and the file
    system answer is an argument. [None] is a failed assertion or an index out
    of range. The log, and the threads that purge files and print statistics
    besides their existence, are not modelled. *)
From stdpp Require Import pretty.
From S2P Require Import Prelude Coding BitMap BlobFileMeta TitanStats Options VersionEdit BlobStorage EditCollector BlobFileSet Collectors GCStats GCScheduler.

Local Open Scope Z_scope.
Local Open Scope aegon_scope.

(** ** Column families *)

(** [TitanCFDescriptor]: the options of Titan, and those of [ColumnFamilyOptions]
    that are looked at. A table factory is its identity. *)
Record TitanCFDescriptor : Type := mkDescriptor {
  name : string;
  options : TitanCFOptions;
  level_compaction_dynamic_level_bytes : bool;
  disable_auto_compactions : bool;
  has_compaction_filter : bool;
  table_factory : Z }.

Record TitanTableFactory : Type := mkFactory {
  base_factory_ : Z;
  factory_run_mode : TitanBlobRunMode }.

Definition TitanTableFactory_new (desc : TitanCFDescriptor) : TitanTableFactory :=
  mkFactory (table_factory desc) (blob_run_mode (options desc)).

Inductive CollectorFactory : Type :=
  | BlobFileSizeCollectorFactory
  | BlobValidationCollectorFactory.

(** What the base database is given for a column family: collectors besides the
    user's, and whether Titan's filter stands before the user's. *)
Record ColumnFamilyDescriptor : Type := mkBase {
  base_name : string;
  no_compactions : bool;
  collector_factories : list CollectorFactory;
  titan_factory : TitanTableFactory;
  titan_filter : bool }.

Definition base_descriptor (no_compactions : bool) (desc : TitanCFDescriptor) : ColumnFamilyDescriptor :=
  mkBase (name desc) no_compactions
    (BlobFileSizeCollectorFactory :: if use_bitmap (options desc) then [BlobValidationCollectorFactory] else [])
    (TitanTableFactory_new desc) (has_compaction_filter desc).

Record TitanColumnFamilyInfo : Type := mkInfo {
  cf_name : string;
  immutable_cf_options : ImmutableTitanCFOptions;
  mutable_cf_options : MutableTitanCFOptions;
  base_table_factory : Z;
  titan_table_factory : TitanTableFactory }.

Definition cf_info_of (desc : TitanCFDescriptor) : TitanColumnFamilyInfo :=
  mkInfo (name desc) (ImmutableTitanCFOptions_of (options desc)) (MutableTitanCFOptions_of (options desc))
    (table_factory desc) (TitanTableFactory_new desc).

(** ** State *)

(** [lock_] and [db_] say whether the directory is locked and the base database
    is open; [compacting] are the column families with automatic compactions,
    [submitted] counts the jobs given to the thread pool. *)
Record TitanDBImpl : Type := mkTitan {
  lock_ : bool;
  db_ : bool;
  handles : list Z;
  blob_file_set_ : BlobFileSet;
  titan_dir : Disk;
  cf_info_ : gmap Z TitanColumnFamilyInfo;
  hardware_gc_driver_ : option string;
  compaction_preprocess : bool;
  thread_pool_ : option Z;
  gc : DB;
  submitted : nat;
  initialized_ : bool;
  compacting : list Z;
  thread_purge_obsolete_ : bool;
  thread_dump_stats_ : bool }.

Definition set_base (t : TitanDBImpl) (lock db : bool) (hs : list Z) : TitanDBImpl :=
  mkTitan lock db hs (blob_file_set_ t) (titan_dir t) (cf_info_ t) (hardware_gc_driver_ t) (compaction_preprocess t)
    (thread_pool_ t) (gc t) (submitted t) (initialized_ t) (compacting t) (thread_purge_obsolete_ t) (thread_dump_stats_ t).

Definition set_blob_files (t : TitanDBImpl) (s : BlobFileSet) (d : Disk) : TitanDBImpl :=
  mkTitan (lock_ t) (db_ t) (handles t) s d (cf_info_ t) (hardware_gc_driver_ t) (compaction_preprocess t)
    (thread_pool_ t) (gc t) (submitted t) (initialized_ t) (compacting t) (thread_purge_obsolete_ t) (thread_dump_stats_ t).

Definition set_cf_info (t : TitanDBImpl) (info : gmap Z TitanColumnFamilyInfo) : TitanDBImpl :=
  mkTitan (lock_ t) (db_ t) (handles t) (blob_file_set_ t) (titan_dir t) info (hardware_gc_driver_ t) (compaction_preprocess t)
    (thread_pool_ t) (gc t) (submitted t) (initialized_ t) (compacting t) (thread_purge_obsolete_ t) (thread_dump_stats_ t).

Definition set_workers (t : TitanDBImpl) (driver : option string) (preprocess : bool) (pool : option Z) : TitanDBImpl :=
  mkTitan (lock_ t) (db_ t) (handles t) (blob_file_set_ t) (titan_dir t) (cf_info_ t) driver preprocess
    pool (gc t) (submitted t) (initialized_ t) (compacting t) (thread_purge_obsolete_ t) (thread_dump_stats_ t).

Definition set_gc (t : TitanDBImpl) (d : DB) (n : nat) : TitanDBImpl :=
  mkTitan (lock_ t) (db_ t) (handles t) (blob_file_set_ t) (titan_dir t) (cf_info_ t) (hardware_gc_driver_ t) (compaction_preprocess t)
    (thread_pool_ t) d (submitted t + n) (initialized_ t) (compacting t) (thread_purge_obsolete_ t) (thread_dump_stats_ t).

Definition set_running (t : TitanDBImpl) (initialized : bool) (cfs : list Z) (purge dump : bool) : TitanDBImpl :=
  mkTitan (lock_ t) (db_ t) (handles t) (blob_file_set_ t) (titan_dir t) (cf_info_ t) (hardware_gc_driver_ t) (compaction_preprocess t)
    (thread_pool_ t) (gc t) (submitted t) initialized cfs purge dump.

(** The constructor, over the directory [d]. The set of blob files is made when
    the database is opened; until then an empty one stands for the null pointer. *)
Definition TitanDBImpl_new (d : Disk) : TitanDBImpl :=
  mkTitan false false [] (BlobFileSet_new None 0) d ∅ None false None DB_init 0 false [] false false.

(** ** Calls with an early return *)

Definition Action : Type := TitanDBImpl -> option (Status * TitanDBImpl).

Definition returns (s : Status) : Action := fun t => Some (s, t).

Definition does (f : TitanDBImpl -> TitanDBImpl) : Action := fun t => Some (OK, f t).

(** [s = a(); if (!s.ok()) return s;] *)
Definition and_then (a b : Action) : Action := fun t => '(s, t) ← a t; if negb (ok s) then Some (s, t) else b t.

Notation "a >>> b" := (and_then a b) (at level 60, right associativity).

(** What RocksDB and the file system answer. *)
Record Answers : Type := mkAnswers {
  create_db_dir : Status;
  create_logger : Status;
  create_dir : Status;
  new_directory : Status;
  lock_file : Status;
  base_open : list ColumnFamilyDescriptor -> res (list Z);
  set_io : IO;
  flush : Z -> Status;
  properties_of_all_tables : Z -> res (list TableProperties);
  enable_auto_compaction : Status }.

Section Database.
Context `{C : Comparator}.
Context (db_options_ : TitanDBOptions).

(** ** Opening *)

(** The constructor's directory. *)
Definition dirname_of (dbname : string) : string :=
  if String.eqb (dirname db_options_) "" then (dbname ++ "/titandb")%string else dirname db_options_.

Definition ValidateOptions (column_families : list TitanCFDescriptor) : Status :=
  if existsb (fun cf => level_merge (options cf) && negb (level_compaction_dynamic_level_bytes cf)) column_families
  then InvalidArgument else OK.

(** The driver of the card, for the options of the first column family. *)
Definition set_up_offloading (descs : list TitanCFDescriptor) : Action := fun t =>
  desc ← head descs;
  if gc_offload (options desc) then
    _ ← assert (use_bitmap (options desc));
    Some (OK, set_workers t (Some (binary_file_path (options desc))) true (thread_pool_ t))
  else Some (OK, t).

Definition set_up_thread_pool : Action := does (fun t =>
  if negb (disable_background_gc db_options_) && (0 <? max_background_gc db_options_)
  then set_workers t (hardware_gc_driver_ t) (compaction_preprocess t) (Some (max_background_gc db_options_))
  else t).

Definition open_base (io : Answers) (descs : list TitanCFDescriptor) : Action := fun t =>
  match base_open io (map (base_descriptor true) descs) with
  | Fail s => Some (s, set_base t (lock_ t) false [])
  | Ret hs => _ ← assert (bool_decide (length hs = length descs)); Some (OK, set_base t (lock_ t) true hs)
  end.

(** [emplace] and [operator[]] with the same keys. *)
Definition register (t : TitanDBImpl) (descs : list TitanCFDescriptor) : TitanDBImpl :=
  set_cf_info t
    (foldl (fun info (x : Z * TitanCFDescriptor) => insert_new info x.1 (cf_info_of x.2)) (cf_info_ t)
       (zip (handles t) descs)).

Definition cf_options_map (hs : list Z) (descs : list TitanCFDescriptor) : gmap Z TitanCFOptions :=
  foldl (fun m (x : Z * TitanCFDescriptor) => <[x.1 := options x.2]> m) ∅ (zip hs descs).

Definition cf_with_compaction (hs : list Z) (descs : list TitanCFDescriptor) : list Z :=
  (filter (fun x : Z * TitanCFDescriptor => disable_auto_compactions x.2 = false) (zip hs descs)).*1.

Definition open_blob_files (io : Answers) (descs : list TitanCFDescriptor) : Action := fun t =>
  '(s, set, d) ← BlobFileSet.Open (set_io io) (blob_file_set_ t) (titan_dir t) (cf_options_map (handles t) descs);
  Some (s, set_blob_files t set d).

(** [InitializeGC]: the live sizes of all column families, and a collection of
    each. *)
Fixpoint initialize_cfs (io : Answers) (s : BlobFileSet) (cf_handles : list Z) : option (Status * BlobFileSet) :=
  match cf_handles with
  | [] => Some (OK, s)
  | cf_id :: cf_handles =>
      if negb (ok (flush io cf_id)) then Some (flush io cf_id, s) else
      match properties_of_all_tables io cf_id with
      | Fail st => Some (st, s)
      | Ret collection =>
          '(st, s) ← GCStats.InitializeGC s cf_id collection;
          if negb (ok st) then Some (st, s) else initialize_cfs io s cf_handles
      end
  end.

Definition InitializeGC (io : Answers) : Action := fun t =>
  _ ← assert (negb (initialized_ t));
  '(s, set) ← initialize_cfs io (blob_file_set_ t) (handles t);
  let t := set_blob_files t set (titan_dir t) in
  if negb (ok s) then Some (s, t) else
  let '(d, n) := MaybeScheduleGC db_options_ (foldl AddToGCQueue (gc t) (handles t)) in
  Some (OK, set_gc t d n).

Definition StartBackgroundTasks (t : TitanDBImpl) : TitanDBImpl :=
  set_running t (initialized_ t) (compacting t)
    (thread_purge_obsolete_ t || (0 <? purge_obsolete_files_period_sec db_options_))
    (thread_dump_stats_ t || (0 <? titan_stats_dump_period_sec db_options_)).

(** From [InitializeGC] on; its status is overwritten. *)
Definition start (io : Answers) (descs : list TitanCFDescriptor) : Action := fun t =>
  '(_, t) ← InitializeGC io t;
  let t := set_running t true (compacting t) (thread_purge_obsolete_ t) (thread_dump_stats_ t) in
  let s := enable_auto_compaction io in
  if negb (ok s) then Some (s, t) else
  let t := set_running t true (cf_with_compaction (handles t) descs) (thread_purge_obsolete_ t) (thread_dump_stats_ t) in
  Some (OK, StartBackgroundTasks t).

(** [stats] and [garbage] are for the new [BlobFileSet]. *)
Definition OpenImpl (io : Answers) (stats : TitanStats) (garbage : Z) (descs : list TitanCFDescriptor) : Action :=
  returns (ValidateOptions descs) >>> returns (create_db_dir io) >>> returns (create_logger io) >>>
  returns (create_dir io) >>> returns (new_directory io) >>> returns (lock_file io) >>>
  does (fun t => set_blob_files (set_base t true (db_ t) (handles t)) (BlobFileSet_new stats garbage) (titan_dir t)) >>>
  set_up_offloading descs >>> set_up_thread_pool >>> open_base io descs >>>
  does (fun t => register t descs) >>> open_blob_files io descs >>> start io descs.

(** With the clean-up after a failure. [has_handles]: the caller gave a place for
    the handles. *)
Definition Open (io : Answers) (stats : TitanStats) (garbage : Z) (descs : list TitanCFDescriptor) (has_handles : bool) : Action := fun t =>
  if negb has_handles then Some (InvalidArgument, t) else
  '(s, t) ← OpenImpl io stats garbage descs t;
  if ok s then Some (s, t) else
  _ ← assert (bool_decide (handles t = []) || db_ t);
  Some (s, set_base t false false []).

(** [TitanDB::Open] with descriptors; without a database the pointer is null. *)
Definition TitanDB_Open (io : Answers) (stats : TitanStats) (garbage : Z) (descs : list TitanCFDescriptor) (has_handles : bool)
    (d : Disk) : option (Status * option TitanDBImpl) :=
  '(s, impl) ← Open io stats garbage descs has_handles (TitanDBImpl_new d);
  Some (s, if ok s then Some impl else None).

(** [Close] after [CloseImpl], which [GCScheduler] models; the argument is the
    status of closing the base database. *)
Definition Close (base_close : Status) (t : TitanDBImpl) : Status * TitanDBImpl :=
  (if db_ t then base_close else OK,
   set_base (set_running t (initialized_ t) (compacting t) false (thread_dump_stats_ t)) false false (handles t)).

(** ** Column families *)

(** [create] is [DBImpl::CreateColumnFamilies], which returns the handles made
    before a failure, too. *)
Definition CreateColumnFamilies (create : list ColumnFamilyDescriptor -> Status * list Z)
    (descs : list TitanCFDescriptor) (t : TitanDBImpl) : option (Status * list Z * TitanDBImpl) :=
  let '(s, hs) := create (map (fun desc => base_descriptor (disable_auto_compactions desc) desc) descs) in
  _ ← assert (bool_decide (length hs = length descs));
  if ok s then
    let column_families :=
      foldl (fun m (x : Z * TitanCFDescriptor) => insert_new m x.1 (options x.2)) ∅ (zip hs descs) in
    let t := set_cf_info t
      (foldl (fun info (x : Z * TitanCFDescriptor) => insert_new info x.1 (cf_info_of x.2)) (cf_info_ t) (zip hs descs)) in
    Some (s, hs, set_blob_files t (AddColumnFamilies (blob_file_set_ t) column_families) (titan_dir t))
  else Some (s, hs, t).

(** [base] is the status of destroying the handle in the base database. *)
Definition DestroyColumnFamilyHandle (base : Status) (cf_id : option Z) (t : TitanDBImpl) : option (Status * TitanDBImpl) :=
  match cf_id with
  | None => Some (InvalidArgument, t)
  | Some cf_id =>
      if negb (ok base) then Some (base, t) else
      let '(destroy_status, set) := MaybeDestroyColumnFamily (blob_file_set_ t) cf_id in
      let t := set_blob_files t set (titan_dir t) in
      if ok destroy_status then
        _ ← assert (bool_decide (is_Some (cf_info_ t !! cf_id)));
        Some (base, set_cf_info t (delete cf_id (cf_info_ t)))
      else Some (base, t)
  end.

(** ** Options and properties *)

Definition blob_run_mode_string_map (s : string) : option TitanBlobRunMode :=
  if String.eqb s "kNormal" then Some mode_kNormal
  else if String.eqb s "kReadOnly" then Some mode_kReadOnly
  else if String.eqb s "kFallback" then Some mode_kFallback else None.

(** The three places that keep the mode of a column family. *)
Definition set_run_mode (cf_id : Z) (mode : TitanBlobRunMode) (t : TitanDBImpl) : option TitanDBImpl :=
  info ← cf_info_ t !! cf_id;
  let info := mkInfo (cf_name info) (immutable_cf_options info) (mkMutable mode) (base_table_factory info)
                (mkFactory (base_factory_ (titan_table_factory info)) mode) in
  let s := blob_file_set_ t in
  let s :=
    match GetBlobStorage s cf_id with
    | Some bs => set_column_families s (<[cf_id := SetBlobRunMode bs mode]> (column_families_ s)) (fs_stats_ s)
    | None => s
    end in
  Some (set_cf_info (set_blob_files t s (titan_dir t)) (<[cf_id := info]> (cf_info_ t))).

(** [base_set] is [SetOptions] of the base database. *)
Definition SetOptions (base_set : gmap string string -> Status) (cf_id : Z) (new_options : gmap string string) : Action := fun t =>
  let p := new_options !! "blob_run_mode"%string in
  let opts := delete "blob_run_mode"%string new_options in
  match p with
  | Some blob_run_mode_string =>
      match blob_run_mode_string_map blob_run_mode_string with
      | None => Some (InvalidArgument, t)
      | Some mode =>
          let s := if bool_decide (opts = ∅) then OK else base_set opts in
          if negb (ok s) then Some (s, t) else
          t ← set_run_mode cf_id mode t; Some (OK, t)
      end
  | None =>
      let s := if bool_decide (opts = ∅) then OK else base_set opts in
      if negb (ok s) then Some (s, t) else Some (OK, t)
  end.

(** The table factory of [GetOptions]; [None] is a null pointer. *)
Definition GetOptions (cf_id : Z) (t : TitanDBImpl) : option Z := base_table_factory <$> cf_info_ t !! cf_id.

(** The options of Titan of [GetTitanOptions]; the number of levels comes with
    the options of the base database. *)
Definition GetTitanOptions (levels cf_id : Z) (t : TitanDBImpl) : option TitanCFOptions :=
  info ← cf_info_ t !! cf_id;
  Some (TitanCFOptions_of levels (immutable_cf_options info) (mutable_cf_options info)).

(** The counters of the column family answer first; [base] is the answer of the
    base database. An exception is [None]. *)
Definition GetIntProperty (levels : Z -> Z) (base : option Z) (cf_id : Z) (property : string) (t : TitanDBImpl)
    : option (option Z) :=
  match fs_stats_ (blob_file_set_ t) ≫= (fun st => internal_stats st cf_id) with
  | None => Some base
  | Some stats =>
      v ← TitanStats.GetIntProperty levels stats property;
      Some (match v with Some v => Some v | None => base end)
  end.

(** [TitanInternalStats::GetStringProperty], and the string properties of the
    database, which are the integer ones in decimal. *)
Definition GetStringProperty (levels : Z -> Z) (stats : TitanInternalStats) (property : string) : option (option string) :=
  v ← TitanStats.GetIntProperty levels stats property;
  Some (match v with Some int_value => Some (pretty int_value) | None => None end).

Definition GetProperty (levels : Z -> Z) (base : option string) (cf_id : Z) (property : string) (t : TitanDBImpl)
    : option (option string) :=
  match fs_stats_ (blob_file_set_ t) ≫= (fun st => internal_stats st cf_id) with
  | None => Some base
  | Some stats =>
      v ← GetStringProperty levels stats property;
      Some (match v with Some v => Some v | None => base end)
  end.
End Database.
