(* ===== verification/DatabaseSpec.v ===== *)
(** * DatabaseSpec: an opened database is whole, and a failed one holds nothing

    The properties of [Database]: what opening recovers and measures, what it
    leaves after a failure, the failure it does not report, and changing the
    mode of a column family. *)
From S2P Require Import Prelude Coding GCScheduler BlobFormat BitMap BlobFileMeta TitanStats Options VersionEdit BlobStorage BlobStorageProofs EditCollector EditCollectorProofs BlobFileSet BlobFileSetProofs BlobFileSetSpec Collectors CollectorsProofs GCStats GCStatsProofs Database.

Local Open Scope Z_scope.
Local Open Scope aegon_scope.

(** ** [InitializeGC] of a column family *)

Lemma initialize_diff_update ts : forall diff diff',
  fold_option (update_diff true) diff ts = Some diff' ->
  fold_option initialize_diff (OK, diff) ts = Some (OK, diff').
Proof.
  induction ts as [|t ts IH]; intros diff diff' H; [by injection H as ->|]. cbn [fold_option] in *.
  apply bind_Some in H as (d1 & Hu & H). unfold update_diff in Hu. apply bind_Some in Hu as ([st d2] & He & Hu).
  destruct st; cbn [ok assert mbind option_bind] in Hu; try discriminate Hu. injection Hu as ->.
  assert (initialize_diff (OK, diff) t = Some (OK, d1)) as -> by exact He. by apply IH.
Qed.

(** The live sizes that the tables [ts] give, and the files they are for. *)
Definition measured (ts : list (list entry)) : Prop :=
  Forall (fun t => zlen t < 2 ^ 32) ts /\ sum_sizes (all_refs ts) < 2 ^ 63.

Lemma initialize_diff_spec ts :
  measured ts ->
  exists diff, fold_option initialize_diff (OK, ∅) (table_properties <$> ts) = Some (OK, diff) /\
    forall n, default 0 (diff !! n) = all_size n ts /\ 0 <= all_size n ts < 2 ^ 63.
Proof.
  intros [Hl Hs]. destruct (update_diff_spec true ts ∅ 0 0 Hl) as (diff & Hf & Hd); [|lia..|].
  { intros n. by rewrite lookup_empty. }
  exists diff. split; [by apply initialize_diff_update|]. intros n. destruct (Hd n) as [-> _]. rewrite lookup_empty.
  pose proof (sum_sizes_refs_to n _ (all_refs_wf ts)). unfold all_size. cbn. lia.
Qed.

(** A recovered file: nothing is known of it but what the manifest keeps. *)
Definition recovered (n : Z) (m : BlobFileMeta) : Prop := file_number_ m = n /\ state_ m = kInit /\ live_data_size_ m = 0.

(** ... and when the database is open. *)
Definition initialized_file (live : Z) (m : BlobFileMeta) : BlobFileMeta := set_state (set_live_data_size m live) kNormal.

Lemma restart_files_spec files :
  (forall n m, files !! n = Some m -> state_ m = kInit) ->
  restart_files files = Some ((fun m => set_state m kNormal) <$> files).
Proof.
  intros Hi. unfold restart_files.
  assert (forall f, (forall n m, f !! n = Some m -> state_ m = kInit) ->
    map_fold (fun n m acc => acc ← acc; m ← transit m kDbRestart; Some (<[n := m]> acc)) (Some files) f
    = Some (((fun m => set_state m kNormal) <$> f) ∪ files)) as H.
  { intros f. apply (map_fold_weak_ind (fun r f => (forall n m, f !! n = Some m -> state_ m = kInit) ->
      r = Some (((fun m => set_state m kNormal) <$> f) ∪ files))); clear f.
    - intros _. by rewrite fmap_empty, (left_id_L ∅ (∪)).
    - intros n m f r Hn IH Hf. rewrite IH by (intros k x Hk; apply (Hf k); rewrite lookup_insert_ne; [done|congruence]).
      rewrite (state_transit m kDbRestart kNormal) by (by rewrite (Hf n m) by apply lookup_insert_eq).
      cbn [mbind option_bind]. by rewrite fmap_insert, insert_union_l. }
  rewrite H by done. f_equal. apply map_eq. intros n. rewrite lookup_union, lookup_fmap. by destruct (files !! n).
Qed.

Lemma initialize_files_spec cf_id diff b st :
  (forall n m, files_ b !! n = Some m -> recovered n m) -> (forall n, 0 <= default 0 (diff !! n) < 2 ^ 63) ->
  exists b' st', fold_option (initialize_file cf_id) (b, st) (in_order diff) = Some (b', st') /\
    forall n, files_ b' !! n = (fun m => set_live_data_size m (default 0 (diff !! n))) <$> files_ b !! n.
Proof.
  intros Hr Hd.
  destruct (fold_option_keyed (fun x : BlobStorage * TitanStats => files_ x.1) (initialize_file cf_id)
    (fun _ size m => set_live_data_size m size) (fun _ => True) (in_order diff) (b, st)) as ([b' st'] & -> & _ & Hf);
    [apply in_order_nodup|done| |].
  - intros [b1 st1] n size _ Hin%in_order_elem Hget. cbn [fst] in *. unfold initialize_file.
    pose proof (Hd n) as Hdn. rewrite Hin in Hdn. cbn in Hdn. rewrite (proj2 (Z.leb_le 0 size)) by lia.
    cbn [assert mbind option_bind]. unfold FindFile. destruct (files_ b1 !! n) as [m|] eqn:Hm.
    + destruct (Hr n m) as (Hn & _ & Hl); [congruence|]. rewrite Hn, Z.eqb_refl. cbn [assert mbind option_bind].
      rewrite Hl. cbn [assert mbind option_bind Z.eqb].
      eexists. split; [reflexivity|]. split; [done|]. cbn [fst]. rewrite u64_small by (unfold is_u64; lia).
      by apply (alter_update b1 n m (fun m => set_live_data_size m size)).
    + cbn [mbind option_bind]. eexists. split; [reflexivity|]. split; [done|]. cbn [fst]. symmetry. apply alter_id. by rewrite Hm.
  - exists b', st'. split; [done|]. intros n. cbn [fst] in Hf. rewrite Hf, in_order_to_map.
    destruct (diff !! n); cbn; [done|]. destruct (files_ b !! n) as [m|] eqn:Hm; cbn; [|done].
    destruct (Hr n m Hm) as (_ & _ & Hl). f_equal. destruct m. cbn in *. by subst.
Qed.

Lemma InitializeGC_spec s cf_id b ts :
  GetBlobStorage s cf_id = Some b -> (forall n m, files_ b !! n = Some m -> recovered n m) -> measured ts ->
  exists s' b', GCStats.InitializeGC s cf_id (table_properties <$> ts) = Some (OK, s') /\
    column_families_ s' = <[cf_id := b']> (column_families_ s) /\
    forall n, files_ b' !! n = initialized_file (all_size n ts) <$> files_ b !! n.
Proof.
  intros Hb Hr Hts. unfold GCStats.InitializeGC. destruct (initialize_diff_spec ts Hts) as (diff & -> & Hd).
  cbn [mbind option_bind ok negb]. rewrite Hb. cbn [mbind option_bind].
  destruct (initialize_files_spec cf_id diff b (fs_stats_ s) Hr) as (b1 & st1 & -> & Hf).
  { intros n. destruct (Hd n) as [-> ?]. done. }
  cbn [mbind option_bind]. unfold InitializeAllFiles.
  rewrite restart_files_spec.
  2:{ intros n m. rewrite Hf. intros (x & Hx & ->)%fmap_Some. by destruct (Hr n x Hx) as (_ & ? & _). }
  cbn [mbind option_bind]. eexists _, _. split; [reflexivity|]. split; [reflexivity|]. intros n.
  cbn [files_ ComputeGCScore set_gc_score set_files]. rewrite lookup_fmap, Hf. destruct (Hd n) as [-> _].
  by destruct (files_ b !! n).
Qed.

(** All column families. *)
Lemma initialize_cfs_spec io (ts : Z -> list (list entry)) hs : forall s,
  NoDup hs -> (forall cf, cf ∈ hs -> flush io cf = OK /\ measured (ts cf) /\
    properties_of_all_tables io cf = Ret (table_properties <$> ts cf) /\
    exists b, column_families_ s !! cf = Some b /\ forall n m, files_ b !! n = Some m -> recovered n m) ->
  exists s', initialize_cfs io s hs = Some (OK, s') /\
    (forall cf, cf ∉ hs -> column_families_ s' !! cf = column_families_ s !! cf) /\
    forall cf b, cf ∈ hs -> column_families_ s !! cf = Some b -> exists b', column_families_ s' !! cf = Some b' /\
      forall n, files_ b' !! n = initialized_file (all_size n (ts cf)) <$> files_ b !! n.
Proof.
  induction hs as [|cf hs IH]; intros s Hnd Hcf.
  { exists s. split; [done|]. split; [done|]. intros cf b H. by apply elem_of_nil in H. }
  apply NoDup_cons in Hnd as [Hn Hnd].
  destruct (Hcf cf (list_elem_of_here _ _)) as (Hfl & Hts & Hp & b & Hb & Hr).
  destruct (InitializeGC_spec s cf b (ts cf) Hb Hr Hts) as (s1 & b1 & Hi & Hs1 & Hf1).
  cbn [initialize_cfs]. rewrite Hfl. cbn [ok negb]. rewrite Hp, Hi. cbn [mbind option_bind ok negb].
  destruct (IH s1 Hnd) as (s' & -> & Hout & Hin).
  { intros c Hc. destruct (Hcf c (list_elem_of_further _ _ _ Hc)) as (? & ? & ? & bc & Hbc & ?).
    split_and!; [done|done|done|]. exists bc. rewrite Hs1, lookup_insert_ne; [done|]. by intros ->. }
  exists s'. split; [done|]. split.
  - intros c [Hne Hc]%not_elem_of_cons. rewrite Hout by done. by rewrite Hs1, lookup_insert_ne.
  - intros c bc Hc Hbc. destruct (decide (c = cf)) as [->|Hne].
    + exists b1. rewrite Hout, Hs1, lookup_insert_eq by done. split; [done|]. rewrite Hb in Hbc. by injection Hbc as <-.
    + apply elem_of_cons in Hc as [?|Hc]; [done|]. apply (Hin c bc Hc). by rewrite Hs1, lookup_insert_ne.
Qed.

(** ** Sequences of calls *)

Lemma and_then_ok a b t t' : a t = Some (OK, t') -> (a >>> b) t = b t'.
Proof. unfold and_then. by intros ->. Qed.

Lemma and_then_returns s b t : s = OK -> (returns s >>> b) t = b t.
Proof. by intros ->. Qed.

Lemma and_then_does f b t : (does f >>> b) t = b (f t).
Proof. done. Qed.

Lemma and_then_inv a b t t' : (a >>> b) t = Some (OK, t') -> exists t1, a t = Some (OK, t1) /\ b t1 = Some (OK, t').
Proof.
  unfold and_then. destruct (a t) as [[s1 t1]|]; [|done]. cbn [mbind option_bind].
  destruct s1; cbn [ok negb]; try discriminate. by exists t1.
Qed.

(** ** The column families of the descriptors *)

Section Maps.
Context {A B : Type} (f : A -> B).

Lemma foldl_insert_lookup l : forall (m : gmap Z B) k,
  NoDup l.*1 -> (forall v, (k, v) ∈ l -> foldl (fun m (x : Z * A) => <[x.1 := f x.2]> m) m l !! k = Some (f v)) /\
  (k ∉ l.*1 -> foldl (fun m (x : Z * A) => <[x.1 := f x.2]> m) m l !! k = m !! k).
Proof.
  induction l as [|[k1 v1] l IH]; intros m k Hnd; cbn [foldl fst snd]; [split; [intros v H; by apply elem_of_nil in H|done]|].
  cbn in Hnd. apply NoDup_cons in Hnd as [Hn Hnd]. destruct (IH (<[k1 := f v1]> m) k Hnd) as [Hin Hout]. split.
  - intros v [[= -> ->]|H]%elem_of_cons; [|by apply Hin]. by rewrite Hout, lookup_insert_eq.
  - cbn. intros [Hne Hk]%not_elem_of_cons. by rewrite Hout, lookup_insert_ne.
Qed.

Lemma foldl_insert_new_lookup l : forall (m : gmap Z B) k,
  NoDup l.*1 -> (forall x, x ∈ l -> m !! x.1 = None) ->
  (forall v, (k, v) ∈ l -> foldl (fun m (x : Z * A) => insert_new m x.1 (f x.2)) m l !! k = Some (f v)) /\
  (k ∉ l.*1 -> foldl (fun m (x : Z * A) => insert_new m x.1 (f x.2)) m l !! k = m !! k).
Proof.
  induction l as [|[k1 v1] l IH]; intros m k Hnd Hm; cbn [foldl fst snd]; [split; [intros v H; by apply elem_of_nil in H|done]|].
  cbn in Hnd. apply NoDup_cons in Hnd as [Hn Hnd].
  pose proof (Hm (k1, v1) (list_elem_of_here _ _)) as Hnone. cbn in Hnone.
  assert (insert_new m k1 (f v1) = <[k1 := f v1]> m) as E by (unfold insert_new; by rewrite Hnone).
  destruct (IH (insert_new m k1 (f v1)) k Hnd) as [Hin Hout].
  { intros [k2 v2] Hx. rewrite E. cbn. rewrite lookup_insert_ne; [by apply (Hm (k2, v2)), list_elem_of_further|].
    intros ->. apply Hn. by apply (list_elem_of_fmap_2 fst) in Hx. }
  split.
  - intros v [[= -> ->]|H]%elem_of_cons; [|by apply Hin]. by rewrite Hout, E, lookup_insert_eq.
  - cbn. intros [Hne Hk]%not_elem_of_cons. by rewrite Hout, E, lookup_insert_ne.
Qed.
End Maps.

Section Described.
Context (hs : list Z) (descs : list TitanCFDescriptor) (Hlen : length hs = length descs) (Hnd : NoDup hs).

Definition described (cf : Z) (desc : TitanCFDescriptor) : Prop := (cf, desc) ∈ zip hs descs.

Lemma zip_keys : (zip hs descs).*1 = hs.
Proof. apply fst_zip. lia. Qed.

Lemma described_fun cf d1 d2 : described cf d1 -> described cf d2 -> d1 = d2.
Proof.
  intros H1 H2. assert (NoDup (zip hs descs).*1) as Hnd' by by rewrite zip_keys.
  pose proof (elem_of_list_to_map_1 _ _ _ Hnd' H1) as E1. pose proof (elem_of_list_to_map_1 _ _ _ Hnd' H2) as E2. congruence.
Qed.

Lemma described_handle cf : cf ∈ hs <-> exists desc, described cf desc.
Proof.
  unfold described. rewrite <- zip_keys at 1. rewrite list_elem_of_fmap. split; [intros ([c d] & -> & H); by exists d|].
  intros [d H]. by exists (cf, d).
Qed.

Lemma cf_options_map_lookup cf o :
  cf_options_map hs descs !! cf = Some o <-> exists desc, described cf desc /\ o = options desc.
Proof.
  unfold cf_options_map. destruct (foldl_insert_lookup options (zip hs descs) ∅ cf) as [Hin Hout]; [by rewrite zip_keys|].
  split.
  - intros Ho. destruct (decide (cf ∈ hs)) as [Hcf|Hcf].
    + apply described_handle in Hcf as [desc Hd]. exists desc. split; [done|]. specialize (Hin _ Hd). congruence.
    + rewrite zip_keys in Hout. rewrite (Hout Hcf) in Ho. by rewrite lookup_empty in Ho.
  - intros (desc & Hd & ->). by apply Hin.
Qed.

Lemma register_lookup t cf desc :
  handles t = hs -> cf_info_ t = ∅ -> described cf desc -> cf_info_ (register t descs) !! cf = Some (cf_info_of desc).
Proof.
  intros Hh Hi Hd. unfold register. cbn [cf_info_ set_cf_info]. rewrite Hh, Hi.
  destruct (foldl_insert_new_lookup cf_info_of (zip hs descs) ∅ cf) as [Hin _]; [by rewrite zip_keys| |by apply Hin].
  intros x _. apply (lookup_empty (M := gmap Z)).
Qed.

Lemma cf_with_compaction_elem cf desc :
  described cf desc -> (cf ∈ cf_with_compaction hs descs <-> disable_auto_compactions desc = false).
Proof.
  intros Hd. unfold cf_with_compaction. rewrite list_elem_of_fmap. split.
  - intros ([c d] & -> & Hx%list_elem_of_filter). destruct Hx as [Hx Hin]. cbn in *. by rewrite (described_fun _ _ _ Hd Hin).
  - intros H. exists (cf, desc). split; [done|]. by apply list_elem_of_filter.
Qed.
End Described.

Section Opening.
Context `{C : Comparator} `{LC : !ComparatorLaws C}.
Context (db_options_ : TitanDBOptions) (io : Answers) (stats : TitanStats) (garbage : Z) (descs : list TitanCFDescriptor).

(** The directory, the lock and the base database answer; [hs] are the handles. *)
Definition base_answers (hs : list Z) : Prop :=
  create_db_dir io = OK /\ create_logger io = OK /\ create_dir io = OK /\ new_directory io = OK /\ lock_file io = OK /\
  base_open io (map (base_descriptor true) descs) = Ret hs /\ length hs = length descs /\
  enable_auto_compaction io = OK /\ set_io io = io_ok.

(** The options are accepted. *)
Definition valid_options : Prop :=
  ValidateOptions descs = OK /\ exists desc, head descs = Some desc /\ (gc_offload (options desc) = true -> use_bitmap (options desc) = true).

(** The state before [BlobFileSet::Open]: what is not named stays. *)
Record prepared (hs : list Z) (t t1 : TitanDBImpl) : Prop := {
  pr_lock : lock_ t1 = true;
  pr_db : db_ t1 = true;
  pr_handles : handles t1 = hs;
  pr_set : blob_file_set_ t1 = BlobFileSet_new stats garbage;
  pr_dir : titan_dir t1 = titan_dir t;
  pr_info : cf_info_ t = ∅ -> forall cf desc, described hs descs cf desc -> cf_info_ t1 !! cf = Some (cf_info_of desc);
  pr_gc : gc t1 = gc t;
  pr_submitted : submitted t1 = submitted t;
  pr_initialized : initialized_ t1 = initialized_ t }.

Lemma OpenImpl_prepared hs t :
  valid_options -> base_answers hs -> NoDup hs ->
  exists t1, prepared hs t t1 /\
    OpenImpl db_options_ io stats garbage descs t = (open_blob_files io descs >>> start db_options_ io descs) t1.
Proof.
  intros (Hv & desc & Hhd & Hoff) (H1 & H2 & H3 & H4 & H5 & H6 & H7 & _) Hnd. unfold OpenImpl.
  rewrite !and_then_returns by done. rewrite and_then_does.
  set (t0 := set_blob_files _ _ _).
  assert (exists t2, set_up_offloading descs t0 = Some (OK, t2) /\ lock_ t2 = true /\ blob_file_set_ t2 = BlobFileSet_new stats garbage /\
    titan_dir t2 = titan_dir t /\ cf_info_ t2 = cf_info_ t /\ gc t2 = gc t /\ submitted t2 = submitted t /\ initialized_ t2 = initialized_ t)
    as (t2 & E2 & Hl & Hs & Hd & Hi & Hg & Hsub & Hin).
  { unfold set_up_offloading. rewrite Hhd. cbn [mbind option_bind]. destruct (gc_offload (options desc)).
    - rewrite Hoff by done. cbn [assert mbind option_bind]. by eexists.
    - by eexists. }
  rewrite (and_then_ok _ _ _ _ E2). unfold set_up_thread_pool. rewrite and_then_does.
  set (t3 := if _ : bool then _ else _).
  assert (open_base io descs t3 = Some (OK, set_base t3 (lock_ t3) true hs)) as E3.
  { unfold open_base. rewrite H6. by rewrite bool_decide_true. }
  rewrite (and_then_ok _ _ _ _ E3), and_then_does.
  assert (lock_ t3 = lock_ t2 /\ blob_file_set_ t3 = blob_file_set_ t2 /\ titan_dir t3 = titan_dir t2 /\ cf_info_ t3 = cf_info_ t2 /\
    gc t3 = gc t2 /\ submitted t3 = submitted t2 /\ initialized_ t3 = initialized_ t2) as (A1 & A2 & A3 & A4 & A5 & A6 & A7).
  { subst t3. by destruct (_ && _). }
  exists (register (set_base t3 (lock_ t3) true hs) descs). split; [|done].
  split; cbn [register set_cf_info set_base lock_ db_ handles blob_file_set_ titan_dir gc submitted initialized_]; try congruence; try done.
  intros Hinfo cf d Hcf. apply (register_lookup hs descs H7 Hnd); [done| |done]. cbn. congruence.
Qed.
End Opening.

Section Success.
Context `{C : Comparator}.
Context (db_options_ : TitanDBOptions) (io : Answers) (descs : list TitanCFDescriptor).

(** A failure has a status other than [OK]. *)
Definition base_fails : Prop := forall ds s, base_open io ds = Fail s -> s <> OK.

(** Every column family has its handle. *)
Definition is_open (t : TitanDBImpl) : Prop := lock_ t = true /\ db_ t = true /\ length (handles t) = length descs.

Lemma set_up_offloading_lock t s t1 : set_up_offloading descs t = Some (s, t1) -> lock_ t1 = lock_ t.
Proof.
  unfold set_up_offloading. destruct (head descs) as [d|]; [|done]. cbn [mbind option_bind].
  destruct (gc_offload _); [destruct (assert _); [|done]|]; by intros [= _ <-].
Qed.

Lemma open_base_open t t1 : base_fails -> lock_ t = true -> open_base io descs t = Some (OK, t1) -> is_open t1.
Proof.
  unfold open_base, is_open. intros Hf Hl. destruct (base_open _ _) as [hs|s] eqn:E; [|by intros [= -> <-]; destruct (Hf _ _ E)].
  intros H. destruct (assert _) as [[]|] eqn:Ea; [|done]. cbn [mbind option_bind] in H. injection H as <-.
    unfold assert in Ea. case_bool_decide; [done|]. done.
Qed.

Lemma open_blob_files_open t t1 : is_open t -> open_blob_files io descs t = Some (OK, t1) -> is_open t1.
Proof. unfold open_blob_files. intros H. destruct (BlobFileSet.Open _ _ _ _) as [[[? ?] ?]|]; [|done]. by intros [= -> <-]. Qed.

Lemma start_open t t1 : is_open t -> start db_options_ io descs t = Some (OK, t1) -> is_open t1 /\ initialized_ t1 = true.
Proof.
  unfold start, InitializeGC. intros H E. destruct (assert _); [|done]. cbn [mbind option_bind] in E.
  destruct (initialize_cfs _ _ _) as [[s set]|]; [|done]. cbn [mbind option_bind] in E.
  destruct (negb (ok s)); [|destruct (MaybeScheduleGC _ _)]; cbn [mbind option_bind] in E;
    (destruct (negb _); [|by injection E as <-]; injection E as E <-; done).
Qed.

Lemma OpenImpl_succeeds stats garbage t t' :
  base_fails -> OpenImpl db_options_ io stats garbage descs t = Some (OK, t') -> is_open t' /\ initialized_ t' = true.
Proof.
  intros Hf. unfold OpenImpl. do 6 (intros (? & [= _ <-] & H)%and_then_inv; revert H). rewrite and_then_does.
  intros (t1 & H1%set_up_offloading_lock & H)%and_then_inv. unfold set_up_thread_pool in H. rewrite and_then_does in H.
  apply and_then_inv in H as (t2 & H2 & H). rewrite and_then_does in H. apply and_then_inv in H as (t3 & H3 & H).
  refine (start_open _ _ _ H). refine (open_blob_files_open _ _ _ H3).
  refine (open_base_open _ _ Hf _ H2). by destruct (_ && _).
Qed.
End Success.

(** ** Properties *)

(** C15: opening recovers and measures. From the disk of any state that the set
    of blob files can reach, with options that fit it, and when RocksDB and the
    file system do their part, opening succeeds: the directory is locked, the
    base database open, and for each column family that is opened its
    information is kept, compactions are enabled as its options say, and its
    storage holds exactly the blob files that were not obsolete, each in the
    normal state and with a live size that is the sum of what the tables of the
    column family refer to. *)
Theorem open_restores `{C : Comparator} `{LC : !ComparatorLaws C} db_options_ io stats garbage descs w0 w t hs ts :
  initial w0 -> rtc set_step w0 w -> fs_next_file_number_ (w_set w) < 2 ^ 64 - 2 ->
  titan_dir t = w_disk w -> cf_info_ t = ∅ -> initialized_ t = false ->
  valid_options descs -> base_answers io descs hs -> NoDup hs -> reopens (w_set w) (cf_options_map hs descs) ->
  (forall cf, cf ∈ hs -> flush io cf = OK /\ measured (ts cf) /\
     properties_of_all_tables io cf = Ret (table_properties <$> ts cf)) ->
  exists t', Open db_options_ io stats garbage descs true t = Some (OK, t') /\
    lock_ t' = true /\ db_ t' = true /\ initialized_ t' = true /\ handles t' = hs /\
    forall cf desc, described hs descs cf desc ->
      cf_info_ t' !! cf = Some (cf_info_of desc) /\
      (cf ∈ compacting t' <-> disable_auto_compactions desc = false) /\
      exists b b', column_families_ (w_set w) !! cf = Some b /\ column_families_ (blob_file_set_ t') !! cf = Some b' /\
        forall n, files_ b' !! n = (fun m => initialized_file (all_size n (ts cf)) (persistent m)) <$> live_file (files_ b) n.
Proof.
  intros Hini Hreach Hlt Hdir Hinfo Hnot Hv Hb Hnd Hre Hcf. pose proof Hb as (_ & _ & _ & _ & _ & _ & Hlen & Hen & Hio).
  pose proof (reachable_ok _ _ Hini Hreach) as Hok. destruct w as [s d p]. cbn [w_set w_disk] in *.
  destruct (OpenImpl_prepared db_options_ io stats garbage descs hs t Hv Hb Hnd) as (t1 & Hp & HO).
  destruct (Open_restores s d stats garbage (cf_options_map hs descs) (world_recoverable _ _ _ Hok) Hre Hlt) as (s' & d' & Ho & Hf).
  unfold Open. cbn [negb]. rewrite HO.
  assert (open_blob_files io descs t1 = Some (OK, set_blob_files t1 s' d')) as E.
  { unfold open_blob_files. by rewrite Hio, (pr_set _ _ _ _ _ _ Hp), (pr_dir _ _ _ _ _ _ Hp), Hdir, (pr_handles _ _ _ _ _ _ Hp), Ho. }
  rewrite (and_then_ok _ _ _ _ E). unfold start, InitializeGC. cbn [initialized_ set_blob_files].
  rewrite (pr_initialized _ _ _ _ _ _ Hp), Hnot. cbn [negb assert mbind option_bind blob_file_set_ handles set_blob_files].
  rewrite (pr_handles _ _ _ _ _ _ Hp).
  assert (forall cf, cf ∈ hs -> exists b b', column_families_ s !! cf = Some b /\ column_families_ s' !! cf = Some b' /\
    forall n, files_ b' !! n = persistent <$> live_file (files_ b) n) as Hst.
  { intros cf Hin. apply (described_handle hs descs Hlen) in Hin as [desc Hd].
    assert (cf_options_map hs descs !! cf = Some (options desc)) as Hc by (apply cf_options_map_lookup; [done|done|]; by exists desc).
    destruct (Hre _ _ Hc) as (b & Hbs & _). destruct (Hf cf b Hbs) as (b' & Hb' & Hn); [by eexists|].
    exists b, b'. split; [done|]. split; [done|]. intros n. apply Hn. }
  destruct (initialize_cfs_spec io ts hs s' Hnd) as (s2 & -> & _ & Hs2).
  { intros cf Hin. destruct (Hcf cf Hin) as (? & ? & ?), (Hst cf Hin) as (b & b' & Hbs & Hb' & Hn). split_and!; [done..|].
    exists b'. split; [done|]. intros n m Hm. rewrite Hn in Hm. apply fmap_Some in Hm as (m0 & Hm0 & ->).
    destruct Hok as (Hwf & _). destruct (Hwf _ _ Hbs) as (_ & Hbw & _). unfold live_file in Hm0.
    apply bind_Some in Hm0 as (m1 & Hm1 & Hm0). destruct (is_obsolete m1); [done|]. injection Hm0 as <-.
    split_and!; [exact (wf_number _ Hbw _ _ Hm1)|done|done]. }
  cbn [mbind option_bind ok negb].
  destruct (MaybeScheduleGC _ _) as [gcd n] eqn:Em. cbn [mbind option_bind]. rewrite Hen. cbn [ok negb].
  eexists. split; [reflexivity|].
  cbn [StartBackgroundTasks set_running set_gc set_blob_files lock_ db_ handles initialized_ cf_info_ compacting blob_file_set_].
  split_and!; [apply Hp|apply Hp|done|apply Hp|]. rewrite (pr_handles _ _ _ _ _ _ Hp).
  intros cf desc Hd. split; [by apply (pr_info _ _ _ _ _ _ Hp)|]. split; [by apply cf_with_compaction_elem|].
  assert (cf ∈ hs) as Hin by (apply (described_handle hs descs Hlen); by exists desc).
  destruct (Hst cf Hin) as (b & b' & Hbs & Hb' & Hn), (Hs2 cf _ Hin Hb') as (b2 & Hb2 & Hn2).
  exists b, b2. split; [done|]. split; [done|]. intros k. rewrite Hn2, Hn. by destruct (live_file (files_ b) k).
Qed.

(** A failed initialisation is not noticed. When the memtable of the first
    column family cannot be flushed, or the properties of its tables cannot be
    read, opening succeeds all the same: no collection is queued or scheduled,
    and every blob file of every column family stays in its initial state with a
    live size of zero, which no compaction corrects and no collection picks. *)
Theorem open_ignores_failed_initialization `{C : Comparator} `{LC : !ComparatorLaws C} db_options_ io stats garbage descs w0 w t cf0 hs :
  initial w0 -> rtc set_step w0 w -> fs_next_file_number_ (w_set w) < 2 ^ 64 - 2 ->
  titan_dir t = w_disk w -> initialized_ t = false ->
  valid_options descs -> base_answers io descs (cf0 :: hs) -> NoDup (cf0 :: hs) ->
  reopens (w_set w) (cf_options_map (cf0 :: hs) descs) ->
  flush io cf0 <> OK \/ (flush io cf0 = OK /\ exists st, st <> OK /\ properties_of_all_tables io cf0 = Fail st) ->
  exists t', Open db_options_ io stats garbage descs true t = Some (OK, t') /\
    db_ t' = true /\ initialized_ t' = true /\ gc t' = gc t /\ submitted t' = submitted t /\
    forall cf, cf ∈ cf0 :: hs -> exists b b', column_families_ (w_set w) !! cf = Some b /\
      column_families_ (blob_file_set_ t') !! cf = Some b' /\
      forall n, files_ b' !! n = persistent <$> live_file (files_ b) n /\
        forall m, files_ b' !! n = Some m -> state_ m = kInit /\ live_data_size_ m = 0.
Proof.
  intros Hini Hreach Hlt Hdir Hnot Hv Hb Hnd Hre Hfail. pose proof Hb as (_ & _ & _ & _ & _ & _ & Hlen & Hen & Hio).
  pose proof (reachable_ok _ _ Hini Hreach) as Hok. destruct w as [s d p]. cbn [w_set w_disk] in *.
  destruct (OpenImpl_prepared db_options_ io stats garbage descs (cf0 :: hs) t Hv Hb Hnd) as (t1 & Hp & HO).
  destruct (Open_restores s d stats garbage (cf_options_map (cf0 :: hs) descs) (world_recoverable _ _ _ Hok) Hre Hlt) as (s' & d' & Ho & Hf).
  unfold Open. cbn [negb]. rewrite HO.
  assert (open_blob_files io descs t1 = Some (OK, set_blob_files t1 s' d')) as E.
  { unfold open_blob_files. by rewrite Hio, (pr_set _ _ _ _ _ _ Hp), (pr_dir _ _ _ _ _ _ Hp), Hdir, (pr_handles _ _ _ _ _ _ Hp), Ho. }
  rewrite (and_then_ok _ _ _ _ E). unfold start, InitializeGC. cbn [initialized_ set_blob_files].
  rewrite (pr_initialized _ _ _ _ _ _ Hp), Hnot. cbn [negb assert mbind option_bind blob_file_set_ handles set_blob_files].
  rewrite (pr_handles _ _ _ _ _ _ Hp).
  assert (exists st, st <> OK /\ initialize_cfs io s' (cf0 :: hs) = Some (st, s')) as (st & Hst & ->).
  { cbn [initialize_cfs]. destruct Hfail as [H|(-> & st & Hst & ->)].
    - exists (flush io cf0). split; [done|]. by destruct (flush io cf0).
    - exists st. by split. }
  cbn [mbind option_bind]. assert (ok st = false) as -> by by destruct st. cbn [negb mbind option_bind]. rewrite Hen. cbn [ok negb].
  eexists. split; [reflexivity|].
  cbn [StartBackgroundTasks set_running set_gc set_blob_files lock_ db_ handles initialized_ cf_info_ compacting blob_file_set_ gc submitted].
  split_and!; [apply Hp|done|apply Hp|apply Hp|]. intros cf Hin.
  apply (described_handle (cf0 :: hs) descs Hlen) in Hin as [desc Hd].
  assert (cf_options_map (cf0 :: hs) descs !! cf = Some (options desc)) as Hc by (apply cf_options_map_lookup; [done|done|]; by exists desc).
  destruct (Hre _ _ Hc) as (b & Hbs & _). destruct (Hf cf b Hbs) as (b' & Hb' & Hn); [by eexists|].
  exists b, b'. split; [done|]. split; [done|]. intros n. destruct (Hn n) as [En _]. split; [done|].
  intros m Hm. rewrite En in Hm. by apply fmap_Some in Hm as (m0 & _ & ->).
Qed.

(** C32: opening holds everything or nothing: whatever RocksDB and the file system
    answer, when it succeeds the directory is locked, the base database is open
    and every column family has its handle; when it fails the directory is not
    locked, the base database is closed, and there are no handles. *)
Theorem open_all_or_nothing `{C : Comparator} db_options_ io stats garbage descs has_handles t s t' :
  base_fails io -> lock_ t = false -> db_ t = false -> handles t = [] ->
  Open db_options_ io stats garbage descs has_handles t = Some (s, t') ->
  (s = OK -> lock_ t' = true /\ db_ t' = true /\ length (handles t') = length descs /\ initialized_ t' = true) /\
  (s <> OK -> lock_ t' = false /\ db_ t' = false /\ handles t' = []).
Proof.
  intros Hf Hl Hd Hh H. unfold Open in H. destruct has_handles; cbn [negb] in H; [|by injection H as <- <-].
  destruct (OpenImpl db_options_ io stats garbage descs t) as [[s1 t1]|] eqn:E; cbn [mbind option_bind] in H; [|done].
  destruct (ok s1) eqn:Eok.
  2:{ destruct (assert _) as [[]|]; [|done]. injection H as <- <-. split; [|done]. intros ->. done. }
  injection H as <- <-. destruct s1; cbn in Eok; try discriminate Eok. split; [|done]. intros _.
  destruct (OpenImpl_succeeds _ _ _ _ _ _ _ Hf E) as [(? & ? & ?) ?]. done.
Qed.

(** The status of the options that are not Titan's. *)
Definition base_status (base_set : gmap string string -> Status) (opts : gmap string string) : Status :=
  let rest := delete "blob_run_mode"%string opts in if bool_decide (rest = ∅) then OK else base_set rest.

(** What a database shows of the mode of a column family: the options that
    [GetTitanOptions] gives, the mode of the table factory and the options that
    the storage works with. *)
Definition modes (levels cf : Z) (t : TitanDBImpl) : option TitanCFOptions * option TitanBlobRunMode * option TitanCFOptions :=
  (GetTitanOptions levels cf t, (fun i => factory_run_mode (titan_table_factory i)) <$> cf_info_ t !! cf,
   cf_options <$> GetBlobStorage (blob_file_set_ t) cf).

Definition with_mode (mode : TitanBlobRunMode) (x : option TitanCFOptions * option TitanBlobRunMode * option TitanCFOptions) :=
  ((fun o => set_blob_run_mode o mode) <$> x.1.1, (fun _ => mode) <$> x.1.2, (fun o => set_blob_run_mode o mode) <$> x.2).

(** The information and the storage of a column family with another mode and
    with everything else as it was, field by field. *)
Definition info_with_mode (mode : TitanBlobRunMode) (i : TitanColumnFamilyInfo) : TitanColumnFamilyInfo :=
  mkInfo (cf_name i) (immutable_cf_options i) (mkMutable mode) (base_table_factory i)
    (mkFactory (base_factory_ (titan_table_factory i)) mode).

Definition storage_with_mode (mode : TitanBlobRunMode) (b : BlobStorage) : BlobStorage :=
  mkStorage (cf_options_ b) mode (cf_id_ b) (files_ b) (levels_file_count_ b) (blob_ranges_ b)
    (file_cache_ b) (gc_score_ b) (obsolete_files_ b) (destroyed_ b).

(** [t'] is [t] with the mode of column family [cf] set: its information and its
    storage have the mode, and nothing else of the database differs. *)
Definition same_but_mode (cf : Z) (mode : TitanBlobRunMode) (t t' : TitanDBImpl) : Prop :=
  let s := blob_file_set_ t in
  t' = set_cf_info
         (set_blob_files t (set_column_families s (alter (storage_with_mode mode) cf (column_families_ s)) (fs_stats_ s)) (titan_dir t))
         (alter (info_with_mode mode) cf (cf_info_ t)).

Lemma set_run_mode_spec cf mode t info :
  cf_info_ t !! cf = Some info ->
  exists t', set_run_mode cf mode t = Some t' /\ same_but_mode cf mode t t'.
Proof.
  intros Hi. unfold set_run_mode. rewrite Hi. cbn [mbind option_bind]. eexists. split; [reflexivity|].
  unfold same_but_mode, GetBlobStorage.
  assert (forall i, cf_info_ t !! cf = Some i -> alter (info_with_mode mode) cf (cf_info_ t) = <[cf := info_with_mode mode i]> (cf_info_ t)) as Ha.
  { intros i Hi'. apply map_eq. intros c. destruct (decide (c = cf)) as [->|]; by simplify_map_eq. }
  rewrite (Ha _ Hi). f_equal. destruct (column_families_ (blob_file_set_ t) !! cf) as [b|] eqn:Eb.
  - f_equal. f_equal. apply map_eq. intros c. destruct (decide (c = cf)) as [->|]; by simplify_map_eq.
  - rewrite alter_id' by done. by destruct t as [? ? ? [] ? ? ? ? ? ? ? ? ? ? ?].
Qed.

(** What [GetOptions] and [GetTitanOptions] then give. *)
Lemma same_but_mode_shows cf mode t t' : same_but_mode cf mode t t' ->
  (forall c, GetOptions c t' = GetOptions c t) /\
  forall levels c, modes levels c t' = if decide (c = cf) then with_mode mode (modes levels c t) else modes levels c t.
Proof.
  intros ->. split.
  - intros c. unfold GetOptions. cbn [cf_info_ set_cf_info]. destruct (decide (c = cf)) as [->|Hne].
    + rewrite lookup_alter_eq. by destruct (cf_info_ t !! cf).
    + by rewrite lookup_alter_ne.
  - intros levels c. unfold modes, GetTitanOptions, with_mode, GetBlobStorage.
    cbn [cf_info_ set_cf_info blob_file_set_ set_blob_files column_families_ set_column_families].
    destruct (decide (c = cf)) as [->|Hne]; [|by rewrite !lookup_alter_ne by done].
    rewrite !lookup_alter_eq. destruct (cf_info_ t !! cf), (column_families_ (blob_file_set_ t) !! cf); done.
Qed.

(** C31: options are set together or not at all. On a column family of the
    database [SetOptions] never fails an assertion. An unknown mode is refused
    before the base database is asked, and what the base database refuses leaves
    the mode alone; in both cases nothing changes. Otherwise the mode is set in
    all three places that keep it, the mutable options, the table factory and the
    storage, for this column family only, and every other part of the database is
    what it was, the rest of that storage, its files included; the options
    reported are those with the mode. Without a mode nothing changes at all. What
    the base database changes in itself is not part of the state. *)
Theorem SetOptions_atomic base_set cf opts t info :
  cf_info_ t !! cf = Some info ->
  exists s t', SetOptions base_set cf opts t = Some (s, t') /\
    match (fun x => (x, blob_run_mode_string_map x)) <$> opts !! "blob_run_mode"%string with
    | Some (_, None) => s = InvalidArgument /\ t' = t
    | Some (_, Some mode) =>
        s = base_status base_set opts /\ (s <> OK -> t' = t) /\
        (s = OK -> same_but_mode cf mode t t' /\ (forall c, GetOptions c t' = GetOptions c t) /\
           forall levels c, modes levels c t' = if decide (c = cf) then with_mode mode (modes levels c t) else modes levels c t)
    | None => s = base_status base_set opts /\ t' = t
    end.
Proof.
  intros Hi. unfold SetOptions. fold (base_status base_set opts).
  destruct (opts !! _) as [x|] eqn:Ex; cbn [fmap option_fmap option_map].
  - destruct (blob_run_mode_string_map x) as [mode|]; [|by do 2 eexists].
    destruct (ok (base_status base_set opts)) eqn:Eok; cbn [negb].
    + destruct (set_run_mode_spec cf mode t info Hi) as (t' & -> & H). exists OK, t'. cbn [mbind option_bind].
      split; [done|]. split; [by destruct (base_status base_set opts)|]. split; [done|]. intros _. split; [exact H|].
      by apply same_but_mode_shows.
    + exists (base_status base_set opts), t. split; [done|]. split; [done|]. split; [done|]. intros H. by rewrite H in Eok.
  - destruct (ok (base_status base_set opts)) eqn:Eok; cbn [negb].
    + exists OK, t. split; [done|]. by destruct (base_status base_set opts).
    + by exists (base_status base_set opts), t.
Qed.

(** Created column families are ready. When RocksDB creates all of them, under
    new numbers, each has its information, an empty storage with its options,
    and the mode it asked for in all places; every other column family stays as
    it was. A failure after all of them were made changes nothing; a failure
    before that fails an assertion. *)
Theorem CreateColumnFamilies_outcomes create descs t :
  let '(s, hs) := create (map (fun desc => base_descriptor (disable_auto_compactions desc) desc) descs) in
  (length hs <> length descs -> CreateColumnFamilies create descs t = None) /\
  (length hs = length descs -> s <> OK -> CreateColumnFamilies create descs t = Some (s, hs, t)) /\
  (length hs = length descs -> s = OK -> NoDup hs ->
   (forall cf, cf ∈ hs -> cf_info_ t !! cf = None /\ column_families_ (blob_file_set_ t) !! cf = None) ->
   exists t', CreateColumnFamilies create descs t = Some (OK, hs, t') /\
     (forall cf desc, described hs descs cf desc ->
        cf_info_ t' !! cf = Some (cf_info_of desc) /\
        column_families_ (blob_file_set_ t') !! cf = Some (BlobStorage_new (options desc) cf) /\
        (modes (num_levels (options desc)) cf t').1.2 = Some (blob_run_mode (options desc))) /\
     forall cf, cf ∉ hs -> cf_info_ t' !! cf = cf_info_ t !! cf /\
        column_families_ (blob_file_set_ t') !! cf = column_families_ (blob_file_set_ t) !! cf).
Proof.
  destruct (create _) as [s hs] eqn:Ec. unfold CreateColumnFamilies. rewrite Ec. split; [|split].
  - intros Hl. by rewrite bool_decide_false.
  - intros Hl Hs. rewrite bool_decide_true by done. by destruct s.
  - intros Hl -> Hnd Hnew. rewrite bool_decide_true by done. cbn [assert mbind option_bind ok].
    eexists. split; [reflexivity|]. set (m := foldl _ (∅ : gmap Z TitanCFOptions) _).
    cbn [cf_info_ set_cf_info set_blob_files blob_file_set_].
    assert (forall k, (forall v, (k, v) ∈ zip hs descs -> m !! k = Some (options v)) /\ (k ∉ hs -> m !! k = None)) as Hm.
    { intros k. destruct (foldl_insert_new_lookup options (zip hs descs) ∅ k) as [Hin Hout].
      { by rewrite zip_keys. } { intros x _. apply (lookup_empty (M := gmap Z)). }
      split; [exact Hin|]. intros Hk. rewrite zip_keys in Hout by done. unfold m. by rewrite (Hout Hk), lookup_empty. }
    assert (forall cf, column_families_ (AddColumnFamilies (blob_file_set_ t) m) !! cf =
      match m !! cf with Some o => Some (BlobStorage_new o cf) | None => column_families_ (blob_file_set_ t) !! cf end) as Hcfs.
    { intros cf. unfold AddColumnFamilies. rewrite AddColumnFamilies_lookup, list_to_map_to_list; [done|apply NoDup_fst_map_to_list|].
      intros [k o] Hk. apply elem_of_map_to_list in Hk. cbn. destruct (decide (k ∈ hs)) as [Hk'|Hk'].
      - by apply Hnew. - rewrite (proj2 (Hm k) Hk') in Hk. done. }
    assert (forall k, (forall v, (k, v) ∈ zip hs descs ->
        foldl (fun info (x : Z * TitanCFDescriptor) => insert_new info x.1 (cf_info_of x.2)) (cf_info_ t) (zip hs descs) !! k = Some (cf_info_of v)) /\
      (k ∉ hs -> foldl (fun info (x : Z * TitanCFDescriptor) => insert_new info x.1 (cf_info_of x.2)) (cf_info_ t) (zip hs descs) !! k = cf_info_ t !! k)) as Hinfo.
    { intros k. destruct (foldl_insert_new_lookup cf_info_of (zip hs descs) (cf_info_ t) k) as [Hin Hout].
      { by rewrite zip_keys. }
      { intros [c d] Hx. apply Hnew. apply (described_handle hs descs Hl). by exists d. }
      rewrite zip_keys in Hout by done. by split. }
    split.
    + intros cf desc Hd. destruct (Hinfo cf) as [Hi _], (Hm cf) as [Ho _]. rewrite Hcfs, (Hi _ Hd), (Ho _ Hd).
      split; [done|]. split; [done|]. cbn [modes fst snd cf_info_ set_cf_info set_blob_files]. by rewrite (Hi _ Hd).
    + intros cf Hcf. destruct (Hinfo cf) as [_ Hi], (Hm cf) as [_ Ho]. by rewrite Hcfs, (Hi Hcf), (Ho Hcf).
Qed.
