(* ===== verification/DatabaseExample.v ===== *)
(** * DatabaseExample: a database that is opened and changed

    The theorems of [DatabaseSpec] at a database with one column family and one
    blob file. *)
From S2P Require Import Prelude Coding GCScheduler BlobFormat BitMap BlobFileMeta TitanStats Options VersionEdit BlobStorage BlobStorageProofs EditCollector EditCollectorProofs BlobFileSet BlobFileSetProofs BlobFileSetSpec Collectors CollectorsProofs GCStats GCStatsProofs GCStatsSpec Database DatabaseSpec.

Local Open Scope Z_scope.
Local Open Scope aegon_scope.

#[local] Existing Instance BytewiseComparator.

Definition example_desc : TitanCFDescriptor :=
  mkDescriptor "default" (TitanCFOptions_default 7) false false false 1.

(** One table that refers to 100 bytes of the blob file 2. *)
Definition example_tables (cf : Z) : list (list entry) := [[example_entry 2 0 40; example_entry 2 2 60]].

Definition example_answers (base : res (list Z)) (flushed : Status) : Answers :=
  mkAnswers OK OK OK OK OK (fun _ => base) io_ok (fun _ => flushed)
    (fun cf => Ret (table_properties <$> example_tables cf)) OK.

Lemma example_options_map : cf_options_map [0] [example_desc] = example_cfs.
Proof. vm_compute. reflexivity. Qed.

Lemma example_base_answers flushed : base_answers (example_answers (Ret [0]) flushed) [example_desc] [0].
Proof. by split_and!. Qed.

Lemma example_valid : valid_options [example_desc].
Proof. split; [reflexivity|]. exists example_desc. split; [reflexivity|discriminate]. Qed.

Lemma example_described : described [0] [example_desc] 0 example_desc.
Proof. apply list_elem_of_here. Qed.

Lemma open_restores_witness :
  exists t', Open TitanDBOptions_default (example_answers (Ret [0]) OK) None 5 [example_desc] true (TitanDBImpl_new example_logged.2)
      = Some (OK, t') /\
    compacting t' = [0] /\
    exists b' m, column_families_ (blob_file_set_ t') !! 0 = Some b' /\ files_ b' !! 2 = Some m /\
      state_ m = kNormal /\ live_data_size_ m = 100.
Proof.
  destruct (open_restores TitanDBOptions_default (example_answers (Ret [0]) OK) None 5 [example_desc] _ _
    (TitanDBImpl_new example_logged.2) [0] example_tables example_initial example_steps)
    as (t' & Ho & _ & _ & _ & _ & H).
  - vm_compute. reflexivity.
  - reflexivity.
  - reflexivity.
  - reflexivity.
  - exact example_valid.
  - exact (example_base_answers OK).
  - apply NoDup_singleton.
  - rewrite example_options_map. exact example_reopens.
  - intros cf _. split; [reflexivity|]. split; [|reflexivity]. split; [by repeat constructor|]. vm_compute. reflexivity.
  - exists t'. split; [exact Ho|]. split.
    + revert Ho. clear H. intros Ho. apply (f_equal (fmap (fun x => compacting x.2))) in Ho. cbn [fmap option_fmap option_map snd] in Ho.
      apply (inj Some). rewrite <- Ho. vm_compute. reflexivity.
    + destruct (H 0 example_desc example_described) as (_ & _ & b & b' & Hb & Hb' & Hn).
      cbn [w_set] in Hb. rewrite (proj1 example_logged_files) in Hb. apply Some_inj in Hb. subst b.
      exists b', (initialized_file 100 (persistent BlobFileSetSpec.example_blob)). split; [exact Hb'|]. split; [|by split].
      rewrite Hn. unfold live_file. rewrite (proj2 example_logged_files). vm_compute. reflexivity.
Defined.

(** The memtable cannot be flushed. *)
Lemma open_ignores_failed_initialization_witness :
  exists t', Open TitanDBOptions_default (example_answers (Ret [0]) IOError) None 5 [example_desc] true (TitanDBImpl_new example_logged.2)
      = Some (OK, t') /\
    exists b' m, column_families_ (blob_file_set_ t') !! 0 = Some b' /\ files_ b' !! 2 = Some m /\
      state_ m = kInit /\ live_data_size_ m = 0.
Proof.
  destruct (open_ignores_failed_initialization TitanDBOptions_default (example_answers (Ret [0]) IOError) None 5 [example_desc] _ _
    (TitanDBImpl_new example_logged.2) 0 [] example_initial example_steps)
    as (t' & Ho & _ & _ & _ & _ & H).
  - vm_compute. reflexivity.
  - reflexivity.
  - reflexivity.
  - exact example_valid.
  - exact (example_base_answers IOError).
  - apply NoDup_singleton.
  - rewrite example_options_map. exact example_reopens.
  - left. discriminate.
  - exists t'. split; [exact Ho|]. destruct (H 0 (list_elem_of_here _ _)) as (b & b' & Hb & Hb' & Hn).
    cbn [w_set] in Hb. rewrite (proj1 example_logged_files) in Hb. apply Some_inj in Hb. subst b.
    destruct (Hn 2) as [H2 Hm]. exists b', (persistent BlobFileSetSpec.example_blob). split; [exact Hb'|].
    assert (files_ b' !! 2 = Some (persistent BlobFileSetSpec.example_blob)) as E.
    { rewrite H2. unfold live_file. rewrite (proj2 example_logged_files). vm_compute. reflexivity. }
    split; [exact E|]. exact (Hm _ E).
Defined.

(** The base database does not open. *)
Lemma open_all_or_nothing_witness :
  exists t', Open TitanDBOptions_default (example_answers (Fail IOError) OK) None 5 [example_desc] true (TitanDBImpl_new example_logged.2)
      = Some (IOError, t') /\ lock_ t' = false /\ db_ t' = false /\ handles t' = [].
Proof.
  destruct (Open TitanDBOptions_default (example_answers (Fail IOError) OK) None 5 [example_desc] true (TitanDBImpl_new example_logged.2))
    as [[s t']|] eqn:E; [|vm_compute in E; discriminate E].
  assert (s = IOError) as ->.
  { apply (f_equal (fmap fst)) in E. cbn [fmap option_fmap option_map fst] in E. apply (inj Some). rewrite <- E. vm_compute. reflexivity. }
  exists t'. split; [reflexivity|]. revert E. intros E. eapply open_all_or_nothing; [| | | |exact E|discriminate]; try reflexivity.
  intros ds s H. cbn in H. by injection H as <-.
Defined.

(** The column family is registered; only the mode is set. *)
Definition example_registered : TitanDBImpl :=
  register (set_base (set_blob_files (TitanDBImpl_new example_logged.2) example_logged.1 example_logged.2) true true [0]) [example_desc].

Lemma SetOptions_atomic_witness :
  exists t', SetOptions (fun _ => IOError) 0 {["blob_run_mode"%string := "kFallback"%string]} example_registered = Some (OK, t') /\
    blob_run_mode <$> GetTitanOptions 7 0 t' = Some mode_kFallback.
Proof.
  destruct (SetOptions_atomic (fun _ => IOError) 0 {["blob_run_mode"%string := "kFallback"%string]} example_registered
    (cf_info_of example_desc)) as (s & t' & Hs & H).
  { vm_compute. reflexivity. }
  assert (({["blob_run_mode"%string := "kFallback"%string]} : gmap string string) !! "blob_run_mode"%string = Some "kFallback"%string)
    as E by (vm_compute; reflexivity).
  rewrite E in H. cbn [fmap option_fmap option_map] in H.
  change (blob_run_mode_string_map "kFallback") with (Some mode_kFallback) in H. cbv beta iota in H.
  destruct H as (-> & _ & H).
  assert (base_status (fun _ => IOError) {["blob_run_mode"%string := "kFallback"%string]} = OK) as Eb by (vm_compute; reflexivity).
  rewrite Eb in *. destruct (H eq_refl) as (_ & _ & Hm).
  exists t'. split; [exact Hs|]. specialize (Hm 7 0). destruct (decide (0 = 0)) as [_|[]]; [|reflexivity].
  apply (f_equal (fun x => blob_run_mode <$> x.1.1)) in Hm. cbn [modes with_mode fst snd] in Hm. rewrite Hm. vm_compute. reflexivity.
Defined.

(** RocksDB gives the number 1 to the new column family. *)
Lemma CreateColumnFamilies_outcomes_witness :
  exists t', CreateColumnFamilies (fun _ => (OK, [1])) [example_desc] example_registered = Some (OK, [1], t') /\
    cf_info_ t' !! 1 = Some (cf_info_of example_desc) /\ cf_info_ t' !! 0 = Some (cf_info_of example_desc).
Proof.
  destruct (CreateColumnFamilies_outcomes (fun _ => (OK, [1])) [example_desc] example_registered) as (_ & _ & H).
  destruct H as (t' & Ht & Hin & Hout).
  - reflexivity.
  - reflexivity.
  - apply NoDup_singleton.
  - intros cf ->%list_elem_of_singleton. split; vm_compute; reflexivity.
  - exists t'. split; [exact Ht|]. split; [apply (Hin 1), list_elem_of_here|].
    rewrite (proj1 (Hout 0 ltac:(by intros ?%list_elem_of_singleton))). vm_compute. reflexivity.
Defined.
