(* ===== verification/DatabaseEvents.v ===== *)
(** * DatabaseEvents: what RocksDB tells the database, and deletions of ranges

    [base_db_listener.cc], and of [db_impl.cc] the calls that reach the
    handlers of [GCStats] with the whole database at hand: [OnFlushCompleted],
    [OnCompactionCompleted], [CompactFiles], [DeleteFilesInRanges] with its
    choice of tables, and [DeleteBlobFilesInRanges]; and the choice of tables of
    RocksDB ([lib/db/db_impl/db_impl.cc]). What else RocksDB answers is an
    argument. [None] is a failed assertion or an overflow. *)
From S2P Require Import Prelude Coding BitMap BlobFileMeta TitanStats Options VersionEdit BlobStorage EditCollector BlobFileSet Collectors GCStats GCScheduler Database.

Local Open Scope Z_scope.
Local Open Scope aegon_scope.

(** ** The tables of a version *)

(** [FileMetaData] of RocksDB, as far as it is looked at; [table_name] is what
    [TableFileName] makes of its number and path. *)
Record FileMetaData : Type := mkTable {
  table_name : string;
  largest_user_key : bytes;
  being_compacted : bool }.

(** [Version] of RocksDB. [clean_inputs] is [GetCleanInputsWithinInterval] at a
    level, which finds nothing at a level that is empty or does not overlap;
    [GetTableProperties] may succeed without properties. *)
Record Version : Type := mkVersion {
  NumberLevels : nat;
  num_non_empty_levels : nat;
  clean_inputs : nat -> RangePtr -> list FileMetaData;
  GetTableProperties : FileMetaData -> Status * option TableProperties }.

Section Events.
Context `{C : Comparator} (db_options_ : TitanDBOptions).

(** ** The listener *)

(** The end of the handlers: the column family joins the queue of collections. *)
Definition enqueue (cf_id : Z) (queued : bool) (t : TitanDBImpl) : TitanDBImpl :=
  if queued then
    let '(d, n) := MaybeScheduleGC db_options_ (AddToGCQueue (gc t) cf_id) in set_gc t d n
  else t.

Definition OnFlushCompleted (cf_id : Z) (table_properties : TableProperties) (t : TitanDBImpl) : option TitanDBImpl :=
  _ ← assert (initialized_ t);
  s ← GCStats.OnFlushCompleted (blob_file_set_ t) cf_id table_properties;
  Some (set_blob_files t s (titan_dir t)).

(** [cf_info_[cf_id]], which makes an entry where there is none; 0 stands for the
    null pointers in it. *)
Definition cf_info_entry (t : TitanDBImpl) (cf_id : Z) : TitanColumnFamilyInfo * TitanDBImpl :=
  match cf_info_ t !! cf_id with
  | Some info => (info, t)
  | None =>
      let opts := TitanCFOptions_default 7 in
      let info := mkInfo "" (ImmutableTitanCFOptions_of opts) (MutableTitanCFOptions_of opts) 0 (mkFactory 0 mode_kNormal) in
      (info, set_cf_info t (<[cf_id := info]> (cf_info_ t)))
  end.

Definition OnCompactionCompleted (io : IO) (latest_sequence : Z) (info : CompactionJobInfo) (t : TitanDBImpl)
    : option TitanDBImpl :=
  _ ← assert (initialized_ t);
  if negb (ok (job_status info)) then Some t else
  let '(cf_info, t) := cf_info_entry t (job_cf_id info) in
  '(s, d, queued) ← GCStats.OnCompactionCompleted io (blob_file_set_ t) (titan_dir t) (initialized_ t)
    (im_use_bitmap (immutable_cf_options cf_info)) latest_sequence info;
  Some (enqueue (job_cf_id info) queued (set_blob_files t s d)).

(** [BaseDbListener]: events that come before the database is initialised are
    dropped. *)
Definition BaseDbListener_OnFlushCompleted (cf_id : Z) (table_properties : TableProperties) (t : TitanDBImpl)
    : option TitanDBImpl :=
  if initialized_ t then OnFlushCompleted cf_id table_properties t else Some t.

Definition BaseDbListener_OnCompactionCompleted (io : IO) (latest_sequence : Z) (info : CompactionJobInfo) (t : TitanDBImpl)
    : option TitanDBImpl :=
  if initialized_ t then OnCompactionCompleted io latest_sequence info t else Some t.

(** [base] is the compaction by the base database, and what it says about it. *)
Definition CompactFiles (io : IO) (latest_sequence : Z) (bg_error : Status) (base : Status * CompactionJobInfo)
    (t : TitanDBImpl) : option (Status * TitanDBImpl) :=
  if negb (ok bg_error) then Some (bg_error, t) else
  let '(s, info) := base in
  if ok s then t ← OnCompactionCompleted io latest_sequence info t; Some (s, t) else Some (s, t).

(** ** Deletions of ranges *)

(** The loop of [DBImpl::DeleteFilesInRanges], by which the base database chooses
    the tables that it deletes. A file that it has chosen is marked as being
    compacted, too. *)
Definition choose_table (r : RangePtr) (include_end : bool) (deleted_files : list string) (level_file : FileMetaData)
    : list string :=
  if being_compacted level_file then deleted_files else
  if bool_decide (table_name level_file ∈ deleted_files) then deleted_files else
  if negb include_end && match limit r with Some end_ => Compare (largest_user_key level_file) end_ =? 0 | None => false end
  then deleted_files else deleted_files ++ [table_name level_file].

Definition DBImpl_DeleteFilesInRanges (v : Version) (ranges : list RangePtr) (include_end : bool) : list string :=
  foldl (fun deleted_files r =>
    foldl (fun deleted_files i => foldl (choose_table r include_end) deleted_files (clean_inputs v i r))
      deleted_files (seq 1 (NumberLevels v - 1)))
    [] ranges.

(** The same choice, before the deletion. *)
Definition deletes (r : RangePtr) (include_end : bool) (file_meta : FileMetaData) : bool :=
  negb (being_compacted file_meta) &&
  negb (negb include_end && match limit r with Some end_ => Compare (largest_user_key file_meta) end_ =? 0 | None => false end).

(** The properties of the tables that will be deleted, or the status of an early
    return. *)
Definition collect_table (v : Version) (r : RangePtr) (include_end : bool)
    (props : Status + gmap string TableProperties) (file_meta : FileMetaData) : Status + gmap string TableProperties :=
  match props with
  | inl s => inl s
  | inr props =>
      if negb (deletes r include_end file_meta) then inr props else
      match props !! table_name file_meta with
      | Some _ => inr props
      | None =>
          match GetTableProperties v file_meta with
          | (s, Some table_properties) =>
              if ok s then inr (<[table_name file_meta := table_properties]> props) else inl s
          | (s, None) => inl s
          end
      end
  end.

(** The levels but L0. *)
Definition collect_range (v : Version) (include_end : bool)
    (props : Status + gmap string TableProperties) (r : RangePtr) : Status + gmap string TableProperties :=
  foldl (fun props level => foldl (collect_table v r include_end) props (clean_inputs v level r))
    props (seq 1 (num_non_empty_levels v - 1)).

(** [latest_sequence] and [deleted]: what the base database answers. The last
    component says whether the version is still referenced. *)
Definition DeleteFilesInRanges (io : IO) (v : Version) (latest_sequence : Z) (deleted : Status)
    (cf_id : Z) (ranges : list RangePtr) (include_end : bool) (t : TitanDBImpl) : option (Status * TitanDBImpl * bool) :=
  match foldl (collect_range v include_end) (inr ∅) ranges with
  | inl s => Some (s, t, true)
  | inr props =>
      '(s, set, d, queued) ← GCStats.DeleteFilesInRanges io (blob_file_set_ t) (titan_dir t) cf_id latest_sequence
        (map_to_list props).*2 deleted;
      Some (s, enqueue cf_id queued (set_blob_files t set d), false)
  end.

Definition DeleteBlobFilesInRanges (io : IO) (latest_sequence : Z) (cf_id : Z) (ranges : list RangePtr) (include_end : bool)
    (t : TitanDBImpl) : option (Status * TitanDBImpl) :=
  '(s, set, d) ← BlobFileSet.DeleteBlobFilesInRanges io (blob_file_set_ t) (titan_dir t) cf_id ranges include_end latest_sequence;
  Some (s, set_blob_files t set d).

End Events.
