(* ===== verification/DatabaseEventsSpec.v ===== *)
(** * DatabaseEventsSpec: deletions of ranges take what the base database takes

    The blob files lose exactly what the tables refer to whose properties were
    collected. RocksDB chooses the tables that it deletes afterwards, in the
    version that is current then: they are the same where that version has the
    same tables in the ranges. *)
From S2P Require Import Prelude Coding GCScheduler GCSchedulerProofs BlobFormat BitMap BlobFileMeta TitanStats Options VersionEdit BlobStorage BlobStorageProofs BlobStorageSpec EditCollector EditCollectorProofs BlobFileSet BlobFileSetProofs BlobFileSetSpec Collectors CollectorsProofs GCStats GCStatsProofs GCStatsSpec LiveSizes LiveSizesSpec Database DatabaseEvents.

Local Open Scope Z_scope.

(** ** Loops over the tables *)

Section Choice.
Context `{C : Comparator} (v : Version).

(** The tables that the loops see, in order, up to a number of levels. *)
Definition inputs (levels : nat) (ranges : list RangePtr) : list (RangePtr * FileMetaData) :=
  ranges ≫= (fun r => seq 1 (levels - 1) ≫= (fun i => pair r <$> clean_inputs v i r)).

Lemma foldl_nested {A} (f : A -> RangePtr -> FileMetaData -> A) levels ranges : forall a,
  foldl (fun a r => foldl (fun a i => foldl (fun a x => f a r x) a (clean_inputs v i r)) a (seq 1 (levels - 1))) a ranges =
  foldl (fun a x => f a x.1 x.2) a (inputs levels ranges).
Proof.
  unfold inputs. induction ranges as [|r ranges IH]; intros a; [done|]. cbn [foldl]. rewrite IH, bind_cons, foldl_app. f_equal.
  clear IH. revert a. induction (seq 1 (levels - 1)) as [|i l IH]; intros a; [done|].
  cbn [foldl]. rewrite IH, bind_cons, foldl_app. f_equal. clear IH l. revert a.
  induction (clean_inputs v i r) as [|x l IH]; intros a; [done|]. cbn [foldl fmap list_fmap fst snd]. apply IH.
Qed.

(** RocksDB knows no tables in the levels that are empty. *)
Definition version_wf : Prop :=
  (num_non_empty_levels v <= NumberLevels v)%nat /\
  forall i r, (num_non_empty_levels v <= i)%nat -> clean_inputs v i r = [].

Lemma inputs_levels ranges :
  version_wf -> inputs (NumberLevels v) ranges = inputs (num_non_empty_levels v) ranges.
Proof.
  intros [Hle Hnone]. unfold inputs. apply list_bind_ext; [|done]. intros r.
  replace (NumberLevels v - 1)%nat with ((num_non_empty_levels v - 1) + (NumberLevels v - 1 - (num_non_empty_levels v - 1)))%nat by lia.
  rewrite seq_app, bind_app. rewrite <- (app_nil_r (seq 1 (num_non_empty_levels v - 1) ≫= _)) at 2. f_equal.
  assert (forall k s, (num_non_empty_levels v <= s)%nat -> seq s k ≫= (fun i => pair r <$> clean_inputs v i r) = []) as H.
  { induction k as [|k IH]; intros s Hs; [done|]. cbn [seq]. rewrite bind_cons, Hnone by lia. cbn. apply IH. lia. }
  apply H. lia.
Qed.

(** A table that is chosen. *)
Definition chosen (include_end : bool) (l : list (RangePtr * FileMetaData)) (name : string) : Prop :=
  exists r f, (r, f) ∈ l /\ deletes r include_end f = true /\ table_name f = name.

Lemma chosen_cons include_end r f l name :
  chosen include_end ((r, f) :: l) name <-> (deletes r include_end f = true /\ table_name f = name) \/ chosen include_end l name.
Proof.
  split.
  - intros (r' & f' & [[= -> ->]|Hin]%elem_of_cons & H); [by left|right]. by exists r', f'.
  - intros [H|(r' & f' & Hin & H)]; [exists r, f|exists r', f']; (split; [|done]); [apply list_elem_of_here|by apply list_elem_of_further].
Qed.

Lemma chosen_skip include_end r f l name :
  deletes r include_end f = false -> chosen include_end ((r, f) :: l) name <-> chosen include_end l name.
Proof. intros H. rewrite chosen_cons, H. intuition discriminate. Qed.

Lemma chosen_take include_end r f l name :
  deletes r include_end f = true -> chosen include_end ((r, f) :: l) name <-> table_name f = name \/ chosen include_end l name.
Proof. intros H. rewrite chosen_cons, H. intuition. Qed.

(** A table that is chosen already. *)
Lemma chosen_again (P : string -> Prop) include_end r f l name :
  deletes r include_end f = true -> P (table_name f) ->
  P name \/ chosen include_end l name <-> P name \/ chosen include_end ((r, f) :: l) name.
Proof. intros Hd HP. rewrite chosen_take by done. split; [tauto|]. intros [?|[<-|?]]; tauto. Qed.

Lemma choose_spec include_end l : forall names, NoDup names ->
  NoDup (foldl (fun a x => choose_table x.1 include_end a x.2) names l) /\
  forall name, name ∈ foldl (fun a x => choose_table x.1 include_end a x.2) names l <-> name ∈ names \/ chosen include_end l name.
Proof.
  induction l as [|[r f] l IH]; intros names Hnd; cbn [foldl fst snd].
  { split; [done|]. intros name. split; [by left|]. intros [?|(r & f & H%elem_of_nil & _)]; done. }
  assert (choose_table r include_end names f =
    if deletes r include_end f then (if bool_decide (table_name f ∈ names) then names else names ++ [table_name f]) else names) as ->.
  { unfold choose_table, deletes. destruct (being_compacted f); [done|]. cbn [negb andb]. by destruct (_ && _), (bool_decide _). }
  destruct (deletes r include_end f) eqn:Hd.
  - case_bool_decide as Hin.
    + destruct (IH names Hnd) as [H1 H2]. split; [done|]. intros name. rewrite H2. by apply (chosen_again (fun x => x ∈ names)).
    + destruct (IH (names ++ [table_name f])) as [H1 H2].
      { apply NoDup_app. split; [done|]. split; [|apply NoDup_singleton]. intros x Hx Hx'. apply list_elem_of_singleton in Hx'. by subst x. }
      split; [done|]. intros name. rewrite H2, chosen_take, elem_of_app, list_elem_of_singleton by done. split; intuition auto.
  - destruct (IH names Hnd) as [H1 H2]. split; [done|]. intros name. by rewrite H2, chosen_skip.
Qed.

(** The properties of each table can be read, and are those of its entries. *)
Definition readable (entries : string -> list entry) : Prop :=
  forall i r f, f ∈ clean_inputs v i r -> GetTableProperties v f = (OK, Some (table_properties (entries (table_name f)))).

Lemma inputs_elem levels ranges r f : (r, f) ∈ inputs levels ranges -> exists i, f ∈ clean_inputs v i r.
Proof.
  unfold inputs. intros (r' & (i & H & _)%list_elem_of_bind & _)%list_elem_of_bind.
  apply list_elem_of_fmap in H as (f' & [= -> ->] & H). by exists i.
Qed.

Lemma collect_spec entries include_end l : forall props : gmap string TableProperties,
  (forall r f, (r, f) ∈ l -> GetTableProperties v f = (OK, Some (table_properties (entries (table_name f))))) ->
  (forall name p, props !! name = Some p -> p = table_properties (entries name)) ->
  exists props', foldl (fun a x => collect_table v x.1 include_end a x.2) (inr props) l = inr props' /\
    (forall name p, props' !! name = Some p -> p = table_properties (entries name)) /\
    forall name, is_Some (props' !! name) <-> is_Some (props !! name) \/ chosen include_end l name.
Proof.
  induction l as [|[r f] l IH]; intros props Hr Hp; cbn [foldl fst snd].
  { exists props. split; [done|]. split; [done|]. intros name. split; [by left|]. intros [?|(r & f & H%elem_of_nil & _)]; done. }
  assert (forall r f, (r, f) ∈ l -> GetTableProperties v f = (OK, Some (table_properties (entries (table_name f))))) as Hr'
    by (intros r' f' H; by apply (Hr r'), list_elem_of_further).
  cbn [collect_table]. destruct (deletes r include_end f) eqn:Hd; cbn [negb].
  2:{ destruct (IH props Hr' Hp) as (props' & E & H1 & H2). exists props'. split; [done|]. split; [done|].
      intros name. by rewrite H2, chosen_skip. }
  destruct (props !! table_name f) as [p|] eqn:Hf.
  - destruct (IH props Hr' Hp) as (props' & E & H1 & H2). exists props'. split; [done|]. split; [done|].
    intros name. rewrite H2. apply (chosen_again (fun x => is_Some (props !! x))); [done|by exists p].
  - rewrite (Hr r f (list_elem_of_here _ _)). cbn [ok].
    destruct (IH (<[table_name f := table_properties (entries (table_name f))]> props) Hr') as (props' & E & H1 & H2).
    { intros name p [[<- <-]|[_ H]]%lookup_insert_Some; [done|by apply Hp]. }
    exists props'. split; [done|]. split; [done|]. intros name. rewrite H2, chosen_take, lookup_insert_is_Some' by done.
    tauto.
Qed.

End Choice.

(** ** What the handlers do to the database *)

Section Events.
Context `{C : Comparator} (db_options_ : TitanDBOptions).

(** Reporting: a column family in the queue of collections once more. *)
Lemma enqueue_spec cf t :
  gc_queue_ (gc (enqueue db_options_ cf true t)) = gc_queue_ (gc t) ++ [cf] /\
  blob_file_set_ (enqueue db_options_ cf true t) = blob_file_set_ t /\
  titan_dir (enqueue db_options_ cf true t) = titan_dir t.
Proof.
  unfold enqueue. destruct (MaybeScheduleGC_spec db_options_ (AddToGCQueue (gc t) cf)) as (k & -> & _). done.
Qed.

(** The names of the tables of a version, below level 0 and inside the ranges,
    that are not being compacted and, without the end, do not end at it. *)
Definition collected_names (v : Version) (ranges : list RangePtr) (include_end : bool) : list string :=
  remove_dups ((table_name ∘ snd) <$> filter (fun x => deletes x.1 include_end x.2) (inputs v (num_non_empty_levels v) ranges)).

Definition collected_tables (v : Version) (entries : string -> list entry) (ranges : list RangePtr) (include_end : bool)
    : list (list entry) :=
  entries <$> collected_names v ranges include_end.

(** The tables that RocksDB deletes, by their entries; [v] is the version that
    is current when it chooses them. *)
Definition deleted_tables (v : Version) (entries : string -> list entry) (ranges : list RangePtr) (include_end : bool)
    : list (list entry) :=
  entries <$> DBImpl_DeleteFilesInRanges v ranges include_end.

(** Two versions with the same tables inside the ranges, below level 0. *)
Definition same_tables (v v' : Version) (ranges : list RangePtr) : Prop :=
  forall r i, r ∈ ranges -> (1 <= i)%nat -> clean_inputs v i r = clean_inputs v' i r.

Lemma collected_names_elem v ranges include_end name :
  name ∈ collected_names v ranges include_end <-> chosen include_end (inputs v (num_non_empty_levels v) ranges) name.
Proof.
  unfold collected_names, chosen. rewrite elem_of_remove_dups, list_elem_of_fmap. split.
  - intros ([r f] & -> & [Hd Hin]%list_elem_of_filter). exists r, f. cbn in *. split; [done|]. split; [by apply Is_true_true|done].
  - intros (r & f & Hin & Hd & <-). exists (r, f). split; [done|]. apply list_elem_of_filter. split; [by apply Is_true_true|done].
Qed.

(** More levels than both versions have tables in. *)
Lemma inputs_more v levels ranges : version_wf v -> (num_non_empty_levels v <= levels)%nat ->
  inputs v levels ranges = inputs v (num_non_empty_levels v) ranges.
Proof.
  intros [Hle Hnone] Hl.
  exact (inputs_levels (mkVersion levels (num_non_empty_levels v) (clean_inputs v) (GetTableProperties v)) ranges (conj Hl Hnone)).
Qed.

Lemma inputs_same v v' levels ranges : same_tables v v' ranges -> inputs v levels ranges = inputs v' levels ranges.
Proof.
  unfold inputs. intros H. induction ranges as [|r ranges IH]; [done|]. rewrite !bind_cons. f_equal.
  - assert (forall k s, (1 <= s)%nat -> seq s k ≫= (fun i => pair r <$> clean_inputs v i r) = seq s k ≫= (fun i => pair r <$> clean_inputs v' i r)) as Hs.
    { induction k as [|k IHk]; intros s Hs; [done|]. cbn [seq]. rewrite !bind_cons. f_equal; [|apply IHk; lia].
      rewrite (H r s); [done|apply list_elem_of_here|done]. }
    by apply Hs.
  - apply IH. intros r' i Hr. apply H. by apply list_elem_of_further.
Qed.

(** RocksDB deletes the tables that were collected, where nothing has moved. *)
Lemma collected_deleted v v' entries ranges include_end :
  version_wf v -> version_wf v' -> same_tables v v' ranges ->
  collected_tables v entries ranges include_end ≡ₚ deleted_tables v' entries ranges include_end.
Proof.
  intros Hv Hv' Hs. unfold collected_tables, deleted_tables, DBImpl_DeleteFilesInRanges. apply fmap_Permutation.
  rewrite (foldl_nested v' (fun a r f => choose_table r include_end a f) (NumberLevels v')), inputs_levels by done.
  destruct (choose_spec include_end (inputs v' (num_non_empty_levels v') ranges) [] ltac:(constructor)) as [Hnd Hc].
  apply NoDup_Permutation; [apply NoDup_remove_dups|done|]. intros name. rewrite Hc, collected_names_elem.
  set (levels := (num_non_empty_levels v `max` num_non_empty_levels v')%nat).
  rewrite <- (inputs_more v levels), <- (inputs_more v' levels), (inputs_same v v') by (done || lia).
  rewrite elem_of_nil. tauto.
Qed.

Lemma collect_collected v entries ranges include_end :
  readable v entries ->
  exists props, foldl (collect_range v include_end) (inr ∅) ranges = inr props /\
    exists ts, (map_to_list props).*2 = table_properties <$> ts /\ ts ≡ₚ collected_tables v entries ranges include_end.
Proof.
  intros Hr. unfold collect_range.
  rewrite (foldl_nested v (fun a r f => collect_table v r include_end a f) (num_non_empty_levels v)).
  destruct (collect_spec v entries include_end (inputs v (num_non_empty_levels v) ranges) ∅) as (props & -> & Hp & Hin).
  { intros r f H. apply inputs_elem in H as [i H]. by apply (Hr i r). }
  { intros name p H. by rewrite lookup_empty in H. }
  exists props. split; [done|]. exists (entries <$> (map_to_list props).*1). split.
  - rewrite <- !list_fmap_compose. apply list_fmap_ext. intros i [name p] Hi. cbn. apply Hp.
    apply elem_of_map_to_list. by apply list_elem_of_lookup_2 in Hi.
  - apply fmap_Permutation, NoDup_Permutation; [apply NoDup_fst_map_to_list|apply NoDup_remove_dups|]. intros name.
    rewrite collected_names_elem. specialize (Hin name). rewrite lookup_empty in Hin. split.
    + intros ([name' p] & -> & H%elem_of_map_to_list)%list_elem_of_fmap.
      destruct Hin as [Hin _]. destruct Hin as [Hn|?]; [by exists p|by apply is_Some_None in Hn|done].
    + intros H. destruct Hin as [_ Hin]. destruct Hin as [p Hp']; [by right|].
      apply list_elem_of_fmap. exists (name, p). split; [done|]. by apply elem_of_map_to_list.
Qed.


(** Without properties the deletion ends early, and keeps its reference. *)
Lemma unreadable_keeps_version io v seq deleted cf r f include_end t :
  num_non_empty_levels v = 2%nat -> clean_inputs v 1 r = [f] -> deletes r include_end f = true ->
  GetTableProperties v f = (OK, None) ->
  DeleteFilesInRanges db_options_ io v seq deleted cf [r] include_end t = Some (OK, t, true).
Proof.
  intros Hn Hi Hd Hp. unfold DeleteFilesInRanges, collect_range. rewrite Hn. cbn. rewrite Hi. cbn. by rewrite Hd, lookup_empty, Hp.
Qed.

(** Events before the initialisation are dropped; an error of a collection
    keeps a manual compaction from starting. *)
Lemma early_events io seq info cf props t :
  initialized_ t = false ->
  BaseDbListener_OnFlushCompleted cf props t = Some t /\
  BaseDbListener_OnCompactionCompleted db_options_ io seq info t = Some t.
Proof. intros H. unfold BaseDbListener_OnFlushCompleted, BaseDbListener_OnCompactionCompleted. by rewrite H. Qed.

End Events.

(** ** Example *)

(** Level 1 has the table that refers to both entries of blob file 7, and one
    that is being compacted. *)
Section Example.
#[local] Existing Instance BytewiseComparator.

Definition range_entries_of (name : string) : list entry :=
  if bool_decide (name = "000010.sst"%string) then example_table else [example_entry 7 3 50].

Definition range_version : Version :=
  mkVersion 7 2
    (fun i _ => if bool_decide (i = 1%nat) then [mkTable "000010.sst" [98] false; mkTable "000011.sst" [99] true] else [])
    (fun f => (OK, Some (table_properties (range_entries_of (table_name f))))).

Definition range_database : TitanDBImpl :=
  set_blob_files (TitanDBImpl_new (mkDisk None ∅ ∅)) (example_storage (example_blobs false (example_blob 150 kNormal))) (mkDisk None ∅ ∅).

(** What a compaction outside of the range may leave: another level, with
    nothing in the range. *)
Definition later_version : Version :=
  mkVersion 7 3
    (fun i r => if bool_decide (i = 1%nat) then clean_inputs range_version 1 r else [])
    (GetTableProperties range_version).

Lemma range_chosen : collected_names range_version [mkRange None None] true = ["000010.sst"%string].
Proof. vm_compute. reflexivity. Qed.


End Example.
