(* ===== verification/BlobFileBuilder.v ===== *)
(** * BlobFileBuilder: writing a blob file

    [blob_file_builder.h] and [blob_file_builder.cc]: the builder, with its two
    states (records are buffered until the compression dictionary is trained,
    then written as they come), the raw blocks with their trailers, and the
    footer. The file is the writer of RocksDB: what it holds, the size it has
    counted, and how its next calls end. *)
From S2P Require Import Prelude Coding Crc32c BlobFormat BlobFileMeta Options.

Local Open Scope Z_scope.
Local Open Scope aegon_scope.

(** ** The libraries a blob file needs

    The compression library (at the options of the column family, with an
    explicit dictionary), and RocksDB's blocks of meta data. *)
Record SeekResult : Type := mkSeek {
  seek_status : Status;
  seek_valid : bool;
  seek_key : bytes;
  seek_value : bytes }.

Class FileLibrary : Type := {
  ZSTD_VERSION_NUMBER : Z;
  CompressData : bytes -> Z -> bytes -> option bytes;
  UncompressData : bytes -> Z -> bytes -> option bytes;
  ZSTD_TrainDictionary : bytes -> list Z -> Z -> bytes;
  (** [BlockBuilder] with restart interval 1: the block of some entries. *)
  BuildBlock : list (bytes * bytes) -> bytes;
  (** [Block::NewDataIterator] and [Seek]. *)
  SeekBlock : bytes -> bytes -> SeekResult;
  (** What a freshly allocated buffer of this size holds. *)
  uninit : Z -> bytes }.

(** What the code relies on. *)
Class FileLibraryLaws (L : FileLibrary) : Prop := {
  uncompress_compress d t x y : CompressData d t x = Some y -> UncompressData d t y = Some x;
  compress_bytes d t x y : CompressData d t x = Some y -> is_bytes y;
  train_size s l n : 0 <= n -> zlen (ZSTD_TrainDictionary s l n) <= n;
  seek_built k v : SeekBlock (BuildBlock [(k, v)]) k = mkSeek OK true k v;
  built_size k v : 0 < zlen (BuildBlock [(k, v)]) <= zlen k + zlen v + 32;
  uninit_size n : 0 <= n -> zlen (uninit n) = n }.

(** ** [WritableFileWriter] *)

(** How a call ends: a failing append may leave a part of its data. *)
Record Write : Type := mkWrite {
  write_status : Status;
  written : nat }.

(** [outcomes]: how the next calls end; those after them succeed. *)
Record WritableFileWriter : Type := mkWriter {
  contents : bytes;
  filesize_ : Z;
  outcomes : list Write }.

Definition new_file : WritableFileWriter := mkWriter [] 0 [].

Definition GetFileSize (f : WritableFileWriter) : Z := filesize_ f.

Definition Append (f : WritableFileWriter) (data : bytes) : Status * WritableFileWriter :=
  match outcomes f with
  | [] => (OK, mkWriter (contents f ++ data) (u64 (filesize_ f + zlen data)) [])
  | w :: ws =>
      if ok (write_status w)
      then (OK, mkWriter (contents f ++ data) (u64 (filesize_ f + zlen data)) ws)
      else (write_status w, mkWriter (contents f ++ take (written w) data) (filesize_ f) ws)
  end.

Definition Flush (f : WritableFileWriter) : Status * WritableFileWriter :=
  match outcomes f with
  | [] => (OK, f)
  | w :: ws => (write_status w, mkWriter (contents f) (filesize_ f) ws)
  end.

(** ** The builder *)

(** The part of [CompressionOptions] the builder looks at. *)
Record CompressionOptions : Type := mkCompressionOptions {
  max_dict_bytes : Z;
  zstd_max_train_bytes : Z }.

Inductive BuilderState : Type := kBuffered | kUnbuffered.

#[export] Instance BuilderState_eq_dec : EqDecision BuilderState.
Proof. solve_decision. Defined.

Record BlobRecordContext : Type := mkCtx {
  ctx_key : bytes;
  original_blob_index : BlobIndex;
  new_blob_index : BlobIndex;
  has_value : bool;
  ctx_value : bytes }.

Definition OutContexts : Type := list BlobRecordContext.

(** [ctx->new_blob_index.blob_handle = h]. *)
Definition set_blob_handle (ctx : BlobRecordContext) (h : BlobHandle) : BlobRecordContext :=
  mkCtx (ctx_key ctx) (original_blob_index ctx)
    {| file_number := file_number (new_blob_index ctx); blob_handle := h;
       old_file_number := old_file_number (new_blob_index ctx);
       old_blob_handle := old_blob_handle (new_blob_index ctx) |}
    (has_value ctx) (ctx_value ctx).

(** [encoder_dict_] is the dictionary of [encoder_]. *)
Record BlobFileBuilder : Type := mkBuilder {
  builder_state_ : BuilderState;
  file_ : WritableFileWriter;
  blob_file_version_ : Z;
  status_ : Status;
  encoder_dict_ : bytes;
  sample_records_ : list bytes;
  sample_str_len_ : Z;
  compression_dict_ : option bytes;
  cached_contexts_ : OutContexts;
  num_entries_ : Z;
  smallest_key_ : bytes;
  largest_key_ : bytes;
  live_data_size_ : Z }.

Definition kBlockTrailerSize : Z := 5.

(** ["rocksdb.compression_dict"]. *)
Definition kCompressionDictBlockName : bytes :=
  [114; 111; 99; 107; 115; 100; 98; 46; 99; 111; 109; 112; 114; 101; 115; 115; 105; 111; 110;
   95; 100; 105; 99; 116].

(** The assignments of the operations below. *)
Definition set_status (b : BlobFileBuilder) (s : Status) : BlobFileBuilder :=
  mkBuilder (builder_state_ b) (file_ b) (blob_file_version_ b) s (encoder_dict_ b)
    (sample_records_ b) (sample_str_len_ b) (compression_dict_ b) (cached_contexts_ b)
    (num_entries_ b) (smallest_key_ b) (largest_key_ b) (live_data_size_ b).

(** [status_ = file_->...]. *)
Definition set_io (b : BlobFileBuilder) (r : Status * WritableFileWriter) : BlobFileBuilder :=
  mkBuilder (builder_state_ b) r.2 (blob_file_version_ b) r.1 (encoder_dict_ b)
    (sample_records_ b) (sample_str_len_ b) (compression_dict_ b) (cached_contexts_ b)
    (num_entries_ b) (smallest_key_ b) (largest_key_ b) (live_data_size_ b).

Definition set_counts (b : BlobFileBuilder) (num live : Z) : BlobFileBuilder :=
  mkBuilder (builder_state_ b) (file_ b) (blob_file_version_ b) (status_ b) (encoder_dict_ b)
    (sample_records_ b) (sample_str_len_ b) (compression_dict_ b) (cached_contexts_ b)
    num (smallest_key_ b) (largest_key_ b) live.

Definition set_samples (b : BlobFileBuilder) (samples : list bytes) (len : Z) (cached : OutContexts)
    : BlobFileBuilder :=
  mkBuilder (builder_state_ b) (file_ b) (blob_file_version_ b) (status_ b) (encoder_dict_ b)
    samples len (compression_dict_ b) cached
    (num_entries_ b) (smallest_key_ b) (largest_key_ b) (live_data_size_ b).

Definition set_dict (b : BlobFileBuilder) (dict : bytes) : BlobFileBuilder :=
  mkBuilder (builder_state_ b) (file_ b) (blob_file_version_ b) (status_ b) dict
    (sample_records_ b) (sample_str_len_ b) (Some dict) (cached_contexts_ b)
    (num_entries_ b) (smallest_key_ b) (largest_key_ b) (live_data_size_ b).

Definition set_builder_state (b : BlobFileBuilder) (st : BuilderState) : BlobFileBuilder :=
  mkBuilder st (file_ b) (blob_file_version_ b) (status_ b) (encoder_dict_ b)
    (sample_records_ b) (sample_str_len_ b) (compression_dict_ b) (cached_contexts_ b)
    (num_entries_ b) (smallest_key_ b) (largest_key_ b) (live_data_size_ b).

Definition set_keys (b : BlobFileBuilder) (smallest largest : bytes) : BlobFileBuilder :=
  mkBuilder (builder_state_ b) (file_ b) (blob_file_version_ b) (status_ b) (encoder_dict_ b)
    (sample_records_ b) (sample_str_len_ b) (compression_dict_ b) (cached_contexts_ b)
    (num_entries_ b) smallest largest (live_data_size_ b).

Section Builder.
Context `{C : Comparator} `{L : FileLibrary}.
(** [cf_options_.blob_file_compression] and
    [cf_options_.blob_file_compression_options]. *)
Context (blob_file_compression : Z) (copts : CompressionOptions).

Definition WriteHeader (b : BlobFileBuilder) : option BlobFileBuilder :=
  flags ← (if 0 <? max_dict_bytes copts
           then _ ← assert (blob_file_version_ b =? kVersion2); Some kHasUncompressionDictionary
           else Some 0);
  let header := {| version := blob_file_version_ b; flags := flags |} in
  Some (set_io b (Append (file_ b) (BlobFileHeader_EncodeTo header))).

Definition BlobFileBuilder_new (file : WritableFileWriter) (blob_file_version : Z)
    : option BlobFileBuilder :=
  let b := mkBuilder (if 0 <? max_dict_bytes copts then kBuffered else kUnbuffered)
             file blob_file_version (ValidateVersion blob_file_version) [] [] 0 None [] 0 [] [] 0 in
  if negb (ok (status_ b)) then Some b
  else if 0 <? max_dict_bytes copts then
    let b := if negb (blob_file_version =? kVersion2) then set_status b NotSupported else b in
    if ZSTD_VERSION_NUMBER <? 10103 then Some (set_status b NotSupported) else WriteHeader b
  else WriteHeader b.

(** [WriteEncoderData]: the handle it fills in comes with the builder. *)
Definition WriteEncoderData (b : BlobFileBuilder) (e : BlobEncoder) : BlobFileBuilder * BlobHandle :=
  let handle := {| offset := GetFileSize (file_ b); size := GetEncodedSize e;
                   index := num_entries_ b |} in
  let b := set_counts b (num_entries_ b) (u64 (live_data_size_ b + size handle)) in
  let b := set_io b (Append (file_ b) (header_ e)) in
  if ok (status_ b) then
    let b := set_io b (Append (file_ b) (record_ e)) in
    (set_counts b (u64 (num_entries_ b + 1)) (live_data_size_ b), handle)
  else (b, handle).

(** [for (; ctx_idx < cached_contexts_.size() && cached_contexts_[ctx_idx]->has_value; ...)]:
    the contexts that are passed over, and the rest. *)
Fixpoint skip_small (ctxs : OutContexts) : OutContexts * OutContexts :=
  match ctxs with
  | ctx :: ctxs' =>
      if has_value ctx then let '(small, rest) := skip_small ctxs' in (ctx :: small, rest)
      else ([], ctxs)
  | [] => ([], [])
  end.

(** The loop over the samples; [ctxs] are the contexts from [ctx_idx] on. *)
Fixpoint flush_loop (b : BlobFileBuilder) (samples : list bytes) (ctxs out_ctx : OutContexts)
    : option (BlobFileBuilder * OutContexts * OutContexts) :=
  match samples with
  | [] => Some (b, ctxs, out_ctx)
  | record_str :: samples =>
      let '(small, ctxs) := skip_small ctxs in
      let out_ctx := out_ctx ++ small in
      match ctxs with
      | [] => None
      | ctx :: ctxs =>
          e ← EncodeSlice (CompressData (encoder_dict_ b)) blob_file_compression record_str;
          let '(b, handle) := WriteEncoderData b e in
          flush_loop b samples ctxs (out_ctx ++ [set_blob_handle ctx handle])
      end
  end.

Definition FlushSampleRecords (b : BlobFileBuilder) (out_ctx : OutContexts)
    : option (BlobFileBuilder * OutContexts) :=
  _ ← assert (length (sample_records_ b) <=? length (cached_contexts_ b))%nat;
  '(b, ctxs, out_ctx) ← flush_loop b (sample_records_ b) (cached_contexts_ b) out_ctx;
  _ ← assert (forallb has_value ctxs);
  Some (set_samples b [] 0 [], out_ctx ++ ctxs).

Definition EnterUnbuffered (b : BlobFileBuilder) (out_ctx : OutContexts)
    : option (BlobFileBuilder * OutContexts) :=
  let samples := concat (sample_records_ b) in
  let sample_lens := map zlen (sample_records_ b) in
  let b := set_dict b (ZSTD_TrainDictionary samples sample_lens (max_dict_bytes copts)) in
  '(b, out_ctx) ← FlushSampleRecords b out_ctx;
  Some (set_builder_state b kUnbuffered, out_ctx).

(** The key range, at the end of [Add]. *)
Definition update_keys (b : BlobFileBuilder) (k : bytes) : BlobFileBuilder :=
  let smallest := if bool_decide (smallest_key_ b = []) || (Compare k (smallest_key_ b) <? 0)
                  then k else smallest_key_ b in
  let largest := if bool_decide (largest_key_ b = []) || (0 <? Compare k (largest_key_ b))
                 then k else largest_key_ b in
  set_keys b smallest largest.

Definition Add (b : BlobFileBuilder) (record : BlobRecord) (ctx : BlobRecordContext)
    (out_ctx : OutContexts) : option (BlobFileBuilder * OutContexts) :=
  if negb (ok (status_ b)) then Some (b, out_ctx) else
  '(b, out_ctx) ←
    match builder_state_ b with
    | kBuffered =>
        let record_str := BlobRecord_EncodeTo record in
        let b := set_samples b (sample_records_ b ++ [record_str])
                   (u64 (sample_str_len_ b + zlen record_str)) (cached_contexts_ b ++ [ctx]) in
        if (0 <? zstd_max_train_bytes copts) && (zstd_max_train_bytes copts <=? sample_str_len_ b)
        then EnterUnbuffered b out_ctx else Some (b, out_ctx)
    | kUnbuffered =>
        e ← EncodeRecord (CompressData (encoder_dict_ b)) blob_file_compression record;
        let '(b, handle) := WriteEncoderData b e in
        Some (b, out_ctx ++ [set_blob_handle ctx handle])
    end;
  Some (update_keys b (key record), out_ctx).

Definition AddSmall (b : BlobFileBuilder) (ctx : BlobRecordContext) : BlobFileBuilder :=
  set_samples b (sample_records_ b) (sample_str_len_ b) (cached_contexts_ b ++ [ctx]).

(** [WriteRawBlock]: the block, and a trailer of its type and checksum. *)
Definition WriteRawBlock (b : BlobFileBuilder) (block : bytes) : BlobFileBuilder * BlockHandle :=
  let handle := {| bh_offset := GetFileSize (file_ b); bh_size := zlen block |} in
  let b := set_io b (Append (file_ b) block) in
  if ok (status_ b) then
    let crc := Extend (Value block) [kNoCompression] in
    let trailer := [kNoCompression] ++ PutFixed32 (Mask crc) in
    (set_io b (Append (file_ b) trailer), handle)
  else (b, handle).

(** [WriteCompressionDictBlock]; the result carries the entries of the
    [meta_index_builder]. *)
Definition WriteCompressionDictBlock (b : BlobFileBuilder)
    : option (BlobFileBuilder * list (bytes * bytes)) :=
  dict ← compression_dict_ b;
  let '(b, handle) := WriteRawBlock b dict in
  if ok (status_ b) then
    handle_encoding ← BlockHandle_EncodeTo handle;
    Some (b, [(kCompressionDictBlockName, handle_encoding)])
  else Some (b, []).

Definition Finish (b : BlobFileBuilder) (out_ctx : OutContexts)
    : option (Status * BlobFileBuilder * OutContexts) :=
  if negb (ok (status_ b)) then Some (status_ b, b, out_ctx) else
  '(b, out_ctx) ← (if decide (builder_state_ b = kBuffered) then EnterUnbuffered b out_ctx
                   else Some (b, out_ctx));
  '(b, meta_index_handle) ←
    (if 0 <? max_dict_bytes copts then
       _ ← assert (blob_file_version_ b =? kVersion2);
       '(b, metas) ← WriteCompressionDictBlock b;
       Some (WriteRawBlock b (BuildBlock metas))
     else Some (b, NullBlockHandle));
  buffer ← BlobFileFooter_EncodeTo meta_index_handle;
  let b := set_io b (Append (file_ b) buffer) in
  let b := if ok (status_ b) then set_io b (Flush (file_ b)) else b in
  Some (status_ b, b, out_ctx).

Definition NumEntries (b : BlobFileBuilder) : Z := num_entries_ b.
Definition NumSampleEntries (b : BlobFileBuilder) : Z := zlen (sample_records_ b).
End Builder.
