(* ===== verification/BlobFileBuilderProofs.v ===== *)
(** * BlobFileBuilderProofs: what the builder leaves in the file

    The layout of a finished blob file, and the theorem that the builder
    produces it from any sequence of records and small entries when no write
    fails: through the buffered state, the training of the dictionary and the
    unbuffered state alike. *)
From S2P Require Import Prelude Coding Crc32c BlobFormat BlobFileMeta Options BlobFileBuilder.

Local Open Scope Z_scope.
Local Open Scope aegon_scope.

(** ** The layout of a blob file *)

Section Layout.
Context `{L : FileLibrary}.
Context (t : Z).

(** Records one after the other from an offset on, with their handles. *)
Inductive placed (dict : bytes) : Z -> Z -> list (BlobRecord * BlobHandle) -> bytes -> Prop :=
  | placed_nil off idx : placed dict off idx [] []
  | placed_cons off idx r e rs body :
      EncodeRecord (CompressData dict) t r = Some e ->
      placed dict (off + GetEncodedSize e) (idx + 1) rs body ->
      placed dict off idx
        ((r, {| offset := off; size := GetEncodedSize e; index := idx |}) :: rs)
        (encoded e ++ body).

Definition raw_block (block : bytes) : bytes :=
  block ++ [kNoCompression] ++ PutFixed32 (Mask (Extend (Value block) [kNoCompression])).

(** What follows the records: the footer alone, or the dictionary, the index of
    the meta blocks and a footer that points to it. *)
Inductive file_tail (start : Z) : option bytes -> bytes -> Prop :=
  | tail_plain footer :
      BlobFileFooter_EncodeTo NullBlockHandle = Some footer ->
      file_tail start None footer
  | tail_dict dict enc footer :
      BlockHandle_EncodeTo {| bh_offset := start; bh_size := zlen dict |} = Some enc ->
      BlobFileFooter_EncodeTo
        {| bh_offset := start + zlen dict + kBlockTrailerSize;
           bh_size := zlen (BuildBlock [(kCompressionDictBlockName, enc)]) |} = Some footer ->
      file_tail start (Some dict)
        (raw_block dict ++ raw_block (BuildBlock [(kCompressionDictBlockName, enc)]) ++ footer).

Definition file_flags (has_dict : bool) : Z := if has_dict then kHasUncompressionDictionary else 0.

Definition file_header (ver : Z) (has_dict : bool) : bytes :=
  BlobFileHeader_EncodeTo {| version := ver; flags := file_flags has_dict |}.

Definition valid_version (ver : Z) (has_dict : bool) : Prop :=
  ver = kVersion2 \/ (ver = kVersion1 /\ has_dict = false).

Record blob_file (ver : Z) (dict : option bytes) (rs : list (BlobRecord * BlobHandle)) (bs : bytes)
    : Prop := {
  bf_version : valid_version ver (bool_decide (is_Some dict));
  bf_layout : exists body tail,
    bs = file_header ver (bool_decide (is_Some dict)) ++ body ++ tail /\
    placed (default [] dict) (zlen (file_header ver (bool_decide (is_Some dict)))) 0 rs body /\
    file_tail (zlen (file_header ver (bool_decide (is_Some dict)) ++ body)) dict tail;
  bf_size : zlen bs < 2 ^ 63 }.

Lemma EncodeSlice_sizes CD x e :
  EncodeSlice CD t x = Some e ->
  zlen (header_ e) = 9 /\ zlen (encoded e) = GetEncodedSize e /\ 9 <= GetEncodedSize e < 9 + 2 ^ 32.
Proof.
  unfold EncodeSlice. destruct (Compress CD t x) as [out c]. intros H.
  apply bind_Some in H as ([] & Ha & [= <-]). unfold assert in Ha. case_match eqn:E; [|done].
  apply Z.ltb_lt in E. unfold encoded, GetEncodedSize, kRecordHeaderSize. cbn [header_ record_].
  autorewrite with zlen. pose proof (zlen_nonneg out). lia.
Qed.

Lemma placed_app dict off idx rs1 rs2 b1 b2 :
  placed dict off idx rs1 b1 -> placed dict (off + zlen b1) (idx + zlen rs1) rs2 b2 ->
  placed dict off idx (rs1 ++ rs2) (b1 ++ b2).
Proof.
  induction 1 as [off idx|off idx r e rs body He Hp IH]; intros H2.
  - cbn. by rewrite !zlen_nil, !Z.add_0_r in H2.
  - cbn. rewrite <- app_assoc. constructor; [done|]. apply IH.
    apply EncodeSlice_sizes in He as (_ & Hs & _).
    rewrite zlen_app, zlen_cons in H2. rewrite <- Hs. by rewrite <- Z.add_assoc, <- (Z.add_assoc idx).
Qed.

(** Where a record is, and what its handle says. *)
Lemma placed_lookup dict off idx rs body i r h :
  placed dict off idx rs body -> rs !! i = Some (r, h) ->
  exists e pre post, EncodeRecord (CompressData dict) t r = Some e /\
    body = pre ++ encoded e ++ post /\
    h = {| offset := off + zlen pre; size := zlen (encoded e); index := idx + Z.of_nat i |}.
Proof.
  intros Hp. revert i. induction Hp as [|off idx r' e rs body He Hp IH]; intros i Hi; [done|].
  pose proof (EncodeSlice_sizes _ _ _ He) as (_ & Hs & _). destruct i as [|i]; cbn in Hi.
  - simplify_eq. exists e, [], body. split; [done|]. split; [done|]. rewrite zlen_nil, Hs. f_equal; lia.
  - destruct (IH i Hi) as (e' & pre & post & He' & -> & ->). exists e', (encoded e ++ pre), post.
    split; [done|]. split; [by rewrite <- !app_assoc|]. rewrite zlen_app, Hs. f_equal; lia.
Qed.

Lemma placed_sizes dict off idx rs body :
  placed dict off idx rs body -> foldr Z.add 0 (map (fun p => size p.2) rs) = zlen body.
Proof.
  induction 1 as [|off idx r e rs body He _ IH]; [done|]. cbn. rewrite IH, zlen_app.
  by apply EncodeSlice_sizes in He as (_ & -> & _).
Qed.
End Layout.

(** ** Building a file *)

(** What is added, in order: a record with the context of its entry, or an
    entry that stays in the LSM tree. *)
Inductive Op : Type :=
  | Put (record : BlobRecord) (ctx : BlobRecordContext)
  | Small (ctx : BlobRecordContext).

Definition op_ctx (o : Op) : BlobRecordContext :=
  match o with Put _ ctx => ctx | Small ctx => ctx end.

Fixpoint records (ops : list Op) : list BlobRecord :=
  match ops with
  | [] => []
  | Put r _ :: ops => r :: records ops
  | Small _ :: ops => records ops
  end.

(** The entries of the table: in the order of [ops], the contexts of the
    records with the handles of their records. *)
Fixpoint assign (ops : list Op) (hs : list BlobHandle) : OutContexts :=
  match ops, hs with
  | Put _ c :: ops, h :: hs => set_blob_handle c h :: assign ops hs
  | Small c :: ops, hs => c :: assign ops hs
  | _, _ => []
  end.

Lemma records_app ops1 ops2 : records (ops1 ++ ops2) = records ops1 ++ records ops2.
Proof. induction ops1 as [|[r c|c] ops1 IH]; cbn; [done| |done]. by rewrite IH. Qed.

Lemma assign_snoc_put ops hs r c h :
  length hs = length (records ops) ->
  assign (ops ++ [Put r c]) (hs ++ [h]) = assign ops hs ++ [set_blob_handle c h].
Proof.
  revert hs. induction ops as [|[r' c'|c'] ops IH]; intros [|h' hs] Hl; try done; cbn in *.
  - by rewrite IH by lia.
  - f_equal. by apply (IH []).
  - f_equal. by apply (IH (h' :: hs)).
Qed.

Lemma assign_snoc_small ops hs c :
  length hs = length (records ops) -> assign (ops ++ [Small c]) hs = assign ops hs ++ [c].
Proof.
  revert hs. induction ops as [|[r' c'|c'] ops IH]; intros [|h' hs] Hl; try done; cbn in *.
  - by rewrite IH by lia.
  - f_equal. by apply (IH []).
  - f_equal. by apply (IH (h' :: hs)).
Qed.

Definition max_record : Z := 9 + 2 ^ 32.

Section Build.
Context `{C : Comparator} `{!ComparatorLaws C} `{L : FileLibrary}.
Context (t : Z) (copts : CompressionOptions).

(** One call of the table builder: small entries go through the blob file
    builder only while it buffers. *)
Definition apply_op (s : BlobFileBuilder * OutContexts) (o : Op)
    : option (BlobFileBuilder * OutContexts) :=
  let '(b, out) := s in
  match o with
  | Put r c => Add t copts b r c out
  | Small c => if decide (builder_state_ b = kUnbuffered) then Some (b, out ++ [c])
               else Some (AddSmall b c, out)
  end.

Definition build (file : WritableFileWriter) (ver : Z) (ops : list Op)
    : option (Status * BlobFileBuilder * OutContexts) :=
  b ← BlobFileBuilder_new copts file ver;
  '(b, out) ← fold_option apply_op (b, [] : OutContexts) ops;
  Finish t copts b out.

(** No record is so big that the encoder asserts. *)
Definition encodable (r : BlobRecord) : Prop :=
  forall dict, is_Some (EncodeRecord (CompressData dict) t r).

Definition op_ok (o : Op) : Prop :=
  match o with
  | Put r c => has_value c = false /\ encodable r /\ key r <> []
  | Small c => has_value c = true
  end.

(** A file that no write failed on. *)
Definition clean_file (bs : bytes) : WritableFileWriter := mkWriter bs (zlen bs) [].

Lemma Append_clean bs data :
  zlen bs + zlen data < 2 ^ 64 -> Append (clean_file bs) data = (OK, clean_file (bs ++ data)).
Proof.
  intros H. unfold Append, clean_file. cbn [outcomes contents filesize_].
  by rewrite u64_small, zlen_app by zlia.
Qed.

Lemma WriteEncoderData_clean st bs ver d sr sl cd cc n sm lg live x e CD :
  EncodeSlice CD t x = Some e ->
  zlen bs + GetEncodedSize e < 2 ^ 63 -> 0 <= n < 2 ^ 63 -> 0 <= live <= zlen bs ->
  WriteEncoderData (mkBuilder st (clean_file bs) ver OK d sr sl cd cc n sm lg live) e
    = (mkBuilder st (clean_file (bs ++ encoded e)) ver OK d sr sl cd cc (n + 1) sm lg
         (live + GetEncodedSize e),
       {| offset := zlen bs; size := GetEncodedSize e; index := n |}).
Proof.
  intros He Hb Hn Hl. apply EncodeSlice_sizes in He as (Hh & Hs & Hp).
  unfold encoded in Hs. rewrite zlen_app in Hs. pose proof (zlen_nonneg (record_ e)).
  unfold WriteEncoderData, set_counts, set_io. cbn [file_ num_entries_ live_data_size_ size].
  rewrite Append_clean by lia. cbn [fst snd ok status_ file_].
  rewrite Append_clean by (rewrite zlen_app; lia).
  unfold encoded. rewrite <- app_assoc. cbn -[u64].
  rewrite !u64_small by (unfold is_u64; lia). done.
Qed.

Lemma WriteRawBlock_clean st bs ver d sr sl cd cc n sm lg live block :
  zlen bs + zlen block + 5 < 2 ^ 63 ->
  WriteRawBlock (mkBuilder st (clean_file bs) ver OK d sr sl cd cc n sm lg live) block
    = (mkBuilder st (clean_file (bs ++ raw_block block)) ver OK d sr sl cd cc n sm lg live,
       {| bh_offset := zlen bs; bh_size := zlen block |}).
Proof.
  intros Hb. unfold WriteRawBlock, set_io. cbn [file_].
  rewrite Append_clean by zlia. cbn [fst snd ok status_ file_].
  rewrite Append_clean by zlia.
  unfold raw_block. by rewrite <- app_assoc.
Qed.

Lemma skip_small_cons s ss c cs b out :
  has_value c = true ->
  flush_loop t b (s :: ss) (c :: cs) out = flush_loop t b (s :: ss) cs (out ++ [c]).
Proof.
  intros Hc. cbn [flush_loop skip_small]. rewrite Hc. destruct (skip_small cs) as [small rest].
  by rewrite <- app_assoc.
Qed.

(** Writing the buffered records. *)
Lemma flush_loop_spec ver d sr sl cd cc sm lg ops : forall bs n live out,
  Forall op_ok ops ->
  zlen bs + zlen (records ops) * max_record < 2 ^ 63 -> 0 <= n -> n + zlen (records ops) < 2 ^ 63 ->
  0 <= live <= zlen bs ->
  exists body hs rest out',
    flush_loop t (mkBuilder kBuffered (clean_file bs) ver OK d sr sl cd cc n sm lg live)
      (map BlobRecord_EncodeTo (records ops)) (map op_ctx ops) out
      = Some (mkBuilder kBuffered (clean_file (bs ++ body)) ver OK d sr sl cd cc
                (n + zlen (records ops)) sm lg (live + zlen body), rest, out') /\
    placed t d (zlen bs) n (zip (records ops) hs) body /\
    length hs = length (records ops) /\
    out' ++ rest = out ++ assign ops hs /\ forallb has_value rest = true.
Proof.
  induction ops as [|[r c|c] ops IH]; intros bs n live out Hok Hb Hn Hn2 Hl.
  - exists [], [], [], out. cbn [records map flush_loop assign zip zip_with]. rewrite !zlen_nil, !app_nil_r, !Z.add_0_r.
    split; [done|]. split; [constructor|done].
  - apply Forall_cons in Hok as [(Hc & He & _) Hok]. cbn [records map op_ctx] in *.
    destruct (He d) as [e He']. unfold EncodeRecord in He'. rewrite zlen_cons in Hb, Hn2.
    pose proof (EncodeSlice_sizes _ _ _ _ He') as (Hh & Hs & Hp).
    unfold max_record in *. pose proof (zlen_nonneg (records ops)).
    assert (zlen bs + GetEncodedSize e + zlen (records ops) * (9 + 2 ^ 32) < 2 ^ 63) as Hb' by nia.
    destruct (IH (bs ++ encoded e) (n + 1) (live + GetEncodedSize e)
                (out ++ [set_blob_handle c {| offset := zlen bs; size := GetEncodedSize e; index := n |}]))
      as (body & hs & rest & out' & Hf & Hpl & Hlen & Ho & Hr); [done|rewrite ?zlen_app; lia..|].
    exists (encoded e ++ body), ({| offset := zlen bs; size := GetEncodedSize e; index := n |} :: hs), rest, out'.
    split; [|split; [|split; [cbn; lia|]]].
    + cbn [flush_loop skip_small]. rewrite Hc. cbn beta iota zeta. rewrite app_nil_r. cbn [encoder_dict_]. rewrite He'. cbn [mbind option_bind].
      rewrite (WriteEncoderData_clean _ _ _ _ _ _ _ _ _ _ _ _ _ _ _ He') by nia.
      rewrite Hf, app_assoc, zlen_app, zlen_cons, Hs. by rewrite !Z.add_assoc.
    + cbn [zip zip_with]. constructor; [done|]. by rewrite zlen_app, Hs in Hpl.
    + rewrite Ho, <- app_assoc. done.
  - apply Forall_cons in Hok as [Hc Hok]. cbn [records map op_ctx] in *. change (op_ok (Small c)) with (has_value c = true) in Hc.
    destruct (records ops) as [|r rs] eqn:Er.
    + exists [], [], (c :: map op_ctx ops), out. cbn [map flush_loop].
      rewrite zlen_nil, !app_nil_r, !Z.add_0_r. split; [done|]. split; [constructor|]. split; [done|].
      cbn [assign]. assert (assign ops [] = map op_ctx ops /\ forallb has_value (map op_ctx ops) = true) as [-> Hh].
      { clear -Er Hok. induction ops as [|[r c|c] ops IH]; [done|done|].
        apply Forall_cons in Hok as [Hc Hok]. cbn in *. destruct (IH Er Hok) as [-> ->]. by rewrite Hc. }
      cbn. by rewrite Hc.
    + destruct (IH bs n live (out ++ [c]) Hok Hb Hn Hn2 Hl) as (body & hs & rest & out' & Hf & Hpl & Hlen & Ho & Hr).
      exists body, hs, rest, out'. cbn [map] in *. rewrite skip_small_cons by done.
      split; [done|]. split; [done|]. split; [done|]. split; [|done].
      rewrite Ho, <- app_assoc. by destruct hs.
Qed.

(** ** Key range *)

(** The key range covers the records, and its ends are keys of the file. *)
Definition key_range (smallest largest : bytes) (rs : list BlobRecord) : Prop :=
  match rs with
  | [] => smallest = [] /\ largest = []
  | _ => smallest ∈ map key rs /\ largest ∈ map key rs /\
         forall r, r ∈ rs -> Compare smallest (key r) <= 0 /\ Compare (key r) largest <= 0
  end.

Lemma key_range_extend sm lg rs r :
  Forall (fun r => key r <> []) rs -> key r <> [] -> key_range sm lg rs ->
  key_range (if bool_decide (sm = []) || (Compare (key r) sm <? 0) then key r else sm)
    (if bool_decide (lg = []) || (0 <? Compare (key r) lg) then key r else lg) (rs ++ [r]).
Proof.
  intros Hne Hr Hk.
  destruct rs as [|r0 rs].
  - destruct Hk as [-> ->]. cbn. split; [by left|]. split; [by left|].
    intros r' ->%list_elem_of_singleton. by rewrite !Compare_refl.
  - destruct Hk as (Hs & Hl & Hall).
    assert (forall k, k ∈ map key (r0 :: rs) -> k <> []) as Hmem.
    { intros k (r' & -> & Hin)%list_elem_of_fmap. rewrite Forall_forall in Hne. by apply Hne. }
    rewrite (bool_decide_eq_false_2 (sm = [])) by auto.
    rewrite (bool_decide_eq_false_2 (lg = [])) by auto. cbn [orb].
    change (key_range ?s ?l ((r0 :: rs) ++ [r])) with
      (s ∈ map key ((r0 :: rs) ++ [r]) /\ l ∈ map key ((r0 :: rs) ++ [r]) /\
       forall r', r' ∈ (r0 :: rs) ++ [r] -> Compare s (key r') <= 0 /\ Compare (key r') l <= 0).
    rewrite map_app. split; [|split].
    + destruct (Z.ltb_spec (Compare (key r) sm) 0); apply elem_of_app; [right; by left|by left].
    + destruct (Z.ltb_spec 0 (Compare (key r) lg)); apply elem_of_app; [right; by left|by left].
    + intros r' [Hin| ->%list_elem_of_singleton]%elem_of_app.
      * destruct (Hall r' Hin) as [H1 H2]. split.
        -- destruct (Z.ltb_spec (Compare (key r) sm) 0); [|done]. apply Compare_trans with sm; [lia|done].
        -- destruct (Z.ltb_spec 0 (Compare (key r) lg)); [|done].
           apply Compare_trans with lg; [done|]. apply Z.lt_le_incl. by apply Compare_swap.
      * split.
        -- destruct (Z.ltb_spec (Compare (key r) sm) 0); [by rewrite Compare_refl|].
           apply Z.nlt_ge. intros Hc%Compare_swap. lia.
        -- destruct (Z.ltb_spec 0 (Compare (key r) lg)); [by rewrite Compare_refl|done].
Qed.

Lemma key_range_snoc b rs r :
  Forall (fun r => key r <> []) rs -> key r <> [] ->
  key_range (smallest_key_ b) (largest_key_ b) rs ->
  key_range (smallest_key_ (update_keys b (key r))) (largest_key_ (update_keys b (key r))) (rs ++ [r]).
Proof. apply key_range_extend. Qed.

(** ** The invariant of the builder *)

Definition has_dict : bool := 0 <? max_dict_bytes copts.

(** What has been added, and the builder and the entries so far. *)
Inductive building (ver : Z) (ops : list Op) : BlobFileBuilder -> OutContexts -> Prop :=
  | building_buffered len sm lg :
      has_dict = true ->
      building ver ops
        (mkBuilder kBuffered (clean_file (file_header ver has_dict)) ver OK []
           (map BlobRecord_EncodeTo (records ops)) len None (map op_ctx ops) 0 sm lg 0) []
  | building_unbuffered dict hs body sm lg :
      (if has_dict then zlen dict <= max_dict_bytes copts else dict = []) ->
      placed t dict (zlen (file_header ver has_dict)) 0 (zip (records ops) hs) body ->
      length hs = length (records ops) ->
      building ver ops
        (mkBuilder kUnbuffered (clean_file (file_header ver has_dict ++ body)) ver OK dict
           [] 0 (if has_dict then Some dict else None) [] (zlen (records ops)) sm lg (zlen body))
        (assign ops hs).

Lemma placed_bound dict off idx rs body :
  placed t dict off idx rs body -> zlen body <= zlen rs * max_record.
Proof.
  induction 1 as [|off idx r e rs body He _ IH]; [done|].
  apply EncodeSlice_sizes in He as (_ & Hs & ?). unfold max_record in *. rewrite zlen_app, zlen_cons. lia.
Qed.

Lemma zlen_zip {A B} (l : list A) (k : list B) : length k = length l -> zlen (zip l k) = zlen l.
Proof. intros H. unfold zlen. rewrite length_zip_with. lia. Qed.

Lemma file_header_size ver : valid_version ver has_dict -> 8 <= zlen (file_header ver has_dict) <= 12.
Proof.
  intros Hv. unfold file_header, BlobFileHeader_EncodeTo. cbn [version flags].
  destruct Hv as [->|[-> _]]; vm_compute; destruct has_dict; vm_compute; done.
Qed.

Context `{!FileLibraryLaws L}.

Lemma EnterUnbuffered_spec ver ops len sm lg :
  Forall op_ok ops -> zlen (records ops) <= 2 ^ 30 -> valid_version ver has_dict ->
  has_dict = true ->
  exists b out,
    EnterUnbuffered t copts
      (mkBuilder kBuffered (clean_file (file_header ver has_dict)) ver OK []
         (map BlobRecord_EncodeTo (records ops)) len None (map op_ctx ops) 0 sm lg 0) []
    = Some (b, out) /\
    building ver ops b out /\ builder_state_ b = kUnbuffered /\ smallest_key_ b = sm /\ largest_key_ b = lg.
Proof.
  intros Hok Hn Hv Hd. unfold EnterUnbuffered, FlushSampleRecords. unfold set_dict at 1 2 3 4 5.
  cbn [builder_state_ file_ blob_file_version_ status_ sample_records_ sample_str_len_ cached_contexts_
       num_entries_ smallest_key_ largest_key_ live_data_size_].
  set (dict := ZSTD_TrainDictionary _ _ _).
  pose proof (file_header_size ver Hv) as Hh.
  destruct (flush_loop_spec ver dict (map BlobRecord_EncodeTo (records ops)) len (Some dict) (map op_ctx ops)
    sm lg ops (file_header ver has_dict) 0 0 []) as (body & hs & rest & out' & Hf & Hp & Hl & Ho & Hr);
    [done|unfold max_record; pose proof (zlen_nonneg (records ops)); lia..|].
  rewrite (proj2 (Nat.leb_le _ _)).
  2:{ rewrite !length_map. clear. induction ops as [|[r c|c] ops IH]; cbn; lia. }
  cbn [assert mbind option_bind]. rewrite Hf. cbn [mbind option_bind]. rewrite Hr. cbn [assert mbind option_bind].
  eexists _, _. split; [done|]. rewrite Ho. cbn [app]. split; [|done].
  unfold set_builder_state, set_samples.
  cbn [builder_state_ file_ blob_file_version_ status_ sample_records_ sample_str_len_ cached_contexts_ encoder_dict_
       compression_dict_ num_entries_ smallest_key_ largest_key_ live_data_size_].
  pose proof (building_unbuffered ver ops dict hs body sm lg) as Hb. rewrite Hd in *.
  apply Hb; [|done..]. apply train_size. unfold has_dict in Hd. apply Z.ltb_lt in Hd. lia.
Qed.

Definition ops_ok (ops : list Op) : Prop :=
  Forall op_ok ops /\ zlen (records ops) <= 2 ^ 30.

Lemma ops_ok_snoc ops o : ops_ok (ops ++ [o]) -> ops_ok ops /\ op_ok o.
Proof.
  intros [[Hok Ho]%Forall_app Hn]. rewrite records_app, zlen_app in Hn.
  pose proof (zlen_nonneg (records [o])). split; [split; [done|lia]|]. by apply Forall_inv in Ho.
Qed.

Lemma ops_ok_keys ops : Forall op_ok ops -> Forall (fun r => key r <> []) (records ops).
Proof.
  induction ops as [|[r c|c] ops IH]; intros Hok; cbn; [done| |]; apply Forall_cons in Hok as [Ho Hok].
  - constructor; [apply Ho|by apply IH].
  - by apply IH.
Qed.

Lemma building_set_keys ver ops b out sm lg :
  building ver ops b out -> building ver ops (set_keys b sm lg) out.
Proof. destruct 1; intros; [by constructor|by econstructor]. Qed.

(** There is room for one more record. *)
Lemma building_room ver ops dict hs body r e :
  ops_ok (ops ++ [Put r e]) -> valid_version ver has_dict ->
  placed t dict (zlen (file_header ver has_dict)) 0 (zip (records ops) hs) body ->
  length hs = length (records ops) ->
  zlen (file_header ver has_dict ++ body) <= 12 + (2 ^ 30 - 1) * max_record /\ zlen (records ops) < 2 ^ 30.
Proof.
  intros [_ Hn] Hv Hp Hl. apply placed_bound in Hp. rewrite zlen_zip in Hp by done.
  rewrite records_app, zlen_app in Hn. change (zlen (records [Put r e])) with 1 in Hn.
  pose proof (file_header_size ver Hv). rewrite zlen_app. unfold max_record in *. nia.
Qed.

Lemma Add_spec ver ops r c b out :
  ops_ok (ops ++ [Put r c]) -> valid_version ver has_dict -> building ver ops b out ->
  exists b' out', Add t copts b r c out = Some (b', out') /\ building ver (ops ++ [Put r c]) b' out' /\
    smallest_key_ b' = smallest_key_ (update_keys b (key r)) /\
    largest_key_ b' = largest_key_ (update_keys b (key r)).
Proof.
  intros Hok Hv Hb. pose proof (ops_ok_snoc _ _ Hok) as [[Hops Hn] (Hc & He & Hr)].
  assert (records (ops ++ [Put r c]) = records ops ++ [r]) as Hrec by apply records_app.
  destruct Hb as [len sm lg Hd|dict hs body sm lg Hd Hp Hl].
  - unfold Add. cbn [status_ ok negb builder_state_]. unfold set_samples.
    cbn [builder_state_ file_ blob_file_version_ status_ encoder_dict_ sample_records_ sample_str_len_
         compression_dict_ cached_contexts_ num_entries_ smallest_key_ largest_key_ live_data_size_].
    set (len' := u64 _).
    replace (map BlobRecord_EncodeTo (records ops) ++ [BlobRecord_EncodeTo r])
      with (map BlobRecord_EncodeTo (records (ops ++ [Put r c]))) by by rewrite Hrec, map_app.
    replace (map op_ctx ops ++ [c]) with (map op_ctx (ops ++ [Put r c])) by by rewrite map_app.
    destruct (_ && _).
    + destruct (EnterUnbuffered_spec ver (ops ++ [Put r c]) len' sm lg) as (b & out & -> & Hb & _ & Hs & Hg);
        [apply Hok|apply Hok|done..|]. cbn [mbind option_bind].
      eexists _, _. split; [done|]. split; [by apply building_set_keys|].
      unfold update_keys. cbn [smallest_key_ largest_key_ set_keys]. by rewrite Hs, Hg.
    + cbn [mbind option_bind]. eexists _, _. split; [done|]. split; [|done]. by apply building_set_keys, building_buffered.
  - destruct (building_room _ _ _ _ _ _ _ Hok Hv Hp Hl) as [Hroom Hnum].
    destruct (He dict) as [e Hee]. unfold Add. cbn [status_ ok negb builder_state_ encoder_dict_]. rewrite Hee.
    cbn [mbind option_bind]. unfold EncodeRecord in Hee. pose proof (EncodeSlice_sizes _ _ _ _ Hee) as (_ & Hs & Hbd).
    pose proof (zlen_nonneg (records ops)). pose proof (zlen_nonneg (file_header ver has_dict)).
    unfold max_record in *.
    erewrite (WriteEncoderData_clean _ _ _ _ _ _ _ _ _ _ _ _ _ _ _ Hee).
    2-4: rewrite ?zlen_app in *; pose proof (zlen_nonneg body); lia.
    eexists _, _. split; [done|]. split; [|done]. apply building_set_keys.
    rewrite <- (assign_snoc_put ops hs r c) by done. rewrite <- app_assoc, <- Hs, <- zlen_app.
    replace (zlen (records ops) + 1) with (zlen (records (ops ++ [Put r c]))) by (rewrite Hrec, zlen_app; done).
    apply building_unbuffered; [done| |rewrite Hrec, !length_app, Hl; done].
    rewrite Hrec, zip_with_app by done. apply placed_app; [done|].
    rewrite <- zlen_app, zlen_zip, Z.add_0_l by done. cbn [zip zip_with]. rewrite Hs.
    rewrite <- (app_nil_r (encoded e)). constructor; [done|]. constructor.
Qed.

Lemma apply_op_spec ver ops o b out :
  ops_ok (ops ++ [o]) -> valid_version ver has_dict -> building ver ops b out ->
  key_range (smallest_key_ b) (largest_key_ b) (records ops) ->
  exists b' out', apply_op (b, out) o = Some (b', out') /\ building ver (ops ++ [o]) b' out' /\
    key_range (smallest_key_ b') (largest_key_ b') (records (ops ++ [o])).
Proof.
  intros Hok Hv Hb Hk. pose proof (ops_ok_snoc _ _ Hok) as [[Hops _] Ho]. destruct o as [r c|c]; cbn [apply_op].
  - destruct (Add_spec ver ops r c b out Hok Hv Hb) as (b' & out' & -> & Hb' & Hs & Hl).
    exists b', out'. split; [done|]. split; [done|]. rewrite Hs, Hl, records_app.
    apply key_range_snoc; [by apply ops_ok_keys|apply Ho|done].
  - assert (records (ops ++ [Small c]) = records ops) as Hrec by (rewrite records_app; cbn; by rewrite app_nil_r).
    rewrite Hrec. destruct Hb as [len sm lg Hd|dict hs body sm lg Hd Hp Hl]; cbn [builder_state_].
    + destruct (decide _) as [|_]; [done|]. eexists _, _. split; [done|]. split; [|done].
      unfold AddSmall, set_samples. cbn.
      replace (map op_ctx ops ++ [c]) with (map op_ctx (ops ++ [Small c])) by by rewrite map_app.
      rewrite <- Hrec. by apply building_buffered.
    + destruct (decide _) as [_|]; [|done]. eexists _, _. split; [done|]. split; [|done].
      rewrite <- assign_snoc_small by done. rewrite <- Hrec. by apply building_unbuffered; rewrite ?Hrec.
Qed.

Lemma apply_ops_spec ver ops2 : forall ops1 b out,
  ops_ok (ops1 ++ ops2) -> valid_version ver has_dict -> building ver ops1 b out ->
  key_range (smallest_key_ b) (largest_key_ b) (records ops1) ->
  exists b' out', fold_option apply_op (b, out) ops2 = Some (b', out') /\ building ver (ops1 ++ ops2) b' out' /\
    key_range (smallest_key_ b') (largest_key_ b') (records (ops1 ++ ops2)).
Proof.
  induction ops2 as [|o ops2 IH]; intros ops1 b out Hok Hv Hb Hk.
  - rewrite app_nil_r. by exists b, out.
  - assert (ops_ok (ops1 ++ [o])) as Hok1.
    { destruct Hok as [Hf Hn]. rewrite cons_middle, app_assoc in Hf, Hn. apply Forall_app in Hf as [Hf _].
      rewrite records_app, zlen_app in Hn. pose proof (zlen_nonneg (records ops2)). split; [done|lia]. }
    destruct (apply_op_spec ver ops1 o b out Hok1 Hv Hb Hk) as (b1 & out1 & Ha & Hb1 & Hk1).
    cbn [fold_option]. rewrite Ha. cbn [mbind option_bind].
    rewrite (cons_middle o), app_assoc in Hok. rewrite (cons_middle o), app_assoc. by apply IH.
Qed.

(** ** From the constructor to [Finish] *)

(** The options and the version the builder is made for. *)
Record config_ok (ver : Z) : Prop := {
  cfg_version : valid_version ver has_dict;
  cfg_zstd : has_dict = true -> 10103 <= ZSTD_VERSION_NUMBER;
  cfg_dict_size : max_dict_bytes copts < 2 ^ 32 }.

Lemma BlobFileBuilder_new_spec ver :
  config_ok ver ->
  exists b, BlobFileBuilder_new copts new_file ver = Some b /\ building ver [] b [] /\
    smallest_key_ b = [] /\ largest_key_ b = [].
Proof.
  intros [Hv Hz _]. unfold BlobFileBuilder_new. cbn [status_].
  replace (ValidateVersion ver) with OK by by destruct Hv as [->|[-> _]]. cbn [ok negb].
  assert (forall st d, WriteHeader copts (mkBuilder st new_file ver OK [] [] 0 None [] 0 [] [] 0) = d ->
    d = Some (mkBuilder st (clean_file (file_header ver has_dict)) ver OK [] [] 0 None [] 0 [] [] 0)) as Hw.
  { intros st d <-. unfold WriteHeader. fold has_dict. cbn [blob_file_version_ file_].
    pose proof (file_header_size ver Hv) as Hs. unfold file_header, file_flags in *.
    destruct Hv as [->|[-> Hd]].
    - destruct has_dict; cbn [assert mbind option_bind Z.eqb kVersion2 Pos.eqb];
        rewrite (Append_clean []) by (rewrite zlen_nil; lia); done.
    - rewrite Hd in *. cbn [mbind option_bind]. rewrite (Append_clean []) by (rewrite zlen_nil; lia). done. }
  fold has_dict. destruct has_dict eqn:Hd.
  - rewrite (proj2 (Z.ltb_ge _ _)) by auto.
    assert (ver = kVersion2) as -> by (destruct Hv as [->|[_ Hv]]; [done|congruence]).
    cbn [negb Z.eqb kVersion2 Pos.eqb]. rewrite (Hw _ _ eq_refl). eexists. split; [done|].
    split; [|done]. pose proof (building_buffered 2 [] 0 [] [] Hd) as Hb. by rewrite Hd in Hb.
  - rewrite (Hw _ _ eq_refl). eexists. split; [done|]. split; [|done].
    pose proof (building_unbuffered ver [] [] [] [] [] []) as Hb. rewrite Hd, app_nil_r in Hb.
    apply Hb; [done|constructor|done].
Qed.

Lemma BlockHandle_EncodeTo_ok h :
  BlockHandle_wf h -> exists enc, BlockHandle_EncodeTo h = Some enc /\ zlen enc <= kMaxEncodedLength.
Proof.
  intros Hwf. destruct (BlockHandle_EncodeTo h) as [e|] eqn:E.
  - exists e. split; [done|]. by apply (BlockHandle_roundtrip h e [] Hwf E).
  - exfalso. unfold BlockHandle_EncodeTo, assert in E. unfold BlockHandle_wf in Hwf.
    repeat (case_match; [|simplify_eq/=; lia]). done.
Qed.

Lemma placed_total ver dict hs body rs :
  valid_version ver has_dict -> zlen rs <= 2 ^ 30 -> length hs = length rs ->
  placed t dict (zlen (file_header ver has_dict)) 0 (zip rs hs) body ->
  zlen (file_header ver has_dict ++ body) <= 12 + 2 ^ 30 * max_record.
Proof.
  intros Hv Hn Hl Hp. apply placed_bound in Hp. rewrite zlen_zip in Hp by done.
  pose proof (file_header_size ver Hv). rewrite zlen_app. unfold max_record in *. nia.
Qed.

(** What is finished: the entries in order, with the handles of the records in
    the file. *)
Record finished (ver : Z) (ops : list Op) (b : BlobFileBuilder) (out : OutContexts)
    (dict : option bytes) (hs : list BlobHandle) : Prop := {
  fin_dict : bool_decide (is_Some dict) = has_dict;
  fin_handles : length hs = length (records ops);
  fin_out : out = assign ops hs;
  fin_file : file_ b = clean_file (contents (file_ b));
  fin_layout : blob_file t ver dict (zip (records ops) hs) (contents (file_ b));
  fin_entries : num_entries_ b = zlen (records ops);
  fin_live : live_data_size_ b = foldr Z.add 0 (map size hs) }.

Lemma Finish_unbuffers ver ops b out :
  ops_ok ops -> config_ok ver -> building ver ops b out ->
  exists b' out',
    (if decide (builder_state_ b = kBuffered) then EnterUnbuffered t copts b out else Some (b, out))
      = Some (b', out') /\
    building ver ops b' out' /\ builder_state_ b' = kUnbuffered /\
    smallest_key_ b' = smallest_key_ b /\ largest_key_ b' = largest_key_ b.
Proof.
  intros [Hok Hn] Hc Hb. destruct Hb as [len sm lg Hd|dict hs body sm lg Hd Hp Hl]; cbn [builder_state_].
  - destruct (decide _) as [_|]; [|done]. by apply EnterUnbuffered_spec; [..|apply Hc|].
  - destruct (decide _) as [|_]; [done|]. eexists _, _. split; [done|]. split; [|done].
    by apply building_unbuffered.
Qed.

Lemma map_size_zip (rs : list BlobRecord) hs :
  length hs = length rs -> map (fun p => size p.2) (zip rs hs) = map size hs.
Proof.
  revert hs. induction rs as [|r rs IH]; intros [|h hs] Hl; try done. cbn in *. by rewrite IH by lia.
Qed.

Lemma zlen_raw_block b : zlen (raw_block b) = zlen b + 5.
Proof. unfold raw_block. zlia. Qed.

(** The end of the file without a dictionary. *)
Lemma Finish_plain ver ops dict hs body sm lg :
  ops_ok ops -> config_ok ver -> has_dict = false -> dict = [] ->
  placed t dict (zlen (file_header ver has_dict)) 0 (zip (records ops) hs) body ->
  length hs = length (records ops) ->
  exists b, Finish t copts (mkBuilder kUnbuffered (clean_file (file_header ver has_dict ++ body)) ver OK dict
      [] 0 (if has_dict then Some dict else None) [] (zlen (records ops)) sm lg (zlen body)) (assign ops hs)
    = Some (OK, b, assign ops hs) /\
    finished ver ops b (assign ops hs) None hs /\ smallest_key_ b = sm /\ largest_key_ b = lg.
Proof.
  intros [Hok Hn] Hc Hd -> Hp Hl. pose proof (placed_total _ _ _ _ _ (cfg_version _ Hc) Hn Hl Hp) as Ht.
  destruct (BlobFileFooter_roundtrip NullBlockHandle []) as (footer & Hf & _); [done|].
  pose proof (BlobFileFooter_length _ _ Hf) as Hfl. unfold kBlobFooterSize, kMaxEncodedLength, kMaxVarint64Length in Hfl.
  unfold Finish. cbn [status_ ok negb builder_state_]. destruct (decide _) as [|_]; [done|].
  cbn [mbind option_bind]. fold has_dict. rewrite Hd in *. cbn [mbind option_bind]. rewrite Hf.
  cbn [mbind option_bind file_ set_io]. unfold max_record in Ht.
  rewrite Append_clean by lia. cbn [fst snd ok status_ file_ set_io Flush clean_file outcomes].
  eexists. split; [done|]. split; [|done].
  assert (zlen ((file_header ver false ++ body) ++ footer) < 2 ^ 63) as Hb by (rewrite zlen_app; lia).
  split; cbn [file_ contents num_entries_ live_data_size_]; try done.
  - split; [|exists body, footer|exact Hb].
    + destruct (cfg_version _ Hc) as [|[? _]]; [by left|right; by split].
    + rewrite <- app_assoc. split; [done|]. split; [exact Hp|]. by constructor.
  - rewrite <- (map_size_zip _ _ Hl). symmetry. by apply (placed_sizes _ _ _ _ _ _ Hp).
Qed.

(** The end of the file with a dictionary. *)
Lemma Finish_dict ver ops dict hs body sm lg :
  ops_ok ops -> config_ok ver -> has_dict = true -> zlen dict <= max_dict_bytes copts ->
  placed t dict (zlen (file_header ver has_dict)) 0 (zip (records ops) hs) body ->
  length hs = length (records ops) ->
  exists b, Finish t copts (mkBuilder kUnbuffered (clean_file (file_header ver has_dict ++ body)) ver OK dict
      [] 0 (if has_dict then Some dict else None) [] (zlen (records ops)) sm lg (zlen body)) (assign ops hs)
    = Some (OK, b, assign ops hs) /\
    finished ver ops b (assign ops hs) (Some dict) hs /\ smallest_key_ b = sm /\ largest_key_ b = lg.
Proof.
  intros [Hok Hn] Hc Hd Hdl Hp Hl. pose proof (placed_total _ _ _ _ _ (cfg_version _ Hc) Hn Hl Hp) as Ht.
  pose proof (cfg_dict_size _ Hc) as Hds. unfold max_record in Ht.
  pose proof (zlen_nonneg (file_header ver has_dict ++ body)) as Hnn. pose proof (zlen_nonneg dict).
  set (start := file_header ver has_dict ++ body) in *.
  destruct (BlockHandle_EncodeTo_ok {| bh_offset := zlen start; bh_size := zlen dict |}) as (enc & He & Hel).
  { unfold BlockHandle_wf. cbn. lia. }
  set (meta := BuildBlock [(kCompressionDictBlockName, enc)]).
  pose proof (built_size kCompressionDictBlockName enc) as Hm. fold meta in Hm.
  change (zlen kCompressionDictBlockName) with 24 in Hm. unfold kMaxEncodedLength, kMaxVarint64Length in Hel.
  destruct (BlobFileFooter_roundtrip
    {| bh_offset := zlen start + zlen dict + kBlockTrailerSize; bh_size := zlen meta |} []) as (footer & Hf & _).
  { unfold BlockHandle_wf, kBlockTrailerSize. cbn. lia. }
  pose proof (BlobFileFooter_length _ _ Hf) as Hfl. unfold kBlobFooterSize, kMaxEncodedLength, kMaxVarint64Length in Hfl.
  assert (ver = kVersion2) as Hver by (destruct (cfg_version _ Hc) as [|[_ ?]]; congruence).
  unfold Finish. cbn [status_ ok negb builder_state_]. destruct (decide _) as [|_]; [done|].
  cbn [mbind option_bind]. fold has_dict. unfold WriteCompressionDictBlock.
  rewrite Hd. cbn [blob_file_version_]. rewrite (proj2 (Z.eqb_eq ver _) Hver). cbn [assert mbind option_bind compression_dict_].
  rewrite WriteRawBlock_clean by lia. cbn [ok status_]. rewrite He. cbn [mbind option_bind]. fold meta.
  rewrite WriteRawBlock_clean by (rewrite !zlen_app, zlen_raw_block; lia). cbn [mbind option_bind].
  replace (zlen (start ++ raw_block dict)) with (zlen start + zlen dict + kBlockTrailerSize)
    by (rewrite zlen_app, zlen_raw_block; unfold kBlockTrailerSize; lia).
  rewrite Hf. cbn [mbind option_bind file_ set_io].
  rewrite Append_clean by (rewrite !zlen_app, !zlen_raw_block; lia).
  cbn [fst snd ok status_ file_ set_io Flush clean_file outcomes].
  eexists. split; [done|]. split; [|done].
  assert (zlen (((start ++ raw_block dict) ++ raw_block meta) ++ footer) < 2 ^ 63) as Hb.
  { rewrite !zlen_app, !zlen_raw_block. lia. }
  split; cbn [file_ contents num_entries_ live_data_size_ set_io clean_file fst snd]; try done.
  - split; [by left|exists body, (raw_block dict ++ raw_block meta ++ footer)|exact Hb].
    cbn [default]. rewrite bool_decide_eq_true_2 by done. rewrite <- Hd. fold start.
    rewrite <- !app_assoc. unfold start at 1. rewrite <- app_assoc. split; [done|]. split; [exact Hp|].
    by econstructor.
  - rewrite <- (map_size_zip _ _ Hl). symmetry. by apply (placed_sizes _ _ _ _ _ _ Hp).
Qed.

Lemma Finish_spec ver ops b out :
  ops_ok ops -> config_ok ver -> building ver ops b out ->
  exists b' dict hs, Finish t copts b out = Some (OK, b', assign ops hs) /\
    finished ver ops b' (assign ops hs) dict hs /\
    smallest_key_ b' = smallest_key_ b /\ largest_key_ b' = largest_key_ b.
Proof.
  intros Hok Hc Hb. destruct (Finish_unbuffers ver ops b out Hok Hc Hb) as (b1 & out1 & He & Hb1 & Hu & Hs & Hl).
  assert (status_ b = OK) as Hst by by destruct Hb. assert (status_ b1 = OK) as Hst1 by by destruct Hb1.
  assert (Finish t copts b out = Finish t copts b1 out1) as ->.
  { unfold Finish. rewrite Hst, Hst1. cbn [ok negb]. rewrite He. by rewrite (decide_False (P := builder_state_ b1 = kBuffered)) by congruence. }
  rewrite <- Hs, <- Hl. clear He Hb Hst Hst1 Hs Hl.
  destruct Hb1 as [len sm lg Hd|dict hs body sm lg Hd Hp Hlen]; [done|].
  destruct has_dict eqn:Hhd.
  - destruct (Finish_dict ver ops dict hs body sm lg) as (b' & Hf & ?); try (by rewrite Hhd); [done..|].
    rewrite Hhd in Hf. by exists b', (Some dict), hs.
  - destruct (Finish_plain ver ops dict hs body sm lg) as (b' & Hf & ?); try done; [by rewrite Hhd|].
    rewrite Hhd in Hf. by exists b', None, hs.
Qed.

(** Building a file from any sequence of entries, when no write fails. *)
Lemma build_spec ver ops :
  ops_ok ops -> config_ok ver ->
  exists b dict hs, build new_file ver ops = Some (OK, b, assign ops hs) /\
    finished ver ops b (assign ops hs) dict hs /\
    key_range (smallest_key_ b) (largest_key_ b) (records ops).
Proof.
  intros Hok Hc. destruct (BlobFileBuilder_new_spec ver Hc) as (b0 & Hn & Hb0 & Hs0 & Hl0).
  destruct (apply_ops_spec ver ops [] b0 ([] : OutContexts) Hok (cfg_version _ Hc) Hb0) as (b1 & out1 & Ha & Hb1 & Hk1);
    [by rewrite Hs0, Hl0|].
  destruct (Finish_spec ver ops b1 out1 Hok Hc Hb1) as (b & dict & hs & Hf & Hfin & Hs & Hl).
  exists b, dict, hs. unfold build. rewrite Hn. cbn [mbind option_bind]. rewrite Ha. cbn [mbind option_bind].
  split; [done|]. split; [done|]. by rewrite Hs, Hl.
Qed.
End Build.
