(* ===== verification/BlobFileReader.v ===== *)
(** * BlobFileReader: reading records of a blob file by their handles

    [blob_file_reader.h], [blob_file_reader.cc], [blob_file_cache.h] and
    [blob_file_cache.cc]: opening a file, its uncompression dictionary, reading
    a record through the blob cache, the prefetcher, and the cache of open
    files. [option] is an assertion that fails; inside it, a status. *)
From S2P Require Import Prelude Coding Crc32c BlobFormat BlobFileMeta Options BlobFileBuilder.

Local Open Scope Z_scope.
Local Open Scope aegon_scope.

(** Sequencing of calls that can both assert and fail. *)
Definition or_bind {A B} (e : option (res A)) (k : A -> option (res B)) : option (res B) :=
  match e with
  | None => None
  | Some (Fail s) => Some (Fail s)
  | Some (Ret a) => k a
  end.

Notation "x '<-!' e ;; k" := (or_bind e (fun x : _ => k))
  (at level 20, e at level 99, k at level 200, only parsing) : aegon_scope.
Notation "' x '<-!' e ;; k" := (or_bind e (fun x : _ => k))
  (at level 20, x pattern, e at level 99, k at level 200, only parsing) : aegon_scope.

(** [RandomAccessFileReader]: [Read offset n] gives the bytes there, less of
    them at the end of the file; [unique_id] is what [GetUniqueId] gives. *)
Record RandomAccessFileReader : Type := mkRAF {
  Read : Z -> Z -> res bytes;
  unique_id : bytes }.

(** A file without read errors. *)
Definition stored (bs : bytes) (id : bytes) : RandomAccessFileReader :=
  mkRAF (fun off n => Ret (take (Z.to_nat n) (drop (Z.to_nat off) bs))) id.

(** [BlobFileFooter::DecodeFrom] through [DecodeInto]. *)
Definition DecodeInto_footer (src : bytes) : option (res BlockHandle) :=
  r ← BlobFileFooter_DecodeFrom src; Some (DecodeInto (fun _ => r) src false).

(** [BlobFileReader::ReadHeader], and the same lines of [BlobFileIterator::Init]. *)
Definition ReadHeader (file : RandomAccessFileReader) : res BlobFileHeader :=
  buffer <-? Read file 0 kBlobMaxHeaderSize ;;
  DecodeInto (BlobFileHeader_DecodeFrom BlobFileHeader_default) buffer true.

Section Reader.
Context `{L : FileLibrary}.

(** A buffer of [n] bytes into which [blob] has been read. *)
Definition filled (n : Z) (blob : bytes) : bytes := blob ++ drop (length blob) (uninit n).

(** [SeekToMetaBlock]: whether the block was found, and its handle. *)
Definition SeekToMetaBlock (meta block_name : bytes) : res (bool * BlockHandle) :=
  let it := SeekBlock meta block_name in
  if ok (seek_status it) && seek_valid it && bool_decide (seek_key it = block_name) then
    '(h, _) <-? BlockHandle_DecodeFrom (seek_value it) ;; Ret (true, h)
  else if ok (seek_status it) then Ret (false, NullBlockHandle) else Fail (seek_status it).

Definition InitUncompressionDict (meta_index_handle : BlockHandle) (file : RandomAccessFileReader)
    : option (res bytes) :=
  if ZSTD_VERSION_NUMBER <? 10103 then Some (Fail NotSupported) else
  _ ← assert (0 <? bh_size meta_index_handle);
  Some (
    blob <-? Read file (bh_offset meta_index_handle) (bh_size meta_index_handle) ;;
    let meta := filled (bh_size meta_index_handle) blob in
    '(dict_is_found, dict_block) <-? SeekToMetaBlock meta kCompressionDictBlockName ;;
    if negb dict_is_found then Fail NotFound else
    dict_slice <-? Read file (bh_offset dict_block) (bh_size dict_block) ;;
    Ret (filled (bh_size dict_block) dict_slice)).

(** ** [BlobFileReader] *)

Record BlobFileReader : Type := mkReader {
  fr_file_ : RandomAccessFileReader;
  cache_prefix_ : bytes;
  footer_ : BlockHandle;
  uncompression_dict_ : option bytes }.

(** A blob cache: the buffers it holds, by key. *)
Definition BlobCache : Type := gmap bytes bytes.

Definition GenerateCachePrefix (new_id : Z) (file : RandomAccessFileReader) : bytes :=
  if zlen (unique_id file) =? 0 then EncodeVarint64 new_id else unique_id file.

Definition EncodeBlobCache (prefix : bytes) (offset : Z) : bytes := prefix ++ PutVarint64 offset.

(** [cache_id]: the [NewId] of the blob cache, when there is one. *)
Definition BlobFileReader_Open (cache_id : option Z) (file : RandomAccessFileReader) (file_size : Z)
    : option (res BlobFileReader) :=
  if file_size <? kBlobFooterSize then Some (Fail Corruption) else
  header <-! Some (ReadHeader file) ;;
  buffer <-! Some (Read file (u64 (file_size - kBlobFooterSize)) kBlobFooterSize) ;;
  footer <-! DecodeInto_footer buffer ;;
  let prefix := match cache_id with Some new_id => GenerateCachePrefix new_id file | None => [] end in
  if negb (Z.land (flags header) kHasUncompressionDictionary =? 0) then
    dict <-! InitUncompressionDict footer file ;;
    Some (Ret (mkReader file prefix footer (Some dict)))
  else Some (Ret (mkReader file prefix footer None)).

(** The buffer that [DecodeRecord] leaves: the uncompressed bytes, when there
    was something to uncompress. *)
Definition decoded_buffer (dict : bytes) (d : BlobDecoder) (blob : bytes) : bytes :=
  let input := take (Z.to_nat (record_size_ d)) blob in
  if (Extend (header_crc_ d) input =? crc_ d) && negb (compression_ d =? kNoCompression)
  then default blob (UncompressData dict (compression_ d) input) else blob.

Definition ReadRecord (self : BlobFileReader) (handle : BlobHandle)
    : option (res (BlobRecord * bytes)) :=
  blob <-! Some (Read (fr_file_ self) (offset handle) (size handle)) ;;
  if negb (size handle =? zlen blob) then Some (Fail Corruption) else
  let dict := default [] (uncompression_dict_ self) in
  '(decoder, blob) <-! Some (DecodeHeader blob) ;;
  '(record, _) <-! DecodeRecord (UncompressData dict) decoder blob ;;
  Some (Ret (record, decoded_buffer dict decoder blob)).

(** [Get]: the record and the pinned buffer; [cache_] is the blob cache, if
    there is one, as this and other readers left it. *)
Definition BlobFileReader_Get (self : BlobFileReader) (cache_ : option BlobCache) (handle : BlobHandle)
    : option (res (BlobRecord * bytes) * option BlobCache) :=
  let cache_key := EncodeBlobCache (cache_prefix_ self) (offset handle) in
  match cache ← cache_; (cache : BlobCache) !! cache_key with
  | Some blob =>
      Some (record <-? DecodeInto BlobRecord_DecodeFrom blob false ;; Ret (record, blob), cache_)
  | None =>
      r ← ReadRecord self handle;
      Some (r, match r with
               | Ret (_, blob) => <[cache_key := blob]> <$> cache_
               | Fail _ => cache_
               end)
  end.

(** ** [BlobFilePrefetcher] *)

Definition kMaxReadaheadSize : Z := Z.shiftl 256 10.

Record BlobFilePrefetcher : Type := mkPrefetcher {
  last_offset_ : Z;
  readahead_size_ : Z;
  readahead_limit_ : Z }.

Definition BlobFilePrefetcher_new : BlobFilePrefetcher := mkPrefetcher 0 0 0.

(** What [Get] does before it reads: the prefetch it asks for, if any. *)
Definition prefetch (p : BlobFilePrefetcher) (handle : BlobHandle)
    : BlobFilePrefetcher * option (Z * Z) :=
  let end_ := u64 (offset handle + size handle) in
  if offset handle =? last_offset_ p then
    if readahead_limit_ p <? end_ then
      let rs := Z.max (size handle) (readahead_size_ p) in
      (mkPrefetcher end_ (Z.min kMaxReadaheadSize (u64 (rs * 2))) (u64 (offset handle + rs)),
       Some (offset handle, rs))
    else (mkPrefetcher end_ (readahead_size_ p) (readahead_limit_ p), None)
  else (mkPrefetcher end_ 0 0, None).

Definition BlobFilePrefetcher_Get (p : BlobFilePrefetcher) (reader_ : BlobFileReader)
    (cache_ : option BlobCache) (handle : BlobHandle)
    : BlobFilePrefetcher * option (res (BlobRecord * bytes) * option BlobCache) :=
  let '(p, _) := prefetch p handle in (p, BlobFileReader_Get reader_ cache_ handle).

(** ** [BlobFileCache] *)

(** [NewRandomAccessFile] of the file system, by file number. *)
Context (NewRandomAccessFile : Z -> res RandomAccessFileReader).

(** The open files, by the bytes of their number in memory. *)
Definition FileCache : Type := gmap bytes BlobFileReader.

Definition EncodeFileNumber (number : Z) : bytes := PutFixed64 number.

Definition BlobFileCache_FindFile (cache_ : FileCache) (cache_id : option Z) (file_number file_size : Z)
    : option (res BlobFileReader * FileCache) :=
  let cache_key := EncodeFileNumber file_number in
  match cache_ !! cache_key with
  | Some reader => Some (Ret reader, cache_)
  | None =>
      r ← (file <-! Some (NewRandomAccessFile file_number) ;;
           BlobFileReader_Open cache_id file file_size);
      Some (r, match r with Ret reader => <[cache_key := reader]> cache_ | Fail _ => cache_ end)
  end.

Definition BlobFileCache_Get (cache_ : FileCache) (cache_id : option Z) (blobs : option BlobCache)
    (file_number file_size : Z) (handle : BlobHandle)
    : option (res (BlobRecord * bytes) * FileCache * option BlobCache) :=
  '(s, cache_) ← BlobFileCache_FindFile cache_ cache_id file_number file_size;
  match s with
  | Fail s => Some (Fail s, cache_, blobs)
  | Ret reader =>
      '(r, blobs) ← BlobFileReader_Get reader blobs handle;
      Some (r, cache_, blobs)
  end.

Definition BlobFileCache_NewPrefetcher (cache_ : FileCache) (cache_id : option Z)
    (file_number file_size : Z)
    : option (res (BlobFileReader * BlobFilePrefetcher) * FileCache) :=
  '(s, cache_) ← BlobFileCache_FindFile cache_ cache_id file_number file_size;
  Some (reader <-? s ;; Ret (reader, BlobFilePrefetcher_new), cache_).

Definition BlobFileCache_Evict (cache_ : FileCache) (file_number : Z) : FileCache :=
  delete (EncodeFileNumber file_number) cache_.
End Reader.
