(* ===== verification/BlobFileReaderProofs.v ===== *)
(** * BlobFileReaderProofs: opening a finished file and reading its records

    A reader opened on a file with the layout of [BlobFileBuilderProofs] reads,
    for every handle, the record it was given for, whatever the caches hold. *)
From S2P Require Import Prelude Coding Crc32c BlobFormat BlobFileMeta Options BlobFileBuilder BlobFileBuilderProofs BlobFileReader.

Local Open Scope Z_scope.
Local Open Scope aegon_scope.

(** Reading at the boundaries of a concatenation. *)
Lemma Read_stored_at a b c id off n :
  off = zlen a -> n = zlen b -> Read (stored (a ++ b ++ c) id) off n = Ret b.
Proof.
  intros -> ->. unfold stored. cbn [Read]. by rewrite !zlen_to_nat, drop_app_length, take_app_length.
Qed.

Lemma Read_stored_end a b id off n :
  off = zlen a -> zlen b <= n -> Read (stored (a ++ b) id) off n = Ret b.
Proof.
  intros -> Hn. unfold stored. cbn [Read]. rewrite zlen_to_nat, drop_app_length.
  rewrite take_ge; [done|]. unfold zlen in Hn. lia.
Qed.

Section ReaderProofs.
Context `{L : FileLibrary} `{!FileLibraryLaws L}.
Context (t : Z) (Ht : is_byte t).

Definition record_ok (r : BlobRecord) : Prop :=
  BlobRecord_wf r /\ is_bytes (key r) /\ is_bytes (value r).

Lemma filled_full n blob : n = zlen blob -> filled n blob = blob.
Proof.
  intros ->. unfold filled. rewrite drop_ge; [by rewrite app_nil_r|].
  pose proof (uninit_size (zlen blob) (zlen_nonneg _)) as Hu. unfold zlen in *. lia.
Qed.

Lemma bool_decide_Some {A} (a : A) : bool_decide (is_Some (Some a)) = true.
Proof. by apply bool_decide_eq_true_2. Qed.

Lemma bool_decide_None {A} : bool_decide (is_Some (@None A)) = false.
Proof. apply bool_decide_eq_false_2. by intros [? ?]. Qed.

Lemma ReadHeader_file ver dict rs bs id :
  blob_file t ver dict rs bs ->
  ReadHeader (stored bs id) = Ret {| version := ver; flags := file_flags (bool_decide (is_Some dict)) |}.
Proof.
  intros [Hv (body & tail & -> & _) _]. set (h := {| version := ver; flags := _ |}).
  assert (forall rest, BlobFileHeader_DecodeFrom BlobFileHeader_default (BlobFileHeader_EncodeTo h ++ rest) = Ret (h, rest)
    /\ zlen (BlobFileHeader_EncodeTo h) = BlobFileHeader_size h) as Hr.
  { intros rest. apply BlobFileHeader_roundtrip. destruct Hv as [Hv|[Hv Hd]].
    - right. split; [done|]. unfold h, file_flags. cbn. destruct (bool_decide _); auto.
    - left. split; [done|]. unfold h. cbn. by rewrite Hd. }
  assert (zlen (BlobFileHeader_EncodeTo h) <= 12) as Hs.
  { destruct (Hr []) as [_ ->]. unfold BlobFileHeader_size. case_match; done. }
  unfold ReadHeader, file_header, stored. fold h. cbn [Read].
  change (Z.to_nat kBlobMaxHeaderSize) with 12%nat. rewrite drop_0, take_app. cbn [res_bind].
  rewrite (take_ge (BlobFileHeader_EncodeTo h)) by (unfold zlen in Hs; lia).
  unfold DecodeInto. destruct (Hr (take (12 - length (BlobFileHeader_EncodeTo h)) (body ++ tail))) as [-> _]. done.
Qed.

(** The footer, the handle in it, and what the handle leads to. *)
Lemma footer_of_tail start dict tail :
  0 <= start -> start + zlen tail < 2 ^ 63 -> file_tail start dict tail ->
  exists metas footer h, tail = metas ++ footer /\ zlen footer = kBlobFooterSize /\
    DecodeInto_footer footer = Some (Ret h) /\
    BlobFileFooter_DecodeFrom footer = Some (Ret (h, [])) /\
    match dict with
    | None => metas = [] /\ h = NullBlockHandle
    | Some d => exists enc, BlockHandle_EncodeTo {| bh_offset := start; bh_size := zlen d |} = Some enc /\
        metas = raw_block d ++ raw_block (BuildBlock [(kCompressionDictBlockName, enc)]) /\
        h = {| bh_offset := start + zlen d + kBlockTrailerSize;
               bh_size := zlen (BuildBlock [(kCompressionDictBlockName, enc)]) |}
    end.
Proof.
  intros Hs Hb Ht'. assert (forall h footer, BlockHandle_wf h -> BlobFileFooter_EncodeTo h = Some footer ->
    zlen footer = kBlobFooterSize /\ DecodeInto_footer footer = Some (Ret h) /\
    BlobFileFooter_DecodeFrom footer = Some (Ret (h, []))) as Hf.
  { intros h footer Hwf He. split; [by apply BlobFileFooter_length in He|].
    destruct (BlobFileFooter_roundtrip h [] Hwf) as (enc & He' & Hd). rewrite app_nil_r in Hd. simplify_eq.
    unfold DecodeInto_footer. by rewrite Hd. }
  destruct Ht' as [footer Hfo|dict enc footer Henc Hfo].
  - exists [], footer, NullBlockHandle. destruct (Hf NullBlockHandle footer) as (? & ? & ?); [by unfold BlockHandle_wf|done|]. by repeat split.
  - eexists (raw_block dict ++ raw_block _), footer, _. rewrite <- app_assoc. split; [done|].
    rewrite !zlen_app, !zlen_raw_block in Hb. pose proof (zlen_nonneg footer). pose proof (zlen_nonneg dict).
    pose proof (zlen_nonneg (BuildBlock [(kCompressionDictBlockName, enc)])).
    destruct (Hf {| bh_offset := start + zlen dict + kBlockTrailerSize;
           bh_size := zlen (BuildBlock [(kCompressionDictBlockName, enc)]) |} footer) as (? & ? & ?); [|done|].
    { unfold BlockHandle_wf, kBlockTrailerSize. cbn. lia. }
    split; [done|]. split; [done|]. split; [done|]. by exists enc.
Qed.

Lemma SeekToMetaBlock_found start (d : bytes) enc :
  0 <= start < 2 ^ 63 -> 0 <= zlen d < 2 ^ 63 ->
  BlockHandle_EncodeTo {| bh_offset := start; bh_size := zlen d |} = Some enc ->
  SeekToMetaBlock (BuildBlock [(kCompressionDictBlockName, enc)]) kCompressionDictBlockName
    = Ret (true, {| bh_offset := start; bh_size := zlen d |}).
Proof.
  intros Hs Hd He. unfold SeekToMetaBlock. rewrite seek_built. cbn [seek_status seek_valid seek_key seek_value ok andb].
  rewrite bool_decide_eq_true_2 by done.
  destruct (BlockHandle_roundtrip {| bh_offset := start; bh_size := zlen d |} enc [] ltac:(unfold BlockHandle_wf; cbn; lia) He) as [Hdec _].
  rewrite app_nil_r in Hdec. by rewrite Hdec.
Qed.

(** The dictionary is found again. *)
Lemma InitUncompressionDict_file (pre d : bytes) enc footer id :
  10103 <= ZSTD_VERSION_NUMBER ->
  zlen (pre ++ raw_block d) < 2 ^ 63 ->
  BlockHandle_EncodeTo {| bh_offset := zlen pre; bh_size := zlen d |} = Some enc ->
  InitUncompressionDict
    {| bh_offset := zlen pre + zlen d + kBlockTrailerSize;
       bh_size := zlen (BuildBlock [(kCompressionDictBlockName, enc)]) |}
    (stored (pre ++ raw_block d ++ raw_block (BuildBlock [(kCompressionDictBlockName, enc)]) ++ footer) id)
  = Some (Ret d).
Proof.
  intros Hz Hb He. unfold InitUncompressionDict. rewrite (proj2 (Z.ltb_ge _ _)) by done.
  set (meta := BuildBlock _). cbn [bh_size bh_offset].
  pose proof (built_size kCompressionDictBlockName enc) as Hm. fold meta in Hm.
  rewrite zlen_app, zlen_raw_block in Hb. pose proof (zlen_nonneg pre). pose proof (zlen_nonneg d).
  rewrite (proj2 (Z.ltb_lt _ _)) by lia. cbn [assert mbind option_bind].
  unfold raw_block at 2. rewrite <- app_assoc.
  rewrite (app_assoc pre), (Read_stored_at (pre ++ raw_block d) meta); [|rewrite zlen_app, zlen_raw_block; unfold kBlockTrailerSize; lia|done].
  cbn [res_bind]. rewrite filled_full by done.
  unfold meta at 1. rewrite (SeekToMetaBlock_found (zlen pre) d enc) by (done || lia). cbn [res_bind negb bh_offset bh_size].
  unfold raw_block. rewrite <- !app_assoc. rewrite (Read_stored_at pre d) by done.
  cbn [res_bind]. by rewrite filled_full.
Qed.

Lemma BlobFileReader_Open_file cache_id ver dict rs bs id :
  blob_file t ver dict rs bs -> (is_Some dict -> 10103 <= ZSTD_VERSION_NUMBER) ->
  exists footer, BlobFileReader_Open cache_id (stored bs id) (zlen bs)
    = Some (Ret (mkReader (stored bs id)
        (match cache_id with Some n => GenerateCachePrefix n (stored bs id) | None => [] end) footer dict)).
Proof.
  intros Hbf Hz. pose proof (ReadHeader_file _ _ _ _ id Hbf) as Hh. destruct Hbf as [Hv (body & tail & Hbs & Hp & Htl) Hsz].
  set (hdr := file_header ver _) in *.
  destruct (footer_of_tail _ _ _ (zlen_nonneg _) ltac:(rewrite <- zlen_app, <- app_assoc, <- Hbs; done) Htl)
    as (metas & footer & h & -> & Hfl & Hdi & _ & Hcase).
  assert (bs = (hdr ++ body ++ metas) ++ footer) as Hbs' by by rewrite Hbs, <- !app_assoc.
  pose proof (zlen_nonneg (hdr ++ body ++ metas)) as Hnn.
  exists h. unfold BlobFileReader_Open.
  assert (zlen bs = zlen (hdr ++ body ++ metas) + kBlobFooterSize) as Hlen by by rewrite Hbs', zlen_app, Hfl.
  rewrite (proj2 (Z.ltb_ge _ _)) by lia. rewrite Hh. cbn [or_bind].
  rewrite Hlen, u64_small by (unfold is_u64, kBlobFooterSize, kMaxEncodedLength, kMaxVarint64Length in *; lia).
  rewrite Hbs' at 1. rewrite (Read_stored_end _ footer) by lia. cbn [or_bind]. rewrite Hdi. cbn [or_bind flags].
  destruct dict as [d|].
  - rewrite bool_decide_Some. cbn [file_flags Z.land kHasUncompressionDictionary Pos.land Z.eqb negb].
    destruct Hcase as (enc & He & -> & ->). rewrite Hbs, (app_assoc hdr), <- !app_assoc, (app_assoc hdr).
    rewrite InitUncompressionDict_file; [done|by apply Hz| |done].
    rewrite Hbs in Hsz. rewrite !zlen_app, !zlen_raw_block in *. pose proof (zlen_nonneg footer).
    pose proof (zlen_nonneg (BuildBlock [(kCompressionDictBlockName, enc)])). lia.
  - by rewrite (bool_decide_None (A := bytes)).
Qed.

(** ** Reading a record *)

(** Whatever [DecodeRecord] decoded, decoding its buffer gives again. *)
Lemma decoded_buffer_decodes dict d src r :
  DecodeRecord (UncompressData dict) d src = Some (Ret (r, [])) ->
  DecodeInto BlobRecord_DecodeFrom (decoded_buffer dict d src) false = Ret r.
Proof.
  intros H. unfold DecodeRecord in H. apply bind_Some in H as ([] & Ha & H).
  unfold decoded_buffer. destruct (Z.eqb_spec (Extend (header_crc_ d) (take (Z.to_nat (record_size_ d)) src)) (crc_ d)) as [_|]; [|done].
  cbn [negb andb] in *. destruct (Z.eqb_spec (compression_ d) kNoCompression) as [_|Hne]; cbn [negb] in *.
  - destruct (DecodeInto _ (take _ _) false) as [r'|] eqn:E; [|done]. cbn in H.
    injection H as -> Hdrop. rewrite <- E. f_equal.
    rewrite <- (take_drop (Z.to_nat (record_size_ d)) src) at 1. by rewrite Hdrop, app_nil_r.
  - unfold Uncompress in H. destruct (Z.eqb_spec (compression_ d) kNoCompression) as [|_]; [done|]. cbn in H.
    destruct (UncompressData dict (compression_ d) _) as [out|]; [|done]. cbn in *.
    destruct (DecodeInto _ out false) as [r'|] eqn:E; [|done]. cbn in H. by injection H as ->.
Qed.

(** [self] reads the file of the records [rs]. *)
Record reads (self : BlobFileReader) (rs : list (BlobRecord * BlobHandle)) : Prop := {
  rd_file : exists ver bs id, fr_file_ self = stored bs id /\
              blob_file t ver (uncompression_dict_ self) rs bs;
  rd_records : Forall (fun p => record_ok p.1) rs }.

Lemma ReadRecord_spec self rs r h :
  reads self rs -> (r, h) ∈ rs ->
  exists buffer, ReadRecord self h = Some (Ret (r, buffer)) /\
    DecodeInto BlobRecord_DecodeFrom buffer false = Ret r.
Proof.
  intros [(ver & bs & id & Hf & [Hv (body & tail & Hbs & Hp & _) Hsz]) Hok] Hin.
  rewrite Forall_forall in Hok. destruct (Hok _ Hin) as (Hwf & Hk & Hval). cbn in Hwf, Hk, Hval.
  apply list_elem_of_lookup in Hin as [i Hi].
  destruct (placed_lookup _ _ _ _ _ _ _ _ _ Hp Hi) as (e & pre & post & He & -> & ->).
  set (hdr := file_header ver _) in *.
  destruct (EncodeRecord_DecodeRecord (CompressData (default [] (uncompression_dict_ self)))
    (UncompressData (default [] (uncompression_dict_ self))) (uncompress_compress _) (compress_bytes _)
    t r e [] Ht Hwf Hk Hval He) as (_ & Hsize & d & Hd & Hrs & Hdec).
  rewrite !app_nil_r in *. exists (decoded_buffer (default [] (uncompression_dict_ self)) d (record_ e)).
  split; [|by apply decoded_buffer_decodes].
  unfold ReadRecord. cbn [offset size]. rewrite Hf, Hbs, <- !app_assoc, (app_assoc hdr).
  rewrite (Read_stored_at (hdr ++ pre) (encoded e)) by (rewrite ?zlen_app; done). cbn [or_bind].
  rewrite Z.eqb_refl. cbn [negb]. rewrite Hd. cbn [or_bind]. rewrite Hdec. done.
Qed.

(** ** The keys of the blob cache *)

(** The prefixes that [GetUniqueId] and [NewId] give: some varints. *)
Definition varint_prefix (p : bytes) : Prop :=
  exists ids, Forall is_u64 ids /\ p = concat (map PutVarint64 ids).

Lemma PutVarint64_inj a b x y :
  is_u64 a -> is_u64 b -> PutVarint64 a ++ x = PutVarint64 b ++ y -> a = b /\ x = y.
Proof.
  intros Ha Hb He. pose proof (GetVarint64_Put a x Ha) as H1. rewrite He, GetVarint64_Put in H1 by done.
  by injection H1.
Qed.

Lemma concat_varints_inj l1 : forall l2,
  Forall is_u64 l1 -> Forall is_u64 l2 ->
  concat (map PutVarint64 l1) = concat (map PutVarint64 l2) -> l1 = l2.
Proof.
  induction l1 as [|a l1 IH]; intros [|b l2] H1 H2 He; cbn in *; [done| | |].
  - destruct (PutVarint64_cons b) as (x & p & Hx). by rewrite Hx in He.
  - destruct (PutVarint64_cons a) as (x & p & Hx). by rewrite Hx in He.
  - apply Forall_cons in H1 as [Ha H1]. apply Forall_cons in H2 as [Hb H2].
    apply PutVarint64_inj in He as [-> He]; [|done..]. f_equal. by apply IH.
Qed.

(** Keys tell files and offsets apart. *)
Lemma EncodeBlobCache_inj p1 p2 o1 o2 :
  varint_prefix p1 -> varint_prefix p2 -> is_u64 o1 -> is_u64 o2 ->
  EncodeBlobCache p1 o1 = EncodeBlobCache p2 o2 -> p1 = p2 /\ o1 = o2.
Proof.
  intros (l1 & H1 & ->) (l2 & H2 & ->) Ho1 Ho2 He. unfold EncodeBlobCache in He.
  assert (forall l o, concat (map PutVarint64 l) ++ PutVarint64 o = concat (map PutVarint64 (l ++ [o]))) as Hs.
  { intros l o. rewrite map_app, concat_app. cbn. by rewrite app_nil_r. }
  rewrite !Hs in He. apply concat_varints_inj in He; [|apply Forall_app; split; [done|by constructor]..].
  by apply app_inj_tail in He as [-> ->].
Qed.

Lemma varint_prefix_new_id n : is_u64 n -> varint_prefix (EncodeVarint64 n).
Proof. intros Hn. exists [n]. split; [by constructor|]. cbn. by rewrite app_nil_r. Qed.

(** ** The blob cache is transparent *)

(** Open readers that share a cache. Two readers of one file have one prefix,
    readers of different files have different ones. *)
Record sharing (rds : list (BlobFileReader * list (BlobRecord * BlobHandle))) : Prop := {
  sh_reads : forall rd rs, (rd, rs) ∈ rds -> reads rd rs;
  sh_prefix : forall rd rs, (rd, rs) ∈ rds -> varint_prefix (cache_prefix_ rd);
  sh_files : forall rd1 rs1 rd2 rs2, (rd1, rs1) ∈ rds -> (rd2, rs2) ∈ rds ->
    cache_prefix_ rd1 = cache_prefix_ rd2 -> rs1 = rs2 }.

(** What is cached for a handle decodes to its record. *)
Definition cache_ok (rds : list (BlobFileReader * list (BlobRecord * BlobHandle))) (c : BlobCache) : Prop :=
  forall rd rs r h blob, (rd, rs) ∈ rds -> (r, h) ∈ rs ->
    c !! EncodeBlobCache (cache_prefix_ rd) (offset h) = Some blob ->
    DecodeInto BlobRecord_DecodeFrom blob false = Ret r.

Lemma cache_ok_subset rds (c c' : BlobCache) : cache_ok rds c -> c' ⊆ c -> cache_ok rds c'.
Proof. intros Hc Hs rd rs r h blob Hrd Hr Hb. eapply Hc; [done..|]. by eapply lookup_weaken. Qed.

Lemma placed_offsets dict off idx rs body r1 h1 r2 h2 :
  placed t dict off idx rs body -> (r1, h1) ∈ rs -> (r2, h2) ∈ rs -> offset h1 = offset h2 -> r1 = r2.
Proof.
  assert (forall off idx rs body r h, placed t dict off idx rs body -> (r, h) ∈ rs -> off <= offset h) as Hge.
  { intros off' idx' rs' body' r h Hp Hin. apply list_elem_of_lookup in Hin as [i Hi].
    destruct (placed_lookup _ _ _ _ _ _ _ _ _ Hp Hi) as (e & pre & post & _ & _ & ->). cbn.
    pose proof (zlen_nonneg pre). lia. }
  induction 1 as [|off idx r e rs body He Hp IH]; intros H1 H2 Ho; [by apply not_elem_of_nil in H1|].
  apply EncodeSlice_sizes in He as (_ & _ & Hsz).
  apply elem_of_cons in H1 as [[= -> ->]|H1], H2 as [[= -> ->]|H2]; [done| | |by apply IH].
  - pose proof (Hge _ _ _ _ _ _ Hp H2). cbn in *. lia.
  - pose proof (Hge _ _ _ _ _ _ Hp H1). cbn in *. lia.
Qed.

Lemma reads_offset rd rs r h : reads rd rs -> (r, h) ∈ rs -> is_u64 (offset h).
Proof.
  intros [(ver & bs & id & _ & [_ (body & tail & Hbs & Hp & _) Hsz]) _] Hin.
  apply list_elem_of_lookup in Hin as [i Hi].
  destruct (placed_lookup _ _ _ _ _ _ _ _ _ Hp Hi) as (e & pre & post & _ & -> & ->).
  rewrite Hbs in Hsz. unfold is_u64. cbn. set (hdr := file_header ver _) in *. zlia.
Qed.

Lemma reads_functional rd rs r1 h1 r2 h2 :
  reads rd rs -> (r1, h1) ∈ rs -> (r2, h2) ∈ rs -> offset h1 = offset h2 -> r1 = r2.
Proof.
  intros [(ver & bs & id & _ & [_ (body & tail & _ & Hp & _) _]) _] H1 H2 Ho.
  by eapply placed_offsets.
Qed.

(** A read through the cache: the record, and a cache that is still right. *)
Lemma BlobFileReader_Get_cached rds rd rs r h c :
  sharing rds -> cache_ok rds c -> (rd, rs) ∈ rds -> (r, h) ∈ rs ->
  exists buffer c', BlobFileReader_Get rd (Some c) h = Some (Ret (r, buffer), Some c') /\ cache_ok rds c'.
Proof.
  intros Hsh Hc Hrd Hr. unfold BlobFileReader_Get. cbn [mbind option_bind].
  set (k := EncodeBlobCache (cache_prefix_ rd) (offset h)).
  destruct (c !! k) as [blob|] eqn:Ek.
  - rewrite (Hc rd rs r h blob Hrd Hr Ek). by exists blob, c.
  - destruct (ReadRecord_spec rd rs r h (sh_reads _ Hsh _ _ Hrd) Hr) as (buffer & -> & Hdec).
    cbn [mbind option_bind fmap option_fmap option_map]. exists buffer, (<[k := buffer]> c). split; [done|].
    intros rd' rs' r' h' blob Hrd' Hr' Hl. apply lookup_insert_Some in Hl as [[Hk <-]|[_ Hl]]; [|by eapply Hc].
    apply EncodeBlobCache_inj in Hk as [Hp Ho];
      [|by eapply sh_prefix..|by apply (reads_offset rd rs r h); [eapply sh_reads|]
       |by apply (reads_offset rd' rs' r' h'); [eapply sh_reads|]].
    pose proof (sh_files _ Hsh _ _ _ _ Hrd Hrd' Hp) as ->.
    rewrite Hdec. f_equal. eapply (reads_functional rd'); [by eapply sh_reads|done..].
Qed.

(** The caches that reads and evictions lead to. *)
Inductive cache_step (rds : list (BlobFileReader * list (BlobRecord * BlobHandle))) : BlobCache -> BlobCache -> Prop :=
  | step_get rd rs r h c res c' :
      (rd, rs) ∈ rds -> (r, h) ∈ rs ->
      BlobFileReader_Get rd (Some c) h = Some (res, Some c') -> cache_step rds c c'
  | step_evict c c' : c' ⊆ c -> cache_step rds c c'.

Lemma cache_steps_ok rds c : sharing rds -> rtc (cache_step rds) ∅ c -> cache_ok rds c.
Proof.
  intros Hsh Hr. assert (cache_ok rds ∅) as H0.
  { intros rd rs r h blob _ _ Hl. by apply (lookup_empty_Some (M := gmap bytes)) in Hl. }
  remember (∅ : BlobCache) as c0 eqn:E0. clear E0. induction Hr as [c|c1 c2 c3 Hst _ IH]; [done|]. apply IH.
  destruct Hst as [rd rs r h c1 res c2 Hrd Hr' Hg|c1 c2 Hs]; [|by eapply cache_ok_subset].
  destruct (BlobFileReader_Get_cached _ _ _ _ _ _ Hsh H0 Hrd Hr') as (buffer & c' & Hg' & Hok).
  by simplify_eq.
Qed.
End ReaderProofs.
