(* ===== verification/BlobFileIterator.v ===== *)
(** * BlobFileIterator: reading all the records of blob files

    [blob_file_iterator.h] and [blob_file_iterator.cc]: the iterator over one
    file, with its readahead window and its bitmap of invalid entries, and the
    iterator that merges several files by key. *)
From S2P Require Import Prelude Coding Crc32c BlobFormat BitMap BlobFileMeta Options BlobFileBuilder BlobFileReader.

Local Open Scope Z_scope.
Local Open Scope aegon_scope.

Definition kMinReadaheadSize : Z := Z.shiftl 4 10.
Definition kDefaultPageSize : Z := 4 * 1024.

(** ** [BlobFileIterator] *)

Record BlobFileIterator : Type := mkIter {
  it_file_ : RandomAccessFileReader;
  it_file_number_ : Z;
  it_file_size_ : Z;
  it_file_entries_ : Z;
  it_min_blob_size : Z;
  init_ : bool;
  end_of_blob_record_ : Z;
  it_status_ : Status;
  valid_ : bool;
  it_dict_ : option bytes;
  iterate_offset_ : Z;
  iterate_index_ : Z;
  cur_blob_record_ : BlobRecord;
  cur_record_offset_ : Z;
  cur_record_size_ : Z;
  header_size_ : Z;
  readahead_begin_offset_ : Z;
  readahead_end_offset_ : Z;
  it_readahead_size_ : Z;
  bitmap_ : option BitMap;
  cur_record_index_ : Z }.

(** The constructor. The members without an initialiser hold [garbage]. *)
Definition BlobFileIterator_new (garbage : Z) (file : RandomAccessFileReader)
    (file_name file_size : Z) (titan_cf_options : TitanCFOptions) (file_entries : Z)
    : BlobFileIterator :=
  mkIter file file_name file_size file_entries (min_blob_size titan_cf_options)
    false 0 OK false None 0 0 {| key := []; value := [] |} garbage garbage garbage
    0 0 kMinReadaheadSize None garbage.

Definition UINT64_MAX : Z := 2 ^ 64 - 1.

(** The assignments of the operations below. *)
Definition it_status (i : BlobFileIterator) (s : Status) : BlobFileIterator :=
  mkIter (it_file_ i) (it_file_number_ i) (it_file_size_ i) (it_file_entries_ i) (it_min_blob_size i)
    (init_ i) (end_of_blob_record_ i) s (valid_ i) (it_dict_ i)
    (iterate_offset_ i) (iterate_index_ i) (cur_blob_record_ i) (cur_record_offset_ i)
    (cur_record_size_ i) (header_size_ i) (readahead_begin_offset_ i) (readahead_end_offset_ i)
    (it_readahead_size_ i) (bitmap_ i) (cur_record_index_ i).

Definition it_valid (i : BlobFileIterator) (v : bool) : BlobFileIterator :=
  mkIter (it_file_ i) (it_file_number_ i) (it_file_size_ i) (it_file_entries_ i) (it_min_blob_size i)
    (init_ i) (end_of_blob_record_ i) (it_status_ i) v (it_dict_ i)
    (iterate_offset_ i) (iterate_index_ i) (cur_blob_record_ i) (cur_record_offset_ i)
    (cur_record_size_ i) (header_size_ i) (readahead_begin_offset_ i) (readahead_end_offset_ i)
    (it_readahead_size_ i) (bitmap_ i) (cur_record_index_ i).

Definition it_position (i : BlobFileIterator) (off idx : Z) : BlobFileIterator :=
  mkIter (it_file_ i) (it_file_number_ i) (it_file_size_ i) (it_file_entries_ i) (it_min_blob_size i)
    (init_ i) (end_of_blob_record_ i) (it_status_ i) (valid_ i) (it_dict_ i)
    off idx (cur_blob_record_ i) (cur_record_offset_ i)
    (cur_record_size_ i) (header_size_ i) (readahead_begin_offset_ i) (readahead_end_offset_ i)
    (it_readahead_size_ i) (bitmap_ i) (cur_record_index_ i).

Definition it_layout (i : BlobFileIterator) (init : bool) (header_size end_ : Z) (dict : option bytes)
    : BlobFileIterator :=
  mkIter (it_file_ i) (it_file_number_ i) (it_file_size_ i) (it_file_entries_ i) (it_min_blob_size i)
    init end_ (it_status_ i) (valid_ i) dict
    (iterate_offset_ i) (iterate_index_ i) (cur_blob_record_ i) (cur_record_offset_ i)
    (cur_record_size_ i) header_size (readahead_begin_offset_ i) (readahead_end_offset_ i)
    (it_readahead_size_ i) (bitmap_ i) (cur_record_index_ i).

Definition it_current (i : BlobFileIterator) (r : BlobRecord) (off size idx : Z) : BlobFileIterator :=
  mkIter (it_file_ i) (it_file_number_ i) (it_file_size_ i) (it_file_entries_ i) (it_min_blob_size i)
    (init_ i) (end_of_blob_record_ i) (it_status_ i) (valid_ i) (it_dict_ i)
    (iterate_offset_ i) (iterate_index_ i) r off
    size (header_size_ i) (readahead_begin_offset_ i) (readahead_end_offset_ i)
    (it_readahead_size_ i) (bitmap_ i) idx.

Definition it_window (i : BlobFileIterator) (b e s : Z) : BlobFileIterator :=
  mkIter (it_file_ i) (it_file_number_ i) (it_file_size_ i) (it_file_entries_ i) (it_min_blob_size i)
    (init_ i) (end_of_blob_record_ i) (it_status_ i) (valid_ i) (it_dict_ i)
    (iterate_offset_ i) (iterate_index_ i) (cur_blob_record_ i) (cur_record_offset_ i)
    (cur_record_size_ i) (header_size_ i) b e s (bitmap_ i) (cur_record_index_ i).

Definition SetBitMap (i : BlobFileIterator) (bitmap : BitMap) : BlobFileIterator :=
  mkIter (it_file_ i) (it_file_number_ i) (it_file_size_ i) (it_file_entries_ i) (it_min_blob_size i)
    (init_ i) (end_of_blob_record_ i) (it_status_ i) (valid_ i) (it_dict_ i)
    (iterate_offset_ i) (iterate_index_ i) (cur_blob_record_ i) (cur_record_offset_ i)
    (cur_record_size_ i) (header_size_ i) (readahead_begin_offset_ i) (readahead_end_offset_ i)
    (it_readahead_size_ i) (Some bitmap) (cur_record_index_ i).

Definition Valid (i : BlobFileIterator) : bool := valid_ i && ok (it_status_ i).

Definition GetBlobIndex (i : BlobFileIterator) : BlobIndex :=
  {| file_number := it_file_number_ i;
     blob_handle := {| offset := cur_record_offset_ i; size := cur_record_size_ i;
                       index := cur_record_index_ i |};
     old_file_number := 0; old_blob_handle := BlobHandle_default |}.

Definition ValidateByBitMap (i : BlobFileIterator) : option bool :=
  bitmap ← bitmap_ i;
  '(s, result) ← GetBit bitmap (cur_record_index_ i);
  _ ← assert (ok s);
  Some (result =? 0).

Section Iterator.
Context `{L : FileLibrary}.

(** [Init]: whether it succeeded, and the iterator. The status of the footer
    is only looked at through the status of the whole. *)
Definition Init (i : BlobFileIterator) : option (bool * BlobFileIterator) :=
  match ReadHeader (it_file_ i) with
  | Fail s => Some (false, it_status i s)
  | Ret blob_file_header =>
  let i := it_layout i (init_ i) (BlobFileHeader_size blob_file_header) (end_of_blob_record_ i) (it_dict_ i) in
  match Read (it_file_ i) (u64 (it_file_size_ i - kBlobFooterSize)) kBlobFooterSize with
  | Fail s => Some (false, it_status i s)
  | Ret slice =>
  r ← BlobFileFooter_DecodeFrom slice;
  let i := it_status i (status_of r) in
  let meta_index_handle := match r with
                           | Ret (h, _) => h
                           | Fail _ => match BlockHandle_DecodeFrom slice with
                                       | Ret (h, _) => h | Fail _ => NullBlockHandle end
                           end in
  let end_ := u64 (it_file_size_ i - kBlobFooterSize) in
  let end_ := if negb (BlockHandle_IsNull meta_index_handle)
              then u64 (end_ - (bh_size meta_index_handle + kBlockTrailerSize)) else end_ in
  let finish i end_ dict :=
    _ ← assert (kMinEncodedLength <? end_);
    Some (true, it_layout i true (header_size_ i) end_ dict) in
  if negb (Z.land (flags blob_file_header) kHasUncompressionDictionary =? 0) then
    r ← InitUncompressionDict meta_index_handle (it_file_ i);
    match r with
    | Fail s => Some (false, it_layout (it_status i s) (init_ i) (header_size_ i) end_ (it_dict_ i))
    | Ret dict => finish (it_status i OK) (u64 (end_ - (zlen dict + kBlockTrailerSize))) (Some dict)
    end
  else finish i end_ (it_dict_ i)
  end end.

Definition GetBlobRecord (i : BlobFileIterator) : option BlobFileIterator :=
  match Read (it_file_ i) (iterate_offset_ i) kRecordHeaderSize with
  | Fail s => Some (it_status i s)
  | Ret header_buffer =>
  match DecodeHeader header_buffer with
  | Fail s => Some (it_status i s)
  | Ret (decoder, _) =>
  let record_size := record_size_ decoder in
  match Read (it_file_ i) (u64 (iterate_offset_ i + kRecordHeaderSize)) record_size with
  | Fail s => Some (it_status i s)
  | Ret record_slice =>
  r ← DecodeRecord (UncompressData (default [] (it_dict_ i))) decoder record_slice;
  match r with
  | Fail s => Some (it_status i s)
  | Ret (record, _) =>
      let off := iterate_offset_ i in
      let sz := kRecordHeaderSize + record_size in
      let i := it_current (it_status i OK) record off sz (iterate_index_ i) in
      Some (it_valid (it_position i (u64 (off + sz)) (u64 (iterate_index_ i + 1))) true)
  end end end end.

(** [while (readahead_end_offset_ + readahead_size_ <= min_blob_size &&
    readahead_size_ < kMaxReadaheadSize) readahead_size_ <<= 1]. *)
Fixpoint grow_readahead (fuel : nat) (end_ min_blob size : Z) : option Z :=
  if (u64 (end_ + size) <=? min_blob) && (size <? kMaxReadaheadSize) then
    match fuel with
    | O => None
    | S fuel => grow_readahead fuel end_ min_blob (u64 (Z.shiftl size 1))
    end
  else Some size.

(** Doublings from [kMinReadaheadSize] to [kMaxReadaheadSize]. *)
Definition readahead_fuel : nat := 6.

(** The readahead window before a record is read; also the prefetch asked for. *)
Definition Readahead (i : BlobFileIterator) : option (BlobFileIterator * option (Z * Z)) :=
  let i := if (iterate_offset_ i <? readahead_begin_offset_ i) || (readahead_end_offset_ i <? iterate_offset_ i)
           then let b := iterate_offset_ i - Z.land (iterate_offset_ i) (kDefaultPageSize - 1) in
                it_window i b b kMinReadaheadSize
           else i in
  let min_blob := u64 (iterate_offset_ i + kRecordHeaderSize + it_min_blob_size i) in
  if readahead_end_offset_ i <=? min_blob then
    size ← grow_readahead readahead_fuel (readahead_end_offset_ i) min_blob (it_readahead_size_ i);
    Some (it_window i (readahead_begin_offset_ i) (u64 (readahead_end_offset_ i + size))
            (Z.min kMaxReadaheadSize (u64 (Z.shiftl size 1))),
          Some (readahead_end_offset_ i, size))
  else Some (i, None).

Definition PrefetchAndGet (i : BlobFileIterator) : option BlobFileIterator :=
  if (end_of_blob_record_ i <=? iterate_offset_ i) || (it_file_entries_ i <=? iterate_index_ i)
  then Some (it_valid i false)
  else
    '(i, _) ← Readahead i;
    i ← GetBlobRecord i;
    Some (if readahead_end_offset_ i <? iterate_offset_ i
          then it_window i (readahead_begin_offset_ i) (iterate_offset_ i) (it_readahead_size_ i)
          else i).

(** [if (!init_ && !Init()) return;] *)
Definition ensure_init (i : BlobFileIterator) (k : BlobFileIterator -> option BlobFileIterator)
    : option BlobFileIterator :=
  '(success, i) ← (if init_ i then Some (true, i) else Init i);
  if success : bool then k i else Some i.

Definition SeekToFirst (i : BlobFileIterator) : option BlobFileIterator :=
  ensure_init i (fun i =>
    PrefetchAndGet (it_position (it_status i OK) (header_size_ i) (iterate_index_ i))).

Definition Next (i : BlobFileIterator) : option BlobFileIterator :=
  _ ← assert (init_ i); PrefetchAndGet i.

(** The loop of [IterateForPrev]: the iterator and the last [total_length],
    and whether the loop ended without an error. *)
Fixpoint prev_loop (fuel : nat) (i : BlobFileIterator) (offset total_length : Z)
    : option (bool * BlobFileIterator * Z) :=
  if iterate_offset_ i <? offset then
    match fuel with
    | O => None
    | S fuel =>
        match Read (it_file_ i) (iterate_offset_ i) kRecordHeaderSize with
        | Fail s => Some (false, it_status i s, total_length)
        | Ret header_buffer =>
        match DecodeHeader header_buffer with
        | Fail s => Some (false, it_status i s, total_length)
        | Ret (decoder, _) =>
            let total_length := kRecordHeaderSize + record_size_ decoder in
            prev_loop fuel (it_position (it_status i OK) (u64 (iterate_offset_ i + total_length))
                              (u64 (iterate_index_ i + 1))) offset total_length
        end end
    end
  else Some (true, i, total_length).

Definition IterateForPrev (i : BlobFileIterator) (offset : Z) : option BlobFileIterator :=
  ensure_init i (fun i =>
    let i := it_status i OK in
    if end_of_blob_record_ i <=? offset
    then Some (it_status (it_position i offset (iterate_index_ i)) InvalidArgument)
    else
      '(success, i, total_length) ←
         prev_loop (Z.to_nat offset) (it_position i (header_size_ i) 0) offset 0;
      if (success : bool) then
        let i := if offset <? iterate_offset_ i
                 then it_position i (u64 (iterate_offset_ i - total_length)) (u64 (iterate_index_ i - 1))
                 else i in
        Some (it_valid i false)
      else Some i).
End Iterator.

(** ** [BlobFileMergeIterator] *)

(** [std::priority_queue]: which element is at the top, given their keys. The
    standard only says that it is one that no other precedes. *)
Class HeapTop : Type := heap_top : list bytes -> nat.

Class HeapTopLaws `{C : Comparator} (H : HeapTop) : Prop := {
  heap_top_in l : l <> [] -> (heap_top l < length l)%nat;
  heap_top_first l k k' : l !! heap_top l = Some k -> k' ∈ l -> Compare k k' <= 0 }.

(** [min_heap_] and [current_] are positions of [blob_file_iterators_]. *)
Record BlobFileMergeIterator : Type := mkMerge {
  mi_status_ : Status;
  blob_file_iterators_ : list BlobFileIterator;
  min_heap_ : list nat;
  current_ : option nat }.

Definition BlobFileMergeIterator_new (iters : list BlobFileIterator) : BlobFileMergeIterator :=
  mkMerge OK iters [] None.

Definition merge_iter (m : BlobFileMergeIterator) : option BlobFileIterator :=
  n ← current_ m; blob_file_iterators_ m !! n.

Definition merge_status (m : BlobFileMergeIterator) : Status :=
  match merge_iter m with
  | Some i => if negb (ok (it_status_ i)) then it_status_ i else mi_status_ m
  | None => mi_status_ m
  end.

Definition merge_Valid (m : BlobFileMergeIterator) : bool :=
  match merge_iter m with
  | None => false
  | Some i => ok (merge_status m) && Valid i && ok (it_status_ i)
  end.

Section Merge.
Context `{L : FileLibrary} `{H : HeapTop}.

(** [top] and [pop]. *)
Definition pop_heap (m : BlobFileMergeIterator) : option (nat * BlobFileMergeIterator) :=
  let keys := omap (fun n => (fun i => key (cur_blob_record_ i)) <$> blob_file_iterators_ m !! n)
                (min_heap_ m) in
  let p := heap_top keys in
  n ← min_heap_ m !! p;
  Some (n, mkMerge (mi_status_ m) (blob_file_iterators_ m) (delete p (min_heap_ m)) (current_ m)).

Fixpoint seek_all (n : nat) (iters : list BlobFileIterator)
    : option (list BlobFileIterator * list nat) :=
  match iters with
  | [] => Some ([], [])
  | i :: iters =>
      i ← SeekToFirst i;
      '(iters, heap) ← seek_all (S n) iters;
      Some (i :: iters, if ok (it_status_ i) && Valid i then n :: heap else heap)
  end.

Definition merge_SeekToFirst (m : BlobFileMergeIterator) : option BlobFileMergeIterator :=
  '(iters, heap) ← seek_all 0 (blob_file_iterators_ m);
  let m := mkMerge (mi_status_ m) iters (min_heap_ m ++ heap) (current_ m) in
  if bool_decide (min_heap_ m <> []) then
    '(n, m) ← pop_heap m;
    Some (mkMerge (mi_status_ m) (blob_file_iterators_ m) (min_heap_ m) (Some n))
  else Some (mkMerge Aborted (blob_file_iterators_ m) (min_heap_ m) (current_ m)).

Definition merge_Next (m : BlobFileMergeIterator) : option BlobFileMergeIterator :=
  _ ← assert (merge_Valid m);
  c ← current_ m;
  i ← blob_file_iterators_ m !! c;
  i ← Next i;
  let heap := if ok (it_status_ i) && Valid i then min_heap_ m ++ [c] else min_heap_ m in
  let m := mkMerge (mi_status_ m) (<[c := i]> (blob_file_iterators_ m)) heap (current_ m) in
  if bool_decide (min_heap_ m <> []) then
    '(n, m) ← pop_heap m;
    Some (mkMerge (mi_status_ m) (blob_file_iterators_ m) (min_heap_ m) (Some n))
  else Some (mkMerge (mi_status_ m) (blob_file_iterators_ m) (min_heap_ m) None).
End Merge.
