(* ===== verification/BlobFileIteratorProofs.v ===== *)
(** * BlobFileIteratorProofs: iterating over finished files

    An iterator over a finished file yields its records in order, each with the
    index that the LSM tree holds for it; an iterator that merges files yields
    all their records, in the order of their keys. *)
From S2P Require Import Prelude Coding Crc32c BlobFormat BitMap BlobFileMeta Options BlobFileBuilder BlobFileBuilderProofs BlobFileReader BlobFileReaderProofs BlobFileIterator.

Local Open Scope Z_scope.
Local Open Scope aegon_scope.

(** The header of a record on its own, and at the beginning of more. *)
Lemma DecodeHeader_header a b d rest :
  length a = 9%nat -> DecodeHeader (a ++ b) = Ret (d, rest) -> DecodeHeader a = Ret (d, []) /\ rest = b.
Proof.
  intros Ha H. do 9 (destruct a as [|? a]; [done|]). destruct a; [|done]. clear Ha. cbn [app] in H.
  unfold DecodeHeader, GetFixed32 in *.
  rewrite (proj2 (Z.ltb_ge (zlen (z :: _)) 4)) in H by zlia. cbn [take drop or_fail res_bind] in H.
  rewrite (proj2 (Z.ltb_ge (zlen (z3 :: _)) 4)) in H by zlia. cbn -[Value] in H.
  by injection H as <- <-.
Qed.

(** ** The readahead window *)

(** The window grows by powers of two between the two bounds. *)
Definition window_size (s : Z) : Prop := exists j, (j <= readahead_fuel)%nat /\ s = kMinReadaheadSize * 2 ^ Z.of_nat j.

Lemma window_size_min : window_size kMinReadaheadSize.
Proof. exists 0%nat. split; [unfold readahead_fuel; lia|done]. Qed.

Lemma window_size_bounds s : window_size s -> kMinReadaheadSize <= s <= kMaxReadaheadSize.
Proof.
  intros (j & Hj & ->). unfold readahead_fuel in Hj. do 7 (destruct j as [|j]; [done|]). lia.
Qed.

Lemma window_size_double s :
  window_size s -> window_size (Z.min kMaxReadaheadSize (u64 (Z.shiftl s 1))).
Proof.
  intros (j & Hj & ->). unfold readahead_fuel in Hj.
  do 6 (destruct j as [|j];
    [match goal with |- context [Z.of_nat ?n] => exists (S n) end; split; [unfold readahead_fuel; lia|reflexivity]|]).
  exists 6%nat. split; [done|]. by replace j with 0%nat by lia.
Qed.

(** The loop ends within its fuel. *)
Lemma grow_readahead_total e m s :
  window_size s -> exists s', grow_readahead readahead_fuel e m s = Some s' /\ window_size s'.
Proof.
  intros (j & Hj & ->).
  assert (forall fuel, (readahead_fuel <= fuel + j)%nat ->
    exists s', grow_readahead fuel e m (kMinReadaheadSize * 2 ^ Z.of_nat j) = Some s' /\ window_size s') as Hgen.
  2:{ apply Hgen. lia. }
  intros fuel. revert j Hj. induction fuel as [|fuel IH]; intros j Hj Hf; cbn [grow_readahead].
  - assert (j = 6%nat) as -> by (unfold readahead_fuel in *; lia).
    change (kMinReadaheadSize * 2 ^ Z.of_nat 6) with kMaxReadaheadSize.
    rewrite Z.ltb_irrefl, andb_false_r. exists kMaxReadaheadSize. split; [done|].
    by exists 6%nat.
  - destruct (Z.ltb_spec (kMinReadaheadSize * 2 ^ Z.of_nat j) kMaxReadaheadSize) as [Hlt|_].
    2:{ rewrite andb_false_r. eexists. split; [done|]. by exists j. }
    rewrite andb_true_r. destruct (_ <=? m); [|eexists; split; [done|]; by exists j].
    assert (j < 6)%nat as Hj6.
    { unfold readahead_fuel in Hj. destruct (decide (j = 6%nat)) as [->|]; [done|lia]. }
    replace (u64 _) with (kMinReadaheadSize * 2 ^ Z.of_nat (S j)); [apply IH; unfold readahead_fuel in *; lia|].
    clear -Hj6. do 6 (destruct j as [|j]; [done|]). lia.
Qed.

Lemma Readahead_total i :
  window_size (it_readahead_size_ i) ->
  exists b e s p, Readahead i = Some (it_window i b e s, p) /\ window_size s.
Proof.
  intros Hw. unfold Readahead.
  set (i' := if _ || _ then _ else i).
  assert (exists b e s, i' = it_window i b e s /\ window_size s) as (b & e & s & -> & Hs).
  { unfold i'. destruct (_ || _); [eexists _, _, _; split; [done|apply window_size_min]|].
    exists (readahead_begin_offset_ i), (readahead_end_offset_ i), (it_readahead_size_ i). split; [by destruct i|done]. }
  destruct (_ <=? _).
  - destruct (grow_readahead_total (readahead_end_offset_ (it_window i b e s))
      (u64 (iterate_offset_ (it_window i b e s) + kRecordHeaderSize + it_min_blob_size (it_window i b e s)))
      s Hs) as (s' & Hg & Hs').
    change (it_readahead_size_ (it_window i b e s)) with s. rewrite Hg. cbn [mbind option_bind].
    eexists _, _, _, _. split; [done|]. by apply window_size_double.
  - eexists _, _, _, _. split; [done|]. done.
Qed.

(** ** One file *)

(** The iterator yields exactly these records, and ends without an error. *)
Fixpoint remaining `{L : FileLibrary} (i : BlobFileIterator) (l : list (BlobRecord * BlobIndex)) : Prop :=
  it_status_ i = OK /\
  match l with
  | [] => Valid i = false
  | (r, x) :: l => Valid i = true /\ cur_blob_record_ i = r /\ GetBlobIndex i = x /\
                   exists i', Next i = Some i' /\ remaining i' l
  end.

Section IteratorProofs.
Context `{L : FileLibrary} `{!FileLibraryLaws L}.
Context (t : Z) (Ht : is_byte t).

Definition blob_index (number : Z) (h : BlobHandle) : BlobIndex :=
  {| file_number := number; blob_handle := h; old_file_number := 0; old_blob_handle := BlobHandle_default |}.

Definition entries (number : Z) (rs : list (BlobRecord * BlobHandle)) : list (BlobRecord * BlobIndex) :=
  map (fun p => (p.1, blob_index number p.2)) rs.

(** An initialised iterator that has read the first records of a file. *)
Record positioned (i : BlobFileIterator) (number : Z) (dict : option bytes) (pre body tail : bytes) (idx : Z) : Prop := {
  pos_init : init_ i = true;
  pos_status : it_status_ i = OK;
  pos_file : exists id, it_file_ i = stored (pre ++ body ++ tail) id;
  pos_end : end_of_blob_record_ i = zlen (pre ++ body);
  pos_number : it_file_number_ i = number;
  pos_dict : it_dict_ i = dict;
  pos_offset : iterate_offset_ i = zlen pre;
  pos_index : iterate_index_ i = idx;
  pos_window : window_size (it_readahead_size_ i) }.

Lemma positioned_window i number dict pre body tail idx b e s :
  positioned i number dict pre body tail idx -> window_size s ->
  positioned (it_window i b e s) number dict pre body tail idx.
Proof. intros [] Hs. by constructor. Qed.

Lemma GetBlobRecord_positioned i number dict pre r e body tail idx :
  positioned i number dict pre (encoded e ++ body) tail idx ->
  record_ok r -> EncodeRecord (CompressData (default [] dict)) t r = Some e ->
  zlen (pre ++ (encoded e ++ body) ++ tail) < 2 ^ 63 -> 0 <= idx < 2 ^ 63 ->
  exists i', GetBlobRecord i = Some i' /\
    positioned i' number dict (pre ++ encoded e) body tail (idx + 1) /\
    valid_ i' = true /\ cur_blob_record_ i' = r /\
    GetBlobIndex i' = blob_index number {| offset := zlen pre; size := GetEncodedSize e; index := idx |} /\
    it_file_entries_ i' = it_file_entries_ i.
Proof.
  intros [Hin Hst [id Hf] He Hnum Hd Ho Hi Hw] (Hwf & Hk & Hval) Henc Hb Hidx.
  destruct (EncodeRecord_DecodeRecord (CompressData (default [] dict))
    (UncompressData (default [] dict)) (uncompress_compress _) (compress_bytes _)
    t r e [] Ht Hwf Hk Hval Henc) as (Hl9 & Hsize & d & Hdh & Hrs & Hdec).
  rewrite !app_nil_r in *. unfold encoded in Hdh. apply DecodeHeader_header in Hdh as [Hdh _]; [|done].
  assert (zlen (header_ e) = 9) as Hh9 by (unfold zlen; lia).
  unfold encoded in *. rewrite <- !app_assoc in *.
  unfold GetBlobRecord. rewrite Hf, Ho.
  rewrite (Read_stored_at pre (header_ e)) by done. rewrite Hdh, Hrs.
  rewrite u64_small by (unfold kRecordHeaderSize; zlia).
  rewrite (app_assoc pre (header_ e)), (Read_stored_at (pre ++ header_ e) (record_ e)) by (rewrite ?zlen_app; unfold kRecordHeaderSize; lia).
  rewrite Hd, Hdec. cbn [mbind option_bind].
  unfold GetEncodedSize, kRecordHeaderSize in *. rewrite Hi.
  eexists. split; [reflexivity|]. split; [|by rewrite <- Hnum].
  constructor; cbn; try done.
  - exists id. rewrite Hf. by rewrite <- !app_assoc.
  - rewrite He, !app_assoc. done.
  - rewrite u64_small by zlia. rewrite !zlen_app. lia.
  - rewrite Hi. apply u64_small. unfold is_u64. lia.
Qed.

(** What is left is what the iterator yields. *)
Lemma PrefetchAndGet_positioned number dict rs : forall i pre body tail idx,
  positioned i number dict pre body tail idx ->
  placed t (default [] dict) (zlen pre) idx rs body ->
  Forall (fun p => record_ok p.1) rs ->
  zlen (pre ++ body ++ tail) < 2 ^ 63 -> 0 <= idx -> idx + zlen rs < 2 ^ 63 ->
  idx + zlen rs <= it_file_entries_ i ->
  exists i', PrefetchAndGet i = Some i' /\ remaining i' (entries number rs).
Proof.
  induction rs as [|[r h] rs IH]; intros i pre body tail idx Hpos Hp Hok Hb Hidx Hn Hent.
  - inversion Hp; subst. exists (it_valid i false). unfold PrefetchAndGet.
    rewrite (pos_end _ _ _ _ _ _ _ Hpos), (pos_offset _ _ _ _ _ _ _ Hpos), app_nil_r, Z.leb_refl. cbn.
    split; [done|]. split; [by destruct Hpos|done].
  - inversion Hp as [|? ? ? e ? body' Henc Hp']; subst. apply Forall_cons in Hok as [Hr Hok]. cbn in Hr.
    rewrite zlen_cons in *. pose proof (zlen_nonneg rs). pose proof Henc as Hes. apply EncodeSlice_sizes in Hes as (_ & Hs & Hsz).
    destruct (Readahead_total i (pos_window _ _ _ _ _ _ _ Hpos)) as (b & e' & s & p & Hra & Hsw).
    destruct (GetBlobRecord_positioned (it_window i b e' s) number dict pre r e body' tail idx) as
      (i1 & Hg & Hpos1 & Hv & Hc & Hix & Hfe);
      [by apply positioned_window|done..|lia|].
    unfold PrefetchAndGet.
    rewrite (proj2 (Z.leb_gt (end_of_blob_record_ i) _)).
    2:{ rewrite (pos_end _ _ _ _ _ _ _ Hpos), (pos_offset _ _ _ _ _ _ _ Hpos). zlia. }
    rewrite (proj2 (Z.leb_gt (it_file_entries_ i) _)) by (rewrite (pos_index _ _ _ _ _ _ _ Hpos); lia).
    cbn [orb]. rewrite Hra. cbn [mbind option_bind]. rewrite Hg. cbn [mbind option_bind].
    set (i2 := if _ <? _ then _ else i1).
    assert (exists b2 e2 s2, i2 = it_window i1 b2 e2 s2 /\ window_size s2) as (b2 & e2 & s2 & Hi2 & Hw2).
    { unfold i2. pose proof (pos_window _ _ _ _ _ _ _ Hpos1). destruct (_ <? _); [by eexists _, _, _|].
      exists (readahead_begin_offset_ i1), (readahead_end_offset_ i1), (it_readahead_size_ i1). split; [by destruct i1|done]. }
    exists i2. split; [done|]. rewrite Hi2. pose proof (positioned_window _ _ _ _ _ _ _ b2 e2 s2 Hpos1 Hw2) as Hpos2.
    split; [apply Hpos2|]. cbn [entries map fst snd]. split; [|split; [done|split; [done|]]].
    + unfold Valid. by rewrite (pos_status _ _ _ _ _ _ _ Hpos2), andb_true_r.
    + unfold Next. rewrite (pos_init _ _ _ _ _ _ _ Hpos2). cbn [assert mbind option_bind].
      eapply IH; [exact Hpos2| |done| |lia|lia|].
      * rewrite zlen_app, Hs. done.
      * rewrite <- app_assoc in Hb. by rewrite <- !app_assoc.
      * change (it_file_entries_ (it_window i1 b2 e2 s2)) with (it_file_entries_ i1). rewrite Hfe.
        change (it_file_entries_ (it_window i b e' s)) with (it_file_entries_ i). lia.
Qed.

(** [Init] finds where the records begin and end. *)
Lemma Init_file ver dict rs bs id g number opts nentries :
  blob_file t ver dict rs bs -> (is_Some dict -> 10103 <= ZSTD_VERSION_NUMBER) ->
  ver = kVersion2 \/ rs <> [] ->
  exists hdr body tail, bs = hdr ++ body ++ tail /\
    placed t (default [] dict) (zlen hdr) 0 rs body /\
    Init (BlobFileIterator_new g (stored bs id) number (zlen bs) opts nentries)
      = Some (true, it_layout (BlobFileIterator_new g (stored bs id) number (zlen bs) opts nentries)
                      true (zlen hdr) (zlen (hdr ++ body)) dict).
Proof.
  intros Hbf Hz Hne. pose proof (ReadHeader_file _ _ _ _ _ id Hbf) as Hh.
  destruct Hbf as [Hv (body & tail & Hbs & Hp & Htl) Hsz].
  assert (zlen (file_header ver (bool_decide (is_Some dict))) =
    BlobFileHeader_size {| version := ver; flags := file_flags (bool_decide (is_Some dict)) |}) as Hhs.
  { destruct Hv as [->|[-> Hd]]; [destruct (bool_decide _); done|by rewrite Hd]. }
  set (hdr := file_header ver _) in *. exists hdr, body, tail. split; [done|]. split; [done|].
  destruct (footer_of_tail _ _ _ (zlen_nonneg _) ltac:(rewrite <- zlen_app, <- app_assoc, <- Hbs; done) Htl)
    as (metas & footer & h & -> & Hfl & _ & Hdec & Hcase). clear Htl.
  assert (bs = (hdr ++ body ++ metas) ++ footer) as Hbs' by by rewrite Hbs, <- !app_assoc.
  pose proof (zlen_nonneg (hdr ++ body ++ metas)) as Hnn.
  assert (zlen bs = zlen (hdr ++ body ++ metas) + kBlobFooterSize) as Hlen by by rewrite Hbs', zlen_app, Hfl.
  assert (kMinEncodedLength < zlen (hdr ++ body)) as Hend.
  { rewrite zlen_app, Hhs. unfold BlobFileHeader_size, kMinEncodedLength, kBlobMaxHeaderSize. cbn [version].
    destruct Hv as [->|[-> Hd]]; [pose proof (zlen_nonneg body); cbn; lia|].
    destruct Hne as [|Hne]; [done|]. destruct Hp as [|off idx r e rs body He Hp]; [done|].
    apply EncodeSlice_sizes in He as (_ & Hs & Hb). rewrite zlen_app, Hs. pose proof (zlen_nonneg body). cbn. lia. }
  change kBlobFooterSize with 32 in Hlen.
  assert (u64 (zlen bs - 32) = zlen (hdr ++ body ++ metas)) as He1.
  { rewrite Hlen, u64_small by (unfold is_u64; lia). lia. }
  unfold Init. cbn [it_file_ BlobFileIterator_new]. rewrite Hh. change kBlobFooterSize with 32.
  cbn [it_file_ it_layout it_file_size_ it_status header_size_ it_dict_ init_ BlobFileIterator_new]. rewrite He1.
  rewrite Hbs' at 1. rewrite (Read_stored_end _ footer) by (rewrite ?Hfl; change kBlobFooterSize with 32; lia).
  rewrite Hdec. cbn [mbind option_bind flags status_of].
  destruct dict as [d|].
  - destruct Hcase as (enc & He & -> & ->). rewrite bool_decide_Some.
    change (negb (Z.land (file_flags true) kHasUncompressionDictionary =? 0)) with true. cbn iota.
    pose proof (built_size kCompressionDictBlockName enc) as Hm. pose proof (zlen_nonneg d) as Hd0.
    set (meta := BuildBlock _) in *.
    assert (zlen (hdr ++ body ++ raw_block d ++ raw_block meta) = zlen (hdr ++ body) + zlen d + zlen meta + 10) as Hl2.
    { rewrite !zlen_app, !zlen_raw_block. lia. }
    unfold BlockHandle_IsNull. cbn [bh_offset bh_size]. rewrite (proj2 (Z.eqb_neq (zlen meta) 0)) by lia.
    rewrite andb_false_r. cbn [negb it_status it_file_ it_layout BlobFileIterator_new].
    assert (zlen ((hdr ++ body) ++ raw_block d) < 2 ^ 63) as Hb.
    { rewrite zlen_app, zlen_raw_block. pose proof (zlen_nonneg meta). lia. }
    pose proof (InitUncompressionDict_file (hdr ++ body) d enc footer id (Hz (mk_is_Some _ _ eq_refl)) Hb He) as Hinit.
    fold meta in Hinit. replace ((hdr ++ body) ++ _) with bs in Hinit by by rewrite Hbs, <- !app_assoc.
    rewrite Hinit. cbn [mbind option_bind it_file_size_ header_size_ it_status it_layout BlobFileIterator_new].
    unfold kBlockTrailerSize, kMinEncodedLength in *. rewrite ?He1, Hl2.
    replace (zlen (hdr ++ body) + zlen d + zlen meta + 10 - (zlen meta + 5)) with (zlen (hdr ++ body) + zlen d + 5) by lia.
    rewrite (u64_small (zlen (hdr ++ body) + zlen d + 5)) by (unfold is_u64; lia).
    replace (zlen (hdr ++ body) + zlen d + 5 - (zlen d + 5)) with (zlen (hdr ++ body)) by lia.
    rewrite u64_small by (unfold is_u64; lia).
    rewrite (proj2 (Z.ltb_lt _ _)) by done. cbn [assert mbind option_bind].
    rewrite bool_decide_Some in Hhs. by rewrite Hhs.
  - rewrite (bool_decide_None (A := bytes)) in *. change (negb (Z.land (file_flags false) kHasUncompressionDictionary =? 0)) with false.
    destruct Hcase as [-> ->]. cbn [BlockHandle_IsNull NullBlockHandle bh_offset bh_size Z.eqb andb negb].
    cbn [it_file_size_ header_size_ it_status it_layout it_dict_ BlobFileIterator_new]. rewrite ?He1, app_nil_r.
    rewrite (proj2 (Z.ltb_lt _ _)) by done. cbn [assert mbind option_bind]. by rewrite Hhs.
Qed.

(** Iterating over a finished file: all the records, in order, with their
    indexes. *)
Lemma SeekToFirst_file ver dict rs bs id g number opts nentries :
  blob_file t ver dict rs bs -> (is_Some dict -> 10103 <= ZSTD_VERSION_NUMBER) ->
  ver = kVersion2 \/ rs <> [] -> Forall (fun p => record_ok p.1) rs ->
  zlen rs < 2 ^ 63 -> zlen rs <= nentries ->
  exists i, SeekToFirst (BlobFileIterator_new g (stored bs id) number (zlen bs) opts nentries) = Some i /\
    remaining i (entries number rs).
Proof.
  intros Hbf Hz Hne Hok Hn Hent.
  destruct (Init_file ver dict rs bs id g number opts nentries Hbf Hz Hne) as (hdr & body & tail & Hbs & Hp & Hi).
  unfold SeekToFirst, ensure_init. cbn [init_ BlobFileIterator_new] in *. rewrite Hi. cbn [mbind option_bind].
  apply (PrefetchAndGet_positioned number dict rs _ hdr body tail 0); try done.
  - constructor; try done; [|apply window_size_min]. exists id. by rewrite <- Hbs.
  - rewrite <- Hbs. apply Hbf.
Qed.
End IteratorProofs.

(** ** Draining an iterator *)

Section Drain.
Context `{L : FileLibrary}.

(** [for (; it.Valid(); it.Next())]: what is seen, and the iterator after it. *)
Fixpoint drain (fuel : nat) (i : BlobFileIterator)
    : option (list (BlobRecord * BlobIndex) * BlobFileIterator) :=
  if Valid i then
    match fuel with
    | O => None
    | S fuel =>
        i' ← Next i;
        '(l, i'') ← drain fuel i';
        Some ((cur_blob_record_ i, GetBlobIndex i) :: l, i'')
    end
  else Some ([], i).

Lemma drain_remaining l : forall i fuel,
  remaining i l -> (length l <= fuel)%nat -> exists i', drain fuel i = Some (l, i') /\ it_status_ i' = OK.
Proof.
  induction l as [|[r x] l IH]; intros i fuel [Hs Hr] Hf.
  - exists i. split; [|done]. destruct fuel; cbn; by rewrite Hr.
  - destruct Hr as (Hv & <- & <- & i1 & Hnx & Hr). destruct fuel as [|fuel]; [cbn in Hf; lia|].
    destruct (IH i1 fuel Hr) as (i' & Hd & Hs'); [cbn in Hf; lia|].
    exists i'. split; [|done]. cbn [drain]. by rewrite Hv, Hnx; cbn [mbind option_bind]; rewrite Hd.
Qed.
End Drain.

(** ** The number and the bitmap of an iterator *)

Section Label.
Context `{L : FileLibrary}.

Definition relabel (i : BlobFileIterator) (number : Z) (bitmap : option BitMap) : BlobFileIterator :=
  mkIter (it_file_ i) number (it_file_size_ i) (it_file_entries_ i) (it_min_blob_size i)
    (init_ i) (end_of_blob_record_ i) (it_status_ i) (valid_ i) (it_dict_ i)
    (iterate_offset_ i) (iterate_index_ i) (cur_blob_record_ i) (cur_record_offset_ i)
    (cur_record_size_ i) (header_size_ i) (readahead_begin_offset_ i) (readahead_end_offset_ i)
    (it_readahead_size_ i) bitmap (cur_record_index_ i).

Definition label (i : BlobFileIterator) : Z * option BitMap := (it_file_number_ i, bitmap_ i).

(** The operations neither read nor change them. *)
Lemma relabel_Init i n o : Init (relabel i n o) = (fun p => (p.1, relabel p.2 n o)) <$> Init i.
Proof.
  unfold Init. cbn [it_file_ relabel]. destruct (ReadHeader (it_file_ i)) as [h|]; [|done].
  cbn [it_file_ it_file_size_ it_layout relabel]. destruct (Read _ _ _) as [slice|]; [|done].
  destruct (BlobFileFooter_DecodeFrom slice) as [r|]; [|done]. cbn [mbind option_bind].
  destruct (negb (Z.land _ _ =? 0)).
  - cbn [it_file_ it_status it_layout relabel]. destruct (InitUncompressionDict _ _) as [[d|]|]; [|done|done].
    cbn [mbind option_bind]. by destruct (assert _).
  - by destruct (assert _).
Qed.

Lemma relabel_Readahead i n o : Readahead (relabel i n o) = (fun p => (relabel p.1 n o, p.2)) <$> Readahead i.
Proof.
  unfold Readahead. cbn [iterate_offset_ readahead_begin_offset_ readahead_end_offset_ relabel].
  destruct (_ || _); cbn [iterate_offset_ readahead_begin_offset_ readahead_end_offset_ it_min_blob_size it_readahead_size_ it_window relabel];
    (destruct (_ <=? _); [|done]); by destruct (grow_readahead _ _ _ _).
Qed.

Lemma relabel_GetBlobRecord i n o : GetBlobRecord (relabel i n o) = (fun i => relabel i n o) <$> GetBlobRecord i.
Proof.
  unfold GetBlobRecord. cbn [it_file_ iterate_offset_ it_dict_ relabel].
  destruct (Read _ (iterate_offset_ i) _) as [hb|]; [|done]. destruct (DecodeHeader hb) as [[d ?]|]; [|done].
  destruct (Read _ _ _) as [rs|]; [|done]. destruct (DecodeRecord _ _ _) as [[[r ?]|]|]; done.
Qed.

Lemma relabel_PrefetchAndGet i n o : PrefetchAndGet (relabel i n o) = (fun i => relabel i n o) <$> PrefetchAndGet i.
Proof.
  unfold PrefetchAndGet. cbn [end_of_blob_record_ iterate_offset_ it_file_entries_ iterate_index_ relabel].
  destruct (_ || _); [done|]. rewrite relabel_Readahead. destruct (Readahead i) as [[i1 p]|]; [|done].
  cbn [fmap option_fmap option_map mbind option_bind fst]. rewrite relabel_GetBlobRecord.
  destruct (GetBlobRecord i1) as [i2|]; [|done]. cbn [fmap option_fmap option_map mbind option_bind].
  cbn [readahead_end_offset_ iterate_offset_ relabel]. by destruct (_ <? _).
Qed.

Lemma relabel_Next i n o : Next (relabel i n o) = (fun i => relabel i n o) <$> Next i.
Proof.
  unfold Next. cbn [init_ relabel]. destruct (assert _); [|done]. cbn [mbind option_bind]. apply relabel_PrefetchAndGet.
Qed.

Lemma relabel_SeekToFirst i n o : SeekToFirst (relabel i n o) = (fun i => relabel i n o) <$> SeekToFirst i.
Proof.
  assert (forall i, PrefetchAndGet (it_position (it_status (relabel i n o) OK) (header_size_ i) (iterate_index_ i))
    = (fun i => relabel i n o) <$> PrefetchAndGet (it_position (it_status i OK) (header_size_ i) (iterate_index_ i))) as Hp
    by (intros i'; apply (relabel_PrefetchAndGet (it_position (it_status i' OK) (header_size_ i') (iterate_index_ i')))).
  unfold SeekToFirst, ensure_init. cbn [init_ relabel]. destruct (init_ i); [exact (Hp i)|]. rewrite relabel_Init.
  destruct (Init i) as [[[] i1]|]; [exact (Hp i1)|done|done].
Qed.

Lemma relabel_same i : relabel i (it_file_number_ i) (bitmap_ i) = i.
Proof. by destruct i. Qed.

Lemma relabel_label (f : BlobFileIterator -> option BlobFileIterator) i i' :
  (forall n o, f (relabel i n o) = (fun i => relabel i n o) <$> f i) -> f i = Some i' -> label i' = label i.
Proof.
  intros Hf Hi. pose proof (Hf (it_file_number_ i) (bitmap_ i)) as H. rewrite relabel_same, Hi in H. by injection H as ->.
Qed.

Lemma Next_label i i' : Next i = Some i' -> label i' = label i.
Proof. apply relabel_label. intros. apply relabel_Next. Qed.

Lemma SeekToFirst_label i i' : SeekToFirst i = Some i' -> label i' = label i.
Proof. apply relabel_label. intros. apply relabel_SeekToFirst. Qed.

(** An iterator with a bitmap yields what it yields without. *)
Lemma SetBitMap_remaining l bm : forall i, remaining i l -> remaining (SetBitMap i bm) l.
Proof.
  induction l as [|[r x] l IH]; intros i [Hs Hr]; (split; [done|]); [done|]. destruct Hr as (Hv & Hc & Hx & i' & Hn & Hr).
  split; [done|]. split; [done|]. split; [done|]. change (SetBitMap i bm) with (relabel i (it_file_number_ i) (Some bm)).
  exists (relabel i' (it_file_number_ i) (Some bm)). rewrite relabel_Next, Hn. split; [done|].
  apply Next_label in Hn as [= <- _]. by apply IH.
Qed.

Lemma SetBitMap_SeekToFirst i bm i' : SeekToFirst i = Some i' -> SeekToFirst (SetBitMap i bm) = Some (SetBitMap i' bm).
Proof.
  intros Hs. change (SetBitMap i bm) with (relabel i (it_file_number_ i) (Some bm)). rewrite relabel_SeekToFirst, Hs.
  apply SeekToFirst_label in Hs as [= <- _]. done.
Qed.
End Label.
