(* ===== verification/BlobFileMergeProofs.v ===== *)
(** * BlobFileMergeProofs: merging the records of several files

    The merge iterator over any iterators that each yield a list of records
    yields an interleaving of these lists, in the order of the keys when every
    list is. *)
From S2P Require Import Prelude Coding Crc32c BlobFormat BitMap BlobFileMeta Options BlobFileBuilder BlobFileReader BlobFileIterator BlobFileIteratorProofs.

Local Open Scope Z_scope.
Local Open Scope aegon_scope.

#[local] Abbreviation Entry := (BlobRecord * BlobIndex)%type.

(** [L] takes its entries from the front of the lists of [ls], and takes all. *)
Inductive interleaving : list (list Entry) -> list Entry -> Prop :=
  | interleaving_nil ls : Forall (fun l => l = []) ls -> interleaving ls []
  | interleaving_cons ls c x l L :
      ls !! c = Some (x :: l) -> interleaving (<[c := l]> ls) L -> interleaving ls (x :: L).

Lemma interleaving_permutation ls L : interleaving ls L -> concat ls ≡ₚ L.
Proof.
  induction 1 as [ls Hnil|ls c x l L Hc _ IH].
  - induction Hnil as [|l ls -> _ IH]; [done|]. by cbn.
  - rewrite <- IH. rewrite <- (take_drop_middle _ _ _ Hc) at 1.
    rewrite insert_take_drop by by apply lookup_lt_Some in Hc.
    rewrite !concat_app. cbn. apply Permutation_sym, Permutation_middle.
Qed.

Section Merge.
Context `{C : Comparator} `{!ComparatorLaws C} `{L : FileLibrary} `{H : HeapTop} `{!HeapTopLaws H}.

Definition key_le (x y : Entry) : Prop := Compare (key x.1) (key y.1) <= 0.

(** The lists still to be merged; the current iterator is not in the heap. *)
Record merging (m : BlobFileMergeIterator) (ls : list (list Entry)) (cur : option nat) : Prop := {
  mg_iters : Forall2 remaining (blob_file_iterators_ m) ls;
  mg_status : mi_status_ m = OK;
  mg_heap : forall j, j ∈ min_heap_ m <-> Some j <> cur /\ exists x l, ls !! j = Some (x :: l);
  mg_nodup : NoDup (min_heap_ m) }.

(** [c] is current, and no other list begins with a smaller key. *)
Definition chosen (m : BlobFileMergeIterator) (ls : list (list Entry)) (c : nat) : Prop :=
  current_ m = Some c /\ merging m ls (Some c) /\
  exists x l, ls !! c = Some (x :: l) /\ forall j y l', ls !! j = Some (y :: l') -> key_le x y.

(** The key that the iterator [j] is at. *)
Definition head_key (ls : list (list Entry)) (j : nat) : bytes :=
  match ls !! j with Some ((r, _) :: _) => key r | _ => [] end.

Lemma remaining_status i l : remaining i l -> it_status_ i = OK.
Proof. destruct l; by intros []. Qed.

Lemma remaining_valid i l : remaining i l -> Valid i = bool_decide (l <> []).
Proof. destruct l as [|[r x] l]; [by intros [_ ->]|]. by intros (_ & -> & _). Qed.

Lemma heap_keys m ls cur :
  merging m ls cur ->
  omap (fun n => (fun i => key (cur_blob_record_ i)) <$> blob_file_iterators_ m !! n) (min_heap_ m)
    = map (head_key ls) (min_heap_ m).
Proof.
  intros [Hit _ Hh _]. assert (forall j, j ∈ min_heap_ m -> exists x l, ls !! j = Some (x :: l)) as Hin.
  { intros j Hj. by apply Hh in Hj as [_ ?]. }
  clear Hh. induction (min_heap_ m) as [|j heap IH]; [done|]. cbn.
  destruct (Hin j) as ([r x] & l & Hj); [by left|].
  destruct (Forall2_lookup_r _ _ _ _ _ Hit Hj) as (i & -> & (_ & _ & <- & _)). cbn.
  replace (head_key ls j) with (key (cur_blob_record_ i)) by (unfold head_key; by rewrite Hj).
  f_equal. apply IH. intros j' Hj'. apply Hin. by right.
Qed.

Lemma pop_heap_spec m ls :
  merging m ls None -> min_heap_ m <> [] ->
  exists c m', pop_heap m = Some (c, m') /\
    chosen (mkMerge (mi_status_ m') (blob_file_iterators_ m') (min_heap_ m') (Some c)) ls c.
Proof.
  intros Hm Hne. pose proof (heap_keys _ _ _ Hm) as Hk. unfold pop_heap. rewrite Hk.
  set (keys := map (head_key ls) (min_heap_ m)) in *.
  assert (keys <> []) as Hkne by by destruct (min_heap_ m).
  pose proof (heap_top_in keys Hkne) as Hlt. unfold keys in Hlt at 2. rewrite length_map in Hlt.
  destruct (lookup_lt_is_Some_2 (min_heap_ m) _ Hlt) as [c Hc]. rewrite Hc. cbn [mbind option_bind].
  eexists c, _. split; [reflexivity|]. split; [done|]. cbn [mi_status_ blob_file_iterators_ min_heap_].
  destruct Hm as [Hit Hst Hh Hnd]. pose proof (delete_Permutation _ _ _ Hc) as Hperm.
  assert (c ∈ min_heap_ m) as (_ & x & l & Hcl)%Hh by by apply list_elem_of_lookup_2 in Hc.
  rewrite Hperm in Hnd. apply NoDup_cons in Hnd as [Hcn Hnd].
  split; [constructor; cbn; [done|done| |done]|].
  - intros j. split.
    + intros Hj. assert (j <> c) as Hjc by (intros ->; done). split; [congruence|].
      apply Hh. rewrite Hperm. by right.
    + intros [Hjc Hj]. assert (j ∈ min_heap_ m) as Hj' by (apply Hh; by split).
      rewrite Hperm in Hj'. apply elem_of_cons in Hj' as [->|]; [done|done].
  - exists x, l. split; [done|]. intros j y l' Hj.
    assert (j ∈ min_heap_ m) as Hjm by (apply Hh; split; [done|by eexists _, _]).
    unfold key_le. replace (key x.1) with (head_key ls c) by (unfold head_key; rewrite Hcl; by destruct x).
    replace (key y.1) with (head_key ls j) by (unfold head_key; rewrite Hj; by destruct y).
    apply heap_top_first with keys.
    + assert (forall p, keys !! p = head_key ls <$> min_heap_ m !! p) as Hkl by (intros p; apply (list_lookup_fmap (head_key ls))).
      by rewrite Hkl, Hc.
    + by apply list_elem_of_fmap_2.
Qed.

Lemma chosen_Valid m ls c : chosen m ls c ->
  exists i r x l, merge_iter m = Some i /\ blob_file_iterators_ m !! c = Some i /\ ls !! c = Some ((r, x) :: l) /\
    remaining i ((r, x) :: l) /\ merge_Valid m = true /\ merge_status m = OK.
Proof.
  intros (Hc & Hm & [r x] & l & Hl & _). destruct (Forall2_lookup_r _ _ _ _ _ (mg_iters _ _ _ Hm) Hl) as (i & Hi & Hr).
  assert (merge_iter m = Some i) as Hmi by (unfold merge_iter; by rewrite Hc).
  exists i, r, x, l. split; [done|]. split; [done|]. split; [done|]. split; [done|].
  unfold merge_Valid, merge_status. rewrite Hmi, (remaining_status _ _ Hr). cbn. rewrite (mg_status _ _ _ Hm). cbn.
  split; [|done]. rewrite andb_true_r. apply Hr.
Qed.

(** One step: the current entry is taken from its list. *)
Lemma merge_Next_spec m ls c x l :
  chosen m ls c -> ls !! c = Some (x :: l) ->
  exists m', merge_Next m = Some m' /\
    ((exists c', chosen m' (<[c := l]> ls) c') \/
     (Forall (fun l => l = []) (<[c := l]> ls) /\ merge_Valid m' = false /\ merge_status m' = OK)).
Proof.
  intros Hch Hl. destruct (chosen_Valid _ _ _ Hch) as (i & r & y & l' & Hmi & Hi & Hl' & Hr & Hv & Hst).
  rewrite Hl in Hl'. injection Hl' as -> <-. destruct Hch as (Hc & [Hit Hms Hh Hnd] & _).
  unfold merge_Next. rewrite Hv. cbn [assert mbind option_bind]. rewrite Hc. cbn [mbind option_bind].
  rewrite Hi. cbn [mbind option_bind]. destruct Hr as (_ & _ & _ & _ & i' & Hnx & Hr').
  rewrite Hnx. cbn [mbind option_bind]. rewrite (remaining_status _ _ Hr'), (remaining_valid _ _ Hr'). cbn [ok andb].
  set (m1 := mkMerge _ _ _ _).
  assert (merging m1 (<[c := l]> ls) None) as Hm1.
  { assert (c < length ls)%nat as Hlt by by apply lookup_lt_Some in Hl.
    assert (forall j, j ∈ min_heap_ m1 <-> j ∈ min_heap_ m \/ (j = c /\ l <> [])) as Hin1.
    { intros j. unfold m1. cbn. destruct (bool_decide_reflect (l <> [])); [|naive_solver].
      rewrite elem_of_app, list_elem_of_singleton. naive_solver. }
    constructor; [by apply Forall2_insert|done| |].
    - intros j. rewrite Hin1, Hh. destruct (decide (j = c)) as [->|Hne].
      + rewrite list_lookup_insert_eq by done. split; [intros [[? _]|[_ Hn]]; [done|]|].
        * split; [done|]. destruct l; [done|]. by eexists _, _.
        * intros (_ & x' & l1 & [= ->]). right. by split.
      + rewrite list_lookup_insert_ne by done. naive_solver.
    - unfold m1. cbn. destruct (bool_decide _); [|done]. apply NoDup_app. split; [done|]. split; [|apply NoDup_singleton].
      intros j Hj ->%list_elem_of_singleton. apply Hh in Hj as [? _]. done. }
  destruct (bool_decide_reflect (min_heap_ m1 <> [])) as [Hne|Hnil].
  - destruct (pop_heap_spec m1 _ Hm1 Hne) as (c' & m2 & -> & Hch2). cbn [mbind option_bind].
    eexists. split; [done|]. left. by exists c'.
  - eexists. split; [done|]. right. split; [|split; [done|apply Hm1]].
    apply dec_stable in Hnil. apply Forall_lookup. intros j [|x' l1] Hj; [done|].
    assert (j ∈ min_heap_ m1) as Hj' by (apply (mg_heap _ _ _ Hm1); split; [done|by eexists _, _]).
    rewrite Hnil in Hj'. by apply not_elem_of_nil in Hj'.
Qed.

(** ** Draining the merge iterator *)

Fixpoint merge_drain (fuel : nat) (m : BlobFileMergeIterator)
    : option (list Entry * BlobFileMergeIterator) :=
  if merge_Valid m then
    match fuel with
    | O => None
    | S fuel =>
        i ← merge_iter m;
        m' ← merge_Next m;
        '(l, m'') ← merge_drain fuel m';
        Some ((cur_blob_record_ i, GetBlobIndex i) :: l, m'')
    end
  else Some ([], m).

Lemma concat_insert_length (ls : list (list Entry)) c x l :
  ls !! c = Some (x :: l) -> length (concat ls) = S (length (concat (<[c := l]> ls))).
Proof.
  intros Hc. rewrite <- (take_drop_middle _ _ _ Hc) at 1.
  rewrite insert_take_drop by by apply lookup_lt_Some in Hc.
  rewrite !concat_app, !length_app. cbn. lia.
Qed.

Lemma key_le_trans : Transitive key_le.
Proof. intros x y z. unfold key_le. apply Compare_trans. Qed.

(** Every entry of a list is at least its first one. *)
Lemma sorted_head l x y : Sorted key_le (x :: l) -> y ∈ x :: l -> key_le x y.
Proof.
  intros Hs Hy. apply elem_of_cons in Hy as [->|Hy]; [unfold key_le; by rewrite Compare_refl|].
  apply Sorted_StronglySorted in Hs; [|exact key_le_trans]. apply StronglySorted_inv in Hs as [_ Hf].
  rewrite Forall_forall in Hf. by apply Hf.
Qed.

Lemma sorted_insert_tail (ls : list (list Entry)) c x l :
  Forall (Sorted key_le) ls -> ls !! c = Some (x :: l) -> Forall (Sorted key_le) (<[c := l]> ls).
Proof.
  intros Hf Hc. apply Forall_insert; [done|]. rewrite Forall_lookup in Hf. apply Hf in Hc. by inversion Hc.
Qed.

Lemma merge_drain_chosen n : forall m ls c,
  length (concat ls) = n -> chosen m ls c ->
  exists l m', merge_drain n m = Some (l, m') /\ interleaving ls l /\ merge_status m' = OK /\
    (Forall (Sorted key_le) ls -> StronglySorted key_le l).
Proof.
  induction n as [|n IH]; intros m ls c Hn Hch;
    destruct (chosen_Valid _ _ _ Hch) as (i & r & x & l & Hmi & Hi & Hl & Hr & Hv & Hst).
  { rewrite (concat_insert_length _ _ _ _ Hl) in Hn. lia. }
  rewrite (concat_insert_length _ _ _ _ Hl) in Hn. injection Hn as Hn.
  destruct (merge_Next_spec _ _ _ _ _ Hch Hl) as (m1 & Hnx & Hcase).
  destruct Hr as (_ & _ & Hcur & Hix & _). cbn [merge_drain]. rewrite Hv, Hmi. cbn [mbind option_bind].
  rewrite Hnx. cbn [mbind option_bind]. rewrite Hcur, Hix.
  assert (exists L m', merge_drain n m1 = Some (L, m') /\ interleaving (<[c := l]> ls) L /\ merge_status m' = OK /\
    (Forall (Sorted key_le) (<[c := l]> ls) -> StronglySorted key_le L)) as (L' & m' & -> & Hil & Hms & Hso).
  { destruct Hcase as [[c' Hch']|(Hnil & Hv1 & Hms1)].
    - by apply (IH m1 _ c').
    - exists [], m1. split; [destruct n; cbn; by rewrite Hv1|]. split; [by constructor|]. split; [done|]. intros; constructor. }
  cbn [mbind option_bind]. eexists _, m'. split; [reflexivity|]. split; [by econstructor|]. split; [done|].
  intros Hsorted. constructor; [apply Hso; by eapply sorted_insert_tail|].
  apply Forall_forall. intros y Hy.
  destruct Hch as (_ & _ & x' & l' & Hl' & Hmin). rewrite Hl in Hl'. injection Hl' as <- <-.
  rewrite <- (interleaving_permutation _ _ Hil) in Hy. apply list_elem_of_In, in_concat in Hy as (lj & Hlj & Hyj).
  apply list_elem_of_In, list_elem_of_lookup in Hlj as [j Hj]. apply list_elem_of_In in Hyj.
  destruct (decide (j = c)) as [->|Hne].
  - rewrite list_lookup_insert_eq in Hj by by apply lookup_lt_Some in Hl. injection Hj as <-.
    rewrite Forall_lookup in Hsorted. apply (sorted_head l); [by eapply Hsorted|by right].
  - rewrite list_lookup_insert_ne in Hj by done. destruct lj as [|z lj]; [by apply not_elem_of_nil in Hyj|].
    apply key_le_trans with z; [by eapply Hmin|]. rewrite Forall_lookup in Hsorted. apply (sorted_head lj); [by eapply Hsorted|done].
Qed.

(** ** From [SeekToFirst] *)

Lemma seek_all_spec iters ls : forall n,
  Forall2 (fun i l => exists i', SeekToFirst i = Some i' /\ remaining i' l) iters ls ->
  exists iters' heap, seek_all n iters = Some (iters', heap) /\ Forall2 remaining iters' ls /\ NoDup heap /\
    forall j, j ∈ heap <-> (n <= j)%nat /\ exists x l, ls !! (j - n)%nat = Some (x :: l).
Proof.
  intros n Hf. revert n. induction Hf as [|i l iters ls (i' & Hi & Hr) _ IH]; intros n.
  - exists [], []. split; [done|]. split; [constructor|]. split; [constructor|]. intros j. split.
    + by intros ?%not_elem_of_nil.
    + intros (_ & x & l & Hl). by rewrite lookup_nil in Hl.
  - destruct (IH (S n)) as (iters' & heap & Hs & Hf' & Hnd & Hh). cbn [seek_all]. rewrite Hi. cbn [mbind option_bind].
    rewrite Hs. cbn [mbind option_bind]. rewrite (remaining_status _ _ Hr), (remaining_valid _ _ Hr). cbn [ok andb].
    eexists _, _. split; [reflexivity|]. split; [by constructor|].
    assert (n ∉ heap) as Hn by (rewrite Hh; intros [? _]; lia).
    assert (forall j, (n < j)%nat -> (l :: ls) !! (j - n)%nat = ls !! (j - S n)%nat) as Hsh.
    { intros j Hj. by replace (j - n)%nat with (S (j - S n)) by lia. }
    split; [destruct (bool_decide _); [by constructor|done]|]. intros j. destruct (decide (j = n)) as [->|Hne].
    + rewrite Nat.sub_diag. cbn [lookup list_lookup]. destruct (bool_decide_reflect (l <> [])) as [Hl|Hl].
      * rewrite elem_of_cons. destruct l as [|x l]; [done|]. split; [|by left]. intros _. split; [lia|]. by eexists _, _.
      * split; [done|]. intros (_ & x & l0 & [= ->]). by exfalso; apply Hl.
    + transitivity (j ∈ heap). { destruct (bool_decide _); [rewrite elem_of_cons; naive_solver|done]. }
      rewrite Hh. split; intros (Hle & x & l0 & Hl0); (split; [lia|]); exists x, l0; rewrite Hsh in * by lia; done.
Qed.

(** All the records of the files, merged. *)
Lemma merge_drain_spec iters ls :
  Forall2 (fun i l => exists i', SeekToFirst i = Some i' /\ remaining i' l) iters ls -> concat ls <> [] ->
  exists m l m', merge_SeekToFirst (BlobFileMergeIterator_new iters) = Some m /\
    merge_drain (length (concat ls)) m = Some (l, m') /\ merge_status m' = OK /\ interleaving ls l /\
    (Forall (Sorted key_le) ls -> StronglySorted key_le l).
Proof.
  intros Hf Hne. destruct (seek_all_spec iters ls 0 Hf) as (iters' & heap & Hs & Hr & Hnd & Hh).
  unfold merge_SeekToFirst. cbn [blob_file_iterators_ BlobFileMergeIterator_new]. rewrite Hs.
  cbn [mbind option_bind min_heap_ BlobFileMergeIterator_new mi_status_ current_ app].
  set (m0 := mkMerge OK iters' heap None).
  assert (merging m0 ls None) as Hm0.
  { constructor; cbn; [done|done| |done]. intros j. rewrite Hh, Nat.sub_0_r. split; intros [_ ?]; (split; [done || lia|done]). }
  assert (heap <> []) as Hhne.
  { intros Hnil. apply Hne. clear -Hh Hnil. subst heap. apply concat_nil_Forall, Forall_lookup.
    intros j [|x l] Hj; [done|]. assert (j ∈ ([] : list nat)) as Hin; [|by apply not_elem_of_nil in Hin].
    apply Hh. split; [lia|]. rewrite Nat.sub_0_r. by eexists _, _. }
  rewrite (bool_decide_eq_true_2 (heap <> [])) by done.
  destruct (pop_heap_spec m0 ls Hm0 Hhne) as (c & m1 & -> & Hch). cbn [mbind option_bind].
  destruct (merge_drain_chosen _ _ _ _ eq_refl Hch) as (l & m' & Hd & Hil & Hms & Hso).
  by eexists _, l, m'.
Qed.

(** ** Numbers and bitmaps *)

Lemma pop_heap_iters m n m' : pop_heap m = Some (n, m') -> blob_file_iterators_ m' = blob_file_iterators_ m.
Proof. unfold pop_heap. intros (p & _ & [= _ <-])%bind_Some. done. Qed.

Lemma merge_Next_labels m m' : merge_Next m = Some m' ->
  map label (blob_file_iterators_ m') = map label (blob_file_iterators_ m).
Proof.
  unfold merge_Next. intros (u & _ & H1)%bind_Some. clear u. apply bind_Some in H1 as (c & _ & H1).
  apply bind_Some in H1 as (i & Hi & H1). apply bind_Some in H1 as (i' & Hn & H1).
  assert (map label (<[c := i']> (blob_file_iterators_ m)) = map label (blob_file_iterators_ m)) as Hl.
  { change (map label) with (fmap (M := list) label). rewrite list_fmap_insert, (Next_label _ _ Hn).
    apply list_insert_id. by rewrite list_lookup_fmap, Hi. }
  case_bool_decide; [|by injection H1 as <-].
  apply bind_Some in H1 as ([n m1] & Hp & [= <-]). by rewrite (pop_heap_iters _ _ _ Hp).
Qed.

Lemma seek_all_labels iters : forall n iters' heap, seek_all n iters = Some (iters', heap) -> map label iters' = map label iters.
Proof.
  induction iters as [|i iters IH]; intros n iters' heap H1; cbn [seek_all] in H1; [by injection H1 as <- _|].
  apply bind_Some in H1 as (i' & Hi & H1). apply bind_Some in H1 as ([l h] & Hs & [= <- _]).
  cbn. by rewrite (SeekToFirst_label _ _ Hi), (IH _ _ _ Hs).
Qed.

Lemma merge_SeekToFirst_labels m m' : merge_SeekToFirst m = Some m' ->
  map label (blob_file_iterators_ m') = map label (blob_file_iterators_ m).
Proof.
  unfold merge_SeekToFirst. intros ([l h] & Hs & H1)%bind_Some. apply seek_all_labels in Hs.
  case_bool_decide; [|by injection H1 as <-].
  apply bind_Some in H1 as ([n m1] & Hp & [= <-]). cbn. by rewrite (pop_heap_iters _ _ _ Hp).
Qed.
End Merge.
