(* ===== verification/BlobFileSpec.v ===== *)
(** * BlobFileSpec: blob files from the builder to the readers

    The theorems about the data path as a whole: what the builder wrote is what
    the reader, the caches, the iterator and the merge iterator give back; and
    what happens when a write or a read fails in between. *)
From S2P Require Import Prelude Coding Crc32c BlobFormat BitMap BlobFileMeta Options BlobFileBuilder BlobFileBuilderProofs BlobFileReader BlobFileReaderProofs BlobFileIterator BlobFileIteratorProofs BlobFileMergeProofs.

Local Open Scope Z_scope.
Local Open Scope aegon_scope.

(** ** Examples of the libraries the code relies on *)

(** A library that compresses by reversing bytes, under type 1. *)
#[local] Instance demo_library : FileLibrary := {
  ZSTD_VERSION_NUMBER := 10405;
  CompressData d t x := if (t =? 1) && forallb (fun b => (0 <=? b) && (b <? 256)) x then Some (reverse x) else None;
  UncompressData d t y := Some (reverse y);
  ZSTD_TrainDictionary s l n := take (Z.to_nat n) s;
  BuildBlock entries := match entries with (k, v) :: _ => zlen k :: k ++ v | [] => [0] end;
  SeekBlock block name :=
    match block with
    | n :: rest => mkSeek OK true (take (Z.to_nat n) rest) (drop (Z.to_nat n) rest)
    | [] => mkSeek OK false [] []
    end;
  uninit n := replicate (Z.to_nat n) 0 }.

#[local] Instance demo_library_laws : FileLibraryLaws demo_library.
Proof.
  split.
  - cbn. intros d t x y. case_match; [|done]. intros [= <-]. by rewrite reverse_involutive.
  - cbn. intros d t x y. case_match eqn:E; [|done]. intros [= <-].
    apply andb_prop in E as [_ E]. rewrite List.forallb_forall in E. unfold is_bytes.
    rewrite reverse_Permutation. apply Forall_forall. intros b Hb%list_elem_of_In%E. unfold is_byte.
    apply andb_prop in Hb as [?%Z.leb_le ?%Z.ltb_lt]. lia.
  - cbn. intros s l n Hn. unfold zlen. rewrite length_take. lia.
  - cbn. intros k v. by rewrite zlen_to_nat, take_app_length, drop_app_length.
  - cbn. intros k v. zlia.
  - cbn. intros n Hn. unfold zlen. rewrite length_replicate. lia.
Qed.

(** The first of the smallest keys. *)
Fixpoint first_min `{C : Comparator} (best : bytes) (at_best pos : nat) (l : list bytes) : nat :=
  match l with
  | [] => at_best
  | k :: l => if Compare k best <? 0 then first_min k pos (S pos) l else first_min best at_best (S pos) l
  end.

#[local] Instance demo_heap `{C : Comparator} : HeapTop :=
  fun l => match l with [] => 0%nat | k :: l => first_min k 0 1 l end.

Lemma first_min_spec `{C : Comparator} `{!ComparatorLaws C} l : forall pre best at_best,
  pre !! at_best = Some best -> (forall k, k ∈ pre -> Compare best k <= 0) ->
  exists k, (pre ++ l) !! first_min best at_best (length pre) l = Some k /\
    forall k', k' ∈ pre ++ l -> Compare k k' <= 0.
Proof.
  induction l as [|k l IH]; intros pre best at_best Hb Hmin; cbn [first_min].
  - exists best. rewrite app_nil_r. by split.
  - assert (length (pre ++ [k]) = S (length pre)) as Hl by (rewrite length_app; cbn; lia).
    rewrite cons_middle, app_assoc, <- Hl. destruct (Z.ltb_spec (Compare k best) 0) as [Hlt|Hge].
    + apply IH; [by apply list_lookup_middle|].
      intros k' [Hk'| ->%list_elem_of_singleton]%elem_of_app; [|by rewrite Compare_refl].
      apply Compare_trans with best; [lia|by apply Hmin].
    + apply IH; [by apply lookup_app_l_Some|].
      intros k' [Hk'| ->%list_elem_of_singleton]%elem_of_app; [by apply Hmin|].
      apply Z.nlt_ge. intros Hc%Compare_swap. lia.
Qed.

#[local] Instance demo_heap_laws `{C : Comparator} `{!ComparatorLaws C} : HeapTopLaws demo_heap.
Proof.
  assert (forall l, l <> [] -> exists k, l !! demo_heap l = Some k /\ forall k', k' ∈ l -> Compare k k' <= 0) as Hall.
  { intros [|k l] Hne; [done|]. apply (first_min_spec l [k] k 0%nat); [done|].
    intros k' ->%list_elem_of_singleton. by rewrite Compare_refl. }
  split.
  - intros l Hne. destruct (Hall l Hne) as (k & Hk & _). by apply lookup_lt_Some in Hk.
  - intros l k k' Hk Hin. assert (l <> []) as Hne by by intros ->.
    destruct (Hall l Hne) as (k1 & Hk1 & Hmin). unfold heap_top in Hk. rewrite Hk1 in Hk. injection Hk as <-. by apply Hmin.
Qed.

(** ** Reading back what was built *)

Section Roundtrip.
Context `{C : Comparator} `{!ComparatorLaws C} `{L : FileLibrary} `{!FileLibraryLaws L}.
Context (t : Z) (copts : CompressionOptions).

(** A cached reader of the file [n], if any, reads its records. *)
Definition file_cache_ok (n : Z) (rs : list (BlobRecord * BlobHandle)) (fc : FileCache) : Prop :=
  forall rd, (fc : gmap bytes BlobFileReader) !! EncodeFileNumber n = Some rd -> reads t rd rs.

Lemma fin_open ver ops b out dict hs cache_id id :
  finished t copts ver ops b out dict hs -> config_ok copts ver -> Forall record_ok (records ops) ->
  exists rd, BlobFileReader_Open cache_id (stored (contents (file_ b)) id) (GetFileSize (file_ b)) = Some (Ret rd) /\
    reads t rd (zip (records ops) hs).
Proof.
  intros Hfin Hc Hok. destruct (BlobFileReader_Open_file t cache_id ver dict _ _ id (fin_layout _ _ _ _ _ _ _ _ Hfin)) as (footer & Ho).
  { intros Hd. apply (cfg_zstd _ _ Hc). rewrite <- (fin_dict _ _ _ _ _ _ _ _ Hfin). by apply bool_decide_eq_true_2. }
  replace (GetFileSize (file_ b)) with (zlen (contents (file_ b))).
  2:{ rewrite (fin_file _ _ _ _ _ _ _ _ Hfin). done. }
  eexists. split; [exact Ho|]. split.
  - exists ver, (contents (file_ b)), id. split; [done|]. apply Hfin.
  - pose proof (fin_handles _ _ _ _ _ _ _ _ Hfin) as Hl. clear -Hok Hl. revert hs Hl.
    induction Hok as [|r rs Hr _ IH]; intros [|h hs] Hl; try done; cbn; constructor; [done|]. apply IH. by injection Hl.
Qed.

(** C9: What was put into a blob file is what is read from it. For every
    sequence of records and small entries, with or without a compression
    dictionary, when no write fails the builder finishes with an OK status; the
    entries it hands back are the given ones in the given order, each record's
    with the handle of the record; and the file cache, whatever files it holds
    open, reads for each handle exactly the key and the value that were put. *)
Theorem blob_file_roundtrip ver ops :
  is_byte t -> ops_ok t ops -> config_ok copts ver -> Forall record_ok (records ops) ->
  exists b hs,
    build t copts new_file ver ops = Some (OK, b, assign ops hs) /\ length hs = length (records ops) /\
    forall NewRandomAccessFile id n fc cache_id r h,
      NewRandomAccessFile n = Ret (stored (contents (file_ b)) id) ->
      file_cache_ok n (zip (records ops) hs) fc -> (r, h) ∈ zip (records ops) hs ->
      exists buffer fc',
        BlobFileCache_Get NewRandomAccessFile fc cache_id None n (GetFileSize (file_ b)) h
          = Some (Ret (r, buffer), fc', None) /\
        file_cache_ok n (zip (records ops) hs) fc'.
Proof.
  intros Ht Hops Hc Hok. destruct (build_spec t copts ver ops Hops Hc) as (b & dict & hs & Hb & Hfin & _).
  exists b, hs. split; [done|]. split; [apply Hfin|]. intros env id n fc cache_id r h Henv Hfc Hin.
  destruct (fin_open _ _ _ _ _ _ cache_id id Hfin Hc Hok) as (rd0 & Ho & Hrd0).
  unfold BlobFileCache_Get, BlobFileCache_FindFile.
  assert (forall rd fc', reads t rd (zip (records ops) hs) -> file_cache_ok n (zip (records ops) hs) fc' ->
    exists buffer fc'', ('(r0, blobs) ← BlobFileReader_Get rd None h; Some (r0, fc', blobs))
      = Some (Ret (r, buffer), fc'', None) /\ file_cache_ok n (zip (records ops) hs) fc'') as Hget.
  { intros rd fc' Hrd Hfc'. unfold BlobFileReader_Get. cbn [mbind option_bind].
    destruct (ReadRecord_spec t Ht rd _ r h Hrd Hin) as (buffer & -> & _). by exists buffer, fc'. }
  destruct (fc !! EncodeFileNumber n) as [rd|] eqn:E; cbn [mbind option_bind].
  - apply Hget; [by apply Hfc|done].
  - rewrite Henv. cbn [or_bind]. rewrite Ho. cbn [mbind option_bind]. apply Hget; [done|].
    intros rd Hl. apply (lookup_insert_Some (M := gmap bytes)) in Hl as [[_ <-]|[? _]]; done.
Qed.

(** C24: Iterating over a finished blob file, from [SeekToFirst] to the end,
    gives exactly the records that were put, in the order they were put, each
    with the index that was handed out for it, and ends with an OK status. The
    entry count, the live size and the key range that go into the metadata of
    the file are those of its records. *)
Theorem blob_file_iterates ver ops opts n id garbage :
  is_byte t -> ops_ok t ops -> config_ok copts ver -> Forall record_ok (records ops) ->
  ver = kVersion2 \/ records ops <> [] ->
  exists b hs i i',
    build t copts new_file ver ops = Some (OK, b, assign ops hs) /\
    SeekToFirst (BlobFileIterator_new garbage (stored (contents (file_ b)) id) n (GetFileSize (file_ b)) opts UINT64_MAX)
      = Some i /\
    drain (length (records ops)) i = Some (zip_with (fun r h => (r, blob_index n h)) (records ops) hs, i') /\
    it_status_ i' = OK /\ length hs = length (records ops) /\
    num_entries_ b = zlen (records ops) /\ live_data_size_ b = foldr Z.add 0 (map size hs) /\
    key_range (smallest_key_ b) (largest_key_ b) (records ops).
Proof.
  intros Ht Hops Hc Hok Hne. destruct (build_spec t copts ver ops Hops Hc) as (b & dict & hs & Hb & Hfin & Hk).
  pose proof (fin_handles _ _ _ _ _ _ _ _ Hfin) as Hl.
  assert (entries n (zip (records ops) hs) = zip_with (fun r h => (r, blob_index n h)) (records ops) hs) as He.
  { unfold entries. clear. revert hs. induction (records ops) as [|r rs IH]; intros [|h hs]; cbn; try done. by rewrite IH. }
  assert (Forall (fun p => record_ok p.1) (zip (records ops) hs)) as Hok'.
  { clear -Hok Hl. revert hs Hl. induction Hok as [|r rs Hr _ IH]; intros [|h hs] Hl; try done; cbn; constructor; [done|].
    apply IH. by injection Hl. }
  assert (zlen (zip (records ops) hs) <= 2 ^ 30) as Hz by (rewrite zlen_zip by done; apply Hops).
  destruct (SeekToFirst_file t Ht ver dict _ _ id garbage n opts UINT64_MAX (fin_layout _ _ _ _ _ _ _ _ Hfin)) as (i & Hi & Hr);
    [| |done|lia|unfold UINT64_MAX; lia|].
  { intros Hd. apply (cfg_zstd _ _ Hc). rewrite <- (fin_dict _ _ _ _ _ _ _ _ Hfin). by apply bool_decide_eq_true_2. }
  { destruct Hne as [|Hne]; [by left|right]. intros Hn. apply Hne. destruct (records ops), hs; done. }
  destruct (drain_remaining _ i (length (records ops)) Hr) as (i' & Hd & Hs).
  { unfold entries. rewrite length_map, length_zip_with. lia. }
  exists b, hs, i, i'. split; [done|]. split.
  { replace (GetFileSize (file_ b)) with (zlen (contents (file_ b))); [done|]. rewrite (fin_file _ _ _ _ _ _ _ _ Hfin). done. }
  rewrite <- He. split; [done|]. split; [done|]. split; [done|]. split; [apply Hfin|]. split; [apply Hfin|done].
Qed.

(** C33: The blob cache is transparent. Readers of several files share a cache
    that any reads have filled and from which anything may have been evicted;
    reading a record gives what reading it without a cache gives, and leaves
    such a cache again: no key of one record is ever the key of another. *)
Theorem blob_cache_transparent rds c rd rs r h :
  is_byte t -> sharing t rds -> rtc (cache_step rds) ∅ c -> (rd, rs) ∈ rds -> (r, h) ∈ rs ->
  (exists buffer, BlobFileReader_Get rd None h = Some (Ret (r, buffer), None)) /\
  exists buffer c', BlobFileReader_Get rd (Some c) h = Some (Ret (r, buffer), Some c') /\
    rtc (cache_step rds) ∅ c'.
Proof.
  intros Ht Hsh Hc Hrd Hr. split.
  - destruct (ReadRecord_spec t Ht rd rs r h (sh_reads _ _ Hsh _ _ Hrd) Hr) as (buffer & Hread & _).
    exists buffer. unfold BlobFileReader_Get. cbn [mbind option_bind]. by rewrite Hread.
  - destruct (BlobFileReader_Get_cached t Ht rds rd rs r h c Hsh) as (buffer & c' & Hg & _); try done.
    { by apply (cache_steps_ok t). }
    exists buffer, c'. split; [done|]. eapply rtc_r; [exact Hc|]. by econstructor.
Qed.
End Roundtrip.

(** ** Merging files *)

Section MergeFiles.
Context `{C : Comparator} `{!ComparatorLaws C} `{L : FileLibrary} `{!FileLibraryLaws L}.
Context `{H : HeapTop} `{!HeapTopLaws H}.

(** A finished file as an input of a collection. *)
Record gc_input : Type := {
  in_number : Z;
  in_version : Z;
  in_dict : option bytes;
  in_records : list (BlobRecord * BlobHandle);
  in_contents : bytes;
  in_id : bytes }.

Definition in_iterator (garbage : Z) (opts : TitanCFOptions) (f : gc_input) : BlobFileIterator :=
  BlobFileIterator_new garbage (stored (in_contents f) (in_id f)) (in_number f) (zlen (in_contents f)) opts UINT64_MAX.

Record input_ok (t : Z) (f : gc_input) : Prop := {
  in_file : blob_file t (in_version f) (in_dict f) (in_records f) (in_contents f);
  in_zstd : is_Some (in_dict f) -> 10103 <= ZSTD_VERSION_NUMBER;
  in_some : in_version f = kVersion2 \/ in_records f <> [];
  in_ok : Forall (fun p => record_ok p.1) (in_records f);
  in_count : zlen (in_records f) < 2 ^ 63 }.

Definition in_entries (f : gc_input) : list (BlobRecord * BlobIndex) := entries (in_number f) (in_records f).

(** An iterator with the bitmap of its file. *)
Definition with_bits (bits : Z -> option BitMap) (i : BlobFileIterator) : BlobFileIterator :=
  match bits (it_file_number_ i) with Some bm => SetBitMap i bm | None => i end.

(** Draining the merge iterator over finished files, with or without bitmaps. *)
Lemma merge_files_drain t garbage opts files bits :
  is_byte t -> Forall (input_ok t) files -> concat (map in_entries files) <> [] ->
  exists m l m',
    merge_SeekToFirst (BlobFileMergeIterator_new (map (fun f => with_bits bits (in_iterator garbage opts f)) files)) = Some m /\
    merge_drain (length (concat (map in_entries files))) m = Some (l, m') /\
    merge_status m' = OK /\ interleaving (map in_entries files) l /\
    concat (map in_entries files) ≡ₚ l /\
    (Forall (fun f => Sorted key_le (in_entries f)) files -> StronglySorted key_le l).
Proof.
  intros Ht Hf Hne.
  assert (Forall2 (fun i l => exists i', SeekToFirst i = Some i' /\ remaining i' l)
    (map (fun f => with_bits bits (in_iterator garbage opts f)) files) (map in_entries files)) as Hs.
  { clear Hne. induction Hf as [|f files [Hfile Hz Hsome Hok Hcnt] _ IH]; cbn; constructor; [|done].
    destruct (SeekToFirst_file t Ht (in_version f) (in_dict f) (in_records f) (in_contents f) (in_id f) garbage (in_number f) opts UINT64_MAX)
      as (i & Hi & Hr); [done..|unfold UINT64_MAX; lia|].
    unfold with_bits. destruct (bits _) as [bm|]; [|by exists i].
    exists (SetBitMap i bm). split; [by apply SetBitMap_SeekToFirst|by apply SetBitMap_remaining]. }
  destruct (merge_drain_spec _ _ Hs Hne) as (m & l & m' & Hsk & Hd & Hst & Hil & Hso).
  exists m, l, m'. split; [done|]. split; [done|]. split; [done|]. split; [done|].
  split; [by apply interleaving_permutation|]. intros Hsorted. apply Hso. by apply Forall_map.
Qed.

(** C25: The merge iterator over finished files gives every record of every file
    once, with its index, keeping the order of each file; when each file is in
    the order of its keys, so is what it gives. It ends with an OK status. The
    top of the heap may be any of the smallest keys. *)
Theorem merge_visits_all t garbage opts files :
  is_byte t -> Forall (input_ok t) files -> concat (map in_entries files) <> [] ->
  exists m l m',
    merge_SeekToFirst (BlobFileMergeIterator_new (map (in_iterator garbage opts) files)) = Some m /\
    merge_drain (length (concat (map in_entries files))) m = Some (l, m') /\
    merge_status m' = OK /\ interleaving (map in_entries files) l /\
    concat (map in_entries files) ≡ₚ l /\
    (Forall (fun f => Sorted key_le (in_entries f)) files -> StronglySorted key_le l).
Proof. intros Ht Hf Hne. apply (merge_files_drain t garbage opts files (fun _ => None) Ht Hf Hne). Qed.

(** A read that fails in the middle of a merge is not reported. When the
    iterator of one file cannot read its next record, the merge iterator goes on
    with the other files, or ends, with an OK status: the rest of that file is
    skipped like a file that has been read to its end. *)
Theorem merge_hides_read_errors m c i i' :
  merge_Valid m = true -> mi_status_ m = OK -> current_ m = Some c ->
  blob_file_iterators_ m !! c = Some i -> Next i = Some i' -> it_status_ i' <> OK ->
  (forall n, n ∈ min_heap_ m -> n <> c /\ exists j, blob_file_iterators_ m !! n = Some j /\ it_status_ j = OK) ->
  exists m', merge_Next m = Some m' /\ merge_status m' = OK /\
    (min_heap_ m = [] -> merge_Valid m' = false) /\ current_ m' <> Some c.
Proof.
  intros Hv Hst Hc Hi Hn Hs Hheap. unfold merge_Next. rewrite Hv. cbn [assert mbind option_bind].
  rewrite Hc. cbn [mbind option_bind]. rewrite Hi. cbn [mbind option_bind]. rewrite Hn. cbn [mbind option_bind].
  assert (ok (it_status_ i') = false) as -> by by destruct (it_status_ i'). cbn [andb min_heap_].
  destruct (bool_decide_reflect (min_heap_ m <> [])) as [Hne|Hnil].
  - unfold pop_heap. cbn [min_heap_ blob_file_iterators_ mi_status_ current_].
    set (keys := omap _ _).
    assert (length keys = length (min_heap_ m)) as Hlk.
    { unfold keys. clear -Hheap. induction (min_heap_ m) as [|n heap IH]; [done|]. cbn.
      destruct (Hheap n) as (Hnc & j & Hj & _); [by left|]. rewrite list_lookup_insert_ne by done. rewrite Hj. cbn.
      f_equal. apply IH. intros n' Hn'. apply Hheap. by right. }
    assert (keys <> []) as Hkne by (intros Hk; rewrite Hk in Hlk; by destruct (min_heap_ m)).
    destruct (lookup_lt_is_Some_2 (min_heap_ m) (heap_top keys)) as [n Hn']; [rewrite <- Hlk; by apply heap_top_in|].
    rewrite Hn'. cbn [mbind option_bind]. eexists. split; [done|].
    apply list_elem_of_lookup_2 in Hn'. destruct (Hheap n Hn') as (Hnc & j & Hj & Hjs).
    split; [|split; [done|cbn; congruence]].
    unfold merge_status, merge_iter. cbn. rewrite list_lookup_insert_ne by done. by rewrite Hj, Hjs.
  - eexists. split; [done|]. split; [done|]. by split.
Qed.
End MergeFiles.

(** ** Writes that fail *)

(** A write that fails while the buffered records are written is forgotten.
    [Finish] calls [EnterUnbuffered] and then goes on without looking at the
    status: when the writes after it succeed, it returns an OK status, whatever
    status the records were written with, and has handed out the handles of all
    the records, of those that could not be written too. *)
Theorem builder_loses_write_errors `{C : Comparator} `{L : FileLibrary} `{!FileLibraryLaws L} t copts b out b1 out1 dict :
  status_ b = OK -> builder_state_ b = kBuffered -> 0 < max_dict_bytes copts ->
  EnterUnbuffered t copts b out = Some (b1, out1) ->
  outcomes (file_ b1) = [] -> blob_file_version_ b1 = kVersion2 -> compression_dict_ b1 = Some dict ->
  0 <= filesize_ (file_ b1) < 2 ^ 62 -> zlen dict < 2 ^ 32 ->
  exists b2, Finish t copts b out = Some (OK, b2, out1).
Proof.
  intros Hs Hst Hm He Ho Hver Hd Hfs Hdl. pose proof (zlen_nonneg dict) as Hd0.
  destruct (BlockHandle_EncodeTo_ok {| bh_offset := filesize_ (file_ b1); bh_size := zlen dict |}) as (enc & Henc & Hel).
  { unfold BlockHandle_wf. cbn. lia. }
  set (meta := BuildBlock [(kCompressionDictBlockName, enc)]).
  pose proof (built_size kCompressionDictBlockName enc) as Hms. fold meta in Hms.
  change (zlen kCompressionDictBlockName) with 24 in Hms. change kMaxEncodedLength with 20 in Hel.
  assert (forall (bb : BlobFileBuilder) block, outcomes (file_ bb) = [] ->
    exists bb', WriteRawBlock bb block = (bb', {| bh_offset := filesize_ (file_ bb); bh_size := zlen block |}) /\
      status_ bb' = OK /\ outcomes (file_ bb') = [] /\
      filesize_ (file_ bb') = u64 (u64 (filesize_ (file_ bb) + zlen block) + 5)) as Hw.
  { intros bb block Hb. unfold WriteRawBlock, Append, GetFileSize. rewrite Hb. by eexists. }
  destruct (Hw b1 dict Ho) as (b2 & Hw2 & Hs2 & Ho2 & Hf2).
  destruct (Hw b2 meta Ho2) as (b3 & Hw3 & Hs3 & Ho3 & _).
  rewrite Hf2, !u64_small in Hw3 by (unfold is_u64; rewrite ?u64_small by (unfold is_u64; lia); lia).
  destruct (BlobFileFooter_roundtrip {| bh_offset := filesize_ (file_ b1) + zlen dict + 5; bh_size := zlen meta |} [])
    as (footer & Hf & _).
  { unfold BlockHandle_wf. cbn. lia. }
  unfold Finish, WriteCompressionDictBlock. rewrite Hs, Hst, He. cbn [ok negb].
  destruct (decide _) as [_|]; [|done]. cbn [mbind option_bind]. rewrite (proj2 (Z.ltb_lt _ _)) by done.
  rewrite Hver. cbn [assert Z.eqb kVersion2 Pos.eqb mbind option_bind]. rewrite Hd. cbn [mbind option_bind].
  rewrite Hw2, Hs2. cbn [ok]. rewrite Henc. cbn [mbind option_bind]. fold meta. rewrite Hw3, Hf. cbn [mbind option_bind].
  unfold Append. rewrite Ho3. cbn [set_io fst snd status_ ok file_]. unfold Flush. cbn. by eexists.
Qed.

(** ** The theorems on concrete files *)

Definition demo_ctx (n : Z) (small : bool) : BlobRecordContext :=
  mkCtx [n; 1; 0; 0; 0; 0; 0; 0; 0] BlobIndex_default
    {| file_number := 7; blob_handle := BlobHandle_default; old_file_number := 0; old_blob_handle := BlobHandle_default |}
    small (if small then [9] else []).

Definition demo_record (n : Z) : BlobRecord := {| key := [n]; value := [n; 2; 3; 4; 5; 6; 7; 8; 9; 10] |}.

Definition demo_ops : list Op :=
  [Put (demo_record 1) (demo_ctx 1 false); Small (demo_ctx 2 true);
   Put (demo_record 3) (demo_ctx 3 false); Put (demo_record 4) (demo_ctx 4 false); Small (demo_ctx 5 true)].

Definition demo_copts : CompressionOptions := mkCompressionOptions 8 20.

#[local] Abbreviation demo_build file := (build (C := BytewiseComparator) 1 demo_copts file 2 demo_ops).

Lemma demo_ops_ok : ops_ok 1 demo_ops.
Proof.
  split; [|done]. repeat constructor; try (intros dict; vm_compute; by eexists); done.
Qed.

Lemma demo_config_ok : config_ok demo_copts 2.
Proof. split; [by left|done|done]. Qed.

Lemma demo_records_ok : Forall record_ok (records demo_ops).
Proof.
  repeat constructor; try done; cbn; repeat (apply Forall_cons; split; [done|]); try constructor; done.
Qed.

Lemma blob_file_roundtrip_witness :
  is_byte 1 /\ ops_ok 1 demo_ops /\ config_ok demo_copts 2 /\ Forall record_ok (records demo_ops) /\
  exists b hs, demo_build new_file = Some (OK, b, assign demo_ops hs) /\ length hs = 3%nat.
Proof.
  split; [done|]. split; [exact demo_ops_ok|]. split; [exact demo_config_ok|]. split; [exact demo_records_ok|].
  destruct (blob_file_roundtrip (C := BytewiseComparator) 1 demo_copts 2 demo_ops ltac:(done) demo_ops_ok demo_config_ok
    demo_records_ok) as (b & hs & Hb & Hl & _).
  exists b, hs. exact (conj Hb Hl).
Defined.

Lemma blob_file_iterates_witness :
  is_byte 1 /\ ops_ok 1 demo_ops /\ config_ok demo_copts 2 /\ Forall record_ok (records demo_ops) /\
  exists b hs i i',
    demo_build new_file = Some (OK, b, assign demo_ops hs) /\
    SeekToFirst (BlobFileIterator_new 0 (stored (contents (file_ b)) []) 7 (GetFileSize (file_ b))
                   (TitanCFOptions_default 7) UINT64_MAX) = Some i /\
    drain 3 i = Some (zip_with (fun r h => (r, blob_index 7 h)) (records demo_ops) hs, i').
Proof.
  split; [done|]. split; [exact demo_ops_ok|]. split; [exact demo_config_ok|]. split; [exact demo_records_ok|].
  destruct (blob_file_iterates (C := BytewiseComparator) 1 demo_copts 2 demo_ops (TitanCFOptions_default 7) 7 [] 0
    ltac:(done) demo_ops_ok demo_config_ok demo_records_ok ltac:(by left)) as (b & hs & i & i' & Hb & Hs & Hd & _).
  exists b, hs, i, i'. exact (conj Hb (conj Hs Hd)).
Defined.

(** An open reader of the demo file, with its cache prefix. *)
Lemma demo_reader :
  exists rd hs, sharing 1 [(rd, zip (records demo_ops) hs)] /\ length hs = 3%nat.
Proof.
  destruct (build_spec (C := BytewiseComparator) 1 demo_copts 2 demo_ops demo_ops_ok demo_config_ok)
    as (b & dict & hs & _ & Hfin & _).
  destruct (fin_open 1 demo_copts 2 demo_ops b _ dict hs (Some 5) [] Hfin demo_config_ok
    demo_records_ok) as (rd & Ho & Hrd).
  destruct (BlobFileReader_Open_file 1 (Some 5) 2 dict _ _ [] (fin_layout _ _ _ _ _ _ _ _ Hfin)) as (footer & Ho'); [done|].
  replace (GetFileSize (file_ b)) with (zlen (contents (file_ b))) in Ho
    by (rewrite (fin_file _ _ _ _ _ _ _ _ Hfin); done).
  rewrite Ho' in Ho. injection Ho as <-. eexists _, hs. split; [|apply Hfin]. split.
  - intros rd' rs' [= -> ->]%list_elem_of_singleton. exact Hrd.
  - intros rd' rs' [= -> ->]%list_elem_of_singleton. by apply (varint_prefix_new_id 5).
  - by intros rd1 rs1 rd2 rs2 [= -> ->]%list_elem_of_singleton [= -> ->]%list_elem_of_singleton.
Qed.

Lemma blob_cache_transparent_witness :
  exists rd h buffer c', BlobFileReader_Get rd (Some ∅) h = Some (Ret (demo_record 3, buffer), Some c').
Proof.
  destruct demo_reader as (rd & hs & Hsh & Hl). destruct hs as [|h1 [|h2 [|h3 [|]]]]; try done.
  destruct (blob_cache_transparent 1 _ ∅ rd (zip (records demo_ops) [h1; h2; h3]) (demo_record 3) h2 ltac:(done) Hsh (rtc_refl _ _))
    as (_ & buffer & c' & Hg & _).
  { by left. }
  { by right; left. }
  exists rd, h2, buffer, c'. exact Hg.
Defined.

Lemma small_input n : exists f, input_ok 1 f /\ in_number f = n /\ length (in_records f) = 3%nat.
Proof.
  destruct (build_spec (C := BytewiseComparator) 1 demo_copts 2 demo_ops demo_ops_ok demo_config_ok)
    as (b & dict & hs & _ & Hfin & _).
  pose proof (fin_handles _ _ _ _ _ _ _ _ Hfin) as Hl.
  exists {| in_number := n; in_version := 2; in_dict := dict; in_records := zip (records demo_ops) hs;
            in_contents := contents (file_ b); in_id := [] |}.
  destruct hs as [|h1 [|h2 [|h3 [|]]]]; try done.
  split; [|done]. split; cbn [in_version in_dict in_records in_contents]; [apply Hfin|done|by left| |done].
  cbn. repeat (apply Forall_cons; split); try constructor; apply (Forall_forall record_ok (records demo_ops)); try exact demo_records_ok;
    cbn; set_solver.
Qed.

Lemma merge_visits_all_witness :
  exists files m l m',
    merge_SeekToFirst (H := demo_heap (C := BytewiseComparator))
      (BlobFileMergeIterator_new (map (in_iterator 0 (TitanCFOptions_default 7)) files)) = Some m /\
    merge_drain (H := demo_heap (C := BytewiseComparator)) 6 m = Some (l, m') /\ concat (map in_entries files) ≡ₚ l.
Proof.
  destruct (small_input 7) as (f1 & H1 & _ & Hl1), (small_input 8) as (f2 & H2 & _ & Hl2).
  assert (length (concat (map in_entries [f1; f2])) = 6%nat) as Hlen.
  { cbn. rewrite !length_app. unfold in_entries, entries. rewrite !length_map, Hl1, Hl2. done. }
  destruct (merge_visits_all (C := BytewiseComparator) (H := demo_heap (C := BytewiseComparator)) 1 0
    (TitanCFOptions_default 7) [f1; f2] ltac:(done) (Forall_cons_2 _ _ _ H1 (Forall_cons_2 _ _ _ H2 (Forall_nil_2 _)))) as (m & l & m' & Hs & Hd & _ & _ & Hp & _).
  { intros Hn. by rewrite Hn in Hlen. }
  rewrite Hlen in Hd. exists [f1; f2], m, l, m'. exact (conj Hs (conj Hd Hp)).
Defined.

(** The demo file with a byte of its second record changed. *)
Definition damaged_contents : bytes :=
  match demo_build new_file with Some (_, b, _) => <[45%nat := 0]> (contents (file_ b)) | None => [] end.

Definition damaged_merge : BlobFileMergeIterator :=
  default (BlobFileMergeIterator_new [])
    (merge_SeekToFirst (H := demo_heap (C := BytewiseComparator)) (BlobFileMergeIterator_new
      [BlobFileIterator_new 0 (stored damaged_contents []) 7 (zlen damaged_contents) (TitanCFOptions_default 7) UINT64_MAX])).

Lemma merge_hides_read_errors_witness :
  exists i i' m', merge_iter damaged_merge = Some i /\ cur_blob_record_ i = demo_record 1 /\
    Next i = Some i' /\ it_status_ i' = Corruption /\
    merge_Next (H := demo_heap (C := BytewiseComparator)) damaged_merge = Some m' /\ merge_Valid m' = false /\ merge_status m' = OK.
Proof.
  destruct (merge_iter damaged_merge) as [i|] eqn:Ei; [|vm_compute in Ei; discriminate].
  destruct (Next i) as [i'|] eqn:En.
  2:{ vm_compute in Ei. injection Ei as <-. vm_compute in En. discriminate. }
  assert (cur_blob_record_ i = demo_record 1 /\ it_status_ i' = Corruption) as [Hc Hs].
  { vm_compute in Ei. injection Ei as <-. vm_compute in En. by injection En as <-. }
  assert (min_heap_ damaged_merge = []) as Hh by (vm_compute; reflexivity).
  destruct (merge_hides_read_errors (C := BytewiseComparator) (H := demo_heap (C := BytewiseComparator)) damaged_merge 0 i i')
    as (m' & Hm & Hst & Hv & _).
  - vm_compute; reflexivity.
  - vm_compute; reflexivity.
  - vm_compute; reflexivity.
  - rewrite <- Ei. vm_compute; reflexivity.
  - exact En.
  - rewrite Hs. discriminate.
  - intros n Hn. rewrite Hh in Hn. destruct (not_elem_of_nil n Hn).
  - exists i, i', m'. repeat split; [exact Hc|exact En|exact Hs|exact Hm|exact (Hv Hh)|exact Hst].
Defined.

(** A disk on which the header of the first record cannot be written. *)
Definition failing_file : WritableFileWriter := mkWriter [] 0 [mkWrite OK 0; mkWrite IOError 0].

Definition buffering_copts : CompressionOptions := mkCompressionOptions 8 0.

Definition failing_builder : BlobFileBuilder * OutContexts :=
  default (mkBuilder kUnbuffered new_file 2 OK [] [] 0 None [] 0 [] [] 0, [])
    (b ← BlobFileBuilder_new buffering_copts failing_file 2;
     fold_option (apply_op (C := BytewiseComparator) 1 buffering_copts) (b, [] : OutContexts) demo_ops).

(** The write of the first record fails, the builder says OK, and the handle of
    the first record leads to the second one. *)
Lemma builder_loses_write_errors_witness :
  exists b1 out1 b2 h buffer,
    EnterUnbuffered 1 buffering_copts failing_builder.1 failing_builder.2 = Some (b1, out1) /\
    Finish 1 buffering_copts failing_builder.1 failing_builder.2 = Some (OK, b2, out1) /\
    (blob_handle ∘ new_blob_index) <$> head out1 = Some h /\
    ReadRecord (mkReader (stored (contents (file_ b2)) []) [] NullBlockHandle (compression_dict_ b2)) h
      = Some (Ret (demo_record 3, buffer)).
Proof.
  destruct (EnterUnbuffered 1 buffering_copts failing_builder.1 failing_builder.2) as [[b1 out1]|] eqn:E;
    [|vm_compute in E; discriminate].
  destruct (builder_loses_write_errors (C := BytewiseComparator) 1 buffering_copts failing_builder.1 failing_builder.2 b1 out1
    (default [] (compression_dict_ b1))) as (b2 & Hf); [vm_compute; reflexivity|vm_compute; reflexivity|done|exact E|..].
  1-5: vm_compute in E; injection E as <- <-; vm_compute; try done; split; done.
  exists b1, out1, b2. destruct ((blob_handle ∘ new_blob_index) <$> head out1) as [h|] eqn:Eh.
  2:{ vm_compute in E. injection E as <- <-. vm_compute in Eh. discriminate. }
  exists h, (BlobRecord_EncodeTo (demo_record 3)). split; [reflexivity|]. split; [exact Hf|]. split; [reflexivity|].
  vm_compute in E. injection E as <- <-. vm_compute in Eh. injection Eh as <-.
  vm_compute in Hf. injection Hf as <-. vm_compute. reflexivity.
Defined.
