(* ===== verification/WriteBack.v ===== *)
(** * WriteBack: how the LSM tree resolves relocated entries

    An offloaded collection writes its relocated indexes without asking whether
    the key has been overwritten since; each carries the location it replaces,
    and the LSM tree decides later. This file is the code of the modified
    RocksDB that decides: [MemTable::Get] and [DBImpl::GetImpl] on reads
    ([db/memtable.cc], [db/db_impl/db_impl.cc]), and the preprocessing of
    flushes and compactions ([db/compaction/compaction_iterator.cc]).
    Snapshots, merge operands, range tombstones and user timestamps are not
    modelled. *)
From S2P Require Import Prelude Coding Crc32c BlobFormat BlobFileMeta Options.

Local Open Scope Z_scope.
Local Open Scope aegon_scope.

(** The types of entries that Titan writes. *)
Inductive ValueType : Type := kTypeDeletion | kTypeValue | kTypeBlobIndex.

#[export] Instance ValueType_eq_dec : EqDecision ValueType.
Proof. solve_decision. Defined.

(** An entry of a memtable or a table: an internal key and a value. *)
Record Entry : Type := mkEntry {
  user_key : bytes;
  sequence : Z;
  etype : ValueType;
  evalue : bytes }.

(** ** The blob indexes that RocksDB decodes *)

Record blob_index_type : Type := mkIndex {
  bi_file_number : Z;
  bi_offset : Z;
  bi_size : Z;
  bi_index : Z }.

(** A tag byte and four varints, or a failed assertion. *)
Definition get_four (src : bytes) : option (blob_index_type * bytes) :=
  '(f, src) ← GetVarint64 src;
  '(o, src) ← GetVarint64 src;
  '(s, src) ← GetVarint64 src;
  '(i, src) ← GetVarint64 src;
  Some (mkIndex f o s i, src).

Definition get_new (src : bytes) : option (blob_index_type * bytes) :=
  '(type, src) ← GetChar src;
  _ ← assert (type =? 1);
  get_four src.

Definition put_four (i : blob_index_type) : bytes :=
  [1] ++ PutVarint64 (bi_file_number i) ++ PutVarint64 (bi_offset i) ++
  PutVarint64 (bi_size i) ++ PutVarint64 (bi_index i).

(** ** Flushes and compactions *)

(** [CheckBlobIndex]: the value to keep, or [None] for [false]. *)
Definition CheckBlobIndex (prev cur : bytes) : option (option bytes) :=
  '(prev_new, prev) ← get_new prev;
  match prev with
  | [] => Some None
  | _ =>
      '(prev_old, _) ← get_four prev;
      '(cur_new, _) ← get_new cur;
      if (bi_file_number prev_old =? bi_file_number cur_new) && (bi_offset prev_old =? bi_offset cur_new)
      then Some (Some (put_four prev_new)) else Some (Some (put_four cur_new))
  end.

Section LSM.
Context `{C : Comparator}.

(** One round of the loop of [Preprocess]; [kv_queue_] with its back first. *)
Definition preprocess_step (kv_queue : list Entry) (e : Entry) : option (list Entry) :=
  _ ← assert (bool_decide (etype e = kTypeValue) || bool_decide (etype e = kTypeBlobIndex));
  match kv_queue with
  | [] => Some [e]
  | pre :: queue =>
      if Compare (user_key e) (user_key pre) =? 0 then
        match etype pre with
        | kTypeValue => Some kv_queue
        | kTypeBlobIndex =>
            if decide (etype e = kTypeValue) then Some (e :: queue)
            else
              res ← CheckBlobIndex (evalue pre) (evalue e);
              match res with
              | Some res_value => Some (mkEntry (user_key pre) (sequence pre) (etype pre) res_value :: queue)
              | None => Some kv_queue
              end
        | kTypeDeletion => None
        end
      else Some (e :: kv_queue)
  end.

(** [Preprocess], and the entries [NextFromCache] then gives one by one. *)
Definition Preprocess (input : list Entry) : option (list Entry) :=
  kv_queue ← fold_option preprocess_step [] input;
  Some (reverse kv_queue).

(** ** Reads *)

(** [Saver]: what [SaveValue] writes to. *)
Record Saver : Type := mkSaver {
  sv_status : Status;
  sv_value : bytes;
  sv_is_blob_index : bool;
  found_final_value : bool;
  pending_check_in_mem : option bool }.

Definition SaverCheckIsGCWriteBack (value : bytes) : option bool :=
  '(_, rest) ← get_new value; Some (negb (bool_decide (rest = []))).

(** [SaveValue]: whether to go on with the next entry. *)
Definition SaveValue (k : bytes) (s : Saver) (e : Entry) : option (bool * Saver) :=
  if negb (Compare (user_key e) k =? 0) then Some (false, s) else
  match etype e with
  | kTypeDeletion =>
      Some (false, mkSaver NotFound (sv_value s) (sv_is_blob_index s) true (pending_check_in_mem s))
  | type =>
      let is_blob := bool_decide (type = kTypeBlobIndex) in
      '(value, pending) ←
        match pending_check_in_mem s with
        | None => Some (evalue e, None)
        | Some pending =>
            if is_blob then
              if negb pending then
                write_back ← SaverCheckIsGCWriteBack (evalue e);
                Some (evalue e, Some write_back)
              else Some (sv_value s, Some false)
            else Some (evalue e, Some false)
        end;
      Some (default false pending, mkSaver OK value is_blob true pending)
  end.

(** [table_->Get]: the entries of the memtable from the key on. *)
Fixpoint GetFromTable (k : bytes) (s : Saver) (entries : list Entry) : option Saver :=
  match entries with
  | [] => Some s
  | e :: entries =>
      '(continue, s) ← SaveValue k s e;
      if (continue : bool) then GetFromTable k s entries else Some s
  end.

(** [MemTable::Get], with or without [pending_check]. *)
Definition MemTable_Get (pending_check : option bool) (k : bytes) (entries : list Entry) : option Saver :=
  GetFromTable k (mkSaver OK [] false false pending_check) entries.

(** [GetFromList] over the immutable memtables, and [Version::Get]: neither
    asks for a check of write-backs. *)
Fixpoint Get_rest (k : bytes) (tables : list (list Entry)) : option Saver :=
  match tables with
  | [] => Some (mkSaver NotFound [] false false None)
  | entries :: tables =>
      s ← MemTable_Get None k entries;
      if found_final_value s then Some s else Get_rest k tables
  end.

(** [DBImpl::GetImpl]: the memtable, then everything older, newest first. *)
Definition GetImpl (mem : list Entry) (older : list (list Entry)) (k : bytes) : option Saver :=
  s ← MemTable_Get (Some false) k mem;
  if found_final_value s then Some s else Get_rest k older.
End LSM.
