(* ===== verification/WriteBackSpec.v ===== *)
(** * WriteBackSpec: when relocated entries do not hide what the user wrote

    The specification says what a key with several versions in the LSM tree
    reads as when a relocated index counts only if the version below it is the
    one it replaces. Flushes and compactions compute it, and reads give it,
    under conditions that the theorems state exactly; under the specification an
    offloaded collection may write its indexes back at any time. *)
From S2P Require Import Prelude Coding Crc32c BlobFormat BlobFileMeta Options WriteBack.

Local Open Scope Z_scope.
Local Open Scope aegon_scope.

(** ** Versions of a key *)

Inductive Version : Type :=
  | Val (v : bytes)
  | Del
  | Idx (i : BlobIndex).

(** What a read of the key finds. *)
Inductive Visible : Type :=
  | Nothing
  | Found (v : bytes)
  | Located (i : BlobIndex).

Definition linked (i : BlobIndex) : bool := 0 <? old_file_number i.

Definition unlink (i : BlobIndex) : BlobIndex :=
  {| file_number := file_number i; blob_handle := blob_handle i;
     old_file_number := 0; old_blob_handle := BlobHandle_default |}.

(** The relocated index [i] replaces the index [j]. *)
Definition follows (i j : BlobIndex) : bool :=
  (old_file_number i =? file_number j) && (offset (old_blob_handle i) =? offset (blob_handle j)).

(** The versions of a key, newest first. *)
Fixpoint resolve (vs : list Version) : Visible :=
  match vs with
  | [] => Nothing
  | Val v :: _ => Found v
  | Del :: _ => Nothing
  | Idx i :: vs =>
      if linked i then
        match resolve vs with
        | Located j => if follows i j then Located (unlink i) else Located j
        | other => other
        end
      else Located (unlink i)
  end.

Definition version_wf (v : Version) : Prop :=
  match v with Idx i => BlobIndex_wf i | _ => True end.

Definition entry_of (k : bytes) (p : Z * Version) : Entry :=
  match p.2 with
  | Val v => mkEntry k p.1 kTypeValue v
  | Del => mkEntry k p.1 kTypeDeletion []
  | Idx i => mkEntry k p.1 kTypeBlobIndex (BlobIndex_EncodeTo i)
  end.

(** ** The blob indexes that RocksDB decodes *)

Definition new_part (i : BlobIndex) : blob_index_type :=
  mkIndex (file_number i) (offset (blob_handle i)) (size (blob_handle i)) (index (blob_handle i)).

Definition old_part (i : BlobIndex) : blob_index_type :=
  mkIndex (old_file_number i) (offset (old_blob_handle i)) (size (old_blob_handle i)) (index (old_blob_handle i)).

Lemma get_four_put n h rest :
  is_u64 n -> BlobHandle_wf h ->
  get_four (PutVarint64 n ++ BlobHandle_EncodeTo h ++ rest)
    = Some (mkIndex n (offset h) (size h) (index h), rest).
Proof.
  intros Hn (Ho & Hs & Hi). unfold get_four, BlobHandle_EncodeTo. rewrite <- !app_assoc.
  do 4 (rewrite GetVarint64_Put by done; cbn [mbind option_bind]). done.
Qed.

Definition link_bytes (i : BlobIndex) : bytes :=
  if linked i then PutVarint64 (old_file_number i) ++ BlobHandle_EncodeTo (old_blob_handle i) else [].

Lemma get_new_encode i :
  BlobIndex_wf i -> get_new (BlobIndex_EncodeTo i) = Some (new_part i, link_bytes i).
Proof.
  intros (Hn & Hh & _ & _). unfold get_new, BlobIndex_EncodeTo. cbn [app GetChar mbind option_bind].
  change (assert (kBlobRecord =? 1)) with (Some tt). cbn [mbind option_bind].
  by rewrite get_four_put.
Qed.

Lemma link_bytes_nil i : link_bytes i = [] <-> linked i = false.
Proof.
  unfold link_bytes. destruct (linked i); [|done]. split; [|done].
  destruct (PutVarint64_cons (old_file_number i)) as (b & p & ->). done.
Qed.

Lemma get_four_link i : BlobIndex_wf i -> linked i = true -> get_four (link_bytes i) = Some (old_part i, []).
Proof.
  intros (_ & _ & Ho & Hoh) Hl. unfold link_bytes. rewrite Hl.
  rewrite <- (app_nil_r (BlobHandle_EncodeTo _)). by apply get_four_put.
Qed.

Lemma put_four_unlink i : put_four (new_part i) = BlobIndex_EncodeTo (unlink i).
Proof.
  unfold put_four, BlobIndex_EncodeTo, BlobHandle_EncodeTo. cbn. by rewrite app_nil_r.
Qed.

Lemma unlink_wf i : BlobIndex_wf i -> BlobIndex_wf (unlink i).
Proof.
  intros (Hn & Hh & _ & _). split; [exact Hn|]. split; [exact Hh|].
  unfold BlobHandle_wf, is_u64. cbn. lia.
Qed.

Lemma CheckBlobIndex_spec i j :
  BlobIndex_wf i -> BlobIndex_wf j ->
  CheckBlobIndex (BlobIndex_EncodeTo i) (BlobIndex_EncodeTo j)
    = Some (if linked i then Some (BlobIndex_EncodeTo (unlink (if follows i j then i else j))) else None).
Proof.
  intros Hi Hj. unfold CheckBlobIndex. rewrite (get_new_encode i) by done. cbn [mbind option_bind].
  destruct (linked i) eqn:Hl.
  - pose proof (get_four_link i Hi Hl) as Hg.
    destruct (link_bytes i) as [|b l] eqn:Eb; [by apply link_bytes_nil in Eb; congruence|].
    cbn iota. rewrite Hg. cbn [mbind option_bind]. rewrite (get_new_encode j) by done. cbn [mbind option_bind].
    unfold follows. cbn [bi_file_number bi_offset old_part new_part].
    by destruct (_ && _); rewrite put_four_unlink.
  - by rewrite (proj2 (link_bytes_nil i) Hl).
Qed.

Lemma follows_unlink i j : follows i (unlink j) = follows i j.
Proof. done. Qed.

(** ** What preprocessing does to the versions of one key *)

Definition merge_version (st cur : Version) : Version :=
  match st, cur with
  | Idx i, Val v => Val v
  | Idx i, Idx j => if linked i then Idx (unlink (if follows i j then i else j)) else Idx i
  | _, _ => st
  end.

Definition no_del (vs : list Version) : Prop := Forall (fun v => v <> Del) vs.
Definition no_val (vs : list Version) : Prop := Forall (fun v => forall x, v <> Val x) vs.

Lemma merge_version_wf st cur :
  version_wf st -> version_wf cur -> st <> Del -> version_wf (merge_version st cur) /\ merge_version st cur <> Del.
Proof.
  intros Hs Hc Hd. destruct st as [v| |i]; [done..|]. destruct cur as [v| |j]; [done..|]. cbn in *.
  destruct (linked i); [|done]. split; [|done]. by destruct (follows i j); apply unlink_wf.
Qed.

Section Preprocess.
Context `{C : Comparator} `{!ComparatorLaws C}.

Lemma preprocess_step_key k s st s' cur queue :
  version_wf st -> version_wf cur -> st <> Del -> cur <> Del ->
  exists s'', preprocess_step (entry_of k (s, st) :: queue) (entry_of k (s', cur))
    = Some (entry_of k (s'', merge_version st cur) :: queue).
Proof.
  intros Hs Hc Hd Hd'. unfold preprocess_step.
  destruct st as [v| |i]; [|done|]; (destruct cur as [v'| |j]; [|done|]); cbn -[CheckBlobIndex BlobIndex_EncodeTo];
    rewrite Compare_refl; cbn -[CheckBlobIndex BlobIndex_EncodeTo]; try by eexists.
  cbn in Hs, Hc. rewrite CheckBlobIndex_spec by done. cbn [mbind option_bind].
  destruct (linked i); by eexists.
Qed.

Lemma preprocess_key k vs : forall s st queue,
  version_wf st -> st <> Del -> Forall (fun p => version_wf p.2 /\ p.2 <> Del) vs ->
  exists s', fold_option preprocess_step (entry_of k (s, st) :: queue) (map (entry_of k) vs)
    = Some (entry_of k (s', foldl merge_version st (map snd vs)) :: queue).
Proof.
  induction vs as [|[s' cur] vs IH]; intros s st queue Hs Hd Hvs; [by eexists|].
  apply Forall_cons in Hvs as [[Hc Hcd] Hvs]. cbn [map fold_option foldl snd].
  destruct (preprocess_step_key k s st s' cur queue) as (s'' & ->); [done..|]. cbn [mbind option_bind].
  destruct (merge_version_wf st cur Hs Hc Hd). by apply IH.
Qed.
End Preprocess.

(** ** When the result is the right one *)

(** No plain index is above an inline value, and every relocated index below
    the newest version took effect. [post] are the older versions, outside. *)
Fixpoint settled_tail (vs post : list Version) : Prop :=
  match vs with
  | [] => True
  | v :: vs =>
      match v with
      | Idx i => if linked i then resolve (Idx i :: vs ++ post) = Located (unlink i) else no_val vs
      | _ => True
      end /\ settled_tail vs post
  end.

Definition settled (vs post : list Version) : Prop :=
  match vs with
  | [] => True
  | v :: vs =>
      match v with Idx i => linked i = false -> no_val vs | _ => True end /\ settled_tail vs post
  end.

Lemma settled_tail_no_val j r post : no_del r -> settled_tail (Idx j :: r) post -> no_val r.
Proof.
  revert j. induction r as [|v r IH]; intros j Hnd Hst; [constructor|].
  apply Forall_cons in Hnd as [Hv Hnd]. destruct Hst as [Hj Hst]. destruct v as [v| |k]; [|done|].
  - destruct (linked j) eqn:Hl; [|exact Hj]. cbn in Hj. rewrite Hl in Hj. done.
  - constructor; [done|]. by apply (IH k).
Qed.

Lemma foldl_val v vs : foldl merge_version (Val v) vs = Val v.
Proof. induction vs as [|c vs IH]; [done|]. by destruct c. Qed.

Lemma foldl_plain i vs : linked i = false -> no_val vs -> foldl merge_version (Idx i) vs = Idx i.
Proof.
  intros Hl. induction vs as [|c vs IH]; intros Hv; [done|]. apply Forall_cons in Hv as [Hc Hv].
  destruct c as [v| |j]; cbn; [by destruct (Hc v)|by apply IH|]. rewrite Hl. by apply IH.
Qed.

(** The first of the versions, with the ones below it folded in, reads like all
    of them. *)
Lemma fold_resolves st vs post :
  no_del (st :: vs) -> settled (st :: vs) post ->
  resolve (foldl merge_version st vs :: post) = resolve (st :: vs ++ post).
Proof.
  intros [Hst Hnd]%Forall_cons [Hs Ht]. destruct st as [v| |i]; [by rewrite foldl_val|done|].
  destruct (linked i) eqn:Hl.
  2:{ rewrite foldl_plain by auto. cbn. by rewrite Hl. }
  destruct vs as [|c r]; [done|]. apply Forall_cons in Hnd as [Hc Hnd]. destruct c as [v| |j]; [|done|].
  - cbn [foldl merge_version]. rewrite foldl_val. cbn. by rewrite Hl.
  - cbn [foldl merge_version]. rewrite Hl.
    pose proof (settled_tail_no_val _ _ _ Hnd Ht) as Hnv.
    assert (resolve (Idx j :: r ++ post) = Located (unlink j)) as Hj.
    { destruct Ht as [Hj _]. destruct (linked j) eqn:Hlj; [done|]. cbn. by rewrite Hlj. }
    set (x := if follows i j then i else j).
    rewrite foldl_plain by done. cbn [resolve app]. change (linked (unlink x)) with false. cbn iota.
    rewrite Hl. cbn [app] in Hj. change (if linked j then _ else _) with (resolve (Idx j :: r ++ post)).
    rewrite Hj, follows_unlink. unfold x. by destruct (follows i j).
Qed.

(** ** Whole inputs *)

(** The input of a flush or a compaction: keys in order, with their versions
    newest first, each with its sequence number. *)
Abbreviation Group := (bytes * list (Z * Version))%type (only parsing).

Definition entries_of (groups : list Group) : list Entry :=
  concat (map (fun g => map (entry_of g.1) g.2) groups).

Definition versions (g : Group) : list Version := map snd g.2.

Definition group_wf (g : Group) : Prop :=
  g.2 <> [] /\ Forall (fun p => version_wf p.2 /\ p.2 <> Del) g.2.

(** What a group becomes. *)
Definition merged (g : Group) (o : bytes * (Z * Version)) : Prop :=
  o.1 = g.1 /\ version_wf o.2.2 /\ o.2.2 <> Del /\
  forall post, settled (versions g) post -> resolve (o.2.2 :: post) = resolve (versions g ++ post).

Lemma entries_of_cons g gs : entries_of (g :: gs) = map (entry_of g.1) g.2 ++ entries_of gs.
Proof. done. Qed.

Section Groups.
Context `{C : Comparator} `{!ComparatorLaws C}.

Definition key_lt (x y : bytes) : Prop := Compare x y < 0.

Lemma foldl_merge_wf vs : forall st,
  version_wf st -> st <> Del -> Forall (fun v => version_wf v /\ v <> Del) vs ->
  version_wf (foldl merge_version st vs) /\ foldl merge_version st vs <> Del.
Proof.
  induction vs as [|c vs IH]; intros st Hs Hd Hvs; [done|]. apply Forall_cons in Hvs as [[Hc Hcd] Hvs].
  destruct (merge_version_wf st c Hs Hc Hd). by apply IH.
Qed.

(** The first entry of a key opens a new entry of the queue. *)
Lemma preprocess_step_new k p queue :
  p.2 <> Del -> (forall e rest, queue = e :: rest -> key_lt (user_key e) k) ->
  preprocess_step queue (entry_of k p) = Some (entry_of k p :: queue).
Proof.
  intros Hd Hq. destruct p as [s v]. cbn in Hd. unfold preprocess_step.
  assert (assert (bool_decide (etype (entry_of k (s, v)) = kTypeValue)
                  || bool_decide (etype (entry_of k (s, v)) = kTypeBlobIndex)) = Some tt) as -> by (by destruct v).
  cbn [mbind option_bind]. destruct queue as [|e rest]; [done|].
  assert (user_key (entry_of k (s, v)) = k) as -> by (by destruct v).
  pose proof (Hq e rest eq_refl) as Hlt. unfold key_lt in Hlt. apply Compare_swap in Hlt.
  destruct (Compare k (user_key e) =? 0) eqn:E; [lia|done].
Qed.

Lemma preprocess_groups groups : forall queue,
  Forall group_wf groups -> Sorted key_lt groups.*1 ->
  (forall e rest, queue = e :: rest -> forall g gs, groups = g :: gs -> key_lt (user_key e) g.1) ->
  exists out, fold_option preprocess_step queue (entries_of groups)
      = Some (reverse (map (fun o => entry_of o.1 o.2) out) ++ queue) /\
    Forall2 merged groups out.
Proof.
  induction groups as [|[k ps] gs IH]; intros queue Hwf Hs Hq; [by exists []|].
  apply Forall_cons in Hwf as [[Hne Hps] Hwf]. rewrite entries_of_cons, fold_option_app. cbn [fst snd] in *.
  destruct ps as [|[s v] ps]; [done|]. apply Forall_cons in Hps as [[Hv Hvd] Hps]. cbn [snd] in Hv, Hvd.
  cbn [map fold_option]. rewrite preprocess_step_new; [|done|by intros e rest Eq; exact (Hq e rest Eq _ _ eq_refl)].
  cbn [mbind option_bind].
  destruct (preprocess_key k ps s v queue Hv Hvd Hps) as (s' & ->). cbn [mbind option_bind].
  set (w := foldl merge_version v (map snd ps)) in *.
  destruct (foldl_merge_wf (map snd ps) v Hv Hvd) as [Hw Hwd]; [by rewrite Forall_map|].
  apply Sorted_inv in Hs as [Hs Hhd].
  destruct (IH (entry_of k (s', w) :: queue) Hwf Hs) as (out & -> & Hout).
  { intros e rest [= <- <-] g gs' ->. assert (user_key (entry_of k (s', w)) = k) as -> by (by destruct w).
    by inversion Hhd. }
  exists ((k, (s', w)) :: out). split.
  { cbn [map]. rewrite reverse_cons, <- (app_assoc _ [_]). done. }
  constructor; [|done]. split; [done|]. split; [done|]. split; [done|].
  intros post Hset. cbn in *. apply fold_resolves; [|done].
  constructor; [done|]. apply Forall_map. eapply Forall_impl; [exact Hps|]. by intros p [_ ?].
Qed.

(** C10: a flush or compaction over values and well-formed blob indexes, keys in
    order and versions newest first, keeps one entry per key, and a reader of
    the result finds what it would have found in the versions the entry stands
    for, whatever older versions are below, provided that every write-back below
    the newest version had taken effect and no plain index was written above
    an inline value. *)
Theorem preprocess_resolves groups :
  Forall group_wf groups -> Sorted key_lt groups.*1 ->
  exists out, Preprocess (entries_of groups) = Some (map (fun o => entry_of o.1 o.2) out) /\
    Forall2 merged groups out.
Proof.
  intros Hwf Hs. destruct (preprocess_groups groups [] Hwf Hs) as (out & Hf & Hout); [done|].
  exists out. split; [|done]. unfold Preprocess. rewrite Hf. cbn [mbind option_bind].
  by rewrite app_nil_r, reverse_involutive.
Qed.
End Groups.

Definition example_index (n old : Z) : BlobIndex :=
  {| file_number := n; blob_handle := {| offset := 64; size := 40; index := 1 |};
     old_file_number := old; old_blob_handle := {| offset := 64; size := 40; index := 1 |} |}.

Definition example_groups : list (bytes * list (Z * Version)) :=
  [ ([97], [(9, Idx (example_index 5 4)); (8, Idx (example_index 4 0)); (3, Idx (example_index 2 0))]);
    ([98], [(7, Idx (example_index 5 4)); (6, Val [1; 2])]) ].

Lemma example_index_wf n old : is_u64 n -> is_u64 old -> BlobIndex_wf (example_index n old).
Proof. intros. split; [done|]. split; [by repeat split; cbn|]. split; [done|by repeat split; cbn]. Qed.

Lemma preprocess_resolves_witness :
  exists out, Preprocess (C := BytewiseComparator) (entries_of example_groups)
      = Some (map (fun o => entry_of o.1 o.2) out) /\ Forall2 merged example_groups out.
Proof.
  apply (preprocess_resolves (C := BytewiseComparator) example_groups).
  - repeat (constructor; cbn [fst snd]); try discriminate; apply example_index_wf; done.
  - repeat constructor; vm_compute; reflexivity.
Defined.

(** ** Reads *)

(** What Titan makes of the result of the LSM tree. *)
Definition seen (s : Saver) : option Visible :=
  match sv_status s with
  | OK =>
      if sv_is_blob_index s then
        match BlobIndex_DecodeFrom BlobIndex_default (sv_value s) with
        | Ret (i, _) => Some (Located (unlink i))
        | Fail _ => None
        end
      else Some (Found (sv_value s))
  | NotFound => Some Nothing
  | _ => None
  end.

(** What a version gives when the ones below it are not asked. *)
Definition plainly (v : Version) : Visible :=
  match v with Val v => Found v | Del => Nothing | Idx i => Located (unlink i) end.

Definition first_version (vs : list Version) : Visible :=
  match vs with [] => Nothing | v :: _ => plainly v end.

(** What a read makes of the versions in the memtable and of the older ones. *)
Definition read_versions (mvs older : list Version) : Visible :=
  match mvs with
  | [] => first_version older
  | Idx i :: (Val _ | Del) as v :: _ => if linked i then plainly v else plainly (Idx i)
  | v :: _ => plainly v
  end.

(** The version that is read took effect. *)
Definition effective (vs : list Version) : Prop :=
  match vs with Idx i :: _ => resolve vs = Located (unlink i) | _ => True end.

Definition effective_read (mvs older : list Version) : Prop :=
  match mvs with
  | Idx _ :: (Val _ | Del) :: _ => True
  | _ => effective (mvs ++ older)
  end.

Lemma first_version_resolve vs : first_version vs = resolve vs <-> effective vs.
Proof. destruct vs as [|[v| |i] vs]; [done..|]. cbn. by split. Qed.

(** The newest version is a write-back of a record that is not what the older
    versions stand for. *)
Definition superseded (vs : list Version) (i : BlobIndex) : Prop :=
  exists rest, vs = Idx i :: rest /\ linked i = true /\ resolve vs = resolve rest /\ resolve vs <> Located (unlink i).

#[local] Instance BlobHandle_eq_dec : EqDecision BlobHandle.
Proof. solve_decision. Defined.

#[local] Instance BlobIndex_eq_dec : EqDecision BlobIndex.
Proof. solve_decision. Defined.

Lemma not_effective vs : effective vs \/ exists i, superseded vs i /\ first_version vs = Located (unlink i).
Proof.
  destruct vs as [|[v| |i] vs]; [by left..|]. cbn [effective first_version plainly resolve].
  destruct (linked i) eqn:Hl; [|by left].
  assert (resolve (Idx i :: vs) = Located (unlink i) \/
    resolve (Idx i :: vs) = resolve vs /\ resolve (Idx i :: vs) <> Located (unlink i)) as H.
  { cbn. rewrite Hl. destruct (resolve vs) as [|v|j]; [by right|by right|]. destruct (follows i j); [by left|].
    destruct (decide (j = unlink i)) as [->|Hne]; [by left|]. right. split; [done|congruence]. }
  cbn in H. rewrite Hl in H. destruct H as [H|[H1 H2]]; [by left|]. right. exists i. split; [|done].
  exists vs. split; [done|]. split; [done|]. cbn. rewrite Hl. by split.
Qed.

Lemma not_effective_read mvs older :
  effective_read mvs older \/ exists i, superseded (mvs ++ older) i /\ read_versions mvs older = Located (unlink i).
Proof.
  destruct mvs as [|[v| |i] mvs]; [apply not_effective|by left..|].
  destruct mvs as [|[v| |j] mvs]; [apply (not_effective (Idx i :: older))|by left..|].
  exact (not_effective ((Idx i :: Idx j :: mvs) ++ older)).
Qed.

Lemma read_versions_resolve mvs older :
  read_versions mvs older = resolve (mvs ++ older) <-> effective_read mvs older.
Proof.
  destruct mvs as [|[v| |i] mvs]; [apply first_version_resolve|done..|].
  destruct mvs as [|[v| |j] mvs]; [apply (first_version_resolve (Idx i :: older))| | |].
  - cbn. by destruct (linked i).
  - cbn. by destruct (linked i).
  - exact (first_version_resolve ((Idx i :: Idx j :: mvs) ++ older)).
Qed.

Lemma seen_index i pend :
  BlobIndex_wf i -> seen (mkSaver OK (BlobIndex_EncodeTo i) true true pend) = Some (Located (unlink i)).
Proof.
  intros Hi. unfold seen. cbn [sv_status sv_is_blob_index sv_value]. destruct (linked i) eqn:Hl.
  - rewrite <- (app_nil_r (BlobIndex_EncodeTo i)). rewrite BlobIndex_roundtrip_linked; [done|done|].
    unfold linked in Hl. lia.
  - rewrite BlobIndex_roundtrip_unlinked; [done|done|].
    destruct Hi as (_ & _ & [? ?] & _). unfold linked in Hl. lia.
Qed.

Section Reads.
Context `{C : Comparator} `{!ComparatorLaws C}.

(** A table from the key on: the versions of the key, then other keys. *)
Definition holds (k : bytes) (vs : list Version) (entries : list Entry) : Prop :=
  exists ps rest, entries = map (entry_of k) ps ++ rest /\ map snd ps = vs /\ Forall version_wf vs /\
    forall e rest', rest = e :: rest' -> Compare (user_key e) k <> 0.

Lemma SaveValue_other k s e : Compare (user_key e) k <> 0 -> SaveValue k s e = Some (false, s).
Proof. intros He. unfold SaveValue. apply Z.eqb_neq in He. by rewrite He. Qed.

(** A read that never looks further than the newest version. *)
Lemma MemTable_Get_None k vs entries :
  holds k vs entries ->
  exists s, MemTable_Get None k entries = Some s /\
    found_final_value s = negb (bool_decide (vs = [])) /\
    (vs <> [] -> seen s = Some (first_version vs)).
Proof.
  intros (ps & rest & -> & <- & Hwf & Hrest). unfold MemTable_Get. destruct ps as [|[n v] ps].
  - exists (mkSaver OK [] false false None). split; [|by split; [|intros []]]. cbn [map app].
    destruct rest as [|e rest]; [done|]. cbn [GetFromTable]. by rewrite SaveValue_other by (by eapply Hrest).
  - cbn [map app GetFromTable snd] in *. apply Forall_cons in Hwf as [Hv _]. unfold SaveValue.
    assert (user_key (entry_of k (n, v)) = k) as -> by (by destruct v). rewrite Compare_refl.
    destruct v as [v| |i]; eexists; (split; [reflexivity|]); (split; [done|]); intros _; [done..|].
    by apply seen_index.
Qed.

Lemma Get_rest_first k vss : forall ts,
  Forall2 (holds k) vss ts ->
  exists s, Get_rest k ts = Some s /\ seen s = Some (first_version (concat vss)).
Proof.
  induction vss as [|vs vss IH]; intros ts Hts; [apply Forall2_nil_inv_l in Hts as ->; by eexists|].
  apply Forall2_cons_inv_l in Hts as (t & ts' & Ht & Hts & ->).
  destruct (MemTable_Get_None k vs t Ht) as (s & Hs & Hf & Hseen). cbn [Get_rest]. rewrite Hs. cbn [mbind option_bind].
  rewrite Hf. destruct vs as [|v vs]; [by apply IH|]. exists s. split; [done|]. by apply Hseen.
Qed.

Lemma SaveValue_check k n i s :
  BlobIndex_wf i -> pending_check_in_mem s = Some false ->
  SaveValue k s (entry_of k (n, Idx i))
    = Some (linked i, mkSaver OK (BlobIndex_EncodeTo i) true true (Some (linked i))).
Proof.
  intros Hi Hp. unfold SaveValue. cbn [user_key entry_of fst snd etype evalue]. rewrite Compare_refl, Hp.
  change (bool_decide (kTypeBlobIndex = kTypeBlobIndex)) with true. cbn [Z.eqb negb].
  unfold SaverCheckIsGCWriteBack. rewrite (get_new_encode i) by done. cbn [mbind option_bind].
  rewrite (bool_decide_ext (link_bytes i = []) (linked i = false)) by apply link_bytes_nil.
  by destruct (linked i).
Qed.

(** The read of the memtable, that looks at the version below a write-back. *)
Lemma MemTable_Get_check k vs entries :
  holds k vs entries ->
  exists s, MemTable_Get (Some false) k entries = Some s /\
    found_final_value s = negb (bool_decide (vs = [])) /\
    (vs <> [] -> forall older, seen s = Some (read_versions vs older)).
Proof.
  intros (ps & rest & -> & <- & Hwf & Hrest). unfold MemTable_Get.
  assert (forall s, GetFromTable k s rest = Some s) as Hstop.
  { intros s. destruct rest as [|e rest]; [done|]. cbn [GetFromTable]. by rewrite SaveValue_other by (by eapply Hrest). }
  destruct ps as [|[n v] ps]; [eexists; split; [apply Hstop|]; split; [done|]; intros []; done|].
  cbn [map app GetFromTable snd] in *. apply Forall_cons in Hwf as [Hv Hwf].
  destruct v as [v| |i].
  1,2: unfold SaveValue; cbn [user_key entry_of fst snd]; rewrite Compare_refl;
    eexists; (split; [reflexivity|]); by split.
  rewrite SaveValue_check by done. cbn [mbind option_bind]. destruct (linked i) eqn:Hl.
  2:{ eexists; split; [reflexivity|]. split; [done|]. intros _ older. rewrite seen_index by done.
      destruct (map snd ps) as [|[v| |j] vs]; cbn; by rewrite ?Hl. }
  destruct ps as [|[m w] ps].
  { cbn [map app]. rewrite Hstop. eexists; split; [reflexivity|]. split; [done|]. intros _ older. by rewrite seen_index. }
  cbn [map app GetFromTable snd] in *. apply Forall_cons in Hwf as [Hw _].
  unfold SaveValue. assert (user_key (entry_of k (m, w)) = k) as -> by (by destruct w). rewrite Compare_refl.
  destruct w as [w| |j]; eexists; (split; [reflexivity|]); (split; [done|]); intros _ older; cbn [read_versions]; rewrite ?Hl; [done..|].
  by apply (seen_index i).
Qed.

(** What a read through the memtable and the older tables sees. *)
Lemma GetImpl_reads k mvs mem vss older :
  holds k mvs mem -> Forall2 (holds k) vss older ->
  exists s, GetImpl mem older k = Some s /\ seen s = Some (read_versions mvs (concat vss)).
Proof.
  intros Hm Ho. destruct (MemTable_Get_check k mvs mem Hm) as (s & Hs & Hf & Hseen).
  unfold GetImpl. rewrite Hs. cbn [mbind option_bind]. rewrite Hf. destruct mvs as [|v mvs].
  - by apply Get_rest_first.
  - exists s. split; [done|]. by apply (Hseen ltac:(done) (concat vss)).
Qed.

(** C23: a read that finds a write-back in the memtable looks at one version
    below it and takes it only when it is an inline value or a deletion; it
    never compares locations, and never asks the older tables. So a read of a
    key gives what the versions stand for if and only if the version it takes is
    a user's, or a write-back that took effect. *)
Theorem GetImpl_exact k mvs mem vss older :
  holds k mvs mem -> Forall2 (holds k) vss older ->
  exists s vis, GetImpl mem older k = Some s /\ seen s = Some vis /\
    (vis = resolve (mvs ++ concat vss) <-> effective_read mvs (concat vss)).
Proof.
  intros Hm Ho. destruct (GetImpl_reads k mvs mem vss older Hm Ho) as (s & Hs & Hv).
  exists s. eexists. split; [done|]. split; [done|]. apply read_versions_resolve.
Qed.
End Reads.

Lemma GetImpl_exact_witness :
  exists s vis,
    GetImpl (C := BytewiseComparator) (entries_of [([97], [(9, Idx (example_index 5 4))])])
      [entries_of [([97], [(3, Idx (example_index 4 0))]); ([98], [(7, Val [1; 2])])]; entries_of [([98], [(2, Del)])]]
      [97] = Some s /\ seen s = Some vis /\
    (vis = resolve ([Idx (example_index 5 4)] ++ concat [[Idx (example_index 4 0)]; []]) <->
     effective_read [Idx (example_index 5 4)] (concat [[Idx (example_index 4 0)]; []])).
Proof.
  apply (GetImpl_exact (C := BytewiseComparator) [97]).
  - exists [(9, Idx (example_index 5 4))], []. repeat split; [|done]. constructor; [by apply example_index_wf|constructor].
  - constructor; [|constructor; [|constructor]].
    + exists [(3, Idx (example_index 4 0))], (entries_of [([98], [(7, Val [1; 2])])]). repeat split.
      { constructor; [by apply example_index_wf|constructor]. }
      intros e rest' [= <- _]. discriminate.
    + exists [], (entries_of [([98], [(2, Del)])]). repeat split; [constructor|]. intros e rest' [= <- _]. discriminate.
Defined.

(** ** The life of one key

    The versions of a key in the LSM tree and the records its indexes locate:
    what the user wrote last is what [resolve] finds, however relocations, late
    write-backs, flushes, compactions and deletions of relocated records
    interleave. *)
Abbreviation Location := (Z * Z)%type (only parsing).

Definition location (i : BlobIndex) : Z * Z := (file_number i, offset (blob_handle i)).
Definition old_location (i : BlobIndex) : Z * Z := (old_file_number i, offset (old_blob_handle i)).

Record KeyState : Type := mkKey {
  tree : list Version;
  store : gmap (Z * Z) bytes;      (** the records that can be read *)
  used : gset (Z * Z);             (** every location ever written *)
  moved : gset (Z * Z);            (** locations with a write-back *)
  logical : option bytes }.        (** what the user wrote last *)

(** What a reader ends up with. *)
Definition read_store (s : gmap (Z * Z) bytes) (v : Visible) : option (option bytes) :=
  match v with
  | Nothing => Some None
  | Found v => Some (Some v)
  | Located i => Some <$> s !! location i
  end.

Inductive key_step `{C : Comparator} (k : bytes) : KeyState -> KeyState -> Prop :=
  (** [Put] and [Delete] *)
  | step_put s v :
      key_step k s (mkKey (Val v :: tree s) (store s) (used s) (moved s) (Some v))
  | step_delete s :
      key_step k s (mkKey (Del :: tree s) (store s) (used s) (moved s) None)
  (** a flush or compaction moves a value into a blob file *)
  | step_write_out s pre v post i :
      tree s = pre ++ Val v :: post -> BlobIndex_wf i -> linked i = false -> location i ∉ used s ->
      key_step k s (mkKey (pre ++ Idx i :: post) (<[location i := v]> (store s))
                      ({[location i]} ∪ used s) (moved s) (logical s))
  (** a collection copies a record and writes the new index back, at any later time *)
  | step_relocate s i v :
      BlobIndex_wf i -> linked i = true -> store s !! old_location i = Some v -> location i ∉ used s ->
      key_step k s (mkKey (Idx i :: tree s) (<[location i := v]> (store s))
                      ({[location i]} ∪ used s) ({[old_location i]} ∪ moved s) (logical s))
  (** the file of a relocated record is deleted *)
  | step_drop s l :
      l ∈ moved s ->
      key_step k s (mkKey (tree s) (delete l (store s)) (used s) (moved s) (logical s))
  (** a flush or compaction replaces the versions it finds by the one that
      [Preprocess] computes *)
  | step_merge s pre ps post n w :
      tree s = pre ++ map snd ps ++ post -> settled (map snd ps) post -> version_wf w ->
      Preprocess (map (entry_of k) ps) = Some [entry_of k (n, w)] ->
      key_step k s (mkKey (pre ++ w :: post) (store s) (used s) (moved s) (logical s)).

Definition key_initial : KeyState := mkKey [] ∅ ∅ ∅ None.

Definition known (u : gset (Z * Z)) (v : Version) : Prop :=
  match v with
  | Idx i => location i ∈ u /\ (linked i = true -> old_location i ∈ u)
  | _ => True
  end.

Record key_inv (s : KeyState) : Prop := {
  ki_wf : Forall version_wf (tree s);
  ki_known : Forall (known (used s)) (tree s);
  ki_store : forall l, is_Some (store s !! l) -> l ∈ used s;
  ki_moved : moved s ⊆ used s;
  ki_current : forall i, resolve (tree s) = Located i -> location i ∉ moved s;
  ki_denotes : read_store (store s) (resolve (tree s)) = Some (logical s) }.

Lemma resolve_cong a x y : resolve x = resolve y -> resolve (a ++ x) = resolve (a ++ y).
Proof.
  intros E. induction a as [|[v| |i] a IH]; [done..|]. cbn. by rewrite IH.
Qed.

Lemma resolve_location vs i : resolve vs = Located i -> exists j, Idx j ∈ vs /\ i = unlink j.
Proof.
  revert i. induction vs as [|[v| |j] vs IH]; intros i; cbn; [done..|].
  destruct (linked j).
  - destruct (resolve vs) as [| |k]; [done..|]. destruct (follows j k); intros [= <-].
    + exists j. split; [apply list_elem_of_here|done].
    + destruct (IH k eq_refl) as (j' & Hj' & ->). exists j'. split; [by apply list_elem_of_further|done].
  - intros [= <-]. exists j. split; [apply list_elem_of_here|done].
Qed.

(** Writing a value out: nothing above refers to the new location. *)
Lemma resolve_write_out u pre v post i :
  Forall (known u) pre -> linked i = false -> location i ∉ u ->
  resolve (pre ++ Val v :: post) = resolve (pre ++ Idx i :: post) \/
  (resolve (pre ++ Val v :: post) = Found v /\ resolve (pre ++ Idx i :: post) = Located (unlink i)).
Proof.
  intros Hk Hl Hi. induction Hk as [|w pre Hw Hk IH]; [right; cbn; by rewrite Hl|].
  destruct w as [w| |j]; [by left|by left|]. cbn. destruct (linked j) eqn:Hj; [|by left].
  destruct IH as [->|[-> ->]]; [by left|]. assert (follows j (unlink i) = false) as ->; [|by right].
  destruct Hw as [_ Hold]. specialize (Hold Hj). unfold follows.
  destruct (_ =? _) eqn:E1; [|done]. destruct (offset _ =? _) eqn:E2; [|done].
  exfalso. apply Hi. apply Z.eqb_eq in E1, E2. cbn in E1, E2. unfold location. rewrite <- E1, <- E2. exact Hold.
Qed.

(** The bytes of an index determine what it means. *)
Lemma index_bytes_inj i j :
  BlobIndex_wf i -> BlobIndex_wf j -> BlobIndex_EncodeTo i = BlobIndex_EncodeTo j ->
  unlink i = unlink j /\ linked i = linked j /\ (linked i = true -> i = j).
Proof.
  intros Hi Hj E. pose proof (get_new_encode i Hi) as Gi. rewrite E, (get_new_encode j Hj) in Gi.
  injection Gi as E1 E2 E3 E4 E5.
  assert (linked i = linked j) as Hl.
  { destruct (linked i) eqn:Li, (linked j) eqn:Lj; [done| | |done].
    - apply link_bytes_nil in Lj. rewrite Lj in E5. symmetry in E5. apply link_bytes_nil in E5. congruence.
    - apply link_bytes_nil in Li. rewrite Li in E5. apply link_bytes_nil in E5. congruence. }
  destruct i as [f [o z x] g [p y w]], j as [f' [o' z' x'] g' [p' y' w']]. cbn in E1, E2, E3, E4. subst.
  split; [done|]. split; [done|]. intros Li.
  pose proof (get_four_link _ Hi Li) as Fi. rewrite Hl in Li. rewrite <- E5, (get_four_link _ Hj Li) in Fi.
  cbn in Fi. by injection Fi as -> -> -> ->.
Qed.

Lemma entry_of_meaning k p q :
  version_wf p.2 -> version_wf q.2 -> entry_of k p = entry_of k q ->
  (forall post, resolve (p.2 :: post) = resolve (q.2 :: post)) /\
  (forall u, known u p.2 -> known u q.2).
Proof.
  destruct p as [n [v| |i]], q as [m [w| |j]]; intros Hp Hq E; try discriminate E.
  - by injection E as _ <-.
  - done.
  - assert (BlobIndex_EncodeTo i = BlobIndex_EncodeTo j) as Ee by exact (f_equal evalue E).
    destruct (index_bytes_inj i j Hp Hq Ee) as (Eu & El & Eij). cbn [snd]. destruct (linked i) eqn:Li.
    + by rewrite (Eij eq_refl).
    + split; [intros post; cbn; by rewrite Li, <- El, Eu|]. intros u [Hu _]. cbn.
      rewrite <- El. split; [|done]. by replace (location j) with (location i) by exact (f_equal location Eu).
Qed.

Lemma merge_version_known u st cur : known u st -> known u cur -> known u (merge_version st cur).
Proof.
  intros Hs Hc. destruct st as [v| |i]; [done..|]. destruct cur as [v| |j]; [done..|]. cbn.
  destruct (linked i) eqn:Hl; [|exact Hs]. split; [|done]. destruct (follows i j); [apply Hs|apply Hc].
Qed.

Lemma foldl_merge_known u vs : forall st, known u st -> Forall (known u) vs -> known u (foldl merge_version st vs).
Proof.
  induction vs as [|c vs IH]; intros st Hs Hvs; [done|]. apply Forall_cons in Hvs as [Hc Hvs].
  apply IH; [by apply merge_version_known|done].
Qed.

Section Life.
Context `{C : Comparator} `{!ComparatorLaws C} (k : bytes).

Lemma preprocess_no_del (ps : list (Z * Version)) : forall queue out,
  fold_option preprocess_step queue (map (entry_of k) ps) = Some out -> Forall (fun p => p.2 <> Del) ps.
Proof.
  induction ps as [|[n v] ps IH]; intros queue out Hf; [constructor|]. cbn [map fold_option] in Hf.
  destruct (preprocess_step queue (entry_of k (n, v))) as [q|] eqn:Es; [|done].
  constructor; [|by eapply IH]. cbn. intros ->. done.
Qed.

Lemma merge_meaning ps n w u post :
  Forall version_wf (map snd ps) -> Forall (known u) (map snd ps) -> version_wf w ->
  Preprocess (map (entry_of k) ps) = Some [entry_of k (n, w)] ->
  known u w /\ (settled (map snd ps) post -> resolve (w :: post) = resolve (map snd ps ++ post)).
Proof.
  unfold Preprocess. intros Hwf Hk Hw. destruct (fold_option _ _ _) as [q|] eqn:Hf; [|done].
  cbn [mbind option_bind]. intros [= Hq].
  pose proof (preprocess_no_del _ _ _ Hf) as Hnd. destruct ps as [|[m v] ps]; [by injection Hf as <-|].
  cbn [map snd] in *. apply Forall_cons in Hwf as [Hv Hwf], Hk as [Hkv Hk], Hnd as [Hvd Hnd]. cbn [fold_option] in Hf.
  rewrite preprocess_step_new in Hf by done. cbn [mbind option_bind] in Hf.
  assert (Forall (fun p => version_wf p.2 /\ p.2 <> Del) ps) as Hps.
  { apply Forall_and. split; [exact (proj1 (Forall_map _ _ _) Hwf)|done]. }
  destruct (preprocess_key k ps m v [] Hv Hvd Hps) as (m' & Hf'). rewrite Hf' in Hf. injection Hf as <-.
  cbn in Hq. injection Hq as Hq.
  destruct (foldl_merge_wf (map snd ps) v Hv Hvd) as [Hwf' _]; [by rewrite Forall_map|].
  destruct (entry_of_meaning k (m', foldl merge_version v (map snd ps)) (n, w) Hwf' Hw Hq) as [Hres Hkn].
  split; [by apply Hkn, foldl_merge_known|]. intros Hset. cbn [snd] in Hres. rewrite <- Hres.
  apply fold_resolves; [|done]. constructor; [done|by apply Forall_map].
Qed.

Lemma known_mono u u' v : u ⊆ u' -> known u v -> known u' v.
Proof. intros Hu. destruct v as [v| |i]; [done..|]. intros [? ?]. split; [set_solver|]. intros Hl. set_solver. Qed.

Lemma known_all_mono u u' vs : u ⊆ u' -> Forall (known u) vs -> Forall (known u') vs.
Proof. intros Hu Hk. eapply Forall_impl; [exact Hk|]. intros v. by apply known_mono. Qed.

(** A record at a new location does not change what is read elsewhere. *)
Lemma read_store_insert s l v x r :
  s !! l = None -> read_store s x = Some r -> read_store (<[l := v]> s) x = Some r.
Proof.
  intros Hl. destruct x as [|w|i]; [done..|]. cbn. destruct (s !! location i) eqn:E; [|done]. intros Hr.
  rewrite lookup_insert_ne; [by rewrite E|]. congruence.
Qed.

Lemma fresh_unread s l : key_inv s -> l ∉ used s -> store s !! l = None.
Proof. intros Hi Hl. destruct (store s !! l) eqn:E; [|done]. destruct Hl. apply (ki_store s Hi). by rewrite E. Qed.

Lemma store_used_insert s (l : Z * Z) (v : bytes) :
  key_inv s -> forall l', is_Some (<[l := v]> (store s) !! l') -> l' ∈ {[l]} ∪ used s.
Proof.
  intros Hi l' [w Hw]. apply lookup_insert_Some in Hw as [[<- _]|[_ Hw]]; [set_solver|].
  apply elem_of_union_r. apply (ki_store s Hi). by rewrite Hw.
Qed.

Lemma current_used s i : key_inv s -> resolve (tree s) = Located i -> location i ∈ used s.
Proof.
  intros Hi Hr. destruct (resolve_location _ _ Hr) as (j & Hj & ->).
  pose proof (proj1 (Forall_forall _ _) (ki_known s Hi) _ Hj) as [Hu _]. exact Hu.
Qed.

Lemma write_out_inv s pre v post i :
  key_inv s -> tree s = pre ++ Val v :: post -> BlobIndex_wf i -> linked i = false -> location i ∉ used s ->
  key_inv (mkKey (pre ++ Idx i :: post) (<[location i := v]> (store s)) ({[location i]} ∪ used s) (moved s) (logical s)).
Proof.
  intros Hinv Ht Hwi Hl Hu. pose proof (fresh_unread _ _ Hinv Hu) as Hfr.
  pose proof (ki_wf s Hinv) as Hwf. pose proof (ki_known s Hinv) as Hk. rewrite Ht in Hwf, Hk.
  apply Forall_app in Hwf as [Hwf1 [_ Hwf2]%Forall_cons], Hk as [Hk1 [_ Hk2]%Forall_cons].
  pose proof (ki_denotes s Hinv) as Hd. pose proof (ki_current s Hinv) as Hc. rewrite Ht in Hd, Hc.
  split; cbn [tree store used moved logical].
  - apply Forall_app. split; [done|]. by constructor.
  - apply Forall_app. split; [by apply (known_all_mono (used s)); [set_solver|]|].
    constructor; [|by apply (known_all_mono (used s)); [set_solver|]]. split; [set_solver|by rewrite Hl].
  - by apply store_used_insert.
  - transitivity (used s); [apply (ki_moved s Hinv)|set_solver].
  - intros j Hj. destruct (resolve_write_out (used s) pre v post i Hk1 Hl Hu) as [E|[_ E]].
    + apply Hc. by rewrite E.
    + rewrite E in Hj. injection Hj as <-. intros Hm. apply Hu. by apply (ki_moved s Hinv).
  - destruct (resolve_write_out (used s) pre v post i Hk1 Hl Hu) as [<-|[E1 ->]].
    + by apply read_store_insert.
    + rewrite E1 in Hd. injection Hd as <-. cbn. change (location (unlink i)) with (location i). by rewrite lookup_insert_eq.
Qed.

Lemma follows_location i j : follows i j = true <-> old_location i = location j.
Proof.
  unfold follows, old_location, location. split.
  - intros [->%Z.eqb_eq ->%Z.eqb_eq]%andb_prop. done.
  - intros [= -> ->]. by rewrite !Z.eqb_refl.
Qed.

Lemma resolve_relocated i vs :
  linked i = true ->
  resolve (Idx i :: vs) = resolve vs /\ (forall j, resolve vs = Located j -> old_location i <> location j) \/
  exists j, resolve vs = Located j /\ old_location i = location j /\ resolve (Idx i :: vs) = Located (unlink i).
Proof.
  intros Hl. cbn. rewrite Hl. destruct (resolve vs) as [| |j]; [by left|by left|].
  destruct (follows i j) eqn:Ef; [right; exists j; by rewrite <- follows_location|left].
  split; [done|]. intros j' [= <-] E. apply follows_location in E. congruence.
Qed.

Lemma relocate_inv s i v :
  key_inv s -> BlobIndex_wf i -> linked i = true -> store s !! old_location i = Some v -> location i ∉ used s ->
  key_inv (mkKey (Idx i :: tree s) (<[location i := v]> (store s)) ({[location i]} ∪ used s)
             ({[old_location i]} ∪ moved s) (logical s)).
Proof.
  intros Hinv Hwi Hl Hv Hu. pose proof (fresh_unread _ _ Hinv Hu) as Hfr.
  assert (old_location i ∈ used s) as Hold by (apply (ki_store s Hinv); by rewrite Hv).
  pose proof (ki_moved s Hinv) as Hmv.
  split; cbn [tree store used moved logical].
  - constructor; [exact Hwi|apply (ki_wf s Hinv)].
  - constructor; [split; [by apply elem_of_union_l, elem_of_singleton|intros _; by apply elem_of_union_r]|].
    apply (known_all_mono (used s)); [apply union_subseteq_r|apply (ki_known s Hinv)].
  - by apply store_used_insert.
  - apply union_subseteq. split; [by apply singleton_subseteq_l, elem_of_union_r|].
    etrans; [exact Hmv|apply union_subseteq_r].
  - intros j Hj. destruct (resolve_relocated i (tree s) Hl) as [[E Hne]|(j' & _ & _ & E)]; rewrite E in Hj.
    + pose proof (ki_current s Hinv j Hj) as Hcur. specialize (Hne j Hj). rewrite not_elem_of_union, not_elem_of_singleton. by split.
    + injection Hj as <-. change (location (unlink i)) with (location i).
      apply not_elem_of_union. rewrite not_elem_of_singleton. split; [by intros El; rewrite El in Hu|].
      intros Hm. apply Hu. by apply Hmv.
  - pose proof (ki_denotes s Hinv) as Hd. destruct (resolve_relocated i (tree s) Hl) as [[-> _]|(j & Ej & El & ->)].
    + by apply read_store_insert.
    + rewrite Ej in Hd. cbn in Hd. rewrite <- El, Hv in Hd. injection Hd as <-. cbn.
      change (location (unlink i)) with (location i). by rewrite lookup_insert_eq.
Qed.

Lemma merge_inv s pre ps post n w :
  key_inv s -> tree s = pre ++ map snd ps ++ post -> settled (map snd ps) post -> version_wf w ->
  Preprocess (map (entry_of k) ps) = Some [entry_of k (n, w)] ->
  key_inv (mkKey (pre ++ w :: post) (store s) (used s) (moved s) (logical s)).
Proof.
  intros Hinv Ht Hset Hw Hp. pose proof (ki_wf s Hinv) as Hwf. pose proof (ki_known s Hinv) as Hk.
  rewrite Ht in Hwf, Hk. apply Forall_app in Hwf as [Hwf1 [Hwf2 Hwf3]%Forall_app], Hk as [Hk1 [Hk2 Hk3]%Forall_app].
  destruct (merge_meaning ps n w (used s) post Hwf2 Hk2 Hw Hp) as [Hkw Hres].
  assert (resolve (pre ++ w :: post) = resolve (tree s)) as E by (rewrite Ht; by apply resolve_cong, Hres).
  split; cbn [tree store used moved logical]; rewrite ?E; try apply Hinv.
  - apply Forall_app. split; [done|]. by constructor.
  - apply Forall_app. split; [done|]. by constructor.
Qed.

Lemma key_step_inv s s' : key_inv s -> key_step k s s' -> key_inv s'.
Proof.
  intros Hinv Hs. destruct Hs as [s v|s|s pre v post i Ht Hwi Hl Hu|s i v Hwi Hl Hv Hu|s l Hl|s pre ps post n w Ht Hset Hw Hp].
  - split; cbn; try apply Hinv; [constructor; [done|apply Hinv]..|done|done].
  - split; cbn; try apply Hinv; [constructor; [done|apply Hinv]..|done|done].
  - by apply write_out_inv.
  - by apply relocate_inv.
  - split; cbn; try apply Hinv.
    + intros l' [x Hx]. apply lookup_delete_Some in Hx as [_ Hx]. apply (ki_store s Hinv). by rewrite Hx.
    + pose proof (ki_denotes s Hinv) as Hd. pose proof (ki_current s Hinv) as Hc.
      destruct (resolve (tree s)) as [| |i]; [done..|]. cbn in *. rewrite lookup_delete_ne; [done|].
      intros ->. by apply (Hc i).
  - by apply merge_inv with ps n.
Qed.

(** Whatever the order, the key stands for what the user wrote last. *)
Lemma relocation_denotes s :
  rtc (key_step k) key_initial s -> read_store (store s) (resolve (tree s)) = Some (logical s).
Proof.
  intros Hs. assert (key_inv s) as Hinv; [|exact (ki_denotes s Hinv)].
  apply (rtc_ind_r (R := key_step k) key_inv key_initial); [|intros x y _ Hxy Hx; by apply (key_step_inv x)|exact Hs].
  split; cbn; try constructor; [|done..]. intros l [x Hx]. by rewrite lookup_empty in Hx.
Qed.

(** C7: puts, deletions, flushes into blob files, relocations that read a
    record at one time and write its new index back at any later one, deletions of
    relocated records, and flushes and compactions of settled versions (those that
    [preprocess_resolves] is about), which merge what they find as [Preprocess]
    does, come in any order. A read of the key, from a memtable with the newest of
    its versions and tables with the others, then gives what the user wrote last,
    and the record that it is in has not been deleted; unless the newest version
    of all is a write-back of a record that the user has replaced before. Then the
    read gives the record of the write-back when [effective_read] fails, that is,
    when no inline value or deletion is right below it in the memtable. *)
Theorem read_gives_last_write s mvs mem vss older :
  rtc (key_step k) key_initial s -> tree s = mvs ++ concat vss ->
  holds k mvs mem -> Forall2 (holds k) vss older ->
  exists g vis, GetImpl mem older k = Some g /\ seen g = Some vis /\
    (effective_read mvs (concat vss) -> read_store (store s) vis = Some (logical s)) /\
    (~ effective_read mvs (concat vss) -> exists i, superseded (tree s) i /\ vis = Located (unlink i)).
Proof.
  intros Hs Ht Hm Ho. destruct (GetImpl_reads k mvs mem vss older Hm Ho) as (g & Hg & Hv).
  exists g. eexists. split; [done|]. split; [done|]. rewrite Ht. split.
  - intros ->%read_versions_resolve. rewrite <- Ht. by apply relocation_denotes.
  - intros Hne. by destruct (not_effective_read mvs (concat vss)).
Qed.
End Life.

(** A value, written to a blob file, relocated, its first record deleted, and
    the write-back merged with what it replaces. *)
Definition example_key : KeyState :=
  mkKey [Idx (example_index 5 0)]
    (delete (4, 64) (<[(5, 64) := [1; 2]]> (<[(4, 64) := [1; 2]]> ∅)))
    ({[(5, 64)]} ∪ ({[(4, 64)]} ∪ ∅)) ({[(4, 64)]} ∪ ∅) (Some [1; 2]).

Lemma example_key_reached : rtc (key_step (C := BytewiseComparator) [97]) key_initial example_key.
Proof.
  eapply rtc_l; [apply (step_put _ _ [1; 2])|].
  eapply rtc_l; [apply (step_write_out _ _ [] [1; 2] [] (example_index 4 0));
    [reflexivity|by apply example_index_wf|reflexivity|cbn; set_solver]|].
  eapply rtc_l; [apply (step_relocate _ _ (example_index 5 4) [1; 2]);
    [by apply example_index_wf|reflexivity|reflexivity|vm_compute; intros H; discriminate H]|].
  eapply rtc_l; [apply (step_drop _ _ (4, 64)); cbn; set_solver|].
  apply rtc_once.
  match goal with |- key_step _ ?s _ => set (s0 := s) end.
  change example_key with (mkKey ([] ++ Idx (example_index 5 0) :: []) (store s0) (used s0) (moved s0) (logical s0)).
  apply (step_merge (C := BytewiseComparator) [97] s0 [] [(9, Idx (example_index 5 4)); (3, Idx (example_index 4 0))] [] 9
    (Idx (example_index 5 0))).
  - reflexivity.
  - repeat split; intros; [discriminate|constructor].
  - by apply example_index_wf.
  - vm_compute. reflexivity.
Qed.

(** The merged index, read from an older table. *)
Lemma read_gives_last_write_witness :
  exists g, GetImpl (C := BytewiseComparator) [] [entries_of [([97], [(9, Idx (example_index 5 0))])]] [97] = Some g /\
    exists vis, seen g = Some vis /\ read_store (store example_key) vis = Some (logical example_key).
Proof.
  destruct (read_gives_last_write (C := BytewiseComparator) [97] example_key [] [] [[Idx (example_index 5 0)]]
    [entries_of [([97], [(9, Idx (example_index 5 0))])]] example_key_reached) as (g & vis & Hg & Hv & Hr & _).
  - reflexivity.
  - exists [], []. repeat split; [constructor|discriminate].
  - constructor; [|constructor]. exists [(9, Idx (example_index 5 0))], []. repeat split; [|discriminate].
    constructor; [by apply example_index_wf|constructor].
  - exists g. split; [exact Hg|]. exists vis. split; [exact Hv|]. apply Hr. vm_compute. reflexivity.
Defined.

(** ** Where the conditions of these theorems fail *)

Definition visible_of (r : option Saver) : option Visible := s ← r; seen s.

(** The code does not check the conditions: merging a write-back with the
    write-back it replaces makes it a plain index, so a later compaction takes it
    over what the user wrote in between; a plain index gives way to an older
    inline value; a read takes a write-back in the memtable over the user's newer
    version in older tables; and a deletion among the input is a failed
    assertion. *)
Theorem write_back_gaps :
  let C := BytewiseComparator in
  let w2 := Idx (example_index 5 4) in let w1 := Idx (example_index 4 2) in
  let user := Idx (example_index 7 0) in let first := Idx (example_index 2 0) in
  (Preprocess (entries_of [([97], [(9, w2); (8, w1)])]) = Some [entry_of [97] (9, Idx (example_index 5 0))] /\
   resolve [w2; w1; user; first] = Located (unlink (example_index 7 0)) /\
   resolve [Idx (example_index 5 0); user; first] = Located (unlink (example_index 5 0))) /\
  (Preprocess (entries_of [([97], [(9, user); (3, Val [1])])]) = Some [entry_of [97] (3, Val [1])] /\
   resolve [user; Val [1]] = Located (unlink (example_index 7 0))) /\
  (visible_of (GetImpl (entries_of [([97], [(9, w1)])]) [entries_of [([97], [(8, user); (3, first)])]] [97])
     = Some (Located (unlink (example_index 4 0))) /\
   resolve [w1; user; first] = Located (unlink (example_index 7 0))) /\
  Preprocess (entries_of [([97], [(9, Del); (3, Val [1])])]) = None.
Proof. vm_compute. repeat split. Qed.
