(* ===== verification/InternalKey.v ===== *)
(** * InternalKey: keys of the LSM tree

    [db/dbformat.h]: an entry of an SST file has a key that packs the user key
    with a sequence number and the type of its value. *)
From S2P Require Import Prelude Coding.

Local Open Scope Z_scope.

(** [ValueType], an [unsigned char]. *)
Definition kTypeDeletion : Z := 0.
Definition kTypeValue : Z := 1.
Definition kTypeMerge : Z := 2.
Definition kTypeSingleDeletion : Z := 7.
Definition kTypeRangeDeletion : Z := 15.
Definition kTypeBlobIndex : Z := 17.
Definition kTypeDeletionWithTimestamp : Z := 20.
Definition kMaxValue : Z := 127.

Definition IsValueType (t : Z) : bool :=
  (t <=? kTypeMerge) || (t =? kTypeSingleDeletion) || (t =? kTypeBlobIndex) ||
  (kTypeDeletionWithTimestamp =? t).

Definition IsExtendedValueType (t : Z) : bool := IsValueType t || (t =? kTypeRangeDeletion).

Definition kMaxSequenceNumber : Z := Z.shiftl 1 56 - 1.

Definition kNumInternalBytes : Z := 8.

Record ParsedInternalKey : Type := mkParsed {
  user_key : bytes;
  sequence : Z;
  type : Z }.

(** [ikey.type = t]. *)
Definition set_type (k : ParsedInternalKey) (t : Z) : ParsedInternalKey := mkParsed (user_key k) (sequence k) t.

Definition PackSequenceAndType (seq t : Z) : option Z :=
  _ ← assert (seq <=? kMaxSequenceNumber);
  _ ← assert (IsExtendedValueType t);
  Some (Z.lor (u64 (Z.shiftl seq 8)) t).

(** [AppendInternalKey] to an empty string. *)
Definition AppendInternalKey (k : ParsedInternalKey) : option bytes :=
  packed ← PackSequenceAndType (sequence k) (type k);
  Some (user_key k ++ PutFixed64 packed).

(** The key it leaves next to a failure is not used. *)
Definition ParseInternalKey (internal_key : bytes) : option (res ParsedInternalKey) :=
  let n := zlen internal_key in
  if n <? kNumInternalBytes then Some (Fail Corruption) else
  let num := DecodeFixed64 (drop (Z.to_nat (n - kNumInternalBytes)) internal_key) in
  let c := Z.land num 255 in
  _ ← assert (c <=? kMaxValue);
  Some (if IsExtendedValueType c
        then Ret (mkParsed (take (Z.to_nat (n - kNumInternalBytes)) internal_key) (Z.shiftr num 8) c)
        else Fail Corruption).

(** ** Parsing and appending are inverse *)

Record key_wf (k : ParsedInternalKey) : Prop := {
  kw_user_key : is_bytes (user_key k);
  kw_sequence : 0 <= sequence k <= kMaxSequenceNumber;
  kw_type : 0 <= type k /\ IsExtendedValueType (type k) = true }.

Lemma IsExtendedValueType_bound t : IsExtendedValueType t = true -> t <= 20.
Proof.
  unfold IsExtendedValueType, IsValueType, kTypeMerge, kTypeSingleDeletion, kTypeBlobIndex, kTypeDeletionWithTimestamp,
    kTypeRangeDeletion. lia.
Qed.

Lemma pack_value q t : 0 <= q <= kMaxSequenceNumber -> 0 <= t < 256 -> Z.lor (u64 (Z.shiftl q 8)) t = q * 256 + t.
Proof.
  unfold kMaxSequenceNumber. change (Z.shiftl 1 56) with (2 ^ 56). intros Hq Ht.
  rewrite u64_small by (rewrite Z.shiftl_mul_pow2 by done; unfold is_u64; lia).
  rewrite Z.lor_comm, lor_shiftl_add by lia. lia.
Qed.

Lemma AppendInternalKey_wf k : key_wf k -> AppendInternalKey k = Some (user_key k ++ PutFixed64 (sequence k * 256 + type k)).
Proof.
  intros [_ Hs [Ht He]]. unfold AppendInternalKey, PackSequenceAndType. rewrite He, (proj2 (Z.leb_le _ _)) by lia.
  cbn. apply IsExtendedValueType_bound in He. by rewrite pack_value by lia.
Qed.

Lemma ParseInternalKey_Append k : key_wf k ->
  ParseInternalKey (user_key k ++ PutFixed64 (sequence k * 256 + type k)) = Some (Ret k).
Proof.
  intros [_ Hs [Ht He]]. unfold ParseInternalKey, kNumInternalBytes. rewrite zlen_app, zlen_PutFixed64.
  pose proof (zlen_nonneg (user_key k)). rewrite (proj2 (Z.ltb_ge _ _)) by lia.
  replace (zlen (user_key k) + 8 - 8) with (zlen (user_key k)) by lia.
  rewrite zlen_to_nat, drop_app_length, take_app_length.
  pose proof (IsExtendedValueType_bound _ He) as Hb. unfold kMaxSequenceNumber in Hs. change (Z.shiftl 1 56) with (2 ^ 56) in Hs.
  rewrite <- (app_nil_r (PutFixed64 _)), DecodeFixed64_Put by (unfold is_u64; lia).
  change 255 with (2 ^ 8 - 1). rewrite land_mask, Z.shiftr_div_pow2 by lia. change (2 ^ 8) with 256.
  replace ((sequence k * 256 + type k) mod 256) with (type k) by (apply Z.mod_unique with (sequence k); lia).
  replace ((sequence k * 256 + type k) / 256) with (sequence k) by (apply Z.div_unique with (type k); lia).
  unfold kMaxValue. rewrite (proj2 (Z.leb_le _ _)) by lia. cbn. rewrite He. by destruct k.
Qed.

Lemma le_bytes_value bs : is_bytes bs -> le_bytes (length bs) (le_value bs) = bs.
Proof.
  induction 1 as [|b bs Hb Hbs IH]; [done|]. cbn [length le_bytes le_value].
  assert (0 <= le_value bs) as Hv.
  { clear IH. induction Hbs as [|b' bs' Hb' _ IH]; [done|]. cbn. apply Z.lor_nonneg. split; [apply Hb'|by apply Z.shiftl_nonneg]. }
  unfold is_byte in Hb. rewrite lor_shiftl_add by lia. f_equal.
  - unfold u8. symmetry. apply Z.mod_unique with (le_value bs); lia.
  - replace (Z.shiftr _ 8) with (le_value bs); [done|]. rewrite Z.shiftr_div_pow2 by lia.
    apply Z.div_unique with b; lia.
Qed.

Lemma le_value_bound bs : is_bytes bs -> 0 <= le_value bs < 2 ^ (8 * zlen bs).
Proof.
  induction 1 as [|b bs Hb _ IH]; [done|]. cbn [le_value]. unfold is_byte in Hb. pose proof (zlen_nonneg bs).
  rewrite lor_shiftl_add, zlen_cons by lia.
  replace (8 * (1 + zlen bs)) with (8 + 8 * zlen bs) by lia. rewrite Z.pow_add_r by lia. lia.
Qed.

(** What has been parsed is appended as it was. *)
Lemma AppendInternalKey_Parse bs k : is_bytes bs -> ParseInternalKey bs = Some (Ret k) ->
  key_wf k /\ bs = user_key k ++ PutFixed64 (sequence k * 256 + type k).
Proof.
  intros Hbs. unfold ParseInternalKey, kNumInternalBytes. destruct (Z.ltb_spec (zlen bs) 8) as [|Hn]; [done|].
  set (m := Z.to_nat (zlen bs - 8)). set (num := DecodeFixed64 _). intros (_ & _ & Hr)%bind_Some.
  destruct (IsExtendedValueType _) eqn:He in Hr; [|done]. injection Hr as <-.
  assert (length (drop m bs) = 8%nat) as Hl by (rewrite length_drop; unfold m, zlen in *; lia).
  assert (is_bytes (drop m bs)) as Hd by by apply Forall_drop.
  assert (num = le_value (drop m bs)) as Hnum by (unfold num, DecodeFixed64; by rewrite take_ge by lia).
  pose proof (le_value_bound _ Hd) as Hb. unfold zlen in Hb. rewrite Hl, <- Hnum in Hb. change (2 ^ (8 * Z.of_nat 8)) with (2 ^ 64) in Hb.
  change 255 with (2 ^ 8 - 1) in *. rewrite land_mask, Z.shiftr_div_pow2 in * by lia. change (2 ^ 8) with 256 in *.
  pose proof (Z.div_mod num 256 ltac:(lia)) as Hdm. pose proof (Z.mod_pos_bound num 256 ltac:(lia)).
  split.
  - split; cbn; [by apply Forall_take| |by split; [lia|]].
    unfold kMaxSequenceNumber. change (Z.shiftl 1 56) with (2 ^ 56). split; [apply Z.div_pos; lia|].
    assert (num / 256 < 2 ^ 56) by (apply Z.div_lt_upper_bound; lia). lia.
  - cbn. rewrite (Z.mul_comm _ 256), <- Hdm, Hnum. unfold PutFixed64. rewrite <- Hl, le_bytes_value by done. by rewrite take_drop.
Qed.

Lemma set_type_wf k t : key_wf k -> 0 <= t -> IsExtendedValueType t = true -> key_wf (set_type k t).
Proof. intros [Hu Hs _] Ht He. by split. Qed.
