(* ===== verification/BlobStorageRead.v ===== *)
(** * BlobStorageRead: reading records through a blob storage

    [BlobStorage::Get] and [BlobStorage::NewPrefetcher] of [blob_storage.cc]: the
    storage looks the file up by the number in the index, and the file cache
    opens it with the size that the metadata say. *)
From S2P Require Import Prelude Coding Crc32c BitMap BlobFileMeta Options BlobStorage BlobFileBuilder BlobFileReader BlobFormat.

Local Open Scope Z_scope.
Local Open Scope aegon_scope.

(** ** Failures

    A failing call gives a status that is not OK. *)
Definition proper {A} (r : res A) : Prop := match r with Fail s => ok s = false | Ret _ => True end.

Definition proper_option {A} (e : option (res A)) : Prop := match e with Some r => proper r | None => True end.

Lemma proper_bind {A B} (e : res A) (k : A -> res B) : proper e -> (forall a, proper (k a)) -> proper (res_bind e k).
Proof. destruct e; cbn; auto. Qed.

Lemma proper_or_bind {A B} (e : option (res A)) (k : A -> option (res B)) :
  proper_option e -> (forall a, proper_option (k a)) -> proper_option (or_bind e k).
Proof. destruct e as [[]|]; cbn; auto. Qed.

Lemma proper_option_bind {A B} (e : option A) (k : A -> option (res B)) :
  (forall a, proper_option (k a)) -> proper_option (e ≫= k).
Proof. destruct e; cbn; auto. Qed.

Lemma proper_or_fail {A} s (o : option A) : ok s = false -> proper (or_fail s o).
Proof. by destruct o. Qed.

#[local] Ltac proper := repeat first
  [ exact I | reflexivity | assumption | apply proper_or_fail | apply proper_bind | apply proper_or_bind | apply proper_option_bind
  | case_match | progress intros | progress cbn [proper_option proper] ].

Lemma proper_DecodeInto {A} (DecodeFrom : bytes -> res (A * bytes)) src b :
  (forall x, proper (DecodeFrom x)) -> proper (DecodeInto DecodeFrom src b).
Proof. intros H. unfold DecodeInto. apply proper_bind; [apply H|]. proper. Qed.

Lemma proper_BlobRecord x : proper (BlobRecord_DecodeFrom x).
Proof. unfold BlobRecord_DecodeFrom. proper. Qed.

Lemma proper_BlobIndex i x : proper (BlobIndex_DecodeFrom i x).
Proof. unfold BlobIndex_DecodeFrom, BlobHandle_DecodeFrom. proper. Qed.

Section Read.
Context `{L : FileLibrary}.

Lemma proper_ReadRecord rd h :
  (forall off n, proper (Read (fr_file_ rd) off n)) -> proper_option (ReadRecord rd h).
Proof.
  intros Hr. unfold ReadRecord, DecodeHeader, DecodeRecord, Uncompress.
  apply proper_or_bind; [apply Hr|]. intros blob. case_match; [done|]. apply proper_or_bind; [proper|]. intros [d b].
  apply proper_or_bind; [|intros []; exact I]. apply proper_option_bind. intros _. case_match; [done|]. case_match.
  - cbn [proper_option]. apply proper_bind; [apply proper_DecodeInto, proper_BlobRecord|proper].
  - unfold assert. case_match; [|exact I]. cbn [mbind option_bind proper_option].
    apply proper_bind; [by apply proper_or_fail|]. intros buffer.
    apply proper_bind; [apply proper_DecodeInto, proper_BlobRecord|proper].
Qed.

Lemma proper_Open cache_id file size :
  (forall off n, proper (Read file off n)) -> proper_option (BlobFileReader_Open cache_id file size).
Proof.
  intros Hr. unfold BlobFileReader_Open. case_match; [done|].
  apply proper_or_bind; [apply proper_bind; [apply Hr|]; intros; apply proper_DecodeInto; unfold BlobFileHeader_DecodeFrom; proper|].
  intros header. apply proper_or_bind; [apply Hr|]. intros buffer. apply proper_or_bind.
  { unfold DecodeInto_footer, BlobFileFooter_DecodeFrom. destruct (BlockHandle_DecodeFrom buffer) as [[h src]|]; [|exact eq_refl].
    destruct (assert _) as [[]|]; [|exact I]. cbn [mbind option_bind proper_option]. apply proper_DecodeInto. intros _. proper. }
  intros footer. case_match; [|proper]. apply proper_or_bind; [|proper].
  unfold InitUncompressionDict. case_match; [done|]. apply proper_option_bind. intros _. cbn [proper_option].
  apply proper_bind; [apply Hr|]. intros blob. apply proper_bind.
  - unfold SeekToMetaBlock, BlockHandle_DecodeFrom. case_match; [proper|]. destruct (ok (seek_status _)) eqn:E; [exact I|exact E].
  - intros [found dict]. case_match; [done|]. apply proper_bind; [apply Hr|]. proper.
Qed.

Context (NewRandomAccessFile : Z -> res RandomAccessFileReader) (cache_id : option Z).

(** The file cache and the blob cache. *)
Definition Caches : Type := FileCache * option BlobCache.

Definition BlobStorage_Get (b : BlobStorage) (c : Caches) (i : BlobIndex)
    : option (res (BlobRecord * bytes) * Caches) :=
  sfile ← FindFile b (file_number i);
  match sfile with
  | None => Some (Fail Corruption, c)
  | Some sfile =>
      '(r, fc, blobs) ← BlobFileCache_Get NewRandomAccessFile c.1 cache_id c.2 (file_number_ sfile) (file_size_ sfile)
                          (blob_handle i);
      Some (r, (fc, blobs))
  end.

Definition BlobStorage_NewPrefetcher (b : BlobStorage) (c : Caches) (number : Z)
    : option (res (BlobFileReader * BlobFilePrefetcher) * Caches) :=
  sfile ← FindFile b number;
  match sfile with
  | None => Some (Fail Corruption, c)
  | Some sfile =>
      '(r, fc) ← BlobFileCache_NewPrefetcher NewRandomAccessFile c.1 cache_id (file_number_ sfile) (file_size_ sfile);
      Some (r, (fc, c.2))
  end.

(** ** What is read *)

(** The size of each file. *)
Context (sizes : Z -> Z).

(** A reader of this file. *)
Definition opens (n : Z) (rd : BlobFileReader) : Prop :=
  exists file, NewRandomAccessFile n = Ret file /\ BlobFileReader_Open cache_id file (sizes n) = Some (Ret rd).

(** The record at this index, without caches. *)
Definition reads_as (i : BlobIndex) (r : BlobRecord) : Prop :=
  exists rd buffer, opens (file_number i) rd /\ ReadRecord rd (blob_handle i) = Some (Ret (r, buffer)).

(** The files that can be opened can be read without a failing assertion. *)
Definition openable : Prop :=
  forall n file, NewRandomAccessFile n = Ret file -> exists r, BlobFileReader_Open cache_id file (sizes n) = Some r.

Definition readable (i : BlobIndex) : Prop :=
  forall rd, opens (file_number i) rd -> exists r, ReadRecord rd (blob_handle i) = Some r.

(** The cached readers are readers of their files. *)
Definition files_cached (fc : FileCache) : Prop :=
  forall n rd, is_u64 n -> (fc : gmap bytes BlobFileReader) !! EncodeFileNumber n = Some rd -> opens n rd.

Lemma EncodeFileNumber_inj n m : is_u64 n -> is_u64 m -> EncodeFileNumber n = EncodeFileNumber m -> n = m.
Proof.
  intros Hn Hm He. rewrite <- (DecodeFixed64_Put n []), <- (DecodeFixed64_Put m []) by done.
  unfold EncodeFileNumber in He. by rewrite He.
Qed.

Lemma opens_functional n rd rd' : opens n rd -> opens n rd' -> rd = rd'.
Proof. intros (f & Hf & Ho) (f' & Hf' & Ho'). rewrite Hf in Hf'. injection Hf' as <-. rewrite Ho in Ho'. by injection Ho'. Qed.

Lemma reads_as_functional i r r' : reads_as i r -> reads_as i r' -> r = r'.
Proof. intros (rd & b & Ho & Hr) (rd' & b' & Ho' & Hr'). pose proof (opens_functional _ _ _ Ho Ho') as ->.
  rewrite Hr in Hr'. by injection Hr' as ->. Qed.

Lemma BlobFileCache_FindFile_spec fc n :
  is_u64 n -> openable -> files_cached fc ->
  exists r fc', BlobFileCache_FindFile NewRandomAccessFile fc cache_id n (sizes n) = Some (r, fc') /\ files_cached fc' /\
    match r with Ret rd => opens n rd | Fail _ => forall rd, ~ opens n rd end.
Proof.
  intros Hn Hop Hfc. unfold BlobFileCache_FindFile.
  destruct (fc !! EncodeFileNumber n) as [rd|] eqn:E; [exists (Ret rd), fc; split_and!; [done..|by apply Hfc]|].
  destruct (NewRandomAccessFile n) as [file|s] eqn:Ef; cbn [or_bind].
  2:{ exists (Fail s), fc. split_and!; [done..|]. intros rd (f & Hf & _). by rewrite Ef in Hf. }
  destruct (Hop n file Ef) as ([rd|s] & Hr); rewrite Hr; cbn [mbind option_bind].
  2:{ exists (Fail s), fc. split_and!; [done..|]. intros rd (f & Hf & Ho). rewrite Ef in Hf. injection Hf as <-. by rewrite Hr in Ho. }
  assert (opens n rd) as Ho by by exists file. exists (Ret rd). eexists. split; [reflexivity|]. split; [|done].
  intros m rd' Hm Hl. apply (lookup_insert_Some (M := gmap bytes)) in Hl as [[He <-]|[_ Hl]]; [|by apply Hfc].
  by apply EncodeFileNumber_inj in He as <-.
Qed.

(** ** Reading through a storage *)

(** The storage finds its files, under their numbers and with their sizes. *)
Definition storage_sized (b : BlobStorage) : Prop :=
  forall n, FindFile b n = Some (files_ b !! n) /\
    forall m, files_ b !! n = Some m -> file_number_ m = n /\ file_size_ m = sizes n.

Lemma BlobStorage_NewPrefetcher_spec b c n :
  is_u64 n -> openable -> storage_sized b -> files_cached c.1 ->
  exists r fc', BlobStorage_NewPrefetcher b c n = Some (r, (fc', c.2)) /\ files_cached fc' /\
    match r with
    | Ret p => is_Some (files_ b !! n) /\ opens n p.1
    | Fail _ => files_ b !! n = None \/ forall rd, ~ opens n rd
    end.
Proof.
  intros Hn Hop Hb Hc. unfold BlobStorage_NewPrefetcher. destruct (Hb n) as [-> Hm]. cbn [mbind option_bind].
  destruct (files_ b !! n) as [m|]; [|exists (Fail Corruption), c.1; split_and!; [by destruct c|done|by left]].
  destruct (Hm m eq_refl) as [-> ->]. unfold BlobFileCache_NewPrefetcher.
  destruct (BlobFileCache_FindFile_spec c.1 n Hn Hop Hc) as (r & fc' & -> & Hfc & Hr). cbn [mbind option_bind].
  destruct r as [rd|e]; cbn [res_bind]; [eexists (Ret _)|exists (Fail e)]; exists fc'; (split; [reflexivity|]; split; [done|]).
  - split; [by eexists|exact Hr].
  - by right.
Qed.

(** Without a blob cache, a reader gives what is in the file. *)
Lemma BlobFileReader_Get_plain rd h :
  BlobFileReader_Get rd None h = r ← ReadRecord rd h; Some (r, None).
Proof.
  unfold BlobFileReader_Get. cbn [mbind option_bind]. destruct (ReadRecord rd h) as [r|]; [|done]. cbn [mbind option_bind].
  by destruct r as [[]|].
Qed.

Lemma opened_record i rd r :
  opens (file_number i) rd -> ReadRecord rd (blob_handle i) = Some r ->
  match r with Ret (rec, _) => reads_as i rec | Fail _ => forall rec, ~ reads_as i rec end.
Proof.
  intros Ho Hr. destruct r as [[rec buf]|e]; [by exists rd, buf|].
  intros rec (rd' & buf & Ho' & Hr'). pose proof (opens_functional _ _ _ Ho Ho') as ->. by rewrite Hr in Hr'.
Qed.

Lemma BlobFilePrefetcher_Get_spec p rd i :
  opens (file_number i) rd -> readable i ->
  exists r p', BlobFilePrefetcher_Get p rd None (blob_handle i) = (p', Some (r, None)) /\
    match r with Ret (rec, _) => reads_as i rec | Fail _ => forall rec, ~ reads_as i rec end.
Proof.
  intros Ho Hi. destruct (Hi _ Ho) as [r Hr]. unfold BlobFilePrefetcher_Get. destruct (prefetch p _) as [p' x].
  rewrite BlobFileReader_Get_plain, Hr. exists r, p'. split; [done|]. by eapply opened_record.
Qed.

Lemma BlobStorage_Get_spec b fc i :
  is_u64 (file_number i) -> openable -> readable i -> storage_sized b -> files_cached fc ->
  exists r fc', BlobStorage_Get b (fc, None) i = Some (r, (fc', None)) /\ files_cached fc' /\
    match r with
    | Ret (rec, _) => is_Some (files_ b !! file_number i) /\ reads_as i rec
    | Fail _ => files_ b !! file_number i = None \/ forall rec, ~ reads_as i rec
    end.
Proof.
  intros Hn Hop Hi Hb Hc. unfold BlobStorage_Get. destruct (Hb (file_number i)) as [-> Hm]. cbn [mbind option_bind fst snd].
  destruct (files_ b !! file_number i) as [m|]; [|exists (Fail Corruption), fc; split_and!; [done|done|by left]].
  destruct (Hm m eq_refl) as [-> ->]. unfold BlobFileCache_Get.
  destruct (BlobFileCache_FindFile_spec fc (file_number i) Hn Hop Hc) as (r & fc' & -> & Hfc & Hr). cbn [mbind option_bind].
  destruct r as [rd|e].
  - destruct (Hi _ Hr) as [r Hread]. rewrite BlobFileReader_Get_plain, Hread. cbn [mbind option_bind].
    exists r, fc'. split; [done|]. split; [done|]. pose proof (opened_record _ _ _ Hr Hread) as H.
    destruct r as [[rec buf]|e]; [split; [by eexists|exact H]|by right].
  - exists (Fail e), fc'. split; [done|]. split; [done|]. right. intros rec (rd & buf & Ho & _). by eapply Hr.
Qed.

(** ** Failing reads *)

(** The file system does not fail with OK. *)
Definition files_proper : Prop :=
  forall n, proper (NewRandomAccessFile n) /\
    forall file off k, NewRandomAccessFile n = Ret file -> proper (Read file off k).

Lemma opens_file n rd : opens n rd -> NewRandomAccessFile n = Ret (fr_file_ rd).
Proof.
  intros (file & Hf & Ho). rewrite Hf. f_equal. unfold BlobFileReader_Open in Ho. case_match; [done|].
  destruct (ReadHeader file) as [header|]; [|done]. cbn [or_bind] in Ho. destruct (Read file _ _) as [buffer|]; [|done].
  cbn [or_bind] in Ho. destruct (DecodeInto_footer buffer) as [[footer|]|]; [|done..]. cbn [or_bind] in Ho. case_match.
  - destruct (InitUncompressionDict _ _) as [[dict|]|]; [|done..]. by injection Ho as <-.
  - by injection Ho as <-.
Qed.

Lemma BlobStorage_NewPrefetcher_proper b c n r c' :
  files_proper -> BlobStorage_NewPrefetcher b c n = Some (r, c') -> proper r.
Proof.
  intros Hp H. unfold BlobStorage_NewPrefetcher in H. apply bind_Some in H as ([m|] & _ & H); [|by injection H as <- _].
  apply bind_Some in H as ([r1 fc] & Hn & H). injection H as <- _. unfold BlobFileCache_NewPrefetcher in Hn.
  apply bind_Some in Hn as ([s1 fc1] & Hf & Hn). injection Hn as <- _. apply proper_bind; [|done].
  unfold BlobFileCache_FindFile in Hf. case_match; [by injection Hf as <- _|].
  apply bind_Some in Hf as (r2 & Ho & Hf). injection Hf as <- _. destruct (Hp (file_number_ m)) as [H1 H2].
  destruct (NewRandomAccessFile (file_number_ m)) as [file|e]; cbn [or_bind] in Ho; [|by injection Ho as <-].
  pose proof (proper_Open cache_id file (file_size_ m) (fun off k => H2 file off k eq_refl)) as Hop. by rewrite Ho in Hop.
Qed.

Lemma BlobFilePrefetcher_Get_proper p rd n h p' r x :
  files_proper -> opens n rd -> BlobFilePrefetcher_Get p rd None h = (p', Some (r, x)) -> proper r.
Proof.
  intros Hp Ho H. unfold BlobFilePrefetcher_Get in H. destruct (prefetch p h). rewrite BlobFileReader_Get_plain in H.
  injection H as _ H. apply bind_Some in H as (r1 & Hr & H). injection H as <- _.
  destruct (Hp n) as [_ Hf]. pose proof (proper_ReadRecord rd h (fun off k => Hf _ off k (opens_file n rd Ho))) as Hpr.
  by rewrite Hr in Hpr.
Qed.
End Read.
