(* ===== verification/GCJob.v ===== *)
(** * GCJob: running a garbage collection

    [blob_gc_job.h], [blob_gc_job.cc] and the file manager of [db_impl.cc]: a
    job reads the records of its input files, drops those the LSM tree no longer
    refers to, writes the others to a new blob file, adds that file to the
    manifest, writes the new indexes to the LSM tree unless a key has changed,
    and deletes its inputs.

    The job shares the LSM tree and the blob file set with the writers, flushes
    and compactions of the database: whenever it takes the mutex or goes to the
    LSM tree, whatever the others have done in the meantime happens first. The
    LSM tree here is the newest version of each key, which [DBImpl::GetImpl]
    finds; how the linked indexes of hardware collections are resolved is in
    [WriteBack.v]. [None] is a failed assertion, a null pointer or a mutex that
    its holder locks again. Clocks, tickers, log messages and the sizes of write
    batches are not modelled. *)
From S2P Require Import Prelude Coding Crc32c InternalKey BlobFormat BitMap BlobFileMeta TitanStats Options VersionEdit BlobStorage BlobFileSet GCPicker BlobFileBuilder BlobFileReader BlobFileIterator.

Local Open Scope Z_scope.
Local Open Scope aegon_scope.

(** ** The database around a job *)

(** The newest version of a key: an inline value or an encoded blob index. *)
Record LsmValue : Type := mkLsm {
  is_blob_index : bool;
  lsm_value : bytes }.

Abbreviation LSM := (gmap bytes LsmValue) (only parsing).

(** What the other threads and the file system do; the argument is the time of
    the call, or the number of the file. *)
Record Surroundings : Type := mkAround {
  others_lsm : nat -> LSM -> LSM;
  others_files : nat -> BlobFileSet * Disk -> BlobFileSet * Disk;
  read_error : nat -> Status;
  write_error : nat -> Status;
  shuting_down_ : nat -> bool;
  IsDropped : nat -> bool;
  NewBlobFileReader : Z -> res RandomAccessFileReader;
  NewWritableFile : Z -> res WritableFileWriter;
  Sync : Z -> Status;
  Close : Z -> Status;
  Fsync : Status;
  DeleteFile : Z -> Status;
  log_io : nat -> IO;
  FlushWAL : Status;
  GetLatestSequenceNumber : Z }.

(** [blob_file_set_], the LSM tree, and the members of [TitanDBImpl] that a job
    changes. *)
Record World : Type := mkWorld {
  lsm : LSM;
  blob_file_set_ : BlobFileSet;
  disk : Disk;
  pending_outputs_ : gset Z;
  bg_error_ : Status;
  mutex_held : bool;
  clock : nat }.

Definition set_lsm (w : World) (t : LSM) : World :=
  mkWorld t (blob_file_set_ w) (disk w) (pending_outputs_ w) (bg_error_ w) (mutex_held w) (S (clock w)).

Definition set_files_of (w : World) (s : BlobFileSet) (d : Disk) : World :=
  mkWorld (lsm w) s d (pending_outputs_ w) (bg_error_ w) (mutex_held w) (clock w).

Definition set_pending (w : World) (p : gset Z) : World :=
  mkWorld (lsm w) (blob_file_set_ w) (disk w) p (bg_error_ w) (mutex_held w) (clock w).

(** [SetBGError], without listeners. *)
Definition SetBGError (w : World) (s : Status) : World :=
  if ok s then w else
  mkWorld (lsm w) (blob_file_set_ w) (disk w) (pending_outputs_ w)
    s (mutex_held w) (clock w).

Section Around.
Context (env : Surroundings).

(** What happens while the mutex is not held. *)
Definition others (w : World) : World :=
  let '(s, d) := others_files env (clock w) (blob_file_set_ w, disk w) in
  mkWorld (others_lsm env (clock w) (lsm w)) s d (pending_outputs_ w) (bg_error_ w) (mutex_held w) (S (clock w)).

Definition Lock (w : World) : option World :=
  if mutex_held w then None else
  let w := others w in
  Some (mkWorld (lsm w) (blob_file_set_ w) (disk w) (pending_outputs_ w) (bg_error_ w) true (clock w)).

Definition Unlock (w : World) : World :=
  mkWorld (lsm w) (blob_file_set_ w) (disk w) (pending_outputs_ w) (bg_error_ w) false (clock w).

(** [DBImpl::GetImpl] at a moment: the status, [is_blob_index] and the value. *)
Definition get_at (t : LSM) (error : Status) (k : bytes) : Status * bool * bytes :=
  if negb (ok error) then (error, false, []) else
  match t !! k with
  | Some v => (OK, is_blob_index v, lsm_value v)
  | None => (NotFound, false, [])
  end.

Definition DB_GetImpl (w : World) (k : bytes) : (Status * bool * bytes) * World :=
  let t := others_lsm env (clock w) (lsm w) in
  (get_at t (read_error env (clock w)) k, set_lsm w t).

(** ** Write batches and their callbacks *)

(** [GarbageCollectionWriteCallback] with the batch it guards. *)
Record RewriteBatch : Type := mkBatch {
  rb_key : bytes;
  rb_put : LsmValue;
  blob_index_ : BlobIndex;
  new_blob_index_ : BlobIndex }.

(** [Callback], and the size of the entry it has read. *)
Definition Callback (t : LSM) (error : Status) (b : RewriteBatch) : Status * Z :=
  let '(s, is_blob, index_entry) := get_at t error (rb_key b) in
  if negb (ok s) && negb (bool_decide (s = NotFound)) then (s, 0) else
  let read_bytes := u64 (zlen (rb_key b) + zlen index_entry) in
  let s := if bool_decide (s = NotFound) then Busy
           else if negb is_blob then Busy else s in
  if ok s then
    match BlobIndex_DecodeFrom BlobIndex_default index_entry with
    | Fail e => (e, read_bytes)
    | Ret (other_blob_index, _) =>
        (if negb (BlobIndex_eqb (blob_index_ b) other_blob_index) then Busy else OK, read_bytes)
    end
  else (s, read_bytes).

(** [WriteWithCallback]: the callback is asked and the batch written with no
    other write in between. *)
Definition WriteWithCallback (w : World) (b : RewriteBatch) : Status * Z * World :=
  let t := others_lsm env (clock w) (lsm w) in
  let '(s, read_bytes) := Callback t (read_error env (clock w)) b in
  if negb (ok s) then (s, read_bytes, set_lsm w t) else
  if negb (ok (write_error env (clock w))) then (write_error env (clock w), read_bytes, set_lsm w t) else
  (OK, read_bytes, set_lsm w (<[rb_key b := rb_put b]> t)).

(** [DBImpl::Write]; the callback is not asked and has read nothing. *)
Definition DB_Write (w : World) (b : RewriteBatch) : Status * Z * World :=
  let t := others_lsm env (clock w) (lsm w) in
  if negb (ok (write_error env (clock w))) then (write_error env (clock w), 0, set_lsm w t) else
  (OK, 0, set_lsm w (<[rb_key b := rb_put b]> t)).

(** ** The file manager *)

(** [FileManager::NewFile]: the file and its number. *)
Definition NewFile (w : World) : option (Status * option (Z * WritableFileWriter) * World) :=
  let w := others w in
  let '(number, s) := NewFileNumber (blob_file_set_ w) in
  let w := set_files_of w s (disk w) in
  match NewWritableFile env number with
  | Fail e => Some (e, None, w)
  | Ret file =>
      w ← Lock w;
      let w := Unlock (set_pending w ({[number]} ∪ pending_outputs_ w)) in
      Some (OK, Some (number, file), w)
  end.

(** The loop that closes the files and adds them to the edit. *)
Fixpoint finish_files (files : list BlobFileMeta) (edit : VersionEdit) : Status * VersionEdit :=
  match files with
  | [] => (OK, edit)
  | file :: files =>
      let s := Sync env (file_number_ file) in
      let s := if ok s then Close env (file_number_ file) else s in
      if negb (ok s) then (s, edit) else finish_files files (VersionEdit.AddBlobFile edit file)
  end.

Definition erase_pending (w : World) (numbers : list Z) : World :=
  set_pending w (pending_outputs_ w ∖ list_to_set numbers).

Section Job.
Context `{C : Comparator} `{L : FileLibrary} `{H : HeapTop}.

(** [BatchFinishFiles]. *)
Definition BatchFinishFiles (w : World) (cf_id : Z) (files : list BlobFileMeta)
    : option (Status * World) :=
  let '(s, edit) := finish_files files (SetColumnFamilyID VersionEdit_default cf_id) in
  if negb (ok s) then Some (s, w) else
  if negb (ok (Fsync env)) then Some (Fsync env, w) else
  w ← Lock w;
  '(s, set, d) ← LogAndApply (log_io env (clock w)) (blob_file_set_ w) (disk w) edit;
  let w := SetBGError (set_files_of w set d) s in
  Some (s, Unlock (erase_pending w (map file_number_ files))).

(** [BatchDeleteFiles]: the status of the last deletion. *)
Definition BatchDeleteFiles (w : World) (numbers : list Z) : option (Status * World) :=
  let s := foldl (fun _ n => DeleteFile env n) OK numbers in
  w ← Lock w;
  Some (s, Unlock (erase_pending w numbers)).

(** ** The job *)

Record Metrics : Type := mkMetrics {
  gc_bytes_read : Z;
  gc_num_read_lsm : Z;
  gc_num_keys_overwritten : Z;
  gc_bytes_overwritten : Z;
  gc_num_keys_relocated : Z;
  gc_bytes_relocated : Z;
  gc_num_keys_fallback : Z;
  gc_bytes_fallback : Z;
  gc_num_new_files : Z;
  gc_num_files : Z;
  gc_num_write_back : Z }.

Definition Metrics_zero : Metrics := mkMetrics 0 0 0 0 0 0 0 0 0 0 0.

Definition count_read (m : Metrics) (bytes lsm_reads : Z) : Metrics :=
  mkMetrics (u64 (gc_bytes_read m + bytes)) (u64 (gc_num_read_lsm m + lsm_reads)) (gc_num_keys_overwritten m)
    (gc_bytes_overwritten m) (gc_num_keys_relocated m) (gc_bytes_relocated m) (gc_num_keys_fallback m)
    (gc_bytes_fallback m) (gc_num_new_files m) (gc_num_files m) (gc_num_write_back m).

Definition count_overwritten (m : Metrics) (size : Z) : Metrics :=
  mkMetrics (gc_bytes_read m) (gc_num_read_lsm m) (u64 (gc_num_keys_overwritten m + 1))
    (u64 (gc_bytes_overwritten m + size)) (gc_num_keys_relocated m) (gc_bytes_relocated m) (gc_num_keys_fallback m)
    (gc_bytes_fallback m) (gc_num_new_files m) (gc_num_files m) (gc_num_write_back m).

Definition count_relocated (m : Metrics) (size : Z) : Metrics :=
  mkMetrics (gc_bytes_read m) (gc_num_read_lsm m) (gc_num_keys_overwritten m)
    (gc_bytes_overwritten m) (u64 (gc_num_keys_relocated m + 1)) (u64 (gc_bytes_relocated m + size)) (gc_num_keys_fallback m)
    (gc_bytes_fallback m) (gc_num_new_files m) (gc_num_files m) (gc_num_write_back m).

Definition count_fallback (m : Metrics) (size : Z) : Metrics :=
  mkMetrics (gc_bytes_read m) (gc_num_read_lsm m) (gc_num_keys_overwritten m)
    (gc_bytes_overwritten m) (gc_num_keys_relocated m) (gc_bytes_relocated m) (u64 (gc_num_keys_fallback m + 1))
    (u64 (gc_bytes_fallback m + size)) (gc_num_new_files m) (gc_num_files m) (gc_num_write_back m).

Definition count_files (m : Metrics) (new old write_back : Z) : Metrics :=
  mkMetrics (gc_bytes_read m) (gc_num_read_lsm m) (gc_num_keys_overwritten m)
    (gc_bytes_overwritten m) (gc_num_keys_relocated m) (gc_bytes_relocated m) (gc_num_keys_fallback m)
    (gc_bytes_fallback m) (u64 (gc_num_new_files m + new)) (u64 (gc_num_files m + old))
    (u64 (gc_num_write_back m + write_back)).

(** [inputs] are the metadata objects of the inputs when they were picked: their
    numbers and sizes do not change. *)
Record BlobGCJob : Type := mkJob {
  blob_gc_ : BlobGC;
  inputs : list BlobFileMeta;
  cf_id : Z;
  blob_file_builders_ : list (Z * BlobFileBuilder);
  rewrite_batches_ : list RewriteBatch;
  metrics_ : Metrics;
  gc_offload_ : bool;
  hardware_blob_file_ : option BlobFileMeta }.

Definition BlobGCJob_new (gc : BlobGC) (files : list BlobFileMeta) (cf : Z) (hardware : bool) : BlobGCJob :=
  mkJob gc files cf [] [] Metrics_zero hardware None.

Definition use_bitmap_ (j : BlobGCJob) : bool := use_bitmap (titan_cf_options_ (blob_gc_ j)).

Definition set_batches (j : BlobGCJob) (l : list RewriteBatch) : BlobGCJob :=
  mkJob (blob_gc_ j) (inputs j) (cf_id j) (blob_file_builders_ j) l (metrics_ j) (gc_offload_ j) (hardware_blob_file_ j).

Definition set_builders (j : BlobGCJob) (l : list (Z * BlobFileBuilder)) : BlobGCJob :=
  mkJob (blob_gc_ j) (inputs j) (cf_id j) l (rewrite_batches_ j) (metrics_ j) (gc_offload_ j) (hardware_blob_file_ j).

Definition set_metrics (j : BlobGCJob) (m : Metrics) : BlobGCJob :=
  mkJob (blob_gc_ j) (inputs j) (cf_id j) (blob_file_builders_ j) (rewrite_batches_ j) m (gc_offload_ j) (hardware_blob_file_ j).

Definition add_outputs (j : BlobGCJob) (l : list Z) : BlobGCJob :=
  mkJob (foldl AddOutputFile (blob_gc_ j) l) (inputs j) (cf_id j) (blob_file_builders_ j) (rewrite_batches_ j)
    (metrics_ j) (gc_offload_ j) (hardware_blob_file_ j).

(** ** [BuildIterator] *)

Fixpoint open_inputs (garbage : Z) (opts : TitanCFOptions) (files : list BlobFileMeta)
    : Status * list BlobFileIterator :=
  match files with
  | [] => (OK, [])
  | f :: files =>
      match NewBlobFileReader env (file_number_ f) with
      | Fail s => (s, [])
      | Ret file =>
          let '(s, l) := open_inputs garbage opts files in
          (s, BlobFileIterator_new garbage file (file_number_ f) (file_size_ f) opts UINT64_MAX :: l)
      end
  end.

(** The loop that gives each iterator a copy of its bitmap; whether it returned
    from the function. *)
Fixpoint set_bitmaps (bs : BlobStorage) (s : Status) (items : list BlobFileIterator)
    : option (bool * Status * list BlobFileIterator) :=
  match items with
  | [] => Some (false, s, [])
  | item :: items =>
      file ← FindFile bs (it_file_number_ item);
      match file with
      | None => Some (true, NotFound, [])
      | Some file =>
          if is_obsolete file then Some (true, NotFound, []) else
          '(s, bitMap) ← CopyInvalidEntryIndexesTo file BitMap_default;
          _ ← assert (ok s);
          '(returned, s, items) ← set_bitmaps bs s items;
          Some (returned, s, SetBitMap item bitMap :: items)
      end
  end.

Definition BuildIterator (garbage : Z) (w : World) (j : BlobGCJob)
    : option (Status * option BlobFileMergeIterator * World) :=
  _ ← assert (negb (bool_decide (inputs j = [])));
  let '(s, list) := open_inputs garbage (titan_cf_options_ (blob_gc_ j)) (inputs j) in
  if use_bitmap_ j then
    w ← Lock w;
    match GetBlobStorage (blob_file_set_ w) (cf_id j) with
    | None => Some (NotFound, None, w)
    | Some bs =>
        '(returned, s, list) ← set_bitmaps bs s list;
        if returned : bool then Some (s, None, w) else
        Some (s, if ok s then Some (BlobFileMergeIterator_new list) else None, Unlock w)
    end
  else Some (s, if ok s then Some (BlobFileMergeIterator_new list) else None, w).

(** ** [DoRunGC] *)

(** The status, [discardable], the time and the metrics. *)
Definition DiscardEntry (w : World) (m : Metrics) (key : bytes) (blob_index : BlobIndex)
    : Status * bool * World * Metrics :=
  let '(s, is_blob, index_entry, w) := DB_GetImpl w key in
  if negb (ok s) && negb (bool_decide (s = NotFound)) then (s, false, w, m) else
  let m := count_read m (u64 (zlen key + zlen index_entry)) 1 in
  if bool_decide (s = NotFound) || negb is_blob then (OK, true, w, m) else
  match BlobIndex_DecodeFrom BlobIndex_default index_entry with
  | Fail s => (s, false, w, m)
  | Ret (other_blob_index, _) => (OK, negb (BlobIndex_eqb blob_index other_blob_index), w, m)
  end.

(** [InternalKey ikey(key, 1, kTypeValue)], encoded. *)
Definition InternalKey_Encode (key : bytes) : bytes := key ++ PutFixed64 (Z.lor (Z.shiftl 1 8) kTypeValue).

(** The callback's constructor asserts that there is a key. *)
Definition add_batch (key : bytes) (put : LsmValue) (blob_index new_blob_index : BlobIndex)
    (batches : list RewriteBatch) : option (list RewriteBatch) :=
  _ ← assert (negb (bool_decide (key = [])));
  Some (batches ++ [mkBatch key put blob_index new_blob_index]).

Fixpoint BatchWriteNewIndices (contexts : OutContexts) (s : Status) (batches : list RewriteBatch)
    : option (Status * list RewriteBatch) :=
  match contexts with
  | [] => Some (s, batches)
  | ctx :: contexts =>
      let blob_index := {| BlobFormat.file_number := BlobFormat.file_number (new_blob_index ctx);
                           blob_handle := blob_handle (new_blob_index ctx);
                           old_file_number := 0; old_blob_handle := BlobHandle_default |} in
      r ← ParseInternalKey (ctx_key ctx);
      match r with
      | Fail s => Some (s, batches)
      | Ret ikey =>
          batches ← add_batch (user_key ikey) (mkLsm true (BlobIndex_EncodeTo blob_index))
                      (original_blob_index ctx) blob_index batches;
          BatchWriteNewIndices contexts OK batches
      end
  end.

(** The local variables of [DoRunGC]; [out] are [blob_file_handle] and
    [blob_file_builder]. *)
Record RunState : Type := mkRun {
  world : World;
  job : BlobGCJob;
  out : option (Z * BlobFileBuilder);
  file_size : Z;
  last_key : bytes;
  last_key_is_fresh : bool }.

Definition set_job (r : RunState) (j : BlobGCJob) : RunState :=
  mkRun (world r) j (out r) (file_size r) (last_key r) (last_key_is_fresh r).

Context (t : Z) (copts : CompressionOptions).

(** A file to write to: the one that is open, or a new one. *)
Definition ensure_output (r : RunState) : option (Status * RunState) :=
  let target := blob_file_target_size (titan_cf_options_ (blob_gc_ (job r))) in
  if bool_decide (out r = None) || (target <=? file_size r) then
    j ← (if target <=? file_size r then
           '(number, builder) ← out r;
           _ ← assert (ok (status_ builder));
           Some (set_builders (job r) (blob_file_builders_ (job r) ++ [(number, builder)]))
         else Some (job r));
    '(s, handle, w) ← NewFile (world r);
    match handle with
    | None => Some (s, mkRun w j None (file_size r) (last_key r) (last_key_is_fresh r))
    | Some (number, file) =>
        builder ← BlobFileBuilder_new copts file kVersion2;
        Some (OK, mkRun w j (Some (number, builder)) 0 (last_key r) (last_key_is_fresh r))
    end
  else Some (OK, r).

(** Rewrite an entry to the output file. *)
Definition rewrite_entry (r : RunState) (record : BlobRecord) (blob_index : BlobIndex)
    : option (Status * RunState) :=
  '(s, r) ← ensure_output r;
  if negb (ok s) then Some (s, r) else
  '(number, builder) ← out r;
  let ctx := mkCtx (InternalKey_Encode (key record)) blob_index
               {| BlobFormat.file_number := number; blob_handle := BlobHandle_default;
                  old_file_number := 0; old_blob_handle := BlobHandle_default |} false [] in
  '(builder, contexts) ← BlobFileBuilder.Add t copts builder record ctx [];
  '(s, batches) ← BatchWriteNewIndices contexts OK (rewrite_batches_ (job r));
  Some (s, mkRun (world r) (set_batches (job r) batches) (Some (number, builder)) (file_size r)
             (last_key r) (last_key_is_fresh r)).

(** A round of the loop from where the entry is looked up. *)
Definition consider_entry (gc_iter : BlobFileIterator) (record : BlobRecord) (blob_index : BlobIndex)
    (r : RunState) : option (Status * RunState) :=
  '(s, discardable, r) ←
    (if use_bitmap_ (job r) then
       valid ← ValidateByBitMap gc_iter; Some (OK, negb valid, r)
     else
       let '(s, discardable, w, metrics) := DiscardEntry (world r) (metrics_ (job r)) (key record) blob_index in
       Some (s, discardable, mkRun w (set_metrics (job r) metrics) (out r) (file_size r) (last_key r)
                               (last_key_is_fresh r)));
  if negb (ok s) then Some (s, r) else
  if discardable : bool then
    Some (OK, set_job r (set_metrics (job r) (count_overwritten (metrics_ (job r)) (size (blob_handle blob_index)))))
  else
    let r := if use_bitmap_ (job r) then r
             else mkRun (world r) (job r) (out r) (file_size r) (last_key r) true in
    if decide (blob_run_mode (titan_cf_options_ (blob_gc_ (job r))) = mode_kFallback) then
      batches ← add_batch (key record) (mkLsm false (value record)) blob_index BlobIndex_default
                  (rewrite_batches_ (job r));
      Some (OK, set_job r (set_batches (job r) batches))
    else rewrite_entry r record blob_index.

(** One round of the loop: the status it leaves. *)
Definition gc_entry (m : BlobFileMergeIterator) (r : RunState) : option (Status * RunState) :=
  if shuting_down_ env (clock (world r)) then Some (ShutdownInProgress, r) else
  gc_iter ← merge_iter m;
  let record := cur_blob_record_ gc_iter in
  let blob_index := GetBlobIndex gc_iter in
  let r := set_job r (set_metrics (job r) (count_read (metrics_ (job r)) (size (blob_handle blob_index)) 0)) in
  let same := negb (bool_decide (last_key r = [])) && bool_decide (key record = last_key r) in
  if same && last_key_is_fresh r then Some (OK, r) else
  consider_entry gc_iter record blob_index
    (if same then r else mkRun (world r) (job r) (out r) (file_size r) (key record) false).

Fixpoint gc_loop (fuel : nat) (m : BlobFileMergeIterator) (r : RunState)
    : option (Status * BlobFileMergeIterator * RunState) :=
  if merge_Valid m then
    match fuel with
    | O => None
    | S fuel =>
        '(s, r) ← gc_entry m r;
        if negb (ok s) then Some (s, m, r) else
        m ← merge_Next m;
        gc_loop fuel m r
    end
  else Some (OK, m, r).

(** [fuel] bounds the records of the inputs. *)
Definition DoRunGC (fuel : nat) (garbage : Z) (w : World) (j : BlobGCJob)
    : option (Status * World * BlobGCJob) :=
  '(s, gc_iter, w) ← BuildIterator garbage w j;
  if negb (ok s) then Some (s, w, j) else
  match gc_iter with
  | None => Some (Aborted, w, j)
  | Some m =>
      m ← merge_SeekToFirst m;
      _ ← assert (merge_Valid m);
      '(s, m, r) ← gc_loop fuel m (mkRun w j None 0 [] false);
      if ok (merge_status m) && ok s then
        match out r with
        | Some (number, builder) =>
            _ ← assert (ok (status_ builder));
            Some (s, world r, set_builders (job r) (blob_file_builders_ (job r) ++ [(number, builder)]))
        | None => Some (s, world r, job r)
        end
      else if negb (ok (merge_status m)) then Some (merge_status m, world r, job r)
      else Some (s, world r, job r)
  end.

(** ** [Finish] *)

(** The loop of [InstallOutputBlobFiles], which moves the handle of each builder
    that it has finished to the files. *)
Fixpoint install_loop (builders : list (Z * BlobFileBuilder)) (s : Status) (j : BlobGCJob)
    : option (Status * list BlobFileMeta * list (Z * BlobFileBuilder) * BlobGCJob) :=
  match builders with
  | [] => Some (s, [], [], j)
  | (number, builder) :: builders =>
      '(s, builder, contexts) ← BlobFileBuilder.Finish t copts builder [];
      '(s, batches) ← BatchWriteNewIndices contexts s (rewrite_batches_ j);
      let j := set_batches j batches in
      if negb (ok s) then Some (s, [], (number, builder) :: builders, j) else
      let j := set_metrics j (count_files (metrics_ j) 1 0 0) in
      let file := BlobFileMeta_new number (GetFileSize (file_ builder)) (NumEntries builder) 0
                    (BlobFileBuilder.smallest_key_ builder) (BlobFileBuilder.largest_key_ builder) in
      file ← transit (set_live_data_size file (BlobFileBuilder.live_data_size_ builder)) kGCOutput;
      '(s, files, builders, j) ← install_loop builders s j;
      Some (s, file :: files, (number, builder) :: builders, j)
  end.

(** After a failure the number of every builder's handle is read: of a null
    pointer if it has been moved. *)
Definition InstallOutputBlobFiles (w : World) (j : BlobGCJob) : option (Status * World * BlobGCJob) :=
  '(s, files, builders, j) ← install_loop (blob_file_builders_ j) OK j;
  let j := set_builders j builders in
  if ok s then
    '(s, w) ← BatchFinishFiles w (cf_id j) files;
    Some (s, w, if ok s then add_outputs j (map file_number_ files) else j)
  else
    _ ← assert (bool_decide (files = []));
    '(_, w) ← BatchDeleteFiles w (map fst builders);
    Some (s, w, j).

(** The status is [OK] up to the edit, so the branch that deletes the file is
    never taken. *)
Definition InstallHardwareOutputBlobFiles (w : World) (j : BlobGCJob) : option (Status * World * BlobGCJob) :=
  let j := set_metrics j (count_files (metrics_ j) 1 0 0) in
  file ← hardware_blob_file_ j;
  let edit := VersionEdit.AddBlobFile (SetColumnFamilyID VersionEdit_default (cf_id j)) file in
  w ← Lock w;
  '(s, set, d) ← LogAndApply (log_io env (clock w)) (blob_file_set_ w) (disk w) edit;
  _ ← assert (ok s);
  Some (s, Unlock (set_files_of w set d), add_outputs j [file_number_ file]).

(** [dropped] and [dropped_index]. *)
Record Dropped : Type := mkDropped {
  dropped : gmap Z Z;
  dropped_index : gmap Z (list Z) }.

Definition drop_record (use_bitmap : bool) (d : Dropped) (i : BlobIndex) : Dropped :=
  let n := BlobFormat.file_number i in
  mkDropped (<[n := u64 (default 0 (dropped d !! n) + size (blob_handle i))]> (dropped d))
    (if use_bitmap then <[n := default [] (dropped_index d !! n) ++ [index (blob_handle i)]]> (dropped_index d)
     else dropped_index d).

(** The loop over the write batches; the status of the last write. *)
Fixpoint rewrite_loop (batches : list RewriteBatch) (s : Status) (w : World) (j : BlobGCJob) (d : Dropped)
    : Status * World * BlobGCJob * Dropped :=
  match batches with
  | [] => (s, w, j, d)
  | b :: batches =>
      if IsDropped env (clock w) then (Aborted, w, j, d) else
      if shuting_down_ env (clock w) then (ShutdownInProgress, w, j, d) else
      let '(s, read_bytes, w) := if gc_offload_ j then DB_Write w b else WriteWithCallback w b in
      let j := set_metrics j (count_files (metrics_ j) 0 0 1) in
      let record_size := size (blob_handle (blob_index_ b)) in
      if ok s then
        let m := if 0 <? size (blob_handle (new_blob_index_ b)) then count_relocated (metrics_ j) record_size
                 else count_fallback (metrics_ j) record_size in
        rewrite_loop batches s w (set_metrics j (count_read m read_bytes 0)) d
      else if bool_decide (s = Busy) then
        let m := count_overwritten (metrics_ j) record_size in
        rewrite_loop batches s w (set_metrics j (count_read m read_bytes 0))
          (drop_record (use_bitmap_ j) d (new_blob_index_ b))
      else (s, w, j, d)
  end.

(** [bm.SetBit(index, 1)] for each index; the status is asserted. *)
Fixpoint mark_dropped (bm : BitMap) (s : Status) (indexes : list Z) : option (Status * BitMap) :=
  match indexes with
  | [] => Some (s, bm)
  | index :: indexes =>
      '(s, bm) ← SetBit bm index 1;
      _ ← assert (ok s);
      mark_dropped bm s indexes
  end.

(** What a file loses when its records were dropped. *)
Definition drop_file (use_bitmap : bool) (cf_id : Z) (d : Dropped) (set : BlobFileSet) (s : Status)
    (item : Z * Z) : option (BlobFileSet * Status) :=
  let '(n, dropped_size) := item in
  match GetBlobStorage set cf_id with
  | None => Some (set, s)
  | Some bs =>
      file ← FindFile bs n;
      match file with
      | None => Some (set, s)
      | Some file =>
          let stats := SubStats (fs_stats_ set) cf_id (GetDiscardableRatioLevel file) 1 in
          '(_, file) ← UpdateLiveDataSize file (i64 (- dropped_size));
          let stats := AddStats stats cf_id (GetDiscardableRatioLevel file) 1 in
          '(s, file) ←
            (if use_bitmap then
               '(s, bm) ← mark_dropped (BitMap_new (file_entries_ file)) s (default [] (dropped_index d !! n));
               '(s, file) ← UpdateInvalidEntryIndexes file (Some bm);
               _ ← assert (ok s);
               Some (s, file)
             else Some (s, file));
          let bs := ComputeGCScore (update_file bs n file) in
          Some (set_column_families set (<[cf_id := bs]> (column_families_ set)) stats, s)
      end
  end.

Fixpoint drop_files (use_bitmap : bool) (cf_id : Z) (d : Dropped) (set : BlobFileSet) (s : Status)
    (items : list (Z * Z)) : option (BlobFileSet * Status) :=
  match items with
  | [] => Some (set, s)
  | item :: items => '(set, s) ← drop_file use_bitmap cf_id d set s item; drop_files use_bitmap cf_id d set s items
  end.

(** [RewriteValidKeyToLSM]; [gc_mutex_] only keeps other jobs away. *)
Definition RewriteValidKeyToLSM (w : World) (j : BlobGCJob) : option (Status * World * BlobGCJob) :=
  let '(s, w, j, d) := rewrite_loop (rewrite_batches_ j) OK w j (mkDropped ∅ ∅) in
  let s := if bool_decide (s = Busy) then OK else s in
  if negb (ok s) then Some (s, w, j) else
  w ← Lock w;
  '(set, s) ← drop_files (use_bitmap_ j) (cf_id j) d (blob_file_set_ w) s (map_to_list (dropped d));
  let w := Unlock (set_files_of w set (disk w)) in
  Some (if ok s then FlushWAL env else s, w, j).

(** An input is obsolete when the storage says so, or does not know it any more. *)
Definition input_obsolete (w : World) (j : BlobGCJob) (file : BlobFileMeta) : bool :=
  match GetBlobStorage (blob_file_set_ w) (cf_id j) with
  | None => true
  | Some bs => match files_ bs !! file_number_ file with Some m => is_obsolete m | None => true end
  end.

Definition DeleteInputBlobFiles (w : World) (j : BlobGCJob) : option (Status * World * BlobGCJob) :=
  let obsolete_sequence := GetLatestSequenceNumber env in
  let edit := foldl (fun e file => if input_obsolete w j file then e
                                   else VersionEdit.DeleteBlobFile e (file_number_ file) obsolete_sequence)
                (SetColumnFamilyID VersionEdit_default (cf_id j)) (inputs j) in
  let j := set_metrics j (count_files (metrics_ j) 0 (zlen (inputs j)) 0) in
  '(s, set, d) ← LogAndApply (log_io env (clock w)) (blob_file_set_ w) (disk w) edit;
  Some (s, set_files_of w set d, j).

(** [Finish], with the mutex held before and after. *)
Definition Finish (w : World) (j : BlobGCJob) : option (Status * World * BlobGCJob) :=
  let w := Unlock w in
  '(s, w, j) ← (if negb (gc_offload_ j) then InstallOutputBlobFiles w j else InstallHardwareOutputBlobFiles w j);
  '(s, w, j) ← (if ok s then RewriteValidKeyToLSM w j else Some (s, w, j));
  w ← Lock w;
  if ok s && negb (IsDropped env (clock w)) then DeleteInputBlobFiles w j else Some (s, w, j).

(** The part of [BackgroundGC] that runs a picked collection, with the mutex
    held before and after. *)
Definition RunJob (fuel : nat) (garbage : Z) (w : World) (j : BlobGCJob)
    : option (Status * World * BlobGCJob) :=
  '(s, w, j) ← DoRunGC fuel garbage (Unlock w) j;
  w ← Lock w;
  if ok s then Finish w j else Some (s, w, j).

(** [ReleaseGcFiles], after which a failure stops the database. Without the
    storage, pointers to outputs are left. *)
Definition ReleaseJob (w : World) (j : BlobGCJob) (s : Status) : option World :=
  set ← (match GetBlobStorage (blob_file_set_ w) (cf_id j) with
         | Some bs =>
             bs ← ReleaseGcFiles bs (blob_gc_ j);
             Some (set_column_families (blob_file_set_ w) (<[cf_id j := bs]> (column_families_ (blob_file_set_ w)))
                     (fs_stats_ (blob_file_set_ w)))
         | None => _ ← assert (bool_decide (outputs_ (blob_gc_ j) = [])); Some (blob_file_set_ w)
         end);
  Some (SetBGError (set_files_of w set (disk w)) s).
End Job.
End Around.
