(* ===== verification/GCJobRun.v ===== *)
(** * GCJobRun: what a garbage collection reads and writes

    [DoRunGC] on well-formed input files: every record of every input is either
    one that the LSM tree no longer refers to, or is in the output file and has a
    write batch with its old and its new index, whatever the other threads do
    meanwhile, whether the run asks the LSM tree or the bitmaps. *)
From S2P Require Import Prelude Coding Crc32c InternalKey BitMap BlobFileMeta TitanStats Options VersionEdit BlobStorage BlobFileSet GCPicker BlobFileBuilder BlobFileBuilderProofs BlobFileReader BlobFileIterator BlobFileIteratorProofs BlobFileMergeProofs BlobFileSpec GCJob BlobFormat.

Local Open Scope Z_scope.
Local Open Scope aegon_scope.

(** ** Internal keys *)

Lemma ParseInternalKey_encode k :
  is_bytes k -> ParseInternalKey (InternalKey_Encode k) = Some (Ret (mkParsed k 1 kTypeValue)).
Proof. intros Hk. by apply (ParseInternalKey_Append (mkParsed k 1 kTypeValue)). Qed.

(** ** The builder, one record at a time *)

Section Builder.
Context `{C : Comparator} `{!ComparatorLaws C} `{L : FileLibrary} `{!FileLibraryLaws L}.
Context (t : Z) (copts : CompressionOptions).

(** The entries handed out before only go in front. *)
Lemma flush_loop_prefix samples : forall b ctxs pre out,
  flush_loop t b samples ctxs (pre ++ out)
    = ('(b, ctxs, out) ← flush_loop t b samples ctxs out; Some (b, ctxs, pre ++ out)).
Proof.
  induction samples as [|s samples IH]; intros b ctxs pre out; [done|]. cbn [flush_loop].
  destruct (skip_small ctxs) as [small rest]. destruct rest as [|ctx rest]; [done|].
  destruct (EncodeSlice _ _ _) as [e|]; [|done]. cbn [mbind option_bind].
  destruct (WriteEncoderData b e) as [b' h]. by rewrite <- IH, !app_assoc.
Qed.

Lemma EnterUnbuffered_prefix b pre out :
  EnterUnbuffered t copts b (pre ++ out) = ('(b, out) ← EnterUnbuffered t copts b out; Some (b, pre ++ out)).
Proof.
  unfold EnterUnbuffered, FlushSampleRecords. destruct (assert _); [|done]. cbn [mbind option_bind].
  rewrite flush_loop_prefix. destruct (flush_loop _ _ _ _ out) as [[[b' ctxs] out']|]; [|done].
  cbn [mbind option_bind]. destruct (assert _); [|done]. cbn [mbind option_bind]. by rewrite app_assoc.
Qed.

Lemma Add_prefix b r c pre :
  BlobFileBuilder.Add t copts b r c pre
    = ('(b, out) ← BlobFileBuilder.Add t copts b r c []; Some (b, pre ++ out)).
Proof.
  unfold BlobFileBuilder.Add. destruct (ok (status_ b)); cbn [negb]; [|cbn; by rewrite app_nil_r]. destruct (builder_state_ b).
  - destruct (_ && _); [|cbn; by rewrite app_nil_r].
    rewrite <- (app_nil_r pre) at 1. rewrite EnterUnbuffered_prefix.
    by destruct (EnterUnbuffered _ _ _ []) as [[b' out]|].
  - destruct (EncodeRecord _ _ _) as [e|]; [|done]. cbn [mbind option_bind]. by destruct (WriteEncoderData b e).
Qed.

Lemma Finish_prefix b pre :
  BlobFileBuilder.Finish t copts b pre
    = ('(s, b, out) ← BlobFileBuilder.Finish t copts b []; Some (s, b, pre ++ out)).
Proof.
  unfold BlobFileBuilder.Finish. destruct (ok (status_ b)); cbn [negb]; [|cbn; by rewrite app_nil_r].
  assert (forall b out,
    ('(b, mi) ← (if 0 <? max_dict_bytes copts then
        _ ← assert (blob_file_version_ b =? kVersion2);
        '(b, metas) ← WriteCompressionDictBlock b; Some (WriteRawBlock b (BuildBlock metas))
      else Some (b, NullBlockHandle));
     buffer ← BlobFileFooter_EncodeTo mi;
     let b := set_io b (Append (file_ b) buffer) in
     let b := if ok (status_ b) then set_io b (Flush (file_ b)) else b in
     Some (status_ b, b, pre ++ out))
    = ('(s, b, out') ← ('(b, mi) ← (if 0 <? max_dict_bytes copts then
        _ ← assert (blob_file_version_ b =? kVersion2);
        '(b, metas) ← WriteCompressionDictBlock b; Some (WriteRawBlock b (BuildBlock metas))
      else Some (b, NullBlockHandle));
     buffer ← BlobFileFooter_EncodeTo mi;
     let b := set_io b (Append (file_ b) buffer) in
     let b := if ok (status_ b) then set_io b (Flush (file_ b)) else b in
     Some (status_ b, b, out)); Some (s, b, pre ++ out'))) as Htail.
  { intros b' out. destruct (if 0 <? _ then _ else _) as [[b1 mi]|]; [|done]. cbn [mbind option_bind].
    by destruct (BlobFileFooter_EncodeTo mi). }
  destruct (decide _).
  - rewrite <- (app_nil_r pre) at 1. rewrite EnterUnbuffered_prefix.
    destruct (EnterUnbuffered _ _ _ []) as [[b' out]|]; [|done]. cbn [mbind option_bind]. apply Htail.
  - pose proof (Htail b []) as E. rewrite app_nil_r in E. exact E.
Qed.
End Builder.

(** ** What the LSM tree refers to *)

#[local] Abbreviation Entry := (BlobRecord * BlobIndex)%type.

Definition refers (v : LsmValue) : option BlobIndex :=
  if is_blob_index v then
    match BlobIndex_DecodeFrom BlobIndex_default (lsm_value v) with
    | Ret (i, _) => Some i
    | Fail _ => None
    end
  else None.

Definition points (tr : gmap bytes LsmValue) (k : bytes) (i : BlobIndex) : Prop :=
  exists v, tr !! k = Some v /\ refers v = Some i.

(** The newest version of the key is not this record. *)
Definition dead (tr : gmap bytes LsmValue) (e : Entry) : Prop :=
  forall i, points tr (key e.1) i -> BlobIndex_eqb e.2 i = false.

Lemma BlobIndex_eqb_number x i : BlobIndex_eqb x i = true -> file_number i = file_number x.
Proof. unfold BlobIndex_eqb. by intros [H%Z.eqb_eq _]%andb_prop. Qed.

Lemma BlobIndex_eqb_sym x i : BlobIndex_eqb x i = BlobIndex_eqb i x.
Proof. unfold BlobIndex_eqb, BlobHandle_eqb. by rewrite (Z.eqb_sym (file_number x)), (Z.eqb_sym (offset _)), (Z.eqb_sym (size _)). Qed.

Lemma BlobIndex_eqb_trans x y z : BlobIndex_eqb x y = true -> BlobIndex_eqb y z = true -> BlobIndex_eqb x z = true.
Proof.
  unfold BlobIndex_eqb, BlobHandle_eqb.
  intros [->%Z.eqb_eq [->%Z.eqb_eq ->%Z.eqb_eq]%andb_prop]%andb_prop. done.
Qed.

(** Other threads never refer to these files anew. *)
Definition no_new_references (env : Surroundings) (files : gset Z) : Prop :=
  forall n tr k i, points (others_lsm env n tr) k i -> file_number i ∈ files ->
    others_lsm env n tr !! k = tr !! k.

(** Statuses that callers take for answers are not errors of a read or write. *)
Definition plain_errors (env : Surroundings) : Prop :=
  forall n, read_error env n <> NotFound /\ read_error env n <> Busy /\ write_error env n <> Busy.

Lemma dead_others env files n tr e :
  no_new_references env files -> file_number e.2 ∈ files -> dead tr e -> dead (others_lsm env n tr) e.
Proof.
  intros Henv Hf Hd i Hp. destruct (BlobIndex_eqb e.2 i) eqn:E; [|done].
  pose proof (BlobIndex_eqb_number _ _ E) as Hn. rewrite <- E. apply Hd.
  destruct Hp as (v & Hv & Hr). exists v. split; [|done]. rewrite <- Hv. symmetry.
  apply (Henv n tr (key e.1) i); [by exists v|by rewrite Hn].
Qed.

(** The time and the LSM tree; the others act. *)
Definition moment (w : World) : nat * gmap bytes LsmValue := (clock w, lsm w).

Definition tick (env : Surroundings) (p q : nat * gmap bytes LsmValue) : Prop :=
  q = (S p.1, others_lsm env p.1 p.2).

Lemma dead_passed env files p q e :
  no_new_references env files -> file_number e.2 ∈ files -> rtc (tick env) p q -> dead p.2 e -> dead q.2 e.
Proof.
  intros Hr Hf. induction 1 as [|p q q' -> _ IH]; [done|]. intros Hd. apply IH. by apply (dead_others env files).
Qed.

Lemma BlobIndex_DecodeFrom_fail self src s : BlobIndex_DecodeFrom self src = Fail s -> s = Corruption.
Proof.
  unfold BlobIndex_DecodeFrom, BlobHandle_DecodeFrom, or_fail, res_bind. intros H.
  repeat (case_match; simplify_eq; try done).
Qed.

(** The parts of the world that a read or a write of the LSM tree keeps. *)
Definition same_files (w w' : World) : Prop :=
  blob_file_set_ w' = blob_file_set_ w /\ disk w' = disk w /\ pending_outputs_ w' = pending_outputs_ w /\
  bg_error_ w' = bg_error_ w /\ mutex_held w' = mutex_held w.

Lemma DiscardEntry_spec env w m r x s d w' m' :
  plain_errors env -> DiscardEntry env w m (key r) x = (s, d, w', m') ->
  tick env (moment w) (moment w') /\ same_files w w' /\
  (s = OK -> d = true -> dead (lsm w') (r, x)) /\
  (s = OK -> d = false -> exists i, points (lsm w') (key r) i /\ BlobIndex_eqb x i = true).
Proof.
  intros He. unfold DiscardEntry, DB_GetImpl, get_at. set (tr := others_lsm env (clock w) (lsm w)).
  destruct (He (clock w)) as (Hnf & Hb & _).
  destruct (read_error env (clock w)) eqn:Er; try done; cbn [ok negb].
  2-8: intros [= <- <- <- <-]; by split_and!.
  destruct (tr !! key r) as [v|] eqn:Ev; cbn [ok negb andb].
  2:{ intros [= <- <- <- <-]. split_and!; try done. intros _ _ i (v & Hv & _). cbn in Hv. by rewrite Ev in Hv. }
  change (bool_decide (OK = NotFound)) with false. cbn [orb]. destruct (is_blob_index v) eqn:Eb; cbn [negb].
  - destruct (BlobIndex_DecodeFrom BlobIndex_default (lsm_value v)) as [[i rest]|e] eqn:Ed; intros [= <- <- <- <-].
    2:{ apply BlobIndex_DecodeFrom_fail in Ed as ->. by split_and!. }
    assert (refers v = Some i) as Hr by (unfold refers; by rewrite Eb, Ed).
    split_and!; try done.
    + intros _ Hd i' (v' & Hv' & Hr'). cbn in Hv'. rewrite Ev in Hv'. injection Hv' as <-.
      rewrite Hr in Hr'. injection Hr' as <-. cbn. by apply negb_true_iff in Hd.
    + intros _ Hd. exists i. split; [by exists v|]. by apply negb_false_iff in Hd.
  - intros [= <- <- <- <-]. split_and!; try done. intros _ _ i (v' & Hv' & Hr'). cbn in Hv'.
    rewrite Ev in Hv'. injection Hv' as <-. unfold refers in Hr'. by rewrite Eb in Hr'.
Qed.

(** ** Write batches of the entries that are kept *)

Definition relocation (e : Entry) (y : BlobIndex) : RewriteBatch :=
  mkBatch (key e.1) (mkLsm true (BlobIndex_EncodeTo y)) e.2 y.

Definition inline_batch (e : Entry) : RewriteBatch :=
  mkBatch (key e.1) (mkLsm false (value e.1)) e.2 BlobIndex_default.

Definition kept_ctx (n : Z) (e : Entry) : BlobRecordContext :=
  mkCtx (InternalKey_Encode (key e.1)) e.2 (blob_index n BlobHandle_default) false [].

Definition kept_op (n : Z) (e : Entry) : Op := Put e.1 (kept_ctx n e).

(** The batch of an entry that the builder has handed out. *)
Definition ctx_batch (c : BlobRecordContext) : RewriteBatch :=
  let k := take (Z.to_nat (zlen (ctx_key c) - 8)) (ctx_key c) in
  let y := blob_index (file_number (new_blob_index c)) (blob_handle (new_blob_index c)) in
  mkBatch k (mkLsm true (BlobIndex_EncodeTo y)) (original_blob_index c) y.

Definition key_ok (k : bytes) : Prop := k <> [] /\ is_bytes k.

Definition ctx_ok (c : BlobRecordContext) : Prop := exists k, ctx_key c = InternalKey_Encode k /\ key_ok k.

Lemma user_key_encode k : take (Z.to_nat (zlen (InternalKey_Encode k) - 8)) (InternalKey_Encode k) = k.
Proof.
  unfold InternalKey_Encode. rewrite zlen_app. change (zlen (PutFixed64 _)) with 8.
  replace (zlen k + 8 - 8) with (zlen k) by lia. by rewrite zlen_to_nat, take_app_length.
Qed.

Lemma BatchWriteNewIndices_spec ctxs : forall batches,
  Forall ctx_ok ctxs -> BatchWriteNewIndices ctxs OK batches = Some (OK, batches ++ map ctx_batch ctxs).
Proof.
  induction ctxs as [|c ctxs IH]; intros batches Hok; [by rewrite app_nil_r|].
  apply Forall_cons in Hok as [(k & Hk & Hne & Hb) Hok]. cbn [BatchWriteNewIndices map].
  rewrite Hk, ParseInternalKey_encode by done. cbn [mbind option_bind]. unfold add_batch.
  rewrite (bool_decide_eq_false_2 (k = [])) by done. cbn [negb assert mbind option_bind]. rewrite IH by done.
  rewrite <- app_assoc. unfold ctx_batch at 2. rewrite Hk, user_key_encode. done.
Qed.

Lemma records_kept n kept : records (map (kept_op n) kept) = map fst kept.
Proof. induction kept as [|e kept IH]; [done|]. cbn. by rewrite IH. Qed.

Lemma assign_ok n kept : forall hs, Forall (fun e => key_ok (key e.1)) kept -> Forall ctx_ok (assign (map (kept_op n) kept) hs).
Proof.
  induction kept as [|e kept IH]; intros [|h hs] Hk; cbn; try constructor; apply Forall_cons in Hk as [He Hk].
  - by exists (key e.1).
  - by apply IH.
Qed.

(** The batches of a finished file: each entry with the index of its record. *)
Lemma assign_batches n kept : forall hs, length hs = length kept ->
  map ctx_batch (assign (map (kept_op n) kept) hs) = zip_with (fun e h => relocation e (blob_index n h)) kept hs.
Proof.
  induction kept as [|e kept IH]; intros [|h hs] Hl; try done. cbn. injection Hl as Hl. rewrite IH by done. f_equal.
  unfold ctx_batch, relocation. cbn [ctx_key set_blob_handle kept_ctx]. by rewrite user_key_encode.
Qed.

(** ** The loop *)

Section Run.
Context `{C : Comparator} `{!ComparatorLaws C} `{L : FileLibrary} `{!FileLibraryLaws L} `{H : HeapTop}.
Context (env : Surroundings) (t : Z) (copts : CompressionOptions).
(** The input files, their records, the job at its start, what holds of the blob
    file set and what relates the LSM tree to the one at the start. *)
Context (files : gset Z) (E : list Entry) (j0 : BlobGCJob).
Context (good : BlobFileSet -> Disk -> Prop) (later : nat * gmap bytes LsmValue -> Prop).

#[local] Abbreviation opts := (titan_cf_options_ (blob_gc_ j0)).

(** A number for an output file. *)
Definition out_number (n : Z) : Prop := (n ∉ files) /\ is_u64 n.

(** The entries are those of distinct records, that a builder can write. *)
Record entries_ok : Prop := {
  eo_files : Forall (fun e => file_number e.2 ∈ files) E;
  eo_unique : forall e e', e ∈ E -> e' ∈ E -> BlobIndex_eqb e.2 e'.2 = true -> e = e';
  eo_keys : Forall (fun e => key_ok (key e.1)) E;
  eo_encodable : Forall (fun e => encodable t e.1) E;
  eo_count : zlen E <= 2 ^ 30 }.

Record surroundings_ok : Prop := {
  so_errors : plain_errors env;
  so_references : no_new_references env files;
  so_later : forall p q, tick env p q -> later p -> later q;
  so_writable : forall n, match NewWritableFile env n with Ret f => f = new_file | Fail e => e <> OK end;
  so_good : forall n s d, good s d -> let p := others_files env n (s, d) in
    good p.1 p.2 /\ out_number (NewFileNumber p.1).1 /\ good (NewFileNumber p.1).2 p.2 }.

Record options_ok : Prop := {
  oo_config : config_ok copts kVersion2;
  oo_target : 0 < blob_file_target_size opts }.

Context (HE : entries_ok) (Henv : surroundings_ok) (Hopts : options_ok).

(** The bitmaps of the files, if the job uses them: they have a bit for each entry. *)
Context (bits : Z -> option BitMap).

Definition marked_invalid (e : Entry) : bool :=
  match bits (file_number e.2) with Some bm => get bm (index (blob_handle e.2)) | None => false end.

Definition bits_known : Prop := use_bitmap opts = true -> forall e, e ∈ E ->
  exists bm, bits (file_number e.2) = Some bm /\ BitMap_wf bm /\ 0 <= index (blob_handle e.2) <= valid_bits_ bm.

Context (Hbits : bits_known).

(** Every entry of the list is dead or kept. *)
Definition covered (tr : gmap bytes LsmValue) (done kept : list Entry) : Prop :=
  forall e, e ∈ done -> dead tr e \/ e ∈ kept.

Lemma later_passed p q : rtc (tick env) p q -> later p -> later q.
Proof. induction 1; [done|]. intros Hl. apply IHrtc. by eapply (so_later Henv). Qed.

Lemma covered_passed p q don kept :
  (forall e, e ∈ don -> e ∈ E) -> rtc (tick env) p q -> covered p.2 don kept -> covered q.2 don kept.
Proof.
  intros Hin Ht Hc e He. destruct (Hc e He) as [Hd|Hk]; [left|by right].
  apply (dead_passed env files p); [apply Henv| |done..]. pose proof (eo_files HE) as Hf. rewrite Forall_forall in Hf. by apply Hf, Hin.
Qed.

(** What has been kept is in the builder and in the batches. *)
Definition wrote (o : option (Z * BlobFileBuilder)) (batches : list RewriteBatch) (kept : list Entry) : Prop :=
  if decide (blob_run_mode opts = mode_kFallback) then o = None /\ batches = map inline_batch kept
  else match o with
       | None => kept = [] /\ batches = []
       | Some (n, b) =>
           out_number n /\ exists ctxs, building t copts kVersion2 (map (kept_op n) kept) b ctxs /\
             batches = map ctx_batch ctxs /\
             key_range (BlobFileBuilder.smallest_key_ b) (BlobFileBuilder.largest_key_ b) (map fst kept)
       end.

(** A state the job can stop in. *)
Record paused (w : World) (j : BlobGCJob) : Prop := {
  pa_gc : blob_gc_ j = blob_gc_ j0;
  pa_inputs : inputs j = inputs j0;
  pa_cf : cf_id j = cf_id j0;
  pa_offload : gc_offload_ j = gc_offload_ j0;
  pa_builders : blob_file_builders_ j = [];
  pa_free : mutex_held w = false;
  pa_good : good (blob_file_set_ w) (disk w);
  pa_later : later (moment w) }.

Record looping (don kept : list Entry) (r : RunState) : Prop := {
  lp_paused : paused (world r) (job r);
  lp_size : file_size r = 0;
  lp_kept : sublist kept don;
  lp_wrote : wrote (out r) (rewrite_batches_ (job r)) kept;
  lp_covered : covered (lsm (world r)) don kept;
  lp_marked : use_bitmap opts = true -> covered (lsm (world r)) (filter (fun e => marked_invalid e = true) E) [];
  lp_fresh : last_key_is_fresh r = true -> last_key r <> [] ->
    covered (lsm (world r)) (filter (fun e => key e.1 = last_key r) E) kept }.

Lemma paused_world w w' j :
  paused w j -> rtc (tick env) (moment w) (moment w') -> same_files w w' -> paused w' j.
Proof.
  intros [] Hl%later_passed (Hs & Hd & _ & _ & Hm); [|done]. split; try done; [by rewrite Hm|by rewrite Hs, Hd].
Qed.

Lemma paused_metrics w j m : paused w j -> paused w (set_metrics j m).
Proof. by intros []. Qed.

Lemma paused_batches w j l : paused w j -> paused w (set_batches j l).
Proof. by intros []. Qed.

(** A new output file. *)
Lemma NewFile_spec w :
  mutex_held w = false -> good (blob_file_set_ w) (disk w) ->
  exists s o w', NewFile env w = Some (s, o, w') /\ rtc (tick env) (moment w) (moment w') /\ mutex_held w' = false /\
    good (blob_file_set_ w') (disk w') /\
    match o with Some (n, f) => s = OK /\ out_number n /\ f = new_file | None => s <> OK end.
Proof.
  intros Hm Hg. unfold NewFile, others. pose proof (so_good Henv (clock w) _ _ Hg) as Hso.
  destruct (others_files env (clock w) _) as [s1 d1]. cbn [fst snd] in Hso. destruct Hso as (Hg1 & Hn & Hg2).
  cbn [blob_file_set_ disk]. destruct (NewFileNumber s1) as [n s2] eqn:En. cbn [fst snd] in *.
  pose proof (so_writable Henv n) as Hf. destruct (NewWritableFile env n) as [f|e].
  2:{ eexists e, None, _. split; [reflexivity|]. split_and!; [by apply rtc_once|done..]. }
  unfold Lock, set_files_of. cbn [mutex_held]. rewrite Hm. cbn [mbind option_bind]. unfold others.
  cbn [blob_file_set_ disk clock lsm pending_outputs_ bg_error_]. pose proof (so_good Henv (S (clock w)) _ _ Hg2) as (Hg3 & _).
  destruct (others_files env (S (clock w)) _) as [s3 d3].
  eexists OK, (Some (n, f)), _. split; [reflexivity|]. split_and!; [|done..].
  apply rtc_l with (S (clock w), others_lsm env (clock w) (lsm w)); [done|]. by apply rtc_once.
Qed.

Lemma paused_moved w w' j :
  paused w j -> rtc (tick env) (moment w) (moment w') -> mutex_held w' = false -> good (blob_file_set_ w') (disk w') -> paused w' j.
Proof. intros [] Hl%later_passed Hm Hg; [by split|done]. Qed.

Lemma sublist_count don kept : sublist kept don -> sublist don E -> zlen kept <= 2 ^ 30.
Proof.
  intros H1 H2. pose proof (eo_count HE). apply sublist_length in H1, H2. unfold zlen in *. lia.
Qed.

Lemma kept_ops_ok n kept : sublist kept E -> ops_ok t (map (kept_op n) kept).
Proof.
  intros Hs. split; [|rewrite records_kept; unfold zlen; rewrite length_map; apply (sublist_count E kept); done].
  apply Forall_map, Forall_forall. intros e He. assert (e ∈ E) as HeE.
  { eapply elem_of_submseteq; [exact He|by apply sublist_submseteq]. }
  pose proof (eo_keys HE) as Hk. pose proof (eo_encodable HE) as Hen. rewrite Forall_forall in Hk, Hen.
  split; [done|]. split; [by apply Hen|]. by apply Hk.
Qed.

(** The output file is there, and has what has been kept. *)
Lemma ensure_output_spec r kept :
  blob_run_mode opts <> mode_kFallback -> paused (world r) (job r) -> file_size r = 0 ->
  wrote (out r) (rewrite_batches_ (job r)) kept ->
  exists s r', ensure_output env copts r = Some (s, r') /\ paused (world r') (job r') /\
    (s = OK -> exists n b, out r' = Some (n, b) /\ rtc (tick env) (moment (world r)) (moment (world r')) /\ file_size r' = 0 /\
       last_key r' = last_key r /\ last_key_is_fresh r' = last_key_is_fresh r /\
       wrote (Some (n, b)) (rewrite_batches_ (job r')) kept).
Proof.
  intros Hmode Hp Hsz Hw. pose proof (oo_target Hopts) as Ht. unfold ensure_output. rewrite (pa_gc _ _ Hp), Hsz.
  rewrite (proj2 (Z.leb_gt _ _) Ht). rewrite orb_false_r. destruct (out r) as [[n b]|] eqn:Eo.
  - rewrite bool_decide_eq_false_2 by done. exists OK, r. split; [done|]. split; [done|]. intros _.
    exists n, b. by rewrite Eo.
  - rewrite bool_decide_eq_true_2 by done. cbn [mbind option_bind].
    destruct (NewFile_spec (world r) (pa_free _ _ Hp) (pa_good _ _ Hp)) as (s & o & w' & -> & Hl & Hm & Hg & Ho).
    cbn [mbind option_bind]. pose proof (paused_moved _ w' _ Hp Hl Hm Hg) as Hp'. destruct o as [[n f]|].
    + destruct Ho as (-> & Hn & ->).
      destruct (BlobFileBuilder_new_spec t copts kVersion2 (oo_config Hopts)) as (b & -> & Hb & Hs & Hlg).
      cbn [mbind option_bind]. eexists OK, _. split; [reflexivity|]. split; [done|]. intros _. exists n, b.
      split_and!; try done. cbn [job]. unfold wrote in *. destruct (decide _); [done|]. destruct Hw as [-> ->].
      split; [done|]. exists []. split_and!; [done|done|]. by rewrite Hs, Hlg.
    + eexists s, _. split; [reflexivity|]. by split.
Qed.

Lemma building_ctx_ok n kept b ctxs :
  Forall (fun e => key_ok (key e.1)) kept ->
  building t copts kVersion2 (map (kept_op n) kept) b ctxs -> Forall ctx_ok ctxs.
Proof. intros Hk Hb. destruct Hb; [constructor|by apply assign_ok]. Qed.

Lemma sublist_keys kept : sublist kept E -> Forall (fun e => key_ok (key e.1)) kept.
Proof.
  intros Hs. apply Forall_forall. intros e He. pose proof (eo_keys HE) as Hk. rewrite Forall_forall in Hk. apply Hk.
  eapply elem_of_submseteq; [exact He|by apply sublist_submseteq].
Qed.

(** One record more in the output file. *)
Lemma rewrite_entry_spec r kept e :
  blob_run_mode opts <> mode_kFallback -> paused (world r) (job r) -> file_size r = 0 ->
  wrote (out r) (rewrite_batches_ (job r)) kept -> sublist (kept ++ [e]) E ->
  exists s r', rewrite_entry env t copts r e.1 e.2 = Some (s, r') /\ paused (world r') (job r') /\
    (s = OK -> rtc (tick env) (moment (world r)) (moment (world r')) /\ file_size r' = 0 /\
       last_key r' = last_key r /\ last_key_is_fresh r' = last_key_is_fresh r /\
       wrote (out r') (rewrite_batches_ (job r')) (kept ++ [e])).
Proof.
  intros Hmode Hp Hsz Hw Hsub. destruct (ensure_output_spec r kept Hmode Hp Hsz Hw) as (s & r1 & He & Hp1 & Hok).
  unfold rewrite_entry. rewrite He. cbn [mbind option_bind]. destruct (decide (s = OK)) as [->|Hs].
  2:{ exists s, r1. replace (negb (ok s)) with true by by destruct s. by split_and!. }
  destruct (Hok eq_refl) as (n & b & Ho & Hl & Hsz1 & Hlk & Hfr & Hw1). cbn [ok negb]. rewrite Ho. cbn [mbind option_bind].
  unfold wrote in Hw1. destruct (decide _) as [|_]; [done|]. destruct Hw1 as (Hn & ctxs & Hb & Hbt & Hkr).
  pose proof (kept_ops_ok n _ Hsub) as Hops. rewrite map_app in Hops. cbn [map] in Hops.
  destruct (Add_spec t copts kVersion2 _ _ _ b ctxs Hops (cfg_version _ _ (oo_config Hopts)) Hb) as (b' & ctxs' & Ha & Hb' & Hsm & Hlg).
  rewrite Add_prefix in Ha.
  change (mkCtx _ _ _ _ _) with (kept_ctx n e).
  destruct (BlobFileBuilder.Add t copts b e.1 (kept_ctx n e) []) as [[b1 new]|]; [|done].
  cbn [mbind option_bind] in Ha |- *. injection Ha as -> <-.
  assert (Forall ctx_ok (ctxs ++ new)) as Hcok.
  { apply (building_ctx_ok n (kept ++ [e]) b'); [by apply sublist_keys|]. by rewrite map_app. }
  apply Forall_app in Hcok as [_ Hnew]. rewrite BatchWriteNewIndices_spec by done. cbn [mbind option_bind].
  eexists OK, _. split; [reflexivity|]. split; [by apply paused_batches|]. intros _. cbn [world file_size last_key last_key_is_fresh out job rewrite_batches_ set_batches].
  split_and!; [done..|]. unfold wrote. destruct (decide _) as [|_]; [done|]. split; [done|]. exists (ctxs ++ new).
  rewrite map_app. split; [done|]. split; [by rewrite Hbt, map_app|]. rewrite Hsm, Hlg, map_app. cbn [map].
  apply key_range_snoc; [| |done].
  - apply Forall_map. eapply Forall_impl; [apply (sublist_keys kept)|by intros x [? _]].
    transitivity (kept ++ [e]); [by apply sublist_inserts_r|done].
  - pose proof (sublist_keys _ Hsub) as Hk. apply Forall_app in Hk as [_ Hk]. apply Forall_inv in Hk. apply Hk.
Qed.

Lemma paused_bitmap w j : paused w j -> use_bitmap_ j = use_bitmap opts.
Proof. intros Hp. unfold use_bitmap_. by rewrite (pa_gc _ _ Hp). Qed.

(** An entry that the LSM tree refers to makes every other one of its key dead. *)
Lemma found_covers tr kept e i :
  e ∈ E -> points tr (key e.1) i -> BlobIndex_eqb e.2 i = true ->
  covered tr (filter (fun e' => key e'.1 = key e.1) E) (kept ++ [e]).
Proof.
  intros He Hp Hi e' [Hk He']%list_elem_of_filter. destruct (BlobIndex_eqb e'.2 i) eqn:Ei.
  - right. apply elem_of_app. right. apply list_elem_of_singleton. symmetry. apply (eo_unique HE); [done..|].
    apply BlobIndex_eqb_trans with i; [done|]. by rewrite BlobIndex_eqb_sym.
  - left. intros i' (v' & Hv' & Hr'). destruct Hp as (v & Hv & Hr). rewrite Hk, Hv in Hv'. injection Hv' as <-.
    rewrite Hr in Hr'. by injection Hr' as <-.
Qed.

Lemma covered_kept tr don kept e : covered tr don kept -> covered tr don (kept ++ [e]).
Proof. intros Hc x Hx. destruct (Hc x Hx); [by left|right; by apply elem_of_app; left]. Qed.

Lemma covered_snoc tr don kept e :
  covered tr don kept -> dead tr e \/ e ∈ kept -> covered tr (don ++ [e]) kept.
Proof. intros Hc He x [Hx| ->%list_elem_of_singleton]%elem_of_app; [by apply Hc|done]. Qed.

Lemma in_all don e : sublist don E -> e ∈ don -> e ∈ E.
Proof. intros Hs He. eapply elem_of_submseteq; [exact He|by apply sublist_submseteq]. Qed.

(** The LSM tree has moved on, the run has not. *)
Lemma looping_moved don kept r w j :
  looping don kept r -> (forall e, e ∈ don -> e ∈ E) -> rtc (tick env) (moment (world r)) (moment w) -> paused w j ->
  rewrite_batches_ j = rewrite_batches_ (job r) ->
  looping don kept (mkRun w j (out r) (file_size r) (last_key r) (last_key_is_fresh r)).
Proof.
  intros [Hp Hsz Hks Hw Hc Hm Hf] Hdon Hl Hp' Hb. split; cbn; [done|done|done|by rewrite Hb| | |].
  - by apply (covered_passed (moment (world r)) (moment w)).
  - intros Hu. apply (covered_passed (moment (world r)) (moment w)); [|done|by apply Hm]. by intros x [_ ?]%list_elem_of_filter.
  - intros Hfr Hk. apply (covered_passed (moment (world r)) (moment w)); [|done|by apply Hf]. by intros x [_ ?]%list_elem_of_filter.
Qed.

(** An entry is kept. *)
Lemma keep_entry_spec r don kept e fresh :
  sublist (don ++ [e]) E -> looping don kept r -> last_key r = key e.1 ->
  (fresh = true -> covered (lsm (world r)) (filter (fun e' => key e'.1 = key e.1) E) (kept ++ [e])) ->
  let r2 := mkRun (world r) (job r) (out r) (file_size r) (last_key r) fresh in
  exists s r',
    (if decide (blob_run_mode (titan_cf_options_ (blob_gc_ (job r2))) = mode_kFallback) then
       batches ← add_batch (key e.1) (mkLsm false (value e.1)) e.2 BlobIndex_default (rewrite_batches_ (job r2));
       Some (OK, set_job r2 (set_batches (job r2) batches))
     else rewrite_entry env t copts r2 e.1 e.2) = Some (s, r') /\ paused (world r') (job r') /\
    (s = OK -> looping (don ++ [e]) (kept ++ [e]) r').
Proof.
  intros Hsub [Hp Hsz Hks Hw Hc Hm _] Hlk Hfresh r2.
  assert (forall x, x ∈ don -> x ∈ E) as Hdon by (intros x Hx; apply (in_all _ _ Hsub), elem_of_app; by left).
  assert (e ∈ E) as HeE by (apply (in_all _ _ Hsub), elem_of_app; right; apply list_elem_of_here).
  assert (sublist (kept ++ [e]) E) as Hks1 by (transitivity (don ++ [e]); [by apply sublist_app|done]).
  assert (forall tr, covered tr don kept -> covered tr (don ++ [e]) (kept ++ [e])) as Hsnoc.
  { intros tr Htr. apply covered_snoc; [by apply covered_kept|right]. apply elem_of_app. right. apply list_elem_of_here. }
  cbn [job r2]. rewrite (pa_gc _ _ Hp). destruct (decide _) as [Hmode|Hmode].
  - unfold add_batch. pose proof (sublist_keys _ Hks1) as Hk. apply Forall_app in Hk as [_ Hk]. apply Forall_inv in Hk.
    rewrite bool_decide_eq_false_2 by apply Hk. cbn [negb assert mbind option_bind].
    eexists OK, _. split; [reflexivity|]. split; [by apply paused_batches|]. intros _.
    split; cbn; [by apply paused_batches|done|by apply sublist_app| |by apply Hsnoc|done|].
    + unfold wrote in *. destruct (decide _); [|done]. destruct Hw as [-> Hb]. split; [done|].
      rewrite map_app. cbn. by rewrite <- Hb.
    + intros Hf _. rewrite Hlk. by apply Hfresh.
  - destruct (rewrite_entry_spec r2 kept e Hmode Hp Hsz Hw Hks1) as (s & r3 & Hre & Hp3 & Hok).
    exists s, r3. split; [exact Hre|]. split; [done|]. intros Hs3. destruct (Hok Hs3) as (Hl3 & Hsz3 & Hlk3 & Hfr3 & Hw3).
    change (moment (world r2)) with (moment (world r)) in Hl3.
    split; [done|done|by apply sublist_app|done| | |].
    + apply (covered_passed (moment (world r)) (moment (world r3))); [|exact Hl3|by apply Hsnoc].
      intros e' [He'| ->%list_elem_of_singleton]%elem_of_app; [by apply Hdon|done].
    + intros Hu. apply (covered_passed (moment (world r)) (moment (world r3))); [|exact Hl3|by apply Hm].
      by intros x [_ ?]%list_elem_of_filter.
    + intros Hf _. rewrite Hlk3. change (last_key r2) with (last_key r). rewrite Hlk.
      apply (covered_passed (moment (world r)) (moment (world r3))); [by intros x [_ ?]%list_elem_of_filter|exact Hl3|].
      apply Hfresh. change (last_key_is_fresh r2 = true). by rewrite <- Hfr3.
Qed.

(** An entry that is dead is dropped. *)
Lemma drop_entry_spec r don kept e m :
  sublist (don ++ [e]) E -> looping don kept r -> dead (lsm (world r)) e ->
  looping (don ++ [e]) kept (set_job r (set_metrics (job r) m)).
Proof.
  intros Hsub [Hp Hsz Hks Hw Hc Hm Hf] Hd. split; cbn; [by apply paused_metrics|done|by apply sublist_inserts_r|done| |done|done].
  apply covered_snoc; [done|by left].
Qed.

(** What the bitmap of the current file says. *)
Lemma ValidateByBitMap_spec it e :
  use_bitmap opts = true -> e ∈ E -> GetBlobIndex it = e.2 -> bitmap_ it = bits (it_file_number_ it) ->
  ValidateByBitMap it = Some (negb (marked_invalid e)).
Proof.
  intros Hu He Hx Hb. destruct (Hbits Hu e He) as (bm & Hbm & Hwf & Hi). unfold ValidateByBitMap, marked_invalid.
  rewrite <- Hx in Hbm, Hi |- *. cbn [file_number blob_handle index GetBlobIndex] in *. rewrite Hb, Hbm. cbn [mbind option_bind].
  rewrite GetBit_spec by done. cbn [mbind option_bind assert ok]. by destruct (get bm _).
Qed.

(** A record whose key is not the one handled just before. *)
Lemma consider_entry_spec it r don kept e :
  (use_bitmap opts = true -> ValidateByBitMap it = Some (negb (marked_invalid e))) ->
  sublist (don ++ [e]) E -> looping don kept r -> last_key r = key e.1 -> last_key_is_fresh r = false ->
  exists s r', consider_entry env t copts it e.1 e.2 r = Some (s, r') /\ paused (world r') (job r') /\
    (s = OK -> exists kept', looping (don ++ [e]) kept' r').
Proof.
  intros Hval Hsub Hloop Hlk Hfr. pose proof (lp_paused _ _ _ Hloop) as Hp. unfold consider_entry. rewrite (paused_bitmap _ _ Hp).
  assert (e ∈ E) as HeE by (apply (in_all _ _ Hsub), elem_of_app; right; apply list_elem_of_here).
  assert (forall x, x ∈ don -> x ∈ E) as Hdon by (intros x Hx; apply (in_all _ _ Hsub), elem_of_app; by left).
  destruct (use_bitmap opts) eqn:Hu.
  - rewrite Hval by done. cbn [mbind option_bind ok negb]. destruct (marked_invalid e) eqn:Em; cbn [negb].
    + eexists OK, _. split; [reflexivity|]. split; [by apply paused_metrics|]. intros _. exists kept.
      apply drop_entry_spec; [done|done|]. destruct (lp_marked _ _ _ Hloop Hu e) as [Hd|Hd]; [by apply list_elem_of_filter|done|].
      by apply elem_of_nil in Hd.
    + rewrite (paused_bitmap _ _ Hp), Hu. destruct (keep_entry_spec r don kept e false Hsub Hloop Hlk ltac:(done)) as (s & r' & Hk & Hp' & Hok).
      destruct r as [wr jr o fs lk fr]. cbn [world job out file_size last_key last_key_is_fresh] in *. subst fr.
      exists s, r'. split; [exact Hk|]. split; [done|]. intros Hs. exists (kept ++ [e]). by apply Hok.
  - destruct (DiscardEntry env (world r) (metrics_ (job r)) (key e.1) e.2) as [[[s d] w] m] eqn:Ed.
    destruct e as [rec x]. cbn [fst snd] in *.
    destruct (DiscardEntry_spec env _ _ _ _ _ _ _ _ (so_errors Henv) Ed) as (Hl & Hsf & Hdead & Hfound).
    assert (paused w (set_metrics (job r) m)) as Hp1.
    { apply paused_metrics. eapply paused_world; [exact Hp|by apply rtc_once|exact Hsf]. }
    pose proof (looping_moved don kept r w _ Hloop Hdon (rtc_once _ _ Hl) Hp1 eq_refl) as Hloop1.
    cbn [mbind option_bind]. destruct (decide (s = OK)) as [->|Hs].
    2:{ replace (negb (ok s)) with true by by destruct s. eexists s, _. split; [reflexivity|]. by split. }
    cbn [ok negb]. destruct d.
    + eexists OK, _. split; [reflexivity|]. split; [by apply paused_metrics|]. intros _. exists kept.
      apply (drop_entry_spec _ don kept (rec, x)); [done|done|by apply Hdead].
    + destruct (Hfound eq_refl eq_refl) as (i & Hpt & Hi). cbn [job]. rewrite (paused_bitmap _ _ Hp1), Hu.
      destruct (keep_entry_spec _ don kept (rec, x) true Hsub Hloop1 Hlk) as (s & r' & Hk & Hp' & Hok).
      { intros _. by apply (found_covers (lsm w) kept (rec, x) i). }
      exists s, r'. split; [exact Hk|]. split; [done|]. intros Hs. exists (kept ++ [(rec, x)]). by apply Hok.
Qed.

Lemma gc_entry_spec m it r don kept e :
  merge_iter m = Some it -> cur_blob_record_ it = e.1 -> GetBlobIndex it = e.2 ->
  (use_bitmap opts = true -> bitmap_ it = bits (it_file_number_ it)) ->
  sublist (don ++ [e]) E -> looping don kept r ->
  exists s r', gc_entry env t copts m r = Some (s, r') /\ paused (world r') (job r') /\
    (s = OK -> exists kept', looping (don ++ [e]) kept' r').
Proof.
  intros Hm Hr Hx Hbm Hsub Hloop. pose proof Hloop as [Hp Hsz Hks Hw Hc Hmk Hf]. unfold gc_entry.
  assert (e ∈ E) as HeE by (apply (in_all _ _ Hsub), elem_of_app; right; apply list_elem_of_here).
  assert (use_bitmap opts = true -> ValidateByBitMap it = Some (negb (marked_invalid e))) as Hval
    by (intros Hu; apply ValidateByBitMap_spec; [done|done|done|by apply Hbm]).
  destruct (shuting_down_ env _); [by exists ShutdownInProgress, r|]. rewrite Hm. cbn [mbind option_bind]. rewrite Hr, Hx.
  set (r1 := set_job r _). cbv zeta.
  assert (looping don kept r1) as Hloop1 by (split; cbn; [by apply paused_metrics|done..]).
  destruct (negb (bool_decide (last_key r1 = [])) && bool_decide (key e.1 = last_key r1)) eqn:Es; cbn [andb].
  - apply andb_prop in Es as [Hne Heq]. apply negb_true_iff, bool_decide_eq_false in Hne. apply bool_decide_eq_true in Heq.
    destruct (last_key_is_fresh r1) eqn:Efr.
    + eexists OK, r1. split; [reflexivity|]. split; [by apply paused_metrics|]. intros _. exists kept.
      destruct Hloop1 as [Hp1 Hsz1 Hks1 Hw1 Hc1 Hmk1 Hf1]. split; [done..|by apply sublist_inserts_r|done| |done|done].
      apply covered_snoc; [done|]. apply Hf1; [done|done|]. by apply list_elem_of_filter.
    + by apply consider_entry_spec with kept.
  - apply consider_entry_spec with kept; [done|done| |done|done]. destruct Hloop1. by split.
Qed.

Lemma merge_Valid_status m : merge_Valid m = true -> merge_status m = OK /\ exists it, merge_iter m = Some it.
Proof.
  unfold merge_Valid. destruct (merge_iter m) as [it|] eqn:Ei; [|done]. intros [[Hs _]%andb_prop _]%andb_prop.
  split; [by destruct (merge_status m)|by exists it].
Qed.

(** Every iterator has the bitmap of its file. *)
Definition bitmaps_given (m : BlobFileMergeIterator) : Prop :=
  use_bitmap opts = true -> Forall (fun p => p.2 = bits p.1) (map label (blob_file_iterators_ m)).

Lemma bitmaps_given_current m it : bitmaps_given m -> merge_iter m = Some it ->
  use_bitmap opts = true -> bitmap_ it = bits (it_file_number_ it).
Proof.
  intros Hg Hi Hu. apply bind_Some in Hi as (c & _ & Hi). specialize (Hg Hu). rewrite Forall_map, Forall_lookup in Hg.
  exact (Hg c it Hi).
Qed.

Lemma gc_loop_spec fuel : forall m l m' r don kept,
  merge_drain fuel m = Some (l, m') -> merge_status m' = OK -> sublist (don ++ l) E -> looping don kept r -> bitmaps_given m ->
  exists s m1 r', gc_loop env t copts fuel m r = Some (s, m1, r') /\ merge_status m1 = OK /\
    paused (world r') (job r') /\ (s = OK -> exists kept', looping (don ++ l) kept' r').
Proof.
  induction fuel as [|fuel IH]; intros m l m' r don kept Hd Hs Hsub Hloop Hbm; cbn [merge_drain gc_loop] in *;
    (destruct (merge_Valid m) eqn:Hv; [|injection Hd as <- <-; rewrite app_nil_r; exists OK, m, r;
      split_and!; [done|done|apply Hloop|intros _; by exists kept]]); [done|].
  destruct (merge_Valid_status _ Hv) as (Hst & it & Hit). rewrite Hit in Hd. cbn [mbind option_bind] in Hd.
  destruct (merge_Next m) as [m2|] eqn:Hn; [|done]. cbn [mbind option_bind] in Hd.
  destruct (merge_drain fuel m2) as [[l2 m3]|] eqn:Hd2; [|done]. cbn [mbind option_bind] in Hd. injection Hd as <- <-.
  rewrite cons_middle, app_assoc in Hsub.
  destruct (gc_entry_spec m it r don kept (cur_blob_record_ it, GetBlobIndex it)) as (s & r' & -> & Hp & Hok);
    [done|done|done|by apply bitmaps_given_current with m| |done|].
  { etransitivity; [|exact Hsub]. by apply sublist_inserts_r. }
  cbn [mbind option_bind]. destruct (decide (s = OK)) as [->|Hne].
  2:{ replace (negb (ok s)) with true by by destruct s. by exists s, m, r'. }
  cbn [ok negb]. destruct (Hok eq_refl) as (kept' & Hloop'). cbn [mbind option_bind].
  destruct (IH m2 l2 m3 r' _ kept' Hd2 Hs Hsub Hloop') as (s & m1 & r1 & Hg & Hst1 & Hp1 & Hok1).
  { intros Hu. rewrite (merge_Next_labels _ _ Hn). by apply Hbm. }
  exists s, m1, r1. split; [exact Hg|]. split; [done|]. split; [done|]. by rewrite cons_middle, app_assoc.
Qed.

(** ** The whole run *)

(** What the job keeps, whatever it has built. *)
Record stopped (w : World) (j : BlobGCJob) : Prop := {
  st_gc : blob_gc_ j = blob_gc_ j0;
  st_inputs : inputs j = inputs j0;
  st_cf : cf_id j = cf_id j0;
  st_offload : gc_offload_ j = gc_offload_ j0;
  st_free : mutex_held w = false;
  st_good : good (blob_file_set_ w) (disk w);
  st_later : later (moment w) }.

Lemma paused_stopped w j : paused w j -> stopped w j.
Proof. by intros []. Qed.

(** The builders and the batches of a run that kept these entries. *)
Definition collected (j : BlobGCJob) (kept : list Entry) : Prop :=
  if decide (blob_run_mode opts = mode_kFallback)
  then blob_file_builders_ j = [] /\ rewrite_batches_ j = map inline_batch kept
  else (kept = [] /\ blob_file_builders_ j = [] /\ rewrite_batches_ j = []) \/
    exists n b ctxs, blob_file_builders_ j = [(n, b)] /\ out_number n /\
      building t copts kVersion2 (map (kept_op n) kept) b ctxs /\ rewrite_batches_ j = map ctx_batch ctxs /\
      key_range (BlobFileBuilder.smallest_key_ b) (BlobFileBuilder.largest_key_ b) (map fst kept).

(** The metadata of an input, and the file that is opened for it. *)
Definition input_of (f : BlobFileMeta) (g : gc_input) : Prop :=
  file_number_ f = in_number g /\ file_size_ f = zlen (in_contents g) /\
  NewBlobFileReader env (in_number g) = Ret (stored (in_contents g) (in_id g)).

Lemma open_inputs_spec garbage o fs gs :
  Forall2 input_of fs gs -> open_inputs env garbage o fs = (OK, map (in_iterator garbage o) gs).
Proof.
  induction 1 as [|f g fs gs (Hn & Hz & Hr) _ IH]; [done|]. cbn [open_inputs map].
  rewrite Hn, Hr, IH. unfold in_iterator. by rewrite Hz.
Qed.

Lemma merge_drain_mono n : forall n' m l m', merge_drain n m = Some (l, m') -> (n <= n')%nat ->
  merge_drain n' m = Some (l, m').
Proof.
  induction n as [|n IH]; intros [|n'] m l m' Hd Hle; cbn [merge_drain] in *; destruct (merge_Valid m); try done; [lia|].
  destruct (merge_iter m); [|done]. cbn [mbind option_bind] in *. destruct (merge_Next m) as [m1|]; [|done].
  cbn [mbind option_bind] in *. destruct (merge_drain n m1) as [[l1 m2]|] eqn:Hd1; [|done].
  by rewrite (IH n' m1 l1 m2 Hd1) by lia.
Qed.

Lemma DoRunGC_drained fuel n garbage w0 w iters m m' :
  BuildIterator env garbage w0 j0 = Some (OK, Some (BlobFileMergeIterator_new iters), w) ->
  paused w j0 -> rewrite_batches_ j0 = [] -> bitmaps_given (BlobFileMergeIterator_new iters) ->
  (use_bitmap opts = true -> covered (lsm w) (filter (fun e => marked_invalid e = true) E) []) -> E <> [] ->
  merge_SeekToFirst (BlobFileMergeIterator_new iters) = Some m ->
  merge_drain n m = Some (E, m') -> merge_status m' = OK -> (n <= fuel)%nat ->
  exists s w' j, DoRunGC env t copts fuel garbage w0 j0 = Some (s, w', j) /\ stopped w' j /\
    (s = OK -> exists kept, sublist kept E /\ covered (lsm w') E kept /\ collected j kept).
Proof.
  intros Hbuild Hp Hb Hgiven Hmarked Hne Hseek Hd Hst Hfuel. apply (merge_drain_mono _ fuel) in Hd; [|done].
  assert (merge_Valid m = true) as Hv.
  { destruct fuel; cbn in Hd; destruct (merge_Valid m); try done; by injection Hd as <- _. }
  unfold DoRunGC. rewrite Hbuild. cbn [mbind option_bind ok negb]. rewrite Hseek. cbn [mbind option_bind]. rewrite Hv. cbn [assert mbind option_bind].
  set (r0 := mkRun w j0 None 0 [] false).
  assert (looping [] [] r0) as Hloop.
  { split; cbn; [done|done|constructor| |by intros e He%not_elem_of_nil|done|done].
    unfold wrote. destruct (decide _); by rewrite Hb. }
  destruct (gc_loop_spec fuel m E m' r0 [] [] Hd Hst (reflexivity _) Hloop) as (s & m1 & r1 & -> & Hst1 & Hp1 & Hok).
  { intros Hu. rewrite (merge_SeekToFirst_labels _ _ Hseek). by apply Hgiven. }
  cbn [mbind option_bind]. rewrite Hst1. cbn [ok andb negb]. destruct (decide (s = OK)) as [->|Hs].
  2:{ replace (ok s) with false by by destruct s. cbn [andb]. exists s, (world r1), (job r1).
      split_and!; [done|by apply paused_stopped|done]. }
  cbn [ok]. destruct (Hok eq_refl) as (kept & [Hp2 Hsz Hks Hw Hc _ _]). unfold wrote in Hw.
  assert (stopped (world r1) (job r1)) as Hs1 by by apply paused_stopped.
  destruct (decide _) as [Hmode|Hmode].
  - destruct Hw as [-> Hw]. exists OK, (world r1), (job r1). split_and!; [done..|]. intros _. exists kept.
    split_and!; [done..|]. unfold collected. destruct (decide _); [|done]. split; [apply Hp2|done].
  - destruct (out r1) as [[n1 b]|].
    + destruct Hw as (Hn & ctxs & Hbd & Hbt & Hkr). replace (ok (status_ b)) with true by by destruct Hbd.
      cbn [assert mbind option_bind]. eexists OK, (world r1), _. split; [reflexivity|].
      split; [by destruct Hs1|]. intros _. exists kept. split_and!; [done..|]. unfold collected.
      destruct (decide _); [done|]. right. exists n1, b, ctxs. cbn. rewrite (pa_builders _ _ Hp2). by split_and!.
    + destruct Hw as [-> Hbt]. exists OK, (world r1), (job r1). split_and!; [done..|]. intros _. exists [].
      split_and!; [done..|]. unfold collected. destruct (decide _); [done|]. left. split_and!; [done|apply Hp2|done].
Qed.
End Run.
