(* ===== verification/GCJobProofs.v ===== *)
(** * GCJobProofs: what a garbage collection does to the database

    The write-back of the new indexes: each write leaves what the user reads as
    it was, and afterwards the LSM tree refers to none of the records that the
    run has seen; the installation of the output file and the deletion of the
    inputs. *)
From S2P Require Import Prelude Coding Crc32c BitMap BlobFileMeta TitanStats Options VersionEdit BlobStorage BlobStorageProofs EditCollector EditCollectorProofs BlobFileSet BlobFileSetProofs GCPicker BlobFileBuilder BlobFileBuilderProofs BlobFileReader BlobFileIterator BlobFileIteratorProofs BlobFileMergeProofs BlobFileSpec GCJob GCJobRun BlobFormat.

Local Open Scope Z_scope.
Local Open Scope aegon_scope.

#[local] Abbreviation Entry := (BlobRecord * BlobIndex)%type.

(** ** What the user reads *)

Definition place (i : BlobIndex) : Z * Z := (file_number i, offset (blob_handle i)).

Lemma place_eqb x i : BlobIndex_eqb x i = true -> place x = place i.
Proof.
  unfold BlobIndex_eqb, BlobHandle_eqb, place. by intros [->%Z.eqb_eq [->%Z.eqb_eq _]%andb_prop]%andb_prop.
Qed.

Section View.
(** What the blob files hold, now and in the future: file numbers and offsets
    are not used twice. *)
Context (content : Z * Z -> option bytes).

Definition value_read (v : LsmValue) : option bytes :=
  if is_blob_index v then i ← refers v; content (place i) else Some (lsm_value v).

Definition view (tr : gmap bytes LsmValue) (k : bytes) : option bytes := v ← tr !! k; value_read v.

(** What the users put and delete at each moment. *)
Context (writes : nat -> gmap bytes (option bytes)).

Definition written (v : bytes -> option bytes) (n : nat) (k : bytes) : option bytes := default (v k) (writes n !! k).

(** From one moment to another the users' writes have taken place, in their
    order, and nothing else that can be read has changed. *)
Definition user_changed (p q : nat * gmap bytes LsmValue) : Prop :=
  (p.1 <= q.1)%nat /\ forall k, view q.2 k = foldl written (view p.2) (seq p.1 (q.1 - p.1)) k.

Definition users_write (env : Surroundings) : Prop :=
  forall n tr k, view (others_lsm env n tr) k = written (view tr) n k.

Lemma user_changed_same n tr tr' : (forall k, view tr' k = view tr k) -> user_changed (n, tr) (n, tr').
Proof. intros Hv. split; [done|]. cbn. rewrite Nat.sub_diag. exact Hv. Qed.

Lemma written_ext l : forall v v', (forall k, v k = v' k) -> forall k, foldl written v l k = foldl written v' l k.
Proof. induction l as [|n l IH]; intros v v' Hv k; cbn; [done|]. apply IH. intros k'. unfold written. by rewrite Hv. Qed.

Lemma user_changed_trans p q r : user_changed p q -> user_changed q r -> user_changed p r.
Proof.
  intros [Hle1 H1] [Hle2 H2]. split; [lia|]. intros k.
  replace (r.1 - p.1)%nat with (q.1 - p.1 + (r.1 - q.1))%nat by lia.
  rewrite seq_app, foldl_app, Nat.add_comm, Nat.sub_add, H2 by done. by apply written_ext.
Qed.

Lemma user_changed_tick env p q : users_write env -> tick env p q -> user_changed p q.
Proof.
  intros Hu ->. split; cbn; [lia|]. intros k. replace (S p.1 - p.1)%nat with 1%nat by lia. cbn. apply Hu.
Qed.

Lemma user_changed_passed env p q : users_write env -> rtc (tick env) p q -> user_changed p q.
Proof.
  intros Hu. induction 1 as [[n tr]|p q r Ht _ IH]; [by apply user_changed_same|].
  eapply user_changed_trans; [by apply (user_changed_tick env)|done].
Qed.

(** ** Writing back *)

Context (env : Surroundings) (files : gset Z) (E : list Entry).

(** The references to the input files are to their records, by their keys. *)
Definition sound (tr : gmap bytes LsmValue) : Prop :=
  forall k i, points tr k i -> file_number i ∈ files ->
    exists e, e ∈ E /\ key e.1 = k /\ BlobIndex_eqb e.2 i = true.

(** A batch that replaces an entry by something that reads the same. *)
Definition replaces (b : RewriteBatch) (e : Entry) : Prop :=
  rb_key b = key e.1 /\ blob_index_ b = e.2 /\ value_read (rb_put b) = Some (value e.1) /\
  (forall i, refers (rb_put b) = Some i -> file_number i ∉ files).

Definition stored_entries : Prop := forall e, e ∈ E -> content (place e.2) = Some (value e.1).

Context (Hentries : Forall (fun e => file_number e.2 ∈ files) E) (Hstored : stored_entries).
Context (Herrors : plain_errors env) (Hrefs : no_new_references env files).
Context (Husers : users_write env).

Lemma sound_others n tr : sound tr -> sound (others_lsm env n tr).
Proof.
  intros Hs k i Hp Hf. apply Hs; [|done]. destruct Hp as (v & Hv & Hr). exists v. split; [|done].
  rewrite <- Hv. symmetry. apply (Hrefs n tr k i); [by exists v|done].
Qed.

Lemma sound_passed p q : rtc (tick env) p q -> sound p.2 -> sound q.2.
Proof. induction 1 as [|p q q' -> _ IH]; [done|]. intros Hs. by apply IH, sound_others. Qed.

Lemma entry_file e : e ∈ E -> file_number e.2 ∈ files.
Proof. pose proof Hentries as Hf. rewrite Forall_forall in Hf. apply Hf. Qed.

(** Replacing a record that the LSM tree refers to. *)
Lemma replace_view tr b e i :
  replaces b e -> e ∈ E -> points tr (key e.1) i -> BlobIndex_eqb e.2 i = true ->
  forall k, view (<[rb_key b := rb_put b]> tr) k = view tr k.
Proof.
  intros (Hk & _ & Hv & _) He (v & Hl & Hr) Hi k. unfold view. destruct (decide (rb_key b = k)) as [<-|Hne].
  - rewrite (lookup_insert_eq (M := gmap bytes)). cbn [mbind option_bind]. rewrite Hv, Hk, Hl. cbn [mbind option_bind].
    unfold value_read. assert (is_blob_index v = true) as -> by (unfold refers in Hr; by destruct (is_blob_index v)).
    rewrite Hr. cbn [mbind option_bind]. by rewrite <- (place_eqb _ _ Hi), Hstored.
  - by rewrite (lookup_insert_ne (M := gmap bytes)).
Qed.

Lemma replace_points tr b e k i :
  replaces b e -> points (<[rb_key b := rb_put b]> tr) k i -> file_number i ∈ files ->
  points tr k i /\ k <> key e.1.
Proof.
  intros (Hk & _ & _ & Hf) (v & Hl & Hr) Hin. apply (lookup_insert_Some (M := gmap bytes)) in Hl as [[<- <-]|[Hne Hl]].
  - by destruct (Hf i Hr).
  - split; [by exists v|]. congruence.
Qed.

Lemma replace_dead tr b e e' :
  replaces b e -> e' ∈ E -> dead tr e' \/ e' = e -> dead (<[rb_key b := rb_put b]> tr) e'.
Proof.
  intros Hb He' Hd i Hp. destruct (BlobIndex_eqb e'.2 i) eqn:Ei; [|done].
  pose proof (BlobIndex_eqb_number _ _ Ei) as Hn.
  destruct (replace_points tr b e (key e'.1) i Hb Hp) as [Hp' Hne]; [rewrite Hn; by apply entry_file|].
  destruct Hd as [Hd| ->]; [|done]. rewrite <- Ei. by apply Hd.
Qed.

Lemma replace_sound tr b e : replaces b e -> sound tr -> sound (<[rb_key b := rb_put b]> tr).
Proof.
  intros Hb Hs k i Hp Hf. destruct (replace_points tr b e k i Hb Hp Hf) as [Hp' _]. by apply Hs.
Qed.

(** What the callback decides. *)
Lemma Callback_spec tr error b e s n :
  error <> NotFound -> error <> Busy -> rb_key b = key e.1 -> blob_index_ b = e.2 -> Callback tr error b = (s, n) ->
  (s = OK -> exists i, points tr (key e.1) i /\ BlobIndex_eqb e.2 i = true) /\ (s = Busy -> dead tr e).
Proof.
  intros Hnf Hb Hk Hi. unfold Callback, get_at. rewrite Hk, Hi.
  destruct error; try done; cbn [ok negb]. 2-8: intros [= <- <-]; by split.
  destruct (tr !! key e.1) as [v|] eqn:Ev; cbn [ok negb andb].
  2:{ intros [= <- <-]. split; [done|]. intros _ i (v & Hv & _). by rewrite Ev in Hv. }
  change (bool_decide (OK = NotFound)) with false. cbn iota. destruct (is_blob_index v) eqn:Eb; cbn [negb ok].
  - destruct (BlobIndex_DecodeFrom BlobIndex_default (lsm_value v)) as [[i rest]|err] eqn:Ed.
    2:{ apply BlobIndex_DecodeFrom_fail in Ed as ->. intros [= <- <-]. by split. }
    assert (points tr (key e.1) i) as Hp by (exists v; split; [done|unfold refers; by rewrite Eb, Ed]).
    destruct (BlobIndex_eqb e.2 i) eqn:Ei; cbn [negb]; intros [= <- <-].
    + split; [intros _; by exists i|done].
    + split; [done|]. intros _ i' (v' & Hv' & Hr'). destruct Hp as (v1 & Hv1 & Hr1). rewrite Hv1 in Hv'. injection Hv' as <-.
      rewrite Hr1 in Hr'. by injection Hr' as <-.
  - intros [= <- <-]. split; [done|]. intros _ i (v' & Hv' & Hr'). rewrite Ev in Hv'. injection Hv' as <-.
    unfold refers in Hr'. by rewrite Eb in Hr'.
Qed.

Lemma WriteWithCallback_spec w b e s n w' :
  replaces b e -> WriteWithCallback env w b = (s, n, w') ->
  same_files w w' /\ clock w' = S (clock w) /\
  ((s = OK /\ lsm w' = <[rb_key b := rb_put b]> (others_lsm env (clock w) (lsm w)) /\
    exists i, points (others_lsm env (clock w) (lsm w)) (key e.1) i /\ BlobIndex_eqb e.2 i = true) \/
   (s <> OK /\ lsm w' = others_lsm env (clock w) (lsm w) /\ (s = Busy -> dead (lsm w') e))).
Proof.
  intros (Hk & Hi & _). unfold WriteWithCallback. set (tr := others_lsm env (clock w) (lsm w)).
  destruct (Callback tr (read_error env (clock w)) b) as [s1 n1] eqn:Ec.
  destruct (Herrors (clock w)) as (Hnf & Hb & Hwb).
  destruct (Callback_spec tr _ b e s1 n1 Hnf Hb Hk Hi Ec) as [Hok Hbusy].
  destruct (decide (s1 = OK)) as [->|Hs1]; cbn [ok negb].
  - destruct (decide (write_error env (clock w) = OK)) as [->|Hw]; cbn [ok negb].
    + intros [= <- <- <-]. split; [done|]. split; [done|]. left. split_and!; [done|done|by apply Hok].
    + replace (negb (ok _)) with true by by destruct (write_error env (clock w)).
      intros [= <- <- <-]. split; [done|]. split; [done|]. right. split_and!; [done|done|]. intros Hwb'. by destruct Hwb.
  - replace (negb (ok s1)) with true by by destruct s1. intros [= <- <- <-]. split; [done|]. split; [done|]. right. by split_and!.
Qed.

Lemma same_files_trans w1 w2 w3 : same_files w1 w2 -> same_files w2 w3 -> same_files w1 w3.
Proof. intros (? & ? & ? & ? & ?) (? & ? & ? & ? & ?). split_and!; congruence. Qed.

(** What the loop leaves. *)
Definition rewritten (w w' : World) (es : list Entry) (s : Status) : Prop :=
  same_files w w' /\ user_changed (moment w) (moment w') /\ sound (lsm w') /\
  (forall e, e ∈ E -> dead (lsm w) e -> dead (lsm w') e) /\
  (s = OK \/ s = Busy -> forall e, e ∈ es -> dead (lsm w') e).

Lemma rewrite_loop_spec bs : forall es s w j d,
  Forall2 replaces bs es -> Forall (fun e => e ∈ E) es -> gc_offload_ j = false -> sound (lsm w) ->
  exists s' w' m d', rewrite_loop env bs s w j d = (s', w', set_metrics j m, d') /\ rewritten w w' es s'.
Proof.
  induction bs as [|b bs IH]; intros es s w j d Hbs Hes Hoff Hsnd.
  - apply Forall2_nil_inv_l in Hbs as ->. exists s, w, (metrics_ j), d. split; [by destruct j|].
    split_and!; [done|by apply user_changed_same|done|done|]. by intros _ e ?%not_elem_of_nil.
  - apply Forall2_cons_inv_l in Hbs as (e & es' & Hb & Hbs & ->). apply Forall_cons in Hes as [He Hes].
    cbn [rewrite_loop]. destruct (IsDropped env (clock w)).
    { exists Aborted, w, (metrics_ j), d. split; [by destruct j|]. split_and!; [done|by apply user_changed_same|done|done|by intros []]. }
    destruct (shuting_down_ env (clock w)).
    { exists ShutdownInProgress, w, (metrics_ j), d. split; [by destruct j|].
      split_and!; [done|by apply user_changed_same|done|done|by intros []]. }
    rewrite Hoff. destruct (WriteWithCallback env w b) as [[s1 n1] w1] eqn:Ew.
    set (tr := others_lsm env (clock w) (lsm w)).
    destruct (WriteWithCallback_spec w b e s1 n1 w1 Hb Ew) as (Hsf & Hclk & Hcase).
    assert (rewritten w w1 [e] s1) as Hstep.
    { assert (forall e', e' ∈ E -> dead (lsm w) e' -> dead tr e') as Hdo.
      { intros e' He' Hd. apply (dead_others env files); [done|by apply entry_file|done]. }
      assert (user_changed (moment w) (clock w1, tr)) as Hu by (rewrite Hclk; by apply (user_changed_tick env)). pose proof (sound_others (clock w) _ Hsnd) as Hso. fold tr in Hso.
      unfold rewritten, moment at 2. destruct Hcase as [(-> & -> & i & Hp & Hi)|(Hs1 & -> & Hbusy)].
      - split_and!; [done| | | |].
        + eapply user_changed_trans; [exact Hu|]. apply user_changed_same. by apply (replace_view tr b e i).
        + by apply (replace_sound tr b e).
        + intros e' He' Hd. apply (replace_dead tr b e); [done|done|left; by apply Hdo].
        + intros _ e' ->%list_elem_of_singleton. apply (replace_dead tr b e); [done|done|by right].
      - split_and!; [done|done|done|done|]. intros [->| ->] e' ->%list_elem_of_singleton; [done|by apply Hbusy]. }
    destruct Hstep as (_ & Hu1 & Hs1 & Hd1 & He1).
    assert (forall d' m, s1 = OK \/ s1 = Busy -> exists s' w' m' d'',
      rewrite_loop env bs s1 w1 (set_metrics j m) d' = (s', w', set_metrics j m', d'') /\ rewritten w w' (e :: es') s') as Hgo.
    { intros d' m Hs. destruct (IH es' s1 w1 (set_metrics j m) d' Hbs Hes Hoff Hs1)
        as (s' & w' & m' & d'' & Hr & Hsf' & Hu' & Hs' & Hd' & He').
      exists s', w', m', d''. split; [exact Hr|]. split_and!.
      - by eapply same_files_trans.
      - by eapply user_changed_trans.
      - done.
      - intros x Hx Hd. apply Hd'; [done|]. by apply Hd1.
      - intros Hfin x [->|Hx]%elem_of_cons; [|by apply He']. apply Hd'; [done|].
        apply He1; [done|]. apply list_elem_of_here. }
    destruct (decide (s1 = OK)) as [->|Hs1ok]; cbn [ok]; [apply Hgo; by left|].
    replace (ok s1) with false by by destruct s1. destruct (bool_decide_reflect (s1 = Busy)) as [->|Hnb]; [apply Hgo; by right|].
    exists s1, w1, (metrics_ (set_metrics j (count_files (metrics_ j) 0 0 1))), d. split; [done|].
    split_and!; [done..|]. by intros [].
Qed.
End View.

(** Whatever the batches are, only metrics, the dropped records and the LSM tree change. *)
Lemma rewrite_loop_frame env bs : forall s w j d, exists s' w' m d',
  rewrite_loop env bs s w j d = (s', w', set_metrics j m, d') /\ same_files w w'.
Proof.
  induction bs as [|b bs IH]; intros s w j d; cbn [rewrite_loop]; [by exists s, w, (metrics_ j), d; destruct j|].
  destruct (IsDropped env (clock w)); [by exists Aborted, w, (metrics_ j), d; destruct j|].
  destruct (shuting_down_ env (clock w)); [by exists ShutdownInProgress, w, (metrics_ j), d; destruct j|].
  destruct (if gc_offload_ j then DB_Write env w b else WriteWithCallback env w b) as [[s1 n1] w1] eqn:Ew.
  assert (same_files w w1) as Hw.
  { destruct (gc_offload_ j); revert Ew; unfold DB_Write, WriteWithCallback; [|destruct (Callback _ _ _) as [s2 n2], (ok s2); cbn];
      try destruct (negb _); by intros [= _ _ <-]. }
  assert (forall m d', exists s' w' m' d'',
    rewrite_loop env bs s1 w1 (set_metrics j m) d' = (s', w', set_metrics j m', d'') /\ same_files w w') as Hgo.
  { intros m d'. destruct (IH s1 w1 (set_metrics j m) d') as (s' & w' & m' & d'' & Hr & Hw'). exists s', w', m', d''.
    split; [exact Hr|by eapply same_files_trans]. }
  destruct (ok s1); [apply Hgo|]. destruct (bool_decide _); [apply Hgo|].
  by exists s1, w1, (metrics_ (set_metrics j (count_files (metrics_ j) 0 0 1))), d.
Qed.

(** ** Sizes of dropped records *)

Definition batches_size (bs : list RewriteBatch) : Z := foldr Z.add 0 (map (fun b => size (blob_handle (new_blob_index_ b))) bs).

Definition sizes_ok (bs : list RewriteBatch) : Prop := Forall (fun b => 0 <= size (blob_handle (new_blob_index_ b))) bs.

Definition dropped_within (d : Dropped) (bound : Z) : Prop :=
  forall n v, dropped d !! n = Some v -> 0 <= v <= bound.

Lemma batches_size_nonneg bs : sizes_ok bs -> 0 <= batches_size bs.
Proof. unfold batches_size. induction 1; cbn; [done|lia]. Qed.

Lemma dropped_within_mono d x y : dropped_within d x -> x <= y -> dropped_within d y.
Proof. intros Hd Hle n v Hv. specialize (Hd n v Hv). lia. Qed.

Lemma drop_record_within bitmap d i bound :
  dropped_within d bound -> 0 <= bound -> 0 <= size (blob_handle i) -> bound + size (blob_handle i) < 2 ^ 63 ->
  dropped_within (drop_record bitmap d i) (bound + size (blob_handle i)).
Proof.
  intros Hd Hb Hs Hlt n v Hv. cbn in Hv. apply lookup_insert_Some in Hv as [[<- <-]|[_ Hv]].
  2:{ specialize (Hd n v Hv). lia. }
  assert (0 <= default 0 (dropped d !! file_number i) <= bound) as Hdef.
  { destruct (dropped d !! file_number i) eqn:E; cbn; [by apply (Hd _ _ E)|lia]. }
  rewrite u64_small by (unfold is_u64; lia). lia.
Qed.

Lemma rewrite_loop_dropped env bs : forall s w j d bound s' w' j' d',
  rewrite_loop env bs s w j d = (s', w', j', d') -> dropped_within d bound -> 0 <= bound -> sizes_ok bs ->
  bound + batches_size bs < 2 ^ 63 -> dropped_within d' (bound + batches_size bs).
Proof.
  induction bs as [|b bs IH]; intros s w j d bound s' w' j' d' Hr Hd Hb Hs Hlt; cbn [rewrite_loop] in Hr.
  - injection Hr as _ _ _ <-. eapply dropped_within_mono; [exact Hd|]. cbn. lia.
  - apply Forall_cons in Hs as [Hsb Hs]. unfold batches_size in *. cbn [map foldr] in *.
    pose proof (batches_size_nonneg bs Hs) as Hn. unfold batches_size in Hn.
    set (sz := size (blob_handle (new_blob_index_ b))) in *.
    assert (dropped_within d (bound + (sz + foldr Z.add 0 (map (fun b => size (blob_handle (new_blob_index_ b))) bs)))) as Hstop
      by (eapply dropped_within_mono; [exact Hd|lia]).
    destruct (IsDropped env (clock w)); [by injection Hr as _ _ _ <-|].
    destruct (shuting_down_ env (clock w)); [by injection Hr as _ _ _ <-|].
    destruct (if gc_offload_ j then _ else _) as [[s1 n1] w1].
    destruct (ok s1); [|destruct (bool_decide (s1 = Busy)); [|by injection Hr as _ _ _ <-]].
    + eapply dropped_within_mono; [eapply (IH _ _ _ _ bound); [exact Hr|done|done|done|lia]|lia].
    + rewrite Z.add_assoc. eapply (IH _ _ _ _ (bound + sz)); [exact Hr|apply drop_record_within; [done..|lia]|lia|done|lia].
Qed.

(** ** The blob file set *)

Section Files.
Context `{C : Comparator} `{LC : !ComparatorLaws C}.
Context (env : Surroundings) (cf : Z) (nums : gset Z) (levels : Z) (keep : Prop).

(** These files are in the storage and not obsolete. *)
Definition inputs_live (s : BlobFileSet) : Prop :=
  forall b n, column_families_ s !! cf = Some b -> n ∈ nums ->
    exists m, files_ b !! n = Some m /\ is_obsolete m = false.

(** What the job needs of the blob file set at any time, and the input files if
    they are to be kept. *)
Record files_good (s : BlobFileSet) (d : Disk) : Prop := {
  fg_wf : set_wf s;
  fg_manifest : is_Some (manifest_ s);
  fg_next : 0 <= fs_next_file_number_ s < 2 ^ 64;
  fg_kept : keep -> inputs_live s;
  fg_inputs : forall n, n ∈ nums -> n < fs_next_file_number_ s;
  fg_storage : exists b, column_families_ s !! cf = Some b /\ levels <= zlen (levels_file_count_ b) /\
    forall n m, files_ b !! n = Some m -> 0 <= BlobFileMeta.live_data_size_ m < 2 ^ 63 }.

Definition new_file_ok (f : BlobFileMeta) : Prop :=
  is_obsolete f = false /\ 0 <= file_level_ f < levels /\ 0 <= BlobFileMeta.live_data_size_ f < 2 ^ 63.

Lemma collect_new_added_in e n m :
  cf_added_files_ (collect CFEditCollector_new e) !! n = Some m -> m ∈ added_files_ e.
Proof.
  rewrite collect_new. cbn. intros Hm. apply elem_of_list_to_map_2 in Hm. apply list_elem_of_fmap in Hm as (f & [= -> ->] & Hf). done.
Qed.

Lemma LogAndApply_good io s d e :
  files_good s d -> column_family_id_ e = cf -> (forall f, f ∈ added_files_ e -> new_file_ok f) ->
  (keep -> deleted_files_ e = []) ->
  exists st s' d', LogAndApply io s d e = Some (st, s', d') /\ files_good s' d' /\ (st <> OK -> s' = s) /\
    fs_next_file_number_ s' = fs_next_file_number_ s /\
    (st = OK -> exists b b', column_families_ s !! cf = Some b /\ column_families_ s' !! cf = Some b' /\
       storage_edited (collect CFEditCollector_new e) b b').
Proof.
  intros [Hwf [k Hk] Hn Hkept Hin (b & Hb & Hlv & Hlive)] He Hadd Hdel. rewrite <- He in Hb.
  destruct (LogAndApply_spec io s d e b k Hwf Hk (proj1 Hn) Hb) as [[_ ->]|[(_ & Ha & ->)|[(_ & _ & Ha & ->)|
    (_ & _ & _ & cfs' & st' & b' & -> & Hwf' & Hb' & Hed & Hoth)]]].
  { intros f Hf. destruct (Hadd f Hf) as (Ho & Hl & _). split; [done|]. split; [done|]. lia. }
  1-3: eexists _, _, _; (split; [reflexivity|]); (split; [split; [done|by exists k|done|done|done|exists b; by rewrite <- He]|]);
    (split; [done|]); (split; [done|]); intros Hc; first [done|by rewrite Hc in Ha].
  eexists _, _, _. split; [reflexivity|]. rewrite He in *. split.
  - destruct Hed as (Hf & _ & Hlv' & _). split; [done|by exists k|done| |done|].
    { intros Hkp b1 n Hb1 Hn1. cbn in Hb1. rewrite Hb' in Hb1. injection Hb1 as <-. destruct (Hkept Hkp b n Hb Hn1) as (m & Hm & Ho).
      rewrite Hf. unfold edited. rewrite collect_new. cbn. rewrite (Hdel Hkp). cbn. rewrite lookup_empty.
      case_match eqn:E1; [|by exists m]. apply elem_of_list_to_map_2, list_elem_of_fmap in E1 as (f & [= -> ->] & Hf1).
      eexists. split; [done|]. by apply Hadd. }
    exists b'. split; [done|]. split; [by rewrite Hlv'|].
    intros n m Hm. rewrite Hf in Hm. unfold edited in Hm.
    destruct (cf_added_files_ (collect CFEditCollector_new e) !! n) as [m1|] eqn:E1;
      destruct (cf_deleted_files_ (collect CFEditCollector_new e) !! n) as [sq|].
    + by apply (Hlive n).
    + injection Hm as <-. apply collect_new_added_in in E1. by apply Hadd.
    + apply fmap_Some in Hm as (m1 & Hm1 & ->). by apply (Hlive n m1).
    + by apply (Hlive n).
  - split; [done|]. split; [done|]. intros _. by exists b, b'.
Qed.

(** Losing records that were dropped. *)
Lemma update_live m x :
  0 <= BlobFileMeta.live_data_size_ m < 2 ^ 63 -> 0 <= x < 2 ^ 63 ->
  exists r m', UpdateLiveDataSize m (i64 (- x)) = Some (r, m') /\ same_file m m' /\ 0 <= BlobFileMeta.live_data_size_ m' < 2 ^ 63.
Proof.
  intros Hl Hx. assert (i64 (- x) = - x) as Hi.
  { unfold i64, u64. destruct (decide (x = 0)) as [->|Hne]; [done|].
    rewrite Z.mod_opp_l_nz by (rewrite ?Z.mod_small by lia; lia). rewrite Z.mod_small by lia.
    destruct (Z.ltb_spec (2 ^ 64 - x) (2 ^ 63)); lia. }
  assert (i64 (BlobFileMeta.live_data_size_ m) = BlobFileMeta.live_data_size_ m) as Hil.
  { unfold i64, u64. rewrite Z.mod_small by lia. by rewrite (proj2 (Z.ltb_lt _ _)) by lia. }
  unfold UpdateLiveDataSize. rewrite Hi, Hil.
  rewrite (proj2 (Z.leb_le _ _)), (proj2 (Z.ltb_lt (_ + _) (2 ^ 63))) by lia. cbn [andb assert mbind option_bind].
  destruct (Z.ltb_spec (BlobFileMeta.live_data_size_ m + - x) 0) as [Hneg|Hpos].
  - eexists _, _. split; [reflexivity|]. split; [by split_and!|]. cbn. lia.
  - eexists _, _. split; [reflexivity|]. split; [by split_and!|]. cbn. rewrite u64_small by (unfold is_u64; lia). lia.
Qed.

Lemma stats_ok_sub st x t v b : tracked t = None -> stats_ok st b -> stats_ok (SubStats st x t v) b.
Proof.
  intros Ht Hst t' g c Ht' Hc. rewrite SubStats_counter in Hc. rewrite decide_False in Hc by (intros [_ ->]; congruence).
  by apply (Hst t').
Qed.

Lemma stats_ok_add st x t v b : tracked t = None -> stats_ok st b -> stats_ok (AddStats st x t v) b.
Proof.
  intros Ht Hst t' g c Ht' Hc. rewrite AddStats_counter in Hc. rewrite decide_False in Hc by (intros [_ ->]; congruence).
  by apply (Hst t').
Qed.

(** The bitmaps that are needed when they are used: every file has a bit for
    each of its entries. *)
Definition bits_good (s : BlobFileSet) : Prop :=
  forall b n m, column_families_ s !! cf = Some b -> files_ b !! n = Some m -> bits_ok m.

(** The entries of a file of the storage. *)
Definition entries_at (s : BlobFileSet) (n : Z) : option Z :=
  column_families_ s !! cf ≫= fun b => file_entries_ <$> files_ b !! n.

(** The records that were dropped are records of the files. *)
Definition drops_fit (dr : Dropped) (s : BlobFileSet) : Prop :=
  forall n l N, dropped_index dr !! n = Some l -> entries_at s n = Some N -> Forall (fun i => 0 <= i <= N) l.

(** The states of the files in the storage. *)
Definition file_states (s : BlobFileSet) : option (gmap Z FileState) :=
  (fun b => state_ <$> files_ b) <$> column_families_ s !! cf.

Lemma entries_at_storage s b n : column_families_ s !! cf = Some b -> entries_at s n = file_entries_ <$> files_ b !! n.
Proof. unfold entries_at. by intros ->. Qed.

Lemma file_states_storage s b : column_families_ s !! cf = Some b -> file_states s = Some (state_ <$> files_ b).
Proof. unfold file_states. by intros ->. Qed.

(** Metadata that changes in its live size and its bitmap only. *)
Definition touched (m m' : BlobFileMeta) : Prop :=
  same_file m m' /\ state_ m' = state_ m /\ file_entries_ m' = file_entries_ m /\ (bits_ok m -> bits_ok m').

Lemma touched_good set d b n m m' st :
  files_good set d -> column_families_ set !! cf = Some b -> files_ b !! n = Some m -> touched m m' ->
  0 <= BlobFileMeta.live_data_size_ m' < 2 ^ 63 -> (forall b', stats_ok (fs_stats_ set) b' -> stats_ok st b') ->
  let set' := set_column_families set (<[cf := ComputeGCScore (update_file b n m')]> (column_families_ set)) st in
  files_good set' d /\ fs_next_file_number_ set' = fs_next_file_number_ set /\ file_states set' = file_states set /\
  (forall k, entries_at set' k = entries_at set k) /\ (bits_good set -> bits_good set').
Proof.
  intros [Hwf Hk Hn Hkept Hin (b0 & Hb & Hlv & Hlive)] Hb' Em (Hsame & Hs & He & Hbits) Hl' Hst2 set'.
  rewrite Hb' in Hb. injection Hb as <-. destruct (Hwf _ _ Hb') as (Hid & Hbw & Hst).
  destruct (update_file_wf _ _ _ _ _ Hbw (Hst2 _ Hst) Em Hsame) as [Hbw' Hst'].
  assert (column_families_ set' !! cf = Some (ComputeGCScore (update_file b n m'))) as Hcf by apply lookup_insert_eq.
  split; [split; [|done|done| |done|]|split; [done|]].
  - intros c x' Hc. cbn in Hc. apply lookup_insert_Some in Hc as [[<- <-]|[_ Hc]].
    + split; [done|]. split; [by apply ComputeGCScore_wf|]. exact Hst'.
    + destruct (Hwf _ _ Hc) as (? & ? & ?). split_and!; [done|done|by apply Hst2].
  - intros Hkp b1 n1 Hb1 Hn1. rewrite Hcf in Hb1. injection Hb1 as <-.
    destruct (Hkept Hkp b n1 Hb' Hn1) as (m1 & Hm1 & Ho). cbn. destruct (decide (n = n1)) as [<-|Hne].
    + rewrite lookup_insert_eq. rewrite Em in Hm1. injection Hm1 as <-. eexists. split; [done|].
      destruct Hsame as (_ & _ & _ & _ & Ho'). by rewrite Ho'.
    + rewrite lookup_insert_ne by done. by exists m1.
  - eexists. split; [exact Hcf|]. split; [exact Hlv|].
    intros n' m1 Hm1. cbn in Hm1. apply lookup_insert_Some in Hm1 as [[_ <-]|[_ Hm1]]; [done|by apply (Hlive n')].
  - assert (forall k, <[n := m']> (files_ b) !! k = Some m' /\ files_ b !! k = Some m \/ <[n := m']> (files_ b) !! k = files_ b !! k) as Hcase.
    { intros k. destruct (decide (n = k)) as [<-|Hne]; [left; by rewrite lookup_insert_eq|right; by rewrite lookup_insert_ne]. }
    split; [|split].
    + rewrite (file_states_storage _ _ Hcf), (file_states_storage _ _ Hb'). f_equal. apply map_eq. intros k.
      rewrite !lookup_fmap. cbn. by destruct (Hcase k) as [[-> ->]| ->]; cbn; rewrite ?Hs.
    + intros k. rewrite (entries_at_storage _ _ k Hcf), (entries_at_storage _ _ k Hb'). cbn.
      by destruct (Hcase k) as [[-> ->]| ->]; cbn; rewrite ?He.
    + intros Hbg b1 k m1 Hb1 Hm1. rewrite Hcf in Hb1. injection Hb1 as <-. cbn in Hm1.
      destruct (Hcase k) as [[Hx Hy]|Hx]; rewrite Hx in Hm1; [injection Hm1 as <-; apply Hbits|]; by apply (Hbg b k).
Qed.

Lemma mark_dropped_spec l : forall bm, BitMap_wf bm -> Forall (fun i => 0 <= i <= valid_bits_ bm) l ->
  exists bm', mark_dropped bm OK l = Some (OK, bm') /\ BitMap_wf bm' /\ valid_bits_ bm' = valid_bits_ bm.
Proof.
  induction l as [|i l IH]; intros bm Hwf Hl; [by exists bm|]. apply Forall_cons in Hl as [Hi Hl]. cbn [mark_dropped].
  destruct (SetBit_spec bm i 1 Hwf Hi ltac:(auto)) as (bm1 & -> & Hwf1 & Hv1 & _). cbn [mbind option_bind assert ok].
  destruct (IH bm1 Hwf1) as (bm' & -> & Hwf' & Hv'); [by rewrite Hv1|]. exists bm'. by rewrite Hv', Hv1.
Qed.

(** What dropping keeps, with and without bitmaps. *)
Definition dropped_good (u : bool) (set set' : BlobFileSet) (d : Disk) : Prop :=
  files_good set' d /\ fs_next_file_number_ set' = fs_next_file_number_ set /\ file_states set' = file_states set /\
  (forall k, entries_at set' k = entries_at set k) /\ (u = true -> bits_good set').

Lemma drop_file_good u dr set d n x :
  files_good set d -> 0 <= x < 2 ^ 63 -> (u = true -> bits_good set /\ drops_fit dr set) ->
  exists set', drop_file u cf dr set OK (n, x) = Some (set', OK) /\ dropped_good u set set' d.
Proof.
  intros Hg Hx Hu. pose proof Hg as [Hwf _ _ _ _ (b & Hb & _ & Hlive)]. unfold drop_file, GetBlobStorage. rewrite Hb.
  destruct (Hwf _ _ Hb) as (_ & Hbw & _). rewrite (FindFile_wf b n Hbw). cbn [mbind option_bind].
  assert (forall set', files_good set' d /\ fs_next_file_number_ set' = fs_next_file_number_ set /\ file_states set' = file_states set /\
    (forall k, entries_at set' k = entries_at set k) /\ (bits_good set -> bits_good set') -> dropped_good u set set' d) as Hdone.
  { intros set' (? & ? & ? & ? & Hb'). split_and!; [done..|]. intros Ht. by apply Hb', Hu. }
  destruct (files_ b !! n) as [m|] eqn:Em; [|exists set; split; [done|by apply Hdone]].
  destruct (update_live m x (Hlive _ _ Em) Hx) as (r & m' & Hup & Hsame & Hl').
  assert (state_ m' = state_ m /\ file_entries_ m' = file_entries_ m /\ invalid_entry_indexes_ m' = invalid_entry_indexes_ m) as (Hs & He & Hi).
  { unfold UpdateLiveDataSize in Hup. apply bind_Some in Hup as (a & _ & Hup). clear a. by destruct (_ <? 0); injection Hup as _ <-. }
  rewrite Hup. cbn [mbind option_bind].
  set (st1 := SubStats (fs_stats_ set) cf (GetDiscardableRatioLevel m) 1).
  set (st2 := AddStats st1 cf (GetDiscardableRatioLevel m') 1).
  assert (forall b', stats_ok (fs_stats_ set) b' -> stats_ok st2 b') as Hst2.
  { intros b' Hb'. apply stats_ok_add; [apply tracked_ratio|]. apply stats_ok_sub; [apply tracked_ratio|done]. }
  assert (bits_ok m -> bits_ok m') as Hbo by (unfold bits_ok; by rewrite Hi, He).
  destruct u.
  2:{ eexists. split; [reflexivity|]. apply Hdone. by apply (touched_good set d b n m m' st2). }
  destruct (Hu eq_refl) as [Hbits Hfit]. pose proof (Hbo (Hbits b n m Hb Em)) as Hb0.
  pose proof Hb0 as (bm0 & _ & (Hv & _) & Hbv).
  destruct (mark_dropped_spec (default [] (dropped_index dr !! n)) (BitMap_new (file_entries_ m'))) as (bm & -> & Hbw' & Hvb).
  { apply BitMap_new_wf. lia. }
  { destruct (dropped_index dr !! n) as [l|] eqn:El; [|constructor]. cbn [default valid_bits_ BitMap_new]. rewrite He.
    apply (Hfit n l _ El). by rewrite (entries_at_storage _ _ n Hb), Em. }
  cbn [mbind option_bind].
  destruct (UpdateInvalidEntryIndexes_spec m' bm Hb0 Hbw' Hvb) as (bm' & -> & Hb1 & _). cbn [mbind option_bind assert ok].
  eexists. split; [reflexivity|]. apply Hdone. apply (touched_good set d b n m (set_invalid m' bm') st2); try done.
Qed.

Lemma drop_files_good u dr d items : forall set,
  files_good set d -> Forall (fun it => 0 <= it.2 < 2 ^ 63) items -> (u = true -> bits_good set /\ drops_fit dr set) ->
  exists set', drop_files u cf dr set OK items = Some (set', OK) /\ dropped_good u set set' d.
Proof.
  induction items as [|[n x] items IH]; intros set Hg Hit Hu.
  { exists set. split; [done|]. split_and!; [done..|]. intros Ht. by apply Hu. }
  apply Forall_cons in Hit as [Hx Hit].
  destruct (drop_file_good u dr set d n x Hg Hx Hu) as (set1 & Hd & Hg1 & Hn1 & Hs1 & He1 & Hb1). cbn [drop_files]. rewrite Hd.
  cbn [mbind option_bind]. destruct (IH set1 Hg1 Hit) as (set' & -> & Hg' & Hn' & Hs' & He' & Hb').
  { intros Ht. split; [by apply Hb1|]. intros k l N Hl HN. rewrite He1 in HN. by apply (proj2 (Hu Ht) k). }
  exists set'. split; [done|]. split_and!; [done|by rewrite Hn'|by rewrite Hs'| |done]. intros k. by rewrite He'.
Qed.

(** The other threads keep all this, and use less than half the file numbers. *)
Definition others_good : Prop :=
  forall n s d, files_good s d -> let p := others_files env n (s, d) in
    files_good p.1 p.2 /\ fs_next_file_number_ p.1 < 2 ^ 63.

(** ... at a moment. *)
Definition others_keep (w : World) : Prop :=
  let p := others_files env (clock w) (blob_file_set_ w, disk w) in files_good p.1 p.2.

Lemma others_good_keep w : others_good -> files_good (blob_file_set_ w) (disk w) -> others_keep w.
Proof. intros Ho Hg. by apply Ho. Qed.

Lemma Lock_good w :
  mutex_held w = false -> others_keep w ->
  exists w', Lock env w = Some w' /\ rtc (tick env) (moment w) (moment w') /\ mutex_held w' = true /\ files_good (blob_file_set_ w') (disk w').
Proof.
  intros Hm Hg. unfold Lock. rewrite Hm. unfold others_keep in Hg. unfold others.
  destruct (others_files env (clock w) _) as [s1 d1]. eexists. split; [reflexivity|].
  split_and!; [by apply rtc_once|done..].
Qed.

Lemma numbers_good n s d : others_good -> files_good s d -> let p := others_files env n (s, d) in
  files_good p.1 p.2 /\ out_number nums (NewFileNumber p.1).1 /\ files_good (NewFileNumber p.1).2 p.2.
Proof.
  intros Hothers Hg p. destruct (Hothers n s d Hg) as [Hg1 Hn]. fold p in Hg1, Hn. split; [done|].
  destruct Hg1 as [Hwf Hk Hnx Hkept Hin Hst]. cbn. split; [split; [|unfold is_u64; lia]|].
  - intros Hi. specialize (Hin _ Hi). lia.
  - split; cbn; [done|done| |exact Hkept| |done].
    + rewrite u64_small by (unfold is_u64; lia). lia.
    + rewrite u64_small by (unfold is_u64; lia). intros m Hm. specialize (Hin m Hm). lia.
Qed.

(** ** Installing files *)

Lemma finish_files_spec files : forall e,
  column_family_id_ e = cf -> (forall f, f ∈ added_files_ e -> new_file_ok f) -> Forall new_file_ok files ->
  exists s e', finish_files env files e = (s, e') /\ column_family_id_ e' = cf /\ deleted_files_ e' = deleted_files_ e /\
    (forall f, f ∈ added_files_ e' -> new_file_ok f) /\ (s = OK -> added_files_ e' = added_files_ e ++ files).
Proof.
  induction files as [|f files IH]; intros e He Ha Hf; [exists OK, e; split_and!; [done..|by rewrite app_nil_r]|].
  apply Forall_cons in Hf as [Hf Hfs].
  cbn [finish_files]. set (s := if ok (Sync env (file_number_ f)) then _ else _).
  destruct (ok s) eqn:Es; cbn [negb]; [|exists s, e; split_and!; [done..|by intros ->]].
  destruct (IH (VersionEdit.AddBlobFile e f)) as (s' & e' & Hr & H1 & H2 & H3 & H4); [done| |done|].
  - intros x Hx. cbn in Hx. apply elem_of_app in Hx as [Hx| ->%list_elem_of_singleton]; [by apply Ha|done].
  - exists s', e'. split_and!; [done..|]. intros Hs. rewrite (H4 Hs). cbn. by rewrite <- app_assoc.
Qed.

(** The storage has these files. *)
Definition has_files (s : BlobFileSet) (files : list BlobFileMeta) : Prop :=
  exists b, column_families_ s !! cf = Some b /\ forall f, f ∈ files -> files_ b !! file_number_ f = Some f.

Lemma edited_added e b b' :
  deleted_files_ e = [] -> NoDup (map file_number_ (added_files_ e)) ->
  storage_edited (collect CFEditCollector_new e) b b' ->
  forall f, f ∈ added_files_ e -> files_ b' !! file_number_ f = Some f.
Proof.
  intros Hd Hn (Hf & _) f Hin. rewrite Hf. unfold edited. rewrite collect_new. cbn. rewrite Hd. cbn. rewrite lookup_empty.
  rewrite (elem_of_list_to_map_1 _ _ f); [done| |].
  - unfold by_number. by rewrite map_map.
  - apply list_elem_of_fmap. by exists f.
Qed.

Lemma BatchFinishFiles_spec w files :
  mutex_held w = false -> others_keep w -> files_good (blob_file_set_ w) (disk w) -> Forall new_file_ok files ->
  exists s w', BatchFinishFiles env w cf files = Some (s, w') /\ rtc (tick env) (moment w) (moment w') /\ mutex_held w' = false /\
    files_good (blob_file_set_ w') (disk w') /\
    (s = OK -> NoDup (map file_number_ files) -> has_files (blob_file_set_ w') files).
Proof.
  intros Hm Hk Hg Hf. unfold BatchFinishFiles.
  destruct (finish_files_spec files (SetColumnFamilyID VersionEdit_default cf)) as (s & e & -> & He & Hde & Ha & Hae); [done| |done|].
  { intros f Hx. by apply elem_of_nil in Hx. }
  destruct (ok s) eqn:Es; cbn [negb]; [|exists s, w; split_and!; [done|apply rtc_refl|done..|by intros ->]].
  destruct (ok (Fsync env)) eqn:Ef; cbn [negb];
    [|exists (Fsync env), w; split_and!; [done|apply rtc_refl|done..|intros Hx; by rewrite Hx in Ef]].
  destruct (Lock_good w Hm Hk) as (w1 & -> & Hl1 & Hm1 & Hg1). cbn [mbind option_bind].
  destruct (LogAndApply_good (log_io env (clock w1)) _ _ e Hg1 He Ha) as (st & s' & d' & -> & Hg' & _ & _ & Hok); [by rewrite Hde|].
  cbn [mbind option_bind]. exists st. eexists. split; [reflexivity|].
  assert (s = OK) as -> by by destruct s.
  assert (st = OK -> NoDup (map file_number_ files) -> has_files s' files) as Hhas.
  { intros Hst Hnd. destruct (Hok Hst) as (b & b' & _ & Hb' & Hed). exists b'. split; [done|]. rewrite Hae in * by done.
    intros f Hin. apply (edited_added e b b'); [by rewrite Hde|by rewrite Hae|done|by rewrite Hae]. }
  unfold SetBGError. destruct (ok st); cbn; by split_and!.
Qed.
End Files.

(** ** The states of the files of a collection *)

Section Marks.
Context `{C : Comparator} `{LC : !ComparatorLaws C}.
Context (env : Surroundings) (cf : Z) (bitmaps : bool) (nums outs : gset Z).

(** As long as the storage has them, the inputs are being collected; and it has
    the outputs. A file may become obsolete at any time. Bitmaps that are used
    are there. *)
Record files_marked (s : BlobFileSet) : Prop := {
  fm_states : forall states, file_states cf s = Some states ->
    (forall n st, n ∈ nums -> states !! n = Some st -> st = kBeingGC \/ st = kObsolete) /\
    (forall n, n ∈ outs -> states !! n = Some kPendingGC \/ states !! n = Some kObsolete);
  fm_bits : bitmaps = true -> bits_good cf s }.

Lemma files_marked_same s s' : file_states cf s' = file_states cf s -> (bitmaps = true -> bits_good cf s') ->
  files_marked s -> files_marked s'.
Proof. intros Hs Hb [Hm _]. split; [by rewrite Hs|done]. Qed.

(** A file that is added as an output. *)
Definition output_ok (f : BlobFileMeta) : Prop := (file_number_ f ∉ nums) /\ state_ f = kPendingGC /\ bits_ok f.

(** The other threads leave the files of a collection to it. *)
Definition others_mark : Prop :=
  forall n s d, files_marked s -> files_marked (others_files env n (s, d)).1.

(** An edit that adds outputs and deletes inputs. *)
Lemma edited_marked e b b' s s' :
  column_families_ s !! cf = Some b -> column_families_ s' !! cf = Some b' -> storage_edited (collect CFEditCollector_new e) b b' ->
  (forall f, f ∈ added_files_ e -> output_ok f) -> files_marked s -> files_marked s'.
Proof.
  intros Hb Hb' (Hf & _) Ha [Hm Hbits].
  assert (forall n m, cf_added_files_ (collect CFEditCollector_new e) !! n = Some m -> (n ∉ nums) /\ state_ m = kPendingGC /\ bits_ok m) as Hadd.
  { intros n m [Hn <-]%collect_new_added. by apply Ha. }
  split.
  2:{ intros Hu b1 n m Hb1. rewrite Hb' in Hb1. injection Hb1 as <-. rewrite Hf. unfold edited.
      destruct (cf_added_files_ _ !! n) as [m1|] eqn:E.
      - destruct (Hadd _ _ E) as (_ & _ & Hok). destruct (cf_deleted_files_ _ !! n); [by apply Hbits|by intros [= <-]].
      - destruct (cf_deleted_files_ _ !! n); [|by apply Hbits]. intros (m1 & Hm1 & ->)%fmap_Some. exact (Hbits Hu b n m1 Hb Hm1). }
  intros states Hs. rewrite (file_states_storage cf _ _ Hb') in Hs. injection Hs as <-.
  destruct (Hm _ (file_states_storage cf _ _ Hb)) as [Hin Hout]. split.
  - intros n st Hn. rewrite lookup_fmap, Hf. unfold edited. pose proof (Hin n) as Hi. rewrite lookup_fmap in Hi.
    destruct (cf_added_files_ _ !! n) as [m|] eqn:E; [by destruct (Hadd _ _ E)|].
    destruct (cf_deleted_files_ _ !! n); [|by apply Hi].
    destruct (files_ b !! n) as [m|]; [|done]. cbn. intros [= <-]. by right.
  - intros n Hn. rewrite lookup_fmap, Hf. unfold edited. pose proof (Hout n Hn) as Ho. rewrite lookup_fmap in Ho.
    destruct (cf_added_files_ _ !! n) as [m|] eqn:E.
    + destruct (Hadd _ _ E) as (_ & Hst & _). destruct (cf_deleted_files_ _ !! n); [done|]. left. cbn. by rewrite Hst.
    + destruct (cf_deleted_files_ _ !! n); [|done]. destruct (files_ b !! n) as [m|]; [by right|by destruct Ho].
Qed.

Lemma Lock_marked w w' : others_mark -> Lock env w = Some w' -> files_marked (blob_file_set_ w) -> files_marked (blob_file_set_ w').
Proof.
  intros Ho Hl Hm. unfold Lock in Hl. destruct (mutex_held w); [done|]. injection Hl as <-. cbn [blob_file_set_].
  unfold others. pose proof (Ho (clock w) _ (disk w) Hm) as H. by destruct (others_files env (clock w) _).
Qed.

Lemma finish_files_added files : forall e s e' f,
  finish_files env files e = (s, e') -> f ∈ added_files_ e' -> f ∈ added_files_ e \/ f ∈ files.
Proof.
  induction files as [|g files IH]; intros e s e' f H Hf; cbn [finish_files] in H; [injection H as _ <-; by left|].
  destruct (negb _); [injection H as _ <-; by left|].
  destruct (IH _ _ _ _ H Hf) as [Hin|Hin]; [|right; by apply list_elem_of_further].
  cbn in Hin. apply elem_of_app in Hin as [Hin| ->%list_elem_of_singleton]; [by left|right; apply list_elem_of_here].
Qed.

(** An edit that is logged or refused. *)
Lemma LogAndApply_marked levels keep io s d e st s' d' :
  files_good cf nums levels keep s d -> column_family_id_ e = cf -> (forall f, f ∈ added_files_ e -> new_file_ok levels f) ->
  (keep -> deleted_files_ e = []) -> (forall f, f ∈ added_files_ e -> output_ok f) ->
  LogAndApply io s d e = Some (st, s', d') -> files_marked s -> files_marked s'.
Proof.
  intros Hg He Ha Hd Hadd Hl Hm.
  destruct (LogAndApply_good cf nums levels keep io s d e Hg He Ha Hd) as (st1 & s1 & d1 & Hl1 & _ & Hbad & _ & Hok).
  rewrite Hl in Hl1. injection Hl1 as <- <- <-. destruct (decide (st = OK)) as [->|Hst]; [|by rewrite Hbad].
  destruct (Hok eq_refl) as (b & b' & Hb & Hb' & Hed). by apply (edited_marked e b b' s s').
Qed.

Lemma BatchFinishFiles_marked levels keep w files s w' :
  others_mark -> others_keep env cf nums levels keep w -> Forall (new_file_ok levels) files ->
  Forall output_ok files ->
  mutex_held w = false -> BatchFinishFiles env w cf files = Some (s, w') ->
  files_marked (blob_file_set_ w) -> files_marked (blob_file_set_ w').
Proof.
  intros Ho Hk Hf Hn Hw H Hm. unfold BatchFinishFiles in H.
  destruct (finish_files_spec env cf levels files (SetColumnFamilyID VersionEdit_default cf)) as (s0 & e & Hfin & He & Hde & Ha & _);
    [done| |done|]. { intros f Hx. by apply elem_of_nil in Hx. }
  rewrite Hfin in H. destruct (negb (ok s0)); [by injection H as _ <-|]. destruct (negb (ok (Fsync env))); [by injection H as _ <-|].
  destruct (Lock_good env cf nums levels keep w Hw Hk) as (w1 & Hl & _ & _ & Hg1). rewrite Hl in H. cbn [mbind option_bind] in H.
  destruct (LogAndApply _ _ _ e) as [[[st s'] d']|] eqn:El; [|done]. cbn [mbind option_bind] in H. injection H as _ <-.
  assert (files_marked s') as Hs'.
  { eapply LogAndApply_marked; [exact Hg1|exact He|exact Ha|by rewrite Hde| |exact El|by apply (Lock_marked w)].
    intros f [Hx|Hx]%(finish_files_added _ _ _ _ _ Hfin); [by apply elem_of_nil in Hx|]. rewrite Forall_forall in Hn. by apply Hn. }
  unfold SetBGError. by destruct (ok st).
Qed.
End Marks.

(** More outputs, that the storage has. *)
Lemma files_marked_more cf bitmaps nums outs s (files : list BlobFileMeta) :
  files_marked cf bitmaps nums outs s -> has_files cf s files -> Forall (fun f => state_ f = kPendingGC) files ->
  files_marked cf bitmaps nums (outs ∪ list_to_set (map file_number_ files)) s.
Proof.
  intros [Hm Hbits] (b & Hb & Hf) Hst. split; [|done]. intros states Hs. destruct (Hm states Hs) as [Hin Hout]. split; [done|].
  intros n [Hn|Hn]%elem_of_union; [by apply Hout|]. left. apply elem_of_list_to_set, list_elem_of_fmap in Hn as (f & -> & Hin').
  rewrite (file_states_storage cf _ _ Hb) in Hs. injection Hs as <-. rewrite lookup_fmap, (Hf _ Hin'). cbn.
  rewrite Forall_forall in Hst. by rewrite Hst.
Qed.
