(* ===== verification/GCJobBitmaps.v ===== *)
(** * GCJobBitmaps: the bitmaps of invalid entries in a garbage collection

    With [use_bitmap] a job does not look its records up in the LSM tree: its
    iterators have copies of the bitmaps of their files, taken when it begins.
    The bits that are set then are of records that nothing refers to, so they
    stay so; and a record that is dropped while the new indexes are written is
    marked invalid in its new file. *)
From S2P Require Import Prelude Coding Crc32c BitMap BlobFileMeta TitanStats Options VersionEdit BlobStorage BlobStorageProofs EditCollector EditCollectorProofs BlobFileSet BlobFileSetProofs GCPicker BlobFileBuilder BlobFileBuilderProofs BlobFileReader BlobFileIterator BlobFileIteratorProofs BlobFileMergeProofs BlobFileSpec GCJob GCJobRun GCJobProofs BlobFormat.

Local Open Scope Z_scope.
Local Open Scope aegon_scope.

#[local] Abbreviation Entry := (BlobRecord * BlobIndex)%type.

(** What the others have made of the files when the mutex is taken. *)
Lemma Lock_files env w w' : Lock env w = Some w' ->
  blob_file_set_ w' = (others_files env (clock w) (blob_file_set_ w, disk w)).1 /\ lsm w' = others_lsm env (clock w) (lsm w).
Proof.
  unfold Lock. destruct (mutex_held w); [done|]. intros [= <-]. cbn [blob_file_set_ lsm]. unfold others.
  by destruct (others_files env (clock w) _).
Qed.

(** ** Records that were dropped *)

(** The indexes of the dropped records come from the batches. *)
Lemma rewrite_loop_indexes env bs : forall s w j d s' w' j' d',
  rewrite_loop env bs s w j d = (s', w', j', d') -> forall n l i, dropped_index d' !! n = Some l -> i ∈ l ->
  (exists l0, dropped_index d !! n = Some l0 /\ i ∈ l0) \/
  exists b, b ∈ bs /\ file_number (new_blob_index_ b) = n /\ index (blob_handle (new_blob_index_ b)) = i.
Proof.
  induction bs as [|b bs IH]; intros s w j d s' w' j' d' Hr n l i Hl Hi; cbn [rewrite_loop] in Hr.
  { injection Hr as _ _ _ <-. left. by exists l. }
  destruct (IsDropped env (clock w)); [injection Hr as _ _ _ <-; left; by exists l|].
  destruct (shuting_down_ env (clock w)); [injection Hr as _ _ _ <-; left; by exists l|].
  destruct (if gc_offload_ j then _ else _) as [[s1 n1] w1].
  destruct (ok s1); [|destruct (bool_decide (s1 = Busy)); [|injection Hr as _ _ _ <-; left; by exists l]].
  - destruct (IH _ _ _ _ _ _ _ _ Hr n l i Hl Hi) as [?|(b' & Hb & ?)]; [by left|]. right. exists b'. by split; [right|].
  - destruct (IH _ _ _ _ _ _ _ _ Hr n l i Hl Hi) as [(l0 & Hl0 & Hi0)|(b' & Hb & ?)].
    2:{ right. exists b'. by split; [right|]. }
    cbn [dropped_index drop_record] in Hl0. destruct (use_bitmap_ _); [|left; by exists l0].
    apply lookup_insert_Some in Hl0 as [[Hn <-]|[_ Hl0]]; [|left; by exists l0].
    apply elem_of_app in Hi0 as [Hi0| ->%list_elem_of_singleton].
    + left. rewrite <- Hn. destruct (dropped_index d !! file_number (new_blob_index_ b)) as [l1|] eqn:E; [by exists l1|].
      by apply elem_of_nil in Hi0.
    + right. exists b. by split; [left|].
Qed.

Section Drops.
Context (env : Surroundings) (cf : Z).

(** A file that is there keeps its entries. *)
Definition others_entries : Prop :=
  forall k n N N' s d, entries_at cf s n = Some N -> entries_at cf (others_files env k (s, d)).1 n = Some N' -> N' = N.

(** The new index of a batch is that of an entry of a file. *)
Definition fits (s : BlobFileSet) (b : RewriteBatch) : Prop :=
  let i := new_blob_index_ b in
  index (blob_handle i) = 0 \/
  exists N, entries_at cf s (file_number i) = Some N /\ 0 <= index (blob_handle i) <= N.

Lemma entries_nonneg s n N : bits_good cf s -> entries_at cf s n = Some N -> 0 <= N.
Proof.
  intros Hb HN. unfold entries_at in HN. apply bind_Some in HN as (b & Hcf & HN). apply fmap_Some in HN as (m & Hm & ->).
  destruct (Hb b n m Hcf Hm) as (bm & _ & (Hv & _) & <-). lia.
Qed.

Lemma fits_drops bs s w j w' s' j' d w1 w2 :
  rewrite_loop env bs s w j (mkDropped ∅ ∅) = (s', w', j', d) -> Forall (fits (blob_file_set_ w1)) bs -> others_entries ->
  Lock env w1 = Some w2 -> bits_good cf (blob_file_set_ w2) -> drops_fit cf d (blob_file_set_ w2).
Proof.
  intros Hr Hfit Ho [Hw2 _]%Lock_files Hb n l N Hl HN. apply Forall_forall. intros i Hi.
  destruct (rewrite_loop_indexes env bs _ _ _ _ _ _ _ _ Hr n l i Hl Hi) as [(l0 & Hl0 & _)|(b & Hin & <- & <-)].
  { cbn in Hl0. by rewrite lookup_empty in Hl0. }
  rewrite Forall_forall in Hfit. pose proof (entries_nonneg _ _ N Hb HN) as Hnn.
  destruct (Hfit b Hin) as [->|(N0 & HN0 & Hi0)]; [lia|]. rewrite Hw2 in HN. by rewrite (Ho _ _ _ _ _ _ HN0 HN).
Qed.
End Drops.

(** ** The bitmaps of the inputs *)

Section Marks.
Context `{C : Comparator} `{LC : !ComparatorLaws C}.
Context (env : Surroundings) (cf : Z) (nums : gset Z) (E : list Entry).

(** A bit is set only if the LSM tree does not refer to the record, and the
    files have as many entries as they should. *)
Definition marks_dead (s : BlobFileSet) (tr : gmap bytes LsmValue) : Prop :=
  forall b n m e, column_families_ s !! cf = Some b -> n ∈ nums -> files_ b !! n = Some m -> e ∈ E -> file_number e.2 = n ->
    0 <= index (blob_handle e.2) <= file_entries_ m /\ (invalid m (index (blob_handle e.2)) = true -> dead tr e).

(** The others keep this at every moment. *)
Definition others_mark_dead : Prop :=
  forall n s d tr, marks_dead s tr -> marks_dead (others_files env n (s, d)).1 (others_lsm env n tr).

Definition bits_of (b : BlobStorage) (n : Z) : option BitMap := m ← files_ b !! n; invalid_entry_indexes_ m.

(** Every iterator gets the bitmap of its file. *)
Lemma set_bitmaps_all b l : forall s,
  storage_wf b -> Forall (fun i => exists m, files_ b !! it_file_number_ i = Some m /\ is_obsolete m = false /\ bits_ok m) l ->
  set_bitmaps b s l = Some (false, if bool_decide (l = []) then s else OK, map (with_bits (bits_of b)) l).
Proof.
  induction l as [|i l IH]; intros s Hwf Hl; [done|]. apply Forall_cons in Hl as [(m & Hm & Ho & Hb) Hl]. cbn [set_bitmaps map].
  destruct (CopyInvalidEntryIndexesTo_spec m Hb) as (bm & Hbm & _ & _ & Hc).
  rewrite (FindFile_wf _ _ Hwf), Hm. cbn [mbind option_bind]. rewrite Ho, Hc. cbn [mbind option_bind assert ok].
  rewrite (IH OK Hwf Hl). cbn [mbind option_bind].
  rewrite (bool_decide_eq_false_2 (i :: l = [])) by done.
  replace (with_bits (bits_of b) i) with (SetBitMap i bm); [by destruct (bool_decide (l = []))|].
  unfold with_bits, bits_of. rewrite Hm. cbn [mbind option_bind]. by rewrite Hbm.
Qed.

Lemma with_bits_label bits i : bitmap_ i = None -> (label (with_bits bits i)).2 = bits (label (with_bits bits i)).1.
Proof. intros Hn. unfold with_bits. destruct (bits (it_file_number_ i)) eqn:Eb; cbn; by rewrite Eb, ?Hn. Qed.

Lemma with_bits_number bits i : it_file_number_ (with_bits bits i) = it_file_number_ i.
Proof. unfold with_bits. by destruct (bits _). Qed.

(** ** Building the iterator *)

Context `{L : FileLibrary} `{H : HeapTop}.
Context (levels : Z) (keep : Prop).

(** The iterator of a job without bitmaps, and the one with those that the files
    have at that moment. *)
Lemma BuildIterator_plain garbage w j gs :
  use_bitmap_ j = false -> inputs j <> [] -> Forall2 (input_of env) (inputs j) gs ->
  BuildIterator env garbage w j
    = Some (OK, Some (BlobFileMergeIterator_new (map (in_iterator garbage (titan_cf_options_ (blob_gc_ j))) gs)), w).
Proof.
  intros Hu Hne Hin. unfold BuildIterator. rewrite bool_decide_eq_false_2 by done. cbn [negb assert mbind option_bind].
  by rewrite (open_inputs_spec env _ _ _ gs Hin), Hu.
Qed.

Lemma BuildIterator_bitmaps garbage w j gs :
  let opts := titan_cf_options_ (blob_gc_ j) in
  use_bitmap_ j = true -> inputs j <> [] -> Forall2 (input_of env) (inputs j) gs ->
  cf_id j = cf -> nums = list_to_set (map in_number gs) ->
  mutex_held w = false -> others_keep env cf nums levels keep w -> keep ->
  bits_good cf (others_files env (clock w) (blob_file_set_ w, disk w)).1 ->
  others_mark_dead -> marks_dead (blob_file_set_ w) (lsm w) -> Forall (fun e => file_number e.2 ∈ nums) E ->
  exists bits w1 w2, Lock env w = Some w1 /\ w2 = Unlock w1 /\
    BuildIterator env garbage w j = Some (OK, Some (BlobFileMergeIterator_new (map (fun g => with_bits bits (in_iterator garbage opts g)) gs)), w2) /\
    forall e, e ∈ E -> exists bm, bits (file_number e.2) = Some bm /\ BitMap_wf bm /\ 0 <= index (blob_handle e.2) <= valid_bits_ bm /\
      (get bm (index (blob_handle e.2)) = true -> dead (lsm w2) e).
Proof.
  intros opts Hu Hne Hin Hcf Hnums Hm Hk Hkeep Hb Homd Hmd HE.
  destruct (Lock_good env cf nums levels keep w Hm Hk) as (w1 & Hl & _ & _ & Hg1).
  assert (bits_good cf (blob_file_set_ w1) /\ marks_dead (blob_file_set_ w1) (lsm w1)) as [Hb1 Hmd1].
  { destruct (Lock_files env w w1 Hl) as [-> ->]. split; [done|]. by apply Homd. }
  destruct Hg1 as [Hwf _ _ Hkept _ (b & Hst & _)]. destruct (Hwf _ _ Hst) as (_ & Hbw & _).
  assert (forall n, n ∈ nums -> exists m, files_ b !! n = Some m /\ is_obsolete m = false /\ bits_ok m) as Hfiles.
  { intros n Hn. destruct (Hkept Hkeep b n Hst Hn) as (m & Hfm & Ho). exists m. split_and!; [done..|]. by apply (Hb1 b n). }
  exists (bits_of b), w1, (Unlock w1). split; [done|]. split; [done|]. split.
  - unfold BuildIterator. rewrite bool_decide_eq_false_2 by done. cbn [negb assert mbind option_bind].
    rewrite (open_inputs_spec env _ _ _ gs Hin), Hu, Hl. cbn [mbind option_bind]. unfold GetBlobStorage. rewrite Hcf, Hst.
    rewrite (set_bitmaps_all b _ OK Hbw).
    2:{ apply Forall_map, Forall_forall. intros g Hg. apply Hfiles. rewrite Hnums. apply elem_of_list_to_set, list_elem_of_fmap. by exists g. }
    cbn [mbind option_bind]. rewrite map_map. by destruct (bool_decide _).
  - intros e He. rewrite Forall_forall in HE. pose proof (HE e He) as Hn. destruct (Hfiles _ Hn) as (m & Hfm & _ & Hbm).
    destruct (Hmd1 b _ m e Hst Hn Hfm He eq_refl) as [Hi Hd]. destruct Hbm as (bm & Hbm & Hwfb & Hv).
    exists bm. unfold bits_of. rewrite Hfm. cbn [mbind option_bind]. rewrite Hv. split_and!; [done|done|lia|lia|].
    intros Hg. apply Hd. unfold invalid. by rewrite Hbm.
Qed.
End Marks.

(** ** Inputs that are missing *)

Section Missing.
Context `{C : Comparator} `{LC : !ComparatorLaws C} `{L : FileLibrary} `{H : HeapTop}.
Context (env : Surroundings).

Definition opens (f : BlobFileMeta) : Prop := exists file, NewBlobFileReader env (file_number_ f) = Ret file.

(** A file whose bitmap can be given to an iterator. *)
Definition bitmap_known (bs : BlobStorage) (n : Z) : Prop :=
  exists m, files_ bs !! n = Some m /\ is_obsolete m = false /\ bits_ok m.

Lemma open_inputs_failed garbage o before f after e :
  Forall opens before -> NewBlobFileReader env (file_number_ f) = Fail e ->
  exists l, open_inputs env garbage o (before ++ f :: after) = (e, l) /\
    map it_file_number_ l = map file_number_ before.
Proof.
  intros Hb Hf. induction Hb as [|g before [file Hg] _ (l & IH & Hl)]; cbn [app open_inputs].
  - rewrite Hf. by exists [].
  - rewrite Hg, IH. eexists. split; [reflexivity|]. cbn. by rewrite Hl.
Qed.

Lemma open_inputs_all garbage o fs :
  Forall opens fs -> exists l, open_inputs env garbage o fs = (OK, l) /\ map it_file_number_ l = map file_number_ fs.
Proof.
  induction 1 as [|f fs [file Hf] _ (l & IH & Hl)]; cbn [open_inputs]; [by exists []|].
  rewrite Hf, IH. eexists. split; [reflexivity|]. cbn. by rewrite Hl.
Qed.

(** With bitmaps, an input that cannot be opened is forgotten. The status of
    the failed open is overwritten by that of copying the bitmaps of the files
    opened before it; [BuildIterator] returns OK and an iterator over those
    files alone, while the job still deletes all its inputs: the records of the
    others are never moved. *)
Theorem BuildIterator_hides_open_error garbage w j before f after e bs :
  use_bitmap_ j = true -> inputs j = before ++ f :: after -> before <> [] ->
  Forall opens before -> NewBlobFileReader env (file_number_ f) = Fail e ->
  mutex_held w = false -> GetBlobStorage (blob_file_set_ (others env w)) (cf_id j) = Some bs ->
  storage_wf bs -> Forall (fun f => bitmap_known bs (file_number_ f)) before ->
  exists l w', BuildIterator env garbage w j = Some (OK, Some (BlobFileMergeIterator_new l), w') /\
    map it_file_number_ l = map file_number_ before.
Proof.
  intros Hu Hi Hne Hb Hf Hm Hbs Hwf Hk. unfold BuildIterator. rewrite Hi, bool_decide_eq_false_2 by by destruct before.
  cbn [negb assert mbind option_bind].
  destruct (open_inputs_failed garbage (titan_cf_options_ (blob_gc_ j)) before f after e Hb Hf) as (l & -> & Hl).
  rewrite Hu. unfold Lock. rewrite Hm. cbn [mbind option_bind blob_file_set_]. rewrite Hbs.
  rewrite (set_bitmaps_all bs l e Hwf).
  2:{ apply (Forall_map it_file_number_ (bitmap_known bs)). rewrite Hl. by apply Forall_map. }
  rewrite bool_decide_eq_false_2 by (intros ->; by destruct before). cbn [mbind option_bind ok].
  eexists _, _. split; [reflexivity|]. rewrite map_map, <- Hl. apply map_ext. intros i. apply with_bits_number.
Qed.

(** The files before the one that is missing get their bitmaps; then the loop returns. *)
Lemma set_bitmaps_missing bs before i after : forall s,
  storage_wf bs -> Forall (fun i => bitmap_known bs (it_file_number_ i)) before ->
  (forall m, files_ bs !! it_file_number_ i = Some m -> is_obsolete m = true) ->
  exists l, set_bitmaps bs s (before ++ i :: after) = Some (true, NotFound, l).
Proof.
  induction before as [|i0 before IH]; intros s Hwf Hb Hi; cbn [app set_bitmaps].
  - rewrite (FindFile_wf _ _ Hwf). cbn [mbind option_bind]. destruct (files_ bs !! it_file_number_ i) as [m|]; [|by eexists].
    rewrite (Hi m eq_refl). by eexists.
  - apply Forall_cons in Hb as [(m & Hm & Ho & Hbm) Hb]. destruct (CopyInvalidEntryIndexesTo_spec m Hbm) as (bm & _ & _ & _ & Hc).
    rewrite (FindFile_wf _ _ Hwf), Hm. cbn [mbind option_bind]. rewrite Ho, Hc. cbn [mbind option_bind assert ok].
    destruct (IH OK Hwf Hb Hi) as (l & ->). cbn [mbind option_bind]. by eexists.
Qed.

(** With bitmaps, a job whose input has become obsolete or has left the storage
    never ends: [BuildIterator] returns with the mutex held, and the caller
    waits for it. *)
Theorem gone_input_deadlocks t copts fuel garbage w j before f after bs :
  use_bitmap_ j = true -> inputs j = before ++ f :: after -> Forall opens (inputs j) ->
  GetBlobStorage (blob_file_set_ (others env (Unlock w))) (cf_id j) = Some bs -> storage_wf bs ->
  Forall (fun f => bitmap_known bs (file_number_ f)) before ->
  (forall m, files_ bs !! file_number_ f = Some m -> is_obsolete m = true) ->
  (exists w', BuildIterator env garbage (Unlock w) j = Some (NotFound, None, w') /\ mutex_held w' = true) /\
  RunJob env t copts fuel garbage w j = None.
Proof.
  intros Hu Hi Hop Hbs Hwf Hb Hf.
  assert (exists w', BuildIterator env garbage (Unlock w) j = Some (NotFound, None, w') /\ mutex_held w' = true) as (w' & Hbuild & Hm).
  2:{ split; [by exists w'|]. unfold RunJob, DoRunGC. rewrite Hbuild. cbn [mbind option_bind ok negb].
      unfold Lock. by rewrite Hm. }
  unfold BuildIterator. rewrite bool_decide_eq_false_2 by (rewrite Hi; by destruct before). cbn [negb assert mbind option_bind].
  destruct (open_inputs_all garbage (titan_cf_options_ (blob_gc_ j)) (inputs j) Hop) as (l & -> & Hl).
  rewrite Hu. unfold Lock. cbn [mutex_held Unlock mbind option_bind blob_file_set_]. rewrite Hbs.
  rewrite Hi, map_app in Hl. apply map_eq_app in Hl as (l1 & l2 & -> & H1 & H2). apply map_eq_cons in H2 as (i & l3 & -> & Hn & _).
  destruct (set_bitmaps_missing bs l1 i l3 OK Hwf) as (l & ->).
  - apply (Forall_map it_file_number_ (bitmap_known bs)). rewrite H1. by apply Forall_map.
  - by rewrite Hn.
  - cbn [mbind option_bind]. eexists. by split.
Qed.
End Missing.
