(* ===== verification/GCJobSpec.v ===== *)
(** * GCJobSpec: a garbage collection is invisible

    The theorem about a whole job, with and without bitmaps, with the other
    threads at work between all of its steps, under the conditions of
    [gc_setting]; what becomes of the input files; and the release of the files
    after a job. *)
From S2P Require Import Prelude Coding Crc32c BitMap BlobFileMeta TitanStats Options VersionEdit BlobStorage BlobStorageProofs EditCollector EditCollectorProofs BlobFileSet BlobFileSetProofs GCPicker BlobFileBuilder BlobFileBuilderProofs BlobFileReader BlobFileReaderProofs BlobFileIterator BlobFileIteratorProofs BlobFileMergeProofs BlobFileSpec GCJob GCJobRun GCJobProofs GCJobBitmaps BlobFormat.

Local Open Scope Z_scope.
Local Open Scope aegon_scope.

#[local] Abbreviation Entry := (BlobRecord * BlobIndex)%type.

(** ** The records of blob files *)

Section Layout.
Context `{L : FileLibrary}.

Lemma placed_handles t dict off idx rs body i r h :
  placed t dict off idx rs body -> rs !! i = Some (r, h) -> 0 <= off -> 0 <= idx ->
  off + zlen body < 2 ^ 63 -> idx + zlen rs < 2 ^ 63 ->
  BlobHandle_wf h /\ 0 <= size h /\ off <= offset h.
Proof.
  intros Hp Hi Ho Hx Hb Hr. destruct (placed_lookup _ _ _ _ _ _ _ _ _ Hp Hi) as (e & pre & post & _ & -> & ->).
  rewrite !zlen_app in Hb. pose proof (zlen_nonneg pre). pose proof (zlen_nonneg (encoded e)). pose proof (zlen_nonneg post).
  apply lookup_lt_Some in Hi. assert (Z.of_nat i < zlen rs) by (unfold zlen; lia).
  unfold BlobHandle_wf, is_u64. cbn [offset size index]. lia.
Qed.

(** Two records of a file are not at the same offset. *)
Lemma placed_apart t dict off idx rs body i j p q :
  placed t dict off idx rs body -> rs !! i = Some p -> rs !! j = Some q ->
  offset p.2 = offset q.2 -> i = j.
Proof.
  intros Hp. revert i j. induction Hp as [|off idx r e rs body He Hp IH]; intros i j Hi Hj Heq; [done|].
  pose proof (EncodeSlice_sizes _ _ _ _ He) as (_ & _ & Hs).
  assert (forall k q, rs !! k = Some q -> off < offset q.2) as Hlater.
  { intros k [r' h] Hk. destruct (placed_lookup _ _ _ _ _ _ _ _ _ Hp Hk) as (e' & pre & post & _ & _ & ->).
    cbn. pose proof (zlen_nonneg pre). lia. }
  destruct i as [|i], j as [|j]; cbn in Hi, Hj; [done| | |].
  - injection Hi as <-. apply Hlater in Hj. cbn in Heq. lia.
  - injection Hj as <-. apply Hlater in Hi. cbn in Heq. lia.
  - f_equal. by apply IH.
Qed.

Lemma file_handles t ver dict rs bs r h :
  blob_file t ver dict rs bs -> zlen rs < 2 ^ 62 -> (r, h) ∈ rs -> BlobHandle_wf h.
Proof.
  intros [_ (body & tail & -> & Hp & _) Hsz] Hn [i Hi]%list_elem_of_lookup.
  rewrite !zlen_app in Hsz. pose proof (zlen_nonneg (file_header ver (bool_decide (is_Some dict)))). pose proof (zlen_nonneg tail).
  eapply placed_handles; [exact Hp|exact Hi|lia..].
Qed.

(** The index of a record is its place. *)
Lemma file_indexes t ver dict rs bs r h :
  blob_file t ver dict rs bs -> (r, h) ∈ rs -> 0 <= index h < zlen rs.
Proof.
  intros [_ (body & tail & _ & Hp & _) _] [i Hi]%list_elem_of_lookup.
  destruct (placed_lookup _ _ _ _ _ _ _ _ _ Hp Hi) as (e & pre & post & _ & _ & ->). cbn [index].
  apply lookup_lt_Some in Hi. unfold zlen. lia.
Qed.

(** The sizes of all records of a file. *)
Lemma file_sizes t ver dict rs bs :
  blob_file t ver dict rs bs -> 0 <= foldr Z.add 0 (map (fun p => size p.2) rs) < 2 ^ 63 /\
  Forall (fun p => 0 <= size p.2) rs.
Proof.
  intros [_ (body & tail & -> & Hp & _) Hsz]. rewrite (placed_sizes _ _ _ _ _ _ Hp). rewrite !zlen_app in Hsz.
  pose proof (zlen_nonneg (file_header ver (bool_decide (is_Some dict)))). pose proof (zlen_nonneg tail).
  pose proof (zlen_nonneg body). split; [lia|]. apply Forall_lookup. intros i [r h] Hi.
  destruct (placed_lookup _ _ _ _ _ _ _ _ _ Hp Hi) as (e & pre & post & _ & _ & ->). cbn. apply zlen_nonneg.
Qed.
End Layout.

(** ** Installing the output *)

(** What the job needs of the blob file set before it has outputs. *)
Definition job_good `{C : Comparator} (cf : Z) (bitmaps : bool) (nums : gset Z) (keep : Prop) (s : BlobFileSet) (d : Disk) : Prop :=
  files_good cf nums 1 keep s d /\ files_marked cf bitmaps nums ∅ s.

Definition outputs_of (j : BlobGCJob) : gset Z := list_to_set (outputs_ (blob_gc_ j)).

Section Finish.
Context `{C : Comparator} `{LC : !ComparatorLaws C} `{L : FileLibrary} `{LL : !FileLibraryLaws L}.
Context (env : Surroundings) (t : Z) (copts : CompressionOptions).
Context (nums : gset Z) (keep : Prop) (E : list Entry) (j0 : BlobGCJob).
Context (HE : entries_ok t nums E) (Hopts : options_ok copts j0) (Hothers : others_good env (cf_id j0) nums 1 keep).
Context (Hmarks : forall outs, others_mark env (cf_id j0) (use_bitmap (titan_cf_options_ (blob_gc_ j0))) nums outs).
Context (Hentries : use_bitmap (titan_cf_options_ (blob_gc_ j0)) = true -> others_entries env (cf_id j0)) (Hfresh : outputs_ (blob_gc_ j0) = []).

#[local] Abbreviation opts := (titan_cf_options_ (blob_gc_ j0)).
#[local] Abbreviation cf := (cf_id j0).
#[local] Abbreviation bitmaps := (use_bitmap opts).

(** What every part of the job keeps. *)
Record same_job (w : World) (j : BlobGCJob) : Prop := {
  sj_opts : titan_cf_options_ (blob_gc_ j) = opts;
  sj_inputs : inputs j = inputs j0;
  sj_cf : cf_id j = cf;
  sj_offload : gc_offload_ j = gc_offload_ j0;
  sj_gc : inputs_ (blob_gc_ j) = inputs_ (blob_gc_ j0);
  sj_outputs : NoDup (outputs_ (blob_gc_ j));
  sj_free : mutex_held w = false;
  sj_good : files_good cf nums 1 keep (blob_file_set_ w) (disk w);
  sj_marked : files_marked cf bitmaps nums (outputs_of j) (blob_file_set_ w) }.

(** The job once its files are installed: the entries that were kept, with the
    batches that replace them. *)
Definition installed (j : BlobGCJob) (kept : list Entry) : Prop :=
  if decide (blob_run_mode opts = mode_kFallback)
  then rewrite_batches_ j = map inline_batch kept
  else (kept = [] /\ rewrite_batches_ j = []) \/
    exists n b dict hs, blob_file_builders_ j = [(n, b)] /\ out_number nums n /\
      length hs = length kept /\ blob_file t kVersion2 dict (zip (map fst kept) hs) (contents (file_ b)) /\
      rewrite_batches_ j = zip_with (fun e h => relocation e (blob_index n h)) kept hs.

Lemma stopped_same w j good later : stopped j0 good later w j -> good = job_good cf bitmaps nums keep -> same_job w j.
Proof.
  intros [Hg Hi Hc Ho Hf Hgd _] ->. destruct Hgd as [Hgd Hm].
  split; rewrite ?Hg, ?Hfresh; try done; [constructor|]. unfold outputs_of. by rewrite Hg, Hfresh.
Qed.

Lemma same_job_moved w w' j :
  same_job w j -> mutex_held w' = false -> files_good cf nums 1 keep (blob_file_set_ w') (disk w') ->
  files_marked cf bitmaps nums (outputs_of j) (blob_file_set_ w') -> same_job w' j.
Proof. by intros []. Qed.

Lemma add_outputs_opts l : forall gc, titan_cf_options_ (foldl AddOutputFile gc l) = titan_cf_options_ gc.
Proof. induction l as [|n l IH]; intros gc; [done|]. cbn. by rewrite IH. Qed.

Lemma add_outputs_gc l : forall gc, inputs_ (foldl AddOutputFile gc l) = inputs_ gc /\
  outputs_ (foldl AddOutputFile gc l) = outputs_ gc ++ l.
Proof.
  induction l as [|n l IH]; intros gc; [by rewrite app_nil_r|]. cbn. destruct (IH (AddOutputFile gc n)) as [-> ->].
  cbn. by rewrite <- app_assoc.
Qed.

Lemma same_job_outputs w j files :
  same_job w j -> outputs_ (blob_gc_ j) = [] -> NoDup (map file_number_ files) ->
  has_files cf (blob_file_set_ w) files -> Forall (fun f => state_ f = kPendingGC) files ->
  same_job w (add_outputs j (map file_number_ files)).
Proof.
  intros [Ho ? ? ? Hgc ? ? ? Hm] Hout Hnd Hhas Hst. destruct (add_outputs_gc (map file_number_ files) (blob_gc_ j)) as [Hi Hou].
  split; try done; cbn [blob_gc_ add_outputs].
  - by rewrite add_outputs_opts.
  - by rewrite Hi.
  - by rewrite Hou, Hout.
  - unfold outputs_of in *. cbn [blob_gc_ add_outputs]. rewrite Hou, list_to_set_app_L. by apply files_marked_more.
Qed.

(** The rest of [InstallOutputBlobFiles] once the builders are finished. *)
Lemma install_tail w j files kept :
  same_job w j -> outputs_ (blob_gc_ j) = [] -> Forall (new_file_ok 1) files ->
  Forall (output_ok nums) files -> NoDup (map file_number_ files) -> installed j kept ->
  (forall s, has_files cf s files -> Forall (fits cf s) (rewrite_batches_ j)) ->
  exists s w' j', ('(s, w) ← BatchFinishFiles env w (cf_id j) files;
      Some (s, w, if ok s then add_outputs j (map file_number_ files) else j)) = Some (s, w', j') /\
    rtc (tick env) (moment w) (moment w') /\ same_job w' j' /\ installed j' kept /\
    (s = OK -> Forall (fits cf (blob_file_set_ w')) (rewrite_batches_ j')).
Proof.
  intros Hj Hout Hf Hpend Hnd Hin Hfits. rewrite (sj_cf _ _ Hj).
  pose proof (others_good_keep _ _ _ _ _ _ Hothers (sj_good _ _ Hj)) as Hk.
  destruct (BatchFinishFiles_spec env cf nums 1 keep w files (sj_free _ _ Hj) Hk (sj_good _ _ Hj) Hf)
    as (s & w' & Hb & Hl & Hm & Hg & Hhas).
  pose proof (BatchFinishFiles_marked env cf bitmaps nums _ 1 keep w files s w' (Hmarks _) Hk Hf Hpend (sj_free _ _ Hj) Hb (sj_marked _ _ Hj)) as Hmk.
  rewrite Hb. cbn [mbind option_bind]. pose proof (same_job_moved w w' j Hj Hm Hg Hmk) as Hj'.
  eexists s, w', _. split; [reflexivity|]. split; [done|].
  destruct (decide (s = OK)) as [->|Hs]; [|replace (ok s) with false by (by destruct s); by split_and!]. cbn [ok].
  split; [|split; [exact Hin|intros _; by apply Hfits, Hhas]].
  apply same_job_outputs; [done|done|done|by apply Hhas|]. eapply Forall_impl; [exact Hpend|]. by intros f (_ & ? & _).
Qed.

Lemma sizes_zip (rs : list BlobRecord) : forall hs, length hs = length rs ->
  map (fun p : BlobRecord * BlobHandle => size p.2) (zip rs hs) = map size hs.
Proof. induction rs as [|r rs IH]; intros [|h hs] Hl; try done. cbn. injection Hl as Hl. by rewrite IH. Qed.

Lemma relocations_fit s n N kept : forall hs,
  entries_at cf s n = Some N -> Forall (fun h => 0 <= index h <= N) hs ->
  Forall (fits cf s) (zip_with (fun e h => relocation e (blob_index n h)) kept hs).
Proof.
  induction kept as [|e kept IH]; intros [|h hs] HN Hh; try constructor; apply Forall_cons in Hh as [Hh Hhs].
  - right. by exists N.
  - by apply IH.
Qed.

Lemma InstallOutputBlobFiles_spec w j kept :
  same_job w j -> outputs_ (blob_gc_ j) = [] -> collected t copts nums j0 j kept -> sublist kept E ->
  exists s w' j', InstallOutputBlobFiles env t copts w j = Some (s, w', j') /\ rtc (tick env) (moment w) (moment w') /\
    same_job w' j' /\ installed j' kept /\ (s = OK -> Forall (fits cf (blob_file_set_ w')) (rewrite_batches_ j')).
Proof.
  intros Hj Hout Hc Hsub. unfold collected in Hc. unfold InstallOutputBlobFiles.
  assert (forall j', blob_file_builders_ j' = [] -> outputs_ (blob_gc_ j') = [] -> same_job w j' -> installed j' kept ->
    (forall s, Forall (fits cf s) (rewrite_batches_ j')) -> exists s w' j'', ('(s, files, builders, j) ← install_loop t copts (blob_file_builders_ j') OK j';
      let j := set_builders j builders in
      if ok s then '(s, w) ← BatchFinishFiles env w (cf_id j) files; Some (s, w, if ok s then add_outputs j (map file_number_ files) else j)
      else _ ← assert (bool_decide (files = [])); '(_, w) ← BatchDeleteFiles env w (map fst builders); Some (s, w, j)) = Some (s, w', j'') /\
      rtc (tick env) (moment w) (moment w') /\ same_job w' j'' /\ installed j'' kept /\
      (s = OK -> Forall (fits cf (blob_file_set_ w')) (rewrite_batches_ j''))) as Hempty.
  { intros j' Hb Hou Hj' Hin Hfits. rewrite Hb. cbn [install_loop mbind option_bind ok].
    apply (install_tail w (set_builders j' [])); [by destruct Hj'|done|constructor|constructor|constructor| |by intros s _].
    unfold installed in *. cbn [rewrite_batches_ blob_file_builders_ set_builders].
    destruct (decide _); [done|]. destruct Hin as [|(n1 & b & dict & hs & Hbs & _)]; [by left|]. by rewrite Hb in Hbs. }
  destruct (decide _) as [Hmode|Hmode].
  - destruct Hc as [Hb Hbt]. apply Hempty; [done|done|done| |].
    + unfold installed. by destruct (decide _).
    + intros s. rewrite Hbt. apply Forall_map, Forall_forall. intros e _. by left.
  - destruct Hc as [(-> & Hb & Hbt)|(n & b & ctxs & Hb & Hn & Hbd & Hbt & Hkr)].
    { apply Hempty; [done|done|done| |].
      - unfold installed. destruct (decide _); [done|]. by left.
      - intros s. by rewrite Hbt. }
    clear Hempty. rewrite Hb. cbn [install_loop].
    pose proof (kept_ops_ok t nums E HE n kept Hsub) as Hops.
    destruct (Finish_spec t copts kVersion2 _ b ctxs Hops (oo_config _ _ Hopts) Hbd) as (b' & dict & hs & Hf & Hfin & _).
    rewrite Finish_prefix in Hf. destruct (BlobFileBuilder.Finish t copts b []) as [[[s1 b1] new]|]; [|done].
    cbn [mbind option_bind] in Hf |- *. injection Hf as -> -> Hnew.
    pose proof (fin_handles _ _ _ _ _ _ _ _ Hfin) as Hl. rewrite records_kept, length_map in Hl.
    assert (Forall ctx_ok new) as Hok.
    { pose proof (assign_ok n kept hs (sublist_keys t nums E HE kept Hsub)) as Ha. rewrite <- Hnew in Ha.
      by apply Forall_app in Ha as [_ ?]. }
    rewrite BatchWriteNewIndices_spec by done. cbn [mbind option_bind ok negb]. rewrite Hbt, <- map_app, Hnew, assign_batches by done.
    assert (transit (set_live_data_size (BlobFileMeta_new n (GetFileSize (file_ b')) (NumEntries b') 0
      (BlobFileBuilder.smallest_key_ b') (BlobFileBuilder.largest_key_ b')) (BlobFileBuilder.live_data_size_ b')) kGCOutput
      = Some (set_state (set_live_data_size (BlobFileMeta_new n (GetFileSize (file_ b')) (NumEntries b') 0
      (BlobFileBuilder.smallest_key_ b') (BlobFileBuilder.largest_key_ b')) (BlobFileBuilder.live_data_size_ b')) kPendingGC)) as -> by done.
    cbn [mbind option_bind ok]. set (file := set_state _ _).
    pose proof (fin_entries _ _ _ _ _ _ _ _ Hfin) as Hent. rewrite records_kept in Hent.
    assert (0 <= num_entries_ b' <= 2 ^ 30) as Hcount.
    { rewrite Hent. unfold zlen. rewrite length_map. split; [lia|]. exact (sublist_count t nums E HE E kept Hsub (reflexivity _)). }
    apply install_tail; [by destruct Hj|done| |constructor; [|constructor]|apply NoDup_singleton| |].
    + constructor; [|constructor]. split; [done|]. split; [done|]. cbn.
      rewrite (fin_live _ _ _ _ _ _ _ _ Hfin), <- (sizes_zip (records (map (kept_op n) kept))) by (rewrite records_kept, length_map; done).
      apply (file_sizes _ _ _ _ _ (fin_layout _ _ _ _ _ _ _ _ Hfin)).
    + split; [apply Hn|]. split; [done|].
      destruct (bits_ok_new n (GetFileSize (file_ b')) (NumEntries b') 0 (BlobFileBuilder.smallest_key_ b')
        (BlobFileBuilder.largest_key_ b')) as (bm & Hbm & Hwf & Hv); [unfold NumEntries; lia|]. by exists bm.
    + unfold installed. destruct (decide _); [done|]. right. exists n, b', dict, hs. split_and!; try done.
      pose proof (fin_layout _ _ _ _ _ _ _ _ Hfin) as Hlay. by rewrite records_kept in Hlay.
    + intros s (b2 & Hb2 & Hfiles). apply relocations_fit with (NumEntries b').
      * rewrite (entries_at_storage _ _ _ _ Hb2). assert (files_ b2 !! n = Some file) as -> by exact (Hfiles file (list_elem_of_here _ _)). done.
      * pose proof (fin_layout _ _ _ _ _ _ _ _ Hfin) as Hlay. rewrite records_kept in Hlay.
        apply Forall_forall. intros h Hh. unfold NumEntries. rewrite Hent.
        rewrite <- (snd_zip (map fst kept) hs) in Hh by (rewrite length_map; lia).
        apply list_elem_of_fmap in Hh as ([r h'] & -> & Hrh). pose proof (file_indexes _ _ _ _ _ _ _ Hlay Hrh) as Hi.
        unfold zlen in *. rewrite length_zip_with, !length_map in *. cbn. lia.
Qed.

(** ** Writing back *)

Context (content : Z * Z -> option bytes) (Hstored : stored_entries content E).
Context (Herrors : plain_errors env) (Hrefs : no_new_references env nums).
Context (writes : nat -> gmap bytes (option bytes)) (Husers : users_write content writes env).

(** The output files hold what the job wrote to them: records of the inputs. *)
Definition outputs_stored (es : list Entry) (j : BlobGCJob) : Prop :=
  forall n b dict rs, (n, b) ∈ blob_file_builders_ j ->
    blob_file t kVersion2 dict rs (contents (file_ b)) -> map fst rs ⊆+ map fst es ->
    forall r h, (r, h) ∈ rs -> content (n, offset h) = Some (value r).

Lemma relocation_replaces n e h :
  out_number nums n -> BlobHandle_wf h -> content (n, offset h) = Some (value e.1) ->
  replaces content nums (relocation e (blob_index n h)) e.
Proof.
  intros [Hn Hu] Hh Hc.
  assert (BlobIndex_wf (blob_index n h)) as Hwf by (split; [exact Hu|split; [exact Hh|by repeat split]]).
  assert (refers (mkLsm true (BlobIndex_EncodeTo (blob_index n h))) = Some (blob_index n h)) as Hr.
  { unfold refers. cbn [is_blob_index lsm_value]. by rewrite BlobIndex_roundtrip_unlinked. }
  split; [done|]. split; [done|]. split.
  - unfold value_read. cbn [is_blob_index relocation rb_put]. rewrite Hr. exact Hc.
  - intros i Hi. cbn [rb_put relocation] in Hi. rewrite Hr in Hi. by injection Hi as <-.
Qed.

Lemma inline_replaces e : replaces content nums (inline_batch e) e.
Proof. by repeat split. Qed.

Lemma zip_with_relocations n kept : forall hs, length hs = length kept ->
  (forall e h, (e.1, h) ∈ zip (map fst kept) hs -> replaces content nums (relocation e (blob_index n h)) e) ->
  Forall2 (replaces content nums) (zip_with (fun e h => relocation e (blob_index n h)) kept hs) kept.
Proof.
  induction kept as [|e kept IH]; intros [|h hs] Hl Hr; try done; cbn in *; constructor.
  - apply Hr. apply list_elem_of_here.
  - apply IH; [by injection Hl|]. intros e' h' Hin. apply Hr. by apply list_elem_of_further.
Qed.

Lemma kept_count kept : sublist kept E -> zlen kept <= 2 ^ 30.
Proof. intros Hs. apply (sublist_count t nums E HE E); [done|reflexivity]. Qed.

Lemma installed_replaces j kept :
  installed j kept -> sublist kept E -> outputs_stored E j -> Forall2 (replaces content nums) (rewrite_batches_ j) kept.
Proof.
  unfold installed. intros Hin Hsub Hout. destruct (decide _) as [_|_].
  - rewrite Hin. clear. induction kept as [|e kept IH]; [constructor|]. constructor; [apply inline_replaces|done].
  - destruct Hin as [[-> ->]|(n & b & dict & hs & Hb & Hn & Hl & Hlay & ->)]; [constructor|].
    apply zip_with_relocations; [done|]. intros e h Hin. apply relocation_replaces; [done| |].
    + eapply file_handles; [exact Hlay| |exact Hin]. pose proof (kept_count kept Hsub).
      unfold zlen in *. rewrite length_zip_with, length_map. lia.
    + apply (Hout n b dict (zip (map fst kept) hs)); [rewrite Hb; apply list_elem_of_here|done| |done].
      change (map fst (zip (map fst kept) hs) ⊆+ map fst E). rewrite fst_zip by (rewrite length_map; lia).
      apply (fmap_submseteq fst). by apply sublist_submseteq.
Qed.

Lemma installed_sizes j kept : installed j kept ->
  sizes_ok (rewrite_batches_ j) /\ batches_size (rewrite_batches_ j) < 2 ^ 63.
Proof.
  unfold installed. intros Hin. destruct (decide _) as [_|_].
  - rewrite Hin. clear. unfold sizes_ok, batches_size.
    assert (Forall (fun b => 0 <= size (blob_handle (new_blob_index_ b))) (map inline_batch kept) /\
      foldr Z.add 0 (map (fun b => size (blob_handle (new_blob_index_ b))) (map inline_batch kept)) = 0) as [H1 H2];
      [|split; [done|rewrite H2; lia]].
    induction kept as [|e kept [IH1 IH2]]; [done|]. split; [by constructor|]. cbn. by rewrite IH2.
  - destruct Hin as [[-> ->]|(n & b & dict & hs & Hb & Hn & Hl & Hlay & ->)]; [split; [constructor|by vm_compute]|].
    destruct (file_sizes _ _ _ _ _ Hlay) as [[_ Hs] Hnn]. rewrite sizes_zip in Hs by (rewrite length_map; done).
    assert (map (fun b => size (blob_handle (new_blob_index_ b))) (zip_with (fun e h => relocation e (blob_index n h)) kept hs)
      = map size hs) as Hm.
    { clear -Hl. revert hs Hl. induction kept as [|e kept IH]; intros [|h hs] Hl; try done. cbn. injection Hl as Hl. by rewrite IH. }
    unfold sizes_ok, batches_size. rewrite Hm. split; [|done].
    assert (Forall (fun z => 0 <= z) (map size hs)) as Hz.
    { rewrite <- (sizes_zip (map fst kept)) by (rewrite length_map; done). by apply Forall_map. }
    rewrite <- Hm in Hz. exact (proj1 (Forall_map _ _ _) Hz).
Qed.

Lemma map_to_list_within d bound : dropped_within d bound -> bound < 2 ^ 63 ->
  Forall (fun it => 0 <= it.2 < 2 ^ 63) (map_to_list (dropped d)).
Proof.
  intros Hd Hb. apply Forall_forall. intros [n v] Hin%elem_of_map_to_list. specialize (Hd n v Hin). cbn. lia.
Qed.

Lemma RewriteValidKeyToLSM_spec w j kept :
  same_job w j -> gc_offload_ j0 = false -> installed j kept -> sublist kept E ->
  Forall (fits cf (blob_file_set_ w)) (rewrite_batches_ j) ->
  exists s w' j', RewriteValidKeyToLSM env w j = Some (s, w', j') /\ same_job w' j' /\
    blob_file_builders_ j' = blob_file_builders_ j /\
    (Forall2 (replaces content nums) (rewrite_batches_ j) kept -> sound nums E (lsm w) ->
     user_changed content writes (moment w) (moment w') /\ sound nums E (lsm w') /\
     (forall e, e ∈ E -> dead (lsm w) e -> dead (lsm w') e) /\
     (s = OK -> forall e, e ∈ kept -> dead (lsm w') e)).
Proof.
  intros Hj Hoff Hin Hsub Hfits. unfold RewriteValidKeyToLSM.
  assert (Forall (fun e => e ∈ E) kept) as HkE by (apply Forall_forall; intros e He; by apply (in_all E kept)).
  destruct (rewrite_loop_frame env (rewrite_batches_ j) OK w j (mkDropped ∅ ∅)) as (s & w1 & m & d & Hr & Hsf).
  assert (Forall2 (replaces content nums) (rewrite_batches_ j) kept -> sound nums E (lsm w) ->
    rewritten content writes nums E w w1 kept s) as Hdone.
  { intros Hrep Hsnd. destruct (rewrite_loop_spec content writes env nums E (eo_files _ _ _ HE) Hstored Herrors Hrefs Husers _
      kept OK w j (mkDropped ∅ ∅) Hrep HkE) as (s' & w' & m' & d' & Hr' & Hw'); [by rewrite (sj_offload _ _ Hj)|done|].
    rewrite Hr in Hr'. by injection Hr' as <- <- _ _. }
  rewrite Hr. destruct (installed_sizes j kept Hin) as [Hsz1 Hsz2].
  assert (dropped_within d (batches_size (rewrite_batches_ j))) as Hdw.
  { apply (rewrite_loop_dropped env _ _ _ _ _ 0 _ _ _ _ Hr); [intros n v Hv; cbn in Hv; by rewrite lookup_empty in Hv|lia|done|lia]. }
  assert (same_job w1 (set_metrics j m)) as Hj1.
  { destruct Hj as [? ? ? ? ? ? Hf Hg Hmk]. destruct Hsf as (Hs1 & Hd1 & _ & _ & Hm1).
    split; try done; [by rewrite Hm1|by rewrite Hs1, Hd1|by rewrite Hs1]. }
  set (s1 := if bool_decide (s = Busy) then OK else s).
  assert (s1 = OK -> s = OK \/ s = Busy) as Hs1.
  { unfold s1. destruct (bool_decide_reflect (s = Busy)); [by right|by left]. }
  destruct (decide (s1 = OK)) as [Es|Es].
  2:{ replace (negb (ok s1)) with true by by destruct s1. exists s1, w1, (set_metrics j m). split; [done|]. split; [done|].
      split; [done|]. intros Hrep Hsnd. destruct (Hdone Hrep Hsnd) as (_ & Hu & Hs & Hd & _). by split_and!. }
  rewrite Es. cbn [ok negb].
  destruct (Lock_good env cf nums 1 keep w1 (sj_free _ _ Hj1) (others_good_keep _ _ _ _ _ _ Hothers (sj_good _ _ Hj1))) as (w2 & Hlock & Hl2 & Hm2 & Hg2).
  pose proof (Lock_marked env cf bitmaps nums _ w1 w2 (Hmarks _) Hlock (sj_marked _ _ Hj1)) as Hmk2.
  rewrite Hlock. cbn [mbind option_bind].
  assert (use_bitmap_ (set_metrics j m) = bitmaps) as -> by (unfold use_bitmap_; by rewrite (sj_opts _ _ Hj1)).
  rewrite (sj_cf _ _ Hj1).
  destruct (drop_files_good cf nums 1 keep bitmaps d (disk w2) (map_to_list (dropped d)) _ Hg2 (map_to_list_within _ _ Hdw Hsz2))
    as (set' & Hdrop & Hg' & _ & Hst' & _ & Hbits').
  { intros Hu. pose proof (fm_bits _ _ _ _ _ Hmk2 Hu) as Hb2. split; [done|].
    apply (fits_drops env cf (rewrite_batches_ j) OK w j w1 s (set_metrics j m) d w1 w2 Hr); [|by apply Hentries|done|done].
    destruct Hsf as (Hset & _). by rewrite Hset. }
  pose proof (files_marked_same cf bitmaps nums _ _ _ Hst' Hbits' Hmk2) as Hmk3.
  rewrite Hdrop. cbn [mbind option_bind ok]. eexists _, _, _. split; [reflexivity|]. split; [by destruct Hj1|]. split; [done|].
  intros Hrep Hsnd. destruct (Hdone Hrep Hsnd) as (_ & Hu & Hs & Hd & Hk).
  assert (forall e, e ∈ E -> dead (lsm w1) e -> dead (lsm w2) e) as Hd2.
  { intros e He. apply (dead_passed env nums (moment w1) (moment w2)); [done|by apply (entry_file nums E (eo_files _ _ _ HE))|done]. }
  split_and!.
  - eapply user_changed_trans; [exact Hu|]. by apply (user_changed_passed _ _ env).
  - by apply (sound_passed env nums E Hrefs (moment w1) (moment w2)) in Hs.
  - intros e He Hdd. by apply Hd2, Hd.
  - intros _ e He. apply Hd2; [by apply (in_all E kept)|]. by apply Hk; [apply Hs1|].
Qed.

(** ** Deleting the inputs *)

(** Every input is obsolete or no longer in the storage. *)
Definition inputs_retired (s : BlobFileSet) : Prop :=
  forall b f m, column_families_ s !! cf = Some b -> f ∈ inputs j0 ->
    files_ b !! file_number_ f = Some m -> is_obsolete m = true.

Lemma delete_edit w j e fs :
  column_family_id_ e = cf -> added_files_ e = [] ->
  let e' := foldl (fun e file => if input_obsolete w j file then e
                                 else VersionEdit.DeleteBlobFile e (file_number_ file) (GetLatestSequenceNumber env)) e fs in
  column_family_id_ e' = cf /\ added_files_ e' = [] /\
  (forall p, p ∈ deleted_files_ e -> p ∈ deleted_files_ e') /\
  forall f, f ∈ fs -> input_obsolete w j f = false -> exists sq, (file_number_ f, sq) ∈ deleted_files_ e'.
Proof.
  revert e. induction fs as [|f fs IH]; intros e Hc Ha; cbn [foldl].
  { split_and!; [done..|]. by intros f ?%not_elem_of_nil. }
  destruct (input_obsolete w j f) eqn:Eo.
  - destruct (IH e Hc Ha) as (Hc' & Ha' & Hin & Hd). split_and!; [done..|].
    intros f' [->|Hf]%elem_of_cons Ho; [by rewrite Eo in Ho|by apply Hd].
  - destruct (IH (VersionEdit.DeleteBlobFile e (file_number_ f) (GetLatestSequenceNumber env)) Hc Ha) as (Hc' & Ha' & Hin & Hd).
    split_and!; [done..| |].
    + intros p Hp. apply Hin. cbn. apply elem_of_app. by left.
    + intros f' [->|Hf]%elem_of_cons Ho; [|by apply Hd]. eexists. apply Hin. cbn. apply elem_of_app. right. apply list_elem_of_here.
Qed.

Lemma DeleteInputBlobFiles_spec w j :
  inputs j = inputs j0 -> cf_id j = cf -> files_good cf nums 1 keep (blob_file_set_ w) (disk w) ->
  exists s w' j', DeleteInputBlobFiles env w j = Some (s, w', j') /\
    moment w' = moment w /\ mutex_held w' = mutex_held w /\ blob_file_builders_ j' = blob_file_builders_ j /\
    files_good cf nums 1 False (blob_file_set_ w') (disk w') /\
    (s = OK -> inputs_retired (blob_file_set_ w')) /\ (s <> OK -> blob_file_set_ w' = blob_file_set_ w) /\
    blob_gc_ j' = blob_gc_ j /\ cf_id j' = cf /\
    forall outs, files_marked cf bitmaps nums outs (blob_file_set_ w) -> files_marked cf bitmaps nums outs (blob_file_set_ w').
Proof.
  intros Hi Hc Hg. unfold DeleteInputBlobFiles. rewrite Hi, Hc.
  destruct (delete_edit w j (SetColumnFamilyID VersionEdit_default cf) (inputs j0) eq_refl eq_refl) as (Hce & Hae & _ & Hde).
  set (e := foldl _ _ _) in *.
  assert (files_good cf nums 1 False (blob_file_set_ w) (disk w)) as Hg' by by destruct Hg.
  destruct (LogAndApply_good cf nums 1 False (log_io env (clock w)) _ _ e Hg' Hce) as (st & s' & d' & Hlog & Hg2 & Hbad & _ & Hok); [| done|].
  { intros f Hf. rewrite Hae in Hf. by apply elem_of_nil in Hf. }
  rewrite Hlog. cbn [mbind option_bind]. eexists st, _, _. split; [reflexivity|]. split_and!; [done..| |done|done|done|].
  2:{ intros outs Hmk. eapply (LogAndApply_marked cf bitmaps nums outs 1 False); [exact Hg'|exact Hce| |done| |exact Hlog|exact Hmk];
      intros f Hf; rewrite Hae in Hf; by apply elem_of_nil in Hf. }
  intros Hst b' f m Hb' Hf Hm. destruct (Hok Hst) as (b & b1 & Hb & Hb1 & Hed & _). cbn in Hb'. rewrite Hb' in Hb1. injection Hb1 as <-.
  rewrite Hed in Hm. unfold edited in Hm. rewrite collect_new, Hae in Hm. cbn in Hm. rewrite lookup_empty in Hm.
  destruct (input_obsolete w j f) eqn:Eo.
  - unfold input_obsolete, GetBlobStorage in Eo. rewrite Hc, Hb in Eo.
    destruct (list_to_map (deleted_files_ e) !! file_number_ f); [|by rewrite Hm in Eo].
    apply fmap_Some in Hm as (m1 & _ & ->). apply bool_decide_eq_true_2. done.
  - destruct (Hde f Hf Eo) as (sq & Hsq).
    destruct (list_to_map (M := gmap Z Z) (deleted_files_ e) !! file_number_ f) eqn:El.
    + apply fmap_Some in Hm as (m1 & _ & ->). apply bool_decide_eq_true_2. done.
    + apply not_elem_of_list_to_map in El. destruct El. apply list_elem_of_fmap. by exists (file_number_ f, sq).
Qed.

(** ** The second half of the job *)

(** The files of the job can be released. *)
Definition releasable (w : World) (j : BlobGCJob) : Prop :=
  cf_id j = cf /\ inputs_ (blob_gc_ j) = inputs_ (blob_gc_ j0) /\ NoDup (outputs_ (blob_gc_ j)) /\
  is_Some (column_families_ (blob_file_set_ w) !! cf) /\ files_marked cf bitmaps nums (outputs_of j) (blob_file_set_ w).

Lemma good_storage levels k s d : files_good cf nums levels k s d -> is_Some (column_families_ s !! cf).
Proof. intros Hg. destruct (fg_storage _ _ _ _ _ _ Hg) as (b & Hb & _). by exists b. Qed.

Lemma same_job_releasable w w' j :
  same_job w j -> is_Some (column_families_ (blob_file_set_ w') !! cf) ->
  files_marked cf bitmaps nums (outputs_of j) (blob_file_set_ w') -> releasable w' j.
Proof. by intros []. Qed.

(** What [Finish] leaves, when the output files hold what was written. *)
Definition settled (w w' : World) (s : Status) : Prop :=
  user_changed content writes (moment w) (moment w') /\ sound nums E (lsm w') /\
  (s = OK -> forall e, e ∈ E -> dead (lsm w') e).

Lemma Finish_settles w j kept :
  stopped j0 (job_good cf bitmaps nums keep) (fun p => sound nums E p.2) (Unlock w) j ->
  gc_offload_ j0 = false -> sublist kept E -> covered (lsm w) E kept -> collected t copts nums j0 j kept ->
  exists s w' j', Finish env t copts w j = Some (s, w', j') /\ mutex_held w' = true /\
    files_good cf nums 1 False (blob_file_set_ w') (disk w') /\ releasable w' j' /\
    (keep -> s <> OK -> inputs_live cf nums (blob_file_set_ w')) /\
    (s = OK -> (forall n, IsDropped env n = false) -> inputs_retired (blob_file_set_ w')) /\
    (outputs_stored E j' -> settled w w' s).
Proof.
  intros Hst Hoff Hsub Hcov Hcol. pose proof (stopped_same _ _ _ _ Hst eq_refl) as Hj.
  assert (sound nums E (lsm w)) as Hsnd by apply (st_later _ _ _ _ _ Hst).
  unfold Finish. rewrite (sj_offload _ _ Hj), Hoff. cbn [negb].
  assert (outputs_ (blob_gc_ j) = []) as Hnil by (rewrite (st_gc _ _ _ _ _ Hst); exact Hfresh).
  destruct (InstallOutputBlobFiles_spec _ j kept Hj Hnil Hcol Hsub) as (s1 & w1 & j1 & -> & Ht1 & Hj1 & Hin & Hfits).
  cbn [mbind option_bind].
  assert (exists s w2 j2, (if ok s1 then RewriteValidKeyToLSM env w1 j1 else Some (s1, w1, j1)) = Some (s, w2, j2) /\
    same_job w2 j2 /\ (outputs_stored E j2 -> settled w w2 s)) as (s & w2 & j2 & -> & Hj2 & Hset).
  { assert (sound nums E (lsm w1)) as Hs1 by by apply (sound_passed env nums E Hrefs (moment w) (moment w1)).
    destruct (decide (s1 = OK)) as [->|Hs].
    - destruct (RewriteValidKeyToLSM_spec w1 j1 kept Hj1 Hoff Hin Hsub (Hfits eq_refl)) as (s & w2 & j2 & Hr & Hj2 & Hbs & Hok).
      exists s, w2, j2. split; [exact Hr|]. split; [done|]. intros Hout.
      destruct Hok as (Hu & Hs2 & Hd & Hk); [|done|].
      { apply installed_replaces; [done|done|]. unfold outputs_stored in *. by rewrite <- Hbs. }
      split; [|split; [done|]].
      + eapply user_changed_trans; [|exact Hu]. by apply (user_changed_passed _ _ env).
      + intros -> e He. destruct (Hcov e He) as [Hde|Hke]; [|by apply Hk]. apply Hd; [done|].
        apply (dead_passed env nums (moment w) (moment w1)); [done|by apply (entry_file nums E (eo_files _ _ _ HE))|done|done].
    - replace (ok s1) with false by by destruct s1. exists s1, w1, j1. split; [done|]. split; [done|]. intros _.
      split; [|split; [done|]]; [by apply (user_changed_passed _ _ env)|done]. }
  cbn [mbind option_bind].
  destruct (Lock_good env cf nums 1 keep w2 (sj_free _ _ Hj2) (others_good_keep _ _ _ _ _ _ Hothers (sj_good _ _ Hj2))) as (w3 & Hl3 & Ht3 & Hm3 & Hg3).
  pose proof (Lock_marked env cf bitmaps nums _ w2 w3 (Hmarks _) Hl3 (sj_marked _ _ Hj2)) as Hmk3.
  pose proof (same_job_releasable w2 w3 j2 Hj2 (good_storage _ _ _ _ Hg3) Hmk3) as Hrel3. rewrite Hl3. cbn [mbind option_bind].
  assert (forall s' w', moment w' = moment w3 -> (s' = OK -> s = OK) -> outputs_stored E j2 -> settled w w' s') as Hset3.
  { intros s' w' Hw' Hs' Hout. destruct (Hset Hout) as (Hu & Hs2 & Hd). injection Hw' as Hc' Hl'. unfold settled, moment at 2. rewrite Hc', Hl'.
    split; [|split].
    - eapply user_changed_trans; [exact Hu|]. by apply (user_changed_passed _ _ env).
    - by apply (sound_passed env nums E Hrefs (moment w2) (moment w3)) in Hs2.
    - intros Hs1 e He. apply (dead_passed env nums (moment w2) (moment w3)); [done|by apply (entry_file nums E (eo_files _ _ _ HE))|done|].
      by apply Hd; [apply Hs'|]. }
  destruct (decide (s = OK)) as [->|Hs].
  2:{ replace (ok s) with false by by destruct s. cbn [andb]. exists s, w3, j2. split; [done|]. split; [done|].
      split; [by destruct Hg3|]. split; [done|]. split; [intros Hk _; by apply (fg_kept _ _ _ _ _ _ Hg3)|]. split; [done|]. by apply Hset3. }
  cbn [ok andb]. destruct (IsDropped env (clock w3)) eqn:Edr; cbn [negb].
  { exists OK, w3, j2. split; [done|]. split; [done|]. split; [by destruct Hg3|]. split; [done|]. split; [done|].
    split; [intros _ Hn; by rewrite Hn in Edr|]. by apply Hset3. }
  destruct (DeleteInputBlobFiles_spec w3 j2 (sj_inputs _ _ Hj2) (sj_cf _ _ Hj2) Hg3) as (s & w4 & j4 & -> & Hmom & Hm4 & Hbs & Hg4 & Hok & Hbad & Hgc4 & Hc4 & Hmk4).
  exists s, w4, j4. split; [done|]. split; [by rewrite Hm4|]. split; [done|].
  split; [destruct Hrel3 as (_ & ? & ? & _ & ?); unfold releasable, outputs_of; rewrite Hgc4; split_and!;
    [done..|by apply good_storage in Hg4|by apply Hmk4]|].
  split; [intros Hk Hs; rewrite (Hbad Hs); by apply (fg_kept _ _ _ _ _ _ Hg3)|]. split; [intros Hs _; by apply Hok|].
  unfold outputs_stored. rewrite Hbs. by apply Hset3.
Qed.
End Finish.

(** ** The whole job *)

Section Whole.
Context `{C : Comparator} `{LC : !ComparatorLaws C} `{L : FileLibrary} `{LL : !FileLibraryLaws L}.
Context `{H : HeapTop} `{LH : !HeapTopLaws H}.
Context (env : Surroundings) (t : Z) (copts : CompressionOptions) (gs : list gc_input) (j0 : BlobGCJob).
Context (content : Z * Z -> option bytes) (writes : nat -> gmap bytes (option bytes)) (keep : Prop).

Definition input_numbers : gset Z := list_to_set (map in_number gs).

Definition input_entries : list Entry := concat (map in_entries gs).

#[local] Abbreviation bitmaps := (use_bitmap (titan_cf_options_ (blob_gc_ j0))).

(** What a job that uses bitmaps needs in addition: the input files are to be
    kept, and their bits are set only for records that nothing refers to. *)
Record bitmap_setting (w : World) : Prop := {
  bm_keep : keep;
  bm_entries : others_entries env (cf_id j0);
  bm_dead : marks_dead (cf_id j0) input_numbers input_entries (blob_file_set_ w) (lsm w);
  bm_others : others_mark_dead env (cf_id j0) input_numbers input_entries }.

(** A job that begins, on stored input files that are in the storage, with an
    LSM tree that refers to their records by their keys; and what the other
    threads and the file system may do. *)
Record gc_setting (w : World) : Prop := {
  gs_options : options_ok copts j0;
  gs_type : is_byte t;
  gs_new : blob_file_builders_ j0 = [] /\ rewrite_batches_ j0 = [] /\ gc_offload_ j0 = false;
  gs_fresh : outputs_ (blob_gc_ j0) = [];
  gs_files : Forall (input_ok t) gs;
  gs_inputs : Forall2 (input_of env) (inputs j0) gs;
  gs_numbers : NoDup (map in_number gs);
  gs_some : input_entries <> [];
  gs_count : zlen input_entries <= 2 ^ 30;
  gs_records : Forall (fun e => key_ok (key e.1) /\ encodable t e.1) input_entries;
  gs_stored : stored_entries content input_entries;
  gs_held : mutex_held w = true;
  gs_good : job_good (cf_id j0) bitmaps input_numbers keep (blob_file_set_ w) (disk w);
  gs_lsm : sound input_numbers input_entries (lsm w);
  gs_others : others_good env (cf_id j0) input_numbers 1 keep;
  gs_marks : forall outs, others_mark env (cf_id j0) bitmaps input_numbers outs;
  gs_bitmaps : bitmaps = true -> bitmap_setting w;
  gs_errors : plain_errors env;
  gs_references : no_new_references env input_numbers;
  gs_users : users_write content writes env;
  gs_writable : forall n, match NewWritableFile env n with Ret f => f = new_file | Fail e => e <> OK end }.

Lemma input_entry e : e ∈ input_entries -> exists g r h, g ∈ gs /\ (r, h) ∈ in_records g /\ e = (r, blob_index (in_number g) h).
Proof.
  unfold input_entries. intros He%list_elem_of_In. apply in_concat in He as (l & Hl%list_elem_of_In & He%list_elem_of_In).
  apply list_elem_of_fmap in Hl as (g & -> & Hg). apply list_elem_of_fmap in He as ([r h] & -> & Hr). by exists g, r, h.
Qed.

Lemma input_unique e e' w :
  gc_setting w -> e ∈ input_entries -> e' ∈ input_entries -> BlobIndex_eqb e.2 e'.2 = true -> e = e'.
Proof.
  intros Hw (g & r & h & Hg & Hr & ->)%input_entry (g' & r' & h' & Hg' & Hr' & ->)%input_entry Heq.
  cbn in Heq. unfold BlobIndex_eqb, BlobHandle_eqb in Heq. cbn in Heq.
  apply andb_prop in Heq as [Hn%Z.eqb_eq [Ho%Z.eqb_eq _]%andb_prop].
  assert (g = g') as <-.
  { apply list_elem_of_lookup in Hg as [i Hi]. apply list_elem_of_lookup in Hg' as [i' Hi'].
    assert (i = i') as <-; [|congruence]. pose proof (gs_numbers _ Hw) as Hnd. rewrite NoDup_alt in Hnd.
    apply Hnd with (in_number g); rewrite list_lookup_fmap; [by rewrite Hi|by rewrite Hi', Hn]. }
  pose proof (gs_files _ Hw) as Hf. rewrite Forall_forall in Hf. destruct (Hf _ Hg) as [[_ (body & tail & _ & Hp & _) _] _ _ _ _].
  apply list_elem_of_lookup in Hr as [i Hi]. apply list_elem_of_lookup in Hr' as [i' Hi'].
  assert (i = i') as <- by (by apply (placed_apart _ _ _ _ _ _ _ _ _ _ Hp Hi Hi')). rewrite Hi in Hi'. by injection Hi' as <- <-.
Qed.

Lemma setting_entries w E : gc_setting w -> input_entries ≡ₚ E -> entries_ok t input_numbers E.
Proof.
  intros Hw HE. assert (forall P : Entry -> Prop, Forall P input_entries -> Forall P E) as Hall by (intros P; by rewrite HE).
  split.
  - apply Hall, Forall_forall. intros e (g & r & h & Hg & _ & ->)%input_entry. cbn.
    apply elem_of_list_to_set, list_elem_of_fmap. by exists g.
  - intros e e'. rewrite <- HE. by apply (input_unique e e' w).
  - apply Hall. eapply Forall_impl; [apply (gs_records _ Hw)|]. by intros e [].
  - apply Hall. eapply Forall_impl; [apply (gs_records _ Hw)|]. by intros e [].
  - unfold zlen. rewrite <- HE. apply (gs_count _ Hw).
Qed.

Lemma sound_permuted E E' tr : E ≡ₚ E' -> sound input_numbers E tr -> sound input_numbers E' tr.
Proof. intros HE Hs k i Hp Hi. destruct (Hs k i Hp Hi) as (e & He & Hk). exists e. by rewrite <- HE. Qed.

(** The iterator that the run goes through, and the database when it begins to. *)
Lemma BuildIterator_setting w garbage :
  gc_setting w ->
  exists bits w0,
    BuildIterator env garbage (Unlock w) j0 = Some (OK, Some (BlobFileMergeIterator_new
      (map (fun g => with_bits bits (in_iterator garbage (titan_cf_options_ (blob_gc_ j0)) g)) gs)), w0) /\
    rtc (tick env) (moment w) (moment w0) /\ mutex_held w0 = false /\
    job_good (cf_id j0) bitmaps input_numbers keep (blob_file_set_ w0) (disk w0) /\
    (bitmaps = true -> forall e, e ∈ input_entries -> exists bm, bits (file_number e.2) = Some bm /\ BitMap_wf bm /\
       0 <= index (blob_handle e.2) <= valid_bits_ bm /\ (get bm (index (blob_handle e.2)) = true -> dead (lsm w0) e)).
Proof.
  intros Hw. assert (inputs j0 <> []) as Hne.
  { intros Hi. pose proof (gs_inputs _ Hw) as Hin. rewrite Hi in Hin. apply Forall2_nil_inv_l in Hin.
    apply (gs_some _ Hw). unfold input_entries. by rewrite Hin. }
  destruct bitmaps eqn:Hu.
  - destruct (gs_bitmaps _ Hw Hu) as [Hk He Hd Ho]. pose proof (gs_good _ Hw) as [Hg Hm].
    pose proof (others_good_keep _ _ _ _ _ (Unlock w) (gs_others _ Hw) Hg) as Hkeep.
    destruct (BuildIterator_bitmaps env (cf_id j0) input_numbers input_entries 1 keep garbage (Unlock w) j0 gs)
      as (bits & w1 & w2 & Hl & -> & Hb & Hbits); try done.
    { apply (gs_inputs _ Hw). }
    { apply (fm_bits _ _ _ _ _ (gs_marks _ Hw ∅ (clock w) _ (disk w) Hm) Hu). }
    { apply Forall_forall. intros e (g & r & h & Hg' & _ & ->)%input_entry. cbn.
      apply elem_of_list_to_set, list_elem_of_fmap. by exists g. }
    exists bits, (Unlock w1). split; [exact Hb|].
    destruct (Lock_good env (cf_id j0) input_numbers 1 keep (Unlock w) eq_refl Hkeep) as (w1' & Hl' & Htk & _ & Hg1).
    rewrite Hl in Hl'. injection Hl' as <-. split; [exact Htk|]. split; [done|]. split; [|by intros _].
    split; [exact Hg1|]. rewrite <- Hu in *. apply (Lock_marked env _ _ _ ∅ (Unlock w) w1 (gs_marks _ Hw ∅) Hl Hm).
  - exists (fun _ => None), (Unlock w). split; [by apply BuildIterator_plain; [|done|apply (gs_inputs _ Hw)]|].
    split; [apply rtc_refl|]. split; [done|]. split; [rewrite <- Hu; apply (gs_good _ Hw)|done].
Qed.

(** The run, whichever way it ends, and the job once it has the mutex again. *)
Lemma DoRunGC_setting w fuel garbage :
  gc_setting w -> (length input_entries <= fuel)%nat ->
  exists E s w' w1 j, input_entries ≡ₚ E /\
    DoRunGC env t copts fuel garbage (Unlock w) j0 = Some (s, w', j) /\ Lock env w' = Some w1 /\ mutex_held w1 = true /\
    stopped j0 (job_good (cf_id j0) bitmaps input_numbers keep) (fun p => sound input_numbers E p.2) (Unlock w1) j /\
    user_changed content writes (moment w) (moment w1) /\
    (s = OK -> exists kept, sublist kept E /\ covered (lsm w1) E kept /\ collected t copts input_numbers j0 j kept).
Proof.
  intros Hw Hfuel. destruct (BuildIterator_setting w garbage Hw) as (bits & w0 & Hbuild & Ht0 & Hm0 & Hg0 & Hbits).
  destruct (merge_files_drain t garbage (titan_cf_options_ (blob_gc_ j0)) gs bits (gs_type _ Hw) (gs_files _ Hw)
    (gs_some _ Hw)) as (m & E & m' & Hseek & Hd & Hst & _ & HE & _).
  change (concat (map in_entries gs)) with input_entries in *.
  pose proof (setting_entries w E Hw HE) as Hok. destruct (gs_new _ Hw) as (Hnb & Hnr & _).
  set (good := job_good (cf_id j0) bitmaps input_numbers keep).
  set (later p := sound input_numbers E p.2 /\ user_changed content writes (moment w) p).
  assert (surroundings_ok env input_numbers good later) as Henv.
  { split; [apply Hw|apply Hw| |apply Hw|].
    - intros p q Ht [Hs Hu]. split.
      + apply (sound_passed env input_numbers E (gs_references _ Hw) p q); [by apply rtc_once|done].
      + eapply user_changed_trans; [exact Hu|]. by apply (user_changed_tick _ _ env); [apply Hw|].
    - intros n s d [Hg Hm]. apply (numbers_good env (cf_id j0) input_numbers 1 keep n) in Hg as (Hg1 & Hn & Hg2); [|apply Hw].
      pose proof (gs_marks _ Hw ∅ n s d Hm) as Hm'.
      split; [by split|]. split; [done|]. split; [done|]. apply (files_marked_same (cf_id j0) bitmaps input_numbers ∅ (others_files env n (s, d)).1); [done|exact (fm_bits _ _ _ _ _ Hm')|done]. }
  assert (paused j0 good later w0 j0) as Hp.
  { split; try done. apply (later_passed env input_numbers good later Henv (moment w)); [done|].
    split; [|by apply user_changed_same]. eapply sound_permuted; [exact HE|apply (gs_lsm _ Hw)]. }
  destruct (DoRunGC_drained env t copts input_numbers E j0 good later Hok Henv (gs_options _ Hw) bits) with
    (fuel := fuel) (n := length input_entries) (garbage := garbage) (w0 := Unlock w) (w := w0)
    (iters := map (fun g => with_bits bits (in_iterator garbage (titan_cf_options_ (blob_gc_ j0)) g)) gs) (m := m) (m' := m')
    as (s & w' & j & Hrun & Hstop & Hkept); [|done|exact Hp|exact Hnr| | | |done|done|done|done|].
  { intros Hu e He. rewrite <- HE in He. destruct (Hbits Hu e He) as (bm & ? & ? & ? & _). by exists bm. }
  { intros _. apply Forall_map, Forall_map, Forall_forall. intros g _. by apply with_bits_label. }
  { intros Hu e [Hm He]%list_elem_of_filter. left. rewrite <- HE in He. destruct (Hbits Hu e He) as (bm & Hb & _ & _ & Hdead).
    unfold marked_invalid in Hm. rewrite Hb in Hm. by apply Hdead. }
  { intros ->. apply Permutation_nil_r in HE. by destruct (gs_some _ Hw). }
  destruct (Lock_good env (cf_id j0) input_numbers 1 keep w' (st_free _ _ _ _ _ Hstop)
    (others_good_keep _ _ _ _ _ _ (gs_others _ Hw) (proj1 (st_good _ _ _ _ _ Hstop))))
    as (w1 & Hl & Htk & Hm1 & Hg1).
  pose proof (Lock_marked env (cf_id j0) bitmaps input_numbers ∅ w' w1 (gs_marks _ Hw ∅) Hl (proj2 (st_good _ _ _ _ _ Hstop))) as Hmk1.
  pose proof (later_passed env input_numbers good later Henv _ _ Htk (st_later _ _ _ _ _ Hstop)) as [Hs1 Hu1].
  exists E, s, w', w1, j. split_and!; try done.
  - by destruct Hstop.
  - intros Hs. destruct (Hkept Hs) as (kept & Hsub & Hcov & Hcol). exists kept. split_and!; [done| |done].
    by apply (covered_passed env t input_numbers E good later Hok Henv (moment w') (moment w1)).
Qed.

(** The whole job. *)
Lemma RunJob_settles w fuel garbage :
  gc_setting w -> (length input_entries <= fuel)%nat ->
  exists s w' j, RunJob env t copts fuel garbage w j0 = Some (s, w', j) /\ mutex_held w' = true /\
    releasable input_numbers j0 w' j /\
    (keep -> s <> OK -> inputs_live (cf_id j0) input_numbers (blob_file_set_ w')) /\
    (s = OK -> (forall n, IsDropped env n = false) -> inputs_retired j0 (blob_file_set_ w')) /\
    (outputs_stored t content input_entries j ->
       user_changed content writes (moment w) (moment w') /\
       (s = OK -> forall k i, points (lsm w') k i -> file_number i ∉ input_numbers)).
Proof.
  intros Hw Hfuel.
  destruct (DoRunGC_setting w fuel garbage Hw Hfuel) as (E & s & w' & w1 & j & HE & Hrun & Hl & Hm1 & Hstop & Hu1 & Hkept).
  unfold RunJob. rewrite Hrun. cbn [mbind option_bind]. rewrite Hl. cbn [mbind option_bind].
  pose proof (setting_entries w E Hw HE) as Hok.
  pose proof (stopped_same input_numbers keep j0 (gs_fresh _ Hw) _ _ _ _ Hstop eq_refl) as Hj.
  destruct (decide (s = OK)) as [->|Hs].
  2:{ replace (ok s) with false by (by destruct s). exists s, w1, j. split; [done|]. split; [done|].
      split; [exact (same_job_releasable _ _ _ _ w1 _ Hj (good_storage _ _ _ _ _ _ (sj_good _ _ _ _ _ Hj)) (sj_marked _ _ _ _ _ Hj))|].
      split; [intros Hk _; by apply (fg_kept _ _ _ _ _ _ (sj_good _ _ _ _ _ Hj))|]. split; [done|]. intros _. by split. }
  cbn [ok]. destruct (Hkept eq_refl) as (kept & Hsub & Hcov & Hcol). destruct (gs_new _ Hw) as (_ & _ & Hoff).
  assert (stored_entries content E) as Hsto by (intros e; rewrite <- HE; apply (gs_stored _ Hw)).
  destruct (Finish_settles env t copts input_numbers keep E j0 Hok (gs_options _ Hw) (gs_others _ Hw) (gs_marks _ Hw)
    (fun Hu => bm_entries _ (gs_bitmaps _ Hw Hu)) (gs_fresh _ Hw) content Hsto (gs_errors _ Hw) (gs_references _ Hw) writes (gs_users _ Hw) w1 j kept Hstop Hoff Hsub Hcov Hcol)
    as (s & w2 & j2 & -> & Hm2 & _ & Hrel & Hlive & Hret & Hset).
  exists s, w2, j2. do 5 (split; [done|]). intros Hout.
  destruct Hset as (Hu2 & Hs2 & Hd2). { intros n b dict rs Hb Hf Hin. apply (Hout n b dict rs Hb Hf). by rewrite HE. }
  split; [by eapply user_changed_trans|].
  intros Hs k i Hp Hi. destruct (Hs2 k i Hp Hi) as (e & He & <- & Heq). by rewrite (Hd2 Hs e He i Hp) in Heq.
Qed.

(** C2: A software garbage collection, under the conditions of [gc_setting], is
    invisible to the users of the database. It ends, with the mutex held, whatever
    the other threads read, write, flush or delete between its steps, and
    whichever read or write of the LSM tree, creation of an output, sync, close or
    write of the manifest fails; it finds out which records are garbage by asking
    the LSM tree or, with [use_bitmap], from the bitmaps that its files have when
    it begins. What the users read afterwards is what they read before with their
    own writes applied in order: the job has overwritten none of them, and each
    record it has moved reads the same from its new file. When the job reports
    success no key refers to an input file any more, whose metadata is obsolete or
    gone unless the column family was dropped; when it reports a failure the input
    files are still there, unless others remove them.

    The conditions: the inputs are finished files, in the storage when the job
    begins, that can be opened and read whole, with at most 2^30 records and no
    empty key; an output that was created takes every append; with [use_bitmap]
    nobody removes an input while the job runs (it would not end then:
    [gone_input_deadlocks]) and the bits are set only for records that nothing
    refers to; the other threads write user data only, keep the blob file set
    well-formed and the files of the collection in their states, and never make a
    key refer to an input anew; and the statuses [NotFound] and [Busy], which the
    code takes for answers, are no errors of reads and writes. Of the reads after
    the job: that the outputs hold what was written to them. *)
Theorem gc_job_invisible w fuel garbage :
  gc_setting w -> (length input_entries <= fuel)%nat ->
  exists s w' j, RunJob env t copts fuel garbage w j0 = Some (s, w', j) /\ mutex_held w' = true /\
    (keep -> s <> OK -> inputs_live (cf_id j0) input_numbers (blob_file_set_ w')) /\
    (s = OK -> (forall n, IsDropped env n = false) -> inputs_retired j0 (blob_file_set_ w')) /\
    (outputs_stored t content input_entries j ->
       user_changed content writes (moment w) (moment w') /\
       (s = OK -> forall k i, points (lsm w') k i -> file_number i ∉ input_numbers)).
Proof.
  intros Hw Hfuel. destruct (RunJob_settles w fuel garbage Hw Hfuel) as (s & w' & j & Hr & Hm & _ & Hrest). by exists s, w', j.
Qed.
End Whole.

(** ** Releasing the files *)

(** What releasing does to the state of a file of the job. *)
Definition release_state (s : FileState) : FileState := if decide (s = kObsolete) then kObsolete else kNormal.

Lemma released_state m : state_ (released m) = release_state (state_ m).
Proof.
  unfold released, is_obsolete, release_state. destruct (decide (state_ m = kObsolete)) as [E|E].
  - by rewrite bool_decide_true.
  - by rewrite bool_decide_false.
Qed.

Lemma release_state_twice s : release_state (release_state s) = release_state s.
Proof. by destruct s. Qed.

Lemma ReleaseGcFiles_spec b gc (nums : gset Z) :
  nums = list_to_set (inputs_ gc) -> NoDup (inputs_ gc) -> NoDup (outputs_ gc) ->
  (forall n st, n ∈ nums -> (state_ <$> files_ b) !! n = Some st -> st = kBeingGC \/ st = kObsolete) ->
  (forall n, n ∈ outputs_ gc -> (state_ <$> files_ b) !! n = Some kPendingGC \/ (state_ <$> files_ b) !! n = Some kObsolete) ->
  exists files', ReleaseGcFiles b gc = Some (set_files b files') /\
    forall n, state_ <$> files' !! n =
      (if decide (n ∈ inputs_ gc \/ n ∈ outputs_ gc) then release_state else id) <$> (state_ <$> files_ b !! n).
Proof.
  intros -> Hni Hno Hin Hout. unfold ReleaseGcFiles.
  destruct (release_inputs_spec (inputs_ gc) b Hni) as (files1 & -> & Hf1).
  { intros n m Hn Hm. destruct (Hin n (state_ m)) as [H|H]; [by apply elem_of_list_to_set|by rewrite lookup_fmap, Hm|by left|by right; right]. }
  cbn [mbind option_bind].
  destruct (transit_files_spec kGCCompleted release_state (outputs_ gc) (set_files b files1) Hno) as (files2 & -> & Hf2).
  { intros n Hn. cbn [files_ set_files]. rewrite Hf1. specialize (Hout n Hn). rewrite !lookup_fmap in Hout.
    pose proof (Hin n) as Hi. rewrite lookup_fmap in Hi.
    destruct (files_ b !! n) as [m|]; [|by destruct Hout]. cbn in Hout, Hi.
    assert (state_ m = kPendingGC \/ state_ m = kObsolete) as Hs by (destruct Hout as [[= ->]|[= ->]]; tauto).
    destruct (decide (n ∈ inputs_ gc)) as [Hn'|_].
    - eexists. split; [reflexivity|]. rewrite released_state.
      destruct Hs as [Hs|Hs]; rewrite Hs; [|done]. destruct (Hi kPendingGC); [by apply elem_of_list_to_set|by rewrite Hs|done..].
    - exists m. split; [done|]. by destruct Hs as [-> | ->]. }
  exists files2. split; [done|]. intros n. rewrite Hf2. cbn [files_ set_files]. rewrite Hf1.
  assert (forall m, state_ (set_state m (release_state (state_ m))) = release_state (state_ m)) as Hst by done.
  destruct (decide (n ∈ inputs_ gc \/ n ∈ outputs_ gc)) as [H|H], (decide (n ∈ inputs_ gc)) as [Hi|Hi],
    (decide (n ∈ outputs_ gc)) as [Ho|Ho]; try tauto; destruct (files_ b !! n) as [m|]; cbn;
    rewrite ?released_state, ?release_state_twice; done.
Qed.

(** The state of a file in the storage. *)
Definition file_state (cf : Z) (s : BlobFileSet) (n : Z) : option FileState := file_states cf s ≫= lookup n.

Lemma ReleaseJob_spec (nums : gset Z) j0 w j s :
  releasable nums j0 w j -> nums = list_to_set (inputs_ (blob_gc_ j0)) -> NoDup (inputs_ (blob_gc_ j0)) ->
  exists w', ReleaseJob w j s = Some w' /\ moment w' = moment w /\ mutex_held w' = mutex_held w /\
    (s <> OK -> bg_error_ w' = s) /\
    forall n, file_state (cf_id j0) (blob_file_set_ w') n =
      (if decide (n ∈ inputs_ (blob_gc_ j0) \/ n ∈ outputs_ (blob_gc_ j)) then release_state else id) <$>
        file_state (cf_id j0) (blob_file_set_ w) n.
Proof.
  intros (Hcf & Hi & Hno & [b Hb] & Hm) Hn Hni. unfold ReleaseJob, GetBlobStorage. rewrite Hcf, Hb.
  destruct (fm_states _ _ _ _ _ Hm _ (file_states_storage _ _ _ Hb)) as [Hin Hout].
  destruct (ReleaseGcFiles_spec b (blob_gc_ j) nums) as (files' & -> & Hf); [by rewrite Hi|by rewrite Hi|done|done| |].
  { intros n Ho. apply Hout. by apply elem_of_list_to_set. }
  cbn [mbind option_bind]. eexists. split; [reflexivity|]. rewrite Hi in Hf.
  assert (forall w0, file_state (cf_id j0) (blob_file_set_ (SetBGError w0 s)) = file_state (cf_id j0) (blob_file_set_ w0)) as Hbg
    by (intros w0; unfold SetBGError; by destruct (ok s)).
  split_and!; [unfold SetBGError; by destruct (ok s)..|unfold SetBGError; by destruct s|].
  intros n. rewrite Hbg. unfold file_state. rewrite (file_states_storage _ _ _ Hb).
  erewrite file_states_storage by (cbn; apply lookup_insert_eq). cbn [mbind option_bind files_ set_files]. rewrite !lookup_fmap. apply Hf.
Qed.
