(* ===== verification/GCJobExample.v ===== *)
(** * GCJobExample: a garbage collection on a concrete database

    One input file with three records: the LSM tree refers to the first and the
    third, a compaction has marked the second, and a user overwrites the third
    while the job runs. *)
From S2P Require Import Prelude Coding Crc32c BitMap BlobFileMeta TitanStats Options VersionEdit BlobStorage BlobStorageProofs EditCollector EditCollectorProofs BlobFileSet BlobFileSetProofs BlobFileSetSpec GCPicker BlobFileBuilder BlobFileBuilderProofs BlobFileReader BlobFileReaderProofs BlobFileIterator BlobFileIteratorProofs BlobFileMergeProofs BlobFileSpec GCJob GCJobRun GCJobProofs GCJobBitmaps GCJobSpec BlobFormat.

Local Open Scope Z_scope.
Local Open Scope aegon_scope.

#[local] Existing Instance BytewiseComparator.
#[local] Existing Instance demo_library.
#[local] Existing Instance demo_library_laws.
#[local] Instance job_heap : HeapTop := demo_heap (C := BytewiseComparator).
#[local] Instance job_heap_laws : HeapTopLaws job_heap := demo_heap_laws (C := BytewiseComparator).

Definition job_contents : bytes :=
  match build 1 demo_copts new_file 2 demo_ops with Some (_, b, _) => contents (file_ b) | None => [] end.

Definition job_handles : list BlobHandle :=
  [{| offset := 12; size := 22; index := 0 |}; {| offset := 34; size := 22; index := 1 |};
   {| offset := 56; size := 22; index := 2 |}].

Lemma job_input : exists dict, is_Some dict /\ blob_file 1 2 dict (zip (records demo_ops) job_handles) job_contents.
Proof.
  destruct (build_spec 1 demo_copts 2 demo_ops demo_ops_ok demo_config_ok) as (b & dict & hs & Hb & Hfin & _).
  pose proof (fin_handles _ _ _ _ _ _ _ _ Hfin) as Hl. pose proof (fin_layout _ _ _ _ _ _ _ _ Hfin) as Hlay.
  destruct hs as [|h1 [|h2 [|h3 [|]]]]; try discriminate Hl.
  assert ([h1; h2; h3] = job_handles /\ contents (file_ b) = job_contents) as [<- <-].
  { unfold job_contents. rewrite Hb. split; [|reflexivity]. vm_compute in Hb. by injection Hb as _ <- <- <-. }
  exists dict. split; [|exact Hlay]. pose proof (fin_dict _ _ _ _ _ _ _ _ Hfin) as Hd. by destruct dict.
Qed.

Definition job_gc_input (dict : option bytes) : gc_input :=
  {| in_number := 2; in_version := 2; in_dict := dict; in_records := zip (records demo_ops) job_handles;
     in_contents := job_contents; in_id := [] |}.

(** The database. *)
Definition at_record (i : nat) : LsmValue :=
  mkLsm true (BlobIndex_EncodeTo (blob_index 2 (nth i job_handles BlobHandle_default))).

Definition job_lsm : gmap bytes LsmValue := {[ [1] := at_record 0; [3] := mkLsm false [7]; [4] := at_record 2 ]}.

(** Options that collect small files, too, with and without bitmaps. *)
Definition mode_options (bitmaps : bool) : TitanCFOptions :=
  let o := TitanCFOptions_default 7 in
  mkCFOptions (num_levels o) (min_blob_size o) (blob_file_compression o) (blob_file_target_size o) (max_gc_batch_size o)
    1 (blob_file_discardable_ratio o) (merge_small_file_threshold o) (blob_run_mode o) (level_merge o)
    (range_merge o) (max_sorted_runs o) (skip_value_in_compaction_filter o) bitmaps (gc_offload o) (binary_file_path o).

Definition job_options : TitanCFOptions := mode_options true.

Definition job_flushed : BlobFileMeta :=
  set_live_data_size (set_state (BlobFileMeta_new 2 (zlen job_contents) 3 6 [1] [4]) kPendingLSM) 66.

(** A compaction has dropped the second record. *)
Definition job_bits : BitMap := match SetBit (BitMap_new 3) 1 1 with Some (_, bm) => bm | None => BitMap_new 3 end.

Definition job_blob (st : FileState) : BlobFileMeta :=
  set_live_data_size (set_state (set_invalid job_flushed job_bits) st) 44.

(** The file is written by a flush into a new database. *)
Definition job_opened : BlobFileSet * Disk :=
  match Open io_ok (BlobFileSet_new (Some ∅) 77) example_disk {[0 := job_options]} with
  | Some (_, s, d) => (s, d)
  | None => (BlobFileSet_new None 0, example_disk)
  end.

Definition job_added : VersionEdit := mkEdit false 0 0 [job_flushed] [].

Definition job_logged : BlobFileSet * Disk :=
  match LogAndApply io_ok (NewFileNumber job_opened.1).2 job_opened.2 job_added with
  | Some (_, s, d) => (s, d)
  | None => job_opened
  end.

Definition job_storage : BlobStorage :=
  default (BlobStorage_new job_options 0) (column_families_ job_logged.1 !! 0).

(** ... and is in use, or being collected. *)
Definition job_files (st : FileState) : BlobFileSet :=
  set_column_families job_logged.1 (<[0 := update_file job_storage 2 (job_blob st)]> (column_families_ job_logged.1))
    (fs_stats_ job_logged.1).

Lemma job_initial : initial (BlobFileSetSpec.mkWorld job_opened.1 job_opened.2 ∅).
Proof.
  exists io_ok, (Some ∅), 77, example_disk, {[0 := job_options]}. split; [done|]. split.
  - intros cf [o Ho]. apply lookup_singleton_Some in Ho as [<- _]. unfold is_u32. lia.
  - split; [vm_compute; reflexivity|done].
Qed.

Lemma job_logged_files : column_families_ job_logged.1 !! 0 = Some job_storage /\ files_ job_storage = {[2 := job_flushed]}.
Proof. split; vm_compute; reflexivity. Qed.

Lemma job_reachable st :
  is_obsolete (job_blob st) = false ->
  exists p, rtc set_step (BlobFileSetSpec.mkWorld job_opened.1 job_opened.2 ∅) (BlobFileSetSpec.mkWorld (job_files st) job_logged.2 p).
Proof.
  intros Hst. eexists. eapply rtc_l; [apply step_op, step_alloc; vm_compute; reflexivity|].
  replace ((NewFileNumber job_opened.1).1) with 2 by (vm_compute; reflexivity).
  eapply rtc_l; [apply step_op, (step_log io_ok _ _ _ job_added (BlobStorage_new job_options 0) OK job_logged.1 job_logged.2);
    [vm_compute; reflexivity| | |done|vm_compute; reflexivity]|].
  - split_and!; [vm_compute; split; [discriminate|reflexivity]|vm_compute; split; [discriminate|reflexivity]| |constructor].
    constructor; [|constructor]. split_and!; try (vm_compute; split; [discriminate|reflexivity]);
      repeat constructor; try (vm_compute; discriminate).
  - intros f Hf. apply list_elem_of_singleton in Hf. subst f. split; [vm_compute; set_solver|].
    split; [done|]. split; [done|]. vm_compute. split; [discriminate|reflexivity].
  - eapply rtc_l; [|apply rtc_refl]. destruct job_logged_files as [Hb Hf].
    apply step_op, (step_file _ _ _ 0 job_storage 2 job_flushed); [exact Hb|by rewrite Hf|by split_and!|done].
Qed.

Definition job_world : World := mkWorld job_lsm (job_files kBeingGC) job_logged.2 ∅ OK true 0.

Definition job_start (bitmaps : bool) : BlobGCJob :=
  BlobGCJob_new (mkGC [2] [] (mode_options bitmaps) false) [job_blob kBeingGC] 0 false.

(** The user overwrites the key [4] after the job has looked it up, or just
    before the job would. *)
Definition job_writes (n : nat) : gmap bytes (option bytes) := if Nat.eqb n 6 then {[ [4] := Some [42] ]} else ∅.

Definition job_env : Surroundings := {|
  others_lsm n tr := if Nat.eqb n 6 then <[ [4] := mkLsm false [42] ]> tr else tr;
  others_files n p := (mkSet (fs_stats_ p.1) (obsolete_manifests_ p.1) (obsolete_columns_ p.1) (column_families_ p.1)
    (manifest_ p.1) (Z.min (fs_next_file_number_ p.1) (2 ^ 63 - 1)) (manifest_file_number_ p.1), p.2);
  read_error n := OK; write_error n := OK; shuting_down_ n := false; IsDropped n := false;
  NewBlobFileReader n := if n =? 2 then Ret (stored job_contents []) else Fail NotFound;
  NewWritableFile n := Ret new_file;
  Sync n := OK; Close n := OK; Fsync := OK; DeleteFile n := OK; log_io n := io_ok; FlushWAL := OK;
  GetLatestSequenceNumber := 100 |}.

Definition job_result (bitmaps : bool) : option (Status * World * BlobGCJob) :=
  RunJob job_env 1 demo_copts 3 0 job_world (job_start bitmaps).

(** The values of the two files. *)
Definition job_content (p : Z * Z) : option bytes :=
  match p.1, p.2 with
  | 2, 12 => Some (value (demo_record 1)) | 2, 34 => Some (value (demo_record 3)) | 2, 56 => Some (value (demo_record 4))
  | 3, 12 => Some (value (demo_record 1)) | 3, 34 => Some (value (demo_record 4)) | _, _ => None
  end.

(** The files of the world, in any state but obsolete. *)
Lemma job_files_lookup st : column_families_ (job_files st) !! 0 = Some (update_file job_storage 2 (job_blob st)) /\
  files_ (update_file job_storage 2 (job_blob st)) = {[2 := job_blob st]}.
Proof.
  split; [apply lookup_insert_eq|]. cbn [update_file set_files files_]. rewrite (proj2 job_logged_files). apply insert_singleton_eq.
Qed.

Lemma job_files_good st : is_obsolete (job_blob st) = false -> files_good 0 {[2]} 1 True (job_files st) job_logged.2.
Proof.
  intros Hst. destruct (job_reachable st Hst) as [p Hr].
  destruct (reachable_ok _ _ job_initial Hr) as [Hwf _]. destruct (job_files_lookup st) as [Hb Hf]. split.
  - exact Hwf.
  - vm_compute. by eexists.
  - vm_compute. split; [discriminate|reflexivity].
  - intros _ b n Hb' ->%elem_of_singleton. rewrite Hb in Hb'. apply Some_inj in Hb'. subst b.
    exists (job_blob st). rewrite Hf. split; [reflexivity|exact Hst].
  - intros n ->%elem_of_singleton. vm_compute. reflexivity.
  - eexists. split; [exact Hb|]. split; [vm_compute; discriminate|].
    intros n m Hm. rewrite Hf in Hm. apply lookup_singleton_Some in Hm as [_ <-]. split; [discriminate|reflexivity].
Qed.

Lemma job_bits_good st : bits_good 0 (job_files st).
Proof.
  intros b n m Hb Hm. destruct (job_files_lookup st) as [Hb' Hf]. pose proof (eq_trans (eq_sym Hb) Hb') as E.
  apply Some_inj in E. subst b. rewrite Hf in Hm. clear -Hm. apply lookup_singleton_Some in Hm as [_ <-]. exists job_bits.
  split; [reflexivity|]. split; [|vm_compute; reflexivity].
  destruct (SetBit_spec (BitMap_new 3) 1 1) as (bm & Hs & Hwf & _); [by apply BitMap_new_wf|vm_compute; split; discriminate|by right|].
  unfold job_bits. by rewrite Hs.
Qed.

Lemma job_marked bitmaps : files_marked 0 bitmaps {[2]} ∅ (job_files kBeingGC).
Proof.
  split; [|intros _; apply job_bits_good]. intros states Hs.
  destruct (job_files_lookup kBeingGC) as [Hb Hf]. pose proof (eq_trans (eq_sym Hs) (file_states_storage _ _ _ Hb)) as E.
  apply Some_inj in E. rewrite Hf in E. clear -E. subst states.
  split; [|intros n Hn; destruct (not_elem_of_empty (C := gset Z) n Hn)]. intros n st _. rewrite map_fmap_singleton.
  intros [_ <-]%lookup_singleton_Some. by left.
Qed.

(** The others only limit the file numbers. *)
Lemma job_others_files n s d : column_families_ (others_files job_env n (s, d)).1 = column_families_ s.
Proof. done. Qed.

Lemma job_marks bitmaps outs : others_mark job_env 0 bitmaps {[2]} outs.
Proof. intros n s d [Hs Hb]. by split. Qed.

Lemma job_entries : others_entries job_env 0.
Proof. intros k n N N' s d H1 H2. unfold entries_at in *. rewrite job_others_files in H2. congruence. Qed.

Lemma job_others : others_good job_env 0 {[2]} 1 True.
Proof.
  intros n s d [Hwf Hk Hn Hkept Hin Hst]. cbn. split; [|lia]. split; cbn; [done|done|lia|done| |done].
  intros x Hx. pose proof (Hin x Hx). apply elem_of_singleton in Hx as ->. lia.
Qed.

Lemma job_references : no_new_references job_env {[2]}.
Proof.
  intros n tr k i (v & Hv & Hr) _. cbn [others_lsm job_env] in *. destruct (Nat.eqb n 6); [|done].
  apply (lookup_insert_Some (M := gmap bytes)) in Hv as [[<- <-]|[Hne _]]; [done|].
  by rewrite (lookup_insert_ne (M := gmap bytes)).
Qed.

Lemma job_users : users_write job_content job_writes job_env.
Proof.
  intros n tr k. unfold written, job_writes, view. cbn [others_lsm job_env]. destruct (Nat.eqb n 6).
  2:{ by rewrite (lookup_empty (M := gmap bytes)). }
  destruct (decide (k = [4])) as [->|Hne].
  - by rewrite (lookup_insert_eq (M := gmap bytes)), (lookup_singleton_eq (M := gmap bytes)).
  - by rewrite (lookup_insert_ne (M := gmap bytes)), (lookup_singleton_ne (M := gmap bytes)).
Qed.

Lemma job_sound dict : sound {[2]} (input_entries [job_gc_input dict]) job_lsm.
Proof.
  intros k i (v & Hv & Hr) Hi. unfold job_lsm in Hv.
  apply (lookup_insert_Some (M := gmap bytes)) in Hv as [[<- <-]|[_ Hv]];
    [|apply (lookup_insert_Some (M := gmap bytes)) in Hv as [[<- <-]|[_ Hv]];
      [|apply (lookup_singleton_Some (M := gmap bytes)) in Hv as [<- <-]]].
  - exists (demo_record 1, blob_index 2 (nth 0 job_handles BlobHandle_default)). vm_compute in Hr. injection Hr as <-.
    split; [by left|done].
  - done.
  - exists (demo_record 4, blob_index 2 (nth 2 job_handles BlobHandle_default)). vm_compute in Hr. injection Hr as <-.
    split; [by right; right; left|done].
Qed.

(** The second record is the only one that is marked, and nothing refers to it. *)
Lemma job_second dict e : e ∈ input_entries [job_gc_input dict] ->
  0 <= index (blob_handle e.2) <= 3 /\ (get job_bits (index (blob_handle e.2)) = true -> key e.1 = [3]).
Proof.
  intros He. cbn in He. repeat (apply elem_of_cons in He as [->|He]; [vm_compute; by repeat split|]). by apply elem_of_nil in He.
Qed.

Lemma job_unreferenced e : key e.1 = [3] -> dead job_lsm e.
Proof. intros Hk i (v & Hv & Hr). rewrite Hk in Hv. vm_compute in Hv. injection Hv as <-. discriminate Hr. Qed.

Lemma job_marks_dead dict : marks_dead 0 {[2]} (input_entries [job_gc_input dict]) (job_files kBeingGC) job_lsm.
Proof.
  intros b n m e Hb _ Hm He _. destruct (job_files_lookup kBeingGC) as [Hb' Hf]. pose proof (eq_trans (eq_sym Hb) Hb') as E.
  apply Some_inj in E. subst b. rewrite Hf in Hm. clear -Hm He. apply lookup_singleton_Some in Hm as [_ <-].
  destruct (job_second dict e He) as [Hi Hk]. split; [exact Hi|]. intros Hb. exact (job_unreferenced e (Hk Hb)).
Qed.

Lemma job_bitmaps bitmaps dict :
  bitmap_setting job_env [job_gc_input dict] (job_start bitmaps) True job_world.
Proof.
  assert (input_numbers [job_gc_input dict] = {[2]}) as Hn by (unfold input_numbers; cbn; by rewrite union_empty_r_L).
  split; rewrite ?Hn; [done|exact job_entries|apply job_marks_dead|].
  intros n s d tr Hmd b k m e Hb Hk Hm He Hf. destruct (Hmd b k m e Hb Hk Hm He Hf) as [Hi Hd]. split; [done|]. intros Hinv.
  apply (dead_others job_env {[2]}); [exact job_references|by rewrite Hf|by apply Hd].
Qed.

Lemma job_setting bitmaps dict :
  is_Some dict -> blob_file 1 2 dict (zip (records demo_ops) job_handles) job_contents ->
  gc_setting job_env 1 demo_copts [job_gc_input dict] (job_start bitmaps) job_content job_writes True job_world.
Proof.
  intros Hd Hf. assert (input_numbers [job_gc_input dict] = {[2]}) as Hn by (unfold input_numbers; cbn; by rewrite union_empty_r_L).
  split; rewrite ?Hn; try done.
  - split; [exact demo_config_ok|by destruct bitmaps].
  - constructor; [|constructor]. split; cbn [in_version in_dict in_records in_contents job_gc_input]; [done|done|by left| |done].
    cbn. repeat (apply Forall_cons; split); try constructor; apply (Forall_forall record_ok (records demo_ops));
      try exact demo_records_ok; cbn; set_solver.
  - constructor; [|constructor]. split_and!; reflexivity.
  - cbn. constructor; [|constructor]. apply not_elem_of_nil.
  - repeat constructor; try (intros dd; vm_compute; by eexists); done.
  - intros e He. cbn in He. repeat (apply elem_of_cons in He as [->|He]; [reflexivity|]). by apply elem_of_nil in He.
  - split; [exact (job_files_good kBeingGC eq_refl)|apply job_marked].
  - apply job_sound.
  - exact job_others.
  - apply job_marks.
  - intros _. by apply job_bitmaps.
  - exact job_references.
  - exact job_users.
Qed.

(** The two records of the output file. *)
Definition job_output : bytes :=
  match job_result true with
  | Some (_, _, j) => match blob_file_builders_ j with (_, b) :: _ => contents (file_ b) | [] => [] end
  | None => []
  end.

Lemma job_output_records dict rs :
  blob_file 1 kVersion2 dict rs job_output -> Forall (fun p => record_ok p.1) rs -> zlen rs <= 3 ->
  forall r h, (r, h) ∈ rs -> job_content (3, offset h) = Some (value r).
Proof.
  intros Hf Hok Hn. destruct (SeekToFirst_file 1 ltac:(done) kVersion2 dict rs job_output [] 0 3 (TitanCFOptions_default 7) 100 Hf)
    as (i & Hs & Hr); [done|by left|done|lia..|].
  unfold job_output in Hs. vm_compute in Hs. injection Hs as <-.
  destruct rs as [|[r1 h1] rs]; [intros r h ?%not_elem_of_nil; done|]. cbn [entries map fst snd remaining] in Hr.
  destruct Hr as (_ & _ & <- & Hx1 & i2 & Hn2 & Hr). vm_compute in Hx1, Hn2. injection Hx1 as <-. injection Hn2 as <-.
  destruct rs as [|[r2 h2] rs]; [by intros r h [= -> ->]%list_elem_of_singleton|]. cbn [entries map fst snd remaining] in Hr.
  destruct Hr as (_ & _ & <- & Hx2 & i3 & Hn3 & Hr). vm_compute in Hx2, Hn3. injection Hx2 as <-. injection Hn3 as <-.
  destruct rs as [|[r3 h3] rs]; [|by destruct Hr as (_ & Hv & _)].
  by intros r h [[= -> ->]|[= -> ->]%list_elem_of_singleton]%elem_of_cons.
Qed.

Lemma job_outputs_stored bitmaps dict s w j :
  job_result bitmaps = Some (s, w, j) -> outputs_stored 1 job_content (input_entries [job_gc_input dict]) j.
Proof.
  intros Hres n b d rs Hin Hb Hsub. destruct bitmaps; vm_compute in Hres; injection Hres as _ _ <-; apply list_elem_of_singleton in Hin as [= -> ->];
  apply (job_output_records d rs Hb).
  all: apply submseteq_length in Hsub as Hlen; rewrite !length_map in Hlen; try (unfold zlen; cbn in Hlen; lia).
  all: apply Forall_forall; intros [r h] Hr; assert (r ∈ records demo_ops) as Hr' by
    (eapply elem_of_submseteq in Hsub; [exact Hsub|]; apply list_elem_of_fmap; exists (r, h); exact (conj eq_refl Hr)).
  all: pose proof demo_records_ok as Hrec; rewrite Forall_forall in Hrec; by apply Hrec.
Qed.

(** With the bitmap the LSM tree is not asked about any record. *)
Lemma job_result_read bitmaps : match job_result bitmaps with
  | Some (s, w, j) => s = OK /\ gc_num_read_lsm (metrics_ j) = (if bitmaps then 0 else 3) /\ view job_content (lsm w) [1] = Some (value (demo_record 1)) /\ view job_content (lsm w) [4] = Some [42]
  | None => False
  end.
Proof. destruct bitmaps; vm_compute; by split_and!. Qed.

(** With and without bitmaps the job ends well; the user reads the first value
    from its new place, and the third as it was overwritten. *)
Definition job_unnoticed (bitmaps : bool) : Prop :=
  exists w j, RunJob job_env 1 demo_copts 3 0 job_world (job_start bitmaps) = Some (OK, w, j) /\
    user_changed job_content job_writes (moment job_world) (moment w) /\
    (forall k i, points (lsm w) k i -> file_number i ∉ ({[2]} : gset Z)) /\
    view job_content (lsm w) [1] = Some (value (demo_record 1)) /\ view job_content (lsm w) [4] = Some [42].

Lemma gc_job_invisible_witness : job_unnoticed true /\ job_unnoticed false.
Proof.
  assert (forall bitmaps, job_unnoticed bitmaps) as Hjob; [|by split]. intros bitmaps.
  destruct job_input as (dict & Hd & Hf).
  destruct (gc_job_invisible job_env 1 demo_copts [job_gc_input dict] (job_start bitmaps) job_content job_writes True job_world 3 0
    (job_setting bitmaps dict Hd Hf) (le_n 3)) as (s & w & j & Hrun & _ & _ & _ & Hout).
  assert (job_result bitmaps = Some (s, w, j)) as Hres by exact Hrun.
  destruct Hout as [Hu Hp].
  - exact (job_outputs_stored bitmaps dict s w j Hres).
  - pose proof (job_result_read bitmaps) as Hread. rewrite Hres in Hread. destruct Hread as (-> & _ & H1 & H4).
    exists w, j. split; [exact Hrun|]. split; [exact Hu|]. split.
    { intros k i Hk. pose proof (Hp eq_refl k i Hk) as Hn. unfold input_numbers in Hn. cbn in Hn. set_solver. }
    exact (conj H1 H4).
Defined.

(** ** Inputs that are missing *)

(** The file 9 is not there. *)
Definition bitmap_job : BlobGCJob :=
  BlobGCJob_new (mkGC [2; 9] [] job_options false)
    [job_blob kBeingGC; BlobFileMeta_new 9 500 3 0 [5] [6]] 0 false.

Lemma job_known : bitmap_known (update_file job_storage 2 (job_blob kBeingGC)) 2.
Proof.
  exists (job_blob kBeingGC). destruct (job_files_lookup kBeingGC) as [Hb Hf]. rewrite Hf.
  split; [reflexivity|]. split; [reflexivity|]. apply (job_bits_good kBeingGC _ 2 _ Hb). by rewrite Hf.
Qed.

Lemma job_storage_wf : storage_wf (update_file job_storage 2 (job_blob kBeingGC)).
Proof.
  destruct (job_reachable kBeingGC eq_refl) as [p Hr]. destruct (reachable_ok _ _ job_initial Hr) as [Hwf _].
  destruct (Hwf _ _ (proj1 (job_files_lookup kBeingGC))) as (_ & Hbw & _). exact Hbw.
Qed.

Lemma BuildIterator_hides_open_error_witness :
  NewBlobFileReader job_env 9 = Fail NotFound /\
  exists l w', BuildIterator job_env 0 (Unlock job_world) bitmap_job = Some (OK, Some (BlobFileMergeIterator_new l), w') /\
    map it_file_number_ l = [2].
Proof.
  split; [reflexivity|].
  refine (BuildIterator_hides_open_error job_env 0 (Unlock job_world) bitmap_job [job_blob kBeingGC]
    (BlobFileMeta_new 9 500 3 0 [5] [6]) [] NotFound (update_file job_storage 2 (job_blob kBeingGC)) _ _ _ _ _ _ _ job_storage_wf _);
    [reflexivity|reflexivity|discriminate|constructor; [by eexists|constructor]|reflexivity|reflexivity|vm_compute; reflexivity|].
  constructor; [exact job_known|constructor].
Defined.

(** ... or only its metadata is not. *)
Definition job_env_9 : Surroundings := {|
  others_lsm := others_lsm job_env; others_files := others_files job_env; read_error := read_error job_env;
  write_error := write_error job_env; shuting_down_ := shuting_down_ job_env; IsDropped := IsDropped job_env;
  NewBlobFileReader n := Ret (stored job_contents []);
  NewWritableFile := NewWritableFile job_env; Sync := Sync job_env; Close := Close job_env; Fsync := Fsync job_env;
  DeleteFile := DeleteFile job_env; log_io := log_io job_env; FlushWAL := FlushWAL job_env;
  GetLatestSequenceNumber := GetLatestSequenceNumber job_env |}.

Lemma gone_input_deadlocks_witness : RunJob job_env_9 1 demo_copts 9 0 job_world bitmap_job = None.
Proof.
  refine (proj2 (gone_input_deadlocks job_env_9 1 demo_copts 9 0 job_world bitmap_job [job_blob kBeingGC]
    (BlobFileMeta_new 9 500 3 0 [5] [6]) [] (update_file job_storage 2 (job_blob kBeingGC)) _ _ _ _ job_storage_wf _ _));
    [reflexivity|reflexivity|repeat constructor; by eexists|vm_compute; reflexivity|constructor; [exact job_known|constructor]|].
  intros m Hm. destruct (job_files_lookup kBeingGC) as [_ Hf]. rewrite Hf in Hm. apply lookup_singleton_Some in Hm as [Hn _].
  discriminate Hn.
Defined.
