(* ===== verification/DBFiles.v ===== *)
(** * DBFiles: removing obsolete files from the disk

    [db_impl_files.cc], and the calls of [db_impl.cc] and [db_impl.h] that go
    with it: [PurgeObsoleteFilesImpl] asks the set of blob files for the files
    that no snapshot needs any more and deletes them, unless file deletions are
    disabled. Log messages are not modelled. *)
From stdpp Require Import sorting.
From S2P Require Import Prelude Coding BitMap BlobFileMeta TitanStats Options VersionEdit BlobStorage BlobFileSet GCPicker BlobFileReader GCJob.

Local Open Scope Z_scope.
Local Open Scope aegon_scope.

#[export] Instance FileName_eq_dec : EqDecision FileName.
Proof. solve_decision. Defined.

(** [snapshots]: the sequence numbers of the snapshot list, oldest first. *)
Definition GetOldestSnapshotSequence (snapshots : list Z) : Z :=
  match snapshots with
  | [] => kMaxSequenceNumber
  | oldest :: _ => oldest
  end.

(** [std::unique] with [erase]. *)
Fixpoint unique (l : list FileName) : list FileName :=
  match l with
  | x :: (y :: _) as rest => if bool_decide (x = y) then unique rest else x :: unique rest
  | _ => l
  end.

Definition delete_file (d : Disk) (f : FileName) : Disk :=
  match f with
  | BlobFileName n => mkDisk (current_ d) (manifests_ d) (blobs_ d ∖ {[n]})
  | DescriptorFileName n => mkDisk (current_ d) (delete n (manifests_ d)) (blobs_ d)
  | CurrentFileName => mkDisk None (manifests_ d) (blobs_ d)
  end.

Section Files.
Context `{C : Comparator}.
Context (env : Surroundings).

(** The order of the file names as strings, and [Env::DeleteFile]. *)
Context (name_le : relation FileName) `{!RelDecision name_le} (DeleteName : FileName -> Status).

(** [disable_titandb_file_deletions_]. *)
Definition Disabled : Type := Z.

Fixpoint delete_candidates (s : Status) (d : Disk) (candidate_files : list FileName) : Status * Disk :=
  match candidate_files with
  | [] => (s, d)
  | candidate_file :: candidate_files =>
      let delete_status := DeleteName candidate_file in
      let d := if ok delete_status then delete_file d candidate_file else d in
      let s := if negb (ok s) then delete_status else s in
      delete_candidates s d candidate_files
  end.

Definition PurgeObsoleteFilesImpl (w : World) (disabled : Disabled) (snapshots : list Z) : option (Status * World) :=
  if 0 <? disabled then Some (OK, w) else
  let oldest_sequence := GetOldestSnapshotSequence snapshots in
  w ← Lock env w;
  '(candidate_files, s) ← GetObsoleteFiles (blob_file_set_ w) oldest_sequence;
  let w := Unlock (set_files_of w s (disk w)) in
  let candidate_files := unique (merge_sort name_le candidate_files) in
  let '(st, d) := delete_candidates OK (disk w) candidate_files in
  Some (st, set_files_of w (blob_file_set_ w) d).

(** The assertion on the status. *)
Definition PurgeObsoleteFiles (w : World) (disabled : Disabled) (snapshots : list Z) : option World :=
  '(s, w) ← PurgeObsoleteFilesImpl w disabled snapshots; _ ← assert (ok s); Some w.

(** The argument [base] is the status of the base database. *)
Definition DisableFileDeletions (base : Status) (disabled : Disabled) : Status * Disabled :=
  if negb (ok base) then (base, disabled) else (OK, disabled + 1).

Definition EnableFileDeletions (base : Status) (force : bool) (disabled : Disabled) : option (Status * Disabled) :=
  if negb (ok base) then Some (base, disabled) else
  let '(count, disabled) :=
    if force then (0, 0) else if 0 <? disabled then (disabled - 1, disabled - 1) else (0, disabled) in
  _ ← assert (0 <=? count);
  Some (OK, disabled).

(** The files and edits of a checkpoint. *)
Definition GetAllTitanFiles (base_disable base_enable : Status) (w : World) (disabled : Disabled)
    : option (Status * list FileName * list VersionEdit * World * Disabled) :=
  let '(s, disabled) := DisableFileDeletions base_disable disabled in
  if negb (ok s) then Some (s, [], [], w, disabled) else
  w ← Lock env w;
  let '(files, edits) := GetAllFiles (blob_file_set_ w) in
  let w := Unlock w in
  '(s, disabled) ← EnableFileDeletions base_enable false disabled;
  Some (s, files, edits, w, disabled).
End Files.
