(* ===== verification/DBFilesProofs.v ===== *)
(** * DBFilesProofs: what is purged, and what a snapshot keeps

    The exact effect of [GetObsoleteFiles] on the set of blob files and of
    [PurgeObsoleteFilesImpl] on the disk, and the invariant that keeps the files
    a snapshot refers to in their storage while the snapshot is held. *)
From stdpp Require Import sorting.
From S2P Require Import Prelude Coding BitMap BlobFileMeta TitanStats Options VersionEdit BlobStorage BlobStorageProofs EditCollector EditCollectorProofs BlobFileSet BlobFileSetProofs BlobFileSetSpec GCPicker BlobFileReader BlobStorageRead GCJob GCJobProofs DBFiles.

Local Open Scope Z_scope.
Local Open Scope aegon_scope.

Section Proofs.
Context `{C : Comparator} `{LC : !ComparatorLaws C}.

(** ** [GetObsoleteFiles] *)

(** A storage without the files that became obsolete before [oldest]. *)
Definition purged (oldest : Z) (b b' : BlobStorage) : Prop :=
  (forall x, x ∈ obsolete_files_ b' <-> x ∈ obsolete_files_ b /\ oldest <= x.2) /\
  (forall n, files_ b' !! n = None <-> files_ b !! n = None \/ exists seq, (n, seq) ∈ obsolete_files_ b /\ seq < oldest) /\
  (forall n m, files_ b' !! n = Some m -> files_ b !! n = Some m) /\ destroyed_ b' = destroyed_ b.

Lemma expired_elem oldest l n : n ∈ (expired oldest l).*1 <-> exists seq, (n, seq) ∈ l /\ seq < oldest.
Proof.
  unfold expired. rewrite list_elem_of_fmap. split.
  - intros ([n' seq] & -> & H%list_elem_of_filter). exists seq. by destruct H.
  - intros (seq & Hin & Hlt). exists (n, seq). split; [done|]. by apply list_elem_of_filter.
Qed.

Lemma purged_storage oldest b b' :
  obsolete_files_ b' = unexpired oldest (obsolete_files_ b) ->
  (forall n, files_ b' !! n = if decide (n ∈ (expired oldest (obsolete_files_ b)).*1) then None else files_ b !! n) ->
  destroyed_ b' = destroyed_ b -> purged oldest b b'.
Proof.
  intros Ho Hf Hd. split; [|split; [|split; [|done]]].
  - intros x. rewrite Ho. unfold unexpired. rewrite list_elem_of_filter. rewrite Z.nlt_ge. tauto.
  - intros n. rewrite Hf, <- expired_elem. case_decide; tauto.
  - intros n m. rewrite Hf. by case_decide.
Qed.

(** The files of the storages [l] of which the column family is not dropped. *)
Definition expires (s : BlobFileSet) (l : list Z) (oldest n : Z) : Prop :=
  exists cf b seq, cf ∈ l /\ (cf ∉ obsolete_columns_ s) /\ column_families_ s !! cf = Some b /\
    (n, seq) ∈ obsolete_files_ b /\ seq < oldest.

(** A destroyed storage without obsolete files is given up. *)
Definition left_behind (b : BlobStorage) : option BlobStorage := if MaybeRemove b then None else Some b.

(** The set after their purge. *)
Record purged_set (s : BlobFileSet) (l : list Z) (oldest : Z) (s' : BlobFileSet) : Prop := {
  ps_wf : set_wf s';
  ps_manifest : manifest_ s' = manifest_ s;
  ps_next : fs_next_file_number_ s' = fs_next_file_number_ s;
  ps_columns : obsolete_columns_ s' = obsolete_columns_ s;
  ps_manifests : obsolete_manifests_ s' = obsolete_manifests_ s;
  ps_other : forall cf, cf ∉ l \/ cf ∈ obsolete_columns_ s -> column_families_ s' !! cf = column_families_ s !! cf;
  ps_purged : forall cf b, cf ∈ l -> cf ∉ obsolete_columns_ s -> column_families_ s !! cf = Some b ->
    exists b', purged oldest b b' /\ column_families_ s' !! cf = left_behind b';
  ps_none : forall cf, column_families_ s !! cf = None -> column_families_ s' !! cf = None }.

Lemma obsolete_cfs_spec l : forall s oldest names,
  set_wf s -> NoDup l ->
  exists names' s', obsolete_cfs s l oldest names = Some (names', s') /\ purged_set s l oldest s' /\
    forall n, n ∈ names' <-> n ∈ names \/ expires s l oldest n.
Proof.
  induction l as [|cf l IH]; intros s oldest names Hwf Hnd.
  { exists names, s. split; [done|]. split; [|]. 2:{ intros n. split; [by left|]. intros [?|(? & ? & ? & ?%elem_of_nil & _)]; done. }
    split; try done. intros cf b ?%elem_of_nil. done. }
  apply NoDup_cons in Hnd as [Hcf Hnd]. cbn [obsolete_cfs].
  (* a storage that is passed over *)
  assert (forall b, column_families_ s !! cf = b -> b = None \/ cf ∈ obsolete_columns_ s ->
    exists names' s', obsolete_cfs s l oldest names = Some (names', s') /\ purged_set s (cf :: l) oldest s' /\
      forall n, n ∈ names' <-> n ∈ names \/ expires s (cf :: l) oldest n) as Hskip.
  { intros b Hb Hpass. destruct (IH s oldest names Hwf Hnd) as (names' & s' & -> & [H1 H2 H3 H4 H5 H6 H7 H8] & Hn).
    exists names', s'. split; [done|]. split.
    - split; try done.
      + intros cf' [Hn'|Hin]; apply H6; [left; set_solver|by right].
      + intros cf' b' Hin Hno Hb'. apply elem_of_cons in Hin as [->|Hin]; [|by apply H7].
        destruct Hpass as [->|?]; congruence.
    - intros n. rewrite Hn. split; (intros [?|(cf' & b' & seq & Hin & Hno & Hb' & Hx)]; [by left|right]).
      + exists cf', b', seq. by split; [right|].
      + exists cf', b', seq. split; [|done]. apply elem_of_cons in Hin as [->|?]; [|done].
        destruct Hpass as [->|?]; congruence. }
  destruct (column_families_ s !! cf) as [b|] eqn:Hb; [|by apply (Hskip None); [|left]].
  case_bool_decide as Hdrop; [by apply (Hskip (Some b)); [|right]|]. clear Hskip.
  destruct (Hwf _ _ Hb) as (_ & Hbw & Hst).
  destruct (GetObsoleteFiles_wf b (fs_stats_ s) oldest names Hbw Hst) as (b1 & st1 & Hg & _).
  rewrite Hg. cbn [mbind option_bind].
  destruct (obsolete_cf_wf _ _ _ _ _ _ _ _ Hwf Hb Hg) as (Hwf1 & _ & _ & Hob & Hde & Hf).
  set (s1 := set_column_families s (if MaybeRemove b1 then delete cf (column_families_ s)
               else <[cf := b1]> (column_families_ s)) st1) in *.
  pose proof (purged_storage _ _ _ Hob Hf Hde) as Hp.
  assert (forall cf', cf' <> cf -> column_families_ s1 !! cf' = column_families_ s !! cf') as Hother.
  { intros cf' Hne. subst s1. cbn. destruct (MaybeRemove b1); [by rewrite lookup_delete_ne|by rewrite lookup_insert_ne]. }
  destruct (IH s1 oldest (names ++ (expired oldest (obsolete_files_ b)).*1) Hwf1 Hnd) as (names' & s' & -> & [H1 H2 H3 H4 H5 H6 H7 H8] & Hn).
  exists names', s'. split; [done|]. split.
  - split; try done.
    + intros cf' Hout. destruct (decide (cf' = cf)) as [->|Hne]; [destruct Hout as [Hout|]; [set_solver|done]|].
      rewrite H6; [by apply Hother|]. destruct Hout as [Hout|?]; [left; set_solver|by right].
    + intros cf' b' Hin Hno Hb'. destruct (decide (cf' = cf)) as [->|Hne].
      * rewrite Hb in Hb'. injection Hb' as <-. exists b1. split; [done|]. rewrite H6 by by left.
        subst s1. unfold left_behind. cbn. destruct (MaybeRemove b1); [by rewrite lookup_delete_eq|by rewrite lookup_insert_eq].
      * apply elem_of_cons in Hin as [->|Hin]; [done|]. apply H7; [done|done|]. by rewrite Hother.
    + intros cf' Hno. destruct (decide (cf' = cf)) as [->|Hne]; [congruence|]. apply H8. by rewrite Hother.
  - intros n. rewrite Hn, elem_of_app, expired_elem. split.
    + intros [[?|(seq & Hin & Hlt)]|(cf' & b' & seq & Hin & Hno & Hb' & Hx)]; [by left|right..].
      * exists cf, b, seq. by split; [left|].
      * exists cf', b', seq. split; [by right|]. split; [done|]. rewrite Hother in Hb' by congruence. done.
    + intros [?|(cf' & b' & seq & Hin & Hno & Hb' & Hx & Hlt)]; [by left; left|].
      apply elem_of_cons in Hin as [->|Hin]; [left; right; exists seq; split; [congruence|done]|].
      right. exists cf', b', seq. split; [done|]. split; [done|]. rewrite Hother by congruence. done.
Qed.

Lemma GetObsoleteFiles_spec s oldest :
  set_wf s ->
  exists names s', GetObsoleteFiles s oldest = Some (names, s') /\ set_wf s' /\
    manifest_ s' = manifest_ s /\ fs_next_file_number_ s' = fs_next_file_number_ s /\ obsolete_manifests_ s' = [] /\
    (forall cf, match column_families_ s !! cf with
       | Some b =>
           if decide (cf ∈ obsolete_columns_ s) then column_families_ s' !! cf = Some b else
           exists b', purged oldest b b' /\ column_families_ s' !! cf = left_behind b'
       | None => column_families_ s' !! cf = None
       end) /\
    (forall f, f ∈ names <->
       match f with
       | BlobFileName n => exists cf b seq, (cf ∉ obsolete_columns_ s) /\ column_families_ s !! cf = Some b /\
           (n, seq) ∈ obsolete_files_ b /\ seq < oldest
       | DescriptorFileName k => k ∈ obsolete_manifests_ s
       | CurrentFileName => False
       end).
Proof.
  intros Hwf. unfold GetObsoleteFiles.
  destruct (obsolete_cfs_spec ((map_to_list (column_families_ s)).*1) s oldest [] Hwf (NoDup_fst_map_to_list _))
    as (names & s1 & -> & [H1 H2 H3 H4 H5 H6 H7 H8] & Hn). cbn [mbind option_bind].
  assert (forall cf b, column_families_ s !! cf = Some b -> cf ∈ (map_to_list (column_families_ s)).*1) as Hkey.
  { intros cf b Hb. apply list_elem_of_fmap. exists (cf, b). by rewrite elem_of_map_to_list. }
  eexists _, _. split; [reflexivity|]. split; [exact H1|]. cbn. split_and!; [done..| |].
  - intros cf. destruct (column_families_ s !! cf) as [b|] eqn:Hb; [|by apply H8].
    case_decide as Hdrop; [rewrite H6; [done|by right]|]. apply H7; [by eapply Hkey|done|done].
  - intros f. rewrite elem_of_app, !list_elem_of_fmap, <- H5. destruct f as [n|k|].
    + split.
      * intros [(n' & [= <-] & Hin)|(? & ? & _)]; [|done]. apply Hn in Hin as [?%elem_of_nil|(cf & b & seq & _ & Hx)]; [done|]. by exists cf, b, seq.
      * intros (cf & b & seq & Hd & Hb & Hx). left. exists n. split; [done|]. apply Hn. right. exists cf, b, seq. split; [by eapply Hkey|done].
    + split; [intros [(? & ? & _)|(k' & [= <-] & Hin)]; done|]. intros Hin. right. by exists k.
    + split; [|done]. by intros [(? & ? & _)|(? & ? & _)].
Qed.

(** ** [PurgeObsoleteFilesImpl] *)

Lemma unique_elem x : forall l, x ∈ unique l <-> x ∈ l.
Proof.
  induction l as [|a l IH]; [done|]. cbn [unique]. destruct l as [|b l]; [done|].
  case_bool_decide as Heq; rewrite ?elem_of_cons, IH, !elem_of_cons; [subst; tauto|done].
Qed.

Section Purge.
Context (env : Surroundings) (name_le : relation FileName) `{!RelDecision name_le} (DeleteName : FileName -> Status).

(** What is left of the blob files of a disk. *)
Lemma delete_candidates_spec l : forall d,
  (delete_candidates DeleteName OK d l).1 = OK /\
  forall n, n ∈ blobs_ (delete_candidates DeleteName OK d l).2 <->
    n ∈ blobs_ d /\ (BlobFileName n ∉ l \/ DeleteName (BlobFileName n) <> OK).
Proof.
  induction l as [|f l IH]; intros d; [split; [done|]; intros n; cbn; set_solver|].
  cbn [delete_candidates ok negb]. destruct (IH (if ok (DeleteName f) then delete_file d f else d)) as [-> Hn].
  split; [done|]. intros n. rewrite Hn, not_elem_of_cons. clear IH Hn.
  destruct (DeleteName f) eqn:Ed; cbn [ok].
  1: destruct f as [k|k|]; cbn [delete_file blobs_]; [|naive_solver..].
  1: rewrite elem_of_difference, elem_of_singleton; destruct (decide (n = k)) as [->|Hne]; naive_solver.
  all: destruct (decide (BlobFileName n = f)) as [<-|Hne]; [rewrite Ed; naive_solver|naive_solver].
Qed.

Lemma PurgeObsoleteFilesImpl_spec w disabled snapshots :
  mutex_held w = false -> set_wf (blob_file_set_ (others env w)) -> disabled <= 0 ->
  let w1 := others env w in
  let oldest := GetOldestSnapshotSequence snapshots in
  exists names s' w', GetObsoleteFiles (blob_file_set_ w1) oldest = Some (names, s') /\
    PurgeObsoleteFilesImpl env name_le DeleteName w disabled snapshots = Some (OK, w') /\
    blob_file_set_ w' = s' /\ lsm w' = lsm w1 /\ mutex_held w' = false /\
    forall n, n ∈ blobs_ (disk w') <->
      n ∈ blobs_ (disk w1) /\ (BlobFileName n ∉ names \/ DeleteName (BlobFileName n) <> OK).
Proof.
  intros Hm Hwf Hd w1 oldest. destruct (GetObsoleteFiles_spec _ oldest Hwf) as (names & s' & Hg & _).
  fold w1 in Hg. unfold PurgeObsoleteFilesImpl. rewrite (proj2 (Z.ltb_ge _ _)) by lia. unfold Lock. rewrite Hm. fold w1. fold oldest.
  cbn [mbind option_bind blob_file_set_]. rewrite Hg. cbn [mbind option_bind].
  pose proof (delete_candidates_spec (unique (merge_sort name_le names)) (disk w1)) as [Hs Hn].
  cbn [Unlock set_files_of disk blob_file_set_ lsm pending_outputs_ bg_error_ clock] in *.
  destruct (delete_candidates DeleteName OK (disk w1) (unique (merge_sort name_le names))) as [st d']. cbn [fst snd] in Hs, Hn. subst st.
  exists names, s'. eexists. split; [done|]. split; [reflexivity|]. split_and!; try done. intros n. cbn [disk].
  rewrite Hn. by rewrite unique_elem, (merge_sort_Permutation name_le names).
Qed.
End Purge.

(** ** What a snapshot keeps

    A snapshot with the sequence number [q] is held; [P] are the blob files of
    the column family [cf] that it refers to. *)
Section Held.
Context (q cf : Z) (P : Z -> Prop) (sizes : Z -> Z).

(** The files are in the storage, and a purge that respects the snapshot does
    not take them away. *)
Record guarded (s : BlobFileSet) : Prop := {
  gd_wf : set_wf s;
  gd_manifest : is_Some (manifest_ s);
  gd_next : 0 <= fs_next_file_number_ s;
  gd_storage : exists b, column_families_ s !! cf = Some b /\ destroyed_ b = false /\
    (forall n m, files_ b !! n = Some m -> file_size_ m = sizes n) /\
    forall n, P n -> is_Some (files_ b !! n) /\ forall seq, (n, seq) ∈ obsolete_files_ b -> q <= seq }.

(** What the other threads do meanwhile: they take file numbers, log edits,
    change what the metadata say of live data, purge what is older than the
    oldest snapshot, drop column families and destroy other ones. Files that the
    snapshot refers to are only deleted after it was taken. *)
Inductive meanwhile : BlobFileSet * Disk -> BlobFileSet * Disk -> Prop :=
  | mw_number s d : meanwhile (s, d) ((NewFileNumber s).2, d)
  | mw_log io s d e b st s' d' :
      column_families_ s !! column_family_id_ e = Some b ->
      (forall f, f ∈ added_files_ e -> addable b (file_number_ f) f) ->
      (column_family_id_ e = cf -> forall f, f ∈ added_files_ e -> file_size_ f = sizes (file_number_ f)) ->
      (column_family_id_ e = cf -> forall n seq, (n, seq) ∈ deleted_files_ e -> P n -> q <= seq) ->
      LogAndApply io s d e = Some (st, s', d') -> meanwhile (s, d) (s', d')
  | mw_file s d c b n m m' :
      column_families_ s !! c = Some b -> files_ b !! n = Some m -> same_file m m' ->
      meanwhile (s, d) (set_column_families s (<[c := update_file b n m']> (column_families_ s)) (fs_stats_ s), d)
  | mw_scores s d c b :
      column_families_ s !! c = Some b ->
      meanwhile (s, d) (set_column_families s (<[c := ComputeGCScore b]> (column_families_ s)) (fs_stats_ s), d)
  | mw_purge s d d' oldest names s' :
      oldest <= q -> GetObsoleteFiles s oldest = Some (names, s') -> meanwhile (s, d) (s', d')
  | mw_drop s d c : meanwhile (s, d) (set_obsolete_columns s ({[c]} ∪ obsolete_columns_ s), d)
  | mw_destroy s d c : c <> cf -> meanwhile (s, d) ((MaybeDestroyColumnFamily s c).2, d).

(** The storage that the snapshot reads from. *)
Lemma guarded_storage s :
  guarded s -> exists b, GetBlobStorage s cf = Some b /\ storage_sized sizes b /\ forall n, P n -> is_Some (files_ b !! n).
Proof.
  intros [Hwf _ _ (b & Hb & _ & Hsz & HP)]. destruct (Hwf _ _ Hb) as (_ & Hbw & _). exists b. split; [done|]. split.
  - intros n. split; [by apply FindFile_wf|]. intros m Hm. split; [by apply (wf_number _ Hbw)|by apply Hsz].
  - intros n Hn. by apply HP.
Qed.

(** When the snapshot is taken, its files are not obsolete. *)
Lemma live_guarded s b :
  set_wf s -> is_Some (manifest_ s) -> 0 <= fs_next_file_number_ s ->
  column_families_ s !! cf = Some b -> destroyed_ b = false ->
  (forall n m, files_ b !! n = Some m -> file_size_ m = sizes n) ->
  (forall n, P n -> exists m, files_ b !! n = Some m /\ is_obsolete m = false) -> guarded s.
Proof.
  intros Hwf Hm Hn Hb Hd Hsz HP. split; [done|done|done|]. exists b. split; [done|]. split; [done|]. split; [done|].
  intros n (m & Hmm & Ho)%HP. split; [by exists m|]. intros seq Hin. exfalso. destruct (Hwf _ _ Hb) as (_ & Hbw & _).
  assert (n ∈ (obsolete_files_ b).*1) as Hin' by (apply list_elem_of_fmap; by exists (n, seq)).
  apply (wf_obsolete _ Hbw) in Hin' as (m' & Hm' & Ho'). rewrite Hmm in Hm'. injection Hm' as <-. congruence.
Qed.

(** Changing a storage and nothing else. *)
Lemma guarded_storage_change s cfs st :
  guarded s -> cfs_wf st cfs ->
  (forall b, column_families_ s !! cf = Some b -> exists b', cfs !! cf = Some b' /\ destroyed_ b' = destroyed_ b /\
     (forall n m', files_ b' !! n = Some m' -> file_size_ m' = sizes n \/ exists m, files_ b !! n = Some m /\ file_size_ m' = file_size_ m) /\
     (forall n, P n -> is_Some (files_ b !! n) -> is_Some (files_ b' !! n)) /\
     (forall n seq, P n -> (n, seq) ∈ obsolete_files_ b' -> (n, seq) ∈ obsolete_files_ b \/ q <= seq)) ->
  guarded (set_column_families s cfs st).
Proof.
  intros [Hwf Hm Hn (b & Hb & Hd & Hsz & HP)] Hwf' Hch. split; [done|done|done|].
  destruct (Hch b Hb) as (b' & Hb' & Hd' & Hsz' & Hf' & Ho'). exists b'. split; [done|]. split; [congruence|]. split.
  - intros n m' Hm'. destruct (Hsz' n m' Hm') as [|(m & Hmm & ->)]; [done|by apply Hsz].
  - intros n Hn'. destruct (HP n Hn') as [Hin Hseq]. split; [by apply Hf'|]. intros seq Hin'.
    destruct (Ho' n seq Hn' Hin') as [|]; [by apply Hseq|done].
Qed.

Lemma storage_insert_wf s c b b' :
  set_wf s -> column_families_ s !! c = Some b -> cf_id_ b' = cf_id_ b -> storage_wf b' -> stats_ok (fs_stats_ s) b' ->
  cfs_wf (fs_stats_ s) (<[c := b']> (column_families_ s)).
Proof.
  intros Hwf Hb Hid Hw Hst c' x [[<- <-]|[_ Hx]]%lookup_insert_Some; [|by apply Hwf].
  destruct (Hwf _ _ Hb) as (Hi & _). by split; [rewrite Hid|].
Qed.

(** ... of one column family. *)
Lemma guarded_insert s c b b' :
  guarded s -> column_families_ s !! c = Some b -> cf_id_ b' = cf_id_ b -> storage_wf b' -> stats_ok (fs_stats_ s) b' ->
  destroyed_ b' = destroyed_ b -> obsolete_files_ b' = obsolete_files_ b ->
  (forall n, match files_ b' !! n, files_ b !! n with
     | Some m', Some m => file_size_ m' = file_size_ m | None, None => True | _, _ => False end) ->
  guarded (set_column_families s (<[c := b']> (column_families_ s)) (fs_stats_ s)).
Proof.
  intros Hg Hb Hid Hw Hst Hd Ho Hf. apply guarded_storage_change; [done|by eapply storage_insert_wf; [apply Hg|..]|].
  intros x Hx. destruct (decide (c = cf)) as [->|Hne].
  - rewrite Hb in Hx. injection Hx as <-. exists b'. rewrite lookup_insert_eq, Ho. split_and!; [done|done| | |by left].
    + intros n m' Hm'. right. specialize (Hf n). rewrite Hm' in Hf. destruct (files_ b !! n) as [m|]; [|done]. by exists m.
    + intros n _ [m Hm]. specialize (Hf n). rewrite Hm in Hf. by destruct (files_ b' !! n).
  - exists x. rewrite lookup_insert_ne by done. split_and!; [done|done| |done|by left]. intros n m' Hm'. right. by exists m'.
Qed.

Lemma log_guarded io s d e b st s' d' :
  guarded s -> column_families_ s !! column_family_id_ e = Some b ->
  (forall f, f ∈ added_files_ e -> addable b (file_number_ f) f) ->
  (column_family_id_ e = cf -> forall f, f ∈ added_files_ e -> file_size_ f = sizes (file_number_ f)) ->
  (column_family_id_ e = cf -> forall n seq, (n, seq) ∈ deleted_files_ e -> P n -> q <= seq) ->
  LogAndApply io s d e = Some (st, s', d') -> guarded s'.
Proof.
  intros Hg Hb Hadd Hsz Hdel Hla. destruct (gd_manifest _ Hg) as [k Hk].
  destruct (LogAndApply_spec io s d e b k (gd_wf _ Hg) Hk (gd_next _ Hg) Hb Hadd) as [[_ H]|[(_ & _ & H)|[(_ & _ & _ & H)|
    (_ & _ & _ & cfs' & st' & b' & H & Hwf' & Hb' & Hed & Hoth)]]]; rewrite H in Hla; injection Hla as <- <- <-; try done.
  apply guarded_storage_change; [done|done|]. intros x Hx. destruct (decide (cf = column_family_id_ e)) as [Heq|Hne].
  2:{ exists x. rewrite Hoth by done. split_and!; [done|done| |done|by left]. intros n m' Hm'. right. by exists m'. }
  rewrite Heq, Hb in Hx. injection Hx as <-. exists b'. rewrite Heq. destruct Hed as (Hf & Ho & _ & Hd & _).
  split; [done|]. split; [done|]. split; [|split].
  - intros n m' Hm'. rewrite Hf in Hm'. unfold edited in Hm'.
    destruct (cf_added_files_ (collect CFEditCollector_new e) !! n) as [m1|] eqn:E1;
      destruct (cf_deleted_files_ (collect CFEditCollector_new e) !! n) as [sq|].
    + right. by exists m'.
    + injection Hm' as <-. apply collect_new_added in E1 as [E1 <-]. left. by apply Hsz.
    + apply fmap_Some in Hm' as (m1 & Hm1 & ->). right. by exists m1.
    + right. by exists m'.
  - intros n _ [m Hm]. rewrite Hf. unfold edited. rewrite Hm.
    destruct (cf_added_files_ _ !! n), (cf_deleted_files_ _ !! n); by eexists.
  - intros n seq HP [Hin|[Hin _]]%Ho; [by left|right]. rewrite collect_new in Hin. cbn in Hin.
    apply elem_of_list_to_map_2 in Hin. by eapply Hdel.
Qed.

Lemma purge_guarded s oldest names s' :
  guarded s -> oldest <= q -> GetObsoleteFiles s oldest = Some (names, s') -> guarded s'.
Proof.
  intros [Hwf Hm Hn (b & Hb & Hd & Hsz & HP)] Hq Hg.
  destruct (GetObsoleteFiles_spec s oldest Hwf) as (names' & s1 & Hg' & Hwf' & Hm' & Hn' & _ & Hcf & _).
  rewrite Hg in Hg'. injection Hg' as <- <-. split; [done|by rewrite Hm'|by rewrite Hn'|].
  specialize (Hcf cf). rewrite Hb in Hcf. case_decide; [by exists b|].
  destruct Hcf as (b' & (Ho & Hf & Hs & Hd') & ->). exists b'. split; [unfold left_behind, MaybeRemove; by rewrite Hd', Hd|].
  split; [congruence|]. split; [intros n m Hmm; by apply Hsz, Hs|].
  intros n Hn1. destruct (HP n Hn1) as [Hin Hseq]. split.
  - apply not_eq_None_Some. rewrite Hf. intros [Hno|(seq & Hx & Hlt)]; [by rewrite Hno in Hin; destruct Hin|].
    specialize (Hseq seq Hx). lia.
  - intros seq Hx. apply Ho in Hx as [Hx _]. by apply Hseq.
Qed.

Lemma meanwhile_guarded x y : meanwhile x y -> guarded x.1 -> guarded y.1.
Proof.
  intros Hstep Hg. destruct Hstep as [s d|io s d e b st s' d' Hb Ha Hs Hde Hl|s d c b n m m' Hb Hm Hsame|s d c b Hb|s d d' o ns s' Ho Hl|s d c|s d c Hne]; cbn [fst] in *.
  - destruct Hg as [H1 H2 H3 H4]. split; try done. cbn. pose proof (Z.mod_pos_bound (fs_next_file_number_ s + 1) (2 ^ 64)). unfold u64. lia.
  - by eapply log_guarded.
  - destruct (gd_wf _ Hg _ _ Hb) as (_ & Hbw & Hst). destruct (update_file_wf _ _ _ _ _ Hbw Hst Hm Hsame) as [Hbw' Hst'].
    eapply guarded_insert; try done. intros n'. cbn. destruct (decide (n = n')) as [<-|Hne].
    + rewrite lookup_insert_eq, Hm. apply Hsame.
    + rewrite lookup_insert_ne by done. by destruct (files_ b !! n').
  - destruct (gd_wf _ Hg _ _ Hb) as (_ & Hbw & Hst). eapply guarded_insert; try done; [by apply ComputeGCScore_wf|].
    intros n'. cbn. by destruct (files_ b !! n').
  - by eapply purge_guarded.
  - by destruct Hg.
  - destruct Hg as [Hwf Hm Hn (b & Hb & Hx)]. unfold MaybeDestroyColumnFamily. cbn [column_families_ set_obsolete_columns].
    destruct (column_families_ s !! c) as [bc|] eqn:Hbc; cbn [snd]; [|split; try done; by exists b].
    destruct (Hwf _ _ Hbc) as (Hid & [] & Hst). destruct (MaybeRemove _); cbn [snd]; split; try done; cbn.
    + intros c' y Hy. cbn in Hy. apply lookup_delete_Some in Hy as [_ Hy]. by apply Hwf.
    + exists b. by rewrite lookup_delete_ne.
    + apply (storage_insert_wf s c bc); [done|done|done|by split|done].
    + exists b. by rewrite lookup_insert_ne.
Qed.

Lemma meanwhiles_guarded x y : rtc meanwhile x y -> guarded x.1 -> guarded y.1.
Proof. induction 1; eauto using meanwhile_guarded. Qed.
End Held.

(** ** Properties *)

(** C17: [PurgeObsoleteFilesImpl] takes exactly the files away that became
    obsolete before the oldest snapshot: they leave the storages of all column
    families that are not dropped, every other file stays, and of the blob files
    on the disk exactly those are deleted that are taken away and that the file
    system can delete. It reports success in any case: when a deletion fails the
    file stays on the disk, no storage knows it any more, and the caller's
    assertion passes. While deletions are disabled nothing happens. *)
Theorem purge_exact env (name_le : relation FileName) `{!RelDecision name_le} DeleteName w disabled snapshots :
  mutex_held w = false -> set_wf (blob_file_set_ (others env w)) ->
  let w1 := others env w in
  let s1 := blob_file_set_ w1 in
  let oldest := GetOldestSnapshotSequence snapshots in
  (0 < disabled -> PurgeObsoleteFiles env name_le DeleteName w disabled snapshots = Some w) /\
  (disabled <= 0 ->
   exists w', PurgeObsoleteFiles env name_le DeleteName w disabled snapshots = Some w' /\
     PurgeObsoleteFilesImpl env name_le DeleteName w disabled snapshots = Some (OK, w') /\
     (forall n, n ∈ blobs_ (disk w') <-> n ∈ blobs_ (disk w1) /\
        ~ ((exists cf b seq, (cf ∉ obsolete_columns_ s1) /\ column_families_ s1 !! cf = Some b /\
              (n, seq) ∈ obsolete_files_ b /\ seq < oldest) /\ DeleteName (BlobFileName n) = OK)) /\
     forall cf b, column_families_ s1 !! cf = Some b ->
       if decide (cf ∈ obsolete_columns_ s1) then column_families_ (blob_file_set_ w') !! cf = Some b else
       exists b', purged oldest b b' /\ column_families_ (blob_file_set_ w') !! cf = left_behind b').
Proof.
  intros Hm Hwf w1 s1 oldest. split.
  { intros Hd. unfold PurgeObsoleteFiles, PurgeObsoleteFilesImpl. by rewrite (proj2 (Z.ltb_lt _ _) Hd). }
  intros Hd. destruct (PurgeObsoleteFilesImpl_spec env name_le DeleteName w disabled snapshots Hm Hwf Hd)
    as (names & s' & w' & Hg & Hp & Hs' & _ & _ & Hn). fold w1 s1 oldest in Hg, Hn.
  destruct (GetObsoleteFiles_spec s1 oldest Hwf) as (names' & s2 & Hg' & _ & _ & _ & _ & Hcf & Hnames).
  rewrite Hg in Hg'. injection Hg' as <- <-. exists w'. split; [unfold PurgeObsoleteFiles; by rewrite Hp|]. split; [done|]. split.
  - intros n. rewrite Hn. specialize (Hnames (BlobFileName n)). cbn in Hnames. rewrite <- Hnames.
    destruct (decide (DeleteName (BlobFileName n) = OK)); destruct (decide (BlobFileName n ∈ names)); tauto.
  - intros cf b Hb. rewrite Hs'. specialize (Hcf cf). by rewrite Hb in Hcf.
Qed.
End Proofs.
