(* ===== verification/Checkpoint.v ===== *)
(** * Checkpoint: a copy of the database that can be opened

    [titan_checkpoint_impl.h] and [titan_checkpoint_impl.cc]. A checkpoint is
    built in a staging directory next to its place: the blob files of the
    database are linked or copied into it, a manifest is written for them, and
    [CURRENT] names that manifest; the directory is renamed at the end. The
    checkpoint of the base database and the outcome of every file operation are
    arguments. [None] is a failed assertion or a mutex that its holder locks
    again. The names of Titan's files are the constructors of [FileName]; log
    messages are not modelled. *)
From S2P Require Import Prelude Coding BitMap BlobFileMeta TitanStats Options VersionEdit BlobStorage BlobFileSet GCPicker GCJob DBFiles.

Local Open Scope Z_scope.
Local Open Scope aegon_scope.

(** ** Directories *)

(** A directory with files of Titan, other files, and a directory [titandb]. *)
#[warnings="-register-all"]
Inductive Directory : Type :=
  | mkDirectory (files : Disk) (other : gset bytes) (titandb : option Directory).

Definition dir_files (d : Directory) : Disk := let '(mkDirectory files _ _) := d in files.

Definition empty_disk : Disk := mkDisk None ∅ ∅.

Definition empty_directory : Directory := mkDirectory empty_disk ∅ None.

(** The directories by their paths without the slashes at the end. *)
Abbreviation FileSystem := (gmap bytes Directory) (only parsing).

(** [checkpoint_dir.find_last_not_of('/')]. *)
Fixpoint find_last_not_of_slash (dir : bytes) : option nat :=
  match dir with
  | [] => None
  | c :: dir =>
      match find_last_not_of_slash dir with
      | Some i => Some (S i)
      | None => if c =? 47 then None else Some 0%nat
      end
  end.

Definition canonical (dir : bytes) : bytes :=
  match find_last_not_of_slash dir with Some i => take (S i) dir | None => [] end.

(** ["/titandb"] and [".tmp"]. *)
Definition titandb_suffix : bytes := [47; 116; 105; 116; 97; 110; 100; 98].
Definition tmp_suffix : bytes := [46; 116; 109; 112].

Definition no_files (d : Disk) : bool :=
  match current_ d with
  | Some _ => false
  | None => bool_decide (dom (manifests_ d) = ∅ /\ blobs_ d = ∅)
  end.

(** ** [CleanStagingDirectory] *)

(** The outcomes of the calls, by the depth of the directory. *)
Record CleanIO : Type := mkClean {
  exists_error : nat -> Status;
  children_error : nat -> Status;
  delete_error : nat -> FileName -> Status;
  delete_other_error : nat -> bytes -> Status;
  delete_dir_error : nat -> Status }.

Definition clean_ok : CleanIO := mkClean (fun _ => OK) (fun _ => OK) (fun _ _ => OK) (fun _ _ => OK) (fun _ => OK).

Definition delete_files_of (io : CleanIO) (depth : nat) (d : Disk) : Disk :=
  mkDisk (if ok (delete_error io depth CurrentFileName) then None else current_ d)
    (filter (fun e => ok (delete_error io depth (DescriptorFileName e.1)) = false) (manifests_ d))
    (filter (fun n => ok (delete_error io depth (BlobFileName n)) = false) (blobs_ d)).

Fixpoint clean_directory (io : CleanIO) (depth : nat) (d : Directory) : option Directory :=
  let '(mkDirectory files other titandb) := d in
  if bool_decide (exists_error io depth = NotFound) then Some d else
  let '(files, other, titandb) :=
    if ok (children_error io depth)
    then (delete_files_of io depth files, filter (fun f => ok (delete_other_error io depth f) = false) other,
          match titandb with Some t => clean_directory io (S depth) t | None => None end)
    else (files, other, titandb) in
  let empty := no_files files && bool_decide (other = ∅) && match titandb with None => true | Some _ => false end in
  if empty && ok (delete_dir_error io depth) then None else Some (mkDirectory files other titandb).

(** No file has the empty name. *)
Definition CleanStagingDirectory (io : CleanIO) (fs : FileSystem) (full_private_path : bytes) : FileSystem :=
  if bool_decide (full_private_path = []) then fs else
  match fs !! full_private_path with
  | None => fs
  | Some d =>
      match clean_directory io 0 d with
      | None => delete full_private_path fs
      | Some d => <[full_private_path := d]> fs
      end
  end.

(** ** The files of a checkpoint *)

(** The outcomes of the other calls. [manifest_io] is for the manifest of the
    checkpoint; [current_left] is what a failed [CreateFile] leaves of
    [CURRENT]. *)
Record CheckpointIO : Type := mkCheckpointIO {
  FileExists_error : Status;
  base_disable : Status;
  base_checkpoint : Status;
  clean_before : CleanIO;
  CreateDir_error : Status;
  all_disable : Status;
  all_enable : Status;
  LinkFile_error : Z -> Status;
  CopyFile_error : Z -> Status;
  manifest_io : IO;
  CreateFile_error : Status;
  current_left : option CurrentFile;
  base_enable : Status;
  RenameFile_error : Status;
  NewDirectory_error : Status;
  Fsync_error : Status;
  clean_after : CleanIO }.

Definition add_blob (d : Disk) (n : Z) : Disk := mkDisk (current_ d) (manifests_ d) ({[n]} ∪ blobs_ d).

(** [Env::LinkFile] refuses a source that is gone and a target that is there. *)
Definition LinkFile (io : CheckpointIO) (src dst : Disk) (n : Z) : Status * Disk :=
  if negb (ok (LinkFile_error io n)) then (LinkFile_error io n, dst) else
  if bool_decide (n ∈ blobs_ src) && negb (bool_decide (n ∈ blobs_ dst)) then (OK, add_blob dst n) else (IOError, dst).

(** [CopyFile]; a copy that fails does not count as the file. *)
Definition CopyFile (io : CheckpointIO) (src dst : Disk) (n : Z) : Status * Disk :=
  if negb (ok (CopyFile_error io n)) then (CopyFile_error io n, dst) else
  if bool_decide (n ∈ blobs_ src) then (OK, add_blob dst n) else (IOError, dst).

Definition CreateTitanManifest (io : IO) (d : Disk) (number : Z) (edits : list VersionEdit) : Status * Disk :=
  if negb (ok (io_new_file io)) then (io_new_file io, d) else
  let '(s, items) := write_records io 0 edits in
  let d := mkDisk (current_ d) (<[number := items]> (manifests_ d)) (blobs_ d) in
  if negb (ok s) then (s, d) else (io_sync io, d).

Section Checkpoint.
Context `{C : Comparator}.
Context (env : Surroundings) (io : CheckpointIO).

(** The variables of the loop of [CreateCustomCheckpoint]; [dst] is the staging
    directory. *)
Record Copying : Type := mkCopying {
  cp_status : Status;
  same_fs : bool;
  dst : Disk;
  manifest_fname : option Z;
  current_fname : bool }.

(** One file; [src] is the directory of the database at that moment. *)
Definition copy_file (src : Disk) (version_edits : list VersionEdit) (st : Copying) (live_file : FileName) : Copying :=
  match live_file with
  | CurrentFileName => mkCopying (cp_status st) (same_fs st) (dst st) (manifest_fname st) true
  | DescriptorFileName number =>
      let '(s, d) := CreateTitanManifest (manifest_io io) (dst st) number version_edits in
      mkCopying s (same_fs st) d (Some number) (current_fname st)
  | BlobFileName number =>
      let '(s, fs, d) :=
        if same_fs st then
          let '(s, d) := LinkFile io src (dst st) number in
          if bool_decide (s = NotSupported) then (OK, false, d) else (s, true, d)
        else (cp_status st, false, dst st) in
      let '(s, d) := if negb fs then CopyFile io src d number else (s, d) in
      mkCopying s fs d (manifest_fname st) (current_fname st)
  end.

Fixpoint copy_files (w : World) (version_edits : list VersionEdit) (st : Copying) (titandb_files : list FileName)
    : World * Copying :=
  match titandb_files with
  | [] => (w, st)
  | live_file :: titandb_files =>
      let w := others env w in
      copy_files w version_edits (copy_file (disk w) version_edits st live_file) titandb_files
  end.

(** The status of [create_file_cb] is ignored. *)
Definition CreateCustomCheckpoint (w : World) (disabled : Disabled) (d : Disk)
    : option (Status * World * Disabled * Disk) :=
  '(s, titandb_files, version_edits, w, disabled) ← GetAllTitanFiles env (all_disable io) (all_enable io) w disabled;
  if negb (ok s) then Some (s, w, disabled, d) else
  let '(w, st) := copy_files w version_edits (mkCopying s true d None false) titandb_files in
  let d :=
    match manifest_fname st with
    | Some number =>
        if ok (cp_status st) && current_fname st
        then mkDisk (if ok (CreateFile_error io) then Some (mkCurrent number true) else current_left io)
               (manifests_ (dst st)) (blobs_ (dst st))
        else dst st
    | None => dst st
    end in
  Some (cp_status st, w, disabled, d).

(** ** [CreateCheckpoint] *)

(** The directory and the status of [FileExists]. *)
Definition FileExists (fs : FileSystem) (dir : bytes) : Status :=
  if negb (ok (FileExists_error io)) then FileExists_error io else
  match fs !! canonical dir with Some _ => OK | None => NotFound end.

Definition CreateDir (fs : FileSystem) (path : bytes) : Status * FileSystem :=
  if negb (ok (CreateDir_error io)) then (CreateDir_error io, fs) else
  match fs !! path with Some _ => (IOError, fs) | None => (OK, <[path := empty_directory]> fs) end.

Definition RenameFile (fs : FileSystem) (path target : bytes) : Status * FileSystem :=
  if negb (ok (RenameFile_error io)) then (RenameFile_error io, fs) else
  match fs !! path, fs !! target with
  | Some d, None => (OK, <[target := d]> (delete path fs))
  | _, _ => (IOError, fs)
  end.

(** From the checkpoint of the base database to the empty staging directory;
    the path stays empty when the former fails. *)
Definition prepare_staging (w : World) (fs : FileSystem) (private_path : bytes)
    : Status * World * FileSystem * bytes :=
  let w := others env w in
  if negb (ok (base_checkpoint io)) then (base_checkpoint io, w, fs, []) else
  let fs := CleanStagingDirectory (clean_before io) fs private_path in
  let '(s, fs) := CreateDir fs private_path in
  (s, w, fs, private_path).

Definition finish_checkpoint (s : Status) (fs : FileSystem) (full_private_path checkpoint_dir : bytes)
    : Status * FileSystem :=
  let '(s, fs) := if ok s then RenameFile fs full_private_path checkpoint_dir else (s, fs) in
  let s :=
    if ok s then if ok (NewDirectory_error io) then Fsync_error io else NewDirectory_error io else s in
  if ok s then (s, fs) else (s, CleanStagingDirectory (clean_after io) fs full_private_path).

Definition CreateCheckpoint (base_checkpoint_dir titan_checkpoint_dir : bytes) (w : World) (disabled : Disabled)
    (fs : FileSystem) : option (Status * World * Disabled * FileSystem) :=
  let checkpoint_dir :=
    if bool_decide (titan_checkpoint_dir = []) then base_checkpoint_dir ++ titandb_suffix else titan_checkpoint_dir in
  let s := FileExists fs checkpoint_dir in
  if ok s then Some (InvalidArgument, w, disabled, fs) else
  if negb (bool_decide (s = NotFound)) then _ ← assert (bool_decide (s = IOError)); Some (s, w, disabled, fs) else
  match find_last_not_of_slash checkpoint_dir with
  | None => _ ← assert (bool_decide (checkpoint_dir = [])); Some (InvalidArgument, w, disabled, fs)
  | Some final_nonslash_idx =>
      let '(s, disabled) := DisableFileDeletions (base_disable io) disabled in
      let disabled_file_deletions := ok s in
      let '(s, w, fs, full_private_path) :=
        if ok s then prepare_staging w fs (take (S final_nonslash_idx) checkpoint_dir ++ tmp_suffix)
        else (s, w, fs, []) in
      '(s, w, disabled, fs) ←
        (if ok s then
           '(s, w, disabled, d) ← CreateCustomCheckpoint w disabled (from_option dir_files empty_disk (fs !! full_private_path));
           Some (s, w, disabled, <[full_private_path := mkDirectory d ∅ None]> fs)
         else Some (s, w, disabled, fs));
      disabled ←
        (if disabled_file_deletions then
           '(ss, disabled) ← EnableFileDeletions (base_enable io) false disabled;
           _ ← assert (ok ss);
           Some disabled
         else Some disabled);
      let '(s, fs) := finish_checkpoint s fs full_private_path (canonical checkpoint_dir) in
      Some (s, w, disabled, fs)
  end.
End Checkpoint.
