(* ===== verification/CheckpointProofs.v ===== *)
(** * CheckpointProofs: what a checkpoint holds

    The lemmas behind [CheckpointSpec]: a manifest with all files of the set of
    blob files is recoverable, the files of the database stay while file
    deletions are disabled, and what the copying loop leaves in the staging
    directory. *)
From S2P Require Import Prelude Coding BitMap BlobFileMeta TitanStats Options VersionEdit BlobStorage BlobStorageProofs EditCollector EditCollectorProofs BlobFileSet BlobFileSetProofs GCPicker GCJob DBFiles Checkpoint BlobFileSetSpec.

Local Open Scope Z_scope.
Local Open Scope aegon_scope.

Section Proofs.
Context `{C : Comparator} `{LC : !ComparatorLaws C}.

(** ** The manifest of a checkpoint *)

(** The set of blob files with every file live, the way the manifest of a
    checkpoint lists them. *)
Definition revive_file (m : BlobFileMeta) : BlobFileMeta := set_state m kNormal.

Definition revive (b : BlobStorage) : BlobStorage := set_files b (revive_file <$> files_ b).

Definition revived (s : BlobFileSet) (k : Z) : BlobFileSet :=
  mkSet (fs_stats_ s) [] ∅ (revive <$> column_families_ s) (Some k) (fs_next_file_number_ s) k.

Lemma revived_live b n : live_file (files_ (revive b)) n = revive_file <$> files_ b !! n.
Proof. unfold live_file, revive. cbn. rewrite lookup_fmap. by destruct (files_ b !! n). Qed.

Lemma all_files_adds s :
  set_wf s -> encodable s -> adds_files s all_files_edit (fun b n => files_ b !! n).
Proof.
  intros Hwf Henc.
  assert (forall cf b, column_families_ s !! cf = Some b ->
    by_number <$> (map_to_list (files_ b)).*2 = map_to_list (files_ b)) as Hmap.
  { intros cf b Hb. destruct (Hwf _ _ Hb) as (_ & Hbw & _). rewrite <- list_fmap_compose.
    rewrite <- (list_fmap_id (map_to_list (files_ b))) at 2. apply list_fmap_ext.
    intros i [n m] Hi. unfold by_number, compose. cbn.
    apply list_elem_of_lookup_2, elem_of_map_to_list in Hi. by rewrite (wf_number _ Hbw _ _ Hi). }
  split.
  - intros cf b Hb. destruct (proj2 Henc _ _ Hb) as [Hcf Hf]. split; [split_and!; cbn|split_and!; [done|done|done|]].
    + unfold is_u64. lia.
    + done.
    + apply Forall_forall. intros m ([n m'] & -> & Hin%elem_of_map_to_list)%list_elem_of_fmap. by eapply Hf.
    + by constructor.
    + pose proof (NoDup_fst_map_to_list (files_ b)) as Hnd. rewrite <- (Hmap _ _ Hb), <- list_fmap_compose in Hnd.
      exact Hnd.
  - intros cf b n Hb. cbn. by rewrite (Hmap _ _ Hb), list_to_map_to_list.
Qed.

(** A file of a column family. *)
Definition has_file (s : BlobFileSet) (cf n : Z) : Prop :=
  exists b, column_families_ s !! cf = Some b /\ is_Some (files_ b !! n).

Definition numbered (s : BlobFileSet) : Prop := forall cf n, has_file s cf n -> n < fs_next_file_number_ s.

Lemma checkpoint_recoverable s d k :
  set_wf s -> encodable s -> numbered s ->
  current_ d = Some (mkCurrent k true) -> manifests_ d !! k = Some (records (BlobFileSet.GetAllFiles s).2) ->
  recoverable (revived s k) d.
Proof.
  intros Hwf Henc Hnum Hcur Hman.
  destruct (read_adds s _ _ (proj1 Henc) (all_files_adds s Hwf Henc)) as (ec & Hr & Hcw & Hhas & Hnx & Himg & Hused).
  split.
  - split; [apply Henc|]. intros cf b Hb. cbn in Hb. rewrite lookup_fmap in Hb. apply fmap_Some in Hb as (b0 & Hb & ->).
    destruct (proj2 Henc _ _ Hb) as [Hcf Hf]. split; [done|]. intros n m Hm. cbn in Hm. rewrite lookup_fmap in Hm.
    apply fmap_Some in Hm as (m0 & Hm & ->). exact (Hf _ _ Hm).
  - exists ec. split.
    + exists k, (records (BlobFileSet.GetAllFiles s).2). split_and!; try done; [rewrite Hnx; apply Henc|by rewrite Hnx|].
      intros cf b n Hb. cbn in Hb. rewrite lookup_fmap in Hb. apply fmap_Some in Hb as (b0 & Hb & ->).
      rewrite (Himg _ _ _ Hb), revived_live. by destruct (files_ b0 !! n).
    + intros cf n (b & Hb & Hn)%Hused. rewrite Hnx. apply (Hnum cf). by exists b.
Qed.

(** The column families that a checkpoint is opened with. *)
Definition opens_checkpoint (s : BlobFileSet) (cfs : gmap Z TitanCFOptions) : Prop :=
  forall cf o, cfs !! cf = Some o -> exists b, column_families_ s !! cf = Some b /\
    forall n m, files_ b !! n = Some m -> 0 <= file_level_ m < num_levels o.

Lemma checkpoint_opens s d k stats garbage cfs :
  set_wf s -> encodable s -> numbered s -> opens_checkpoint s cfs -> fs_next_file_number_ s < 2 ^ 64 - 2 ->
  current_ d = Some (mkCurrent k true) -> manifests_ d !! k = Some (records (BlobFileSet.GetAllFiles s).2) ->
  exists s' d', Open io_ok (BlobFileSet_new stats garbage) d cfs = Some (OK, s', d') /\
    forall cf b, column_families_ s !! cf = Some b -> is_Some (cfs !! cf) ->
      exists b', column_families_ s' !! cf = Some b' /\
        forall n, files_ b' !! n = persistent <$> files_ b !! n /\
          (is_Some (files_ b' !! n) -> n ∈ blobs_ d -> n ∈ blobs_ d').
Proof.
  intros Hwf Henc Hnum Hop Hlt Hcur Hman.
  destruct (Open_restores (revived s k) d stats garbage cfs) as (s' & d' & Ho & Hf); [by apply checkpoint_recoverable| |done|].
  { intros cf o Hc. destruct (Hop _ _ Hc) as (b & Hb & Hlev). exists (revive b).
    split; [cbn; by rewrite lookup_fmap, Hb|]. intros n m. rewrite revived_live. intros (m0 & Hm & ->)%fmap_Some. exact (Hlev _ _ Hm). }
  exists s', d'. split; [done|]. intros cf b Hb Hc. destruct (Hf cf (revive b)) as (b' & Hb' & Hn).
  { cbn. by rewrite lookup_fmap, Hb. }
  { done. }
  exists b'. split; [done|]. intros n. destruct (Hn n) as [E H]. split; [|exact H].
  rewrite E, revived_live. by destruct (files_ b !! n).
Qed.

(** ** The database while file deletions are disabled *)

(** Every file of a storage is on the disk, and its number was handed out. *)
Definition intact (w : world) : Prop :=
  world_ok w /\ numbered (w_set w) /\ forall cf n, has_file (w_set w) cf n -> n ∈ blobs_ (w_disk w).

(** What the other threads do then: a file is on the disk before it is added, a
    column family with files is not given up, and only files that no storage
    has are deleted. *)
Inductive busy : world -> world -> Prop :=
  | busy_op w w' :
      set_op w w' ->
      (forall cf n, has_file (w_set w') cf n -> has_file (w_set w) cf n \/ n ∈ blobs_ (w_disk w)) ->
      (forall cf b, column_families_ (w_set w) !! cf = Some b -> files_ b <> ∅ ->
         is_Some (column_families_ (w_set w') !! cf)) ->
      busy w w'
  | busy_write s d p n : busy (mkWorld s d p) (mkWorld s (add_blob d n) p)
  | busy_delete s d p n :
      (forall cf, ~ has_file s cf n) ->
      busy (mkWorld s d p) (mkWorld s (mkDisk (current_ d) (manifests_ d) (blobs_ d ∖ {[n]})) p).

(** The files of [s] are in [s'], with what the manifest keeps of them. *)
Definition keeps (s s' : BlobFileSet) : Prop :=
  forall cf b n m, column_families_ s !! cf = Some b -> files_ b !! n = Some m ->
    exists b' m', column_families_ s' !! cf = Some b' /\ files_ b' !! n = Some m' /\ persistent m' = persistent m.

#[export] Instance keeps_preorder : PreOrder keeps.
Proof.
  split; [by intros s cf b n m Hb Hm; exists b, m|]. intros s1 s2 s3 H12 H23 cf b n m Hb Hm.
  destruct (H12 _ _ _ _ Hb Hm) as (b2 & m2 & Hb2 & Hm2 & E2). destruct (H23 _ _ _ _ Hb2 Hm2) as (b3 & m3 & Hb3 & Hm3 & E3).
  exists b3, m3. split_and!; [done|done|congruence].
Qed.

Lemma keeps_same s s' : column_families_ s' = column_families_ s -> keeps s s'.
Proof. intros E cf b n m Hb Hm. exists b, m. by rewrite E. Qed.

Lemma keeps_has_file s s' cf n : keeps s s' -> has_file s cf n -> has_file s' cf n.
Proof.
  intros Hk (b & Hb & [m Hm]). destruct (Hk _ _ _ _ Hb Hm) as (b' & m' & Hb' & Hm' & _). exists b'. by split; [|exists m'].
Qed.

Lemma log_keeps io s d e b st s' d' :
  set_wf s -> is_Some (manifest_ s) -> 0 <= fs_next_file_number_ s ->
  column_families_ s !! column_family_id_ e = Some b ->
  (forall f, f ∈ added_files_ e -> addable b (file_number_ f) f) ->
  LogAndApply io s d e = Some (st, s', d') ->
  keeps s s' /\ fs_next_file_number_ s' = fs_next_file_number_ s /\ blobs_ d' = blobs_ d /\
  forall cf n, has_file s' cf n -> has_file s cf n \/ exists f, f ∈ added_files_ e /\ file_number_ f = n.
Proof.
  intros Hwf [k Hk] Hn Hb Hadd Hlog.
  destruct (LogAndApply_spec io s d e b k Hwf Hk Hn Hb Hadd) as [[_ H]|[(_ & _ & H)|[(_ & _ & _ & H)|
    (Hacc & _ & _ & cfs' & st' & b' & H & _ & Hb' & Hed & Hoth)]]]; rewrite H in Hlog; injection Hlog as <- <- <-;
    try (split; [reflexivity|]; split_and!; [done|done|by left]).
  destruct Hed as [Hf _]. destruct Hacc as [_ [Hsa _]].
  split; [|split_and!; [done|done|]].
  - intros cf x n m Hx Hm. cbn [column_families_ set_column_families].
    destruct (decide (cf = column_family_id_ e)) as [->|Hne]; [|rewrite Hoth by done; by exists x, m].
    rewrite Hb in Hx. injection Hx as <-. rewrite Hb'. specialize (Hf n). unfold edited in Hf. rewrite Hm in Hf.
    destruct (cf_added_files_ (collect CFEditCollector_new e) !! n) as [y|] eqn:Ea.
    { rewrite (Hsa n (mk_is_Some _ _ Ea)) in Hm. done. }
    destruct (cf_deleted_files_ _ !! n); cbn in Hf; eexists _, _; (split_and!; [done|exact Hf|done]).
  - intros cf n (x & Hx & [m Hm]). cbn [column_families_ set_column_families] in Hx.
    destruct (decide (cf = column_family_id_ e)) as [->|Hne]; [|rewrite Hoth in Hx by done; left; exists x; by split; [|exists m]].
    rewrite Hb' in Hx. injection Hx as <-. rewrite Hf in Hm. unfold edited in Hm.
    assert (is_Some (files_ b !! n) -> has_file s (column_family_id_ e) n) as Hold by (intros Hs; by exists b).
    destruct (cf_added_files_ (collect CFEditCollector_new e) !! n) as [y|] eqn:Ea; destruct (cf_deleted_files_ _ !! n).
    + left. apply Hold. by exists m.
    + right. apply collect_new_added in Ea as [Hy Hn']. by exists y.
    + left. apply Hold. apply fmap_Some in Hm as (m0 & Hm0 & _). by exists m0.
    + left. apply Hold. by exists m.
Qed.

(** One operation: the files stay, and new ones have numbers that were handed
    out. *)
Lemma set_op_keeps w w' :
  set_op w w' -> world_ok w -> numbered (w_set w) ->
  (forall cf b, column_families_ (w_set w) !! cf = Some b -> files_ b <> ∅ ->
     is_Some (column_families_ (w_set w') !! cf)) ->
  keeps (w_set w) (w_set w') /\ numbered (w_set w') /\ blobs_ (w_disk w') = blobs_ (w_disk w).
Proof.
  intros Hstep (Hwf & [Hn _] & ec & Hdur & _ & Hpend) Hnum Hlive. unfold is_u64 in Hn.
  destruct Hstep as [s d p Hlt|io s d p e b st s' d' Hb He Hadd Hio Hl|s d p cf b n m m' Hb Hm Hsame Hp|s d p cf|s d p cf];
    cbn [w_set w_disk w_pending] in *.
  - split; [by apply keeps_same|]. split; [|done]. intros cf n H. specialize (Hnum cf n H). cbn.
    rewrite u64_small by (unfold is_u64; lia). lia.
  - destruct Hdur as (k & items & Hk & _).
    destruct (log_keeps io s d e b st s' d' Hwf (mk_is_Some _ _ Hk) (proj1 Hn) Hb (fun f Hf => proj2 (Hadd f Hf)) Hl)
      as (Hks & Hnx & Hbl & Hfi). split; [done|]. split; [|done].
    intros cf n [Ho|(f & Hf & <-)]%Hfi; rewrite Hnx; [by apply (Hnum cf)|]. apply Hpend. by apply Hadd.
  - split; [|split; [|done]].
    + intros c x n1 m1 Hx Hm1. cbn. destruct (decide (cf = c)) as [<-|Hne].
      * rewrite lookup_insert_eq. rewrite Hb in Hx. injection Hx as <-. destruct (decide (n = n1)) as [<-|Hne1].
        -- rewrite Hm in Hm1. injection Hm1 as <-. eexists _, m'. split; [done|]. cbn. by rewrite lookup_insert_eq.
        -- eexists _, m1. split; [done|]. cbn. by rewrite lookup_insert_ne.
      * rewrite lookup_insert_ne by done. by exists x, m1.
    + intros c n1 (x & Hx & Hs). cbn in Hx |- *. apply (Hnum c). apply lookup_insert_Some in Hx as [[<- <-]|[_ Hx]]; [|by exists x].
      exists b. split; [done|]. cbn in Hs. destruct (decide (n = n1)) as [<-|Hne1]; [by exists m|by rewrite lookup_insert_ne in Hs].
  - unfold MaybeDestroyColumnFamily in *. cbn [column_families_ set_obsolete_columns] in *.
    destruct (column_families_ s !! cf) as [b|] eqn:Hb; cbn [snd] in *; [|split; [by apply keeps_same|by split]].
    assert (forall x : gmap Z BlobStorage, (forall c, c <> cf -> x !! c = column_families_ s !! c) ->
      (files_ b <> ∅ -> is_Some (x !! cf)) -> (forall b', x !! cf = Some b' -> files_ b' = files_ b) ->
      keeps s (set_column_families s x (fs_stats_ s)) /\ numbered (set_column_families s x (fs_stats_ s))) as Hx.
    { intros x Hoth Hsome Hsame. split.
      - intros c y n m Hy Hm. cbn. destruct (decide (c = cf)) as [->|Hne]; [|rewrite Hoth by done; by exists y, m].
        rewrite Hb in Hy. injection Hy as <-. destruct Hsome as [b' Hb']; [by intros E; rewrite E, lookup_empty in Hm|].
        exists b', m. split_and!; [done|by rewrite (Hsame _ Hb')|done].
      - intros c n (y & Hy & Hs). cbn in Hy |- *. apply (Hnum c). destruct (decide (c = cf)) as [->|Hne].
        + exists b. split; [done|]. by rewrite <- (Hsame _ Hy).
        + rewrite Hoth in Hy by done. by exists y. }
    specialize (Hlive cf b Hb).
    destruct (MaybeRemove (MarkDestroyed b)); cbn [snd] in *.
    + destruct (Hx (delete cf (column_families_ s))) as [H1 H2]; [| |by rewrite lookup_delete_eq|by split; [|split]].
      * intros c Hne. by rewrite lookup_delete_ne.
      * exact Hlive.
    + destruct (Hx (<[cf := MarkDestroyed b]> (column_families_ s))) as [H1 H2]; [| | |by split; [|split]].
      * intros c Hne. by rewrite lookup_insert_ne.
      * intros _. by rewrite lookup_insert_eq.
      * rewrite lookup_insert_eq. by intros b' [= <-].
  - split; [by apply keeps_same|]. split; [|done]. intros c n H. by apply (Hnum c).
Qed.

Lemma busy_intact w w' : busy w w' -> intact w -> intact w' /\ keeps (w_set w) (w_set w').
Proof.
  intros Hstep (Hok & Hnum & Hst). destruct Hstep as [w w' Hop Hnew Hlive|s d p n|s d p n Hno].
  - destruct (set_op_keeps w w' Hop Hok Hnum Hlive) as (Hk & Hnum' & Hbl). split; [|done].
    split; [by eapply set_op_ok|]. split; [done|]. intros cf n H. rewrite Hbl. by destruct (Hnew cf n H) as [?%Hst|].
  - split; [|reflexivity]. split; [exact Hok|]. split; [done|]. intros cf n' H%Hst. cbn. by apply elem_of_union_r.
  - split; [|reflexivity]. split; [exact Hok|]. split; [done|]. intros cf n' H. cbn. apply elem_of_difference.
    split; [by apply (Hst cf)|]. rewrite elem_of_singleton. intros ->. by apply (Hno cf).
Qed.

Lemma busies_intact w w' : rtc busy w w' -> intact w -> intact w' /\ keeps (w_set w) (w_set w').
Proof.
  induction 1 as [w|w1 w2 w3 H12 _ IH]; intros Hi; [by split|]. destruct (busy_intact _ _ H12 Hi) as [Hi2 Hk].
  destruct (IH Hi2) as [? ?]. split; [done|]. by transitivity (w_set w2).
Qed.

(** ** Copying the files *)

Section Copying.
Context (env : Surroundings) (io : CheckpointIO).

(** What happens whenever the checkpoint does not hold the mutex. *)
Definition others_busy : Prop :=
  forall t s d p, intact (mkWorld s d p) ->
    exists p', rtc busy (mkWorld s d p) (mkWorld (others_files env t (s, d)).1 (others_files env t (s, d)).2 p').

(** The files of [s0] are still in their storages and on the disk. *)
Definition holds_files (s0 : BlobFileSet) (w : World) : Prop :=
  exists p, intact (mkWorld (blob_file_set_ w) (disk w) p) /\ keeps s0 (blob_file_set_ w).

Lemma others_hold s0 w : others_busy -> holds_files s0 w -> holds_files s0 (others env w).
Proof.
  intros Hb (p & Hi & Hk). destruct (Hb (clock w) _ _ _ Hi) as (p' & Hr). apply busies_intact in Hr as [Hi' Hk']; [|done].
  unfold others. destruct (others_files env (clock w) (blob_file_set_ w, disk w)) as [s d]. cbn in *.
  exists p'. split; [done|]. by transitivity (blob_file_set_ w).
Qed.

Lemma holds_blob s0 w cf n : holds_files s0 w -> has_file s0 cf n -> n ∈ blobs_ (disk w).
Proof. intros (p & (_ & _ & Hst) & Hk) Hn. apply (Hst cf). by eapply keeps_has_file. Qed.

(** The file [n] gets into the checkpoint: it is linked, or copied when links
    are not supported. *)
Definition arrives (n : Z) : bool := ok (LinkFile_error io n) || bool_decide (LinkFile_error io n = NotSupported).

(** The files are all linked, if not in vain; or every file can be linked or
    copied. *)
Definition all_arrive : Prop :=
  forall n, (LinkFile_error io n = OK \/ LinkFile_error io n = NotSupported) /\ CopyFile_error io n = OK.

Definition transfers : Prop := (forall n, LinkFile_error io n <> NotSupported) \/ all_arrive.

Lemma copy_blob_spec src edits st n :
  transfers -> (same_fs st = false -> all_arrive) -> n ∈ blobs_ src ->
  let st' := copy_file io src edits st (BlobFileName n) in
  (same_fs st' = false -> all_arrive) /\
  current_ (dst st') = current_ (dst st) /\ manifests_ (dst st') = manifests_ (dst st) /\
  manifest_fname st' = manifest_fname st /\ current_fname st' = current_fname st /\
  forall x, x ∈ blobs_ (dst st') <-> x ∈ blobs_ (dst st) \/ (x = n /\ arrives n = true).
Proof.
  intros Ht Hf Hn. cbn [copy_file]. unfold LinkFile, CopyFile, arrives.
  assert (forall x, x ∈ blobs_ (add_blob (dst st) n) <-> x ∈ blobs_ (dst st) \/ (x = n /\ true = true)) as Hadd.
  { intros x. cbn. rewrite elem_of_union, elem_of_singleton. tauto. }
  assert (forall x, x ∈ blobs_ (dst st) <-> x ∈ blobs_ (dst st) \/ (x = n /\ false = true)) as Hnot.
  { intros x. split; [by left|]. by intros [?|[_ ?]]. }
  destruct (same_fs st) eqn:Es.
  - destruct (decide (LinkFile_error io n = NotSupported)) as [E|E].
    + destruct Ht as [Ht|Ht]; [by destruct (Ht n)|]. rewrite E. cbn. destruct (Ht n) as [_ ->]. cbn.
      rewrite (bool_decide_true (NotSupported = _)), (bool_decide_true (n ∈ _)) by done. cbn. by split_and!.
    + rewrite (bool_decide_false (LinkFile_error io n = NotSupported)) by done. rewrite orb_false_r.
      destruct (ok (LinkFile_error io n)) eqn:Eok; cbn [negb].
      * rewrite bool_decide_true by done. case_bool_decide as Hd; cbn; split_and!; try done.
        intros x. split; [by left|]. by intros [?|[-> _]].
      * rewrite bool_decide_false by done. by split_and!.
  - specialize (Hf eq_refl). destruct (Hf n) as [Hl ->]. cbn. rewrite bool_decide_true by done. cbn.
    destruct Hl as [->| ->]; cbn; by split_and!.
Qed.

(** The blob files in a list. *)
Lemma copy_blobs_spec s0 edits rest l : forall w st,
  others_busy -> holds_files s0 w -> transfers -> (same_fs st = false -> all_arrive) ->
  (forall n, n ∈ l -> exists cf, has_file s0 cf n) ->
  exists w' st', copy_files env io w edits st (map BlobFileName l ++ rest) = copy_files env io w' edits st' rest /\
    holds_files s0 w' /\ mutex_held w' = mutex_held w /\
    current_ (dst st') = current_ (dst st) /\ manifests_ (dst st') = manifests_ (dst st) /\
    manifest_fname st' = manifest_fname st /\ current_fname st' = current_fname st /\
    forall x, x ∈ blobs_ (dst st') <-> x ∈ blobs_ (dst st) \/ (x ∈ l /\ arrives x = true).
Proof.
  induction l as [|n l IH]; intros w st Hb Hh Ht Hf Hl.
  { exists w, st. split; [done|]. split_and!; try done. intros x. rewrite elem_of_nil. tauto. }
  pose proof (others_hold _ _ Hb Hh) as Hh'. destruct (Hl n (list_elem_of_here _ _)) as [cf Hn].
  destruct (copy_blob_spec (disk (others env w)) edits st n Ht Hf (holds_blob _ _ _ _ Hh' Hn))
    as (Hf1 & Hc1 & Hm1 & Hmf1 & Hcf1 & Hx1).
  destruct (IH (others env w) (copy_file io (disk (others env w)) edits st (BlobFileName n)) Hb Hh' Ht Hf1)
    as (w' & st' & Hr & Hh2 & Hmu & Hc & Hm & Hmf & Hcf & Hx).
  { intros x Hin. apply Hl. by apply list_elem_of_further. }
  exists w', st'. cbn [map app copy_files]. split; [exact Hr|]. split; [done|]. split.
  { rewrite Hmu. unfold others. by destruct (others_files env (clock w) (blob_file_set_ w, disk w)). }
  split_and!; try congruence. intros x. rewrite Hx, Hx1, elem_of_cons.
  destruct (decide (x = n)) as [->|Hne]; tauto.
Qed.

(** Whatever fails, the blob files in a list change nothing but the blob files
    of the checkpoint, and add none that is not in the list. *)
Lemma copy_blobs_frame edits rest l : forall w st,
  exists w' st', copy_files env io w edits st (map BlobFileName l ++ rest) = copy_files env io w' edits st' rest /\
    current_ (dst st') = current_ (dst st) /\ manifests_ (dst st') = manifests_ (dst st) /\
    manifest_fname st' = manifest_fname st /\ current_fname st' = current_fname st /\
    forall x, x ∈ blobs_ (dst st') -> x ∈ blobs_ (dst st) \/ x ∈ l.
Proof.
  induction l as [|n l IH]; intros w st; [by exists w, st; split_and!; auto|].
  set (st1 := copy_file io (disk (others env w)) edits st (BlobFileName n)).
  destruct (IH (others env w) st1) as (w' & st' & Hr & Hc & Hm & Hmf & Hcf & Hx).
  exists w', st'. cbn [map app copy_files]. split; [exact Hr|].
  assert (current_ (dst st1) = current_ (dst st) /\ manifests_ (dst st1) = manifests_ (dst st) /\
    manifest_fname st1 = manifest_fname st /\ current_fname st1 = current_fname st /\
    forall x, x ∈ blobs_ (dst st1) -> x ∈ blobs_ (dst st) \/ x = n) as (H1 & H2 & H3 & H4 & H5).
  { subst st1. cbn [copy_file]. unfold LinkFile, CopyFile, add_blob.
    repeat (case_match; simplify_eq/=); split_and!; try done; set_solver. }
  split_and!; try congruence. intros x [Hx1|Hx1]%Hx.
  - apply H5 in Hx1 as [?| ->]; [by left|right; apply list_elem_of_here].
  - right. by apply list_elem_of_further.
Qed.

(** The manifest and [CURRENT] come last: their status is the one of the loop. *)
Lemma copy_files_last s w st w' st' :
  copy_files env io w (BlobFileSet.GetAllFiles s).2 st [DescriptorFileName (manifest_file_number_ s); CurrentFileName] = (w', st') ->
  cp_status st' = OK -> manifests_ (dst st) = ∅ ->
  manifest_fname st' = Some (manifest_file_number_ s) /\ current_fname st' = true /\
  current_ (dst st') = current_ (dst st) /\ blobs_ (dst st') = blobs_ (dst st) /\
  manifests_ (dst st') = {[manifest_file_number_ s := records (BlobFileSet.GetAllFiles s).2]}.
Proof.
  cbn [copy_files copy_file]. unfold CreateTitanManifest.
  destruct (ok (io_new_file (manifest_io io))) eqn:E; cbn [negb].
  2:{ intros [= <- <-] H. cbn in H. by rewrite H in E. }
  destruct (write_records (manifest_io io) 0 _) as [s1 items] eqn:Ew.
  destruct (ok s1) eqn:E1; cbn [negb].
  2:{ intros [= <- <-] H. cbn in H. by rewrite H in E1. }
  destruct s1; try done. apply write_records_ok in Ew. subst items.
  intros [= <- <-] H Hm. cbn. rewrite Hm. by rewrite insert_empty.
Qed.

(** The names in the list of files. *)
Lemma all_files_names l : forall names n,
  n ∈ foldl (fun names (cf : Z * BlobStorage) => BlobStorage.GetAllFiles cf.2 names) names l <->
  n ∈ names \/ exists cf b, (cf, b) ∈ l /\ is_Some (files_ b !! n).
Proof.
  induction l as [|[cf b] l IH]; intros names n; cbn [foldl].
  { split; [by left|]. intros [?|(? & ? & ?%elem_of_nil & _)]; done. }
  rewrite IH. unfold BlobStorage.GetAllFiles. cbn [snd]. rewrite elem_of_app, list_elem_of_fmap. split.
  - intros [[?|([n' m] & -> & Hin%elem_of_map_to_list)]|(cf' & b' & Hin & Hs)]; [by left|right..].
    + exists cf, b. split; [by left|]. by exists m.
    + exists cf', b'. split; [by right|done].
  - intros [?|(cf' & b' & Hin & Hs)]; [by left; left|]. apply elem_of_cons in Hin as [[= -> ->]|Hin].
    + left. right. destruct Hs as [m Hm]. exists (n, m). split; [done|]. by apply elem_of_map_to_list.
    + right. by exists cf', b'.
Qed.

Lemma listed_file s n :
  n ∈ foldl (fun names (cf : Z * BlobStorage) => BlobStorage.GetAllFiles cf.2 names) [] (map_to_list (column_families_ s)) <->
  exists cf, has_file s cf n.
Proof.
  rewrite all_files_names. split.
  - intros [?%elem_of_nil|(cf & b & Hin%elem_of_map_to_list & Hs)]; [done|]. exists cf. by exists b.
  - intros (cf & b & Hb & Hs). right. exists cf, b. by rewrite elem_of_map_to_list.
Qed.

(** The loop of [CreateCustomCheckpoint] with a manifest that is written: the
    status is the one of the manifest. *)
Lemma copy_files_spec s w d :
  others_busy -> holds_files s w -> transfers -> manifest_io io = io_ok -> current_ d = None -> manifests_ d = ∅ ->
  exists w' st', copy_files env io w (BlobFileSet.GetAllFiles s).2 (mkCopying OK true d None false) (BlobFileSet.GetAllFiles s).1
      = (w', st') /\
    mutex_held w' = mutex_held w /\ cp_status st' = OK /\ manifest_fname st' = Some (manifest_file_number_ s) /\
    current_fname st' = true /\ current_ (dst st') = None /\
    manifests_ (dst st') = {[manifest_file_number_ s := records (BlobFileSet.GetAllFiles s).2]} /\
    forall x, x ∈ blobs_ (dst st') <-> x ∈ blobs_ d \/ ((exists cf, has_file s cf x) /\ arrives x = true).
Proof.
  intros Hb Hh Ht Hio Hcur Hman. unfold BlobFileSet.GetAllFiles at 2. cbn [fst].
  destruct (copy_blobs_spec s (BlobFileSet.GetAllFiles s).2 [DescriptorFileName (manifest_file_number_ s); CurrentFileName]
    _ w (mkCopying OK true d None false) Hb Hh Ht (fun H => ltac:(discriminate H)) (fun n Hn => proj1 (listed_file s n) Hn))
    as (w' & st' & -> & Hh' & Hmu & Hc & Hm & Hmf & Hcf & Hx).
  cbn [copy_files copy_file]. unfold CreateTitanManifest. rewrite Hio. cbn [io_new_file io_ok ok negb].
  destruct (write_records_io_ok (BlobFileSet.GetAllFiles s).2 0) as [items Hw]. rewrite Hw. cbn [ok negb io_sync io_ok].
  apply write_records_ok in Hw. fold (records (BlobFileSet.GetAllFiles s).2) in Hw. subst items.
  eexists _, _. split; [reflexivity|]. cbn [cp_status same_fs dst manifest_fname current_fname current_ manifests_ blobs_].
  split. { rewrite <- Hmu. unfold others. repeat (destruct (others_files env _ _)); done. }
  split_and!; try done.
  - by rewrite Hc.
  - rewrite Hm. cbn. by rewrite Hman, insert_empty.
  - intros x. rewrite Hx. cbn. by rewrite listed_file.
Qed.
End Copying.
End Proofs.
