(* ===== verification/CheckpointSpec.v ===== *)
(** * CheckpointSpec: a checkpoint can be opened and is complete

    The properties of [Checkpoint]: what a checkpoint restores, which failures
    it does not report, and what every outcome leaves behind. *)
From S2P Require Import Prelude Coding BitMap BlobFileMeta TitanStats Options VersionEdit BlobStorage BlobStorageProofs EditCollector EditCollectorProofs BlobFileSet BlobFileSetProofs GCPicker GCJob DBFiles Checkpoint BlobFileSetSpec CheckpointProofs.

Local Open Scope Z_scope.
Local Open Scope aegon_scope.

(** ** Paths and directories *)

(** The place of a checkpoint, and its staging directory. *)
Definition place (base_checkpoint_dir titan_checkpoint_dir : bytes) : bytes :=
  canonical (if bool_decide (titan_checkpoint_dir = []) then base_checkpoint_dir ++ titandb_suffix else titan_checkpoint_dir).

Definition staging (base_checkpoint_dir titan_checkpoint_dir : bytes) : bytes :=
  place base_checkpoint_dir titan_checkpoint_dir ++ tmp_suffix.

Lemma staging_ne (dir : bytes) : dir ++ tmp_suffix <> dir.
Proof. intros E%(f_equal length). rewrite length_app in E. cbn in E. lia. Qed.

Lemma clean_ok_removes : forall d depth, clean_directory clean_ok depth d = None.
Proof.
  fix IH 1. intros [files other titandb] depth. cbn [clean_directory exists_error children_error clean_ok ok].
  rewrite bool_decide_false by discriminate.
  assert (match titandb with Some t => clean_directory clean_ok (S depth) t | None => None end = None) as ->.
  { destruct titandb as [t|]; [apply IH|reflexivity]. }
  assert (no_files (delete_files_of clean_ok depth files) = true) as ->.
  { unfold no_files, delete_files_of. cbn. apply bool_decide_true. split.
    - apply dom_empty_iff_L, map_empty. intros k. apply map_lookup_filter_None_2. right. by intros x _.
    - apply set_eq. intros x. rewrite elem_of_filter. set_solver. }
  rewrite bool_decide_true; [done|]. apply set_eq. intros x. rewrite elem_of_filter. cbn. set_solver.
Qed.

Section Spec.
Context `{C : Comparator} `{LC : !ComparatorLaws C}.
Context (env : Surroundings) (io : CheckpointIO).

(** Everything but the files of the checkpoint and its [CURRENT] works. *)
Definition succeeds : Prop :=
  FileExists_error io = OK /\ base_disable io = OK /\ base_checkpoint io = OK /\ CreateDir_error io = OK /\
  all_disable io = OK /\ all_enable io = OK /\ manifest_io io = io_ok /\ base_enable io = OK /\
  RenameFile_error io = OK /\ NewDirectory_error io = OK /\ Fsync_error io = OK.

(** What the directory of a checkpoint holds of the set of blob files [s]. *)
Definition checkpoint_of (s : BlobFileSet) (d : Disk) : Prop :=
  current_ d = (if ok (CreateFile_error io) then Some (mkCurrent (manifest_file_number_ s) true) else current_left io) /\
  manifests_ d = {[manifest_file_number_ s := records (BlobFileSet.GetAllFiles s).2]} /\
  forall n, n ∈ blobs_ d <-> (exists cf, has_file s cf n) /\ arrives io n = true.

(** The set of blob files when [CreateCheckpoint] lists the files. *)
Definition listed_set (w : World) : BlobFileSet := blob_file_set_ (others env (others env w)).

Lemma CreateCustomCheckpoint_spec s0 w disabled :
  others_busy env -> holds_files s0 w -> mutex_held w = false -> 0 <= disabled -> succeeds -> transfers io ->
  let s := blob_file_set_ (others env w) in
  exists dk p w' d, CreateCustomCheckpoint env io w disabled empty_disk = Some (OK, w', disabled, d) /\
    intact (mkWorld s dk p) /\ keeps s0 s /\ checkpoint_of s d.
Proof.
  intros Hb Hh Hm Hd (_ & _ & _ & _ & H1 & H2 & Hio & _) Ht s. unfold CreateCustomCheckpoint, GetAllTitanFiles, DisableFileDeletions.
  rewrite H1. cbn [ok negb]. unfold Lock. rewrite Hm. cbn [mbind option_bind].
  pose proof (others_hold _ _ _ Hb Hh) as (p & Hi & Hk). set (w1 := others env w) in *.
  cbn [blob_file_set_]. fold s.
  destruct (BlobFileSet.GetAllFiles s) as [files edits] eqn:Ea. cbn [mbind option_bind].
  set (w2 := Unlock _).
  unfold EnableFileDeletions. rewrite H2. cbn [ok negb]. rewrite (proj2 (Z.ltb_lt 0 (disabled + 1))) by lia.
  rewrite (proj2 (Z.leb_le 0 _)) by lia. cbn [assert mbind option_bind ok negb].
  assert (holds_files s w2) as Hh2 by (exists p; by split).
  destruct (copy_files_spec env io s w2 empty_disk Hb Hh2 Ht Hio eq_refl eq_refl)
    as (w' & st' & Hcp & _ & Hst & Hmf & Hcf & Hcur & Hman & Hx). rewrite Ea in Hcp, Hman. cbn [fst snd] in Hcp, Hman. rewrite Hcp.
  rewrite Hst, Hmf, Hcf. cbn [ok andb]. rewrite Z.add_simpl_r.
  eexists (disk w1), p, w', _. split; [reflexivity|]. split; [done|]. split; [done|]. split_and!; [done| |].
  - cbn [manifests_]. by rewrite Ea.
  - intros n. cbn [blobs_]. rewrite Hx. cbn. set_solver.
Qed.

Lemma CreateCheckpoint_spec (base_dir titan_dir : bytes) (w : World) (disabled : Z) (fs : FileSystem) (p : gset Z) :
  mutex_held w = false -> 0 <= disabled -> intact (mkWorld (blob_file_set_ w) (disk w) p) -> others_busy env ->
  succeeds -> transfers io ->
  place base_dir titan_dir <> [] -> fs !! place base_dir titan_dir = None ->
  clean_before io = clean_ok \/ fs !! staging base_dir titan_dir = None ->
  let s := listed_set w in
  exists dk p' d w' fs', CreateCheckpoint env io base_dir titan_dir w disabled fs = Some (OK, w', disabled, fs') /\
    intact (mkWorld s dk p') /\ keeps (blob_file_set_ w) s /\ checkpoint_of s d /\
    fs' = <[place base_dir titan_dir := mkDirectory d ∅ None]> (delete (staging base_dir titan_dir) fs).
Proof.
  intros Hm Hd Hi Hb Hs Ht Hne Habs Hclean s. pose proof Hs as (H1 & H2 & H3 & H4 & _ & _ & _ & H8 & H9 & H10 & H11).
  unfold CreateCheckpoint. unfold staging, place in *.
  set (dir := if bool_decide (titan_dir = []) then base_dir ++ titandb_suffix else titan_dir) in *.
  unfold FileExists. rewrite H1. cbn [ok negb]. rewrite Habs. cbn [ok]. rewrite bool_decide_true by done. cbn [negb].
  assert (exists i, find_last_not_of_slash dir = Some i /\ take (S i) dir = canonical dir) as (i & Hidx & Hcan).
  { unfold canonical in *. destruct (find_last_not_of_slash dir) as [i|]; [by exists i|done]. }
  rewrite Hidx. unfold DisableFileDeletions. rewrite H2. cbn [ok negb]. unfold prepare_staging. rewrite H3. cbn [ok negb].
  rewrite Hcan. set (path := canonical dir ++ tmp_suffix) in *.
  assert (CleanStagingDirectory (clean_before io) fs path = delete path fs) as ->.
  { unfold CleanStagingDirectory. rewrite bool_decide_false by (intros E%app_nil; by destruct E).
    destruct (fs !! path) as [d|] eqn:E; [|by rewrite delete_id]. destruct Hclean as [->|?]; [|done]. by rewrite clean_ok_removes. }
  unfold CreateDir. rewrite H4, lookup_delete_eq. cbn [ok negb from_option]. rewrite lookup_insert_eq. cbn [from_option dir_files empty_directory].
  pose proof (others_hold env (blob_file_set_ w) w Hb (ex_intro _ p (conj Hi (reflexivity _)))) as Hh.
  assert (mutex_held (others env w) = false) as Hm'.
  { unfold others. by destruct (others_files env (clock w) (blob_file_set_ w, disk w)). }
  destruct (CreateCustomCheckpoint_spec (blob_file_set_ w) (others env w) (disabled + 1) Hb Hh Hm' ltac:(lia) Hs Ht)
    as (dk & p' & w' & d & -> & Hi' & Hk & Hc). cbn [mbind option_bind ok].
  unfold EnableFileDeletions. rewrite H8. cbn [ok negb]. rewrite (proj2 (Z.ltb_lt 0 (disabled + 1))) by lia.
  rewrite (proj2 (Z.leb_le 0 _)) by lia. cbn [assert mbind option_bind ok negb].
  unfold finish_checkpoint, RenameFile. rewrite H9. cbn [ok negb].
  rewrite lookup_insert_eq, !lookup_insert_ne, lookup_delete_ne, Habs by apply staging_ne. rewrite H10, H11. cbn [ok].
  exists dk, p', d, w'. eexists. split; [by rewrite Z.add_simpl_r|]. split_and!; [done|done|done|].
  rewrite insert_insert_eq, delete_insert_eq. by rewrite delete_delete_eq.
Qed.

(** Opening a checkpoint that names its manifest. *)
Lemma checkpoint_reopens s dk p d cfs stats garbage :
  intact (mkWorld s dk p) -> checkpoint_of s d -> CreateFile_error io = OK ->
  opens_checkpoint s cfs -> fs_next_file_number_ s < 2 ^ 64 - 2 ->
  exists s' d', Open io_ok (BlobFileSet_new stats garbage) d cfs = Some (OK, s', d') /\
    forall s0 cf b n m, keeps s0 s -> column_families_ s0 !! cf = Some b -> files_ b !! n = Some m -> is_Some (cfs !! cf) ->
      exists b', column_families_ s' !! cf = Some b' /\ files_ b' !! n = Some (persistent m) /\
        (arrives io n = true -> n ∈ blobs_ d').
Proof.
  intros ((Hwf & Henc & _) & Hnum & _) (Hcur & Hman & Hx) Hcf Hop Hlt. rewrite Hcf in Hcur. cbn [ok] in Hcur.
  destruct (checkpoint_opens s d (manifest_file_number_ s) stats garbage cfs Hwf Henc Hnum Hop Hlt Hcur) as (s' & d' & Ho & Hf).
  { by rewrite Hman, lookup_singleton_eq. }
  exists s', d'. split; [done|]. intros s0 cf b n m Hk Hb Hm Hc. destruct (Hk _ _ _ _ Hb Hm) as (b1 & m1 & Hb1 & Hm1 & Hp).
  destruct (Hf cf b1 Hb1 Hc) as (b' & Hb' & Hn). exists b'. destruct (Hn n) as [E Hin]. rewrite Hm1 in E. cbn in E. rewrite Hp in E.
  split_and!; [done|done|]. intros Ha. apply Hin; [by rewrite E|]. apply Hx. split; [|done]. exists cf, b1. by split; [|exists m1].
Qed.

(** ** What a checkpoint leaves behind *)

Lemma CleanStagingDirectory_other (cio : CleanIO) (fs : FileSystem) (path q : bytes) :
  q <> path -> CleanStagingDirectory cio fs path !! q = fs !! q.
Proof.
  intros Hne. unfold CleanStagingDirectory. case_bool_decide; [done|]. destruct (fs !! path); [|done].
  destruct (clean_directory _ _ _); [by rewrite lookup_insert_ne|by rewrite lookup_delete_ne].
Qed.

Lemma CleanStagingDirectory_gone (fs : FileSystem) (path : bytes) :
  path <> [] -> CleanStagingDirectory clean_ok fs path !! path = None.
Proof.
  intros Hne. unfold CleanStagingDirectory. rewrite bool_decide_false by done. destruct (fs !! path) eqn:E; [|done].
  rewrite clean_ok_removes. by rewrite lookup_delete_eq.
Qed.

Lemma prepare_staging_spec (w : World) (fs : FileSystem) (path : bytes) (s : Status) (w' : World) (fs' : FileSystem) (full : bytes) :
  prepare_staging env io w fs path = (s, w', fs', full) ->
  (full = path /\ (forall q, q <> path -> fs' !! q = fs !! q)) \/ (full = [] /\ s <> OK /\ fs' = fs).
Proof.
  unfold prepare_staging. destruct (ok (base_checkpoint io)) eqn:E; cbn [negb].
  2:{ intros [= <- <- <- <-]. right. split_and!; try done. intros H. by rewrite H in E. }
  unfold CreateDir. left. pose proof (fun q => CleanStagingDirectory_other (clean_before io) fs path q) as Hc.
  destruct (ok (CreateDir_error io)); cbn [negb] in *; [|by simplify_eq].
  destruct (CleanStagingDirectory (clean_before io) fs path !! path); simplify_eq; split; try done.
  intros q Hq. rewrite lookup_insert_ne by done. by apply Hc.
Qed.

(** The staging directory that the files are put into is empty. *)
Lemma prepare_staging_empty (w : World) (fs : FileSystem) (path : bytes) (s : Status) (w' : World) (fs' : FileSystem) (full : bytes) :
  prepare_staging env io w fs path = (s, w', fs', full) -> s = OK -> fs' !! full = Some empty_directory /\ w' = others env w.
Proof.
  unfold prepare_staging. destruct (ok (base_checkpoint io)) eqn:E; cbn [negb].
  2:{ intros [= <- <- <- <-] H. by rewrite H in E. }
  unfold CreateDir. destruct (ok (CreateDir_error io)) eqn:E2; cbn [negb].
  2:{ intros [= <- <- <- <-] H. by rewrite H in E2. }
  destruct (CleanStagingDirectory (clean_before io) fs path !! path); intros H Hs; simplify_eq. by rewrite lookup_insert_eq.
Qed.

(** What a checkpoint that reports success holds of the set of blob files [s]
    when it listed the files, whatever failed on the way: the complete manifest,
    [CURRENT] as far as it was written, and blob files of [s] only. *)
Definition holds_checkpoint (s : BlobFileSet) (d : Disk) : Prop :=
  current_ d = (if ok (CreateFile_error io) then Some (mkCurrent (manifest_file_number_ s) true) else current_left io) /\
  manifests_ d = {[manifest_file_number_ s := records (BlobFileSet.GetAllFiles s).2]} /\
  forall n, n ∈ blobs_ d -> exists cf, has_file s cf n.

(** [disabled'] counts the disabled file deletions as [disabled] does, or one
    more when the base database refused to enable them after the listing. *)
Definition counted (disabled : Disabled) (st : Status) (disabled' : Disabled) : Prop :=
  (st = OK -> disabled' = disabled) /\
  (disabled' = disabled \/ all_disable io = OK /\ all_enable io <> OK /\ disabled' = disabled + 1).

Lemma custom_disabled w disabled d s w' disabled' d' :
  0 <= disabled -> CreateCustomCheckpoint env io w disabled d = Some (s, w', disabled', d') -> counted disabled s disabled'.
Proof.
  intros Hd. unfold CreateCustomCheckpoint, GetAllTitanFiles, DisableFileDeletions, counted.
  destruct (ok (all_disable io)) eqn:E; cbn [ok negb mbind option_bind].
  2:{ rewrite E; cbn [negb mbind option_bind]; rewrite E; intros H; simplify_eq/=. by split; [|left]. }
  destruct (Lock env w) as [w1|]; [|done]. cbn [mbind option_bind]. destruct (BlobFileSet.GetAllFiles _) as [fl ed].
  unfold EnableFileDeletions. destruct (ok (all_enable io)) eqn:E2; cbn [ok negb].
  - rewrite (proj2 (Z.ltb_lt 0 (disabled + 1))) by lia.
    rewrite (proj2 (Z.leb_le 0 _)) by lia. cbn [assert mbind option_bind ok negb].
    destruct (copy_files _ _ _ _ _ _) as [w2 st]. intros [= <- <- <- <-]. split; [intros _|left]; lia.
  - cbn [mbind option_bind]. rewrite E2. cbn [negb]. intros [= <- <- <- <-].
    assert (all_enable io <> OK) by (intros H; by rewrite H in E2). split; [done|]. right. split_and!; [|done|done].
    by destruct (all_disable io).
Qed.

Lemma custom_success w disabled w' disabled' d' :
  CreateCustomCheckpoint env io w disabled empty_disk = Some (OK, w', disabled', d') ->
  let s := blob_file_set_ (others env w) in
  holds_checkpoint s d' /\
  (others_busy env -> holds_files s (others env w) -> transfers io ->
     forall n, n ∈ blobs_ d' <-> (exists cf, has_file s cf n) /\ arrives io n = true).
Proof.
  unfold CreateCustomCheckpoint, GetAllTitanFiles, DisableFileDeletions, Lock.
  destruct (ok (all_disable io)) eqn:E; cbn [ok negb mbind option_bind].
  2:{ rewrite E. cbn [negb mbind option_bind]. rewrite E. cbn [negb]. intros [= H _ _ _]. by rewrite H in E. }
  destruct (mutex_held w) eqn:Hm; [done|]. cbn [mbind option_bind blob_file_set_].
  set (s := blob_file_set_ (others env w)). destruct (BlobFileSet.GetAllFiles s) as [fl ed] eqn:Ea.
  destruct (EnableFileDeletions _ _ _) as [[s1 dis]|]; cbn [mbind option_bind]; [|done].
  destruct (ok s1) eqn:E1; cbn [negb]; [|intros [= -> _ _ _]; done]. destruct s1; try done.
  set (w1 := Unlock _). assert (ed = (BlobFileSet.GetAllFiles s).2 /\ fl = (BlobFileSet.GetAllFiles s).1) as [-> ->] by (by rewrite Ea).
  set (names := foldl (fun names (cf : Z * BlobStorage) => BlobStorage.GetAllFiles cf.2 names) [] (map_to_list (column_families_ s))).
  assert ((BlobFileSet.GetAllFiles s).1 = map BlobFileName names ++ [DescriptorFileName (manifest_file_number_ s); CurrentFileName]) as Hfl by done.
  rewrite Hfl.
  destruct (copy_blobs_frame env io (BlobFileSet.GetAllFiles s).2 [DescriptorFileName (manifest_file_number_ s); CurrentFileName] names w1
    (mkCopying OK true empty_disk None false)) as (w2 & st2 & Hr & Hc & Hma & _ & _ & Hx).
  match goal with |- context [copy_files env io w1 ?e ?x ?l] => destruct (copy_files env io w1 e x l) as [w3 st3] eqn:Ecp end.
  symmetry in Hr. intros [= Hst <- _ <-]. rewrite Hst.
  destruct (copy_files_last env io s w2 st2 w3 st3 Hr Hst) as (F1 & F2 & F3 & F4 & F5); [by rewrite Hma|].
  rewrite F1, F2. cbn [ok andb]. split.
  - split; [done|]. split; [exact F5|]. cbn [blobs_]. intros n Hn. rewrite F4 in Hn.
    apply Hx in Hn as [Hn|Hn]; [by apply elem_of_empty in Hn|]. by apply listed_file.
  - intros Hb Hh Ht n. cbn [blobs_].
    destruct (copy_blobs_spec env io s (BlobFileSet.GetAllFiles s).2 [DescriptorFileName (manifest_file_number_ s); CurrentFileName]
      names w1 (mkCopying OK true empty_disk None false) Hb Hh Ht (fun H => ltac:(discriminate H)) (fun n Hn => proj1 (listed_file s n) Hn))
      as (w4 & st4 & Hr4 & _ & _ & _ & Hma4 & _ & _ & Hx4).
    symmetry in Hr4. assert (Hr5 := eq_trans Hr4 Ecp).
    destruct (copy_files_last env io s w4 st4 w3 st3 Hr5 Hst) as (_ & _ & _ & -> & _); [by rewrite Hma4|].
    rewrite Hx4. cbn [dst]. unfold names. rewrite listed_file. cbn. set_solver.
Qed.

Lemma finish_checkpoint_spec (s : Status) (fs : FileSystem) (path target : bytes) (s' : Status) (fs' : FileSystem) :
  path <> target -> finish_checkpoint io s fs path target = (s', fs') ->
  (forall q, q <> path -> q <> target -> fs' !! q = fs !! q) /\
  (s' = OK -> s = OK /\ fs !! target = None /\ fs' !! target = fs !! path /\ fs' !! path = None) /\
  (s' <> OK -> (fs' !! target = fs !! target \/
     NewDirectory_error io <> OK \/ Fsync_error io <> OK) /\
     (clean_after io = clean_ok -> path <> [] -> fs' !! path = None)).
Proof.
  intros Hne. unfold finish_checkpoint.
  assert (forall x : FileSystem, CleanStagingDirectory (clean_after io) x path = fs' -> s' <> OK ->
    (forall q, q <> path -> q <> target -> x !! q = fs !! q) ->
    (x !! target = fs !! target \/ NewDirectory_error io <> OK \/ Fsync_error io <> OK) ->
    (forall q, q <> path -> q <> target -> fs' !! q = fs !! q) /\
    (s' = OK -> s = OK /\ fs !! target = None /\ fs' !! target = fs !! path /\ fs' !! path = None) /\
    (s' <> OK -> (fs' !! target = fs !! target \/ NewDirectory_error io <> OK \/ Fsync_error io <> OK) /\
       (clean_after io = clean_ok -> path <> [] -> fs' !! path = None))) as Hfail.
  { intros x <- Hst Hx Ht. split; [|split; [done|intros _; split]].
    - intros q Hq1 Hq2. rewrite CleanStagingDirectory_other by done. by apply Hx.
    - rewrite CleanStagingDirectory_other by done. exact Ht.
    - intros ->. apply CleanStagingDirectory_gone. }
  destruct s; cbn [ok]; try (intros [= <- H2]; eapply Hfail; [exact H2|done|done|by left]).
  unfold RenameFile. destruct (RenameFile_error io) eqn:Er; cbn [ok negb];
    try (intros [= <- H2]; eapply Hfail; [exact H2|done|done|by left]).
  destruct (fs !! path) as [d|] eqn:E1; [|intros [= <- H2]; eapply Hfail; [exact H2|done|done|by left]].
  destruct (fs !! target) as [d'|] eqn:E2; [intros [= <- H2]; eapply Hfail; [exact H2|done|done|left; exact E2]|].
  cbn [ok].
  assert (forall q, q <> path -> q <> target -> <[target := d]> (delete path fs) !! q = fs !! q) as Hq.
  { intros q H1 H2. by rewrite lookup_insert_ne, lookup_delete_ne. }
  destruct (NewDirectory_error io) eqn:E3; cbn [ok]; try (intros [= <- H2]; eapply Hfail; [exact H2|done|exact Hq|right; by left]).
  destruct (Fsync_error io) eqn:E4; cbn [ok]; try (intros [= <- H2]; eapply Hfail; [exact H2|done|exact Hq|right; by right]).
  intros [= <- <-]. split; [exact Hq|]. split; [|done]. intros _. split; [done|]. split; [done|].
  rewrite lookup_insert_eq, lookup_insert_ne, lookup_delete_eq by done. by split.
Qed.

(** What the outcome [st] of a checkpoint leaves of the directories. *)
Definition outcome (P : Directory -> Prop) (target path : bytes) (disabled : Disabled) (fs : FileSystem) (st : Status)
    (disabled' : Disabled) (fs' : FileSystem) : Prop :=
  counted disabled st disabled' /\
  (forall q, q <> [] -> q <> path -> q <> target -> fs' !! q = fs !! q) /\
  (st = OK -> fs !! target = None /\ (exists d, fs' !! target = Some d /\ P d) /\ fs' !! path = None) /\
  (st <> OK ->
     (fs' !! target = fs !! target \/ NewDirectory_error io <> OK \/ Fsync_error io <> OK) /\
     (clean_after io = clean_ok -> fs' !! path = None \/ fs' !! path = fs !! path)).

Lemma outcome_same (P : Directory -> Prop) (target path : bytes) (disabled : Disabled) (fs : FileSystem) (st : Status) :
  st <> OK -> outcome P target path disabled fs st disabled fs.
Proof. intros Hs. split; [by split; [|left]|]. split; [done|]. split; [done|]. intros _. split; [by left|by right]. Qed.

(** [full] is the staging directory [path], unless an early step failed. *)
Lemma finish_outcome (P : Directory -> Prop) (s : Status) (fs1 fs : FileSystem) (full target path : bytes) (w1 : World) (dis disabled : Disabled)
    (st : Status) (w' : World) (disabled' : Disabled) (fs' : FileSystem) :
  path <> target -> path <> [] -> target <> [] ->
  (full = path \/ full = [] /\ s <> OK) -> counted disabled s dis ->
  (s = OK -> exists d, fs1 !! path = Some d /\ P d) ->
  (forall q, q <> path -> fs1 !! q = fs !! q) -> (full = [] -> fs1 = fs) ->
  (let '(s, x) := finish_checkpoint io s fs1 full target in Some (s, w1, dis, x)) = Some (st, w', disabled', fs') ->
  outcome P target path disabled fs st disabled' fs'.
Proof.
  intros Hpc Hp0 Ht0 Hfull [Hd1 Hd2] Hdir Hq Hf0. destruct (finish_checkpoint io s fs1 full target) as [s2 fs2] eqn:Ef.
  intros [= -> _ <- ->]. apply finish_checkpoint_spec in Ef as (H1 & H2 & H3); [|destruct Hfull as [->|[-> _]]; congruence].
  split; [split; [intros Hst; by apply Hd1, H2|done]|]. split; [|split].
  - intros q Hq0 Hq1 Hq2. rewrite H1; [by apply Hq| |done]. by destruct Hfull as [->|[-> _]].
  - intros Hst. destruct (H2 Hst) as (Hs & Ht & Hs1 & Hs2). rewrite Hq in Ht by done. destruct Hfull as [->|[_ ?]]; [|done].
    destruct (Hdir Hs) as (d & Hd & HP). split; [done|]. split; [|done]. exists d. by rewrite Hs1.
  - intros Hst. destruct (H3 Hst) as [Ht Hc]. rewrite Hq in Ht by done. split; [done|]. intros Hcl.
    destruct Hfull as [->|[-> _]]; [left; by apply Hc|right]. rewrite H1 by done. by rewrite Hf0.
Qed.

Lemma enable_outcome (P : Directory -> Prop) (s : Status) (fs1 fs : FileSystem) (full target path : bytes) (w1 : World) (dis disabled : Disabled)
    (st : Status) (w' : World) (disabled' : Disabled) (fs' : FileSystem) :
  path <> target /\ path <> [] -> target <> [] -> 0 <= disabled ->
  (full = path \/ full = [] /\ s <> OK) -> counted (disabled + 1) s dis ->
  (s = OK -> exists d, fs1 !! path = Some d /\ P d) ->
  (forall q, q <> path -> fs1 !! q = fs !! q) -> (full = [] -> fs1 = fs) ->
  (disabled ← ('(ss, d1) ← EnableFileDeletions (base_enable io) false dis; _ ← assert (ok ss); Some d1);
   let '(s, x) := finish_checkpoint io s fs1 full target in Some (s, w1, disabled, x)) = Some (st, w', disabled', fs') ->
  outcome P target path disabled fs st disabled' fs'.
Proof.
  intros [Hpc Hp0] Ht0 Hd Hfull [Hd1 Hd2] Hdir Hq Hf0 H. unfold EnableFileDeletions in H.
  destruct (ok (base_enable io)) eqn:E4; cbn [negb] in H.
  2:{ cbn [mbind option_bind] in H. rewrite E4 in H. done. }
  apply bind_Some in H as (d2 & H & Hfin). apply bind_Some in H as ([ss d1] & H & H').
  assert (d2 = dis - 1) as ->.
  { rewrite (proj2 (Z.ltb_lt 0 dis)) in H by lia. rewrite (proj2 (Z.leb_le 0 _)) in H by lia.
    cbn [assert mbind option_bind] in H. injection H as <- <-.
    cbn [ok assert mbind option_bind] in H'. by injection H' as <-. }
  eapply (finish_outcome P s fs1 fs full target path w1 (dis - 1) disabled); [done|done|done|done| |done|done|done|exact Hfin].
  split; [intros Hs; specialize (Hd1 Hs); lia|]. destruct Hd2 as [->|(? & ? & ->)]; [left|right]; split_and?; try done; lia.
Qed.
End Spec.

(** ** Properties *)

(** C16: a checkpoint that is taken while other threads allocate numbers, add and
    mark files, and drop column families can be opened: when the file operations
    work, with files copied where links are not supported, it reports success,
    the number of disabled file deletions is what it was, the staging directory
    has become the checkpoint, and Titan recovers from it every blob file that
    the database had when the checkpoint was started, obsolete ones included,
    with what a manifest keeps of its metadata, and the blob file itself is
    there. So whatever the base database of the checkpoint refers to can be
    read. *)
Theorem checkpoint_restores `{C : Comparator} `{LC : !ComparatorLaws C} (env : Surroundings) (io : CheckpointIO)
    (base_dir titan_dir : bytes) (w : World) (disabled : Disabled) (fs : FileSystem) (p : gset Z) :
  mutex_held w = false -> 0 <= disabled -> intact (mkWorld (blob_file_set_ w) (disk w) p) -> others_busy env ->
  succeeds io -> all_arrive io -> CreateFile_error io = OK ->
  place base_dir titan_dir <> [] -> fs !! place base_dir titan_dir = None ->
  clean_before io = clean_ok \/ fs !! staging base_dir titan_dir = None ->
  let s := listed_set env w in
  exists w' fs' d, CreateCheckpoint env io base_dir titan_dir w disabled fs = Some (OK, w', disabled, fs') /\
    fs' = <[place base_dir titan_dir := mkDirectory d ∅ None]> (delete (staging base_dir titan_dir) fs) /\
    keeps (blob_file_set_ w) s /\
    forall cfs stats garbage, opens_checkpoint s cfs -> fs_next_file_number_ s < 2 ^ 64 - 2 ->
      exists s' d', Open io_ok (BlobFileSet_new stats garbage) d cfs = Some (OK, s', d') /\
        forall cf b n m, column_families_ (blob_file_set_ w) !! cf = Some b -> files_ b !! n = Some m -> is_Some (cfs !! cf) ->
          exists b', column_families_ s' !! cf = Some b' /\ files_ b' !! n = Some (persistent m) /\ n ∈ blobs_ d'.
Proof.
  intros Hm Hd Hi Hb Hs Ha Hc Hne Habs Hcl s.
  destruct (CreateCheckpoint_spec env io base_dir titan_dir w disabled fs p Hm Hd Hi Hb Hs (or_intror Ha) Hne Habs Hcl)
    as (dk & p' & d & w' & fs' & Hck & Hi' & Hk & Hof & Hfs). exists w', fs', d. split; [done|]. split; [done|]. split; [done|].
  intros cfs stats garbage Hop Hlt. destruct (checkpoint_reopens io s dk p' d cfs stats garbage Hi' Hof Hc Hop Hlt) as (s' & d' & Ho & Hf).
  exists s', d'. split; [done|]. intros cf b n m Hcf Hn Hin. destruct (Hf _ cf b n m Hk Hcf Hn Hin) as (b' & Hb' & Hm' & Hbl).
  exists b'. split_and!; [done|done|]. apply Hbl. unfold arrives. destruct (Ha n) as [[-> | ->] _]; [done|]. by rewrite bool_decide_true, orb_true_r.
Qed.

(** A checkpoint reports success although it is incomplete. The status of
    linking or copying a file is overwritten by that of the next one, and in the
    end by that of the manifest: when links fail otherwise than by not being
    supported, the checkpoint succeeds, its manifest lists the files, and they
    are missing. The status of writing [CURRENT] is not looked at at all: when
    nothing of it was written, the checkpoint succeeds and opens as an empty
    database, without any blob file. *)
Theorem checkpoint_hides_errors `{C : Comparator} `{LC : !ComparatorLaws C} (env : Surroundings) (io : CheckpointIO)
    (base_dir titan_dir : bytes) (w : World) (disabled : Disabled) (fs : FileSystem) (p : gset Z) :
  mutex_held w = false -> 0 <= disabled -> intact (mkWorld (blob_file_set_ w) (disk w) p) -> others_busy env ->
  succeeds io -> (forall n, LinkFile_error io n <> NotSupported) ->
  place base_dir titan_dir <> [] -> fs !! place base_dir titan_dir = None ->
  clean_before io = clean_ok \/ fs !! staging base_dir titan_dir = None ->
  let s := listed_set env w in
  exists w' fs' d, CreateCheckpoint env io base_dir titan_dir w disabled fs = Some (OK, w', disabled, fs') /\
    fs' !! place base_dir titan_dir = Some (mkDirectory d ∅ None) /\ keeps (blob_file_set_ w) s /\
    (CreateFile_error io = OK -> forall cfs stats garbage, opens_checkpoint s cfs -> fs_next_file_number_ s < 2 ^ 64 - 2 ->
       exists s' d', Open io_ok (BlobFileSet_new stats garbage) d cfs = Some (OK, s', d') /\
         forall cf b n m, column_families_ (blob_file_set_ w) !! cf = Some b -> files_ b !! n = Some m -> is_Some (cfs !! cf) ->
           LinkFile_error io n <> OK ->
           (n ∉ blobs_ d) /\ exists b', column_families_ s' !! cf = Some b' /\ files_ b' !! n = Some (persistent m)) /\
    (CreateFile_error io <> OK -> current_left io = None -> forall cfs stats garbage,
       exists s' d', Open io_ok (BlobFileSet_new stats garbage) d cfs = Some (OK, s', d') /\
         forall cf b', column_families_ s' !! cf = Some b' -> files_ b' = ∅).
Proof.
  intros Hm Hd Hi Hb Hs Ha Hne Habs Hcl s.
  destruct (CreateCheckpoint_spec env io base_dir titan_dir w disabled fs p Hm Hd Hi Hb Hs (or_introl Ha) Hne Habs Hcl)
    as (dk & p' & d & w' & fs' & Hck & Hi' & Hk & Hof & Hfs). exists w', fs', d. split; [done|].
  split; [by rewrite Hfs, lookup_insert_eq|]. split; [done|]. split.
  - intros Hc cfs stats garbage Hop Hlt.
    destruct (checkpoint_reopens io s dk p' d cfs stats garbage Hi' Hof Hc Hop Hlt) as (s' & d' & Ho & Hf).
    exists s', d'. split; [done|]. intros cf b n m Hcf Hn Hin Hl. split.
    + intros [_ Har]%(proj2 (proj2 Hof)). unfold arrives in Har. rewrite bool_decide_false in Har by done.
      by destruct (LinkFile_error io n).
    + destruct (Hf _ cf b n m Hk Hcf Hn Hin) as (b' & ? & ? & _). by exists b'.
  - intros Hc Hl cfs stats garbage. destruct Hof as (Hcur & _).
    assert (current_ d = None) as Hnone by (rewrite Hcur, Hl; by destruct (CreateFile_error io)).
    unfold Open. rewrite Hnone. destruct (open_fresh stats garbage cfs) as (_ & _ & _ & Hcf). unfold NewFileNumber.
    set (s0 := set_next_file_number _ _).
    destruct (OpenManifest_io_ok s0 d (fs_next_file_number_ (AddColumnFamilies (BlobFileSet_new stats garbage) cfs))) as [items ->].
    eexists _, _. split; [reflexivity|]. intros cf b' Hb'. cbn in Hb'. rewrite Hcf in Hb'. by apply fmap_Some in Hb' as (o & _ & ->).
Qed.

(** C35: whatever fails, a checkpoint touches only its place and its staging
    directory. After a success the place was free and is a directory now with the
    complete manifest of the set of blob files at the time the files were listed,
    with [CURRENT] as far as it was written, its status being ignored, and with
    blob files of that set only: with all that could be linked, or copied where
    links are not supported, when the other threads keep the files as long as
    deletions are disabled. After a failure the place is as before, unless the
    failure was in synchronising the renamed directory; a failure that can clean up
    leaves no staging directory when it has started one. The number of disabled
    file deletions is what it was after a success, and after a failure, too, but
    for one case: when the base database refuses to enable the deletions after the
    listing of the files, they stay disabled once more. (A refusal to enable them at
    the very end is a failed assertion in the code, without an outcome.) *)
Theorem checkpoint_outcomes `{C : Comparator} `{LC : !ComparatorLaws C} (env : Surroundings) (io : CheckpointIO)
    (base_dir titan_dir : bytes) (w : World) (disabled : Disabled) (fs : FileSystem) (st : Status) (w' : World) (disabled' : Disabled) (fs' : FileSystem) :
  0 <= disabled -> CreateCheckpoint env io base_dir titan_dir w disabled fs = Some (st, w', disabled', fs') ->
  place base_dir titan_dir <> [] ->
  let s := listed_set env w in
  ((st = OK -> disabled' = disabled) /\
   (disabled' = disabled \/ all_disable io = OK /\ all_enable io <> OK /\ disabled' = disabled + 1)) /\
  (forall q, q <> [] -> q <> staging base_dir titan_dir -> q <> place base_dir titan_dir -> fs' !! q = fs !! q) /\
  (st = OK -> fs !! place base_dir titan_dir = None /\
     (exists d, fs' !! place base_dir titan_dir = Some (mkDirectory d ∅ None) /\ holds_checkpoint io s d /\
        forall p, others_busy env -> intact (mkWorld (blob_file_set_ w) (disk w) p) -> transfers io ->
          checkpoint_of io s d) /\
     fs' !! staging base_dir titan_dir = None) /\
  (st <> OK ->
     (fs' !! place base_dir titan_dir = fs !! place base_dir titan_dir \/
      NewDirectory_error io <> OK \/ Fsync_error io <> OK) /\
     (clean_after io = clean_ok -> fs' !! staging base_dir titan_dir = None \/
      fs' !! staging base_dir titan_dir = fs !! staging base_dir titan_dir)).
Proof.
  intros Hd Hck Hne s. set (P := fun x : Directory => exists d, x = mkDirectory d ∅ None /\ holds_checkpoint io s d /\
    forall p, others_busy env -> intact (mkWorld (blob_file_set_ w) (disk w) p) -> transfers io -> checkpoint_of io s d).
  enough (outcome io P (place base_dir titan_dir) (staging base_dir titan_dir) disabled fs st disabled' fs') as (H1 & H2 & H3 & H4).
  { split; [exact H1|]. split; [exact H2|]. split; [|exact H4]. intros Hst. destruct (H3 Hst) as (F1 & (x & F2 & d & -> & F3 & F4) & F5).
    split; [exact F1|]. split; [|exact F5]. exists d. split_and!; done. }
  unfold CreateCheckpoint in Hck. unfold staging, place in *.
  set (dir := if bool_decide (titan_dir = []) then base_dir ++ titandb_suffix else titan_dir) in *.
  set (path := canonical dir ++ tmp_suffix) in *.
  assert (path <> canonical dir) as Hpc by apply staging_ne.
  assert (path <> []) as Hp0 by (intros E%app_nil; by destruct E).
  destruct (ok (FileExists io fs dir)) eqn:E1.
  { injection Hck as <- _ <- <-. by apply outcome_same. }
  case_bool_decide as E2; cbn [negb] in Hck.
  2:{ destruct (assert _) as [[]|]; [|done]. injection Hck as <- _ <- <-. apply outcome_same. intros E. by rewrite E in E1. }
  assert (exists i, find_last_not_of_slash dir = Some i /\ take (S i) dir = canonical dir) as (i & Hidx & Hcan).
  { unfold canonical in *. destruct (find_last_not_of_slash dir) as [i|]; [by exists i|done]. }
  rewrite Hidx, Hcan in Hck. fold path in Hck. unfold DisableFileDeletions in Hck.
  destruct (ok (base_disable io)) eqn:E3; cbn [negb ok] in Hck.
  2:{ rewrite E3 in Hck. cbn [mbind option_bind] in Hck. rewrite E3 in Hck. cbn [mbind option_bind] in Hck.
      assert (base_disable io <> OK) as Hbd by (intros E; by rewrite E in E3).
      apply (finish_outcome io P (base_disable io) fs fs [] (canonical dir) path w disabled disabled st w' disabled' fs');
        [done|done|done|by right|by split; [|left]|done|done|done|exact Hck]. }
  destruct (prepare_staging env io w fs path) as [[[s1 w1] fs1] full] eqn:Ep. pose proof (prepare_staging_empty _ _ _ _ _ _ _ _ _ Ep) as Hempty.
  apply prepare_staging_spec in Ep.
  destruct (ok s1) eqn:E5.
  - destruct Ep as [[-> Hq]|(_ & Hs1 & _)]; [|by destruct s1]. destruct s1; try done. destruct (Hempty eq_refl) as [He Hw1]. rewrite He in Hck.
    cbn [from_option dir_files empty_directory] in Hck. subst w1.
    destruct (CreateCustomCheckpoint env io (others env w) (disabled + 1) _) as [[[[s2 w2] d2] dd]|] eqn:Ec; cbn [mbind option_bind] in Hck; [|done].
    apply (enable_outcome io P s2 (<[path := mkDirectory dd ∅ None]> fs1) fs path (canonical dir) path w2 d2 disabled st w' disabled' fs'); [by split|done|exact Hd|by left| | | |done|exact Hck].
    + eapply custom_disabled; [|exact Ec]. lia.
    + intros ->. exists (mkDirectory dd ∅ None). rewrite lookup_insert_eq. split; [done|]. exists dd. split; [done|].
      destruct (custom_success env io _ _ _ _ _ Ec) as [Hh Hx]. split; [exact Hh|]. intros p Hb Hi Ht.
      destruct Hh as (C1 & C2 & _). split; [exact C1|]. split; [exact C2|]. apply Hx; [done| |done].
      destruct (others_hold env _ _ Hb (others_hold env (blob_file_set_ w) w Hb (ex_intro _ p (conj Hi (reflexivity _))))) as (p' & Hi' & _).
      by exists p'.
    + intros q Hq1. rewrite lookup_insert_ne by done. by apply Hq.
  - assert (s1 <> OK) as Hs1 by (intros E; by rewrite E in E5). cbn [mbind option_bind] in Hck.
    apply (enable_outcome io P s1 fs1 fs full (canonical dir) path w1 (disabled + 1) disabled st w' disabled' fs'); [by split|done|exact Hd| | |done| | |exact Hck].
    + destruct Ep as [[-> _]|(-> & ? & _)]; [by left|by right].
    + by split; [|left].
    + by destruct Ep as [[_ ?]|(_ & _ & ->)].
    + destruct Ep as [[-> _]|(_ & _ & ->)]; [intros ?; done|done].
Qed.
