(* ===== verification/DBRead.v ===== *)
(** * DBRead: the front end of the database

    [Get], [GetImpl], [MultiGet] and [MultiGetImpl] of [db_impl.cc]: the base
    database gives the value that a snapshot sees, and the record behind a blob
    index comes from the blob storage of the column family, while other threads
    go on. The calls that change the database are refused after a background
    error and passed on to the base database otherwise. A snapshot is the state of the LSM tree when it was taken. Timers,
    tickers and log messages are not modelled. *)
From S2P Require Import Prelude Coding Crc32c BitMap BlobFileMeta Options BlobStorage BlobFileSet GCPicker BlobFileBuilder BlobFileReader BlobFileIterator BlobStorageRead GCJob BlobFormat.

Local Open Scope Z_scope.
Local Open Scope aegon_scope.

Section Read.
Context (env : Surroundings) `{C : Comparator} `{L : FileLibrary} (cache_id : option Z).

(** What other readers do to the caches. *)
Context (others_caches : nat -> Caches -> Caches).

Record Reading : Type := mkReading {
  rs_db : World;
  rs_caches : Caches }.

(** [ManagedSnapshot], and the time that passes. *)
Definition take_snapshot (s : Reading) : gmap bytes LsmValue * Reading :=
  let t := others_lsm env (clock (rs_db s)) (lsm (rs_db s)) in
  (t, mkReading (set_lsm (rs_db s) t) (rs_caches s)).

(** The storage may change, or its column family be destroyed, between the look
    at it and the read. *)
Definition blob_storage (w : World) (handle : Z) : option (option BlobStorage * World) :=
  w ← Lock env w;
  let storage := GetBlobStorage (blob_file_set_ w) handle in
  let w := others env (Unlock w) in
  Some (match storage with
        | Some b => Some (default b (GetBlobStorage (blob_file_set_ w) handle))
        | None => None
        end, w).

Definition GetImpl (snapshot : gmap bytes LsmValue) (s : Reading) (handle : Z) (k : bytes)
    : option (res bytes * Reading) :=
  let w := rs_db s in
  let '(st, is_blob_index, value) := get_at snapshot (read_error env (clock w)) k in
  let w := set_lsm w (others_lsm env (clock w) (lsm w)) in
  if negb (ok st) then Some (Fail st, mkReading w (rs_caches s)) else
  if negb is_blob_index then Some (Ret value, mkReading w (rs_caches s)) else
  match BlobIndex_DecodeFrom BlobIndex_default value with
  | Fail _ => None
  | Ret (index, _) =>
      '(storage, w) ← blob_storage w handle;
      match storage with
      | None => Some (Fail NotFound, mkReading w (rs_caches s))
      | Some storage =>
          let c := others_caches (clock w) (rs_caches s) in
          '(r, c) ← BlobStorage_Get (NewBlobFileReader env) cache_id storage c index;
          Some (record <-? r ;; Ret (BlobFormat.value record.1), mkReading w c)
      end
  end.

Definition with_snapshot (snapshot : option (gmap bytes LsmValue)) (s : Reading) : gmap bytes LsmValue * Reading :=
  match snapshot with
  | Some t => (t, s)
  | None => take_snapshot s
  end.

Definition Get (snapshot : option (gmap bytes LsmValue)) (s : Reading) (handle : Z) (k : bytes) : option (res bytes * Reading) :=
  let '(t, s) := with_snapshot snapshot s in GetImpl t s handle k.

(** [handles[i]] is out of range when there are too few handles. *)
Fixpoint MultiGetImpl (snapshot : gmap bytes LsmValue) (s : Reading) (handles : list Z) (keys : list bytes)
    : option (list (res bytes) * Reading) :=
  match keys with
  | [] => Some ([], s)
  | k :: keys =>
      match handles with
      | [] => None
      | handle :: handles =>
          '(r, s) ← GetImpl snapshot s handle k;
          '(rs, s) ← MultiGetImpl snapshot s handles keys;
          Some (r :: rs, s)
      end
  end.

Definition MultiGet (snapshot : option (gmap bytes LsmValue)) (s : Reading) (handles : list Z) (keys : list bytes)
    : option (list (res bytes) * Reading) :=
  let '(t, s) := with_snapshot snapshot s in MultiGetImpl t s handles keys.

(** ** Calls that change the database *)

(** [has_bg_error_] is set together with [bg_error_]. *)
Definition HasBGError (w : World) : bool := negb (ok (bg_error_ w)).

Definition GetBGError (w : World) : option (Status * World) :=
  w ← Lock env w; Some (bg_error_ w, Unlock w).

(** [Put], [Write], [MultiBatchWrite], [Delete], [IngestExternalFile],
    [CompactRange] and [Flush]; [call] is the call of the base database. *)
Definition unless_bg_error (w : World) (call : World -> Status * World) : option (Status * World) :=
  if HasBGError w then GetBGError w else Some (call w).
End Read.
