(* ===== verification/DBReadSpec.v ===== *)
(** * DBReadSpec: reads through a snapshot are exact

    Whatever the other threads do - collect, flush, compact, purge - a read
    through a snapshot gives what was there when the snapshot was taken. *)
From S2P Require Import Prelude Coding Crc32c BitMap BlobFileMeta TitanStats Options VersionEdit BlobStorage BlobStorageProofs EditCollector EditCollectorProofs BlobFileSet BlobFileSetProofs BlobFileSetSpec GCPicker BlobFileBuilder BlobFileReader BlobFileIterator BlobStorageRead GCJob GCJobProofs DBFiles DBFilesProofs DBRead BlobFormat.

Local Open Scope Z_scope.
Local Open Scope aegon_scope.

Section Spec.
Context (env : Surroundings) `{C : Comparator} `{LC : !ComparatorLaws C} `{L : FileLibrary} (cache_id : option Z).
Context (others_caches : nat -> Caches -> Caches) (sizes : Z -> Z).

Abbreviation View := (gmap bytes LsmValue) (only parsing).

(** ** The specification *)

Definition index_of (v : LsmValue) (i : BlobIndex) : Prop :=
  is_blob_index v = true /\ BlobIndex_DecodeFrom BlobIndex_default (lsm_value v) = Ret (i, []).

(** What a read of [k] in a state [t] of the LSM tree has to give, when the base
    database has the status [error]. *)
Inductive answers (t : View) (error : Status) (k : bytes) : res bytes -> Prop :=
  | answer_error : ok error = false -> answers t error k (Fail error)
  | answer_absent : ok error = true -> t !! k = None -> answers t error k (Fail NotFound)
  | answer_inline v :
      ok error = true -> t !! k = Some v -> is_blob_index v = false -> answers t error k (Ret (lsm_value v))
  | answer_blob v i r :
      ok error = true -> t !! k = Some v -> index_of v i -> reads_as (NewBlobFileReader env) cache_id sizes i r ->
      answers t error k (Ret (BlobFormat.value r))
  | answer_unreadable v i e :
      ok error = true -> t !! k = Some v -> index_of v i ->
      (forall r, ~ reads_as (NewBlobFileReader env) cache_id sizes i r) -> answers t error k (Fail e).

(** The blob files that a state of the LSM tree refers to. *)
Definition refers_to (t : View) (n : Z) : Prop := exists k v i, t !! k = Some v /\ index_of v i /\ file_number i = n.

(** The snapshot [t] of column family [cf], taken at the sequence number [q],
    is held. *)
Record holding (q cf : Z) (t : View) : Prop := {
  ho_open : openable (NewBlobFileReader env) cache_id sizes;
  ho_index : forall k v, t !! k = Some v -> is_blob_index v = true ->
    exists i, index_of v i /\ is_u64 (file_number i) /\ readable (NewBlobFileReader env) cache_id sizes i;
  ho_files : forall n s d, rtc (meanwhile q cf (refers_to t) sizes) (s, d) (others_files env n (s, d));
  ho_caches : forall n fc, files_cached (NewBlobFileReader env) cache_id sizes fc ->
    exists fc', others_caches n (fc, None) = (fc', None) /\ files_cached (NewBlobFileReader env) cache_id sizes fc' }.

(** A state in which its files are there. *)
Record held (q cf : Z) (t : View) (s : Reading) : Prop := {
  he_free : mutex_held (rs_db s) = false;
  he_files : guarded q cf (refers_to t) sizes (blob_file_set_ (rs_db s));
  he_blobs : (rs_caches s).2 = None;
  he_cache : files_cached (NewBlobFileReader env) cache_id sizes (rs_caches s).1 }.

(** ** Proofs *)

Section Proofs.
Context (q cf : Z) (t : View) (Ht : holding q cf t).

Lemma others_guarded w :
  guarded q cf (refers_to t) sizes (blob_file_set_ w) -> guarded q cf (refers_to t) sizes (blob_file_set_ (others env w)).
Proof.
  intros Hg. pose proof (meanwhiles_guarded _ _ _ _ _ _ (ho_files _ _ _ Ht (clock w) (blob_file_set_ w) (disk w)) Hg) as Hg'.
  unfold others. by destruct (others_files env _ _).
Qed.

Lemma blob_storage_spec w :
  mutex_held w = false -> guarded q cf (refers_to t) sizes (blob_file_set_ w) ->
  exists b w', blob_storage env w cf = Some (Some b, w') /\ mutex_held w' = false /\
    guarded q cf (refers_to t) sizes (blob_file_set_ w') /\ storage_sized sizes b /\
    forall n, refers_to t n -> is_Some (files_ b !! n).
Proof.
  intros Hm Hg. unfold blob_storage, Lock. rewrite Hm. cbn [mbind option_bind].
  pose proof (others_guarded w Hg) as Hg1. destruct (guarded_storage _ _ _ _ _ Hg1) as (b0 & Hb0 & _).
  set (w1 := Unlock _) in *. pose proof (others_guarded w1 Hg1) as Hg2. destruct (guarded_storage _ _ _ _ _ Hg2) as (b & Hb & Hsz & HP).
  exists b, (others env w1). rewrite Hb. cbn [blob_file_set_] in *. rewrite Hb0. split; [done|]. split; [|done].
  unfold others, w1. cbn. by destruct (others_files env _ _).
Qed.

Lemma GetImpl_answers s k :
  held q cf t s ->
  exists r s', GetImpl env cache_id others_caches t s cf k = Some (r, s') /\ held q cf t s' /\
    exists n, answers t (read_error env n) k r.
Proof.
  intros [Hm Hg Hbl Hc]. unfold GetImpl, get_at. set (e := read_error env (clock (rs_db s))).
  destruct (ok e) eqn:He; cbn [negb].
  2:{ rewrite He. cbn [negb]. eexists _, _. split; [reflexivity|]. split; [by split|]. eexists. by apply answer_error. }
  destruct (t !! k) as [v|] eqn:Hv; cbn [ok negb].
  2:{ eexists _, _. split; [reflexivity|]. split; [by split|]. exists (clock (rs_db s)). by apply answer_absent. }
  destruct (is_blob_index v) eqn:Hi; cbn [negb].
  2:{ eexists _, _. split; [reflexivity|]. split; [by split|]. exists (clock (rs_db s)). by apply answer_inline. }
  destruct (ho_index _ _ _ Ht k v Hv Hi) as (i & [_ Hdec] & Hu & Hrd). rewrite Hdec.
  destruct (blob_storage_spec (set_lsm (rs_db s) (others_lsm env (clock (rs_db s)) (lsm (rs_db s)))) Hm Hg)
    as (b & w' & -> & Hm' & Hg' & Hsz & HP). cbn [mbind option_bind].
  destruct (rs_caches s) as [fc bl] eqn:Ecs. cbn in Hbl, Hc. subst bl.
  destruct (ho_caches _ _ _ Ht (clock w') fc Hc) as (fc1 & -> & Hfc1).
  destruct (BlobStorage_Get_spec _ cache_id sizes b fc1 i Hu (ho_open _ _ _ Ht) Hrd Hsz Hfc1) as (r & fc2 & -> & Hfc2 & Hr).
  cbn [mbind option_bind]. eexists _, _. split; [reflexivity|]. split; [by split|]. exists (clock (rs_db s)).
  assert (index_of v i) as Hidx by done.
  destruct r as [[rec buf]|er]; cbn [res_bind fst].
  - eapply answer_blob; try done. apply Hr.
  - eapply answer_unreadable; try done. destruct Hr as [Hno|]; [|done].
    destruct (HP (file_number i)) as [m Hm1]; [by exists k, v, i|]. by rewrite Hno in Hm1.
Qed.

Lemma MultiGetImpl_answers keys : forall s handles,
  held q cf t s -> length handles = length keys -> Forall (eq cf) handles ->
  exists rs s', MultiGetImpl env cache_id others_caches t s handles keys = Some (rs, s') /\ held q cf t s' /\
    Forall2 (fun k r => exists n, answers t (read_error env n) k r) keys rs.
Proof.
  induction keys as [|k keys IH]; intros s [|h handles] Hs Hl Hh; try done; cbn [MultiGetImpl]; [by exists [], s|].
  apply Forall_cons in Hh as [<- Hh]. destruct (GetImpl_answers s k Hs) as (r & s1 & -> & Hs1 & Hr). cbn [mbind option_bind].
  injection Hl as Hl. destruct (IH s1 handles Hs1 Hl Hh) as (rs & s2 & -> & Hs2 & Hrs). cbn [mbind option_bind].
  exists (r :: rs), s2. split; [done|]. split; [done|]. by constructor.
Qed.
End Proofs.

(** ** Properties *)

(** C5: Reads through a snapshot are exact and never fail an assertion. From the
    moment that a snapshot is taken - by the caller or by the read itself - any
    interleaving of collections, flushes, compactions, purges and dropped column
    families that respects it leaves every key readable: a read gives the inline
    value, the value of the record behind the blob index, or that there is no
    such key, as the snapshot has it; it fails only when the base database fails
    or when the record can not be read from its file. *)
Theorem snapshot_reads_exact q cf snapshot s handles keys :
  let '(t, s1) := with_snapshot env snapshot s in
  holding q cf t -> held q cf t s1 -> length handles = length keys -> Forall (eq cf) handles ->
  exists rs s', MultiGet env cache_id others_caches snapshot s handles keys = Some (rs, s') /\ held q cf t s' /\
    Forall2 (fun k r => exists n, answers t (read_error env n) k r) keys rs /\
    forall k, exists r s2, Get env cache_id others_caches snapshot s cf k = Some (r, s2) /\ held q cf t s2 /\
      exists n, answers t (read_error env n) k r.
Proof.
  destruct (with_snapshot env snapshot s) as [t s1] eqn:Es. intros Ht Hs Hl Hh. unfold MultiGet, Get. rewrite Es.
  destruct (MultiGetImpl_answers q cf t Ht keys s1 handles Hs Hl Hh) as (rs & s' & Hm & Hs' & Hrs).
  exists rs, s'. split; [exact Hm|]. split; [done|]. split; [done|]. intros k. by apply GetImpl_answers.
Qed.
End Spec.
