(* ===== verification/DBIter.v ===== *)
(** * DBIter: iterators of the database

    [TitanDBIterator] of [db_iter.h] and [NewIterator], [NewIteratorImpl] and
    [NewIterators] of [db_impl.cc]: an iterator of the base database over a
    snapshot, whose blob indexes are replaced by the values they stand for. The
    inner iterator ([ArenaWrappedDBIter]) is an interface. [None] is a failed
    assertion or a dangling pointer to a storage. Timers, tickers and log
    messages are not modelled. *)
From S2P Require Import Prelude Coding Crc32c BitMap BlobFileMeta Options BlobStorage BlobFileSet GCPicker BlobFileBuilder BlobFileReader BlobFileIterator BlobStorageRead GCJob DBRead BlobFormat.

Local Open Scope Z_scope.
Local Open Scope aegon_scope.

(** The calls that move an iterator. *)
Inductive Move : Type :=
  | SeekToFirst
  | SeekToLast
  | Seek (target : bytes)
  | SeekForPrev (target : bytes)
  | Next
  | Prev.

(** An iterator of the base database with exposed blob indexes, opened on a
    state of the LSM tree. *)
Class InnerIterator : Type := {
  inner : Type;
  NewInner : gmap bytes LsmValue -> inner;
  inner_move : Move -> inner -> inner;
  inner_Valid : inner -> bool;
  inner_IsBlob : inner -> bool;
  inner_key : inner -> bytes;
  inner_value : inner -> bytes;
  inner_status : inner -> Status;
  inner_seqno : inner -> option Z }.

Section Iterator.
Context (env : Surroundings) `{C : Comparator} `{L : FileLibrary} (cache_id : option Z).
Context (others_caches : nat -> Caches -> Caches) `{I : InnerIterator}.

(** [storage_] is the storage of the column family [it_handle]; [buffer_] only
    keeps the bytes of [record_] alive. *)
Record TitanDBIterator : Type := mkDBIterator {
  it_status : Status;
  record_ : BlobRecord;
  key_only : bool;
  it_handle : Z;
  iter_ : inner;
  files : gmap Z (BlobFileReader * BlobFilePrefetcher) }.

Definition BlobRecord_empty : BlobRecord := {| key := []; value := [] |}.

Definition set_status (it : TitanDBIterator) (st : Status) : TitanDBIterator :=
  mkDBIterator st (record_ it) (key_only it) (it_handle it) (iter_ it) (files it).

Definition set_iter (it : TitanDBIterator) (i : inner) : TitanDBIterator :=
  mkDBIterator (it_status it) (record_ it) (key_only it) (it_handle it) i (files it).

Definition set_file (it : TitanDBIterator) (n : Z) (p : BlobFileReader * BlobFilePrefetcher) : TitanDBIterator :=
  mkDBIterator (it_status it) (record_ it) (key_only it) (it_handle it) (iter_ it) (<[n := p]> (files it)).

Definition set_record (it : TitanDBIterator) (r : BlobRecord) : TitanDBIterator :=
  mkDBIterator OK r (key_only it) (it_handle it) (iter_ it) (files it).

Definition Valid (it : TitanDBIterator) : bool := inner_Valid (iter_ it) && ok (it_status it).

Definition status (it : TitanDBIterator) : Status :=
  if ok (it_status it) then inner_status (iter_ it) else it_status it.

Definition key (it : TitanDBIterator) : option bytes :=
  _ ← assert (Valid it); Some (inner_key (iter_ it)).

Definition value (it : TitanDBIterator) : option bytes :=
  _ ← assert (Valid it && negb (key_only it));
  Some (if key_only it then [] else
        if negb (inner_IsBlob (iter_ it)) then inner_value (iter_ it) else BlobFormat.value (record_ it)).

Definition seqno (it : TitanDBIterator) : option Z := inner_seqno (iter_ it).

Definition ShouldGetBlobValue (it : TitanDBIterator) : bool * TitanDBIterator :=
  if negb (inner_Valid (iter_ it)) || negb (inner_IsBlob (iter_ it)) || key_only it
  then (false, set_status it (inner_status (iter_ it))) else (true, it).

(** The prefetcher of a file, from [files_] or a new one. *)
Definition find_prefetcher (s : Reading) (it : TitanDBIterator) (n : Z)
    : option (res (BlobFileReader * BlobFilePrefetcher) * Reading) :=
  match files it !! n with
  | Some p => Some (Ret p, s)
  | None =>
      let w := others env (rs_db s) in
      storage ← GetBlobStorage (blob_file_set_ w) (it_handle it);
      '(r, c) ← BlobStorage_NewPrefetcher (NewBlobFileReader env) cache_id storage
                  (others_caches (clock w) (rs_caches s)) n;
      Some (r, mkReading w c)
  end.

Definition GetBlobValue (s : Reading) (it : TitanDBIterator) : option (TitanDBIterator * Reading) :=
  _ ← assert (ok (inner_status (iter_ it)));
  match DecodeInto (BlobIndex_DecodeFrom BlobIndex_default) (inner_value (iter_ it)) false with
  | Fail e => Some (set_status it e, s)
  | Ret index =>
      '(r, s) ← find_prefetcher s it (file_number index);
      match r with
      | Fail e => Some (set_status it e, s)
      | Ret (reader, p) =>
          let '(p, got) := BlobFilePrefetcher_Get p reader (rs_caches s).2 (blob_handle index) in
          '(r, blobs) ← got;
          let it := set_file it (file_number index) (reader, p) in
          Some (match r with
                | Fail e => set_status it e
                | Ret (record, _) => set_record it record
                end, mkReading (rs_db s) ((rs_caches s).1, blobs))
      end
  end.

(** [SeekToFirst], [SeekToLast], [Seek], [SeekForPrev], [Next] and [Prev]. *)
Definition move (m : Move) (s : Reading) (it : TitanDBIterator) : option (TitanDBIterator * Reading) :=
  _ ← match m with Next | Prev => assert (Valid it) | _ => Some tt end;
  let it := set_iter it (inner_move m (iter_ it)) in
  let '(should, it) := ShouldGetBlobValue it in
  if should : bool then GetBlobValue s it else Some (it, s).

(** ** Creation *)

(** [None] inside is a null pointer. *)
Definition NewIteratorImpl (snapshot : gmap bytes LsmValue) (s : Reading) (key_only : bool) (handle : Z)
    : option (option TitanDBIterator * Reading) :=
  w ← Lock env (rs_db s);
  let storage := GetBlobStorage (blob_file_set_ w) handle in
  let s := mkReading (Unlock w) (rs_caches s) in
  Some (match storage with
        | None => None
        | Some _ => Some (mkDBIterator OK BlobRecord_empty key_only handle (NewInner snapshot) ∅)
        end, s).

Definition NewIterator (snapshot : option (gmap bytes LsmValue)) (s : Reading) (key_only : bool) (handle : Z)
    : option (option TitanDBIterator * Reading) :=
  let '(t, s) := with_snapshot env snapshot s in NewIteratorImpl t s key_only handle.

Fixpoint new_iterators (t : gmap bytes LsmValue) (s : Reading) (key_only : bool) (handles : list Z)
    : option (list (option TitanDBIterator) * Reading) :=
  match handles with
  | [] => Some ([], s)
  | handle :: handles =>
      '(it, s) ← NewIteratorImpl t s key_only handle;
      '(its, s) ← new_iterators t s key_only handles;
      Some (it :: its, s)
  end.

Definition NewIterators (snapshot : option (gmap bytes LsmValue)) (s : Reading) (key_only : bool) (handles : list Z)
    : option (list (option TitanDBIterator) * Reading) :=
  let '(t, s) := with_snapshot env snapshot s in new_iterators t s key_only handles.

(** ** Using an iterator *)

Fixpoint run (moves : list Move) (s : Reading) (it : TitanDBIterator) : option (TitanDBIterator * Reading) :=
  match moves with
  | [] => Some (it, s)
  | m :: moves => '(it, s) ← move m s it; run moves s it
  end.
End Iterator.
