(* ===== verification/DBIterSpec.v ===== *)
(** * DBIterSpec: iterators show what the snapshot holds

    An iterator stands where the inner iterator stands, and shows its key with
    the value behind it, whatever the other threads do in the meantime. *)
From S2P Require Import Prelude Coding Crc32c BitMap BlobFileMeta TitanStats Options VersionEdit BlobStorage BlobStorageProofs EditCollector EditCollectorProofs BlobFileSet BlobFileSetProofs BlobFileSetSpec GCPicker BlobFileBuilder BlobFileReader BlobFileIterator BlobStorageRead GCJob GCJobProofs DBFiles DBFilesProofs DBRead DBReadSpec BlobFormat DBIter.

Local Open Scope Z_scope.
Local Open Scope aegon_scope.

Definition steps_back_or_on (m : Move) : bool := match m with Next | Prev => true | _ => false end.

(** The states of an inner iterator on [t]; it is moved on only when valid. *)
Inductive inner_over `{I : InnerIterator} (t : gmap bytes LsmValue) : inner -> Prop :=
  | over_new : inner_over t (NewInner t)
  | over_move m i :
      inner_over t i -> (steps_back_or_on m = true -> inner_Valid i = true) -> inner_over t (inner_move m i).

(** What the iterators of the base database promise: a new one is not valid; a
    valid one has no error and stands at an entry. *)
Class InnerIteratorLaws (I : InnerIterator) : Prop := {
  new_invalid t : inner_Valid (NewInner t) = false;
  valid_entry t i : inner_over t i -> inner_Valid i = true ->
    inner_status i = OK /\ t !! inner_key i = Some (mkLsm (inner_IsBlob i) (inner_value i)) }.

Section Spec.
Context (env : Surroundings) `{C : Comparator} `{LC : !ComparatorLaws C} `{L : FileLibrary} (cache_id : option Z).
Context (others_caches : nat -> Caches -> Caches) (sizes : Z -> Z) `{I : InnerIterator} `{LI : !InnerIteratorLaws I}.
Context (Hproper : files_proper (NewBlobFileReader env)).

Abbreviation reads := (reads_as (NewBlobFileReader env) cache_id sizes) (only parsing).

(** ** The specification *)

Inductive shows (t : gmap bytes LsmValue) (it : TitanDBIterator) : Prop :=
  | shows_end :
      inner_Valid (iter_ it) = false -> Valid it = false -> status it = inner_status (iter_ it) -> shows t it
  | shows_key v :
      inner_Valid (iter_ it) = true -> key_only it = true -> Valid it = true -> status it = OK ->
      t !! inner_key (iter_ it) = Some v -> key it = Some (inner_key (iter_ it)) -> shows t it
  | shows_value x :
      inner_Valid (iter_ it) = true -> key_only it = false -> Valid it = true -> status it = OK ->
      key it = Some (inner_key (iter_ it)) -> value it = Some x ->
      answers env cache_id sizes t OK (inner_key (iter_ it)) (Ret x) -> shows t it
  | shows_error v i :
      inner_Valid (iter_ it) = true -> key_only it = false -> Valid it = false -> ok (status it) = false ->
      t !! inner_key (iter_ it) = Some v -> index_of v i -> (forall r, ~ reads i r) -> shows t it.

(** ** Proofs *)

Section Proofs.
Context (q cf : Z) (t : gmap bytes LsmValue) (Ht : holding env cache_id others_caches sizes q cf t).

(** An iterator on the snapshot, whose prefetchers read the right files. *)
Record on_snapshot (it : TitanDBIterator) : Prop := {
  os_handle : it_handle it = cf;
  os_inner : inner_over t (iter_ it);
  os_files : forall n p, files it !! n = Some p -> opens (NewBlobFileReader env) cache_id sizes n p.1 }.

Lemma find_prefetcher_spec s it v i :
  held env cache_id sizes q cf t s -> on_snapshot it -> t !! inner_key (iter_ it) = Some v -> index_of v i -> is_u64 (file_number i) ->
  exists r s', find_prefetcher env cache_id others_caches s it (file_number i) = Some (r, s') /\
    held env cache_id sizes q cf t s' /\ proper r /\
    match r with
    | Ret p => opens (NewBlobFileReader env) cache_id sizes (file_number i) p.1
    | Fail _ => forall rec, ~ reads i rec
    end.
Proof.
  intros Hs Hit Hv Hi Hu. unfold find_prefetcher. destruct (files it !! file_number i) as [p|] eqn:Ef.
  { exists (Ret p), s. split_and!; [done..|]. by apply (os_files _ Hit). }
  destruct Hs as [Hm Hg Hbl Hc].
  pose proof (others_guarded _ _ _ _ _ _ _ Ht (rs_db s) Hg) as Hg'. destruct (guarded_storage _ _ _ _ _ Hg') as (b & Hb & Hsz & HP).
  rewrite (os_handle _ Hit), Hb. cbn [mbind option_bind].
  assert (mutex_held (others env (rs_db s)) = false) as Hm'.
  { unfold others. by destruct (others_files env _ _). }
  destruct (rs_caches s) as [fc bl]. cbn in Hbl, Hc. subst bl.
  destruct (ho_caches _ _ _ _ _ _ _ Ht (clock (others env (rs_db s))) fc Hc) as (fc1 & -> & Hfc1).
  destruct (BlobStorage_NewPrefetcher_spec (NewBlobFileReader env) cache_id sizes b (fc1, None) (file_number i) Hu
    (ho_open _ _ _ _ _ _ _ Ht) Hsz Hfc1) as (r & fc2 & Hn & Hfc2 & Hr).
  rewrite Hn. cbn [mbind option_bind]. eexists r, _. split; [reflexivity|]. split; [by split|]. split.
  { by eapply BlobStorage_NewPrefetcher_proper. }
  destruct r as [p|e]; [apply Hr|]. intros rec (rd & buf & Ho & _). destruct Hr as [Hno|Hno]; [|by eapply Hno].
  destruct (HP (file_number i)) as [m Hm1]; [by exists (inner_key (iter_ it)), v, i|]. by rewrite Hno in Hm1.
Qed.

Lemma GetBlobValue_spec s it :
  held env cache_id sizes q cf t s -> on_snapshot it ->
  inner_Valid (iter_ it) = true -> inner_IsBlob (iter_ it) = true -> key_only it = false ->
  exists it' s', GetBlobValue env cache_id others_caches s it = Some (it', s') /\
    held env cache_id sizes q cf t s' /\ on_snapshot it' /\ shows t it' /\ iter_ it' = iter_ it /\ key_only it' = key_only it.
Proof.
  intros Hs Hit Hval Hblob Hko. destruct (valid_entry t _ (os_inner _ Hit) Hval) as [Hst Hv]. rewrite Hblob in Hv.
  destruct (ho_index _ _ _ _ _ _ _ Ht _ _ Hv eq_refl) as (i & Hidx & Hu & Hrd). pose proof Hidx as [_ Hdec]. cbn [lsm_value] in Hdec.
  unfold GetBlobValue. rewrite Hst. cbn [ok assert mbind option_bind]. unfold DecodeInto. rewrite Hdec. cbn [res_bind negb andb].
  change (zlen [] =? 0) with true. cbn [negb].
  destruct (find_prefetcher_spec s it _ i Hs Hit Hv Hidx Hu) as (r & s1 & -> & Hs1 & Hpr & Hr). cbn [mbind option_bind].
  destruct r as [[rd p]|e].
  2:{ exists (set_status it e), s1. split; [done|]. split; [done|]. split; [by destruct Hit|]. split; [|done]. cbn in Hpr.
      eapply shows_error; [exact Hval|exact Hko|..|exact Hv|exact Hidx|exact Hr]; unfold Valid, status; cbn; rewrite Hpr; [by rewrite andb_false_r|done]. }
  destruct (BlobFilePrefetcher_Get_spec (NewBlobFileReader env) cache_id sizes p rd i Hr Hrd) as (rr & p' & Hg & Hrr).
  pose proof (BlobFilePrefetcher_Get_proper _ _ _ _ _ _ _ _ _ _ Hproper Hr Hg) as Hpr'.
  destruct Hs1 as [H1 H2 H3 H4]. rewrite H3, Hg. cbn [mbind option_bind].
  assert (forall it', iter_ it' = iter_ it -> it_handle it' = it_handle it ->
    files it' = <[file_number i := (rd, p')]> (files it) -> on_snapshot it') as Hos.
  { intros it' E1 E2 E3. split; [rewrite E2; apply Hit|rewrite E1; apply Hit|]. rewrite E3.
    intros n x [[<- <-]|[_ Hx]]%lookup_insert_Some; [done|by apply (os_files _ Hit)]. }
  eexists _, _. split; [reflexivity|]. split; [by split|]. destruct rr as [[rec buf]|e].
  - split; [by apply Hos|]. split; [|done]. apply (shows_value t _ (BlobFormat.value rec)); unfold Valid, status, key, value, set_record, set_file, Valid;
      cbn; rewrite ?Hval, ?Hko, ?Hst; cbn; try done; [by rewrite Hblob|]. by eapply answer_blob.
  - split; [by apply Hos|]. split; [|done]. cbn in Hpr'.
    eapply shows_error; [exact Hval|exact Hko|..|exact Hv|exact Hidx|exact Hrr]; unfold Valid, status; cbn; rewrite Hpr'; [by rewrite andb_false_r|done].
Qed.

Lemma move_spec m s it :
  held env cache_id sizes q cf t s -> on_snapshot it -> (steps_back_or_on m = true -> Valid it = true) ->
  exists it' s', move env cache_id others_caches m s it = Some (it', s') /\
    held env cache_id sizes q cf t s' /\ on_snapshot it' /\ shows t it' /\
    iter_ it' = inner_move m (iter_ it) /\ key_only it' = key_only it.
Proof.
  intros Hs Hit Hm. unfold move.
  assert (match m with Next | Prev => assert (Valid it) | _ => Some tt end = Some tt) as -> by (destruct m; cbn in Hm |- *; rewrite ?Hm by done; done).
  cbn [mbind option_bind]. set (it1 := set_iter it (inner_move m (iter_ it))).
  assert (on_snapshot it1) as Hit1.
  { destruct Hit as [H1 H2 H3]. split; [done| |done]. apply over_move; [done|]. intros Hb. specialize (Hm Hb).
    unfold Valid in Hm. by apply andb_true_iff in Hm as [? _]. }
  unfold ShouldGetBlobValue. destruct (negb (inner_Valid (iter_ it1)) || negb (inner_IsBlob (iter_ it1)) || key_only it1) eqn:E.
  2:{ apply orb_false_iff in E as [[E1%negb_false_iff E2%negb_false_iff]%orb_false_iff E3].
      destruct (GetBlobValue_spec s it1 Hs Hit1 E1 E2 E3) as (it' & s' & Hg & H1 & H2 & H3 & H4 & H5).
      exists it', s'. by split_and!. }
  exists (set_status it1 (inner_status (iter_ it1))), s. split; [done|]. split; [done|]. split; [by destruct Hit1|]. split; [|done].
  destruct (inner_Valid (iter_ it1)) eqn:Ev.
  - destruct (valid_entry t _ (os_inner _ Hit1) Ev) as [Hst Hv].
    destruct (key_only it1) eqn:Ek.
    + eapply shows_key; unfold Valid, status, key, Valid; cbn; cbn in Ev, Hst; rewrite ?Ev, ?Hst; cbn; done.
    + cbn in E. rewrite orb_false_r in E. apply negb_true_iff in E.
      eapply shows_value; unfold Valid, status, key, value, Valid; cbn; cbn in Ev, Hst, E, Ek, Hv; rewrite ?Ev, ?Hst, ?Ek; cbn; try done.
      rewrite E. rewrite E in Hv. cbn. exact (answer_inline _ _ _ _ OK _ _ eq_refl Hv eq_refl).
  - apply shows_end; unfold Valid, status; cbn; cbn in Ev; rewrite ?Ev; [done..|]. by destruct (inner_status _).
Qed.

Lemma run_spec ms : forall s it,
  held env cache_id sizes q cf t s -> on_snapshot it -> shows t it ->
  (exists it' s', run env cache_id others_caches ms s it = Some (it', s') /\ held env cache_id sizes q cf t s' /\
     shows t it' /\ iter_ it' = foldl (fun i m => inner_move m i) (iter_ it) ms) \/
  (exists pre m post it' s', ms = pre ++ m :: post /\ run env cache_id others_caches pre s it = Some (it', s') /\
     shows t it' /\ Valid it' = false /\ steps_back_or_on m = true).
Proof.
  induction ms as [|m ms IH]; intros s it Hs Hit Hsh; [left; by exists it, s|].
  destruct (steps_back_or_on m && negb (Valid it)) eqn:E.
  { apply andb_true_iff in E as [E1 E2%negb_true_iff]. right. by exists [], m, ms, it, s. }
  destruct (move_spec m s it Hs Hit) as (it1 & s1 & Hmv & Hs1 & Hit1 & Hsh1 & Hin & _).
  { intros Hb. rewrite Hb in E. by apply negb_false_iff in E. }
  cbn [run foldl]. rewrite Hmv. cbn [mbind option_bind]. rewrite <- Hin.
  destruct (IH s1 it1 Hs1 Hit1 Hsh1) as [(it' & s' & H)|(pre & m' & post & it' & s' & -> & Hr & H)]; [left; by exists it', s'|].
  right. exists (m :: pre), m', post, it', s'. split; [done|]. cbn [run]. by rewrite Hmv.
Qed.

Lemma NewIteratorImpl_spec s ko :
  held env cache_id sizes q cf t s ->
  exists it s', NewIteratorImpl env t s ko cf = Some (Some it, s') /\ held env cache_id sizes q cf t s' /\
    on_snapshot it /\ shows t it /\ iter_ it = NewInner t /\ key_only it = ko.
Proof.
  intros [Hm Hg Hbl Hc]. unfold NewIteratorImpl, Lock. rewrite Hm. cbn [mbind option_bind blob_file_set_].
  pose proof (others_guarded _ _ _ _ _ _ _ Ht (rs_db s) Hg) as Hg'. destruct (guarded_storage _ _ _ _ _ Hg') as (b & -> & _).
  eexists _, _. split; [reflexivity|]. split; [by split|]. split; [split; [done|constructor|by intros n p Hp]|].
  split; [|done]. apply shows_end; unfold Valid, status; cbn; by rewrite ?new_invalid.
Qed.
End Proofs.

(** ** Properties *)

(** C6: An iterator that is created on a snapshot follows the iterator of the
    base database through any sequence of moves, whatever the other threads do
    between them: wherever that one stands on an entry, it shows the key and the
    inline value, or the value of the record that the index stands for; it is
    not valid and has an error status when that record can not be read, and not
    valid with the status of the base when that one is not valid. No assertion
    fails until [Next] or [Prev] is called when it is not valid. *)
Theorem iterator_exact q cf snapshot s ko moves :
  let '(t, s1) := with_snapshot env snapshot s in
  holding env cache_id others_caches sizes q cf t -> held env cache_id sizes q cf t s1 ->
  exists it s2, NewIterator env snapshot s ko cf = Some (Some it, s2) /\
    ((exists it' s', run env cache_id others_caches moves s2 it = Some (it', s') /\ held env cache_id sizes q cf t s' /\
        shows t it' /\ iter_ it' = foldl (fun i m => inner_move m i) (NewInner t) moves) \/
     (exists pre m post it' s', moves = pre ++ m :: post /\ run env cache_id others_caches pre s2 it = Some (it', s') /\
        shows t it' /\ Valid it' = false /\ steps_back_or_on m = true)).
Proof.
  destruct (with_snapshot env snapshot s) as [t s1] eqn:Es. intros Ht Hs. unfold NewIterator. rewrite Es.
  destruct (NewIteratorImpl_spec q cf t Ht s1 ko Hs) as (it & s2 & Hn & Hs2 & Hit & Hsh & Hin & _).
  exists it, s2. split; [done|]. rewrite <- Hin. by eapply run_spec.
Qed.
End Spec.
