(* ===== verification/CompactionFilter.v ===== *)
(** * CompactionFilter: the user's compaction filter on blob values

    [compaction_filter.h]: [TitanCompactionFilter] hands the value behind a blob
    index to the filter that the user has set. [None] is a failed assertion, a
    read outside the memory of a buffer, or a mutex that its holder locks again.
    Log messages are not modelled. *)
From S2P Require Import Prelude Coding Crc32c BitMap BlobFileMeta Options BlobStorage BlobFileSet GCPicker BlobFileBuilder BlobFileReader BlobFileIterator BlobStorageRead GCJob DBRead BlobFormat.

Local Open Scope Z_scope.
Local Open Scope aegon_scope.

(** [CompactionFilter::Decision]. *)
Inductive Decision : Type :=
  | kKeep
  | kRemove
  | kChangeValue
  | kRemoveAndSkipUntil
  | kChangeBlobIndex
  | kIOError
  | kUndetermined.

#[export] Instance Decision_eq_dec : EqDecision Decision.
Proof. solve_decision. Defined.

(** [CompactionFilter::ValueType]. *)
Inductive ValueType : Type :=
  | kValue
  | kMergeOperand
  | kBlobIndex.

#[export] Instance ValueType_eq_dec : EqDecision ValueType.
Proof. solve_decision. Defined.

(** The strings that a filter can set. *)
Record Outputs : Type := mkOutputs {
  new_value : bytes;
  skip_until : bytes }.

(** [FilterV3] of a filter: level, key, sequence number, type, value. *)
Definition Filter : Type := Z -> bytes -> Z -> ValueType -> bytes -> Outputs -> Decision * Outputs.

(** [Slice(const char* s)]: the bytes before the first zero. *)
Fixpoint c_string (memory : bytes) : option bytes :=
  match memory with
  | [] => None
  | b :: memory => if b =? 0 then Some [] else s ← c_string memory; Some (b :: s)
  end.

Section CompactionFilter.
Context (env : Surroundings) `{C : Comparator} `{L : FileLibrary} (cache_id : option Z).
Context (others_caches : nat -> Caches -> Caches).

Record TitanCompactionFilter : Type := mkFilter {
  filter_cf : Z;
  blob_storage_ : BlobStorage;
  original_filter_ : Filter;
  skip_value_ : bool }.

(** [SetBGError] under the mutex. *)
Definition set_bg_error (s : Reading) (st : Status) : option Reading :=
  w ← Lock env (rs_db s);
  Some (mkReading (Unlock (SetBGError w st)) (rs_caches s)).

(** [blob_storage_->Get]; the storage is as the other threads have left it. *)
Definition storage_Get (f : TitanCompactionFilter) (s : Reading) (blob_index : BlobIndex)
    : option (res BlobRecord * Reading) :=
  let w := others env (rs_db s) in
  let storage := default (blob_storage_ f) (GetBlobStorage (blob_file_set_ w) (filter_cf f)) in
  '(r, c) ← BlobStorage_Get (NewBlobFileReader env) cache_id storage (others_caches (clock w) (rs_caches s)) blob_index;
  Some (record <-? r ;; Ret record.1, mkReading w c).

(** [after]: the memory behind the bytes of [value]. *)
Definition FilterV3 (f : TitanCompactionFilter) (s : Reading) (level : Z) (k : bytes) (seqno : Z)
    (value_type : ValueType) (value after : bytes) (out : Outputs) : option (Decision * Outputs * Reading) :=
  if skip_value_ f then Some (original_filter_ f level k seqno value_type [] out, s) else
  if negb (bool_decide (value_type = kBlobIndex)) then Some (original_filter_ f level k seqno value_type value out, s) else
  original_value ← c_string (value ++ after);
  match BlobIndex_DecodeFrom BlobIndex_default original_value with
  | Fail st => s ← set_bg_error s st; Some (kKeep, out, s)
  | Ret (blob_index, _) =>
      '(r, s) ← storage_Get f s blob_index;
      match r with
      | Fail Corruption => Some (kKeep, out, s)
      | Ret record =>
          let '(decision, out) := original_filter_ f level k seqno kValue (BlobFormat.value record) out in
          if bool_decide (decision = kChangeValue) then
            s ← set_bg_error s NotSupported; Some (kKeep, out, s)
          else Some (decision, out, s)
      | Fail st => s ← set_bg_error s st; Some (kKeep, out, s)
      end
  end.

(** [CreateCompactionFilter]: [made] is what the user's factory gives, when there
    is one; [None] inside is the null pointer. *)
Definition CreateCompactionFilter (s : Reading) (original_filter : option Filter) (original_filter_factory : option (option Filter))
    (skip_value : bool) (column_family_id : Z) : option (option TitanCompactionFilter * Reading) :=
  _ ← assert (bool_decide (is_Some original_filter) || bool_decide (is_Some original_filter_factory));
  w ← Lock env (rs_db s);
  blob_storage ← GetBlobStorage (blob_file_set_ w) column_family_id;
  let original_filter :=
    match original_filter with
    | Some f => Some f
    | None => match original_filter_factory with Some made => made | None => None end
    end in
  Some (match original_filter with
        | None => None
        | Some f => Some (mkFilter column_family_id blob_storage f skip_value)
        end, mkReading (Unlock w) (rs_caches s)).
End CompactionFilter.
