(* ===== verification/CompactionFilterSpec.v ===== *)
(** * CompactionFilterSpec: what the user's compaction filter gets to see

    The filter decides on the value behind a blob index when the index has no
    byte zero and one follows it in memory; the index of the first record of a
    blob file has one, and leads to a background error instead. *)
From S2P Require Import Prelude Coding Crc32c BitMap BlobFileMeta TitanStats Options VersionEdit BlobStorage BlobStorageProofs EditCollector EditCollectorProofs BlobFileSet BlobFileSetProofs BlobFileSetSpec GCPicker BlobFileBuilder BlobFileReader BlobFileIterator BlobStorageRead GCJob GCJobProofs DBFiles DBFilesProofs DBRead DBReadSpec CompactionFilter BlobFormat.

Local Open Scope Z_scope.
Local Open Scope aegon_scope.

(** ** C strings *)

Abbreviation no_zero := (Forall (fun b : Z => b <> 0)) (only parsing).

Lemma c_string_app x y : no_zero x -> c_string (x ++ y) = s ← c_string y; Some (x ++ s).
Proof.
  induction 1 as [|b x Hb _ IH]; cbn [app c_string]; [by destruct (c_string y)|].
  rewrite (proj2 (Z.eqb_neq _ _) Hb), IH. by destruct (c_string y).
Qed.

Lemma no_zero_varint v : 0 < v < 2 ^ 64 -> no_zero (PutVarint64 v).
Proof.
  assert (forall n u, 0 < u < 2 ^ (7 * Z.of_nat n) -> no_zero (EncodeVarint64_loop n u)) as Hloop.
  { induction n as [|n IH]; intros u Hu; [constructor|]. cbn [EncodeVarint64_loop]. rewrite Z.geb_leb.
    destruct (Z.leb_spec 128 u) as [Hge|Hlt].
    - constructor.
      + intros Hz. apply Z.lor_eq_0_iff in Hz as [_ Hz]. discriminate Hz.
      + apply IH. rewrite Z.shiftr_div_pow2 by lia. split; [apply Z.div_str_pos; lia|]. apply Z.div_lt_upper_bound; [lia|].
        replace (7 * Z.of_nat (S n)) with (7 + 7 * Z.of_nat n) in Hu by lia. rewrite Z.pow_add_r in Hu by lia. lia.
    - constructor; [|constructor]. unfold u8. rewrite Z.mod_small by lia. lia. }
  intros Hv. apply Hloop. split; [lia|]. change (7 * Z.of_nat 10) with 70.
  pose proof (Z.pow_lt_mono_r 2 64 70 ltac:(lia) ltac:(lia) ltac:(lia)). lia.
Qed.

(** A handle of a record after the first of its file. *)
Record handle_positive (h : BlobHandle) : Prop := {
  hp_offset : 0 < offset h < 2 ^ 64;
  hp_size : 0 < BlobFormat.size h < 2 ^ 64;
  hp_index : 0 < index h < 2 ^ 64 }.

Lemma no_zero_index i :
  0 < file_number i < 2 ^ 64 -> handle_positive (blob_handle i) -> old_file_number i = 0 -> no_zero (BlobIndex_EncodeTo i).
Proof.
  intros Hn [Ho Hs Hi] Hold. unfold BlobIndex_EncodeTo, BlobHandle_EncodeTo. rewrite Hold. cbn [Z.ltb Z.compare].
  rewrite app_nil_r. constructor; [done|]. repeat apply Forall_app_2; by apply no_zero_varint.
Qed.

(** The index of the first record of a file: cut off before its last field. *)
Lemma c_string_first i after :
  0 < file_number i < 2 ^ 64 -> 0 < offset (blob_handle i) < 2 ^ 64 -> 0 < BlobFormat.size (blob_handle i) < 2 ^ 64 ->
  index (blob_handle i) = 0 ->
  exists x, c_string (BlobIndex_EncodeTo i ++ after) = Some x /\ BlobIndex_DecodeFrom BlobIndex_default x = Fail Corruption.
Proof.
  intros Hn Ho Hs Hi.
  set (x := [kBlobRecord] ++ PutVarint64 (file_number i) ++ PutVarint64 (offset (blob_handle i)) ++
    PutVarint64 (BlobFormat.size (blob_handle i)) ++ []).
  assert (exists rest, BlobIndex_EncodeTo i ++ after = x ++ 0 :: rest) as [rest Heq].
  { eexists. unfold x, BlobIndex_EncodeTo, BlobHandle_EncodeTo. rewrite Hi. change (PutVarint64 0) with [0].
    rewrite <- ?app_assoc. cbn [app]. rewrite <- ?app_assoc. cbn [app]. reflexivity. }
  exists x. split.
  - rewrite Heq, c_string_app; [cbn; by rewrite app_nil_r|].
    constructor; [done|]. repeat apply Forall_app_2; try constructor; by apply no_zero_varint.
  - unfold x, BlobIndex_DecodeFrom, BlobHandle_DecodeFrom. cbn [app or_fail GetChar res_bind].
    rewrite GetVarint64_Put by (unfold is_u64; lia). cbn [or_fail res_bind negb Z.eqb kBlobRecord Pos.eqb].
    rewrite GetVarint64_Put by (unfold is_u64; lia). cbn [or_fail res_bind].
    rewrite GetVarint64_Put by (unfold is_u64; lia). done.
Qed.

(** ** The filter *)

Section Spec.
Context (env : Surroundings) `{C : Comparator} `{LC : !ComparatorLaws C} `{L : FileLibrary} (cache_id : option Z).
Context (others_caches : nat -> Caches -> Caches) (sizes : Z -> Z).

Lemma set_bg_error_spec s st :
  mutex_held (rs_db s) = false -> ok st = false ->
  exists s', set_bg_error env s st = Some s' /\ bg_error_ (rs_db s') = st /\ mutex_held (rs_db s') = false /\
    rs_caches s' = rs_caches s /\ blob_file_set_ (rs_db s') = blob_file_set_ (others env (rs_db s)).
Proof.
  intros Hm Hst. unfold set_bg_error, Lock. rewrite Hm. cbn [mbind option_bind]. eexists. split; [reflexivity|].
  cbn [rs_db rs_caches]. unfold SetBGError. by rewrite Hst.
Qed.

(** What the user's filter decides, as far as it is respected. *)
Definition respected (d : Decision) : Decision := if bool_decide (d = kChangeValue) then kKeep else d.

(** The storage that the filter reads from: as the other threads have left it. *)
Definition storage_now (f : TitanCompactionFilter) (s : Reading) : BlobStorage :=
  default (blob_storage_ f) (GetBlobStorage (blob_file_set_ (others env (rs_db s))) (filter_cf f)).

(** Why a record is not read: its file has left the storage, which looks like a
    corruption; the file cannot be opened; or the record in it is bad. *)
Inductive fails_as (b : BlobStorage) (i : BlobIndex) : Status -> Prop :=
  | fails_gone : files_ b !! file_number i = None -> fails_as b i Corruption
  | fails_to_open e : is_Some (files_ b !! file_number i) -> NewBlobFileReader env (file_number i) = Fail e -> fails_as b i e
  | fails_header file e :
      is_Some (files_ b !! file_number i) -> NewBlobFileReader env (file_number i) = Ret file ->
      BlobFileReader_Open cache_id file (sizes (file_number i)) = Some (Fail e) -> fails_as b i e
  | fails_record rd e :
      is_Some (files_ b !! file_number i) -> opens (NewBlobFileReader env) cache_id sizes (file_number i) rd ->
      ReadRecord rd (blob_handle i) = Some (Fail e) -> fails_as b i e.

(** The conditions of a read: the mutex is free, no blob cache is used, the cached
    readers are readers of their files, also after what other threads do, and the
    storage has its files under their numbers and with their sizes. *)
Record may_read (f : TitanCompactionFilter) (s : Reading) (i : BlobIndex) : Prop := {
  mr_free : mutex_held (rs_db s) = false;
  mr_blobs : (rs_caches s).2 = None;
  mr_cached : files_cached (NewBlobFileReader env) cache_id sizes (rs_caches s).1;
  mr_others : forall n fc, files_cached (NewBlobFileReader env) cache_id sizes fc ->
    exists fc', others_caches n (fc, None) = (fc', None) /\ files_cached (NewBlobFileReader env) cache_id sizes fc';
  mr_sized : storage_sized sizes (storage_now f s);
  mr_open : openable (NewBlobFileReader env) cache_id sizes;
  mr_index : is_u64 (file_number i) /\ readable (NewBlobFileReader env) cache_id sizes i }.

Lemma BlobStorage_Get_fails b fc i e c' :
  is_u64 (file_number i) -> storage_sized sizes b -> files_cached (NewBlobFileReader env) cache_id sizes fc ->
  BlobStorage_Get (NewBlobFileReader env) cache_id b (fc, None) i = Some (Fail e, c') -> fails_as b i e.
Proof.
  intros Hu Hb Hc. unfold BlobStorage_Get. destruct (Hb (file_number i)) as [-> Hm]. cbn [mbind option_bind fst snd].
  destruct (files_ b !! file_number i) as [m|] eqn:Em; [|intros [= <- _]; by apply fails_gone].
  assert (is_Some (files_ b !! file_number i)) as Hsome by (rewrite Em; by exists m).
  destruct (Hm m eq_refl) as [-> ->]. unfold BlobFileCache_Get, BlobFileCache_FindFile.
  assert (forall rd c, opens (NewBlobFileReader env) cache_id sizes (file_number i) rd ->
    ('(r, fc0, blobs) ← ('(r, blobs) ← BlobFileReader_Get rd None (blob_handle i); Some (r, c, blobs)); Some (r, (fc0, blobs))) = Some (Fail e, c') ->
    fails_as b i e) as Hrd.
  { intros rd c Ho. rewrite BlobFileReader_Get_plain. destruct (ReadRecord rd (blob_handle i)) as [r|] eqn:Er; [|done].
    intros [= -> _]. by eapply fails_record. }
  destruct (fc !! EncodeFileNumber (file_number i)) as [rd|] eqn:Ec.
  { cbn [mbind option_bind]. apply Hrd. by apply Hc. }
  destruct (NewBlobFileReader env (file_number i)) as [file|e1] eqn:Ef; cbn [or_bind mbind option_bind].
  2:{ intros [= -> _]. by apply fails_to_open. }
  destruct (BlobFileReader_Open cache_id file (sizes (file_number i))) as [[rd|e1]|] eqn:Eo; cbn [mbind option_bind]; [| |done].
  - apply Hrd. by exists file.
  - intros [= -> _]. by eapply fails_header.
Qed.

Lemma storage_Get_spec f s i :
  may_read f s i ->
  exists r s', storage_Get env cache_id others_caches f s i = Some (r, s') /\
    rs_db s' = others env (rs_db s) /\ (rs_caches s').2 = None /\ files_cached (NewBlobFileReader env) cache_id sizes (rs_caches s').1 /\
    match r with
    | Ret rec => is_Some (files_ (storage_now f s) !! file_number i) /\ reads_as (NewBlobFileReader env) cache_id sizes i rec
    | Fail e => fails_as (storage_now f s) i e
    end.
Proof.
  intros [Hm Hbl Hc Hoc Hsz Hop [Hu Hrd]]. unfold storage_Get. fold (storage_now f s).
  destruct (rs_caches s) as [fc bl]. cbn in Hbl, Hc. subst bl.
  destruct (Hoc (clock (others env (rs_db s))) fc Hc) as (fc1 & -> & Hfc1).
  destruct (BlobStorage_Get_spec (NewBlobFileReader env) cache_id sizes (storage_now f s) fc1 i Hu Hop Hrd Hsz Hfc1)
    as (r & fc2 & Hg & Hfc2 & Hr). rewrite Hg. cbn [mbind option_bind].
  eexists _, _. split; [reflexivity|]. split_and!; [done|done|done|].
  destruct r as [[rec buf]|e]; cbn [res_bind fst]; [done|]. exact (BlobStorage_Get_fails _ _ _ _ _ Hu Hsz Hfc1 Hg).
Qed.

(** C36: The index of the first record of any blob file, which the builder gives
    the index 0, makes the compaction filter stop the database: the filter keeps
    the entry without asking the user's filter, whatever that is and whatever
    follows in memory, and sets a background error, after which every call that
    changes the database is refused with Corruption. *)
Theorem filter_refuses_first_record f s level k seqno i after out :
  skip_value_ f = false -> mutex_held (rs_db s) = false ->
  0 < file_number i < 2 ^ 64 -> 0 < offset (blob_handle i) < 2 ^ 64 -> 0 < BlobFormat.size (blob_handle i) < 2 ^ 64 ->
  index (blob_handle i) = 0 ->
  exists s', FilterV3 env cache_id others_caches f s level k seqno kBlobIndex (BlobIndex_EncodeTo i) after out = Some (kKeep, out, s') /\
    HasBGError (rs_db s') = true /\
    forall call, exists w, unless_bg_error env (rs_db s') call = Some (Corruption, w).
Proof.
  intros Hskip Hm Hn Ho Hs Hi. unfold FilterV3. rewrite Hskip. cbn [negb bool_decide decide_rel].
  destruct (c_string_first i after Hn Ho Hs Hi) as (x & Hx & Hd). rewrite bool_decide_eq_true_2 by done. cbn [negb].
  rewrite Hx. cbn [mbind option_bind]. rewrite Hd.
  destruct (set_bg_error_spec s Corruption Hm eq_refl) as (s' & -> & Hbg & Hm' & _). cbn [mbind option_bind].
  exists s'. split; [done|]. unfold HasBGError. rewrite Hbg. split; [done|]. intros call.
  unfold unless_bg_error, HasBGError, GetBGError, Lock. rewrite Hbg, Hm'. cbn [ok negb mbind option_bind].
  eexists. f_equal. f_equal. unfold others. by destruct (others_files env _ _).
Qed.

(** C37: On an index of a blob file whose bytes hold no zero, linked to an older
    record or not, when a byte zero follows it in memory, the filter reads the
    record from the storage as it is at that time, whatever other threads have
    done. If the record can be read, the user's filter decides on its value: its
    decision stands and the database is left as the other threads have it, except
    that a changed value is refused with a background error and the entry kept.
    If it can not be read, the entry is kept without asking the filter; a
    corruption, as which a collected file that has left the storage counts, leaves
    the database alone, and any other failure becomes the background error. Inline
    values and merge operands go to the filter as they are, and with
    [skip_value_] an empty value does, without a read. The conditions are those of
    [may_read]: among them, no blob cache is used, and the file can be opened and
    the record read without a failing assertion. *)
Theorem filter_exact f s level k seqno value_type value i rest after out :
  may_read f s i -> no_zero value -> BlobIndex_DecodeFrom BlobIndex_default value = Ret (i, rest) ->
  exists d out' s', FilterV3 env cache_id others_caches f s level k seqno value_type value (0 :: after) out = Some (d, out', s') /\
    mutex_held (rs_db s') = false /\
    if skip_value_ f then (d, out') = original_filter_ f level k seqno value_type [] out /\ s' = s
    else if bool_decide (value_type = kBlobIndex) then
      (exists r d0, is_Some (files_ (storage_now f s) !! file_number i) /\ reads_as (NewBlobFileReader env) cache_id sizes i r /\
         original_filter_ f level k seqno kValue (BlobFormat.value r) out = (d0, out') /\ d = respected d0 /\
         (d0 <> kChangeValue -> rs_db s' = others env (rs_db s)) /\
         (d0 = kChangeValue -> bg_error_ (rs_db s') = NotSupported)) \/
      (exists e, fails_as (storage_now f s) i e /\ d = kKeep /\ out' = out /\
         (e = Corruption -> rs_db s' = others env (rs_db s)) /\
         (e <> Corruption -> ok e = false -> bg_error_ (rs_db s') = e))
    else (d, out') = original_filter_ f level k seqno value_type value out /\ s' = s.
Proof.
  intros Hs Hz Hd. unfold FilterV3. pose proof (mr_free _ _ _ Hs) as Hm.
  assert (mutex_held (others env (rs_db s)) = false) as Hm1 by (unfold others; by destruct (others_files env _ _)).
  destruct (skip_value_ f); [destruct (original_filter_ f level k seqno value_type [] out) as [d o]; by exists d, o, s|].
  case_bool_decide as Hty; cbn [negb].
  2:{ destruct (original_filter_ f level k seqno value_type value out) as [d o]. by exists d, o, s. }
  rewrite c_string_app by done. cbn [c_string Z.eqb mbind option_bind]. rewrite app_nil_r, Hd.
  destruct (storage_Get_spec f s i Hs) as (r & s1 & -> & Hs1 & _ & _ & Hr). cbn [mbind option_bind]. rewrite <- Hs1 in Hm1.
  destruct r as [r|e].
  - destruct Hr as [Hin Hr].
    destruct (original_filter_ f level k seqno kValue (BlobFormat.value r) out) as [d0 o] eqn:Eo. unfold respected. case_bool_decide as Hc.
    + destruct (set_bg_error_spec s1 NotSupported Hm1 eq_refl) as (s2 & -> & Hb2 & Hm2 & _). exists kKeep, o, s2.
      split; [done|]. split; [done|]. left. exists r, d0. rewrite bool_decide_eq_true_2 by done. by split_and!.
    + exists d0, o, s1. split; [done|]. split; [done|]. left. exists r, d0. by rewrite bool_decide_eq_false_2.
  - destruct (decide (e = Corruption)) as [->|Hne].
    { exists kKeep, out, s1. split; [done|]. split; [done|]. right. exists Corruption. by split_and!. }
    assert (exists s2, set_bg_error env s1 e = Some s2 /\ mutex_held (rs_db s2) = false /\ (ok e = false -> bg_error_ (rs_db s2) = e))
      as (s2 & He2 & Hm2 & Hb2).
    { unfold set_bg_error, Lock. rewrite Hm1. cbn [mbind option_bind]. eexists. split; [reflexivity|]. unfold SetBGError.
      by destruct (ok e). }
    exists kKeep, out, s2. rewrite He2. split; [by destruct e|]. split; [done|]. right. exists e. by split_and!.
Qed.
End Spec.
