(* ===== verification/TableBuilder.v ===== *)
(** * TableBuilder: separating values from an SST file while it is written

    [table_builder.h], [table_builder.cc] and [table_factory.cc]: flushes and
    compactions add the entries of a new SST file in order; large values go to a
    blob file and their entries become blob indexes, small ones pass through. A
    compaction may also move values from old blob files to a new one, or, in
    fallback mode, back into the SST file.

    RocksDB's builder of the SST file is the list of entries it was given, and a
    function that says which status it reports. [None] is a failed assertion or
    a null pointer. Clocks, tickers, I/O statistics, internal operation
    statistics and log messages are not modelled. *)
From S2P Require Import Prelude Coding Crc32c InternalKey BitMap BlobFileMeta TitanStats Options VersionEdit BlobStorage BlobFileSet BlobFileBuilder BlobFileReader BlobStorageRead GCJob BlobFormat.

Local Open Scope Z_scope.
Local Open Scope aegon_scope.

(** RocksDB's [TableBuilder]. *)
Inductive BaseState : Type := base_open | base_finished | base_abandoned.

Record BaseBuilder : Type := mkBase {
  base_entries : list (bytes * bytes);
  base_state : BaseState }.

Definition base_add (b : BaseBuilder) (k v : bytes) : BaseBuilder :=
  mkBase (base_entries b ++ [(k, v)]) (base_state b).

(** A finished blob file: its metadata, and its handle. *)
Definition FinishedBlob : Type := BlobFileMeta * (Z * WritableFileWriter).

(** [blob_handle_] is its number; the file it owns is the one of the builder. *)
Record TitanTableBuilder : Type := mkTable {
  tb_status_ : Status;
  base_builder_ : BaseBuilder;
  blob_handle_ : option Z;
  blob_builder_ : option BlobFileBuilder;
  finished_blobs_ : list FinishedBlob;
  input_file_prefetchers_ : gmap Z (BlobFileReader * BlobFilePrefetcher);
  tb_gc_num_keys_relocated_ : Z;
  tb_gc_bytes_relocated_ : Z;
  error_read_cnt_ : Z }.

Definition TitanTableBuilder_new : TitanTableBuilder := mkTable OK (mkBase [] base_open) None None [] ∅ 0 0 0.

(** The assignments of the operations below. *)
Definition set_tb_status (b : TitanTableBuilder) (s : Status) : TitanTableBuilder :=
  mkTable s (base_builder_ b) (blob_handle_ b) (blob_builder_ b) (finished_blobs_ b) (input_file_prefetchers_ b)
    (tb_gc_num_keys_relocated_ b) (tb_gc_bytes_relocated_ b) (error_read_cnt_ b).

Definition set_base (b : TitanTableBuilder) (base : BaseBuilder) : TitanTableBuilder :=
  mkTable (tb_status_ b) base (blob_handle_ b) (blob_builder_ b) (finished_blobs_ b) (input_file_prefetchers_ b)
    (tb_gc_num_keys_relocated_ b) (tb_gc_bytes_relocated_ b) (error_read_cnt_ b).

Definition set_blob (b : TitanTableBuilder) (handle : option Z) (builder : option BlobFileBuilder) : TitanTableBuilder :=
  mkTable (tb_status_ b) (base_builder_ b) handle builder (finished_blobs_ b) (input_file_prefetchers_ b)
    (tb_gc_num_keys_relocated_ b) (tb_gc_bytes_relocated_ b) (error_read_cnt_ b).

Definition set_finished (b : TitanTableBuilder) (l : list FinishedBlob) : TitanTableBuilder :=
  mkTable (tb_status_ b) (base_builder_ b) (blob_handle_ b) (blob_builder_ b) l (input_file_prefetchers_ b)
    (tb_gc_num_keys_relocated_ b) (tb_gc_bytes_relocated_ b) (error_read_cnt_ b).

Definition set_prefetchers (b : TitanTableBuilder) (m : gmap Z (BlobFileReader * BlobFilePrefetcher)) : TitanTableBuilder :=
  mkTable (tb_status_ b) (base_builder_ b) (blob_handle_ b) (blob_builder_ b) (finished_blobs_ b) m
    (tb_gc_num_keys_relocated_ b) (tb_gc_bytes_relocated_ b) (error_read_cnt_ b).

Definition set_tb_counts (b : TitanTableBuilder) (keys size errors : Z) : TitanTableBuilder :=
  mkTable (tb_status_ b) (base_builder_ b) (blob_handle_ b) (blob_builder_ b) (finished_blobs_ b) (input_file_prefetchers_ b)
    keys size errors.

(** The table builder with the database and the caches around it. *)
Record Building : Type := mkBuilding {
  table : TitanTableBuilder;
  db : World;
  caches : Caches }.

Definition set_table (s : Building) (b : TitanTableBuilder) : Building := mkBuilding b (db s) (caches s).
Definition set_db (s : Building) (w : World) : Building := mkBuilding (table s) w (caches s).

Definition builder_unbuffered (b : TitanTableBuilder) : bool :=
  match blob_builder_ b with
  | None => true
  | Some builder => bool_decide (builder_state_ builder = kUnbuffered)
  end.

Definition NewCachedRecordContext (ikey : ParsedInternalKey) (value : bytes) : option BlobRecordContext :=
  k ← AppendInternalKey ikey;
  Some (mkCtx k BlobIndex_default BlobIndex_default true value).

(** [parsedKey] was parsed from [key]. *)
Definition AddBase (b : TitanTableBuilder) (key : bytes) (parsedKey : ParsedInternalKey) (value : bytes)
    : option TitanTableBuilder :=
  match blob_builder_ b with
  | Some builder =>
      if builder_unbuffered b then Some (set_base b (base_add (base_builder_ b) key value)) else
      ctx ← NewCachedRecordContext parsedKey value;
      Some (set_blob b (blob_handle_ b) (Some (AddSmall builder ctx)))
  | None => Some (set_base b (base_add (base_builder_ b) key value))
  end.

(** The loop over the contexts. *)
Fixpoint AddBlobResultsToBase (b : TitanTableBuilder) (contexts : OutContexts) : option TitanTableBuilder :=
  match contexts with
  | [] => Some b
  | ctx :: contexts =>
      r ← ParseInternalKey (ctx_key ctx);
      match r with
      | Fail s => Some (set_tb_status b s)
      | Ret ikey =>
          let b := set_tb_status b OK in
          b ← (if has_value ctx then Some (set_base b (base_add (base_builder_ b) (ctx_key ctx) (ctx_value ctx)))
               else
                 let index_value := BlobIndex_EncodeTo (new_blob_index ctx) in
                 index_key ← AppendInternalKey (set_type ikey kTypeBlobIndex);
                 Some (set_base b (base_add (base_builder_ b) index_key index_value)));
          AddBlobResultsToBase b contexts
      end
  end.

Section Table.
Context `{C : Comparator} `{L : FileLibrary}.
Context (env : Surroundings) (t : Z) (copts : CompressionOptions).
(** [base_builder_->status()], and the [NewId] of the blob cache. *)
Context (base_status : BaseBuilder -> Status) (cache_id : option Z).
(** The constructor's arguments. *)
Context (cf_id_ : Z) (cf_options_ : TitanCFOptions) (merge_level_ target_level_ : Z).

Definition status (b : TitanTableBuilder) : Status :=
  let s := tb_status_ b in
  let s := if ok s then base_status (base_builder_ b) else s in
  match blob_builder_ b with
  | Some builder => if ok s then BlobFileBuilder.status_ builder else s
  | None => s
  end.

Definition FinishBlobFile (s : Building) : option Building :=
  match blob_builder_ (table s) with
  | None => Some s
  | Some builder =>
      '(st, builder, contexts) ← BlobFileBuilder.Finish t copts builder [];
      b ← AddBlobResultsToBase (set_blob (table s) (blob_handle_ (table s)) (Some builder)) contexts;
      number ← blob_handle_ b;
      if ok st && ok (status b) then
        let file := BlobFileMeta_new number (GetFileSize (file_ builder)) (BlobFileBuilder.NumEntries builder)
                      (u32 target_level_) (BlobFileBuilder.smallest_key_ builder)
                      (BlobFileBuilder.largest_key_ builder) in
        file ← transit file kFlushOrCompactionOutput;
        let b := set_finished b (finished_blobs_ b ++ [(file, (number, file_ builder))]) in
        let b := if negb (tb_gc_num_keys_relocated_ b =? 0) then set_tb_counts b 0 0 (error_read_cnt_ b) else b in
        Some (set_table s (set_blob b None None))
      else
        '(st, w) ← BatchDeleteFiles env (db s) [number];
        Some (mkBuilding (set_blob (set_tb_status b st) None (Some builder)) w (caches s))
  end.

(** [blob_builder_], or a new one for a new file; whether there is one. *)
Definition ensure_blob_builder (s : Building) : option (bool * Building) :=
  match blob_builder_ (table s) with
  | Some _ => Some (true, s)
  | None =>
      '(st, handle, w) ← NewFile env (db s);
      let s := mkBuilding (set_tb_status (table s) st) w (caches s) in
      if negb (ok (status (table s))) then Some (false, s) else
      '(number, file) ← handle;
      builder ← BlobFileBuilder_new copts file kVersion2;
      Some (true, set_table s (set_blob (table s) (Some number) (Some builder)))
  end.

Definition add_live_blob_size (w : World) (v : Z) : World :=
  set_files_of w (set_column_families (blob_file_set_ w) (column_families_ (blob_file_set_ w))
                    (AddStats (fs_stats_ (blob_file_set_ w)) cf_id_ LIVE_BLOB_SIZE v)) (disk w).

Definition AddBlob (s : Building) (ikey : ParsedInternalKey) (value : bytes) : option Building :=
  if negb (ok (status (table s))) then Some s else
  let record := {| key := user_key ikey; value := value |} in
  '(opened, s) ← ensure_blob_builder s;
  if negb opened then Some s else
  let s := set_db s (add_live_blob_size (db s) (zlen value)) in
  builder ← blob_builder_ (table s);
  k ← AppendInternalKey ikey;
  number ← blob_handle_ (table s);
  let ctx := mkCtx k BlobIndex_default
               {| file_number := number; blob_handle := BlobHandle_default;
                  old_file_number := 0; old_blob_handle := BlobHandle_default |} false [] in
  '(builder, contexts) ← BlobFileBuilder.Add t copts builder record ctx [];
  let s := set_table s (set_blob (table s) (blob_handle_ (table s)) (Some builder)) in
  s ← (if blob_file_target_size cf_options_ <=? GetFileSize (file_ builder) then FinishBlobFile s else Some s);
  b ← AddBlobResultsToBase (table s) contexts;
  Some (set_table s b).

(** The storage may have changed since the last look at it. *)
Definition lock_storage (s : Building) : option (BlobStorage * Building) :=
  let s := set_db s (others env (db s)) in
  storage ← GetBlobStorage (blob_file_set_ (db s)) cf_id_;
  Some (storage, s).

Definition GetBlobRecord (s : Building) (index : BlobIndex) : option (res BlobRecord * Building) :=
  let n := file_number index in
  '(r, s) ←
    match input_file_prefetchers_ (table s) !! n with
    | Some p => Some (Ret p, s)
    | None =>
        '(storage, s) ← lock_storage s;
        '(r, c) ← BlobStorage_NewPrefetcher (NewBlobFileReader env) cache_id storage (caches s) n;
        Some (r, mkBuilding (match r with
                             | Ret p => set_prefetchers (table s) (<[n := p]> (input_file_prefetchers_ (table s)))
                             | Fail _ => table s
                             end) (db s) c)
    end;
  match r with
  | Fail e => Some (Fail e, s)
  | Ret (reader, p) =>
      let '(p, got) := BlobFilePrefetcher_Get p reader (caches s).2 (blob_handle index) in
      '(r, blobs) ← got;
      Some (record <-? r ;; Ret record.1,
            mkBuilding (set_prefetchers (table s) (<[n := (reader, p)]> (input_file_prefetchers_ (table s))))
              (db s) ((caches s).1, blobs))
  end.

Definition ShouldMerge (file : option BlobFileMeta) : option bool :=
  _ ← assert (level_merge cf_options_);
  Some (match file with
        | Some file => (i32 (file_level_ file) <? target_level_) || bool_decide (state_ file = kToMerge)
        | None => false
        end).

(** The branch of [Add] that moves the value of an index to a new blob file. *)
Definition merge_index (s : Building) (key : bytes) (ikey : ParsedInternalKey) (value : bytes) (index : BlobIndex)
    : option Building :=
  '(storage, s) ← lock_storage s;
  blob_file ← FindFile storage (file_number index);
  merge ← ShouldMerge blob_file;
  '(returned, s) ←
    (if merge : bool then
       '(r, s) ← GetBlobRecord s index;
       let b := table s in
       match r with
       | Ret record =>
           s ← AddBlob (set_table s (set_tb_counts b (u64 (tb_gc_num_keys_relocated_ b + 1))
                          (u64 (tb_gc_bytes_relocated_ b + zlen (BlobFormat.value record))) (error_read_cnt_ b)))
                 ikey (BlobFormat.value record);
           Some (ok (status (table s)), s)
       | Fail _ =>
           Some (false, set_table s (set_tb_counts b (tb_gc_num_keys_relocated_ b) (tb_gc_bytes_relocated_ b)
                                       (u64 (error_read_cnt_ b + 1))))
       end
     else Some (false, s));
  if returned : bool then Some s else
  b ← AddBase (table s) key ikey value;
  Some (set_table s b).

(** The branch of [Add] that puts a value back into the SST file. *)
Definition ingest_index (s : Building) (key : bytes) (ikey : ParsedInternalKey) (value : bytes) (index : BlobIndex)
    : option Building :=
  '(r, s) ← GetBlobRecord s index;
  _ ← assert (bool_decide (blob_builder_ (table s) = None));
  match r with
  | Ret record =>
      index_key ← AppendInternalKey (set_type ikey kTypeValue);
      Some (set_table s (set_base (table s) (base_add (base_builder_ (table s)) index_key (BlobFormat.value record))))
  | Fail _ => Some (set_table s (set_base (table s) (base_add (base_builder_ (table s)) key value)))
  end.

Definition Add (s : Building) (key value : bytes) : option Building :=
  if negb (ok (status (table s))) then Some s else
  r ← ParseInternalKey key;
  match r with
  | Fail st => Some (set_table s (set_tb_status (table s) st))
  | Ret ikey =>
      let s := set_table s (set_tb_status (table s) OK) in
      let mode := blob_run_mode cf_options_ in
      let with_index k :=
        match BlobIndex_DecodeFrom BlobIndex_default value with
        | Fail st => Some (set_table s (set_tb_status (table s) st))
        | Ret (index, _) => k index
        end in
      if (type ikey =? kTypeBlobIndex) && bool_decide (mode = mode_kFallback) then
        with_index (ingest_index s key ikey value)
      else if (type ikey =? kTypeValue) && bool_decide (mode = mode_kNormal) then
        if zlen value <? min_blob_size cf_options_
        then b ← AddBase (table s) key ikey value; Some (set_table s b)
        else AddBlob s ikey value
      else if (type ikey =? kTypeBlobIndex) && level_merge cf_options_ && (merge_level_ <=? target_level_) &&
              bool_decide (mode = mode_kNormal) then
        with_index (merge_index s key ikey value)
      else b ← AddBase (table s) key ikey value; Some (set_table s b)
  end.

Definition Finish (s : Building) : option (Status * Building) :=
  s ← FinishBlobFile s;
  let b := table s in
  let b := set_base b (mkBase (base_entries (base_builder_ b)) base_finished) in
  '(st, w) ← BatchFinishFiles env (db s) cf_id_ (map fst (finished_blobs_ b));
  let b := set_tb_status b st in
  Some (status b, mkBuilding b w (caches s)).

Definition Abandon (s : Building) : option Building :=
  let b := table s in
  let b := set_base b (mkBase (base_entries (base_builder_ b)) base_abandoned) in
  match blob_builder_ b with
  | None => Some (set_table s b)
  | Some builder =>
      number ← blob_handle_ b;
      '(st, w) ← BatchDeleteFiles env (db s) [number];
      Some (mkBuilding (set_blob (set_tb_status b st) None (Some builder)) w (caches s))
  end.

Definition NumEntries (b : TitanTableBuilder) : Z :=
  match blob_builder_ b with
  | Some builder =>
      if builder_unbuffered b then zlen (base_entries (base_builder_ b))
      else u64 (BlobFileBuilder.NumEntries builder + NumSampleEntries builder)
  | None => zlen (base_entries (base_builder_ b))
  end.

(** A flush or a compaction adds the entries of a file and finishes it. *)
Definition add_all (s : Building) (entries : list (bytes * bytes)) : option Building :=
  fold_option (fun s e => Add s e.1 e.2) s entries.

Definition build_table (s : Building) (entries : list (bytes * bytes)) : option (Status * Building) :=
  s ← add_all s entries; Finish s.
End Table.

(** [TitanTableFactory::NewTableBuilder]: the merge level, and the options with
    the current mode; nothing when the database is not yet initialized and the
    base builder is used as it is. *)
Definition NewTableBuilder (initialized : bool) (cf_options : TitanCFOptions) (mode : TitanBlobRunMode)
    (level_at_creation : Z) : option (TitanCFOptions * Z * Z * TitanTableBuilder) :=
  if negb initialized then None else
  Some (set_blob_run_mode cf_options mode, 1, level_at_creation, TitanTableBuilder_new).
