(* ===== verification/TableBuilderProofs.v ===== *)
(** * TableBuilderProofs: the invariant of the table builder

    What the SST file and the blob files hold between two calls of [Add], and
    that every operation of the table builder keeps it. *)
From S2P Require Import Prelude Coding Crc32c InternalKey BitMap BlobFileMeta TitanStats Options VersionEdit BlobStorage BlobStorageProofs EditCollectorProofs BlobFileSet BlobFileSetProofs BlobFileBuilder BlobFileBuilderProofs BlobFileReader BlobFileReaderProofs BlobFileIteratorProofs BlobFileSpec BlobStorageRead GCJob GCJobRun GCJobProofs TableBuilder BlobFormat.

Local Open Scope Z_scope.
Local Open Scope aegon_scope.

(** ** Results of the blob file builder *)

(** The key of a blob index for this key. *)
Definition index_key (k : bytes) : bytes :=
  match ParseInternalKey k with
  | Some (Ret ik) => default [] (AppendInternalKey (set_type ik kTypeBlobIndex))
  | _ => []
  end.

(** What a context becomes in the SST file. *)
Definition entry_of (c : BlobRecordContext) : bytes * bytes :=
  if has_value c then (ctx_key c, ctx_value c) else (index_key (ctx_key c), BlobIndex_EncodeTo (new_blob_index c)).

Definition key_parses (k : bytes) : Prop := exists ik, ParseInternalKey k = Some (Ret ik) /\ key_wf ik.

Definition ctx_good (c : BlobRecordContext) : Prop := key_parses (ctx_key c).

Definition add_entries (b : TitanTableBuilder) (l : list (bytes * bytes)) : TitanTableBuilder :=
  set_base b (mkBase (base_entries (base_builder_ b) ++ l) (base_state (base_builder_ b))).

Lemma add_entries_nil b : add_entries b [] = b.
Proof. destruct b as [s [es st] ???????]. unfold add_entries, set_base. cbn. by rewrite app_nil_r. Qed.

Lemma index_key_wf k ik : ParseInternalKey k = Some (Ret ik) -> key_wf ik ->
  AppendInternalKey (set_type ik kTypeBlobIndex) = Some (index_key k).
Proof.
  intros Hp Hwf. unfold index_key. rewrite Hp.
  by rewrite (AppendInternalKey_wf (set_type ik kTypeBlobIndex)) by by apply set_type_wf.
Qed.

Lemma AddBlobResultsToBase_spec ctxs : forall b,
  tb_status_ b = OK -> Forall ctx_good ctxs -> AddBlobResultsToBase b ctxs = Some (add_entries b (map entry_of ctxs)).
Proof.
  induction ctxs as [|c ctxs IH]; intros b Hs Hg; [by rewrite add_entries_nil|].
  apply Forall_cons in Hg as [(ik & Hp & Hwf) Hg]. cbn [AddBlobResultsToBase map]. rewrite Hp. cbn [mbind option_bind].
  pose proof (index_key_wf _ _ Hp Hwf) as Hik.
  assert (set_tb_status b OK = b) as -> by (destruct b; cbn in *; by rewrite Hs).
  set (b' := set_base b (base_add (base_builder_ b) (entry_of c).1 (entry_of c).2)).
  transitivity (AddBlobResultsToBase b' ctxs).
  { unfold b', entry_of. destruct (has_value c); [done|]. by rewrite Hik. }
  rewrite IH by done. unfold b', add_entries, base_add, set_base. cbn. rewrite <- app_assoc. by destruct (entry_of c).
Qed.

Section Builder.
Context `{C : Comparator} `{LC : !ComparatorLaws C} `{L : FileLibrary} `{LL : !FileLibraryLaws L}.
Context (t : Z) (copts : CompressionOptions).

Definition op_good (o : Op) : Prop := ctx_good (op_ctx o).

Lemma assign_good ops : forall hs, Forall op_good ops -> Forall ctx_good (assign ops hs).
Proof.
  induction ops as [|[r c|c] ops IH]; intros [|h hs] Hg; cbn; try constructor; apply Forall_cons in Hg as [Ho Hg]; auto.
Qed.

Lemma building_good ver ops b out : building t copts ver ops b out -> Forall op_good ops -> Forall ctx_good out.
Proof. intros [|] Hg; [done|by apply assign_good]. Qed.

(** Adding a record when some entries have been handed out. *)
Lemma Add_step ver ops r c b out :
  ops_ok t (ops ++ [Put r c]) -> valid_version ver (has_dict copts) -> building t copts ver ops b out ->
  key_range (smallest_key_ b) (largest_key_ b) (records ops) ->
  exists b' out1, BlobFileBuilder.Add t copts b r c [] = Some (b', out1) /\
    building t copts ver (ops ++ [Put r c]) b' (out ++ out1) /\
    key_range (smallest_key_ b') (largest_key_ b') (records (ops ++ [Put r c])) /\
    (builder_state_ b' = kBuffered -> out1 = []).
Proof.
  intros Hok Hv Hb Hk. destruct (apply_op_spec t copts ver ops (Put r c) b out Hok Hv Hb Hk) as (b' & out' & Ha & Hb' & Hk').
  cbn [apply_op] in Ha. rewrite Add_prefix in Ha.
  destruct (BlobFileBuilder.Add t copts b r c []) as [[b1 out1]|]; [|done]. cbn in Ha. injection Ha as <- <-.
  exists b1, out1. split_and!; [done..|]. intros Hst.
  inversion Hb' as [len sm lg Hd Heq Ho|dict hs body sm lg Hd Hp Hl Heq Ho].
  - by symmetry in Ho; apply app_eq_nil in Ho as [_ ->].
  - subst b1. done.
Qed.

Lemma builder_Finish_status b out s b' out' : BlobFileBuilder.Finish t copts b out = Some (s, b', out') -> BlobFileBuilder.status_ b' = s.
Proof.
  unfold BlobFileBuilder.Finish. destruct (ok _) eqn:E; cbn [negb]; [|by intros [= <- <- <-]].
  destruct (if decide _ then _ else _) as [[b1 o1]|]; [|done]. cbn [mbind option_bind].
  destruct (if 0 <? _ then _ else _) as [[b2 h2]|]; [|done]. cbn [mbind option_bind].
  destruct (BlobFileFooter_EncodeTo h2); [|done]. cbn [mbind option_bind]. by intros [= <- <- <-].
Qed.

Lemma Finish_step ops b out :
  ops_ok t ops -> config_ok copts kVersion2 -> building t copts kVersion2 ops b out ->
  exists b' dict hs out1, BlobFileBuilder.Finish t copts b [] = Some (OK, b', out1) /\ assign ops hs = out ++ out1 /\
    (builder_state_ b = kUnbuffered -> out1 = []) /\
    finished t copts kVersion2 ops b' (assign ops hs) dict hs /\
    smallest_key_ b' = smallest_key_ b /\ largest_key_ b' = largest_key_ b.
Proof.
  intros Hok Hc Hb. destruct (Finish_spec t copts kVersion2 ops b out Hok Hc Hb) as (b' & dict & hs & Hf & Hfin & Hs & Hl).
  rewrite Finish_prefix in Hf. destruct (BlobFileBuilder.Finish t copts b []) as [[[s b1] out1]|] eqn:E; [|done].
  cbn in Hf. injection Hf as -> <- Ho. exists b1, dict, hs, out1. split_and!; try done. intros Hst.
  inversion Hb as [len sm lg Hd Heq Ho'|dict' hs' body sm lg Hd Hp Hlen Heq Ho'].
  { subst b. done. }
  assert (length (assign ops hs) = length out) as Hlo.
  { rewrite <- Ho'. pose proof (fin_handles _ _ _ _ _ _ _ _ Hfin) as Hh. clear -Hh Hlen.
    revert hs hs' Hh Hlen. induction ops as [|[r c|c] ops IH]; intros [|h hs] [|h' hs'] Hh Hlen; try done; cbn in *; f_equal.
    all: apply IH; cbn; lia. }
  rewrite <- Ho, length_app in Hlo. apply nil_length_inv. lia.
Qed.
End Builder.

(** ** What an entry becomes *)

Abbreviation TableEntry := (bytes * bytes)%type (only parsing).

Section Table.
Context `{C : Comparator} `{LC : !ComparatorLaws C} `{L : FileLibrary} `{LL : !FileLibraryLaws L}.
Context (env : Surroundings) (t : Z) (copts : CompressionOptions).
Context (base_status : BaseBuilder -> Status) (cache_id : option Z).
Context (cf : Z) (opts : TitanCFOptions) (merge_level target_level : Z).
(** The sizes of the blob files, and the number of levels. *)
Context (sizes : Z -> Z) (levels : Z).
(** The blob file set when the table is begun. *)
Context (set0 : BlobFileSet).

#[local] Abbreviation reads := (reads_as (NewBlobFileReader env) cache_id sizes).

(** The blob file sets that the table builder may see: only the other threads
    change the column families. *)
Inductive seen : BlobFileSet -> Prop :=
  | seen_start : seen set0
  | seen_others n s d : seen s -> seen (others_files env n (s, d)).1
  | seen_own s s' : seen s -> column_families_ s' = column_families_ s -> seen s'.

(** The metadata that the storage has of the file of an index, at some time. *)
Definition looked_up (i : BlobIndex) (file : option BlobFileMeta) : Prop :=
  exists s b, seen s /\ column_families_ s !! cf = Some b /\ files_ b !! file_number i = file.

(** The file is on an earlier level than the table, or was marked to be merged. *)
Definition to_be_merged (file : option BlobFileMeta) : Prop :=
  match file with
  | Some m => i32 (file_level_ m) < target_level \/ state_ m = kToMerge
  | None => False
  end.

(** The record of an index is not read: its file has left the storage, or it
    cannot be read from the file. *)
Definition unread (i : BlobIndex) : Prop := looked_up i None \/ forall r, ~ reads i r.

(** The value that goes from this entry to a new blob file: a large one, or the
    one a merged index leads to. *)
Inductive takes (ik : ParsedInternalKey) (x : bytes) : bytes -> Prop :=
  | takes_value :
      blob_run_mode opts = mode_kNormal -> type ik = kTypeValue -> min_blob_size opts <= zlen x -> takes ik x x
  | takes_merged i rest r :
      blob_run_mode opts = mode_kNormal -> type ik = kTypeBlobIndex -> level_merge opts = true ->
      merge_level <= target_level -> BlobIndex_DecodeFrom BlobIndex_default x = Ret (i, rest) ->
      (exists file, looked_up i file /\ to_be_merged file) -> reads i r ->
      takes ik x (value r).

(** The value that comes back to the SST file. *)
Inductive ingests (ik : ParsedInternalKey) (x : bytes) : bytes -> Prop :=
  | ingests_index i rest r :
      blob_run_mode opts = mode_kFallback -> type ik = kTypeBlobIndex ->
      BlobIndex_DecodeFrom BlobIndex_default x = Ret (i, rest) -> reads i r -> ingests ik x (value r).

(** A finished blob file, read at [h] by a reader that opens it. *)
Definition holds_record (file : WritableFileWriter) (size : Z) (h : BlobHandle) (r : BlobRecord) : Prop :=
  forall cid id, exists rd buffer,
    BlobFileReader_Open cid (stored (contents file) id) size = Some (Ret rd) /\
    ReadRecord rd h = Some (Ret (r, buffer)).

(** The entries that stay as they are: no large value in normal mode; in fallback
    mode only those indexes whose records are not read; and with level merge only
    those whose files are not to be merged, or whose records are not read. *)
Record stays (ik : ParsedInternalKey) (x : bytes) : Prop := {
  st_value : blob_run_mode opts = mode_kNormal -> type ik = kTypeValue -> zlen x < min_blob_size opts;
  st_fallback : blob_run_mode opts = mode_kFallback -> type ik = kTypeBlobIndex ->
    forall i rest, BlobIndex_DecodeFrom BlobIndex_default x = Ret (i, rest) -> unread i;
  st_merge : blob_run_mode opts = mode_kNormal -> level_merge opts = true -> merge_level <= target_level ->
    type ik = kTypeBlobIndex -> forall i rest, BlobIndex_DecodeFrom BlobIndex_default x = Ret (i, rest) ->
    unread i \/ exists file, looked_up i file /\ ~ to_be_merged file }.

(** An entry that was added, and the one in the SST file. *)
Inductive carried (fin : list FinishedBlob) (e : TableEntry) : TableEntry -> Prop :=
  | carried_same :
      (forall ik, ParseInternalKey e.1 = Some (Ret ik) -> stays ik e.2) -> carried fin e e
  | carried_blob ik v f n file h k :
      ParseInternalKey e.1 = Some (Ret ik) -> takes ik e.2 v ->
      AppendInternalKey (set_type ik kTypeBlobIndex) = Some k ->
      (f, (n, file)) ∈ fin -> file_number_ f = n ->
      holds_record file (file_size_ f) h {| key := user_key ik; value := v |} ->
      carried fin e (k, BlobIndex_EncodeTo (blob_index n h))
  | carried_inline ik v k :
      ParseInternalKey e.1 = Some (Ret ik) -> ingests ik e.2 v ->
      AppendInternalKey (set_type ik kTypeValue) = Some k ->
      carried fin e (k, v).

Lemma carried_mono fin fin' e e' : carried fin e e' -> (forall x, x ∈ fin -> x ∈ fin') -> carried fin' e e'.
Proof. intros [H|ik v f n file h k|ik v k] Hsub; [by constructor|eapply carried_blob; eauto|by eapply carried_inline]. Qed.

(** A record that the builder can write and the reader reads back. *)
Definition writable (r : BlobRecord) : Prop := encodable t r /\ key r <> [] /\ record_ok r.

(** What is asked of an entry: a well-formed key, and an index that can be
    decoded and looked at; and that its value can be written. *)
Record entry_ok (e : TableEntry) : Prop := {
  eo_bytes : is_bytes e.1;
  eo_key : exists ik, ParseInternalKey e.1 = Some (Ret ik) /\
    (type ik = kTypeBlobIndex -> exists i rest, BlobIndex_DecodeFrom BlobIndex_default e.2 = Ret (i, rest) /\
       is_u64 (file_number i) /\ readable (NewBlobFileReader env) cache_id sizes i) /\
    (forall v, takes ik e.2 v -> writable {| key := user_key ik; value := v |}) }.

(** ** The invariant *)

(** How an entry went to the blob file that is being written. *)
Inductive op_for (n : Z) (e : TableEntry) : Op -> Prop :=
  | op_small : carried [] e e -> key_parses e.1 -> op_for n e (Small (mkCtx e.1 BlobIndex_default BlobIndex_default true e.2))
  | op_put ik v :
      ParseInternalKey e.1 = Some (Ret ik) -> key_wf ik -> takes ik e.2 v ->
      writable {| key := user_key ik; value := v |} ->
      op_for n e (Put {| key := user_key ik; value := v |}
                    (mkCtx e.1 BlobIndex_default (blob_index n BlobHandle_default) false [])).

Definition numbers (b : TitanTableBuilder) : list Z :=
  map (fun x => file_number_ x.1) (finished_blobs_ b) ++ match blob_handle_ b with Some n => [n] | None => [] end.

Definition sized (s : BlobFileSet) : Prop :=
  forall b n m, column_families_ s !! cf = Some b -> files_ b !! n = Some m -> file_size_ m = sizes n.

Definition observed (s : BlobFileSet) : Prop := sized s /\ seen s.

Lemma observed_same s s' : observed s -> column_families_ s' = column_families_ s -> observed s'.
Proof. intros [H1 H2] E. split; [|by eapply seen_own]. intros b n m. rewrite E. apply H1. Qed.

(** The database and the caches between two calls, when [k] files may have been
    created. *)
Record around_ok (k : Z) (s : Building) : Prop := {
  ao_free : mutex_held (db s) = false;
  ao_good : files_good cf ∅ levels False (blob_file_set_ (db s)) (disk (db s));
  ao_numbers : forall n, n ∈ numbers (table s) -> n < fs_next_file_number_ (blob_file_set_ (db s));
  ao_next : 0 <= k /\ fs_next_file_number_ (blob_file_set_ (db s)) <= 2 ^ 62 + k;
  ao_sized : observed (blob_file_set_ (db s));
  ao_caches : files_cached (NewBlobFileReader env) cache_id sizes (caches s).1;
  ao_blobs : (caches s).2 = None;
  ao_prefetchers : forall n p, input_file_prefetchers_ (table s) !! n = Some p ->
    opens (NewBlobFileReader env) cache_id sizes n p.1 }.

Definition finished_ok (x : FinishedBlob) : Prop :=
  new_file_ok levels x.1 /\ file_number_ x.1 = x.2.1.

(** The blob file that is being written has the entries [es]; [base] is the SST
    file without them. *)
Definition writing (es base : list TableEntry) (b : TitanTableBuilder) : Prop :=
  match blob_builder_ b with
  | None => blob_handle_ b = None /\ es = [] /\ base_entries (base_builder_ b) = base
  | Some builder =>
      blob_run_mode opts = mode_kNormal /\
      exists n ops out, blob_handle_ b = Some n /\ building t copts kVersion2 ops builder out /\
        key_range (smallest_key_ builder) (largest_key_ builder) (records ops) /\
        Forall2 (op_for n) es ops /\ base_entries (base_builder_ b) = base ++ map entry_of out
  end.

Record table_ok (es : list TableEntry) (b : TitanTableBuilder) : Prop := {
  to_status : tb_status_ b = OK;
  to_finished : Forall finished_ok (finished_blobs_ b);
  to_numbers : NoDup (numbers b);
  to_entries : exists es0 es1 base, es = es0 ++ es1 /\ Forall2 (carried (finished_blobs_ b)) es0 base /\ writing es1 base b }.

Definition inv (k : Z) (es : list TableEntry) (s : Building) : Prop :=
  around_ok k s /\ table_ok es (table s).

(** The other threads keep the blob file set as it should be; they do not take
    file numbers back, and do not go beyond the first quarter of them. *)
Definition others_orderly : Prop :=
  forall n s d, files_good cf ∅ levels False s d -> let p := others_files env n (s, d) in
    files_good cf ∅ levels False p.1 p.2 /\
    fs_next_file_number_ s <= fs_next_file_number_ p.1 <= Z.max (fs_next_file_number_ s) (2 ^ 62).

(** ** What the operations need *)

Context (Hbase : forall b, base_status b = OK) (Hnew : forall n, NewWritableFile env n = Ret new_file).
Context (Hc : config_ok copts kVersion2) (Ht : is_byte t) (Hlevel : 0 <= target_level < levels) (Hlevels : levels <= 2 ^ 31).
Context (Hothers : others_orderly).
Context (Hsized : forall n s d, sized s -> sized (others_files env n (s, d)).1).
Context (Hopen : openable (NewBlobFileReader env) cache_id sizes).

Lemma status_ok b : tb_status_ b = OK -> (forall builder, blob_builder_ b = Some builder -> BlobFileBuilder.status_ builder = OK) ->
  status base_status b = OK.
Proof. intros Hs Hb. unfold status. rewrite Hs. cbn [ok]. rewrite Hbase. cbn [ok]. destruct (blob_builder_ b); [by apply Hb|done]. Qed.

Lemma building_status ver ops b out : building t copts ver ops b out -> BlobFileBuilder.status_ b = OK.
Proof. by intros []. Qed.

Lemma writing_status es base b : writing es base b -> forall builder, blob_builder_ b = Some builder -> BlobFileBuilder.status_ builder = OK.
Proof.
  unfold writing. intros Hw builder Hb. rewrite Hb in Hw. destruct Hw as (_ & n & ops & out & _ & Hbd & _). by eapply building_status.
Qed.

Lemma table_status es b : table_ok es b -> status base_status b = OK.
Proof. intros [Hs _ _ (es0 & es1 & base & _ & _ & Hw)]. apply status_ok; [done|by eapply writing_status]. Qed.

Lemma op_for_ok n e o : op_for n e o -> op_ok t o /\ op_good o /\ Forall record_ok (records [o]).
Proof.
  intros [Hca Hk|ik v Hp Hwf Htk (He & Hk & Hr)]; (split; [|split]).
  - done.
  - exact Hk.
  - constructor.
  - done.
  - by exists ik.
  - by apply Forall_singleton.
Qed.

Lemma ops_for_ok n es ops : Forall2 (op_for n) es ops -> zlen es <= 2 ^ 30 ->
  ops_ok t ops /\ Forall op_good ops /\ Forall record_ok (records ops).
Proof.
  intros Hall Hn. assert (Forall (op_ok t) ops /\ Forall op_good ops /\ Forall record_ok (records ops) /\ zlen (records ops) <= zlen es) as (H1 & H2 & H3 & H4).
  { clear Hn. induction Hall as [|e o es ops Ho _ (IH1 & IH2 & IH3 & IH4)]; [done|]. destruct (op_for_ok _ _ _ Ho) as (Hok & Hg & Hr).
    split_and!; [by constructor..| |].
    - change (o :: ops) with ([o] ++ ops). rewrite records_app. by apply Forall_app.
    - rewrite zlen_cons. destruct o; cbn; rewrite ?zlen_cons; lia. }
  split_and!; [split; [done|lia]|done..].
Qed.

(** The entries of a finished file. *)
Lemma assign_carried fin n f file es ops : forall hs,
  Forall2 (op_for n) es ops -> length hs = length (records ops) -> (f, (n, file)) ∈ fin -> file_number_ f = n ->
  (forall r h, (r, h) ∈ zip (records ops) hs -> holds_record file (file_size_ f) h r) ->
  Forall2 (carried fin) es (map entry_of (assign ops hs)).
Proof.
  intros hs Hall Hl Hin Hn. revert hs Hl. induction Hall as [|e o es ops Ho _ IH]; intros hs Hl Hr; [by destruct hs|].
  destruct Ho as [Hca Hk|ik v Hp Hwf Htk Hw].
  - assert (assign (Small (mkCtx e.1 BlobIndex_default BlobIndex_default true e.2) :: ops) hs
      = mkCtx e.1 BlobIndex_default BlobIndex_default true e.2 :: assign ops hs) as -> by by destruct hs.
    cbn [map]. constructor; [|by apply IH]. replace (entry_of _) with e by by destruct e. apply (carried_mono []); [done|].
    by intros x ?%not_elem_of_nil.
  - destruct hs as [|h hs]; [done|]. cbn [assign map]. constructor.
    + unfold entry_of. cbn [has_value set_blob_handle ctx_key new_blob_index file_number blob_index old_file_number old_blob_handle].
      apply (carried_blob fin e ik v f n file h); [done..|by apply index_key_wf|done|done|]. apply Hr. cbn. apply list_elem_of_here.
    + apply IH; [by injection Hl|]. intros r h' Hin'. apply Hr. cbn. by apply list_elem_of_further.
Qed.

(** The file that a builder leaves. *)
Definition new_meta (n : Z) (b : BlobFileBuilder) : BlobFileMeta :=
  set_state (BlobFileMeta_new n (GetFileSize (file_ b)) (BlobFileBuilder.NumEntries b) target_level
               (smallest_key_ b) (largest_key_ b)) kPendingLSM.

Lemma finished_holds ops b out dict hs r h :
  finished t copts kVersion2 ops b out dict hs -> Forall record_ok (records ops) -> (r, h) ∈ zip (records ops) hs ->
  holds_record (file_ b) (GetFileSize (file_ b)) h r.
Proof.
  intros Hfin Hok Hin cid id. destruct (fin_open t copts kVersion2 ops b out dict hs cid id Hfin Hc Hok) as (rd & Ho & Hrd).
  destruct (ReadRecord_spec t Ht rd _ r h Hrd Hin) as (buffer & Hr & _). by exists rd, buffer.
Qed.

Lemma FinishBlobFile_core s builder n ops out es :
  blob_builder_ (table s) = Some builder -> blob_handle_ (table s) = Some n -> tb_status_ (table s) = OK ->
  building t copts kVersion2 ops builder out -> Forall2 (op_for n) es ops -> zlen es <= 2 ^ 30 ->
  exists b' f file hs out1,
    FinishBlobFile env t copts base_status target_level s = Some (set_table s b') /\
    assign ops hs = out ++ out1 /\ (builder_state_ builder = kUnbuffered -> out1 = []) /\
    tb_status_ b' = OK /\ blob_builder_ b' = None /\ blob_handle_ b' = None /\
    base_entries (base_builder_ b') = base_entries (base_builder_ (table s)) ++ map entry_of out1 /\
    finished_blobs_ b' = finished_blobs_ (table s) ++ [(f, (n, file))] /\
    input_file_prefetchers_ b' = input_file_prefetchers_ (table s) /\
    finished_ok (f, (n, file)) /\ Forall2 (carried (finished_blobs_ b')) es (map entry_of (assign ops hs)).
Proof.
  intros Hbb Hh Hs Hb Hes Hlen. destruct (ops_for_ok n es ops Hes Hlen) as (Hok & Hg & Hrec).
  destruct (Finish_step t copts ops builder out Hok Hc Hb) as (b1 & dict & hs & out1 & Hf & Has & Hun & Hfin & Hsm & Hlg).
  assert (Forall ctx_good out1) as Hg1.
  { pose proof (assign_good ops hs Hg) as Hga. rewrite Has in Hga. by apply Forall_app in Hga as [_ ?]. }
  set (tb1 := add_entries (set_blob (table s) (Some n) (Some b1)) (map entry_of out1)).
  set (tb2 := set_finished tb1 (finished_blobs_ tb1 ++ [(new_meta n b1, (n, file_ b1))])).
  set (tb3 := if negb (tb_gc_num_keys_relocated_ tb2 =? 0) then set_tb_counts tb2 0 0 (error_read_cnt_ tb2) else tb2).
  exists (set_blob tb3 None None), (new_meta n b1), (file_ b1), hs, out1.
  assert (FinishBlobFile env t copts base_status target_level s = Some (set_table s (set_blob tb3 None None))) as ->.
  { unfold FinishBlobFile. rewrite Hbb, Hf. cbn [mbind option_bind]. rewrite Hh, AddBlobResultsToBase_spec by done.
    fold tb1. cbn [mbind option_bind]. change (blob_handle_ tb1) with (Some n). cbn [mbind option_bind].
    rewrite status_ok; [|done|].
    2:{ intros x [= <-]. by apply (builder_Finish_status t copts builder [] _ _ out1). }
    cbn [ok andb]. rewrite u32_small by (unfold is_u32; lia). done. }
  assert (tb_status_ tb3 = OK /\ base_builder_ tb3 = base_builder_ tb1 /\ finished_blobs_ tb3 = finished_blobs_ tb2 /\
    input_file_prefetchers_ tb3 = input_file_prefetchers_ (table s)) as (H1 & H2 & H3 & H4).
  { unfold tb3. by destruct (negb _). }
  cbn [set_blob tb_status_ base_builder_ blob_builder_ blob_handle_ finished_blobs_ input_file_prefetchers_].
  rewrite H2, H3. split_and!; try done.
  apply (assign_carried _ n (new_meta n b1) (file_ b1) es ops hs Hes); [apply Hfin| |done|].
  - apply elem_of_app. right. apply list_elem_of_here.
  - intros r h Hin. by apply (finished_holds ops b1 (assign ops hs) dict hs).
Qed.

Lemma around_table k s b :
  around_ok k s -> numbers b = numbers (table s) -> input_file_prefetchers_ b = input_file_prefetchers_ (table s) ->
  around_ok k (set_table s b).
Proof. intros [H1 H2 H3 H4 H5 H6 H7 H8] Hn Hp. split; cbn; rewrite ?Hn, ?Hp; done. Qed.

Lemma carried_all fin fin' es base :
  Forall2 (carried fin) es base -> (forall x, x ∈ fin -> x ∈ fin') -> Forall2 (carried fin') es base.
Proof. intros Hall Hsub. eapply Forall2_impl; [exact Hall|]. intros e e' He. by apply (carried_mono fin). Qed.

Lemma numbers_moved fin f x n : file_number_ f = n ->
  map (fun x => file_number_ x.1) (fin ++ [(f, x) : FinishedBlob]) ++ [] = map (fun x => file_number_ x.1) fin ++ [n].
Proof. intros <-. by rewrite app_nil_r, map_app. Qed.

Lemma FinishBlobFile_inv k es s :
  inv k es s -> zlen es <= 2 ^ 30 ->
  exists b', FinishBlobFile env t copts base_status target_level s = Some (set_table s b') /\
    inv k es (set_table s b') /\ blob_builder_ b' = None.
Proof.
  intros [Ha [Hs Hf Hn (es0 & es1 & base & -> & Hb & Hw)]] Hlen. rewrite zlen_app in Hlen. pose proof (zlen_nonneg es0).
  unfold writing in Hw. destruct (blob_builder_ (table s)) as [builder|] eqn:Ebb.
  2:{ exists (table s). destruct s as [b w c]. cbn in *. split; [unfold FinishBlobFile; cbn; by rewrite Ebb|]. split; [|done].
      split; [done|]. split; [done..|]. exists es0, es1, base. split; [done|]. split; [done|]. unfold writing. cbn. by rewrite Ebb. }
  destruct Hw as (Hmode & n & ops & out & Hh & Hbd & _ & Hops & Hbase').
  destruct (FinishBlobFile_core s builder n ops out es1 Ebb Hh Hs Hbd Hops ltac:(lia))
    as (b' & f & file & hs & out1 & -> & Has & _ & H1 & H2 & H3 & H4 & H5 & H6 & Hfo & Hcar).
  exists b'. split; [done|].
  assert (numbers b' = numbers (table s)) as Hnum.
  { unfold numbers. rewrite H3, H5, Hh. apply numbers_moved. apply Hfo. }
  split; [split|done]; [by apply around_table|]. split; cbn [table set_table].
  - done.
  - rewrite H5. apply Forall_app. by split; [|apply Forall_singleton].
  - by rewrite Hnum.
  - exists (es0 ++ es1), [], (base ++ map entry_of (assign ops hs)). split; [by rewrite app_nil_r|]. split.
    + apply Forall2_app; [|done]. apply (carried_all (finished_blobs_ (table s))); [done|]. intros x Hx. rewrite H5.
      apply elem_of_app. by left.
    + unfold writing. rewrite H2. split; [done|]. split; [done|]. by rewrite H4, Hbase', Has, map_app, <- app_assoc.
Qed.

Lemma inv_more k es s : inv k es s -> inv (k + 1) es s.
Proof. intros [[H1 H2 H3 H4 H5 H6 H7 H8] Htb]. split; [|done]. split; try done. lia. Qed.

(** ** Entries that stay in the SST file *)

Lemma AddBase_inv k es s e ik :
  inv k es s -> is_bytes e.1 -> ParseInternalKey e.1 = Some (Ret ik) -> carried [] e e -> zlen es < 2 ^ 30 ->
  exists b', AddBase (table s) e.1 ik e.2 = Some b' /\ inv k (es ++ [e]) (set_table s b').
Proof.
  intros [Ha [Hs Hf Hn (es0 & es1 & base & -> & Hb & Hw)]] Hbytes Hp Hcar Hlen.
  destruct (AppendInternalKey_Parse _ _ Hbytes Hp) as [Hwf Hke]. rewrite zlen_app in Hlen. pose proof (zlen_nonneg es0).
  assert (Forall2 (carried (finished_blobs_ (table s))) [e] [e]) as Hone.
  { constructor; [|constructor]. apply (carried_mono []); [done|]. by intros x ?%not_elem_of_nil. }
  unfold AddBase, builder_unbuffered. unfold writing in Hw. destruct (blob_builder_ (table s)) as [builder|] eqn:Ebb.
  - destruct Hw as (Hmode & n & ops & out & Hh & Hbd & Hk & Hops & Hbe).
    set (o := Small (mkCtx e.1 BlobIndex_default BlobIndex_default true e.2)).
    assert (op_for n e o) as Ho by by constructor; [|exists ik].
    assert (Forall2 (op_for n) (es1 ++ [e]) (ops ++ [o])) as Hops' by (apply Forall2_app; [done|by constructor]).
    destruct (ops_for_ok n _ _ Hops') as (Hok & _); [rewrite zlen_app, zlen_cons, zlen_nil; lia|].
    destruct (apply_op_spec t copts kVersion2 ops o builder out Hok (cfg_version _ _ Hc) Hbd Hk) as (b1 & out1 & Hap & Hbd1 & Hk1).
    unfold o in Hap. cbn [apply_op] in Hap.
    destruct (bool_decide_reflect (builder_state_ builder = kUnbuffered)) as [Hu|Hu].
    + rewrite decide_True in Hap by done. injection Hap as <- <-. eexists. split; [reflexivity|].
      split; [by apply around_table|]. split; cbn; [done..|]. exists es0, (es1 ++ [e]), base. split; [by rewrite app_assoc|].
      split; [done|]. unfold writing. cbn. rewrite Ebb. split; [done|]. exists n, (ops ++ [o]), (out ++ [mkCtx e.1 BlobIndex_default BlobIndex_default true e.2]).
      split_and!; [done..|]. rewrite Hbe, map_app, <- app_assoc. by destruct e.
    + rewrite decide_False in Hap by done. injection Hap as <- <-. unfold NewCachedRecordContext.
      rewrite (AppendInternalKey_wf ik Hwf), <- Hke. cbn [mbind option_bind]. eexists. split; [reflexivity|].
      split; [by apply around_table|]. split; cbn; [done..|]. exists es0, (es1 ++ [e]), base. split; [by rewrite app_assoc|].
      split; [done|]. unfold writing. cbn. split; [done|]. by exists n, (ops ++ [o]), out.
  - destruct Hw as (Hh & -> & Hbe). eexists. split; [reflexivity|]. split; [by apply around_table|]. split; cbn; [done..|].
    exists (es0 ++ [e]), [], (base ++ [e]). rewrite !app_nil_r. split; [done|]. split; [by apply Forall2_app|].
    unfold writing. cbn. rewrite Ebb, Hbe. split_and!; [done..|]. by destruct e.
Qed.

(** ** A new blob file *)

(** A moment of the other threads. *)
Lemma others_around n s d k :
  files_good cf ∅ levels False s d -> observed s -> 0 <= k /\ fs_next_file_number_ s <= 2 ^ 62 + k ->
  let p := others_files env n (s, d) in
  files_good cf ∅ levels False p.1 p.2 /\ observed p.1 /\ fs_next_file_number_ s <= fs_next_file_number_ p.1 <= 2 ^ 62 + k.
Proof.
  intros Hg Hsz Hk p. destruct (Hothers n s d Hg) as [Hg' Hn]. fold p in Hg', Hn. split; [done|].
  destruct Hsz as [Hsz Hseen]. split; [split; [by apply Hsized|by apply seen_others]|]. lia.
Qed.

Lemma number_taken s d :
  files_good cf ∅ levels False s d -> fs_next_file_number_ s < 2 ^ 63 -> files_good cf ∅ levels False (NewFileNumber s).2 d.
Proof.
  intros [Hwf Hmf Hx Hkept Hin Hst] Hn. split; try done. cbn. rewrite u64_small by (unfold is_u64; lia). lia.
Qed.

Lemma NewFile_good w k :
  mutex_held w = false -> files_good cf ∅ levels False (blob_file_set_ w) (disk w) -> observed (blob_file_set_ w) ->
  0 <= k < 2 ^ 61 -> fs_next_file_number_ (blob_file_set_ w) <= 2 ^ 62 + k ->
  exists n w', NewFile env w = Some (OK, Some (n, new_file), w') /\ mutex_held w' = false /\
    files_good cf ∅ levels False (blob_file_set_ w') (disk w') /\ observed (blob_file_set_ w') /\
    fs_next_file_number_ (blob_file_set_ w) <= n < fs_next_file_number_ (blob_file_set_ w') /\
    fs_next_file_number_ (blob_file_set_ w') <= 2 ^ 62 + (k + 1).
Proof.
  intros Hm Hg Hsz Hk Hnx. unfold NewFile, others.
  destruct (others_around (clock w) _ _ k Hg Hsz ltac:(lia)) as (Hg1 & Hsz1 & Hn1).
  destruct (others_files env (clock w) _) as [s1 d1]. cbn [fst snd blob_file_set_ disk] in *.
  unfold NewFileNumber. set (n := fs_next_file_number_ s1) in *. rewrite Hnew. cbn [disk].
  assert (u64 (n + 1) = n + 1) as Hu by (pose proof (fg_next _ _ _ _ _ _ Hg1); apply u64_small; unfold is_u64, n in *; lia).
  set (s2 := set_next_file_number s1 (u64 (n + 1))).
  assert (files_good cf ∅ levels False s2 d1) as Hg2.
  { apply (number_taken s1 d1 Hg1). unfold n in *. lia. }
  destruct (others_around (S (clock w)) s2 d1 (k + 1) Hg2 (observed_same _ s2 Hsz1 eq_refl)) as (Hg3 & Hsz3 & Hn3); [cbn; lia|].
  unfold Lock, others, set_files_of. cbn [mutex_held clock blob_file_set_ disk lsm pending_outputs_ bg_error_]. rewrite Hm.
  destruct (others_files env (S (clock w)) (s2, d1)) as [s3 d3]. cbn in Hg3, Hsz3, Hn3. rewrite Hu in Hn3.
  cbn [mbind option_bind]. eexists n, _. split; [reflexivity|]. cbn. split_and!; [done|done|done|lia..].
Qed.

Lemma stored_after_stats st cfs t' v : tracked t' = None -> cfs_wf st cfs -> cfs_wf (AddStats st cf t' v) cfs.
Proof. intros Ht' Hwf c b Hb. destruct (Hwf c b Hb) as (H1 & H2 & H3). split; [done|]. split; [done|]. by apply stats_ok_add. Qed.

Lemma add_live_blob_size_inv k es s v : inv k es s -> inv k es (set_db s (add_live_blob_size cf (db s) v)).
Proof.
  intros [[H1 H2 H3 H4 H5 H6 H7 H8] Htb]. split; [|done]. split; try done; [|by eapply observed_same]. destruct H2 as [Hwf Hk Hx Hkept Hin Hst]. split; try done.
  by apply stored_after_stats.
Qed.

Lemma ensure_blob_builder_inv k es s :
  inv k es s -> k < 2 ^ 61 -> blob_run_mode opts = mode_kNormal ->
  exists s', ensure_blob_builder env copts base_status s = Some (true, s') /\ inv (k + 1) es s' /\ is_Some (blob_builder_ (table s')).
Proof.
  intros [Ha Htb] Hk61 Hmode. unfold ensure_blob_builder. pose proof Ha as [A1 A2 Anum [A0 Anx] A3 A4 A5 A6].
  destruct (blob_builder_ (table s)) as [builder|] eqn:Ebb.
  { exists s. split; [done|]. split; [|by exists builder]. split; [|done]. split; try done. lia. }
  destruct Htb as [Hs Hf Hn (es0 & es1 & base & -> & Hb & Hw)]. unfold writing in Hw. rewrite Ebb in Hw. destruct Hw as (Hh & -> & Hbe).
  destruct (NewFile_good (db s) k A1 A2 A3 (conj A0 Hk61) Anx) as (n & w & -> & Hm & Hg & Hsz & Hnn & Hnx).
  cbn [mbind option_bind table caches]. set (b1 := set_tb_status (table s) OK).
  rewrite (status_ok b1) by first [done|by unfold b1; cbn; rewrite Ebb]. cbn [ok negb mbind option_bind].
  destruct (BlobFileBuilder_new_spec t copts kVersion2 Hc) as (bb & -> & Hbd & Hsm & Hlg). cbn [mbind option_bind].
  eexists. split; [reflexivity|]. split; [|by exists bb].
  assert (numbers (set_blob b1 (Some n) (Some bb)) = numbers (table s) ++ [n]) as Hnum.
  { unfold numbers. cbn. by rewrite Hh, app_nil_r. }
  split; [split; cbn [table db caches set_table]; try done|split; cbn [table set_table]; try done].
  - rewrite Hnum. intros x [Hx%Anum| ->%list_elem_of_singleton]%elem_of_app; lia.
  - lia.
  - rewrite Hnum. apply NoDup_app. split; [done|]. split; [|by apply NoDup_singleton].
    intros x Hx%Anum ->%list_elem_of_singleton. lia.
  - exists es0, [], base. split; [done|]. split; [done|]. unfold writing. cbn. split; [done|].
    exists n, [], []. split_and!; [done|done| |constructor|by rewrite Hbe, app_nil_r]. by rewrite Hsm, Hlg.
Qed.

(** ** Entries whose values go to the blob file *)

(** Entries that are written before the blob file is finished, and after. *)
Lemma handed_out {A} (base : list A) a b c l : l = (a ++ b) ++ c -> b = [] \/ c = [] -> (base ++ a) ++ c ++ b = base ++ l.
Proof. intros -> [-> | ->]; by rewrite ?app_nil_r, <- !app_assoc. Qed.

Lemma AddBlob_inv k es s e ik v :
  inv k es s -> blob_run_mode opts = mode_kNormal -> ParseInternalKey e.1 = Some (Ret ik) -> is_bytes e.1 ->
  takes ik e.2 v -> writable {| key := user_key ik; value := v |} -> zlen es < 2 ^ 30 -> k < 2 ^ 61 ->
  exists s', AddBlob env t copts base_status cf opts target_level s ik v = Some s' /\ inv (k + 1) (es ++ [e]) s'.
Proof.
  intros Hinv Hmode Hp Hbytes Htk Hwr Hlen Hk61. destruct (AppendInternalKey_Parse _ _ Hbytes Hp) as [Hwf Hke].
  unfold AddBlob. rewrite (table_status es) by apply Hinv. cbn [ok negb].
  destruct (ensure_blob_builder_inv k es s Hinv Hk61 Hmode) as (s1 & -> & Hinv1 & [bb Ebb]). cbn [mbind option_bind negb].
  pose proof (add_live_blob_size_inv (k + 1) es s1 (zlen v) Hinv1) as Hinv2.
  set (s2 := set_db s1 _) in *. change (table s2) with (table s1). rewrite Ebb. cbn [mbind option_bind].
  rewrite (AppendInternalKey_wf ik Hwf), <- Hke. cbn [mbind option_bind].
  destruct Hinv2 as [Ha [Hs Hf Hn (es0 & es1 & base & -> & Hb & Hw)]]. change (table s2) with (table s1) in *.
  unfold writing in Hw. rewrite Ebb in Hw. destruct Hw as (_ & n & ops & out & Hh & Hbd & Hk & Hops & Hbe). rewrite Hh.
  cbn [mbind option_bind]. rewrite zlen_app in Hlen. pose proof (zlen_nonneg es0).
  set (r := {| key := user_key ik; value := v |}) in *. set (c := mkCtx e.1 BlobIndex_default (blob_index n BlobHandle_default) false []).
  assert (op_for n e (Put r c)) as Ho by by constructor.
  assert (Forall2 (op_for n) (es1 ++ [e]) (ops ++ [Put r c])) as Hops' by (apply Forall2_app; [done|by constructor]).
  assert (zlen (es1 ++ [e]) <= 2 ^ 30) as Hlen' by (rewrite zlen_app, zlen_cons, zlen_nil; lia).
  destruct (ops_for_ok n _ _ Hops' Hlen') as (Hok & Hg & _).
  destruct (Add_step t copts kVersion2 ops r c bb out Hok (cfg_version _ _ Hc) Hbd Hk) as (b1 & out1 & Hadd & Hbd1 & Hk1 & Hbuf).
  change (mkCtx e.1 BlobIndex_default _ false []) with c. rewrite Hadd. cbn [mbind option_bind].
  set (s3 := set_table s2 (set_blob (table s1) (Some n) (Some b1))).
  assert (Forall ctx_good out1) as Hg1.
  { pose proof (building_good t copts _ _ _ _ Hbd1 Hg) as Hga. by apply Forall_app in Hga as [_ ?]. }
  assert (numbers (table s3) = numbers (table s1)) as Hnum by by (unfold numbers; cbn; rewrite Hh).
  destruct (blob_file_target_size opts <=? GetFileSize (file_ b1)); cbn [mbind option_bind].
  - destruct (FinishBlobFile_core s3 b1 n (ops ++ [Put r c]) (out ++ out1) (es1 ++ [e]) eq_refl eq_refl Hs Hbd1 Hops' Hlen')
      as (b' & f & file & hs & out2 & -> & Has & Hun & H1 & H2 & H3 & H4 & H5 & H6 & Hfo & Hcar).
    cbn [mbind option_bind table set_table]. rewrite AddBlobResultsToBase_spec by done. cbn [mbind option_bind].
    eexists. split; [reflexivity|].
    assert (numbers (add_entries b' (map entry_of out1)) = numbers (table s1)) as Hnum'.
    { unfold numbers. cbn. rewrite H3, H5, Hh. apply numbers_moved. apply Hfo. }
    split; [by apply (around_table _ s2)|]. split; cbn [table set_table].
    + done.
    + change (finished_blobs_ (add_entries _ _)) with (finished_blobs_ b'). rewrite H5. apply Forall_app. by split; [|apply Forall_singleton].
    + by rewrite Hnum'.
    + exists ((es0 ++ es1) ++ [e]), [], (base ++ map entry_of (assign (ops ++ [Put r c]) hs)). split; [by rewrite app_nil_r|]. split.
      * rewrite <- app_assoc. apply Forall2_app; [|done]. apply (carried_all (finished_blobs_ (table s1))); [done|].
        intros x Hx. cbn. rewrite H5. apply elem_of_app. by left.
      * unfold writing. cbn. rewrite H2. split; [done|]. split; [done|]. rewrite H4. cbn. rewrite Hbe, <- app_assoc.
        apply handed_out; [by rewrite Has, !map_app|].
        destruct (builder_state_ b1) eqn:Est; [left; by rewrite (Hbuf eq_refl)|right; by rewrite (Hun eq_refl)].
  - rewrite AddBlobResultsToBase_spec by done. cbn [mbind option_bind]. eexists. split; [reflexivity|].
    split; [by apply (around_table _ s2)|]. split; cbn [table set_table]; [done|done|by rewrite <- Hnum in Hn|].
    exists es0, (es1 ++ [e]), base. split; [by rewrite app_assoc|]. split; [done|]. unfold writing. cbn. split; [done|].
    exists n, (ops ++ [Put r c]), (out ++ out1). split_and!; [done..|]. by rewrite Hbe, map_app, <- app_assoc.
Qed.

(** ** Reading the values of indexes *)

Lemma around_db k s w :
  around_ok k s -> mutex_held w = false -> files_good cf ∅ levels False (blob_file_set_ w) (disk w) -> observed (blob_file_set_ w) ->
  fs_next_file_number_ (blob_file_set_ (db s)) <= fs_next_file_number_ (blob_file_set_ w) <= 2 ^ 62 + k ->
  around_ok k (set_db s w).
Proof.
  intros [H1 H2 H3 H4 H5 H6 H7 H8] Hm Hg Hsz Hn. split; try done; cbn [db table set_db]; [|lia].
  intros n Hin. specialize (H3 n Hin). lia.
Qed.

Lemma lock_storage_inv k es s :
  inv k es s ->
  exists storage w, lock_storage env cf s = Some (storage, set_db s w) /\ inv k es (set_db s w) /\
    storage_sized sizes storage /\ forall i, looked_up i (files_ storage !! file_number i).
Proof.
  intros [Ha Htb]. pose proof Ha as [A1 A2 Anum Anx A3 A4 A5 A6]. unfold lock_storage, others, set_db.
  destruct (others_around (clock (db s)) _ _ k A2 A3 Anx) as (Hg & Hsz & Hnx).
  destruct (others_files env (clock (db s)) _) as [s1 d1]. cbn [fst snd db blob_file_set_] in *.
  destruct (fg_storage _ _ _ _ _ _ Hg) as (b & Hb & _). unfold GetBlobStorage. rewrite Hb. cbn [mbind option_bind].
  eexists b, _. split; [reflexivity|]. split; [split; [by apply around_db|done]|]. split; [|intros i; exists s1, b; by split; [apply Hsz|]].
  intros n. destruct (fg_wf _ _ _ _ _ _ Hg _ _ Hb) as (_ & Hbw & _). split; [by apply FindFile_wf|].
  intros m Hm. split; [by apply (wf_number _ Hbw)|by apply (proj1 Hsz b)].
Qed.

(** Another state of the caches. *)
Lemma around_caches k s fc p :
  around_ok k s -> files_cached (NewBlobFileReader env) cache_id sizes fc ->
  (forall n x, p !! n = Some x -> opens (NewBlobFileReader env) cache_id sizes n x.1) ->
  around_ok k (mkBuilding (set_prefetchers (table s) p) (db s) (fc, None)).
Proof. intros [H1 H2 H3 H4 H5 H6 H7 H8] Hfc Hp. by split. Qed.

Lemma table_prefetchers es b p : table_ok es b -> table_ok es (set_prefetchers b p).
Proof. by intros []. Qed.

Lemma GetBlobRecord_inv k es s i :
  inv k es s -> is_u64 (file_number i) -> readable (NewBlobFileReader env) cache_id sizes i ->
  exists r s', GetBlobRecord env cache_id cf s i = Some (r, s') /\ inv k es s' /\
    match r with Ret rec => reads i rec | Fail _ => unread i end.
Proof.
  intros Hinv Hu Hrd. unfold GetBlobRecord.
  (* the prefetcher *)
  assert (exists r s1,
    match input_file_prefetchers_ (table s) !! file_number i with
    | Some p => Some (Ret p, s)
    | None =>
        '(storage, s) ← lock_storage env cf s;
        '(r, c) ← BlobStorage_NewPrefetcher (NewBlobFileReader env) cache_id storage (caches s) (file_number i);
        Some (r, mkBuilding (match r with
                             | Ret p => set_prefetchers (table s) (<[file_number i := p]> (input_file_prefetchers_ (table s)))
                             | Fail _ => table s
                             end) (db s) c)
    end = Some (r, s1) /\ inv k es s1 /\
    match r with Ret p => opens (NewBlobFileReader env) cache_id sizes (file_number i) p.1 | Fail _ => unread i end)
    as (r & s1 & -> & Hinv1 & Ho).
  { destruct (input_file_prefetchers_ (table s) !! file_number i) as [p|] eqn:Ep.
    { exists (Ret p), s. split; [done|]. split; [done|]. by apply (ao_prefetchers _ _ (proj1 Hinv)). }
    destruct (lock_storage_inv k es s Hinv) as (storage & w & -> & Hinv1 & Hst & Hlook). cbn [mbind option_bind].
    set (s1 := set_db s w) in *. destruct Hinv1 as [Ha1 Htb1].
    destruct (BlobStorage_NewPrefetcher_spec (NewBlobFileReader env) cache_id sizes storage (caches s1) (file_number i)
      Hu Hopen Hst (ao_caches _ _ Ha1)) as (r & fc' & -> & Hfc & Hr). cbn [mbind option_bind]. rewrite (ao_blobs _ _ Ha1).
    destruct r as [[rd p]|e].
    - eexists (Ret _), _. split; [reflexivity|]. split; [|apply Hr]. split; [|by apply table_prefetchers].
      apply around_caches; [done|done|]. intros n x [[<- <-]|[_ Hx]]%lookup_insert_Some; [apply Hr|by apply (ao_prefetchers _ _ Ha1)].
    - eexists (Fail _), _. split; [reflexivity|]. split.
      2:{ destruct Hr as [Hno|Hno]; [left; rewrite <- Hno; apply Hlook|right]. intros rec (rd & buf & Hop & _). by eapply Hno. }
      split; [|done]. destruct Ha1 as [H1 H2 H3 H4 H5 H6 H7 H8]. by split. }
  cbn [mbind option_bind]. destruct r as [[rd p]|e]; [|by exists (Fail e), s1].
  destruct Hinv1 as [Ha1 Htb1].
  destruct (BlobFilePrefetcher_Get_spec (NewBlobFileReader env) cache_id sizes p rd i Ho Hrd) as (rr & p' & Hg & Hr).
  rewrite (ao_blobs _ _ Ha1), Hg. cbn [mbind option_bind]. eexists _, _. split; [reflexivity|]. split.
  - split; [|by apply table_prefetchers]. apply around_caches; [done|by apply Ha1|].
    intros n x [[<- <-]|[_ Hx]]%lookup_insert_Some; [done|by apply (ao_prefetchers _ _ Ha1)].
  - destruct rr as [[rec buf]|e]; cbn [res_bind]; [exact Hr|by right].
Qed.

Lemma inv_counts k es s x y z : inv k es s -> inv k es (set_table s (set_tb_counts (table s) x y z)).
Proof. intros [[H1 H2 H3 H4 H5 H6 H7 H8] []]. by split; split. Qed.

(** An entry that has to stay. *)
Lemma carried_stays e ik : ParseInternalKey e.1 = Some (Ret ik) -> stays ik e.2 -> carried [] e e.
Proof. intros Hp Hs. constructor. intros ik' Hp'. rewrite Hp in Hp'. by injection Hp' as <-. Qed.

Section Index.
Context (k : Z) (es : list TableEntry) (e : TableEntry) (ik : ParsedInternalKey) (i : BlobIndex) (rest : bytes).
Context (Hbytes : is_bytes e.1) (Hp : ParseInternalKey e.1 = Some (Ret ik)) (Hty : type ik = kTypeBlobIndex).
Context (Hi : BlobIndex_DecodeFrom BlobIndex_default e.2 = Ret (i, rest)) (Hu : is_u64 (file_number i)).
Context (Hrd : readable (NewBlobFileReader env) cache_id sizes i) (Hlen : zlen es < 2 ^ 30) (Hk61 : k < 2 ^ 61).

Lemma index_decoded j r : BlobIndex_DecodeFrom BlobIndex_default e.2 = Ret (j, r) -> j = i.
Proof. rewrite Hi. by intros [= <- _]. Qed.

Lemma keep_index_inv s : inv k es s -> blob_run_mode opts = mode_kNormal ->
  unread i \/ (exists file, looked_up i file /\ ~ to_be_merged file) ->
  exists s', (b ← AddBase (table s) e.1 ik e.2; Some (set_table s b)) = Some s' /\ inv (k + 1) (es ++ [e]) s'.
Proof.
  intros Hinv Hmode Hst. destruct (AddBase_inv k es s e ik Hinv Hbytes Hp) as (b' & -> & Hinv'); [|done|eexists; split; [done|by apply inv_more]].
  apply (carried_stays e ik Hp). split.
  - by rewrite Hty.
  - by rewrite Hmode.
  - by intros _ _ _ _ j r ->%index_decoded.
Qed.

Lemma merge_index_inv s :
  inv k es s -> blob_run_mode opts = mode_kNormal -> level_merge opts = true -> merge_level <= target_level ->
  (forall v, takes ik e.2 v -> writable {| key := user_key ik; value := v |}) ->
  exists s', merge_index env t copts base_status cache_id cf opts target_level s e.1 ik e.2 i = Some s' /\ inv (k + 1) (es ++ [e]) s'.
Proof.
  intros Hinv Hmode Hlm Hml Hwr. unfold merge_index.
  destruct (lock_storage_inv k es s Hinv) as (storage & w & -> & Hinv1 & Hst & Hlook). cbn [mbind option_bind].
  destruct (Hst (file_number i)) as [-> _]. cbn [mbind option_bind]. unfold ShouldMerge. rewrite Hlm. cbn [assert mbind option_bind].
  specialize (Hlook i).
  destruct (match files_ storage !! file_number i with Some _ => _ | None => false end) eqn:Em.
  2:{ cbn [mbind option_bind]. apply keep_index_inv; [done..|]. right. eexists. split; [exact Hlook|].
      destruct (files_ storage !! file_number i) as [m|]; cbn [to_be_merged]; [|by intros []].
      apply orb_false_iff in Em as [E1%Z.ltb_ge E2%bool_decide_eq_false]. intros [?|?]; [lia|done]. }
  assert (to_be_merged (files_ storage !! file_number i)) as Hmg.
  { destruct (files_ storage !! file_number i) as [m|]; [|done]. cbn [to_be_merged].
    apply orb_true_iff in Em as [E%Z.ltb_lt|E%bool_decide_eq_true]; [by left|by right]. }
  destruct (GetBlobRecord_inv k es (set_db s w) i Hinv1 Hu Hrd) as (r & s2 & -> & Hinv2 & Hr). cbn [mbind option_bind].
  destruct r as [rec|err].
  - set (s3 := set_table s2 _). pose proof (inv_counts k es s2 (u64 (tb_gc_num_keys_relocated_ (table s2) + 1))
      (u64 (tb_gc_bytes_relocated_ (table s2) + zlen (value rec))) (error_read_cnt_ (table s2)) Hinv2 : inv k es s3) as Hinv3.
    assert (takes ik e.2 (value rec)) as Htk by (eapply takes_merged; try done; by eexists).
    destruct (AddBlob_inv k es s3 e ik (value rec) Hinv3 Hmode Hp Hbytes Htk (Hwr _ Htk) Hlen Hk61) as (s4 & -> & Hinv4).
    cbn [mbind option_bind]. rewrite (table_status (es ++ [e])) by apply Hinv4. by exists s4.
  - cbn [mbind option_bind]. apply keep_index_inv; [by apply inv_counts|done|by left].
Qed.

Lemma ingest_index_inv s :
  inv k es s -> blob_run_mode opts = mode_kFallback ->
  exists s', ingest_index env cache_id cf s e.1 ik e.2 i = Some s' /\ inv (k + 1) (es ++ [e]) s'.
Proof.
  intros Hinv Hmode. unfold ingest_index.
  destruct (GetBlobRecord_inv k es s i Hinv Hu Hrd) as (r & s1 & -> & Hinv1 & Hr). cbn [mbind option_bind].
  destruct Hinv1 as [Ha [Hs Hf Hn (es0 & es1 & base & -> & Hb & Hw)]]. unfold writing in Hw.
  destruct (blob_builder_ (table s1)) as [bb|] eqn:Ebb; [by rewrite Hmode in Hw; destruct Hw as [? _]|].
  rewrite bool_decide_eq_true_2 by done. cbn [assert mbind option_bind]. destruct Hw as (Hh & -> & Hbe).
  assert (forall e', carried (finished_blobs_ (table s1)) e e' ->
    inv (k + 1) ((es0 ++ []) ++ [e]) (set_table s1 (set_base (table s1) (base_add (base_builder_ (table s1)) e'.1 e'.2)))) as Hgo.
  { intros e' He'. apply inv_more. split; [by apply around_table|]. split; cbn; [done..|]. exists (es0 ++ [e]), [], (base ++ [e']).
    rewrite !app_nil_r. split; [done|]. split; [apply Forall2_app; [done|by constructor]|]. unfold writing. cbn.
    rewrite Ebb, Hbe. split_and!; [done..|]. by destruct e'. }
  destruct (AppendInternalKey_Parse _ _ Hbytes Hp) as [Hwf _].
  destruct r as [rec|err].
  - pose proof (AppendInternalKey_wf (set_type ik kTypeValue)) as Hk. rewrite Hk by by apply set_type_wf. cbn [mbind option_bind].
    eexists. split; [reflexivity|]. apply (Hgo (_, value rec)). eapply carried_inline; [done| |apply Hk; by apply set_type_wf].
    by eapply ingests_index.
  - eexists. split; [reflexivity|]. apply Hgo. apply (carried_mono []); [|by intros x ?%not_elem_of_nil].
    apply (carried_stays e ik Hp). split; [by rewrite Hty|by intros _ _ j r' ->%index_decoded|by rewrite Hmode].
Qed.
End Index.

(** ** Adding and finishing *)

Lemma inv_ok_status k es s : inv k es s -> set_table s (set_tb_status (table s) OK) = s.
Proof. intros [_ [Hs _ _ _]]. destruct s as [[] w c]. unfold set_table, set_tb_status. cbn in *. by rewrite <- Hs. Qed.

Lemma Add_inv k es s e :
  inv k es s -> entry_ok e -> zlen es < 2 ^ 30 -> k < 2 ^ 61 ->
  exists s', Add env t copts base_status cache_id cf opts merge_level target_level s e.1 e.2 = Some s' /\ inv (k + 1) (es ++ [e]) s'.
Proof.
  intros Hinv [Hbytes (ik & Hp & Hidx & Hwr)] Hlen Hk61. unfold Add. rewrite (table_status es) by apply Hinv. cbn [ok negb].
  rewrite Hp. cbn [mbind option_bind]. rewrite (inv_ok_status k es s Hinv).
  assert (carried [] e e -> exists s', (b ← AddBase (table s) e.1 ik e.2; Some (set_table s b)) = Some s' /\ inv (k + 1) (es ++ [e]) s') as Hkeep.
  { intros Hca. destruct (AddBase_inv k es s e ik Hinv Hbytes Hp Hca Hlen) as (b' & -> & Hinv'). eexists. split; [done|by apply inv_more]. }
  destruct (Z.eqb_spec (type ik) kTypeBlobIndex) as [Hty|Hty]; cbn [andb].
  - destruct (Hidx Hty) as (i & rest & Hi & Hu & Hrd). rewrite Hi.
    replace (type ik =? kTypeValue) with false by by rewrite Hty. cbn [andb].
    destruct (bool_decide_reflect (blob_run_mode opts = mode_kFallback)) as [Hm|Hm]; [by eapply ingest_index_inv|].
    destruct (level_merge opts && (merge_level <=? target_level) && bool_decide (blob_run_mode opts = mode_kNormal)) eqn:Ec.
    + apply andb_prop in Ec as [[Hlm Hle%Z.leb_le]%andb_prop Hn%bool_decide_eq_true]. by eapply merge_index_inv.
    + apply Hkeep, (carried_stays e ik Hp). split; [by rewrite Hty|done|]. intros Hmn Hlm Hle _. exfalso.
      rewrite Hlm, (proj2 (Z.leb_le _ _) Hle), bool_decide_eq_true_2 in Ec by done. discriminate Ec.
  - destruct (Z.eqb_spec (type ik) kTypeValue) as [Hv|Hv]; cbn [andb].
    2:{ apply Hkeep, (carried_stays e ik Hp). by split. }
    destruct (bool_decide_reflect (blob_run_mode opts = mode_kNormal)) as [Hm|Hm].
    2:{ apply Hkeep, (carried_stays e ik Hp). by split. }
    destruct (Z.ltb_spec (zlen e.2) (min_blob_size opts)) as [Hsm|Hlg].
    + apply Hkeep, (carried_stays e ik Hp). by split.
    + assert (takes ik e.2 e.2) as Htk by by constructor. by apply AddBlob_inv; [..|apply Hwr| |].
Qed.

Lemma add_all_inv es2 : forall k es1 s,
  inv k es1 s -> Forall entry_ok es2 -> zlen (es1 ++ es2) <= 2 ^ 30 -> k + zlen es2 < 2 ^ 61 ->
  exists s', add_all env t copts base_status cache_id cf opts merge_level target_level s es2 = Some s' /\ inv (k + zlen es2) (es1 ++ es2) s'.
Proof.
  induction es2 as [|e es2 IH]; intros k es1 s Hinv Hok Hlen Hk; [exists s; by rewrite app_nil_r, zlen_nil, Z.add_0_r|].
  apply Forall_cons in Hok as [He Hok]. rewrite cons_middle, app_assoc in *. rewrite zlen_cons in Hk.
  pose proof (zlen_nonneg es2).
  destruct (Add_inv k es1 s e Hinv He) as (s1 & Ha & Hinv1); [|lia|].
  { rewrite !zlen_app, zlen_cons, zlen_nil in Hlen. lia. }
  destruct (IH (k + 1) (es1 ++ [e]) s1 Hinv1 Hok Hlen ltac:(lia)) as (s' & Hs' & Hinv').
  exists s'. rewrite zlen_cons. replace (k + (1 + zlen es2)) with (k + 1 + zlen es2) by lia.
  split; [|done]. unfold add_all in *. cbn [fold_option]. by rewrite Ha.
Qed.

Lemma table_numbers es b : table_ok es b -> blob_builder_ b = None ->
  numbers b = map file_number_ (map fst (finished_blobs_ b)).
Proof.
  intros [_ _ _ (es0 & es1 & base & _ & _ & Hw)] Hbb. unfold writing in Hw. rewrite Hbb in Hw. destruct Hw as (Hh & _).
  unfold numbers. rewrite Hh, app_nil_r, map_map. done.
Qed.

Lemma Finish_inv k es s :
  inv k es s -> zlen es <= 2 ^ 30 ->
  exists st s', Finish env t copts base_status cf target_level s = Some (st, s') /\
    Forall2 (carried (finished_blobs_ (table s'))) es (base_entries (base_builder_ (table s'))) /\
    base_state (base_builder_ (table s')) = base_finished /\ blob_builder_ (table s') = None /\
    (st = OK -> has_files cf (blob_file_set_ (db s')) (map fst (finished_blobs_ (table s')))).
Proof.
  intros Hinv Hlen. unfold Finish. destruct (FinishBlobFile_inv k es s Hinv Hlen) as (b & -> & [Ha Htb] & Hbb).
  cbn [mbind option_bind]. cbn [table set_table] in Htb. pose proof Htb as [Hs Hf Hn (es0 & es1 & base & -> & Hb & Hw)].
  unfold writing in Hw. rewrite Hbb in Hw. destruct Hw as (Hh & -> & Hbe). destruct Ha as [A1 A2 _ A0 A3 _ _ _].
  assert (Forall (new_file_ok levels) (map fst (finished_blobs_ b))) as Hok.
  { rewrite Forall_map. eapply Forall_impl; [exact Hf|]. by intros x []. }
  destruct (BatchFinishFiles_spec env cf ∅ levels False (db s) _ A1 (proj1 (others_around (clock (db s)) _ _ k A2 A3 A0)) A2 Hok) as (st & w & Hbf & _ & _ & _ & Hhas).
  cbn [table set_table db set_base finished_blobs_] in *. rewrite Hbf. cbn [mbind option_bind].
  eexists st, _. split.
  { unfold status. cbn [tb_status_ set_tb_status base_builder_ blob_builder_ set_base]. rewrite Hbb, Hbase. by destruct st. }
  cbn. split_and!; [by rewrite app_nil_r, Hbe|done|done|]. intros Hst. apply Hhas; [done|].
  by rewrite <- (table_numbers _ b Htb Hbb).
Qed.
End Table.
