(* ===== verification/TableBuilderSpec.v ===== *)
(** * TableBuilderSpec: flushes and compactions separate values from keys

    The theorems about the table builder as a whole: what a flush or a compaction
    adds is what the SST file and its blob files hold; and what becomes of the
    entries when a blob file cannot be created or finished. *)
From S2P Require Import Prelude Coding Crc32c InternalKey BitMap BlobFileMeta TitanStats Options VersionEdit BlobStorage BlobStorageProofs EditCollector EditCollectorProofs BlobFileSet BlobFileSetProofs BlobFileSetSpec BlobFileBuilder BlobFileBuilderProofs BlobFileReader BlobFileReaderProofs BlobFileIteratorProofs BlobFileSpec BlobStorageRead GCJob GCJobRun GCJobProofs TableBuilder TableBuilderProofs BlobFormat.

Local Open Scope Z_scope.
Local Open Scope aegon_scope.

Section Spec.
Context `{C : Comparator} `{LC : !ComparatorLaws C} `{L : FileLibrary} `{LL : !FileLibraryLaws L}.
Context (env : Surroundings) (t : Z) (copts : CompressionOptions).
Context (base_status : BaseBuilder -> Status) (cache_id : option Z).
Context (cf : Z) (opts : TitanCFOptions) (merge_level target_level : Z) (sizes : Z -> Z) (levels : Z).

(** Files can be created and written, the inputs can be looked at without a
    failing assertion, and the other threads keep the blob file set as it should
    be. The blob cache is not used. *)
Record building_setting (es : list (bytes * bytes)) (w : World) (fc : FileCache) : Prop := {
  bs_base : forall b, base_status b = OK;
  bs_new : forall n, NewWritableFile env n = Ret new_file;
  bs_config : config_ok copts kVersion2;
  bs_type : is_byte t;
  bs_level : 0 <= target_level < levels;
  bs_levels : levels <= 2 ^ 31;
  bs_others : others_orderly env cf levels;
  bs_others_sized : forall n s d, sized cf sizes s -> sized cf sizes (others_files env n (s, d)).1;
  bs_openable : openable (NewBlobFileReader env) cache_id sizes;
  bs_free : mutex_held w = false;
  bs_good : files_good cf ∅ levels False (blob_file_set_ w) (disk w);
  bs_next : fs_next_file_number_ (blob_file_set_ w) <= 2 ^ 62;
  bs_sized : sized cf sizes (blob_file_set_ w);
  bs_cached : files_cached (NewBlobFileReader env) cache_id sizes fc;
  bs_entries : Forall (entry_ok env t cache_id cf opts merge_level target_level sizes (blob_file_set_ w)) es;
  bs_count : zlen es <= 2 ^ 30 }.

Lemma initial_inv es w fc : building_setting es w fc ->
  inv env t copts cache_id cf opts merge_level target_level sizes levels (blob_file_set_ w) 0 [] (mkBuilding TitanTableBuilder_new w (fc, None)).
Proof.
  intros [H1 H2 H3 H4 H5 H6 H7 H8 H9 H10 H11 H12 H13 H14 H15 H16]. split; split; cbn; try done.
  - by intros n ?%not_elem_of_nil.
  - split; [done|constructor].
  - constructor.
  - exists [], [], []. split; [done|]. split; [constructor|]. by split_and!.
Qed.

(** C4: As long as new blob files can be created and written and the builder of
    the SST file reports no error, a flush or a compaction carries every entry that
    it is given into the SST file, in order, in every mode. In normal mode a value
    of at least [min_blob_size] becomes the index of a record, in one of the
    finished blob files, that reads back as the same key and value, and with level
    merge so does, with the value that it leads to, an index whose file the storage
    has on an earlier level or marked to be merged; in fallback mode an index
    becomes the value that it leads to. An entry is left as it is only when it is
    none of these: a smaller value, a deletion or a merge operand, an entry of the
    other modes, an index whose file is not to be merged, or one whose record is not
    read because its file has left the storage or cannot be read ([stays]). Other
    threads may change the blob files in the meantime, as long as they keep them
    well-formed; the blob cache is not used. Under these conditions no assertion
    fails, and when success is reported all the blob files are in the blob storage of
    the column family. When a file cannot be created or finished,
    [failed_new_file_loses_entries] and [failed_blob_file_crashes] say what
    happens. *)
Theorem table_builder_carries es w fc :
  building_setting es w fc ->
  exists st s,
    build_table env t copts base_status cache_id cf opts merge_level target_level
      (mkBuilding TitanTableBuilder_new w (fc, None)) es = Some (st, s) /\
    Forall2 (carried env cache_id cf opts merge_level target_level sizes (blob_file_set_ w) (finished_blobs_ (table s))) es
      (base_entries (base_builder_ (table s))) /\
    base_state (base_builder_ (table s)) = base_finished /\ blob_builder_ (table s) = None /\
    (st = OK -> has_files cf (blob_file_set_ (db s)) (map fst (finished_blobs_ (table s)))).
Proof.
  intros Hset. pose proof (initial_inv es w fc Hset) as Hinv.
  destruct Hset as [H1 H2 H3 H4 H5 H6 H7 H8 H9 H10 H11 H12 H13 H14 H15 H16]. unfold build_table.
  destruct (add_all_inv env t copts base_status cache_id cf opts merge_level target_level sizes levels (blob_file_set_ w) H1 H2 H3 H4 H5 H6 H7 H8 H9
    es 0 [] _ Hinv H15 H16) as (s & -> & Hs); [lia|]. cbn [mbind option_bind].
  by apply (Finish_inv env t copts base_status cache_id cf opts merge_level target_level sizes levels (blob_file_set_ w) H1 H3 H4 H5 H6 H7 H8
    _ es s Hs).
Qed.
End Spec.

(** ** Files that cannot be created or finished *)

Section Errors.
Context `{C : Comparator} `{LC : !ComparatorLaws C} `{L : FileLibrary}.
Context (env : Surroundings) (t : Z) (copts : CompressionOptions).
Context (base_status : BaseBuilder -> Status) (cache_id : option Z).
Context (cf : Z) (opts : TitanCFOptions) (merge_level target_level levels : Z).

#[local] Abbreviation add_entries_to := (add_all env t copts base_status cache_id cf opts merge_level target_level).

Lemma add_all_stopped s es :
  status base_status (table s) <> OK -> add_entries_to s es = Some s.
Proof.
  intros Hs. unfold add_all. induction es as [|e es IH]; [done|]. cbn [fold_option]. unfold Add.
  replace (ok (status base_status (table s))) with false by by destruct (status _ _). done.
Qed.

(** A large value when no blob file can be created. *)
Lemma Add_no_file s k v ik err :
  status base_status (table s) = OK -> blob_builder_ (table s) = None ->
  blob_run_mode opts = mode_kNormal -> ParseInternalKey k = Some (Ret ik) -> type ik = kTypeValue ->
  min_blob_size opts <= zlen v -> (forall n, NewWritableFile env n = Fail err) -> err <> OK ->
  exists s', Add env t copts base_status cache_id cf opts merge_level target_level s k v = Some s' /\
    table s' = set_tb_status (table s) err /\ mutex_held (db s') = mutex_held (db s) /\
    blob_file_set_ (db s') = (NewFileNumber (blob_file_set_ (others env (db s)))).2 /\ disk (db s') = disk (others env (db s)).
Proof.
  intros Hst Hbb Hm Hp Ht Hv Hn He. unfold Add. rewrite Hst. cbn [ok negb]. rewrite Hp. cbn [mbind option_bind]. rewrite Ht, Hm.
  change (kTypeValue =? kTypeBlobIndex) with false. cbn [andb]. rewrite Z.eqb_refl, (bool_decide_eq_true_2 (mode_kNormal = mode_kNormal)) by done.
  cbn [andb]. rewrite (proj2 (Z.ltb_ge _ _)) by done. unfold AddBlob.
  assert (status base_status (set_tb_status (table s) OK) = OK) as Hst'.
  { unfold status in *. cbn. rewrite Hbb in *. destruct (tb_status_ (table s)); cbn in *; done. }
  cbn [table set_table]. rewrite Hst'. cbn [ok negb]. unfold ensure_blob_builder. cbn [table set_table set_tb_status blob_builder_ db].
  rewrite Hbb. unfold NewFile. destruct (NewFileNumber _) as [n set1] eqn:En. rewrite Hn. cbn [mbind option_bind table].
  assert (ok (status base_status (set_tb_status (set_tb_status (table s) OK) err)) = false) as ->.
  { unfold status. cbn. rewrite Hbb. by destruct err. }
  cbn [negb mbind option_bind]. eexists. split; [reflexivity|]. cbn. split; [done|]. split; [|done].
  unfold others. by destruct (others_files _ _ _).
Qed.

(** When the file for the first large value cannot be created, the table
    builder ignores that entry and every entry after it, and [Finish] forgets
    the failure: it overwrites the status with that of installing the files that
    were finished before. The flush ends well, and the entries are gone. *)
Theorem failed_new_file_loses_entries s k v ik es err :
  (forall b, base_status b = OK) -> status base_status (table s) = OK -> blob_builder_ (table s) = None ->
  blob_run_mode opts = mode_kNormal -> ParseInternalKey k = Some (Ret ik) -> type ik = kTypeValue ->
  min_blob_size opts <= zlen v -> (forall n, NewWritableFile env n = Fail err) -> err <> OK ->
  others_orderly env cf levels -> mutex_held (db s) = false ->
  files_good cf ∅ levels False (blob_file_set_ (db s)) (disk (db s)) ->
  fs_next_file_number_ (blob_file_set_ (db s)) <= 2 ^ 62 -> Forall (new_file_ok levels) (map fst (finished_blobs_ (table s))) ->
  exists s1 s2 st w,
    add_entries_to s ((k, v) :: es) = Some s1 /\ status base_status (table s1) = err /\
    BatchFinishFiles env (db s1) cf (map fst (finished_blobs_ (table s))) = Some (st, w) /\
    Finish env t copts base_status cf target_level s1 = Some (st, s2) /\
    base_entries (base_builder_ (table s2)) = base_entries (base_builder_ (table s)) /\
    finished_blobs_ (table s2) = finished_blobs_ (table s).
Proof.
  intros Hb Hst Hbb Hm Hp Ht Hv Hn He Hot Hfree Hg Hnx Hfin.
  destruct (Add_no_file s k v ik err Hst Hbb Hm Hp Ht Hv Hn He) as (s1 & Ha & Htb & Hm1 & Hset & Hd).
  assert (status base_status (table s1) = err) as Hs1 by (rewrite Htb; unfold status; cbn; rewrite Hbb; by destruct err).
  assert (files_good cf ∅ levels False (blob_file_set_ (db s1)) (disk (db s1))) as Hg1.
  { destruct (Hot (clock (db s)) _ _ Hg) as [Hg1 Hn1]. rewrite Hset, Hd. unfold others.
    destruct (others_files env (clock (db s)) _) as [set1 d1]. cbn in *. by apply number_taken; [|lia]. }
  destruct (BatchFinishFiles_spec env cf ∅ levels False (db s1) (map fst (finished_blobs_ (table s)))) as (st & w & Hbf & _);
    [by rewrite Hm1|by apply Hot|done|done|].
  eexists s1, _, st, w. split.
  { unfold add_all. cbn [fold_option fst snd]. rewrite Ha. fold (add_entries_to s1 es). apply add_all_stopped. by rewrite Hs1. }
  split; [done|]. split; [done|]. unfold Finish, FinishBlobFile. rewrite Htb. cbn [blob_builder_ set_tb_status]. rewrite Hbb.
  cbn [mbind option_bind]. rewrite Htb. cbn [finished_blobs_ set_base set_tb_status]. rewrite Hbf. cbn [mbind option_bind].
  match goal with |- Some (?x, _) = _ /\ _ => assert (x = st) as -> end.
  { unfold status. cbn [tb_status_ set_tb_status blob_builder_ set_base]. rewrite Hbb, Hb. by destruct st. }
  by split.
Qed.

(** When a blob file cannot be finished, the table builder deletes the file
    but keeps the builder without its handle: the next call of [Finish] or
    [Abandon] goes through a null pointer. [Add] finishes a file when it has
    reached its target size, so a failing write there takes the process down. *)
Theorem failed_blob_file_crashes s builder n st b1 ctxs :
  blob_builder_ (table s) = Some builder -> blob_handle_ (table s) = Some n -> tb_status_ (table s) = OK ->
  mutex_held (db s) = false -> BlobFileBuilder.Finish t copts builder [] = Some (st, b1, ctxs) -> st <> OK ->
  Forall ctx_good ctxs ->
  exists s', FinishBlobFile env t copts base_status target_level s = Some s' /\
    Abandon env s' = None /\ Finish env t copts base_status cf target_level s' = None.
Proof.
  intros Hbb Hh Hs Hm Hf Hst Hg. pose proof (builder_Finish_status _ _ _ _ _ _ _ Hf) as Hst1.
  unfold FinishBlobFile at 1. rewrite Hbb, Hf. cbn [mbind option_bind]. rewrite AddBlobResultsToBase_spec by done. cbn [mbind option_bind].
  change (blob_handle_ (add_entries _ _)) with (blob_handle_ (table s)). rewrite Hh. cbn [mbind option_bind].
  replace (ok st) with false by by destruct st. cbn [andb]. unfold BatchDeleteFiles, Lock. rewrite Hm. cbn [mbind option_bind].
  eexists. split; [reflexivity|]. split; [done|]. unfold Finish, FinishBlobFile. cbn [table blob_builder_ set_blob].
  assert (BlobFileBuilder.Finish t copts b1 [] = Some (st, b1, [])) as ->.
  { unfold BlobFileBuilder.Finish. rewrite Hst1. by replace (ok st) with false by by destruct st. }
  done.
Qed.
End Errors.
