(* ===== verification/TableBuilderExample.v ===== *)
(** * TableBuilderExample: a compaction on a concrete database

    A small value, a large one, a deletion, an index into an old blob file whose
    value is merged into the new one, and another large value. *)
From S2P Require Import Prelude Coding Crc32c InternalKey BitMap BlobFileMeta TitanStats Options VersionEdit BlobStorage BlobStorageProofs EditCollector EditCollectorProofs BlobFileSet BlobFileSetProofs BlobFileSetSpec GCPicker BlobFileBuilder BlobFileBuilderProofs BlobFileReader BlobFileReaderProofs BlobFileIterator BlobFileIteratorProofs BlobFileSpec BlobStorageRead GCJob GCJobRun GCJobProofs GCJobExample TableBuilder TableBuilderProofs TableBuilderSpec BlobFormat.

Local Open Scope Z_scope.
Local Open Scope aegon_scope.

#[local] Existing Instance BytewiseComparator.
#[local] Existing Instance demo_library.
#[local] Existing Instance demo_library_laws.

Definition table_env : Surroundings := {|
  others_lsm n tr := tr; others_files n p := p;
  read_error n := OK; write_error n := OK; shuting_down_ n := false; IsDropped n := false;
  NewBlobFileReader n := if n =? 2 then Ret (stored job_contents []) else Fail NotFound;
  NewWritableFile n := Ret new_file;
  Sync n := OK; Close n := OK; Fsync := OK; DeleteFile n := OK; log_io n := io_ok; FlushWAL := OK;
  GetLatestSequenceNumber := 100 |}.

Definition table_old : BlobFileMeta :=
  set_live_data_size (set_state (BlobFileMeta_new 2 155 3 0 [1] [4]) kNormal) 66.

Definition table_files : BlobFileSet * Disk :=
  match LogAndApply (C := BytewiseComparator) io_ok (NewFileNumber example_opened.1).2 example_opened.2
          (mkEdit false 0 0 [table_old] []) with
  | Some (_, s, d) => (s, d)
  | None => example_opened
  end.

Definition table_world : World := mkWorld ∅ table_files.1 table_files.2 ∅ OK false 0.

Definition table_sizes (n : Z) : Z := if n =? 2 then 155 else 0.

(** Values of four bytes and more go to blob files of at least 60 bytes, and
    indexes are merged. *)
Definition table_options : TitanCFOptions :=
  let o := TitanCFOptions_default 7 in
  mkCFOptions (num_levels o) 4 1 60 (max_gc_batch_size o)
    (min_gc_batch_size o) (blob_file_discardable_ratio o) (merge_small_file_threshold o) (blob_run_mode o) true
    (range_merge o) (max_sorted_runs o) (skip_value_in_compaction_filter o) (use_bitmap o) (gc_offload o) (binary_file_path o).

Definition internal (k : bytes) (seq type : Z) : bytes := k ++ PutFixed64 (seq * 256 + type).

Definition old_index : BlobIndex := blob_index 2 {| offset := 56; size := 22; index := 2 |}.

Definition table_entries : list (bytes * bytes) :=
  [(internal [1] 5 1, [7]); (internal [2] 6 1, value (demo_record 2)); (internal [3] 7 0, []);
   (internal [4] 8 17, BlobIndex_EncodeTo old_index); (internal [5] 9 1, value (demo_record 5))].

Definition base_fine (b : BaseBuilder) : Status := OK.

Definition table_start : Building := mkBuilding TitanTableBuilder_new table_world (∅, None).

Lemma job_contents_size : zlen job_contents = 155.
Proof. vm_compute. reflexivity. Qed.

Lemma job_records_ok : Forall (fun p : BlobRecord * BlobHandle => record_ok p.1) (zip (records demo_ops) job_handles).
Proof.
  assert (forall (rs : list BlobRecord) (hs : list BlobHandle), Forall record_ok rs -> Forall (fun p => record_ok p.1) (zip rs hs)) as Hzip.
  { induction rs as [|r rs IH]; intros [|h hs] Hall; try constructor; apply Forall_cons in Hall as [Hr Hall]; [exact Hr|by apply IH]. }
  apply Hzip. exact demo_records_ok.
Qed.

Lemma table_open : exists footer dict,
  BlobFileReader_Open None (stored job_contents []) 155 = Some (Ret (mkReader (stored job_contents []) [] footer dict)) /\
  reads 1 (mkReader (stored job_contents []) [] footer dict) (zip (records demo_ops) job_handles).
Proof.
  destruct job_input as (dict & Hd & Hf).
  destruct (BlobFileReader_Open_file 1 None 2 dict _ job_contents [] Hf) as (footer & Ho); [done|].
  rewrite job_contents_size in Ho. exists footer, dict. split; [exact Ho|]. split.
  - exists 2, job_contents, []. exact (conj eq_refl Hf).
  - exact job_records_ok.
Qed.

Lemma table_reader rd : opens (NewBlobFileReader table_env) None table_sizes 2 rd ->
  exists buffer, ReadRecord rd (blob_handle old_index) = Some (Ret (demo_record 4, buffer)).
Proof.
  intros (file & Hfile & Ho). injection Hfile as <-. destruct table_open as (footer & dict & Ho' & Hr).
  change (table_sizes 2) with 155 in Ho. rewrite Ho' in Ho. injection Ho as <-.
  assert ((demo_record 4, blob_handle old_index) ∈ zip (records demo_ops) job_handles) as Hin
    by (cbn; right; right; by left).
  assert (is_byte 1) as Hb by (split; [discriminate|reflexivity]).
  destruct (ReadRecord_spec 1 Hb _ _ _ _ Hr Hin) as (buffer & Hrec & _). exists buffer. exact Hrec.
Qed.

Lemma demo_writable n : n = 2 \/ n = 4 \/ n = 5 -> writable 1 (demo_record n).
Proof.
  intros Hn. split; [|split; [done|]].
  - intros dd. destruct Hn as [->|[->| ->]]; vm_compute; by eexists.
  - destruct Hn as [->|[->| ->]]; (split; [done|]); cbn; split; repeat (apply Forall_cons; split; [done|]); constructor.
Qed.

Lemma kept_ok e ik :
  is_bytes e.1 -> ParseInternalKey e.1 = Some (Ret ik) -> type ik <> kTypeBlobIndex ->
  (type ik = kTypeValue -> 4 <= zlen e.2 -> writable 1 {| key := user_key ik; value := e.2 |}) ->
  entry_ok table_env 1 None 0 table_options 1 6 table_sizes table_files.1 e.
Proof.
  intros Hb Hp Ht Hw. split; [exact Hb|]. exists ik. split; [exact Hp|]. split; [intros He; contradiction|].
  intros v Htk. destruct Htk as [_ Hv Hm|i rest r _ Hv]; [by apply Hw|contradiction].
Qed.

Lemma old_index_reads r : reads_as (NewBlobFileReader table_env) None table_sizes old_index r -> r = demo_record 4.
Proof.
  intros (rd & buffer & Ho & Hr). destruct (table_reader rd Ho) as (b & Hr'). rewrite Hr' in Hr. by injection Hr.
Qed.

Lemma table_entries_ok : Forall (entry_ok table_env 1 None 0 table_options 1 6 table_sizes table_files.1) table_entries.
Proof.
  assert (forall k q ty, is_bytes k -> is_bytes (internal k q ty)) as Hint.
  { intros k q ty Hk. apply is_bytes_app; [exact Hk|]. apply is_bytes_PutFixed64. }
  assert (forall n, 0 <= n < 256 -> is_bytes [n]) as Hone by (intros n Hn; apply Forall_singleton; exact Hn).
  unfold table_entries. repeat apply Forall_cons_2; [| | | | |constructor].
  - apply (kept_ok _ (mkParsed [1] 5 1)); [apply Hint, Hone; lia|reflexivity|discriminate|intros _ Hc; by cbn in Hc].
  - apply (kept_ok _ (mkParsed [2] 6 1)); [apply Hint, Hone; lia|reflexivity|discriminate|intros _ _; apply (demo_writable 2); tauto].
  - apply (kept_ok _ (mkParsed [3] 7 0)); [apply Hint, Hone; lia|reflexivity|discriminate|intros Hc; discriminate Hc].
  - split; [apply Hint, Hone; lia|]. exists (mkParsed [4] 8 17). split; [reflexivity|].
    assert (BlobIndex_DecodeFrom BlobIndex_default (BlobIndex_EncodeTo old_index) = Ret (old_index, [])) as Hd by (vm_compute; reflexivity).
    split.
    + intros _. exists old_index, []. split; [exact Hd|]. split; [unfold is_u64; cbn; lia|].
      intros rd Ho. destruct (table_reader rd Ho) as (b & Hr). eexists. exact Hr.
    + intros v Htk. inversion Htk as [_ Hv|i rest r _ _ _ _ Hi _ Hr]; [discriminate Hv|]. subst v. cbn [snd] in Hi.
      rewrite Hd in Hi. injection Hi as <- <-. rewrite (old_index_reads r Hr). apply (demo_writable 4). tauto.
  - apply (kept_ok _ (mkParsed [5] 9 1)); [apply Hint, Hone; lia|reflexivity|discriminate|intros _ _; apply (demo_writable 5); tauto].
Qed.

Lemma opened_files_good : files_good 0 ∅ 7 False (NewFileNumber example_opened.1).2 example_opened.2.
Proof.
  destruct (reachable_ok _ _ example_initial (rtc_refl _ _)) as [Hwf _]. split.
  - exact Hwf.
  - vm_compute. by eexists.
  - vm_compute. split; [discriminate|reflexivity].
  - intros [].
  - intros n Hn. set_solver.
  - exists (BlobStorage_new (TitanCFOptions_default 7) 0). split; [vm_compute; reflexivity|]. split; [vm_compute; discriminate|].
    intros n m Hm. vm_compute in Hm. discriminate Hm.
Qed.

Lemma table_files_good : files_good 0 ∅ 7 False table_files.1 table_files.2.
Proof.
  destruct (LogAndApply_good 0 ∅ 7 False io_ok _ _ (mkEdit false 0 0 [table_old] []) opened_files_good eq_refl)
    as (st & s' & d' & Hl & Hg & _); [|done|].
  - intros f ->%list_elem_of_singleton. split; [reflexivity|]. split; (split; [vm_compute; discriminate|reflexivity]).
  - unfold table_files. rewrite Hl. exact Hg.
Qed.

Lemma table_files_sized : sized 0 table_sizes table_files.1.
Proof.
  intros b n m Hb Hm. assert (files_ b = {[2 := table_old]}) as Hf.
  { assert (files_ <$> column_families_ table_files.1 !! 0 = Some {[2 := table_old]}) as He by (vm_compute; reflexivity).
    rewrite Hb in He. by injection He. }
  rewrite Hf in Hm. apply lookup_singleton_Some in Hm as [<- <-]. vm_compute. reflexivity.
Qed.

Lemma table_setting : building_setting (C := BytewiseComparator) table_env 1 demo_copts base_fine None 0 table_options 1 6
  table_sizes 7 table_entries table_world ∅.
Proof.
  split; try done.
  - exact demo_config_ok.
  - intros n s d Hg. split; [exact Hg|]. cbn. lia.
  - intros n file Hf. cbn [NewBlobFileReader table_env] in Hf. destruct (Z.eqb_spec n 2) as [->|_]; [|discriminate Hf].
    injection Hf as <-. destruct table_open as (footer & dict & Ho & _). eexists. exact Ho.
  - exact table_files_good.
  - exact table_files_sized.
  - exact table_entries_ok.
Qed.

Definition table_result : option (Status * Building) :=
  build_table table_env 1 demo_copts base_fine None 0 table_options 1 6 table_start table_entries.

(** The compaction succeeds: the large values and the merged one are in the new
    file 3, the small value and the deletion are as they were. *)
Lemma table_builder_carries_witness :
  exists s, table_result = Some (OK, s) /\
    Forall2 (carried table_env None 0 table_options 1 6 table_sizes table_files.1 (finished_blobs_ (table s))) table_entries
      (base_entries (base_builder_ (table s))) /\
    has_files 0 (blob_file_set_ (db s)) (map fst (finished_blobs_ (table s))) /\
    map fst (base_entries (base_builder_ (table s))) =
      [internal [1] 5 1; internal [2] 6 17; internal [3] 7 0; internal [4] 8 17; internal [5] 9 17] /\
    map (fun e => bool_decide (e ∈ table_entries)) (base_entries (base_builder_ (table s))) = [true; false; true; false; false].
Proof.
  destruct (table_builder_carries table_env 1 demo_copts base_fine None 0 table_options 1 6 table_sizes 7 table_entries
    table_world ∅ table_setting) as (st & s & Hb & Hc & _ & _ & Hf).
  assert ((fun p => (p.1, map fst (base_entries (base_builder_ (table p.2))),
      map (fun e => bool_decide (e ∈ table_entries)) (base_entries (base_builder_ (table p.2))))) <$> table_result =
    Some (OK, [internal [1] 5 1; internal [2] 6 17; internal [3] 7 0; internal [4] 8 17; internal [5] 9 17],
      [true; false; true; false; false])) as Hr
    by (vm_compute; reflexivity).
  assert (table_result = Some (st, s)) as Hres by exact Hb.
  rewrite Hres in Hr. cbn [fmap option_fmap option_map fst snd] in Hr. injection Hr as Hst Hk Hsame. subst st.
  exists s. split; [exact Hres|]. split; [exact Hc|]. split; [exact (Hf eq_refl)|]. split; [exact Hk|exact Hsame].
Defined.

(** ** Failures *)

(** No file can be created. *)
Definition full_env : Surroundings := {|
  others_lsm n tr := tr; others_files n p := p;
  read_error n := OK; write_error n := OK; shuting_down_ n := false; IsDropped n := false;
  NewBlobFileReader n := Fail NotFound; NewWritableFile n := Fail IOError;
  Sync n := OK; Close n := OK; Fsync := OK; DeleteFile n := OK; log_io n := io_ok; FlushWAL := OK;
  GetLatestSequenceNumber := 100 |}.

(** The flush of a large value and a small one loses both and reports success. *)
Lemma failed_new_file_loses_entries_witness :
  exists s1 s2,
    add_all full_env 1 demo_copts base_fine None 0 table_options 1 0 table_start
      [(internal [2] 6 1, value (demo_record 2)); (internal [3] 7 1, [7])] = Some s1 /\
    status base_fine (table s1) = IOError /\
    TableBuilder.Finish full_env 1 demo_copts base_fine 0 0 s1 = Some (OK, s2) /\
    base_entries (base_builder_ (table s2)) = [].
Proof.
  destruct (failed_new_file_loses_entries full_env 1 demo_copts base_fine None 0 table_options 1 0 7 table_start
    (internal [2] 6 1) (value (demo_record 2)) (mkParsed [2] 6 1) [(internal [3] 7 1, [7])] IOError)
    as (s1 & s2 & st & w & Ha & Hs & Hb & Hf & He & _).
  - reflexivity.
  - reflexivity.
  - reflexivity.
  - reflexivity.
  - reflexivity.
  - reflexivity.
  - vm_compute. discriminate.
  - reflexivity.
  - discriminate.
  - intros n s d Hg. split; [exact Hg|]. cbn. lia.
  - reflexivity.
  - exact table_files_good.
  - vm_compute. discriminate.
  - constructor.
  - assert (fst <$> (s ← add_all full_env 1 demo_copts base_fine None 0 table_options 1 0 table_start
      [(internal [2] 6 1, value (demo_record 2)); (internal [3] 7 1, [7])];
      TableBuilder.Finish full_env 1 demo_copts base_fine 0 0 s) = Some OK) as Hr by (vm_compute; reflexivity).
    rewrite Ha in Hr. cbn [mbind option_bind] in Hr. rewrite Hf in Hr. cbn in Hr. injection Hr as ->.
    exists s1, s2. split; [exact Ha|]. split; [exact Hs|]. split; [exact Hf|]. exact He.
Defined.

(** The fourth write to a file fails: the header and the two parts of a record
    have been written, the footer has not. *)
Definition failing_env : Surroundings := {|
  others_lsm n tr := tr; others_files n p := p;
  read_error n := OK; write_error n := OK; shuting_down_ n := false; IsDropped n := false;
  NewBlobFileReader n := Fail NotFound;
  NewWritableFile n := Ret (mkWriter [] 0 [mkWrite OK 0; mkWrite OK 0; mkWrite OK 0; mkWrite IOError 0]);
  Sync n := OK; Close n := OK; Fsync := OK; DeleteFile n := OK; log_io n := io_ok; FlushWAL := OK;
  GetLatestSequenceNumber := 100 |}.

Definition plain_copts : CompressionOptions := mkCompressionOptions 0 0.

Definition with_target (o : TitanCFOptions) (target : Z) : TitanCFOptions :=
  mkCFOptions (num_levels o) (min_blob_size o) (blob_file_compression o) target (max_gc_batch_size o)
    (min_gc_batch_size o) (blob_file_discardable_ratio o) (merge_small_file_threshold o) (blob_run_mode o) (level_merge o)
    (range_merge o) (max_sorted_runs o) (skip_value_in_compaction_filter o) (use_bitmap o) (gc_offload o) (binary_file_path o).

Definition one_added (target : Z) : option Building :=
  Add failing_env 1 plain_copts base_fine None 0 (with_target table_options target) 1 0 table_start
    (internal [2] 6 1) (value (demo_record 2)).

(** The file is full after the first record: [Add] fails to finish it, and the
    compaction can neither finish nor abandon its table. *)
Lemma failed_blob_file_crashes_witness :
  (exists s s', one_added 1000 = Some s /\ FinishBlobFile failing_env 1 plain_copts base_fine 0 s = Some s' /\
     Abandon failing_env s' = None /\ TableBuilder.Finish failing_env 1 plain_copts base_fine 0 0 s' = None) /\
  (s ← one_added 20; Some (status base_fine (table s), Abandon failing_env s)) = Some (IOError, None).
Proof.
  split; [|vm_compute; reflexivity].
  destruct (one_added 1000) as [s|] eqn:Es; [|exfalso; vm_compute in Es; discriminate Es].
  exists s. destruct (blob_builder_ (table s)) as [builder|] eqn:Eb.
  2:{ exfalso. vm_compute in Es. injection Es as <-. discriminate Eb. }
  destruct (failed_blob_file_crashes (C := BytewiseComparator) failing_env 1 plain_copts base_fine 0 0 s builder 3 IOError
    (match BlobFileBuilder.Finish 1 plain_copts builder [] with Some (_, b, _) => b | None => builder end) []) as (s' & Hf & Ha & Hn).
  - exact Eb.
  - vm_compute in Es. injection Es as <-. reflexivity.
  - vm_compute in Es. injection Es as <-. reflexivity.
  - vm_compute in Es. injection Es as <-. reflexivity.
  - vm_compute in Es. injection Es as <-. vm_compute in Eb. injection Eb as <-. vm_compute. reflexivity.
  - discriminate.
  - constructor.
  - exists s'. split; [reflexivity|]. split; [exact Hf|]. split; [exact Ha|exact Hn].
Defined.
