(* ===== verification/CheckpointExample.v ===== *)
(** * CheckpointExample: checkpoints of a small database

    The theorems of [CheckpointSpec] at concrete checkpoints: one across file
    systems, one with a link that fails, and one that cannot create its staging
    directory. *)
From S2P Require Import Prelude Coding BitMap BlobFileMeta TitanStats Options VersionEdit BlobStorage BlobStorageProofs EditCollector EditCollectorProofs BlobFileSet BlobFileSetProofs GCPicker BlobFileReader GCJob DBFiles Checkpoint BlobFileSetSpec CheckpointProofs CheckpointSpec.

Local Open Scope Z_scope.
Local Open Scope aegon_scope.

#[local] Existing Instance BytewiseComparator.

(** The other threads hand out file numbers and write a blob file. *)
Definition other_threads (x : BlobFileSet * Disk) : BlobFileSet * Disk :=
  (if fs_next_file_number_ x.1 <? 2 ^ 64 - 2 then (NewFileNumber x.1).2 else x.1, add_blob x.2 9).

Definition ckpt_env : Surroundings :=
  mkAround (fun _ t => t) (fun _ => other_threads) (fun _ => OK) (fun _ => OK) (fun _ => false) (fun _ => false)
    (fun _ => Fail IOError) (fun _ => Fail IOError) (fun _ => OK) (fun _ => OK) OK (fun _ => OK) (fun _ => io_ok) OK 1.

Lemma ckpt_busy : others_busy ckpt_env.
Proof.
  intros t s d p _. cbn [others_files ckpt_env]. unfold other_threads. cbn [fst snd].
  destruct (Z.ltb_spec (fs_next_file_number_ s) (2 ^ 64 - 2)).
  - eexists. eapply rtc_l; [apply (busy_write s d p 9)|]. eapply rtc_l; [|apply rtc_refl].
    apply busy_op; [by apply step_alloc| |]; cbn [w_set w_disk].
    + intros cf n H'. left. exact H'.
    + intros cf b Hb _. by exists b.
  - exists p. eapply rtc_l; [apply (busy_write s d p 9)|apply rtc_refl].
Qed.

Definition ckpt_world : World := GCJob.mkWorld ∅ example_logged.1 example_logged.2 ∅ OK false 0.

Lemma ckpt_file cf n : has_file example_logged.1 cf n -> cf = 0 /\ n = 2.
Proof.
  intros (b & Hb & Hs). destruct example_logged_files as [H0 Hf].
  assert (cf = 0) as ->.
  { symmetry. apply (lookup_singleton_is_Some (M := gmap Z) 0 cf tt).
    assert ((fun _ => tt) <$> column_families_ example_logged.1 = {[0 := tt]}) as <- by (vm_compute; reflexivity).
    rewrite lookup_fmap, Hb. by eexists. }
  rewrite H0 in Hb. apply Some_inj in Hb. subst b. rewrite Hf in Hs. apply lookup_singleton_is_Some in Hs. by split.
Qed.

Lemma ckpt_intact :
  intact (mkWorld (blob_file_set_ ckpt_world) (disk ckpt_world) (({[2]} ∪ ∅) ∖ added_numbers example_added)).
Proof.
  split; [exact (reachable_ok _ _ example_initial example_steps)|]. split.
  - intros cf n [_ ->]%ckpt_file. vm_compute. reflexivity.
  - intros cf n [_ ->]%ckpt_file. cbn [w_disk ckpt_world disk].
    assert (bool_decide (2 ∈ blobs_ example_logged.2) = true) as H by (vm_compute; reflexivity). by apply bool_decide_eq_true in H.
Qed.

Definition ckpt_io (link : Z -> Status) (dir : Status) : CheckpointIO :=
  mkCheckpointIO OK OK OK clean_ok dir OK OK link (fun _ => OK) io_ok OK None OK OK OK OK clean_ok.

Lemma ckpt_succeeds link : succeeds (ckpt_io link OK).
Proof. by split_and!. Qed.

(** ["/c/"], with a staging directory that an earlier checkpoint has left. *)
Definition ckpt_dir : bytes := [47; 99; 47].

Definition ckpt_fs : FileSystem := {[ [47; 99; 46; 116; 109; 112] := mkDirectory (mkDisk None ∅ {[7]}) ∅ (Some empty_directory) ]}.

Lemma ckpt_opens : opens_checkpoint (listed_set ckpt_env ckpt_world) example_cfs.
Proof.
  intros cf o Ho. unfold example_cfs in Ho. apply lookup_singleton_Some in Ho as [<- <-].
  exists example_logged_storage. split; [vm_compute; reflexivity|].
  intros n m Hm. rewrite (proj2 example_logged_files) in Hm. apply lookup_singleton_Some in Hm as [_ <-].
  vm_compute. split; [discriminate|reflexivity].
Qed.

Lemma checkpoint_restores_witness :
  exists w' fs' d, CreateCheckpoint ckpt_env (ckpt_io (fun _ => NotSupported) OK) [47; 98] ckpt_dir ckpt_world 0 ckpt_fs
      = Some (OK, w', 0, fs') /\
    exists s' d', Open io_ok (BlobFileSet_new None 5) d example_cfs = Some (OK, s', d') /\
      exists b', column_families_ s' !! 0 = Some b' /\ files_ b' !! 2 = Some (persistent example_blob) /\ 2 ∈ blobs_ d'.
Proof.
  destruct (checkpoint_restores ckpt_env (ckpt_io (fun _ => NotSupported) OK) [47; 98] ckpt_dir ckpt_world 0 ckpt_fs
    (({[2]} ∪ ∅) ∖ added_numbers example_added)) as (w' & fs' & d & Hc & _ & _ & Ho).
  - reflexivity.
  - discriminate.
  - exact ckpt_intact.
  - exact ckpt_busy.
  - apply ckpt_succeeds.
  - intros n. split; [by right|reflexivity].
  - reflexivity.
  - discriminate.
  - vm_compute. reflexivity.
  - left. reflexivity.
  - exists w', fs', d. split; [exact Hc|].
    destruct (Ho example_cfs None 5 ckpt_opens) as (s' & d' & Hop & Hf); [vm_compute; reflexivity|].
    exists s', d'. split; [exact Hop|]. apply (Hf 0 _ 2 example_blob (proj1 example_logged_files)); [|by eexists].
    rewrite (proj2 example_logged_files). reflexivity.
Defined.

Lemma checkpoint_hides_errors_witness :
  exists w' fs' d, CreateCheckpoint ckpt_env (ckpt_io (fun n => if n =? 2 then IOError else OK) OK) [47; 98] [] ckpt_world 0 ∅
      = Some (OK, w', 0, fs') /\ fs' !! place [47; 98] [] = Some (mkDirectory d ∅ None) /\
    exists s' d', Open io_ok (BlobFileSet_new None 5) d example_cfs = Some (OK, s', d') /\ (2 ∉ blobs_ d) /\
      exists b', column_families_ s' !! 0 = Some b' /\ files_ b' !! 2 = Some (persistent example_blob).
Proof.
  destruct (checkpoint_hides_errors ckpt_env (ckpt_io (fun n => if n =? 2 then IOError else OK) OK) [47; 98] [] ckpt_world 0 ∅
    (({[2]} ∪ ∅) ∖ added_numbers example_added)) as (w' & fs' & d & Hc & Hd & _ & Ho & _).
  - reflexivity.
  - discriminate.
  - exact ckpt_intact.
  - exact ckpt_busy.
  - apply ckpt_succeeds.
  - intros n. cbn. destruct (n =? 2); discriminate.
  - discriminate.
  - reflexivity.
  - left. reflexivity.
  - exists w', fs', d. split; [exact Hc|]. split; [exact Hd|].
    destruct (Ho eq_refl example_cfs None 5 ckpt_opens) as (s' & d' & Hop & Hf); [vm_compute; reflexivity|].
    exists s', d'. split; [exact Hop|].
    apply (Hf 0 _ 2 example_blob (proj1 example_logged_files)); [|by eexists|discriminate].
    rewrite (proj2 example_logged_files). reflexivity.
Defined.

Definition ckpt_failed : option (Status * World * Disabled * FileSystem) :=
  CreateCheckpoint ckpt_env (ckpt_io (fun _ => OK) IOError) [47; 98] ckpt_dir ckpt_world 3 ckpt_fs.

Lemma checkpoint_outcomes_witness :
  exists w' fs', ckpt_failed = Some (IOError, w', 3, fs') /\ fs' !! place [47; 98] ckpt_dir = None.
Proof.
  assert (ckpt_failed = Some (IOError, others ckpt_env ckpt_world, 3, ∅)) as H by (vm_compute; reflexivity).
  exists (others ckpt_env ckpt_world), ∅. split; [exact H|].
  destruct (checkpoint_outcomes ckpt_env (ckpt_io (fun _ => OK) IOError) [47; 98] ckpt_dir ckpt_world 3 ckpt_fs
    IOError (others ckpt_env ckpt_world) 3 ∅) as (_ & _ & _ & Hf).
  - discriminate.
  - exact H.
  - discriminate.
  - destruct Hf as [[Hp|[Hp|Hp]] _]; [discriminate| |by destruct Hp|by destruct Hp].
    rewrite Hp. vm_compute. reflexivity.
Defined.
