(* ===== verification/DBReadExample.v ===== *)
(** * DBReadExample: reads of a concrete database

    A snapshot is taken; a writer overwrites a key, a collection deletes the blob
    file with its old value, and obsolete files are purged before the value is
    read. *)
From S2P Require Import Prelude Coding Crc32c InternalKey BitMap BlobFileMeta TitanStats Options VersionEdit BlobStorage BlobStorageProofs EditCollector EditCollectorProofs BlobFileSet BlobFileSetProofs BlobFileSetSpec GCPicker BlobFileBuilder BlobFileBuilderProofs BlobFileReader BlobFileReaderProofs BlobFileIterator BlobFileIteratorProofs BlobFileSpec BlobStorageRead GCJob GCJobRun GCJobProofs GCJobExample TableBuilder TableBuilderProofs TableBuilderSpec TableBuilderExample DBFiles DBFilesProofs DBRead DBReadSpec BlobFormat.

Local Open Scope Z_scope.
Local Open Scope aegon_scope.

#[local] Existing Instance BytewiseComparator.
#[local] Existing Instance demo_library.
#[local] Existing Instance demo_library_laws.

(** The blob file 2 is deleted at the sequence number 10, and then everything
    older than the snapshot at 5 is purged. *)
Definition delete_two (p : BlobFileSet * Disk) : BlobFileSet * Disk :=
  match column_families_ p.1 !! 0, LogAndApply io_ok p.1 p.2 (mkEdit false 0 0 [] [(2, 10)]) with
  | Some _, Some (_, s, d) => (s, d)
  | _, _ => p
  end.

Definition purge_five (p : BlobFileSet * Disk) : BlobFileSet * Disk :=
  match GetObsoleteFiles p.1 5 with
  | Some (_, s) => (s, p.2)
  | None => p
  end.

Definition read_env : Surroundings := {|
  others_lsm n tr := if Nat.eqb n 1 then <[ [4] := mkLsm false [42] ]> tr else tr;
  others_files n p := if Nat.eqb n 2 then delete_two p else if Nat.eqb n 3 then purge_five p else p;
  read_error n := OK; write_error n := OK; shuting_down_ n := false; IsDropped n := false;
  NewBlobFileReader n := if n =? 2 then Ret (stored job_contents []) else Fail NotFound;
  NewWritableFile n := Ret new_file;
  Sync n := OK; Close n := OK; Fsync := OK; DeleteFile n := OK; log_io n := io_ok; FlushWAL := OK;
  GetLatestSequenceNumber := 100 |}.

Definition read_lsm : gmap bytes LsmValue := {[ [3] := mkLsm false [7]; [4] := mkLsm true (BlobIndex_EncodeTo old_index) ]}.

Definition read_start : Reading := mkReading (mkWorld read_lsm table_files.1 table_files.2 ∅ OK false 0) (∅, None).

Definition other_readers (n : nat) (c : Caches) : Caches := c.

Lemma old_index_decodes : BlobIndex_DecodeFrom BlobIndex_default (BlobIndex_EncodeTo old_index) = Ret (old_index, []).
Proof. vm_compute. reflexivity. Qed.

Lemma read_lsm_index k v : read_lsm !! k = Some v -> is_blob_index v = true -> k = [4] /\ v = mkLsm true (BlobIndex_EncodeTo old_index).
Proof.
  unfold read_lsm. intros Hv Hi. apply (lookup_insert_Some (M := gmap bytes)) in Hv as [[<- <-]|[_ Hv]]; [discriminate Hi|].
  apply (lookup_singleton_Some (M := gmap bytes)) in Hv as [<- <-]. by split.
Qed.

Lemma read_lsm_refers n : refers_to read_lsm n -> n = 2.
Proof.
  intros (k & v & i & Hv & [Hi Hd] & <-). destruct (read_lsm_index k v Hv Hi) as [_ ->].
  cbn [lsm_value] in Hd. rewrite old_index_decodes in Hd. injection Hd as <-. reflexivity.
Qed.

Lemma read_reader rd : opens (NewBlobFileReader read_env) None table_sizes 2 rd -> opens (NewBlobFileReader table_env) None table_sizes 2 rd.
Proof. intros H. exact H. Qed.

Lemma delete_two_meanwhile (P : Z -> Prop) s d : rtc (meanwhile 5 0 P table_sizes) (s, d) (delete_two (s, d)).
Proof.
  unfold delete_two. cbn [fst snd]. destruct (column_families_ s !! 0) as [b|] eqn:Hb; [|apply rtc_refl].
  destruct (LogAndApply _ _ _ _) as [[[st s'] d']|] eqn:Hl; [|apply rtc_refl]. apply rtc_once.
  apply (mw_log 5 0 P table_sizes io_ok s d (mkEdit false 0 0 [] [(2, 10)]) b st); [exact Hb|..|exact Hl].
  - by intros f ?%elem_of_nil.
  - by intros _ f ?%elem_of_nil.
  - intros _ n seq [= -> ->]%list_elem_of_singleton _. lia.
Qed.

Lemma purge_five_meanwhile (P : Z -> Prop) s d : rtc (meanwhile 5 0 P table_sizes) (s, d) (purge_five (s, d)).
Proof.
  unfold purge_five. cbn [fst snd]. destruct (GetObsoleteFiles s 5) as [[names s']|] eqn:Hg; [|apply rtc_refl].
  apply rtc_once. by apply (mw_purge 5 0 P table_sizes s d d 5 names).
Qed.

Lemma read_holding : holding read_env None other_readers table_sizes 5 0 read_lsm.
Proof.
  split.
  - intros n file Hf. cbn [NewBlobFileReader read_env] in Hf. destruct (Z.eqb_spec n 2) as [->|_]; [|discriminate Hf].
    injection Hf as <-. destruct table_open as (footer & dict & Ho & _). eexists. exact Ho.
  - intros k v Hv Hi. destruct (read_lsm_index k v Hv Hi) as [_ ->]. exists old_index.
    split; [split; [done|exact old_index_decodes]|]. split; [unfold is_u64; cbn; lia|].
    intros rd Ho. destruct (table_reader rd Ho) as (buffer & Hr). eexists. exact Hr.
  - intros n s d. cbn [others_files read_env]. destruct (Nat.eqb n 2); [apply delete_two_meanwhile|].
    destruct (Nat.eqb n 3); [apply purge_five_meanwhile|apply rtc_refl].
  - intros n fc Hfc. by exists fc.
Qed.

Lemma read_held : held read_env None table_sizes 5 0 read_lsm (take_snapshot read_env read_start).2.
Proof.
  split; [done| |done|done]. cbn [rs_db take_snapshot snd blob_file_set_ set_lsm read_start].
  destruct table_files_good as [Hwf Hk [Hn _] _ _ _].
  assert ((fun b => (destroyed_ b, files_ b)) <$> column_families_ table_files.1 !! 0 = Some (false, {[2 := table_old]})) as Hb
    by (vm_compute; reflexivity).
  apply fmap_Some in Hb as (b & Hb & Hfb). injection Hfb as Hd Hf.
  apply (live_guarded 5 0 (refers_to read_lsm) table_sizes table_files.1 b); [exact Hwf|exact Hk|exact Hn|exact Hb|by symmetry| |].
  - exact (fun n m Hm => table_files_sized b n m Hb Hm).
  - intros n ->%read_lsm_refers. exists table_old. rewrite <- Hf. split; [apply lookup_singleton_eq|reflexivity].
Qed.

(** The state of the blob file 2. *)
Definition two_obsolete (s : Reading) : option bool :=
  b ← GetBlobStorage (blob_file_set_ (rs_db s)) 0; is_obsolete <$> files_ b !! 2.

(** The overwritten value is read from the obsolete file; the other keys are as
    they were. *)
Lemma snapshot_reads_exact_witness :
  exists s', MultiGet read_env None other_readers None read_start [0; 0; 0] [[4]; [3]; [9]] =
    Some ([Ret (value (demo_record 4)); Ret [7]; Fail NotFound], s') /\ two_obsolete s' = Some true.
Proof.
  destruct (snapshot_reads_exact read_env None other_readers table_sizes 5 0 None read_start [0; 0; 0] [[4]; [3]; [9]]
    read_holding read_held eq_refl ltac:(repeat constructor)) as (rs & s' & Hm & _ & Hrs & _).
  assert ((fun p => (fst p, two_obsolete (snd p))) <$> MultiGet read_env None other_readers None read_start [0; 0; 0] [[4]; [3]; [9]] =
    Some ([Ret (value (demo_record 4)); Ret [7]; Fail NotFound], Some true)) as Hc by (vm_compute; reflexivity).
  rewrite Hm in Hc. cbn [fmap option_fmap option_map fst snd] in Hc. injection Hc as -> Hc.
  exists s'. split; [exact Hm|exact Hc].
Defined.

(** ** A purge whose deletion fails *)

Definition any_order : relation FileName := fun _ _ => True.

#[local] Instance any_order_decision : RelDecision any_order.
Proof. intros x y. left. exact I. Defined.

Definition cannot_delete (f : FileName) : Status := IOError.

Definition purge_start : World :=
  mkWorld ∅ (delete_two table_files).1 (delete_two table_files).2 ∅ OK false 0.

Lemma delete_two_wf : set_wf (delete_two table_files).1.
Proof.
  destruct table_files_good as [Hwf [k Hk] [Hn _] _ _ (b & Hb & _ & Hl)]. unfold delete_two. rewrite Hb.
  destruct (LogAndApply_spec io_ok table_files.1 table_files.2 (mkEdit false 0 0 [] [(2, 10)]) b k Hwf Hk Hn Hb)
    as [[_ ->]|[(_ & _ & ->)|[(_ & _ & _ & ->)|(_ & _ & _ & cfs & st & b' & -> & Hwf' & _)]]]; [|exact Hwf..|exact Hwf'].
  by intros f ?%elem_of_nil.
Qed.

(** The file is gone from the storage and still on the disk. *)
Lemma purge_exact_witness :
  exists w', PurgeObsoleteFilesImpl read_env any_order cannot_delete purge_start 0 [11] = Some (OK, w') /\ 2 ∈ blobs_ (disk w') /\
    option_map (fun b => base.size (files_ b)) (GetBlobStorage (blob_file_set_ w') 0) = Some 0%nat.
Proof.
  destruct (purge_exact read_env any_order cannot_delete purge_start 0 [11] eq_refl delete_two_wf) as [_ Hp].
  destruct (Hp (Z.le_refl 0)) as (w' & _ & Hw' & Hd & _). exists w'. split; [exact Hw'|]. split.
  - apply Hd. split; [|by intros [_ Hc]]. apply (bool_decide_unpack _). vm_compute. exact I.
  - assert (option_map (fun p => option_map (fun b => base.size (files_ b)) (GetBlobStorage (blob_file_set_ (snd p)) 0))
      (PurgeObsoleteFilesImpl read_env any_order cannot_delete purge_start 0 [11]) = Some (Some 0%nat)) as Hc by (vm_compute; reflexivity).
    rewrite Hw' in Hc. cbn [option_map snd] in Hc. injection Hc as Hc. exact Hc.
Defined.
