(* ===== verification/DBIterExample.v ===== *)
(** * DBIterExample: an iterator of a concrete database

    A reference iterator of the base database - the entries in key order and a
    position - and an iteration over the snapshot of [DBReadExample]. *)
From stdpp Require Import sorting.
From S2P Require Import Prelude Coding Crc32c InternalKey BitMap BlobFileMeta TitanStats Options VersionEdit BlobStorage BlobStorageProofs EditCollector EditCollectorProofs BlobFileSet BlobFileSetProofs BlobFileSetSpec GCPicker BlobFileBuilder BlobFileBuilderProofs BlobFileReader BlobFileReaderProofs BlobFileIterator BlobFileIteratorProofs BlobFileSpec BlobStorageRead GCJob GCJobRun GCJobProofs GCJobExample TableBuilder TableBuilderProofs TableBuilderSpec TableBuilderExample DBFiles DBFilesProofs DBRead DBReadSpec DBReadExample BlobFormat DBIter DBIterSpec.

Local Open Scope Z_scope.
Local Open Scope aegon_scope.

#[local] Existing Instance BytewiseComparator.
#[local] Existing Instance demo_library.
#[local] Existing Instance demo_library_laws.

(** ** The entries in order *)

Definition key_le (x y : bytes * LsmValue) : Prop := Compare x.1 y.1 <= 0.

#[local] Instance key_le_decision : RelDecision key_le.
Proof. intros x y. unfold key_le. apply _. Defined.

Definition Entries : Type := list (bytes * LsmValue) * nat.

Definition entry_at (i : Entries) : bytes * LsmValue := default ([], mkLsm false []) (i.1 !! i.2).

Definition move_entries (m : Move) (i : Entries) : Entries :=
  let '(l, n) := i in
  (l, match m with
      | SeekToFirst => 0%nat
      | SeekToLast => pred (length l)
      | Seek target => length (filter (fun e : bytes * LsmValue => Compare e.1 target < 0) l)
      | SeekForPrev target =>
          match length (filter (fun e : bytes * LsmValue => Compare e.1 target <= 0) l) with O => length l | S k => k end
      | Next => S n
      | Prev => match n with O => length l | S k => k end
      end).

#[local] Instance list_iterator : InnerIterator := {|
  inner := Entries;
  NewInner t := let l := merge_sort key_le (map_to_list t) in (l, length l);
  inner_move := move_entries;
  inner_Valid i := bool_decide (i.2 < length i.1)%nat;
  inner_IsBlob i := is_blob_index (entry_at i).2;
  inner_key i := (entry_at i).1;
  inner_value i := lsm_value (entry_at i).2;
  inner_status _ := OK;
  inner_seqno _ := None |}.

Lemma over_entries t i : inner_over t i -> i.1 = merge_sort key_le (map_to_list t).
Proof. induction 1 as [|m [l n] _ IH _]; [done|]. exact IH. Qed.

#[local] Instance list_iterator_laws : InnerIteratorLaws list_iterator.
Proof.
  split; [intros t; apply bool_decide_eq_false_2; cbn; lia|].
  intros t [l n] Ho%over_entries Hv%bool_decide_eq_true_1. split; [done|]. cbn in Ho, Hv. subst l.
  apply lookup_lt_is_Some in Hv as [[k v] Hv]. cbn. unfold entry_at. cbn. rewrite Hv. cbn.
  apply list_elem_of_lookup_2 in Hv. rewrite merge_sort_Permutation in Hv.
  apply (elem_of_map_to_list (M := gmap bytes)) in Hv. rewrite Hv. by destruct v.
Qed.

(** ** The iteration *)

Lemma read_files_proper : files_proper (NewBlobFileReader read_env).
Proof.
  intros n. cbn [NewBlobFileReader read_env]. destruct (n =? 2); [|split; [done|discriminate]]. split; [exact I|].
  intros file off k [= <-]. exact I.
Qed.

(** The keys and values that an iterator shows after each move. *)
Definition shown (moves : list Move) : option (option bytes * option bytes * bool) :=
  '(it, s) ← NewIterator read_env None read_start false 0;
  it ← it;
  '(it, _) ← run read_env None other_readers moves s it;
  Some (DBIter.key it, DBIter.value it, Valid it).

Lemma iterator_exact_witness :
  (exists it s2, NewIterator read_env None read_start false 0 = Some (Some it, s2) /\
     exists it' s', run read_env None other_readers [SeekToFirst; Next] s2 it = Some (it', s') /\ shows read_env None table_sizes read_lsm it') /\
  shown [SeekToFirst; Next] = Some (Some [4], Some (BlobFormat.value (demo_record 4)), true) /\
  shown [SeekToLast; Prev] = Some (Some [3], Some [7], true) /\
  shown [Seek [5]] = Some (None, None, false).
Proof.
  split; [|split; [vm_compute; reflexivity|split; vm_compute; reflexivity]].
  destruct (iterator_exact read_env None other_readers table_sizes read_files_proper 5 0 None read_start false [SeekToFirst; Next]
    read_holding read_held) as (it & s2 & Hn & Hor).
  exists it, s2. split; [exact Hn|]. destruct Hor as [(it' & s' & Hr & _ & Hsh & _)|(pre & m & post & it' & s' & Hms & Hr & _ & Hv & Hb)].
  - exists it', s'. split; [exact Hr|exact Hsh].
  - exfalso. destruct pre as [|m0 [|m1 pre]]; cbn [app] in Hms.
    + injection Hms as Hm _. rewrite <- Hm in Hb. discriminate Hb.
    + injection Hms as Hm0 _ _. rewrite <- Hm0 in Hr.
      assert (shown [SeekToFirst] = Some (Some [3], Some [7], true)) as Hc by (vm_compute; reflexivity).
      unfold shown in Hc. rewrite Hn in Hc. cbn [mbind option_bind] in Hc. rewrite Hr in Hc. cbn [mbind option_bind] in Hc.
      rewrite Hv in Hc. discriminate Hc.
    + injection Hms as _ _ Hm. destruct pre; discriminate Hm.
Defined.
