(* ===== verification/CompactionFilterExample.v ===== *)
(** * CompactionFilterExample: filtering the values of a concrete database

    A filter that removes one value sees the value behind the index of the third
    record of a blob file, and never that of the first. *)
From S2P Require Import Prelude Coding Crc32c InternalKey BitMap BlobFileMeta TitanStats Options VersionEdit BlobStorage BlobStorageProofs EditCollector EditCollectorProofs BlobFileSet BlobFileSetProofs BlobFileSetSpec GCPicker BlobFileBuilder BlobFileBuilderProofs BlobFileReader BlobFileReaderProofs BlobFileIterator BlobFileIteratorProofs BlobFileSpec BlobStorageRead GCJob GCJobRun GCJobProofs GCJobExample TableBuilder TableBuilderProofs TableBuilderSpec TableBuilderExample DBFiles DBFilesProofs DBRead DBReadSpec DBReadExample CompactionFilter CompactionFilterSpec BlobFormat.

Local Open Scope Z_scope.
Local Open Scope aegon_scope.

#[local] Existing Instance BytewiseComparator.
#[local] Existing Instance demo_library.
#[local] Existing Instance demo_library_laws.

(** Removes the value of the fourth demo record. *)
Definition remove_fourth : Filter := fun _ _ _ _ v out =>
  if bool_decide (v = BlobFormat.value (demo_record 4)) then (kRemove, out) else (kKeep, out).

Definition user_filter : TitanCompactionFilter :=
  mkFilter 0 (BlobStorage_new (TitanCFOptions_default 7) 0) remove_fourth false.

Definition no_outputs : Outputs := mkOutputs [] [].

Definition first_index : BlobIndex := blob_index 2 {| offset := 12; size := 22; index := 0 |}.

Lemma filter_refuses_first_record_witness :
  exists s', FilterV3 read_env None other_readers user_filter read_start 1 [4] 8 kBlobIndex (BlobIndex_EncodeTo first_index) [] no_outputs
      = Some (kKeep, no_outputs, s') /\ HasBGError (rs_db s') = true.
Proof.
  destruct (filter_refuses_first_record read_env None other_readers user_filter read_start 1 [4] 8 first_index [] no_outputs)
    as (s' & Hf & Hb & _); [reflexivity|reflexivity|split; reflexivity|split; reflexivity|split; reflexivity|reflexivity|].
  exists s'. split; [exact Hf|exact Hb].
Defined.

Lemma old_index_no_zero : Forall (fun b : Z => b <> 0) (BlobIndex_EncodeTo old_index).
Proof. apply no_zero_index; [split; reflexivity|split; split; reflexivity|reflexivity]. Qed.

Lemma filter_may_read : may_read read_env None other_readers table_sizes user_filter read_start old_index.
Proof.
  destruct (guarded_storage _ _ _ _ _ (he_files _ _ _ _ _ _ _ read_held)) as (b & Hb & Hsz & _).
  split.
  - reflexivity.
  - reflexivity.
  - exact (he_cache _ _ _ _ _ _ _ read_held).
  - intros n fc Hfc. exists fc. by split.
  - assert (storage_now read_env user_filter read_start = b) as ->; [|exact Hsz].
    assert (GetBlobStorage (blob_file_set_ (others read_env (rs_db read_start))) 0 = Some b) as Hb' by exact Hb.
    unfold storage_now. cbn [filter_cf user_filter]. rewrite Hb'. reflexivity.
  - exact (ho_open _ _ _ _ _ _ _ read_holding).
  - split; [unfold is_u64; cbn; lia|]. intros rd Ho. destruct (table_reader rd Ho) as (buffer & Hr). eexists. exact Hr.
Qed.

Lemma filter_exact_witness :
  exists s', FilterV3 read_env None other_readers user_filter read_start 1 [4] 8 kBlobIndex
      (BlobIndex_EncodeTo old_index) [0] no_outputs = Some (kRemove, no_outputs, s') /\ HasBGError (rs_db s') = false.
Proof.
  destruct (filter_exact read_env None other_readers table_sizes user_filter read_start 1 [4] 8
    kBlobIndex (BlobIndex_EncodeTo old_index) old_index [] [] no_outputs filter_may_read old_index_no_zero old_index_decodes)
    as (d & out' & s' & Hf & _ & Hd).
  cbn [skip_value_ user_filter] in Hd. rewrite bool_decide_eq_true_2 in Hd by reflexivity.
  assert (remove_fourth 1 [4] 8 kValue (BlobFormat.value (demo_record 4)) no_outputs = (kRemove, no_outputs)) as He by (vm_compute; reflexivity).
  destruct Hd as [(r & d0 & _ & Hr & Ho & -> & Hdb & _)|(e & _ & Hk & _)].
  - assert (r = demo_record 4) as -> by exact (old_index_reads r Hr).
    cbn [original_filter_ user_filter] in Ho. rewrite He in Ho. injection Ho as <- <-.
    exists s'. split; [exact Hf|]. rewrite Hdb by discriminate. reflexivity.
  - exfalso. subst d.
    assert ((fun x : Decision * Outputs * Reading => x.1.1) <$> FilterV3 read_env None other_readers user_filter read_start 1 [4] 8
      kBlobIndex (BlobIndex_EncodeTo old_index) [0] no_outputs = Some kRemove) as Hc by (vm_compute; reflexivity).
    rewrite Hf in Hc. discriminate Hc.
Defined.

(** A file that has been collected and purged: the entry is kept, and there is no
    background error. *)
Lemma filter_of_collected_file :
  (fun x : Decision * Outputs * Reading => (x.1.1, HasBGError (rs_db x.2))) <$>
    FilterV3 read_env None other_readers user_filter read_start 1 [4] 8 kBlobIndex
      (BlobIndex_EncodeTo (blob_index 77 (blob_handle old_index))) [0] no_outputs = Some (kKeep, false).
Proof. vm_compute. reflexivity. Qed.
