(* ===== verification/HwKernel.v ===== *)
(** * HwKernel: the garbage-collection kernel of the accelerator

    [hardware/kernel/src]: [constant.h], [coding.h], [file_format.h] and
    [gc_kernel.cc]. A C pointer into a buffer is a buffer together with an
    offset. Every access is checked: [None] is an access outside the buffer it
    goes to, so a theorem that a function returns [Some] is also a theorem of
    memory safety. *)
From S2P Require Import Prelude Coding Crc32c.

Local Open Scope Z_scope.

Module Kernel.

Definition MAX_KEY_LENGTH : Z := 64.
Definition MAX_VALUE_LENGTH : Z := 8192.
Definition kBlobMaxHeaderSize : Z := 12.
Definition kBlobMinHeaderSize : Z := 8.
Definition kHeaderMagicNumber : Z := 736142868.
Definition kHeaderVersion1 : Z := 1.
Definition kHeaderVersion2 : Z := 2.
Definition kHasUncompressedDictionary : Z := 1.
Definition kRecordHeaderSize : Z := 9.
Definition kBlobFooterSize : Z := 32.
Definition kFooterMagicNumber : Z := 3161709545629806022.

(** ** [coding.h] *)

(** [for (i = 0; i < n; ++i) result |= byte << (8 * i)]; the result is in the
    range of its type because every byte is. *)
Fixpoint decode_fixed_loop (n : nat) (i : Z) (input : bytes) (p result : Z) : option Z :=
  match n with
  | O => Some result
  | S n =>
      b ← mem_read input p 1;
      byte ← head b;
      decode_fixed_loop n (i + 1) input (p + 1) (Z.lor result (Z.shiftl byte (8 * i)))
  end.

Definition DecodeFixed32 (input : bytes) (p : Z) : option Z := decode_fixed_loop 4 0 input p 0.
Definition DecodeFixed64 (input : bytes) (p : Z) : option Z := decode_fixed_loop 8 0 input p 0.

(** [*(buf++) = (value & (B - 1)) | B; value >>= 8;] with [B = 256]: the store
    into an [unsigned char] drops the bit that [| B] sets. *)
Fixpoint encode_fixed_loop (n : nat) (buf : bytes) (p value : Z) : option bytes :=
  match n with
  | O => Some buf
  | S n =>
      buf ← mem_write buf p [u8 (Z.lor (Z.land value 255) 256)];
      encode_fixed_loop n buf (p + 1) (Z.shiftr value 8)
  end.

Definition EncodeFixed32 (buf : bytes) (p value : Z) : option bytes :=
  encode_fixed_loop 4 buf p (u32 value).
Definition EncodeFixed64 (buf : bytes) (p value : Z) : option bytes :=
  encode_fixed_loop 8 buf p (u64 value).

(** The decoding loop of both widths: [value] and [offset] are the in-out
    arguments. When the loop ends without a last byte, [value] is unchanged. *)
Fixpoint decode_varint_loop (fuel : nat) (w max_shift : Z) (buf : bytes)
    (p limit shift result value offset : Z) : option (Z * Z) :=
  match fuel with
  | O => None
  | S fuel =>
      if (shift <=? max_shift) && (p <? limit) then
        b ← mem_read buf p 1;
        byte ← head b;
        if negb (Z.land byte 128 =? 0) then
          decode_varint_loop fuel w max_shift buf (p + 1) limit (shift + 7)
            (Z.lor result (Z.shiftl (Z.land byte 127) shift mod 2 ^ w)) value (offset + 1)
        else
          Some (Z.lor result (Z.shiftl byte shift mod 2 ^ w), offset + 1)
      else Some (value, offset)
  end.

(** Fuel 6 and 11: the loops stop after 5 and 10 rounds. *)
Definition DecodeVarint32 (buf : bytes) (p limit value offset : Z) : option (Z * Z) :=
  decode_varint_loop 6 32 28 buf p limit 0 0 value offset.
Definition DecodeVarint64 (buf : bytes) (p limit value offset : Z) : option (Z * Z) :=
  decode_varint_loop 11 64 63 buf p limit 0 0 value offset.

Fixpoint encode_varint64_loop (fuel : nat) (dst : bytes) (p v offset : Z) : option (bytes * Z) :=
  match fuel with
  | O => None
  | S fuel =>
      if v >=? 128 then
        dst ← mem_write dst p [u8 (Z.lor (Z.land v 127) 128)];
        encode_varint64_loop fuel dst (p + 1) (Z.shiftr v 7) (offset + 1)
      else
        dst ← mem_write dst p [u8 v];
        Some (dst, offset + 1)
  end.

Definition EncodeVarint64 (dst : bytes) (p v offset : Z) : option (bytes * Z) :=
  encode_varint64_loop 10 dst p v offset.

Definition EncodeVarint32 (dst : bytes) (p v offset : Z) : option (bytes * Z) :=
  let B := 128 in
  if v <? Z.shiftl 1 7 then
    dst ← mem_write dst p [u8 v];
    Some (dst, offset + 1)
  else if v <? Z.shiftl 1 14 then
    dst ← mem_write dst p [u8 (Z.lor v B); u8 (Z.shiftr v 7)];
    Some (dst, offset + 2)
  else if v <? Z.shiftl 1 21 then
    dst ← mem_write dst p [u8 (Z.lor v B); u8 (Z.lor (Z.shiftr v 7) B); u8 (Z.shiftr v 14)];
    Some (dst, offset + 3)
  else if v <? Z.shiftl 1 28 then
    dst ← mem_write dst p [u8 (Z.lor v B); u8 (Z.lor (Z.shiftr v 7) B);
                            u8 (Z.lor (Z.shiftr v 14) B); u8 (Z.shiftr v 21)];
    Some (dst, offset + 4)
  else
    dst ← mem_write dst p [u8 (Z.lor v B); u8 (Z.lor (Z.shiftr v 7) B);
                            u8 (Z.lor (Z.shiftr v 14) B); u8 (Z.lor (Z.shiftr v 21) B);
                            u8 (Z.shiftr v 28)];
    Some (dst, offset + 5).

(** [for (i = 0; i < len; ++i) dst[p + i] = src[q + i]]. *)
Definition copy_loop (dst : bytes) (p : Z) (src : bytes) (q len : Z) : option bytes :=
  bs ← mem_read src q len;
  mem_write dst p bs.

(** The new key buffer, the key size and the offset. *)
Definition DecodeVarint32AndValue (buf : bytes) (data : Z) (key : bytes) (offset : Z)
    : option (bytes * Z * Z) :=
  '(len, offset) ← DecodeVarint32 buf data (data + 5) 0 offset;
  let data := data + offset in
  key ← copy_loop key 0 buf data len;
  Some (key, len, offset + len).

Definition EncodeVarint32AndValue (buf : bytes) (data : Z) (key : bytes) (key_size offset : Z)
    : option (bytes * Z) :=
  '(buf, offset) ← EncodeVarint32 buf data key_size offset;
  buf ← copy_loop buf (data + offset) key 0 key_size;
  Some (buf, offset + key_size).

(** ** [file_format.h] *)

(** [DecodeHeader]: the result and the new [*cur_offset]. *)
Definition DecodeHeader (buf : bytes) (data cur_offset : Z) : option (bool * Z) :=
  head_buf ← mem_read buf (data + cur_offset) kBlobMaxHeaderSize;
  magic_number ← DecodeFixed32 head_buf 0;
  if negb (magic_number =? kHeaderMagicNumber) then Some (false, cur_offset) else
  version ← DecodeFixed32 head_buf 4;
  if negb (version =? kHeaderVersion1) && negb (version =? kHeaderVersion2)
  then Some (false, cur_offset) else
  if version =? kHeaderVersion2 then
    flags ← DecodeFixed32 head_buf 8;
    if negb (Z.land flags (u32 (Z.lnot kHasUncompressedDictionary)) =? 0)
    then Some (false, cur_offset)
    else Some (true, cur_offset + kBlobMaxHeaderSize)
  else Some (true, cur_offset + kBlobMinHeaderSize).

Definition EncodeHeader (buf : bytes) (cur_offset : Z) : option (bytes * Z) :=
  let data := cur_offset in
  buf ← EncodeFixed32 buf data kHeaderMagicNumber;
  buf ← EncodeFixed32 buf (data + 4) kHeaderVersion2;
  buf ← EncodeFixed32 buf (data + 8) 0;
  Some (buf, cur_offset + kBlobMaxHeaderSize).

(** [DecodeFooter], which the kernel's main loop has commented out. *)
Definition DecodeFooter (buf : bytes) (data data_size : Z) : option bool :=
  footer_buf ← mem_read buf (data + data_size - kBlobFooterSize) kBlobFooterSize;
  '(_, var_offset_result) ← DecodeVarint64 footer_buf 0 kBlobFooterSize 0 0;
  '(_, var_offset_result) ←
    DecodeVarint64 footer_buf var_offset_result kBlobFooterSize 0 var_offset_result;
  magic_number ← DecodeFixed64 footer_buf (kBlobFooterSize - 12);
  if negb (magic_number =? kFooterMagicNumber) then Some false else
  _ ← DecodeFixed32 footer_buf (kBlobFooterSize - 4);
  Some true.

(** [Crc32c(0, data, n, &crc)] on a buffer at an offset. *)
Definition buf_crc (buf : bytes) (data n : Z) : option Z :=
  Crc32c 0 (drop (Z.to_nat data) buf) n.

Definition EncodeFooter (buf : bytes) (cur_offset : Z) : option (bytes * Z) :=
  let align_padding := Z.land (cur_offset + kBlobFooterSize) 4095 in
  let align_padding := if 0 <? align_padding then 4096 - align_padding else align_padding in
  let cur_offset := cur_offset + align_padding in
  let data := cur_offset in
  '(buf, var_offset) ← EncodeVarint64 buf data 0 0;
  '(buf, var_offset) ← EncodeVarint64 buf (data + var_offset) 0 var_offset;
  buf ← EncodeFixed64 buf (data + kBlobFooterSize - 12) kFooterMagicNumber;
  crc ← buf_crc buf data (kBlobFooterSize - 4);
  buf ← EncodeFixed32 buf (data + kBlobFooterSize - 4) crc;
  Some (buf, cur_offset + kBlobFooterSize).

Definition CheckValid (offset : Z) (buf : bytes) (bitmap : Z) : option bool :=
  let byte := Z.shiftr offset 3 in
  let bit := 7 - Z.land offset 7 in
  b ← mem_read buf (bitmap + byte) 1;
  v ← head b;
  let bitval := Z.land v (Z.shiftl 1 bit) in
  Some (bitval =? 0).

Definition SetZero (arr : bytes) (size : Z) : option bytes :=
  mem_write arr 0 (replicate (Z.to_nat size) 0).

(** [GetKV]: the key buffer, its size, the value buffer, its size and the new
    [*cur_offset]. *)
Definition GetKV (buf : bytes) (data cur_offset : Z) (valid : bool)
    (key : bytes) (key_size : Z) (value : bytes) (value_size : Z)
    : option (bytes * Z * bytes * Z * Z) :=
  let data := data + cur_offset in
  let data := data + kRecordHeaderSize in
  let cur_offset := cur_offset + kRecordHeaderSize in
  if valid then
    '(key, key_size, key_offset) ← DecodeVarint32AndValue buf data key 0;
    '(value, value_size, value_offset) ←
      DecodeVarint32AndValue buf (data + key_offset) value 0;
    Some (key, key_size, value, value_size, cur_offset + (key_offset + value_offset))
  else
    '(key_size, key_offset) ← DecodeVarint32 buf data (data + 5) key_size 0;
    let key_offset := key_offset + key_size in
    '(value_size, value_offset) ←
      DecodeVarint32 buf (data + key_offset) (data + key_offset + 5) value_size 0;
    let value_offset := value_offset + value_size in
    Some (key, key_size, value, value_size, cur_offset + (key_offset + value_offset)).

Definition PutOutputData (buf : bytes) (key : bytes) (key_size : Z) (value : bytes)
    (value_size cur_offset : Z) : option (bytes * Z) :=
  let data := cur_offset in
  '(buf, key_offset) ← EncodeVarint32AndValue buf (data + kRecordHeaderSize) key key_size 0;
  '(buf, value_offset) ←
    EncodeVarint32AndValue buf (data + kRecordHeaderSize + key_offset) value value_size 0;
  buf ← EncodeFixed32 buf (data + 4) (key_offset + value_offset);
  buf ← mem_write buf (data + 8) [0];
  crc ← buf_crc buf (data + 4) (kRecordHeaderSize - 4 + key_offset + value_offset);
  buf ← EncodeFixed32 buf data crc;
  Some (buf, cur_offset + (kRecordHeaderSize + key_offset + value_offset)).

Definition PutOutputKey (buf : bytes) (key : bytes) (key_size cur_offset : Z)
    (new_data_offset original_file original_data_offset entry_size : Z)
    : option (bytes * Z) :=
  let data := cur_offset in
  '(buf, offset) ← EncodeVarint32 buf data key_size 0;
  buf ← copy_loop buf (data + offset) key 0 key_size;
  buf ← EncodeFixed32 buf (data + offset + key_size) new_data_offset;
  buf ← EncodeFixed32 buf (data + offset + key_size + 4) original_file;
  buf ← EncodeFixed32 buf (data + offset + key_size + 8) original_data_offset;
  buf ← EncodeFixed32 buf (data + offset + key_size + 12) entry_size;
  Some (buf, cur_offset + (offset + key_size + 16)).

(** ** [gc_kernel.cc] *)

Record KState : Type := {
  output_data : bytes;
  output_key : bytes;
  cur_output_data_offset : Z;
  cur_output_key_offset : Z;
  rewrite_key_num : Z }.

(** The loop over the entries of input file [i]. *)
Fixpoint entry_loop (n : nat) (j : Z) (input_datas : bytes) (input_data : Z)
    (input_bitmaps : bytes) (input_bitmap : Z) (i : Z)
    (key : bytes) (key_length : Z) (value : bytes) (value_length : Z)
    (cur_input_data_offset : Z) (st : KState) : option KState :=
  match n with
  | O => Some st
  | S n =>
      key ← SetZero key MAX_KEY_LENGTH;
      value ← SetZero value MAX_VALUE_LENGTH;
      valid ← CheckValid j input_bitmaps input_bitmap;
      let origin_offset := cur_input_data_offset in
      '(key, key_length, value, value_length, cur_input_data_offset) ←
        GetKV input_datas input_data cur_input_data_offset valid
          key key_length value value_length;
      if (valid : bool) then
        '(output_key, cur_output_key_offset) ←
          PutOutputKey (output_key st) key key_length (cur_output_key_offset st)
            (cur_output_data_offset st) i origin_offset
            (cur_input_data_offset - origin_offset);
        '(output_data, cur_output_data_offset) ←
          PutOutputData (output_data st) key key_length value value_length
            (cur_output_data_offset st);
        entry_loop n (j + 1) input_datas input_data input_bitmaps input_bitmap i
          key key_length value value_length cur_input_data_offset
          {| output_data := output_data; output_key := output_key;
             cur_output_data_offset := cur_output_data_offset;
             cur_output_key_offset := cur_output_key_offset;
             rewrite_key_num := rewrite_key_num st + 1 |}
      else
        entry_loop n (j + 1) input_datas input_data input_bitmaps input_bitmap i
          key key_length value value_length cur_input_data_offset st
  end.

(** The loop over the input files. [key0] and [value0] are the contents of the
    local arrays when they come into scope, which C leaves open. *)
Fixpoint file_loop (data_lengths bitmap_lengths entries : list Z) (i : Z)
    (key0 value0 : bytes) (input_datas : bytes) (input_data : Z)
    (input_bitmaps : bytes) (input_bitmap : Z) (st : KState) : option KState :=
  match data_lengths, bitmap_lengths, entries with
  | data_length :: data_lengths, bitmap_length :: bitmap_lengths, entry_num :: entries =>
      '(_, cur_input_data_offset) ← DecodeHeader input_datas input_data 0;
      st ← entry_loop (Z.to_nat entry_num) 0 input_datas input_data input_bitmaps
             input_bitmap i key0 0 value0 0 cur_input_data_offset st;
      file_loop data_lengths bitmap_lengths entries (i + 1) key0 value0
        input_datas (input_data + data_length) input_bitmaps (input_bitmap + bitmap_length) st
  | _, _, _ => Some st
  end.

(** The kernel: the output buffers and the three words of [output_meta]. *)
Definition gcKernel (key0 value0 input_datas input_bitmaps output_data0 output_key0 : bytes)
    (data_lengths bitmap_lengths entries : list Z) : option (bytes * bytes * list Z) :=
  '(output_data1, cur_output_data_offset1) ← EncodeHeader output_data0 0;
  st ← file_loop data_lengths bitmap_lengths entries 0 key0 value0
         input_datas 0 input_bitmaps 0
         {| output_data := output_data1; output_key := output_key0;
            cur_output_data_offset := cur_output_data_offset1;
            cur_output_key_offset := 0; rewrite_key_num := 0 |};
  '(output_data2, cur_output_data_offset2) ←
    EncodeFooter (output_data st) (cur_output_data_offset st);
  Some (output_data2, output_key st,
        [rewrite_key_num st; cur_output_data_offset2; cur_output_key_offset st]).

End Kernel.
