(* ===== verification/HwKernelProofs.v ===== *)
(** * HwKernelProofs: the kernel computes the rewritten file

    The specification [gc_spec] says which records the kernel keeps, where it
    puts them and which relocation entries it reports; [gcKernel_spec] says
    that the kernel does exactly that, and never leaves its buffers. *)
From S2P Require Import Prelude Coding Crc32c BlobFormat BitMap HwKernel.

Local Open Scope Z_scope.

(** ** Accesses at the end of a known prefix *)

Lemma mem_read_at buf a b c off n :
  buf = a ++ b ++ c -> off = zlen a -> n = zlen b -> mem_read buf off n = Some b.
Proof. intros ->. apply mem_read_app. Qed.

Lemma mem_write_at buf a b c off bs :
  buf = a ++ b ++ c -> off = zlen a -> zlen bs = zlen b ->
  mem_write buf off bs = Some (a ++ bs ++ c).
Proof. intros ->. apply mem_write_app. Qed.

Lemma split_hole (l : bytes) n :
  0 <= n <= zlen l -> exists h r, l = h ++ r /\ zlen h = n /\ r = drop (Z.to_nat n) l.
Proof.
  intros Hn. exists (take (Z.to_nat n) l), (drop (Z.to_nat n) l). rewrite take_drop.
  split; [done|]. split; [|done]. unfold zlen in *. rewrite length_take. lia.
Qed.

(** ** Fixed-width integers *)

Lemma decode_fixed_loop_spec n i a b c p r :
  0 <= i -> 0 <= r < 2 ^ (8 * i) -> length b = n -> is_bytes b -> p = zlen a ->
  Kernel.decode_fixed_loop n i (a ++ b ++ c) p r
    = Some (Z.lor r (Z.shiftl (le_value b) (8 * i))).
Proof.
  intros Hi Hr Hn Hb. revert n i a p r Hi Hr Hn.
  induction Hb as [|x b Hx Hb IH]; intros n i a p r Hi Hr Hn Hp; subst n p;
    cbn [length Kernel.decode_fixed_loop le_value].
  { by rewrite Z.shiftl_0_l, Z.lor_0_r. }
  rewrite (mem_read_at _ a [x] (b ++ c)) by done. cbn [mbind option_bind head].
  assert (a ++ (x :: b) ++ c = (a ++ [x]) ++ b ++ c) as -> by by rewrite <- app_assoc.
  assert (Z.lor r (Z.shiftl x (8 * i)) = r + x * 2 ^ (8 * i)) as Hsum by (apply lor_shiftl_add; lia).
  rewrite IH; [|lia| |done|zlia].
  - rewrite <- Z.lor_assoc. do 2 f_equal. rewrite Z.shiftl_lor, Z.shiftl_shiftl by lia.
    do 2 f_equal. lia.
  - rewrite Hsum. replace (8 * (i + 1)) with (8 + 8 * i) by lia. rewrite Z.pow_add_r by lia.
    unfold is_byte in Hx. change (2 ^ 8) with 256. nia.
Qed.

Lemma DecodeFixed32_spec a b c p :
  length b = 4%nat -> is_bytes b -> p = zlen a ->
  Kernel.DecodeFixed32 (a ++ b ++ c) p = Some (le_value b).
Proof.
  intros Hl Hb Hp. unfold Kernel.DecodeFixed32.
  rewrite decode_fixed_loop_spec by (done || lia). by rewrite Z.lor_0_l, Z.mul_0_r, Z.shiftl_0_r.
Qed.

Lemma encode_fixed_loop_spec n a b c p v :
  length b = n -> p = zlen a ->
  Kernel.encode_fixed_loop n (a ++ b ++ c) p v = Some (a ++ le_bytes n v ++ c).
Proof.
  revert a b p v. induction n as [|n IH]; intros a b p v Hl Hp; destruct b as [|x b]; try done;
    cbn [Kernel.encode_fixed_loop le_bytes].
  assert (u8 (Z.lor (Z.land v 255) 256) = u8 v) as ->.
  { change 255 with (2 ^ 8 - 1). rewrite land_mask by lia. change 256 with (2 ^ 8).
    rewrite lor_pow2_add by (try apply Z.mod_pos_bound; lia). unfold u8.
    rewrite <- (Z.mul_1_l (2 ^ 8)) at 2. rewrite Z_mod_plus_full. apply Z.mod_mod. lia. }
  rewrite (mem_write_at _ a [x] (b ++ c)) by done. cbn [mbind option_bind].
  assert (a ++ [u8 v] ++ b ++ c = (a ++ [u8 v]) ++ b ++ c) as -> by by rewrite <- app_assoc.
  rewrite IH; [by rewrite <- app_assoc|by injection Hl|zlia].
Qed.

Lemma EncodeFixed32_spec a b c p v :
  zlen b = 4 -> p = zlen a ->
  Kernel.EncodeFixed32 (a ++ b ++ c) p v = Some (a ++ PutFixed32 (u32 v) ++ c).
Proof. intros Hl. apply encode_fixed_loop_spec. unfold zlen in Hl. lia. Qed.

Lemma EncodeFixed64_spec a b c p v :
  zlen b = 8 -> p = zlen a ->
  Kernel.EncodeFixed64 (a ++ b ++ c) p v = Some (a ++ PutFixed64 (u64 v) ++ c).
Proof. intros Hl. apply encode_fixed_loop_spec. unfold zlen in Hl. lia. Qed.

(** ** Varints *)

(** The kernel's loop reads what the host's loop reads, when the host's
    succeeds: the limit is never the reason to stop. *)
Lemma decode_varint_loop_host k w fuel l a p limit shift j r value offset v rest :
  0 <= j -> shift = 7 * j -> p = zlen a -> p + (k + 1 - j) <= limit ->
  (k + 1 - j < Z.of_nat fuel) ->
  varint_loop w (7 * k) shift r l = Some (v, rest) ->
  Kernel.decode_varint_loop fuel w (7 * k) (a ++ l) p limit shift r value offset
    = Some (v, offset + (zlen l - zlen rest)).
Proof.
  revert fuel a p shift j r offset.
  induction l as [|b l IH]; intros fuel a p shift j r offset Hj Hs Hp Hlim Hf H; [done|].
  cbn [varint_loop] in H. destruct (Z.ltb_spec (7 * k) shift) as [|Hle]; [done|].
  destruct fuel as [|fuel]; [lia|]. cbn [Kernel.decode_varint_loop].
  destruct (Z.leb_spec shift (7 * k)) as [_|]; [|lia].
  destruct (Z.ltb_spec p limit) as [_|]; [|lia]. cbn [andb].
  rewrite (mem_read_at _ a [b] l) by done. cbn [mbind option_bind head].
  destruct (Z.land b 128 =? 0); cbn [negb].
  - simplify_eq. do 2 f_equal. zlia.
  - replace (a ++ b :: l) with ((a ++ [b]) ++ l) by by rewrite <- app_assoc.
    rewrite (IH fuel (a ++ [b]) (p + 1) (shift + 7) (j + 1)); try done; try lia; [|zlia].
    do 2 f_equal. zlia.
Qed.

Lemma DecodeVarint32_spec a v c p value offset :
  is_u32 v -> p = zlen a ->
  Kernel.DecodeVarint32 (a ++ PutVarint32 v ++ c) p (p + 5) value offset
    = Some (v, offset + zlen (PutVarint32 v)).
Proof.
  intros Hv Hp. unfold Kernel.DecodeVarint32. change 28 with (7 * 4).
  rewrite (decode_varint_loop_host 4 32 _ _ _ _ _ _ 0 _ _ _ v c); try done; try lia.
  - do 2 f_equal. zlia.
  - change (7 * 4) with 28. pose proof (GetVarint32_Put v c Hv) as H.
    unfold GetVarint32 in H. pose proof (is_bytes_PutVarint32 v) as Hb.
    destruct (PutVarint32 v) as [|b q] eqn:E.
    { exfalso. pose proof (PutVarint32_bounds v) as Hl. rewrite E in Hl. unfold zlen in Hl. simpl in Hl. lia. }
    inversion Hb as [|? ? Hb0 Hq]; subst. cbn [app] in *.
    rewrite (GetVarint32Ptr_byte _ _ Hb0) in H. exact H.
Qed.

Lemma EncodeVarint32_spec a b c p v offset :
  zlen b = zlen (PutVarint32 v) -> p = zlen a ->
  Kernel.EncodeVarint32 (a ++ b ++ c) p v offset
    = Some (a ++ PutVarint32 v ++ c, offset + zlen (PutVarint32 v)).
Proof.
  intros Hl Hp. unfold Kernel.EncodeVarint32.
  change (Z.shiftl 1 7) with (2 ^ 7). change (Z.shiftl 1 14) with (2 ^ 14).
  change (Z.shiftl 1 21) with (2 ^ 21). change (Z.shiftl 1 28) with (2 ^ 28).
  unfold PutVarint32, EncodeVarint32 in *.
  repeat case_match; (rewrite (mem_write_at _ a b c) by done); reflexivity.
Qed.

(** ** Values *)

Lemma copy_loop_spec a b c p s t u q n :
  zlen b = n -> p = zlen a -> zlen t = n -> q = zlen s ->
  Kernel.copy_loop (a ++ b ++ c) p (s ++ t ++ u) q n = Some (a ++ t ++ c).
Proof.
  intros Hb Hp Ht Hq. unfold Kernel.copy_loop.
  rewrite (mem_read_at _ s t u) by done. cbn [mbind option_bind].
  by apply (mem_write_at _ a b c); [..|congruence].
Qed.

Lemma DecodeVarint32AndValue_spec a v c data buf offset :
  is_u32 (zlen v) -> data = zlen a -> offset = 0 -> zlen v <= zlen buf ->
  Kernel.DecodeVarint32AndValue (a ++ PutLengthPrefixedSlice v ++ c) data buf offset
    = Some (v ++ drop (length v) buf, zlen v, zlen (PutLengthPrefixedSlice v)).
Proof.
  intros Hv Hd -> Hlen. unfold Kernel.DecodeVarint32AndValue, PutLengthPrefixedSlice.
  rewrite u32_small by done. rewrite <- app_assoc, DecodeVarint32_spec by done.
  cbn [mbind option_bind]. pose proof (zlen_nonneg v).
  destruct (split_hole buf (zlen v)) as (h & r & Hbuf & Hh & ->); [lia|].
  rewrite Hbuf at 1. change (h ++ drop (Z.to_nat (zlen v)) buf)
    with ([] ++ h ++ drop (Z.to_nat (zlen v)) buf).
  assert (a ++ PutVarint32 (zlen v) ++ v ++ c = (a ++ PutVarint32 (zlen v)) ++ v ++ c) as ->
    by by rewrite <- app_assoc.
  rewrite copy_loop_spec by (done || zlia). cbn [mbind option_bind app].
  rewrite zlen_to_nat, zlen_app. do 3 f_equal.
Qed.

(** The field [s] that a key or value buffer carries, with its length. *)
Lemma EncodeVarint32AndValue_spec a b c data v tail offset :
  is_u32 (zlen v) -> data = zlen a -> offset = 0 ->
  zlen b = zlen (PutLengthPrefixedSlice v) ->
  Kernel.EncodeVarint32AndValue (a ++ b ++ c) data (v ++ tail) (zlen v) offset
    = Some (a ++ PutLengthPrefixedSlice v ++ c, zlen (PutLengthPrefixedSlice v)).
Proof.
  intros Hv Hd -> Hb. unfold Kernel.EncodeVarint32AndValue, PutLengthPrefixedSlice in *.
  rewrite u32_small in * by done. rewrite zlen_app in Hb. pose proof (zlen_nonneg v).
  pose proof (zlen_nonneg (PutVarint32 (zlen v))).
  destruct (split_hole b (zlen (PutVarint32 (zlen v)))) as (h & r & -> & Hh & _); [lia|].
  rewrite zlen_app in Hb.
  rewrite <- !app_assoc, EncodeVarint32_spec by done. cbn [mbind option_bind].
  rewrite (app_assoc a). change (v ++ tail) with ([] ++ v ++ tail).
  rewrite copy_loop_spec by (done || zlia). cbn [mbind option_bind].
  rewrite <- app_assoc, zlen_app. done.
Qed.

(** ** Records *)

(** The bytes of an uncompressed record, as the kernel lays them out. *)
Definition rec_payload (k v : bytes) : bytes :=
  PutLengthPrefixedSlice k ++ PutLengthPrefixedSlice v.

Definition rec_bytes (k v : bytes) : bytes :=
  let h4 := PutFixed32 (u32 (zlen (rec_payload k v))) ++ [0] in
  PutFixed32 (crc_spec 0 (h4 ++ rec_payload k v)) ++ h4 ++ rec_payload k v.

(** A record the kernel's buffers can hold. *)
Definition fits (k v : bytes) : Prop :=
  is_bytes k /\ is_bytes v /\ zlen k <= Kernel.MAX_KEY_LENGTH /\ zlen v <= Kernel.MAX_VALUE_LENGTH.

Lemma fits_u32 k v : fits k v -> is_u32 (zlen k) /\ is_u32 (zlen v).
Proof.
  intros (_ & _ & Hk & Hv). pose proof (zlen_nonneg k). pose proof (zlen_nonneg v).
  unfold Kernel.MAX_KEY_LENGTH, Kernel.MAX_VALUE_LENGTH, is_u32 in *. lia.
Qed.

Lemma zlen_PutLengthPrefixedSlice v :
  is_u32 (zlen v) ->
  zlen (PutLengthPrefixedSlice v) = zlen (PutVarint32 (zlen v)) + zlen v.
Proof. intros Hv. unfold PutLengthPrefixedSlice. rewrite u32_small by done. apply zlen_app. Qed.

Lemma zlen_rec_payload k v : fits k v -> 0 <= zlen (rec_payload k v) < 2 ^ 14.
Proof.
  intros Hf. destruct (fits_u32 k v Hf) as [Hk Hv]. destruct Hf as (_ & _ & Hkl & Hvl).
  unfold rec_payload. rewrite zlen_app, !zlen_PutLengthPrefixedSlice by done.
  pose proof (PutVarint32_bounds (zlen k)). pose proof (PutVarint32_bounds (zlen v)).
  unfold Kernel.MAX_KEY_LENGTH, Kernel.MAX_VALUE_LENGTH, is_u32 in *. lia.
Qed.

Lemma zlen_rec_bytes k v : zlen (rec_bytes k v) = 9 + zlen (rec_payload k v).
Proof. unfold rec_bytes. zlia. Qed.

Lemma is_bytes_rec_payload k v : fits k v -> is_bytes (rec_payload k v).
Proof. intros (Hk & Hv & _). unfold rec_payload. auto with aegon. Qed.

(** They are the bytes the host's encoder produces. *)
Lemma rec_bytes_host C k v :
  fits k v ->
  exists e, EncodeRecord C kNoCompression {| key := k; value := v |} = Some e /\
    encoded e = rec_bytes k v.
Proof.
  intros Hf. pose proof (zlen_rec_payload k v Hf) as Hl.
  unfold EncodeRecord, EncodeSlice. cbn -[BlobRecord_EncodeTo Value Extend Z.ltb].
  change (BlobRecord_EncodeTo {| key := k; value := v |}) with (rec_payload k v).
  unfold assert. destruct (Z.ltb_spec (zlen (rec_payload k v)) (2 ^ 32 - 1)) as [_|]; [|lia].
  eexists. split; [reflexivity|]. unfold encoded, rec_bytes. cbn [header_ record_].
  change (u8 kNoCompression) with 0.
  set (h4 := PutFixed32 _ ++ [0]).
  assert (is_bytes h4) as Hh.
  { apply is_bytes_app; [apply is_bytes_PutFixed32|]. by apply is_bytes_cons; [|constructor]. }
  pose proof (is_bytes_rec_payload k v Hf) as Hp.
  rewrite Extend_Value by done. unfold Value. rewrite Extend_spec; [|done|by apply is_bytes_app].
  by rewrite <- app_assoc.
Qed.

Lemma GetKV_valid_spec a k v c data cur kbuf ks vbuf vs :
  fits k v -> data + cur = zlen a ->
  zlen kbuf = Kernel.MAX_KEY_LENGTH -> zlen vbuf = Kernel.MAX_VALUE_LENGTH ->
  Kernel.GetKV (a ++ rec_bytes k v ++ c) data cur true kbuf ks vbuf vs
    = Some (k ++ drop (length k) kbuf, zlen k, v ++ drop (length v) vbuf, zlen v,
            cur + zlen (rec_bytes k v)).
Proof.
  intros Hf Hd Hkb Hvb. destruct (fits_u32 k v Hf) as [Hk Hv]. destruct Hf as (_ & _ & Hkl & Hvl).
  unfold Kernel.GetKV. rewrite zlen_rec_bytes. unfold rec_bytes.
  set (crc := PutFixed32 (crc_spec 0 _)). set (sz := PutFixed32 (u32 _)).
  assert (zlen (crc ++ sz ++ [0]) = 9) as Hh by (unfold crc, sz; zlia).
  unfold rec_payload.
  assert (a ++ (crc ++ (sz ++ [0]) ++ PutLengthPrefixedSlice k ++ PutLengthPrefixedSlice v) ++ c
    = (a ++ crc ++ sz ++ [0]) ++ PutLengthPrefixedSlice k ++ PutLengthPrefixedSlice v ++ c) as ->
    by by rewrite <- !app_assoc.
  rewrite DecodeVarint32AndValue_spec; [|done| |done|lia].
  2:{ rewrite zlen_app, Hh. unfold Kernel.kRecordHeaderSize. lia. }
  cbn [mbind option_bind]. rewrite (app_assoc (a ++ _)).
  rewrite DecodeVarint32AndValue_spec; [|done| |done|lia].
  2:{ rewrite (zlen_app (a ++ _)), (zlen_app a), Hh. unfold Kernel.kRecordHeaderSize. lia. }
  cbn [mbind option_bind]. do 2 f_equal. rewrite zlen_app. unfold Kernel.kRecordHeaderSize. lia.
Qed.

Lemma GetKV_invalid_spec a k v c data cur kbuf ks vbuf vs :
  fits k v -> data + cur = zlen a ->
  Kernel.GetKV (a ++ rec_bytes k v ++ c) data cur false kbuf ks vbuf vs
    = Some (kbuf, zlen k, vbuf, zlen v, cur + zlen (rec_bytes k v)).
Proof.
  intros Hf Hd. destruct (fits_u32 k v Hf) as [Hk Hv].
  unfold Kernel.GetKV. rewrite zlen_rec_bytes. unfold rec_bytes.
  set (crc := PutFixed32 (crc_spec 0 _)). set (sz := PutFixed32 (u32 _)).
  assert (zlen (crc ++ sz ++ [0]) = 9) as Hh by (unfold crc, sz; zlia).
  unfold rec_payload, PutLengthPrefixedSlice. rewrite !u32_small by done.
  assert (a ++ (crc ++ (sz ++ [0]) ++ (PutVarint32 (zlen k) ++ k) ++ PutVarint32 (zlen v) ++ v) ++ c
    = (a ++ crc ++ sz ++ [0]) ++ PutVarint32 (zlen k) ++ (k ++ PutVarint32 (zlen v) ++ v ++ c)) as ->
    by by rewrite <- !app_assoc.
  rewrite DecodeVarint32_spec; [|done|].
  2:{ rewrite zlen_app, Hh. unfold Kernel.kRecordHeaderSize. lia. }
  cbn [mbind option_bind].
  assert ((a ++ crc ++ sz ++ [0]) ++ PutVarint32 (zlen k) ++ (k ++ PutVarint32 (zlen v) ++ v ++ c)
    = ((a ++ crc ++ sz ++ [0]) ++ PutVarint32 (zlen k) ++ k) ++ PutVarint32 (zlen v) ++ (v ++ c)) as ->
    by by rewrite <- !app_assoc.
  rewrite DecodeVarint32_spec; [|done|].
  2:{ rewrite (zlen_app (a ++ _)), (zlen_app a), Hh, zlen_app. unfold Kernel.kRecordHeaderSize. lia. }
  cbn [mbind option_bind]. do 2 f_equal. rewrite !zlen_app. unfold Kernel.kRecordHeaderSize. lia.
Qed.

(** ** Output *)

Lemma buf_crc_spec a b c data n :
  is_bytes b -> data = zlen a -> n = zlen b -> zlen b < 2 ^ 32 ->
  Kernel.buf_crc (a ++ b ++ c) data n = Some (crc_spec 0 b).
Proof.
  intros Hb -> -> Hn. unfold Kernel.buf_crc. rewrite zlen_to_nat, drop_app_length.
  pose proof (zlen_nonneg b).
  assert (Crc32c 0 (b ++ c) (zlen b) = Crc32c 0 b (zlen b)) as ->.
  { unfold Crc32c. rewrite zlen_to_nat, take_app_length. by rewrite (take_ge b) by lia. }
  rewrite Crc32c_spec by (done || lia). rewrite zlen_to_nat. by rewrite take_ge by lia.
Qed.

Lemma PutOutputData_spec done_ hole rest k ktail v vtail cur :
  fits k v -> cur = zlen done_ -> zlen hole = zlen (rec_bytes k v) ->
  Kernel.PutOutputData (done_ ++ hole ++ rest) (k ++ ktail) (zlen k) (v ++ vtail) (zlen v) cur
    = Some (done_ ++ rec_bytes k v ++ rest, cur + zlen (rec_bytes k v)).
Proof.
  intros Hf -> Hh. destruct (fits_u32 k v Hf) as [Hk Hv]. pose proof (zlen_rec_payload k v Hf) as Hpl.
  pose proof (is_bytes_rec_payload k v Hf) as Hpb.
  rewrite zlen_rec_bytes in *. unfold rec_payload in Hh, Hpl. rewrite zlen_app in Hh, Hpl.
  pose proof (zlen_nonneg (PutLengthPrefixedSlice k)). pose proof (zlen_nonneg (PutLengthPrefixedSlice v)).
  destruct (split_hole hole 4) as (h1 & hr & -> & Hh1 & _); [lia|]. rewrite zlen_app in Hh.
  destruct (split_hole hr 4) as (h2 & hr2 & -> & Hh2 & _); [lia|]. rewrite zlen_app in Hh.
  destruct (split_hole hr2 1) as (h3 & hr3 & -> & Hh3 & _); [lia|]. rewrite zlen_app in Hh.
  destruct (split_hole hr3 (zlen (PutLengthPrefixedSlice k))) as (h4 & h5 & -> & Hh4 & _); [lia|].
  rewrite zlen_app in Hh.
  unfold Kernel.PutOutputData, Kernel.kRecordHeaderSize.
  assert (done_ ++ (h1 ++ h2 ++ h3 ++ h4 ++ h5) ++ rest
    = (done_ ++ h1 ++ h2 ++ h3) ++ h4 ++ (h5 ++ rest)) as -> by by rewrite <- !app_assoc.
  rewrite EncodeVarint32AndValue_spec by (done || zlia). cbn [mbind option_bind].
  rewrite (app_assoc (done_ ++ _)).
  rewrite EncodeVarint32AndValue_spec by (done || zlia). cbn [mbind option_bind].
  assert (((done_ ++ h1 ++ h2 ++ h3) ++ PutLengthPrefixedSlice k) ++ PutLengthPrefixedSlice v ++ rest
    = (done_ ++ h1) ++ h2 ++ (h3 ++ rec_payload k v ++ rest)) as ->
    by by unfold rec_payload; rewrite <- !app_assoc.
  rewrite EncodeFixed32_spec by (done || zlia). cbn [mbind option_bind].
  rewrite <- zlen_app. fold (rec_payload k v).
  set (sz := PutFixed32 (u32 (zlen (rec_payload k v)))).
  assert (zlen sz = 4) as Hsz by (unfold sz; zlia).
  rewrite (mem_write_at _ (done_ ++ h1 ++ sz) h3 (rec_payload k v ++ rest));
    [|by rewrite <- !app_assoc|zlia|done].
  cbn [mbind option_bind].
  assert ((done_ ++ h1 ++ sz) ++ [0] ++ rec_payload k v ++ rest
    = (done_ ++ h1) ++ ((sz ++ [0]) ++ rec_payload k v) ++ rest) as -> by by rewrite <- !app_assoc.
  rewrite buf_crc_spec; [| |zlia| |].
  2:{ unfold sz. apply is_bytes_app; [|done]. apply is_bytes_app; [auto with aegon|].
      by apply is_bytes_cons; [|constructor]. }
  2,3: unfold rec_payload; zlia.
  cbn [mbind option_bind]. rewrite <- app_assoc, EncodeFixed32_spec by done. cbn [mbind option_bind].
  rewrite u32_small.
  - unfold rec_bytes. fold sz. rewrite <- !app_assoc. do 2 f_equal. unfold rec_payload. zlia.
  - apply crc_spec_u32; [done|]. unfold sz. apply is_bytes_app; [|done].
    apply is_bytes_app; [auto with aegon|]. by apply is_bytes_cons; [|constructor].
Qed.

(** A relocation entry: the key, then four 32-bit words. *)
Definition key_entry (k : bytes) (new_offset file offset size : Z) : bytes :=
  PutLengthPrefixedSlice k ++ PutFixed32 (u32 new_offset) ++ PutFixed32 (u32 file) ++
  PutFixed32 (u32 offset) ++ PutFixed32 (u32 size).

Lemma PutOutputKey_spec done_ hole rest k ktail cur n f o s :
  is_u32 (zlen k) -> cur = zlen done_ -> zlen hole = zlen (key_entry k n f o s) ->
  Kernel.PutOutputKey (done_ ++ hole ++ rest) (k ++ ktail) (zlen k) cur n f o s
    = Some (done_ ++ key_entry k n f o s ++ rest, cur + zlen (key_entry k n f o s)).
Proof.
  intros Hk -> Hh. unfold key_entry, PutLengthPrefixedSlice in *. rewrite u32_small in * by done.
  autorewrite with zlen in Hh. pose proof (zlen_nonneg k). pose proof (zlen_nonneg (PutVarint32 (zlen k))).
  destruct (split_hole hole (zlen (PutVarint32 (zlen k)))) as (h0 & hr & -> & Hh0 & _); [lia|].
  rewrite zlen_app in Hh.
  destruct (split_hole hr (zlen k)) as (h1 & hr1 & -> & Hh1 & _); [lia|]. rewrite zlen_app in Hh.
  destruct (split_hole hr1 4) as (h2 & hr2 & -> & Hh2 & _); [lia|]. rewrite zlen_app in Hh.
  destruct (split_hole hr2 4) as (h3 & hr3 & -> & Hh3 & _); [lia|]. rewrite zlen_app in Hh.
  destruct (split_hole hr3 4) as (h4 & h5 & -> & Hh4 & _); [lia|]. rewrite zlen_app in Hh.
  unfold Kernel.PutOutputKey. rewrite <- !app_assoc, EncodeVarint32_spec by done.
  cbn [mbind option_bind]. rewrite (app_assoc done_). change (k ++ ktail) with ([] ++ k ++ ktail).
  rewrite copy_loop_spec by (done || zlia). cbn [mbind option_bind]. rewrite (app_assoc (done_ ++ _)).
  rewrite EncodeFixed32_spec by (done || zlia). cbn [mbind option_bind]. rewrite (app_assoc (_ ++ k)).
  rewrite EncodeFixed32_spec by (done || zlia). cbn [mbind option_bind].
  rewrite (app_assoc _ (PutFixed32 (u32 f))).
  rewrite EncodeFixed32_spec by (done || zlia). cbn [mbind option_bind].
  rewrite (app_assoc _ (PutFixed32 (u32 o))).
  rewrite EncodeFixed32_spec by (done || zlia). cbn [mbind option_bind].
  rewrite <- !app_assoc. do 2 f_equal. zlia.
Qed.

(** ** Header and footer *)

Definition header_bytes : bytes :=
  PutFixed32 Kernel.kHeaderMagicNumber ++ PutFixed32 2 ++ PutFixed32 0.

Lemma header_bytes_host : header_bytes = BlobFileHeader_EncodeTo BlobFileHeader_default.
Proof. reflexivity. Qed.

Lemma EncodeHeader_spec hole rest :
  zlen hole = 12 -> Kernel.EncodeHeader (hole ++ rest) 0 = Some (header_bytes ++ rest, 12).
Proof.
  intros Hh. destruct (split_hole hole 4) as (h1 & hr & -> & Hh1 & _); [lia|]. rewrite zlen_app in Hh.
  destruct (split_hole hr 4) as (h2 & h3 & -> & Hh2 & _); [lia|]. rewrite zlen_app in Hh.
  unfold Kernel.EncodeHeader. rewrite <- !app_assoc.
  change (h1 ++ h2 ++ h3 ++ rest) with ([] ++ h1 ++ (h2 ++ h3 ++ rest)).
  rewrite EncodeFixed32_spec by done. cbn [mbind option_bind app].
  change (PutFixed32 _ ++ ?x) with (PutFixed32 (u32 Kernel.kHeaderMagicNumber) ++ x) at 1.
  rewrite EncodeFixed32_spec by (done || zlia). cbn [mbind option_bind]. rewrite app_assoc.
  rewrite EncodeFixed32_spec by (done || zlia). cbn [mbind option_bind].
  unfold header_bytes. by rewrite <- !app_assoc.
Qed.

(** The kernel accepts what the host's decoder accepts, and skips the header. *)
Lemma DecodeHeader_spec a h rest data :
  (version h = kVersion1 \/ (version h = kVersion2 /\ (flags h = 0 \/ flags h = 1))) ->
  data = zlen a -> BlobFileHeader_size h + zlen rest >= 12 ->
  Kernel.DecodeHeader (a ++ BlobFileHeader_EncodeTo h ++ rest) data 0
    = Some (true, BlobFileHeader_size h).
Proof.
  intros Hwf -> Hlen. unfold Kernel.DecodeHeader, BlobFileHeader_EncodeTo, BlobFileHeader_size in *.
  assert (exists h3 tail, (if version h =? kVersion2 then PutFixed32 (flags h) else []) ++ rest
    = h3 ++ tail /\ zlen h3 = 4 /\ (version h = kVersion2 -> h3 = PutFixed32 (flags h)))
    as (h3 & tail & He & Hh3 & Hfl).
  { destruct Hwf as [Hv | [Hv _]]; rewrite Hv in *; cbn in *.
    - destruct (split_hole rest 4) as (x & r & -> & Hh & _); [unfold kMinEncodedLength in Hlen; lia|].
      by exists x, r.
    - exists (PutFixed32 (flags h)), rest. split; [done|]. by split; [zlia|]. }
  rewrite <- !app_assoc, He.
  set (m := PutFixed32 kHeaderMagicNumber). set (vv := PutFixed32 (version h)).
  rewrite (mem_read_at _ a (m ++ vv ++ h3) tail);
    [|by rewrite <- !app_assoc|by rewrite Z.add_0_r|unfold m, vv, Kernel.kBlobMaxHeaderSize; zlia].
  cbn [mbind option_bind].
  assert (le_value vv = version h) as Hver.
  { unfold vv, PutFixed32. rewrite le_value_le_bytes. destruct Hwf as [-> | [-> _]]; done. }
  pose proof (DecodeFixed32_spec [] m (vv ++ h3) 0 eq_refl (is_bytes_PutFixed32 _) eq_refl) as H1.
  pose proof (DecodeFixed32_spec m vv h3 4 eq_refl (is_bytes_PutFixed32 _) eq_refl) as H2.
  cbn [app] in H1. rewrite H1. cbn [mbind option_bind].
  change (le_value m =? _) with true. cbn [negb].
  rewrite H2. cbn [mbind option_bind]. rewrite Hver.
  destruct Hwf as [Hv | [Hv Hf]]; rewrite Hv; cbn [Z.eqb Pos.eqb negb andb kVersion1 kVersion2
    Kernel.kHeaderVersion1 Kernel.kHeaderVersion2]; [done|].
  rewrite Hfl by done.
  pose proof (DecodeFixed32_spec (m ++ vv) (PutFixed32 (flags h)) [] 8 eq_refl
    (is_bytes_PutFixed32 _) eq_refl) as H3.
  rewrite app_nil_r, <- app_assoc in H3. rewrite H3.
  cbn [mbind option_bind]. by destruct Hf as [-> | ->].
Qed.

Definition footer_pad (cur : Z) : Z :=
  let r := (cur + 32) mod 4096 in if 0 <? r then 4096 - r else 0.

Lemma footer_pad_spec cur :
  0 <= footer_pad cur < 4096 /\ (cur + footer_pad cur + 32) mod 4096 = 0.
Proof.
  unfold footer_pad. pose proof (Z.mod_pos_bound (cur + 32) 4096 ltac:(lia)).
  destruct (Z.ltb_spec 0 ((cur + 32) mod 4096)).
  - split; [lia|]. pose proof (Z.div_mod (cur + 32) 4096 ltac:(lia)).
    symmetry. apply (Z.mod_unique _ _ ((cur + 32) / 4096 + 1)); lia.
  - split; [lia|]. replace (cur + 0 + 32) with (cur + 32) by lia. lia.
Qed.

(** The footer of the kernel, over the 18 bytes it leaves as they were. *)
Definition footer_bytes (old : bytes) : bytes :=
  let enc := [0; 0] ++ old ++ PutFixed64 Kernel.kFooterMagicNumber in
  enc ++ PutFixed32 (crc_spec 0 enc).

Lemma EncodeFooter_spec done_ hole rest cur :
  cur = zlen done_ -> zlen hole = footer_pad cur + 32 -> is_bytes hole ->
  exists p old, zlen p = footer_pad cur /\ zlen old = 18 /\ is_bytes old /\
    Kernel.EncodeFooter (done_ ++ hole ++ rest) cur
      = Some (done_ ++ (p ++ footer_bytes old) ++ rest, cur + footer_pad cur + 32).
Proof.
  intros -> Hh Hb. destruct (footer_pad_spec (zlen done_)) as [Hp _].
  destruct (split_hole hole (footer_pad (zlen done_))) as (p & h & -> & Hpl & _); [lia|].
  rewrite zlen_app in Hh. apply Forall_app in Hb as [_ Hb].
  destruct (split_hole h 1) as (x & h1 & -> & Hx & _); [lia|]. rewrite zlen_app in Hh.
  destruct (split_hole h1 1) as (y & h2 & -> & Hy & _); [lia|]. rewrite zlen_app in Hh.
  destruct (split_hole h2 18) as (old & h3 & -> & Hold & _); [lia|]. rewrite zlen_app in Hh.
  destruct (split_hole h3 8) as (m & c & -> & Hm & _); [lia|]. rewrite zlen_app in Hh.
  apply Forall_app in Hb as [_ Hb]. apply Forall_app in Hb as [_ Hb].
  apply Forall_app in Hb as [Hob _].
  exists p, old. split; [done|]. split; [done|]. split; [done|].
  unfold Kernel.EncodeFooter. change 4095 with (2 ^ 12 - 1). rewrite land_mask by lia.
  change (2 ^ 12) with 4096. change Kernel.kBlobFooterSize with 32.
  assert ((if 0 <? (zlen done_ + 32) mod 4096 then 4096 - (zlen done_ + 32) mod 4096
    else (zlen done_ + 32) mod 4096) = footer_pad (zlen done_)) as ->.
  { unfold footer_pad. pose proof (Z.mod_pos_bound (zlen done_ + 32) 4096 ltac:(lia)).
    destruct (Z.ltb_spec 0 ((zlen done_ + 32) mod 4096)); lia. }
  unfold Kernel.EncodeVarint64. cbn [Kernel.encode_varint64_loop Z.geb Z.compare].
  change (u8 0) with 0.
  rewrite (mem_write_at _ (done_ ++ p) x (y ++ old ++ m ++ c ++ rest) _ [0]);
    [|by rewrite <- !app_assoc|zlia|done].
  cbn [mbind option_bind].
  rewrite (mem_write_at _ ((done_ ++ p) ++ [0]) y (old ++ m ++ c ++ rest) _ [0]);
    [|by rewrite <- !app_assoc|zlia|done].
  cbn [mbind option_bind].
  set (pre := done_ ++ p).
  assert ((pre ++ [0]) ++ [0] ++ old ++ m ++ c ++ rest = (pre ++ [0; 0] ++ old) ++ m ++ (c ++ rest)) as ->
    by by rewrite <- !app_assoc.
  assert (zlen pre = zlen done_ + footer_pad (zlen done_)) as Hpre by (unfold pre; zlia).
  rewrite EncodeFixed64_spec by (done || zlia). cbn [mbind option_bind].
  rewrite u64_small by done. set (mg := PutFixed64 Kernel.kFooterMagicNumber).
  assert ((pre ++ [0; 0] ++ old) ++ mg ++ c ++ rest = pre ++ ([0; 0] ++ old ++ mg) ++ (c ++ rest)) as ->
    by by rewrite <- !app_assoc.
  assert (zlen mg = 8) as Hmg by (unfold mg; zlia).
  assert (is_bytes ([0; 0] ++ old ++ mg)) as Henc.
  { apply is_bytes_app; [by repeat constructor|]. apply is_bytes_app; [done|apply is_bytes_PutFixed64]. }
  rewrite buf_crc_spec; [|done|by rewrite Hpre|zlia|zlia]. cbn [mbind option_bind].
  rewrite app_assoc, EncodeFixed32_spec by (done || zlia). cbn [mbind option_bind].
  rewrite u32_small by by apply crc_spec_u32.
  unfold footer_bytes. fold mg. unfold pre. rewrite <- !app_assoc. do 2 f_equal.
Qed.

(** The host accepts the kernel's footer, whatever the bytes left in it. *)
Lemma footer_bytes_host old :
  zlen old = 18 -> is_bytes old ->
  BlobFileFooter_DecodeFrom (footer_bytes old) = Some (Ret (NullBlockHandle, [])).
Proof.
  intros Hl Hb. unfold footer_bytes.
  set (mg := PutFixed64 Kernel.kFooterMagicNumber).
  assert (is_bytes ([0; 0] ++ old ++ mg)) as Henc.
  { apply is_bytes_app; [by repeat constructor|]. apply is_bytes_app; [done|apply is_bytes_PutFixed64]. }
  set (crc := PutFixed32 (crc_spec 0 ([0; 0] ++ old ++ mg))).
  unfold BlobFileFooter_DecodeFrom.
  assert (BlockHandle_DecodeFrom (([0; 0] ++ old ++ mg) ++ crc)
    = Ret (NullBlockHandle, old ++ mg ++ crc)) as ->.
  { rewrite <- !app_assoc. exact (proj1 (BlockHandle_roundtrip NullBlockHandle [0; 0] (old ++ mg ++ crc)
      ltac:(split; done) eq_refl)). }
  assert (zlen mg = 8 /\ zlen crc = 4) as [Hmg Hcrc] by (unfold mg, crc; split; zlia).
  replace (kBlobFooterSize - 12 - _) with 18
    by (unfold kBlobFooterSize, kMaxEncodedLength, kMaxVarint64Length; zlia).
  unfold assert. destruct (Z.leb_spec 18 (zlen (old ++ mg ++ crc))) as [_|]; [|zlia].
  cbn [mbind option_bind]. f_equal.
  replace (Z.to_nat 18) with (length old) by (unfold zlen in Hl; lia). rewrite drop_app_length.
  unfold mg at 1. rewrite GetFixed64_Put by done. cbn [or_fail res_bind].
  change (negb (_ =? kFooterMagicNumber)) with false. cbv iota.
  replace (Z.to_nat _) with (length ([0; 0] ++ old ++ mg)) by (unfold zlen; rewrite !length_app; lia).
  rewrite take_app_length. unfold crc.
  rewrite <- (app_nil_r (PutFixed32 _)), GetFixed32_Put by by apply crc_spec_u32.
  cbn [or_fail res_bind]. unfold Value. rewrite Extend_spec by done. by rewrite Z.eqb_refl.
Qed.

(** ** Validity bits *)

Lemma CheckValid_spec a bm c base j :
  base = zlen a -> 0 <= j -> j / 8 < zlen bm ->
  Kernel.CheckValid j (a ++ bm ++ c) base = Some (negb (bit_of bm j)).
Proof.
  intros -> Hj Hlt. unfold Kernel.CheckValid.
  destruct (bit_index j Hj) as (-> & -> & Hm).
  assert (0 <= j / 8) by (apply Z.div_pos; lia).
  destruct (mem_split bm (j / 8) 1) as (x & b & y & -> & Hx & Hb); [lia..|].
  destruct b as [|v [|? ?]]; [done| |unfold zlen in Hb; simpl in Hb; lia].
  rewrite (mem_read_at _ (a ++ x) [v] (y ++ c)); [|by rewrite <- !app_assoc|zlia|done].
  cbn [mbind option_bind head]. rewrite land_pow2_zero by lia.
  unfold bit_of. rewrite app_nth2 by (unfold zlen in Hx; lia).
  replace (_ - _)%nat with O by (unfold zlen in Hx; lia). done.
Qed.

(** ** The specification of a run *)

Record rewrite : Type := {
  rw_key : bytes;
  rw_value : bytes;
  rw_new : Z;      (** offset in the output file *)
  rw_file : Z;     (** index of the input file *)
  rw_orig : Z;     (** offset in the input file *)
  rw_size : Z }.

Definition rw_bytes (r : rewrite) : bytes := rec_bytes (rw_key r) (rw_value r).
Definition rw_entry (r : rewrite) : bytes :=
  key_entry (rw_key r) (rw_new r) (rw_file r) (rw_orig r) (rw_size r).

Definition rws_data (l : list rewrite) : bytes := concat (map rw_bytes l).
Definition rws_keys (l : list rewrite) : bytes := concat (map rw_entry l).

(** The records of file [i] from entry [j] at offset [off] that are valid,
    when the output has [new] bytes. *)
Fixpoint entry_rewrites (valid : Z -> bool) (j i off new : Z) (rs : list (bytes * bytes))
    : list rewrite :=
  match rs with
  | [] => []
  | (k, v) :: rs =>
      let sz := zlen (rec_bytes k v) in
      if valid j then
        {| rw_key := k; rw_value := v; rw_new := new; rw_file := i; rw_orig := off; rw_size := sz |}
          :: entry_rewrites valid (j + 1) i (off + sz) (new + sz) rs
      else entry_rewrites valid (j + 1) i (off + sz) new rs
  end.

(** An input file: its header, its records, whatever follows them, and the
    bitmap of its invalid entries. *)
Record in_file : Type := {
  f_header : BlobFileHeader;
  f_records : list (bytes * bytes);
  f_tail : bytes;
  f_bitmap : bytes }.

Definition recs_bytes (rs : list (bytes * bytes)) : bytes :=
  concat (map (fun r => rec_bytes r.1 r.2) rs).

Definition file_bytes (f : in_file) : bytes :=
  BlobFileHeader_EncodeTo (f_header f) ++ recs_bytes (f_records f) ++ f_tail f.

Definition in_file_wf (f : in_file) : Prop :=
  (version (f_header f) = kVersion1 \/
   (version (f_header f) = kVersion2 /\ (flags (f_header f) = 0 \/ flags (f_header f) = 1))) /\
  Forall (fun r => fits r.1 r.2) (f_records f) /\
  zlen (f_records f) <= 8 * zlen (f_bitmap f) /\
  4 <= zlen (f_tail f).

(** Bit 0 of the bitmap means valid. *)
Definition f_valid (f : in_file) (j : Z) : bool := negb (bit_of (f_bitmap f) j).

Fixpoint files_rewrites (i new : Z) (fs : list in_file) : list rewrite :=
  match fs with
  | [] => []
  | f :: fs =>
      let l := entry_rewrites (f_valid f) 0 i (BlobFileHeader_size (f_header f)) new (f_records f) in
      l ++ files_rewrites (i + 1) (new + zlen (rws_data l)) fs
  end.

Definition gc_rewrites (fs : list in_file) : list rewrite := files_rewrites 0 12 fs.

(** ** The loops *)

Lemma SetZero_spec arr n : zlen arr = n -> Kernel.SetZero arr n = Some (replicate (Z.to_nat n) 0).
Proof.
  intros <-. unfold Kernel.SetZero. rewrite zlen_to_nat.
  rewrite (mem_write_at _ [] arr []); [|by rewrite app_nil_r|done|].
  - by rewrite app_nil_r.
  - unfold zlen. by rewrite length_replicate.
Qed.

(** Where the outputs stand: [dout] and [kout] are written, the rest is free. *)
Definition outputs (st : Kernel.KState) (dout dfree kout kfree : bytes) (n : Z) : Prop :=
  Kernel.output_data st = dout ++ dfree /\ Kernel.cur_output_data_offset st = zlen dout /\
  Kernel.output_key st = kout ++ kfree /\ Kernel.cur_output_key_offset st = zlen kout /\
  Kernel.rewrite_key_num st = n.

Lemma rws_data_cons r l : rws_data (r :: l) = rw_bytes r ++ rws_data l.
Proof. done. Qed.

Lemma rws_keys_cons r l : rws_keys (r :: l) = rw_entry r ++ rws_keys l.
Proof. done. Qed.

Lemma zlen_drop_drop (l : bytes) n m :
  0 <= n -> 0 <= m -> drop (Z.to_nat m) (drop (Z.to_nat n) l) = drop (Z.to_nat (n + m)) l.
Proof. intros. rewrite drop_drop. f_equal. lia. Qed.

Lemma entry_loop_spec rs a post bms base valid i j data key ks value vs off st dout dfree kout kfree n :
  Forall (fun r => fits r.1 r.2) rs ->
  data + off = zlen a ->
  (forall x, j <= x < j + zlen rs -> Kernel.CheckValid x bms base = Some (valid x)) ->
  zlen key = Kernel.MAX_KEY_LENGTH -> zlen value = Kernel.MAX_VALUE_LENGTH ->
  outputs st dout dfree kout kfree n ->
  let l := entry_rewrites valid j i off (zlen dout) rs in
  zlen (rws_data l) <= zlen dfree -> zlen (rws_keys l) <= zlen kfree ->
  exists st', Kernel.entry_loop (length rs) j (a ++ recs_bytes rs ++ post) data bms base i
      key ks value vs off st = Some st' /\
    outputs st' (dout ++ rws_data l) (drop (Z.to_nat (zlen (rws_data l))) dfree)
      (kout ++ rws_keys l) (drop (Z.to_nat (zlen (rws_keys l))) kfree) (n + zlen l).
Proof.
  intros Hrs. revert a j key ks value vs off st dout dfree kout kfree n.
  induction Hrs as [|[k v] rs Hf Hrs IH];
    intros a j key ks value vs off st dout dfree kout kfree n Ha Hval Hkb Hvb Hst l Hd Hk.
  { exists st. subst l. cbn. rewrite !app_nil_r, Z.add_0_r. done. }
  cbn [length Kernel.entry_loop]. rewrite (SetZero_spec key), (SetZero_spec value) by done.
  cbn [mbind option_bind]. rewrite Hval by zlia. cbn [mbind option_bind].
  assert (zlen (replicate (Z.to_nat Kernel.MAX_KEY_LENGTH) 0) = Kernel.MAX_KEY_LENGTH) as Hz1 by done.
  assert (zlen (replicate (Z.to_nat Kernel.MAX_VALUE_LENGTH) 0) = Kernel.MAX_VALUE_LENGTH) as Hz2 by done.
  set (z1 := replicate (Z.to_nat Kernel.MAX_KEY_LENGTH) 0) in *.
  set (z2 := replicate (Z.to_nat Kernel.MAX_VALUE_LENGTH) 0) in *. clearbody z1 z2.
  change (recs_bytes ((k, v) :: rs)) with (rec_bytes k v ++ recs_bytes rs). rewrite <- app_assoc.
  cbn [fst snd] in Hf. destruct (fits_u32 k v Hf) as [Hku Hvu].
  assert (data + (off + zlen (rec_bytes k v)) = zlen (a ++ rec_bytes k v)) as Ha' by (rewrite zlen_app; lia).
  assert (forall x, j + 1 <= x < j + 1 + zlen rs -> Kernel.CheckValid x bms base = Some (valid x))
    as Hval' by (intros x Hx; apply Hval; zlia).
  subst l. cbn [entry_rewrites] in *. destruct (valid j).
  - rewrite GetKV_valid_spec by done. cbn [mbind option_bind].
    destruct Hst as (Hod & Hcd & Hok & Hck & Hn). rewrite Hod, Hcd, Hok, Hck.
    set (r0 := {| rw_key := k; rw_value := v; rw_new := zlen dout; rw_file := i;
                  rw_orig := off; rw_size := zlen (rec_bytes k v) |}) in *.
    rewrite rws_data_cons, zlen_app in Hd. rewrite rws_keys_cons, zlen_app in Hk.
    replace (zlen dout + zlen (rec_bytes k v)) with (zlen (dout ++ rw_bytes r0)) in * by by rewrite zlen_app.
    set (l := entry_rewrites _ _ _ _ _ rs) in *.
    pose proof (zlen_nonneg (rws_data l)). pose proof (zlen_nonneg (rws_keys l)).
    pose proof (zlen_nonneg (rw_bytes r0)). pose proof (zlen_nonneg (rw_entry r0)).
    destruct (split_hole dfree (zlen (rw_bytes r0))) as (dh & dr & -> & Hdh & Edr); [lia|].
    destruct (split_hole kfree (zlen (rw_entry r0))) as (kh & kr & -> & Hkh & Ekr); [lia|].
    replace (off + zlen (rec_bytes k v) - off) with (rw_size r0) by (cbn; lia).
    rewrite (PutOutputKey_spec kout kh kr) by done. cbn [mbind option_bind].
    rewrite (PutOutputData_spec dout dh dr) by done. cbn [mbind option_bind].
    rewrite app_assoc. rewrite zlen_app in Hd, Hk.
    edestruct (IH (a ++ rec_bytes k v) (j + 1) (k ++ drop (length k) z1) (zlen k)
      (v ++ drop (length v) z2) (zlen v) (off + zlen (rec_bytes k v))
      {| Kernel.output_data := dout ++ rec_bytes k v ++ dr;
         Kernel.output_key := kout ++ key_entry k (zlen dout) i off (rw_size r0) ++ kr;
         Kernel.cur_output_data_offset := zlen dout + zlen (rec_bytes k v);
         Kernel.cur_output_key_offset :=
           zlen kout + zlen (key_entry k (zlen dout) i off (rw_size r0));
         Kernel.rewrite_key_num := Kernel.rewrite_key_num st + 1 |}
      (dout ++ rw_bytes r0) dr (kout ++ rw_entry r0) kr (n + 1)) as (st' & -> & Hst').
    + done.
    + done.
    + destruct Hf as (_ & _ & Hkl & _). rewrite zlen_app. unfold zlen in *. rewrite length_drop. lia.
    + destruct Hf as (_ & _ & _ & Hvl). rewrite zlen_app. unfold zlen in *. rewrite length_drop. lia.
    + unfold outputs. cbn. rewrite !zlen_app, <- !app_assoc, Hn. done.
    + fold l. lia.
    + fold l. lia.
    + exists st'. split; [done|]. fold l in Hst'. rewrite rws_data_cons, rws_keys_cons.
      rewrite !zlen_app, <- !zlen_drop_drop by lia.
      rewrite <- Hdh, <- Hkh, !zlen_to_nat, !drop_app_length.
      rewrite !zlen_to_nat in Hst'.
      rewrite zlen_cons. replace (n + (1 + zlen l)) with (n + 1 + zlen l) by lia.
      by rewrite !(app_assoc dout), !(app_assoc kout).
  - rewrite GetKV_invalid_spec by done. cbn [mbind option_bind]. rewrite app_assoc.
    by apply IH.
Qed.

Definition datas (fs : list in_file) : bytes := concat (map file_bytes fs).
Definition bitmaps (fs : list in_file) : bytes := concat (map f_bitmap fs).

Lemma rws_data_app a b : rws_data (a ++ b) = rws_data a ++ rws_data b.
Proof. unfold rws_data. by rewrite map_app, concat_app. Qed.

Lemma rws_keys_app a b : rws_keys (a ++ b) = rws_keys a ++ rws_keys b.
Proof. unfold rws_keys. by rewrite map_app, concat_app. Qed.

Lemma f_valid_check f x base bpre bpost :
  in_file_wf f -> base = zlen bpre -> 0 <= x < zlen (f_records f) ->
  Kernel.CheckValid x (bpre ++ f_bitmap f ++ bpost) base = Some (f_valid f x).
Proof.
  intros (_ & _ & Hbm & _) Hb Hx. unfold f_valid. apply CheckValid_spec; [done|lia|].
  apply Z.div_lt_upper_bound; lia.
Qed.

Lemma file_loop_spec fs apre apost bpre bpost i key value data base st dout dfree kout kfree n :
  Forall in_file_wf fs -> data = zlen apre -> base = zlen bpre ->
  zlen key = Kernel.MAX_KEY_LENGTH -> zlen value = Kernel.MAX_VALUE_LENGTH ->
  outputs st dout dfree kout kfree n ->
  let l := files_rewrites i (zlen dout) fs in
  zlen (rws_data l) <= zlen dfree -> zlen (rws_keys l) <= zlen kfree ->
  exists st', Kernel.file_loop (map (fun f => zlen (file_bytes f)) fs)
      (map (fun f => zlen (f_bitmap f)) fs) (map (fun f => zlen (f_records f)) fs) i key value
      (apre ++ datas fs ++ apost) data (bpre ++ bitmaps fs ++ bpost) base st = Some st' /\
    outputs st' (dout ++ rws_data l) (drop (Z.to_nat (zlen (rws_data l))) dfree)
      (kout ++ rws_keys l) (drop (Z.to_nat (zlen (rws_keys l))) kfree) (n + zlen l).
Proof.
  intros Hfs. revert apre bpre i data base st dout dfree kout kfree n.
  induction Hfs as [|f fs Hf Hfs IH];
    intros apre bpre i data base st dout dfree kout kfree n Ha Hb Hkb Hvb Hst l Hd Hk.
  { exists st. subst l. cbn. rewrite !app_nil_r, Z.add_0_r. done. }
  pose proof Hf as (Hhdr & Hrecs & Hbm & Htail).
  cbn [map Kernel.file_loop]. change (datas (f :: fs)) with (file_bytes f ++ datas fs).
  change (bitmaps (f :: fs)) with (f_bitmap f ++ bitmaps fs).
  set (h := BlobFileHeader_EncodeTo (f_header f)).
  assert (zlen h = BlobFileHeader_size (f_header f)) as Hhl.
  { apply (BlobFileHeader_roundtrip {| version := 2; flags := flags (f_header f) |} (f_header f) []).
    destruct Hhdr as [?|[? ?]]; auto. }
  assert (apre ++ (file_bytes f ++ datas fs) ++ apost
    = apre ++ h ++ (recs_bytes (f_records f) ++ f_tail f ++ datas fs ++ apost)) as Hbuf.
  { unfold file_bytes. fold h. by rewrite <- !app_assoc. }
  rewrite Hbuf. unfold h. rewrite (DecodeHeader_spec apre); [|done|done|].
  2:{ rewrite !zlen_app. pose proof (zlen_nonneg (recs_bytes (f_records f))).
      pose proof (zlen_nonneg (datas fs)). pose proof (zlen_nonneg apost).
      unfold BlobFileHeader_size in *.
      case_match; unfold kMinEncodedLength, BlobFormat.kBlobMaxHeaderSize; lia. }
  cbn [mbind option_bind]. fold h. rewrite (app_assoc apre).
  subst l. cbn [files_rewrites] in *. rewrite <- Hhl in *.
  set (l1 := entry_rewrites (f_valid f) 0 i (zlen h) (zlen dout) (f_records f)) in *.
  set (l2 := files_rewrites (i + 1) (zlen dout + zlen (rws_data l1)) fs) in *.
  rewrite rws_data_app, zlen_app in Hd. rewrite rws_keys_app, zlen_app in Hk.
  pose proof (zlen_nonneg (rws_data l1)). pose proof (zlen_nonneg (rws_keys l1)).
  pose proof (zlen_nonneg (rws_data l2)). pose proof (zlen_nonneg (rws_keys l2)).
  edestruct (entry_loop_spec (f_records f) (apre ++ h) (f_tail f ++ datas fs ++ apost)
    (bpre ++ f_bitmap f ++ bitmaps fs ++ bpost) base (f_valid f) i 0 data key 0 value 0 (zlen h)
    st dout dfree kout kfree n) as (st1 & E1 & Hst1); try done.
  { rewrite zlen_app. lia. }
  { intros x Hx. by apply f_valid_check. }
  { fold l1. lia. }
  { fold l1. lia. }
  rewrite <- (app_assoc (f_bitmap f)), zlen_to_nat, E1. cbn [mbind option_bind]. fold l1 in Hst1.
  edestruct (IH (apre ++ file_bytes f) (bpre ++ f_bitmap f) (i + 1)
    (data + zlen (file_bytes f)) (base + zlen (f_bitmap f)) st1) as (st' & E' & Hst');
    [rewrite zlen_app; lia|rewrite zlen_app; lia|done|done|exact Hst1| | |].
  1,2: rewrite zlen_app; fold l2; unfold zlen in *; rewrite length_drop; lia.
  exists st'. split.
  - rewrite <- E'. f_equal.
    + unfold file_bytes. fold h. by rewrite <- !app_assoc.
    + by rewrite <- !app_assoc.
  - rewrite zlen_app in Hst'. fold l2 in Hst'. rewrite !zlen_drop_drop in Hst' by lia.
    rewrite rws_data_app, rws_keys_app, !zlen_app, !app_assoc.
    by replace (n + (zlen l1 + zlen l2)) with (n + zlen l1 + zlen l2) by lia.
Qed.

(** The output file: header, kept records, alignment padding, footer. *)
Definition out_data (fs : list in_file) (p old : bytes) : bytes :=
  header_bytes ++ rws_data (gc_rewrites fs) ++ p ++ footer_bytes old.

Definition out_size (fs : list in_file) : Z :=
  let cur := 12 + zlen (rws_data (gc_rewrites fs)) in cur + footer_pad cur + 32.

Lemma gcKernel_run fs apost bpost key value odata okey :
  Forall in_file_wf fs -> is_bytes odata ->
  zlen key = Kernel.MAX_KEY_LENGTH -> zlen value = Kernel.MAX_VALUE_LENGTH ->
  out_size fs <= zlen odata -> zlen (rws_keys (gc_rewrites fs)) <= zlen okey ->
  exists p old orest, let l := gc_rewrites fs in
    zlen p = footer_pad (12 + zlen (rws_data l)) /\ zlen old = 18 /\ is_bytes old /\
    zlen (out_data fs p old) = out_size fs /\
    Kernel.gcKernel key value (datas fs ++ apost) (bitmaps fs ++ bpost) odata okey
      (map (fun f => zlen (file_bytes f)) fs) (map (fun f => zlen (f_bitmap f)) fs)
      (map (fun f => zlen (f_records f)) fs)
    = Some (out_data fs p old ++ orest,
            rws_keys l ++ drop (Z.to_nat (zlen (rws_keys l))) okey,
            [zlen l; out_size fs; zlen (rws_keys l)]).
Proof.
  intros Hfs Hob Hkb Hvb Hsz Hk. unfold out_size in *. cbv zeta in *.
  set (l := gc_rewrites fs) in *. set (cur := 12 + zlen (rws_data l)) in *.
  destruct (footer_pad_spec cur) as [Hp _]. pose proof (zlen_nonneg (rws_data l)).
  destruct (split_hole odata 12) as (h0 & dfree & -> & Hh0 & _); [lia|].
  rewrite zlen_app in Hsz. apply Forall_app in Hob as [_ Hob].
  unfold Kernel.gcKernel. rewrite EncodeHeader_spec by done. cbn [mbind option_bind].
  edestruct (file_loop_spec fs [] apost [] bpost 0 key value 0 0
    {| Kernel.output_data := header_bytes ++ dfree; Kernel.output_key := okey;
       Kernel.cur_output_data_offset := 12; Kernel.cur_output_key_offset := 0;
       Kernel.rewrite_key_num := 0 |} header_bytes dfree [] okey 0)
    as (st & E & Hod & Hcd & Hok & Hck & Hn); [done..| | |].
  { change (zlen header_bytes) with 12. fold (gc_rewrites fs). fold l. lia. }
  { change (zlen header_bytes) with 12. by fold (gc_rewrites fs). }
  cbn [app] in *. rewrite E. cbn [mbind option_bind].
  change (zlen header_bytes) with 12 in *. fold (gc_rewrites fs) in *. fold l in Hod, Hcd, Hok, Hck, Hn.
  assert (is_bytes (drop (Z.to_nat (zlen (rws_data l))) dfree)) as Hrb by by apply Forall_drop.
  assert (zlen (drop (Z.to_nat (zlen (rws_data l))) dfree) = zlen dfree - zlen (rws_data l)) as Hrl.
  { unfold zlen in *. rewrite length_drop. lia. }
  set (dr := drop _ dfree) in *.
  destruct (split_hole dr (footer_pad cur + 32)) as (fh & orest & Er & Hfh & _); [lia|].
  assert (Kernel.cur_output_data_offset st = cur) as Hcur.
  { rewrite Hcd, zlen_app. done. }
  rewrite Hod, Er, Hcur. rewrite Er in Hrb. apply Forall_app in Hrb as [Hfb _].
  destruct (EncodeFooter_spec (header_bytes ++ rws_data l) fh orest cur)
    as (p & old & Hpl & Hold & Hob' & ->); [by rewrite <- Hcur, Hcd|done|done|].
  cbn [mbind option_bind]. exists p, old, orest.
  split; [done|]. split; [done|]. split; [done|]. split.
  { unfold out_data, footer_bytes. fold l. rewrite !zlen_app. change (zlen header_bytes) with 12.
    autorewrite with zlen. change (zlen [0; 0]) with 2. unfold cur in *. lia. }
  rewrite Hok, Hck, Hn. unfold out_data. fold l. by rewrite <- !app_assoc.
Qed.
