(* ===== verification/HwDriver.v ===== *)
(** * HwDriver: the host side of an offloaded garbage collection

    [hadware_gc_driver.h] and [hadware_gc_driver.cc]: filling the device
    buffers, running the kernel, writing its output file, decoding the
    relocation entries, and the queue of free compute units.

    The OpenCL calls move memory between host and device; the model has the
    resulting memory. What was in a device buffer before, which nothing
    initialises, is an argument. *)
From S2P Require Import Prelude Coding Crc32c BlobFormat BitMap HwKernel HwKernelProofs.

Local Open Scope Z_scope.

Module Driver.

(** How a run ends: with a value, by [exit(EXIT_FAILURE)], or with an access
    outside a buffer. *)
Inductive outcome (A : Type) : Type :=
  | Done (a : A)
  | ExitProcess
  | OutOfBounds.
Arguments Done {A} a.
Arguments ExitProcess {A}.
Arguments OutOfBounds {A}.

Definition obind {A B} (e : outcome A) (k : A -> outcome B) : outcome B :=
  match e with Done a => k a | ExitProcess => ExitProcess | OutOfBounds => OutOfBounds end.

Definition checked {A} (e : option A) : outcome A :=
  match e with Some a => Done a | None => OutOfBounds end.

Definition OUTPUT_KEY_SIZE : Z := 4 * 5 + 24.
Definition OUTPUT_META_SIZE : nat := 4.

(** [GetOutputKey]: the key, its four words and the new offset; a null
    pointer from [GetVarint32Ptr] makes the rest undefined. *)
Definition GetOutputKey (data : bytes) (cur_offset : Z) : option (bytes * list Z * Z) :=
  let data := drop (Z.to_nat cur_offset) data in
  '(key_size, rest) ← GetVarint32Ptr (take 5 data);
  let offset := zlen (take 5 data) - zlen rest in
  key ← mem_read data offset key_size;
  d0 ← mem_read data (offset + key_size) 4;
  d1 ← mem_read data (offset + key_size + 4) 4;
  d2 ← mem_read data (offset + key_size + 8) 4;
  d3 ← mem_read data (offset + key_size + 12) 4;
  Some (key, [DecodeFixed32 d0; DecodeFixed32 d1; DecodeFixed32 d2; DecodeFixed32 d3],
        cur_offset + (offset + key_size + 16)).

Fixpoint GetOutputKeys (n : nat) (data : bytes) (cur_offset : Z) : option (list (bytes * list Z)) :=
  match n with
  | O => Some []
  | S n =>
      '(k, cur_offset) ← GetOutputKey data cur_offset;
      ks ← GetOutputKeys n data cur_offset;
      Some (k :: ks)
  end.

(** Sizes are rounded up to megabytes, always adding one. *)
Definition round_up (size : Z) : Z := Z.shiftl (Z.shiftr size 20 + 1) 20.

(** 128MB. *)
Definition buf_size : Z := 128 * 1024 * 1024.

(** [for (iter = 0; iter < size / buf_size + 1; ++iter) pread(...)]. *)
Fixpoint read_loop (iters : nat) (file : bytes) (buf : bytes) (p2pPtr read_offset : Z)
    : outcome (bytes * Z) :=
  match iters with
  | O => Done (buf, read_offset)
  | S iters =>
      let chunk := take (Z.to_nat buf_size) (drop (Z.to_nat read_offset) file) in
      if zlen chunk <=? 0 then ExitProcess
      else obind (checked (mem_write buf p2pPtr chunk)) (fun buf =>
             read_loop iters file buf (p2pPtr + buf_size) (read_offset + zlen chunk))
  end.

(** The loop over the input files: the device buffer and the bytes read. *)
Fixpoint read_inputs (files : list bytes) (buf : bytes) (input_offset p2p_read_size : Z)
    : outcome (bytes * Z) :=
  match files with
  | [] => Done (buf, p2p_read_size)
  | file :: files =>
      let size := round_up (zlen file) in
      obind (read_loop (Z.to_nat (size / buf_size + 1)) file buf input_offset 0)
        (fun '(buf, read_offset) =>
           read_inputs files buf (input_offset + size) (p2p_read_size + read_offset))
  end.

Definition sum (l : list Z) : Z := fold_right Z.add 0 l.

(** [memcpy] of every bitmap into the zeroed staging buffer. *)
Fixpoint copy_bitmaps (bms : list BitMap) (tmp : bytes) (input_offset : Z) : option bytes :=
  match bms with
  | [] => Some tmp
  | bm :: bms =>
      bits ← bits_ bm;
      bs ← mem_read bits 0 (byte_size_ bm);
      tmp ← mem_write tmp input_offset bs;
      copy_bitmaps bms tmp (input_offset + byte_size_ bm)
  end.

Record gc_result : Type := {
  rewrite_keys : list (bytes * list Z);
  output_file : bytes;
  output_meta : list Z;
  read_bytes : Z }.

(** The second half of [run_gc_kernel]: allocate the outputs, run the kernel,
    write its output file and decode its relocation entries. *)
Definition launch (key0 value0 : bytes) (bufInputFiles bufInputBitmaps dev_out : bytes)
    (file_sizes bitmap_sizes num_entries : list Z) (p2p_read_size : Z) : outcome gc_result :=
  let output_key_size := round_up (sum num_entries * OUTPUT_KEY_SIZE) in
  let output_key_tmp := replicate (Z.to_nat output_key_size) 0 in
  obind (checked (Kernel.gcKernel key0 value0 bufInputFiles bufInputBitmaps dev_out
                    output_key_tmp file_sizes bitmap_sizes num_entries))
    (fun '(bufOutputFile, bufOutputKey, meta) =>
  let output_meta_tmp := meta ++ replicate (OUTPUT_META_SIZE - length meta) 0 in
  let written := take (Z.to_nat (nth 1 output_meta_tmp 0)) bufOutputFile in
  if zlen written <=? 0 then ExitProcess else
  obind (checked (GetOutputKeys (Z.to_nat (nth 0 output_meta_tmp 0)) bufOutputKey 0))
    (fun keys =>
       Done {| rewrite_keys := keys; output_file := written;
               output_meta := output_meta_tmp; read_bytes := p2p_read_size |})).

(** [run_gc_kernel]: [dev_in] and [dev_out] are the device buffers as
    allocated, [key0] and [value0] the kernel's local arrays. *)
Definition run_gc_kernel (key0 value0 : bytes) (dev_in dev_out : bytes)
    (input_files : list bytes) (bms : list BitMap) (input_entries : list Z)
    : outcome gc_result :=
  let file_sizes := map (fun f => round_up (zlen f)) input_files in
  obind (read_inputs input_files dev_in 0 0) (fun '(bufInputFiles, p2p_read_size) =>
  let bitmap_sizes := map byte_size_ bms in
  let bitmaps_tmp := replicate (Z.to_nat (round_up (sum bitmap_sizes))) 0 in
  obind (checked (copy_bitmaps bms bitmaps_tmp 0)) (fun bufInputBitmaps =>
  launch key0 value0 bufInputFiles bufInputBitmaps dev_out file_sizes bitmap_sizes
    input_entries p2p_read_size)).

(** ** The queue of free compute units *)

(** The constructor pushes the indexes of the kernel names but the first. *)
Definition gc_kernel_count : nat := 9.

Definition free_index_queue_init : list Z := seqZ 1 (Z.of_nat gc_kernel_count - 1).

Definition get_free_cu_index (q : list Z) (result : Z) : Status * Z * list Z :=
  match q with
  | front :: q => (OK, front, q)
  | [] => (Busy, result, [])
  end.

Definition set_free_cu_index (q : list Z) (index : Z) : Status * list Z := (OK, q ++ [index]).

End Driver.
