(* ===== verification/HwDriverProofs.v ===== *)
(** * HwDriverProofs: what an offloaded garbage collection returns

    The driver's loops, and the composition of driver and kernel: the output
    file, the relocation entries, and the file sizes for which the read loop
    ends the process. *)
From S2P Require Import Prelude Coding Crc32c BlobFormat BitMap HwKernel HwKernelProofs HwDriver.

Local Open Scope Z_scope.

(** ** Relocation entries *)

Definition rw_words (r : rewrite) : bytes * list Z :=
  (rw_key r, [u32 (rw_new r); u32 (rw_file r); u32 (rw_orig r); u32 (rw_size r)]).

Lemma le_value_PutFixed32 v : le_value (PutFixed32 v) = u32 v.
Proof. unfold PutFixed32. by rewrite le_value_le_bytes. Qed.

Lemma DecodeFixed32_words v : DecodeFixed32 (PutFixed32 (u32 v)) = u32 v.
Proof.
  rewrite <- (app_nil_r (PutFixed32 _)). apply DecodeFixed32_Put. apply is_u32_u32.
Qed.

Lemma GetOutputKey_entry pre k n f o s rest cur :
  is_u32 (zlen k) -> cur = zlen pre ->
  Driver.GetOutputKey (pre ++ key_entry k n f o s ++ rest) cur
    = Some (k, [u32 n; u32 f; u32 o; u32 s], cur + zlen (key_entry k n f o s)).
Proof.
  intros Hk ->. unfold Driver.GetOutputKey. rewrite zlen_to_nat, drop_app_length.
  unfold key_entry, PutLengthPrefixedSlice. rewrite u32_small by done. rewrite <- !app_assoc.
  set (enc := PutVarint32 (zlen k)).
  assert (1 <= zlen enc <= 5) as Henc by apply PutVarint32_bounds.
  set (w0 := PutFixed32 (u32 n)). set (w1 := PutFixed32 (u32 f)).
  set (w2 := PutFixed32 (u32 o)). set (w3 := PutFixed32 (u32 s)).
  assert (zlen w0 = 4 /\ zlen w1 = 4 /\ zlen w2 = 4 /\ zlen w3 = 4) as (H0 & H1 & H2 & H3)
    by (unfold w0, w1, w2, w3; repeat split; zlia).
  set (tl := k ++ w0 ++ w1 ++ w2 ++ w3 ++ rest).
  assert (take 5 (enc ++ tl) = enc ++ take (5 - length enc) tl) as ->.
  { apply take_app_ge. unfold zlen in Henc. lia. }
  change GetVarint32Ptr with GetVarint32. 
  rewrite (GetVarint32_Put (zlen k) (take (5 - length enc) tl) Hk : GetVarint32 (enc ++ _) = _).
  cbn [mbind option_bind].
  replace (zlen (enc ++ take (5 - length enc) tl) - zlen (take (5 - length enc) tl))
    with (zlen enc) by zlia.
  unfold tl.
  rewrite (mem_read_at _ enc k (w0 ++ w1 ++ w2 ++ w3 ++ rest) (zlen enc) (zlen k)) by done. cbn [mbind option_bind].
  rewrite (mem_read_at _ (enc ++ k) w0 (w1 ++ w2 ++ w3 ++ rest)
    (zlen enc + zlen k) 4);
    [|by rewrite <- !app_assoc|zlia|lia]. cbn [mbind option_bind].
  rewrite (mem_read_at _ (enc ++ k ++ w0) w1 (w2 ++ w3 ++ rest)
    (zlen enc + zlen k + 4) 4);
    [|by rewrite <- !app_assoc|zlia|lia]. cbn [mbind option_bind].
  rewrite (mem_read_at _ (enc ++ k ++ w0 ++ w1) w2 (w3 ++ rest)
    (zlen enc + zlen k + 8) 4);
    [|by rewrite <- !app_assoc|zlia|lia]. cbn [mbind option_bind].
  rewrite (mem_read_at _ (enc ++ k ++ w0 ++ w1 ++ w2) w3 rest
    (zlen enc + zlen k + 12) 4);
    [|by rewrite <- !app_assoc|zlia|lia]. cbn [mbind option_bind].
  unfold w0 at 1, w1 at 1, w2 at 1, w3 at 1. rewrite !DecodeFixed32_words.
  do 2 f_equal. zlia.
Qed.

Lemma GetOutputKeys_entries l pre rest cur :
  Forall (fun r => is_u32 (zlen (rw_key r))) l -> cur = zlen pre ->
  Driver.GetOutputKeys (length l) (pre ++ rws_keys l ++ rest) cur = Some (map rw_words l).
Proof.
  intros Hl. revert pre cur. induction Hl as [|r l Hr Hl IH]; intros pre cur Hc; [done|].
  cbn [length Driver.GetOutputKeys map]. rewrite rws_keys_cons. unfold rw_entry.
  rewrite <- app_assoc, GetOutputKey_entry by done. cbn [mbind option_bind].
  rewrite app_assoc, IH by zlia. done.
Qed.

(** ** Reading the input files *)

Lemma buf_size_pos : 0 < Driver.buf_size.
Proof. reflexivity. Qed.

#[local] Opaque Driver.buf_size.

(** With enough rounds, none of them past the end, a file is read whole. *)
Lemma read_loop_ok n a hole c file off p :
  p = zlen a -> 0 <= off <= zlen file -> zlen file - off <= zlen hole ->
  (Z.of_nat n - 1) * Driver.buf_size < zlen file - off <= Z.of_nat n * Driver.buf_size ->
  Driver.read_loop n file (a ++ hole ++ c) p off
    = Driver.Done (a ++ drop (Z.to_nat off) file ++ drop (Z.to_nat (zlen file - off)) hole ++ c,
                   zlen file).
Proof.
  pose proof buf_size_pos as HB. revert a hole off p.
  induction n as [|n IH]; intros a hole off p -> Hoff Hhole Hn; cbn [Driver.read_loop].
  { replace off with (zlen file) by lia. by rewrite zlen_to_nat, drop_all, Z.sub_diag. }
  set (rem := drop (Z.to_nat off) file).
  assert (zlen rem = zlen file - off) as Hrem by (unfold rem, zlen in *; rewrite length_drop; lia).
  set (chunk := take (Z.to_nat Driver.buf_size) rem).
  assert (zlen chunk = Z.min Driver.buf_size (zlen rem)) as Hch
    by (unfold chunk, zlen; rewrite length_take; lia).
  destruct (Z.leb_spec (zlen chunk) 0) as [|Hpos]; [lia|].
  destruct (split_hole hole (zlen chunk)) as (h & r & -> & Hh & Er); [lia|]. rewrite <- app_assoc.
  rewrite mem_write_app by done. cbn [Driver.checked Driver.obind].
  rewrite zlen_app in Hhole.
  destruct (decide (zlen rem <= Driver.buf_size)) as [Hlast|Hmore].
  - assert (n = O) as -> by (destruct n; [done|nia]). cbn [Driver.read_loop].
    assert (chunk = rem) as -> by (unfold chunk; rewrite take_ge; [done|]; unfold zlen in Hlast; lia).
    rewrite <- Hrem, <- Hh, zlen_to_nat, drop_app_length. f_equal. f_equal. lia.
  - rewrite app_assoc, IH; [| zlia| lia | lia | lia].
    f_equal. f_equal. rewrite <- !app_assoc. f_equal.
    replace (Z.to_nat (off + zlen chunk)) with (Z.to_nat off + Z.to_nat (zlen chunk))%nat by lia.
    rewrite <- drop_drop. fold rem.
    rewrite (app_assoc chunk). f_equal.
    + unfold chunk at 1. replace (Z.to_nat (zlen chunk)) with (Z.to_nat Driver.buf_size) by lia.
      by rewrite take_drop.
    + f_equal. replace (Z.to_nat (zlen file - off))
        with (length h + Z.to_nat (zlen file - (off + zlen chunk)))%nat by (unfold zlen in *; lia).
      by rewrite <- drop_drop, drop_app_length.
Qed.

(** A round that starts at the end of the file ends the process. *)
Lemma read_loop_exit n a hole c file off p :
  p = zlen a -> 0 <= off <= zlen file -> zlen file - off <= zlen hole ->
  (0 < n)%nat -> zlen file - off <= (Z.of_nat n - 1) * Driver.buf_size ->
  Driver.read_loop n file (a ++ hole ++ c) p off = Driver.ExitProcess.
Proof.
  pose proof buf_size_pos as HB. revert a hole off p.
  induction n as [|n IH]; intros a hole off p -> Hoff Hhole Hpos Hn; [lia|]. cbn [Driver.read_loop].
  set (rem := drop (Z.to_nat off) file).
  assert (zlen rem = zlen file - off) as Hrem by (unfold rem, zlen in *; rewrite length_drop; lia).
  set (chunk := take (Z.to_nat Driver.buf_size) rem).
  assert (zlen chunk = Z.min Driver.buf_size (zlen rem)) as Hch
    by (unfold chunk, zlen; rewrite length_take; lia).
  destruct (Z.leb_spec (zlen chunk) 0) as [|Hcpos]; [done|].
  destruct (split_hole hole (zlen chunk)) as (h & r & -> & Hh & _); [lia|]. rewrite <- app_assoc.
  rewrite mem_write_app by done. cbn [Driver.checked Driver.obind]. rewrite zlen_app in Hhole.
  destruct (decide (zlen rem <= Driver.buf_size)) as [Hlast|Hmore].
  - destruct n as [|n]; [lia|]. cbn [Driver.read_loop].
    rewrite drop_ge by (unfold zlen in *; lia). rewrite take_nil. done.
  - rewrite app_assoc. apply IH; [zlia|lia|lia|lia|lia].
Qed.

Lemma round_up_spec s :
  0 <= s -> s < Driver.round_up s <= s + 1048576 /\ Driver.round_up s mod 4096 = 0.
Proof.
  intros Hs. unfold Driver.round_up. rewrite Z.shiftl_mul_pow2, Z.shiftr_div_pow2 by lia.
  change (2 ^ 20) with 1048576.
  pose proof (Z.div_mod s 1048576 ltac:(lia)). pose proof (Z.mod_pos_bound s 1048576 ltac:(lia)).
  split; [lia|]. replace ((s / 1048576 + 1) * 1048576) with ((s / 1048576 + 1) * 256 * 4096) by lia.
  apply Z.mod_mul. lia.
Qed.

(** The sizes the loop can read: the last of its rounds starts before the end. *)
Definition readable (s : Z) : Prop :=
  Driver.round_up s / Driver.buf_size * Driver.buf_size < s.

Lemma read_input_ok a hole c file p :
  p = zlen a -> zlen hole = Driver.round_up (zlen file) -> readable (zlen file) ->
  Driver.read_loop (Z.to_nat (Driver.round_up (zlen file) / Driver.buf_size + 1)) file
      (a ++ hole ++ c) p 0
    = Driver.Done (a ++ (file ++ drop (length file) hole) ++ c, zlen file).
Proof.
  intros Hp Hh Hr. pose proof (zlen_nonneg file) as Hnn. pose proof buf_size_pos as HB.
  destruct (round_up_spec (zlen file) Hnn) as [Hru _]. unfold readable in Hr.
  pose proof (Z.div_mod (Driver.round_up (zlen file)) Driver.buf_size ltac:(lia)).
  pose proof (Z.mod_pos_bound (Driver.round_up (zlen file)) Driver.buf_size ltac:(lia)).
  assert (0 <= Driver.round_up (zlen file) / Driver.buf_size).
  { apply Z.div_pos; lia. }
  rewrite read_loop_ok; [|done|lia|lia|].
  - rewrite Z.sub_0_r, zlen_to_nat. rewrite <- app_assoc. done.
  - rewrite Z2Nat.id by lia. rewrite !Z.sub_0_r. lia.
Qed.

(** The image of a file in its slot of the device buffer: the bytes that the
    buffer had before follow it. *)
Definition device_image (f f' : in_file) : Prop :=
  f_header f' = f_header f /\ f_records f' = f_records f /\ f_bitmap f' = f_bitmap f /\
  (exists g, f_tail f' = f_tail f ++ g) /\
  zlen (file_bytes f') = Driver.round_up (zlen (file_bytes f)).

Lemma device_image_wf f f' : device_image f f' -> in_file_wf f -> in_file_wf f'.
Proof.
  intros (Hh & Hr & Hb & (g & Ht) & _) (H1 & H2 & H3 & H4). unfold in_file_wf.
  rewrite Hh, Hr, Hb, Ht. split; [done|]. split; [done|]. split; [done|]. zlia.
Qed.

Lemma device_images_rewrites fs fs' i new :
  Forall2 device_image fs fs' -> files_rewrites i new fs' = files_rewrites i new fs.
Proof.
  intros H. revert i new. induction H as [|f f' fs fs' (Hh & Hr & Hb & _) _ IH]; intros i new; [done|].
  cbn [files_rewrites]. unfold f_valid. rewrite Hh, Hr, Hb. f_equal. apply IH.
Qed.

Definition slots (fs : list in_file) : Z :=
  Driver.sum (map (fun f => Driver.round_up (zlen (file_bytes f))) fs).

Lemma sum_cons {A} (g : A -> Z) x l : Driver.sum (map g (x :: l)) = g x + Driver.sum (map g l).
Proof. done. Qed.

Lemma slots_cons f fs :
  slots (f :: fs) = Driver.round_up (zlen (file_bytes f)) + slots fs.
Proof. done. Qed.

Lemma slots_nonneg fs : 0 <= slots fs.
Proof.
  induction fs as [|f fs IH]; [done|]. rewrite slots_cons.
  pose proof (round_up_spec _ (zlen_nonneg (file_bytes f))).
  pose proof (zlen_nonneg (file_bytes f)). lia.
Qed.

Lemma read_inputs_ok fs a hole p r :
  p = zlen a -> zlen hole = slots fs -> Forall (fun f => readable (zlen (file_bytes f))) fs ->
  exists fs', Forall2 device_image fs fs' /\
    Driver.read_inputs (map file_bytes fs) (a ++ hole) p r
      = Driver.Done (a ++ datas fs', r + Driver.sum (map (fun f => zlen (file_bytes f)) fs)).
Proof.
  intros -> Hh Hr. revert a hole r Hh.
  induction Hr as [|f fs Hf Hfs IH]; intros a hole r Hh.
  { exists []. split; [constructor|]. destruct hole; [|exfalso; cbn in Hh; zlia].
    cbn. by rewrite Z.add_0_r. }
  rewrite slots_cons in Hh.
  pose proof (slots_nonneg fs) as Hs. pose proof (zlen_nonneg (file_bytes f)) as Hnn.
  destruct (round_up_spec (zlen (file_bytes f)) Hnn) as [Hru _].
  destruct (split_hole hole (Driver.round_up (zlen (file_bytes f)))) as (h & hr & -> & Hhl & _); [lia|].
  rewrite zlen_app in Hh. cbn [map Driver.read_inputs].
  rewrite read_input_ok by done. cbn [Driver.obind]. rewrite app_assoc.
  set (g := drop (length (file_bytes f)) h).
  assert (zlen (file_bytes f ++ g) = Driver.round_up (zlen (file_bytes f))) as Hg.
  { unfold g. unfold zlen in *. rewrite length_app, length_drop. lia. }
  replace (zlen a + Driver.round_up (zlen (file_bytes f)))
    with (zlen (a ++ file_bytes f ++ g)) by (rewrite zlen_app; lia).
  destruct (IH (a ++ file_bytes f ++ g) hr (r + zlen (file_bytes f))) as (fs' & Him & ->); [lia|].
  set (f' := {| f_header := f_header f; f_records := f_records f;
                f_tail := f_tail f ++ g; f_bitmap := f_bitmap f |}).
  assert (file_bytes f' = file_bytes f ++ g) as Hf'.
  { unfold file_bytes. cbn. by rewrite <- !app_assoc. }
  exists (f' :: fs'). split.
  - constructor; [|done]. repeat (split; [done|]). split; [by exists g|]. by rewrite Hf'.
  - change (datas (f' :: fs')) with (file_bytes f' ++ datas fs'). rewrite Hf', <- !app_assoc.
    f_equal. f_equal. change (Driver.sum (?x :: ?l)) with (x + Driver.sum l). lia.
Qed.

(** The bitmaps that accompany the files. *)
Definition bitmap_of (f : in_file) (bm : BitMap) : Prop :=
  bits_ bm = Some (f_bitmap f) /\ byte_size_ bm = zlen (f_bitmap f).

Lemma copy_bitmaps_ok fs bms a hole p :
  Forall2 bitmap_of fs bms -> p = zlen a -> Driver.sum (map byte_size_ bms) <= zlen hole ->
  exists c, Driver.copy_bitmaps bms (a ++ hole) p = Some (a ++ bitmaps fs ++ c).
Proof.
  intros H. revert a hole p. induction H as [|f bm fs bms [Hb Hs] Hfs IH];
    intros a hole p -> Hh; cbn [Driver.copy_bitmaps].
  { by exists hole. }
  rewrite sum_cons in Hh. rewrite Hb. cbn [mbind option_bind].
  assert (0 <= Driver.sum (map byte_size_ bms)) as Hnn.
  { clear - Hfs. induction Hfs as [|f bm fs bms [_ Hs] _ IH]; [done|]. rewrite sum_cons.
    pose proof (zlen_nonneg (f_bitmap f)). lia. }
  pose proof (zlen_nonneg (f_bitmap f)).
  rewrite (mem_read_at _ [] (f_bitmap f) []); [|by rewrite app_nil_r|done|done].
  cbn [mbind option_bind].
  destruct (split_hole hole (byte_size_ bm)) as (h & hr & -> & Hhl & _); [lia|].
  rewrite (mem_write_at _ a h hr); [|done|done|lia]. cbn [mbind option_bind].
  rewrite app_assoc. rewrite zlen_app in Hh.
  destruct (IH (a ++ f_bitmap f) hr (zlen a + byte_size_ bm)) as (c & ->).
  { rewrite zlen_app. lia. }
  { lia. }
  exists c. change (bitmaps (f :: fs)) with (f_bitmap f ++ bitmaps fs). by rewrite <- !app_assoc.
Qed.

(** ** Room in the output buffer *)

Lemma zlen_rws_data_entries valid j i off new rs :
  zlen (rws_data (entry_rewrites valid j i off new rs)) <= zlen (recs_bytes rs).
Proof.
  revert j off new. induction rs as [|[k v] rs IH]; intros j off new; [done|].
  change (recs_bytes ((k, v) :: rs)) with (rec_bytes k v ++ recs_bytes rs).
  cbn [entry_rewrites]. destruct (valid j).
  - rewrite rws_data_cons, !zlen_app. specialize (IH (j + 1) (off + zlen (rec_bytes k v)) (new + zlen (rec_bytes k v))).
    unfold rw_bytes. cbn. lia.
  - rewrite zlen_app. pose proof (zlen_nonneg (rec_bytes k v)).
    specialize (IH (j + 1) (off + zlen (rec_bytes k v)) new). lia.
Qed.

Lemma zlen_rws_data_files i new fs :
  Forall (fun f => version (f_header f) = kVersion2 /\ 32 <= zlen (f_tail f)) fs ->
  zlen (rws_data (files_rewrites i new fs)) + 44 * zlen fs
    <= Driver.sum (map (fun f => zlen (file_bytes f)) fs).
Proof.
  intros H. revert i new. induction H as [|f fs [Hv Ht] _ IH]; intros i new; [done|].
  cbn [files_rewrites]. rewrite sum_cons, rws_data_app, zlen_app, zlen_cons.
  specialize (IH (i + 1) (new + zlen (rws_data (entry_rewrites (f_valid f) 0 i
    (BlobFileHeader_size (f_header f)) new (f_records f))))).
  pose proof (zlen_rws_data_entries (f_valid f) 0 i (BlobFileHeader_size (f_header f)) new (f_records f)).
  assert (zlen (file_bytes f) = 12 + zlen (recs_bytes (f_records f)) + zlen (f_tail f)) as ->.
  { unfold file_bytes, BlobFileHeader_EncodeTo. rewrite Hv. cbn [Z.eqb Pos.eqb kVersion2]. zlia. }
  lia.
Qed.

Lemma slots_spec fs :
  slots fs mod 4096 = 0 /\ Driver.sum (map (fun f => zlen (file_bytes f)) fs) <= slots fs.
Proof.
  induction fs as [|f fs [IH1 IH2]]; [done|]. rewrite slots_cons, sum_cons.
  destruct (round_up_spec _ (zlen_nonneg (file_bytes f))) as [H1 H2]. split; [|lia].
  rewrite Z.add_mod, H2, IH1 by lia. done.
Qed.

(** A destination as large as the rounded inputs has room for the output. *)
Lemma out_size_fits fs :
  fs <> [] -> Forall (fun f => version (f_header f) = kVersion2 /\ 32 <= zlen (f_tail f)) fs ->
  out_size fs <= slots fs.
Proof.
  intros Hne Hfs. pose proof (zlen_rws_data_files 0 12 fs Hfs) as Hd.
  destruct (slots_spec fs) as [Hm Hle].
  assert (1 <= zlen fs) by (destruct fs; [done|rewrite zlen_cons; pose proof (zlen_nonneg fs); lia]).
  unfold out_size. fold (gc_rewrites fs) in Hd. set (cur := 12 + zlen (rws_data (gc_rewrites fs))) in *.
  destruct (footer_pad_spec cur) as [Hp Hpm].
  assert (cur + 32 <= slots fs) as Hc by (unfold cur; lia).
  apply Z.mod_divide in Hm, Hpm; [|lia|lia]. destruct Hm as [x Hx], Hpm as [y Hy]. cbv zeta. nia.
Qed.

(** ** What the relocation entries mean *)

(** The records of a file whose entry index is valid, in order. *)
Fixpoint valid_records (valid : Z -> bool) (j : Z) (rs : list (bytes * bytes))
    : list (bytes * bytes) :=
  match rs with
  | [] => []
  | r :: rs => (if valid j then [r] else []) ++ valid_records valid (j + 1) rs
  end.

Definition rw_kv (r : rewrite) : bytes * bytes := (rw_key r, rw_value r).

Lemma entry_rewrites_kv valid j i off new rs :
  map rw_kv (entry_rewrites valid j i off new rs) = valid_records valid j rs.
Proof.
  revert j off new. induction rs as [|[k v] rs IH]; intros j off new; [done|].
  cbn [entry_rewrites valid_records]. destruct (valid j); cbn; by rewrite IH.
Qed.

Lemma files_rewrites_kv i new fs :
  map rw_kv (files_rewrites i new fs)
    = concat (map (fun f => valid_records (f_valid f) 0 (f_records f)) fs).
Proof.
  revert i new. induction fs as [|f fs IH]; intros i new; [done|].
  cbn [files_rewrites map concat]. by rewrite map_app, entry_rewrites_kv, IH.
Qed.

(** [r] was moved from [off + |c|] in the records [src] to [new + |a|] in [dst]. *)
Definition moved (r : rewrite) (dst : bytes) (new : Z) (src : bytes) (off : Z) : Prop :=
  rw_size r = zlen (rw_bytes r) /\
  (exists a b, dst = a ++ rw_bytes r ++ b /\ rw_new r = new + zlen a) /\
  (exists c d, src = c ++ rw_bytes r ++ d /\ rw_orig r = off + zlen c).

Lemma entry_rewrites_moved valid j i off new rs r :
  r ∈ entry_rewrites valid j i off new rs ->
  rw_file r = i /\
  moved r (rws_data (entry_rewrites valid j i off new rs)) new (recs_bytes rs) off.
Proof.
  revert j off new. induction rs as [|[k v] rs IH]; intros j off new Hr.
  { by apply elem_of_nil in Hr. }
  change (recs_bytes ((k, v) :: rs)) with (rec_bytes k v ++ recs_bytes rs).
  cbn [entry_rewrites] in *. destruct (valid j).
  - apply elem_of_cons in Hr as [-> | Hr].
    + split; [done|]. split; [done|]. rewrite rws_data_cons. split.
      * eexists [], _. split; [reflexivity|]. cbn [rw_new rw_orig]. zlia.
      * eexists [], _. split; [reflexivity|]. cbn [rw_new rw_orig]. zlia.
    + apply IH in Hr as [Hi (Hs & (a & b & Ha & Hn) & (c & d & Hc & Ho))].
      split; [done|]. split; [done|]. rewrite rws_data_cons, Ha, Hc. split.
      * eexists (rec_bytes k v ++ a), b. rewrite <- app_assoc. split; [done|]. rewrite zlen_app. lia.
      * eexists (rec_bytes k v ++ c), d. rewrite <- app_assoc. split; [done|]. rewrite zlen_app. lia.
  - apply IH in Hr as [Hi (Hs & (a & b & Ha & Hn) & (c & d & Hc & Ho))].
    split; [done|]. split; [done|]. split; [by exists a, b|].
    exists (rec_bytes k v ++ c), d. rewrite Hc, <- app_assoc. split; [done|]. rewrite zlen_app. lia.
Qed.

Lemma files_rewrites_moved i new fs r :
  0 <= i -> r ∈ files_rewrites i new fs ->
  exists f, fs !! Z.to_nat (rw_file r - i) = Some f /\ i <= rw_file r /\
    moved r (rws_data (files_rewrites i new fs)) new (recs_bytes (f_records f))
      (BlobFileHeader_size (f_header f)).
Proof.
  revert i new. induction fs as [|f fs IH]; intros i new Hi Hr.
  { by apply elem_of_nil in Hr. }
  cbn [files_rewrites] in *. rewrite rws_data_app.
  apply elem_of_app in Hr as [Hr|Hr].
  - apply entry_rewrites_moved in Hr as [Hf (Hs & (a & b & Ha & Hn) & Hc)].
    exists f. rewrite Hf, Z.sub_diag. split; [done|]. split; [lia|]. split; [done|]. split; [|done].
    rewrite Ha, <- !app_assoc. eexists a, _. done.
  - apply IH in Hr as (f' & Hf & Hle & Hs & (a & b & Ha & Hn) & Hc); [|lia].
    exists f'. replace (Z.to_nat (rw_file r - i)) with (S (Z.to_nat (rw_file r - (i + 1)))) by lia.
    split; [done|]. split; [lia|]. split; [done|]. split; [|done].
    eexists (rws_data (entry_rewrites _ _ _ _ _ _) ++ a), b. rewrite Ha, <- app_assoc. split; [done|]. rewrite zlen_app. lia.
Qed.

(** ** The composition *)

Lemma round_up_ge s : 0 <= s -> s <= Driver.round_up s.
Proof. intros Hs. destruct (round_up_spec s Hs). lia. Qed.

Lemma entry_rewrites_keys valid j i off new rs :
  Forall (fun r => fits r.1 r.2) rs ->
  Forall (fun r => is_u32 (zlen (rw_key r))) (entry_rewrites valid j i off new rs).
Proof.
  intros H. revert j off new. induction H as [|[k v] rs Hf _ IH]; intros j off new; [constructor|].
  cbn [entry_rewrites]. destruct (valid j); [constructor|]; try apply IH.
  by apply (fits_u32 k v).
Qed.

Lemma files_rewrites_keys i new fs :
  Forall in_file_wf fs -> Forall (fun r => is_u32 (zlen (rw_key r))) (files_rewrites i new fs).
Proof.
  intros H. revert i new. induction H as [|f fs (_ & Hr & _) _ IH]; intros i new; [constructor|].
  cbn [files_rewrites]. apply Forall_app. split; [by apply entry_rewrites_keys|apply IH].
Qed.

Definition entries_of (fs : list in_file) : list Z := map (fun f => zlen (f_records f)) fs.

Lemma run_gc_kernel_spec key0 value0 dev_in dev_out fs bms :
  fs <> [] -> Forall in_file_wf fs ->
  Forall (fun f => version (f_header f) = kVersion2 /\ 32 <= zlen (f_tail f)) fs ->
  Forall (fun f => readable (zlen (file_bytes f))) fs ->
  Forall2 bitmap_of fs bms ->
  zlen key0 = Kernel.MAX_KEY_LENGTH -> zlen value0 = Kernel.MAX_VALUE_LENGTH ->
  zlen dev_in = slots fs -> slots fs <= zlen dev_out -> is_bytes dev_out ->
  zlen (rws_keys (gc_rewrites fs))
    <= Driver.round_up (Driver.sum (entries_of fs) * Driver.OUTPUT_KEY_SIZE) ->
  exists p old, zlen p = footer_pad (12 + zlen (rws_data (gc_rewrites fs))) /\
    zlen old = 18 /\ is_bytes old /\
    Driver.run_gc_kernel key0 value0 dev_in dev_out (map file_bytes fs) bms (entries_of fs)
      = Driver.Done {| Driver.rewrite_keys := map rw_words (gc_rewrites fs);
                       Driver.output_file := out_data fs p old;
                       Driver.output_meta := [zlen (gc_rewrites fs); out_size fs;
                                              zlen (rws_keys (gc_rewrites fs)); 0];
                       Driver.read_bytes := Driver.sum (map (fun f => zlen (file_bytes f)) fs) |}.
Proof.
  intros Hne Hwf Hv2 Hread Hbms Hk0 Hv0 Hin Hout Hob Hkeys.
  pose proof (out_size_fits fs Hne Hv2) as Hfit.
  destruct (read_inputs_ok fs [] dev_in 0 0) as (fs' & Him & Hri); [done..|].
  assert (Forall in_file_wf fs') as Hwf'.
  { clear - Him Hwf. induction Him as [|f f' fs fs' Hf Hfs IH]; [constructor|].
    inversion Hwf; subst. constructor; [by eapply device_image_wf|by apply IH]. }
  assert (map (fun f => Driver.round_up (zlen f)) (map file_bytes fs)
    = map (fun f => zlen (file_bytes f)) fs') as Hsizes.
  { clear - Him. induction Him as [|f f' fs fs' (_&_&_&_&Hf) _ IH]; [done|]. cbn. by rewrite Hf, IH. }
  assert (map byte_size_ bms = map (fun f => zlen (f_bitmap f)) fs'
    /\ bitmaps fs' = bitmaps fs /\ entries_of fs = map (fun f => zlen (f_records f)) fs') as (Hbs & Hbb & Hen).
  { clear - Him Hbms. revert bms Hbms. induction Him as [|f f' fs fs' (_&Hr&Hb&_&_) _ IH]; intros bms Hb2.
    - by inversion Hb2.
    - inversion Hb2 as [|? bm ? bms' [_ Hs] Htl]; subst. destruct (IH _ Htl) as (E1 & E2 & E3).
      cbn. unfold bitmaps, entries_of in *. cbn. by rewrite Hr, Hb, Hs, E1, E2, E3. }
  assert (gc_rewrites fs' = gc_rewrites fs) as Hrw by by apply device_images_rewrites.
  assert (out_size fs' = out_size fs) as Hos by (unfold out_size; by rewrite Hrw).
  unfold Driver.run_gc_kernel. cbn [app] in Hri. rewrite Hri. cbn [Driver.obind].
  set (bsz := Driver.round_up (Driver.sum (map byte_size_ bms))).
  assert (0 <= Driver.sum (map byte_size_ bms)) as Hbnn.
  { rewrite Hbs. clear. induction fs' as [|f fs IH]; [done|]. rewrite sum_cons.
    pose proof (zlen_nonneg (f_bitmap f)). lia. }
  destruct (copy_bitmaps_ok fs bms [] (replicate (Z.to_nat bsz) 0) 0 Hbms) as (bc & Hcb); [done| |].
  { unfold zlen. rewrite length_replicate. pose proof (round_up_ge _ Hbnn). unfold bsz. lia. }
  cbn [app] in Hcb. rewrite Hcb. cbn [Driver.checked Driver.obind]. unfold Driver.launch.
  rewrite Hsizes, Hbs.
  set (okey := replicate (Z.to_nat (Driver.round_up (Driver.sum (entries_of fs) * _))) 0).
  destruct (gcKernel_run fs' [] bc key0 value0 dev_out okey) as (p & old & orest & Hp & Hold & Hoby & Hol & E);
    [done..| | |].
  { lia. }
  { rewrite Hrw. unfold okey, zlen at 2. rewrite length_replicate.
    pose proof (zlen_nonneg (rws_keys (gc_rewrites fs))). lia. }
  rewrite app_nil_r in E. rewrite Hrw in *. cbv zeta in Hp.
  exists p, old. split; [done|]. split; [done|]. split; [done|].
  rewrite Hbb, <- Hen in E. rewrite E. cbn [Driver.checked Driver.obind].
  cbn [length app replicate Nat.sub Driver.OUTPUT_META_SIZE nth].
  assert (out_data fs' p old = out_data fs p old) as Hod by (unfold out_data; by rewrite Hrw).
  rewrite <- Hol, zlen_to_nat, take_app_length.
  assert (0 < out_size fs') as Hpos.
  { unfold out_size. cbv zeta. destruct (footer_pad_spec (12 + zlen (rws_data (gc_rewrites fs')))) as [? _].
    pose proof (zlen_nonneg (rws_data (gc_rewrites fs'))). lia. }
  rewrite <- Hol in Hpos. destruct (Z.leb_spec (zlen (out_data fs' p old)) 0) as [|_]; [lia|].
  rewrite zlen_to_nat.
  pose proof (GetOutputKeys_entries (gc_rewrites fs) []
    (drop (Z.to_nat (zlen (rws_keys (gc_rewrites fs)))) okey) 0) as Hgk.
  cbn [app] in Hgk. rewrite Hgk; [|by apply files_rewrites_keys|done].
  cbn [Driver.checked Driver.obind]. by rewrite Hol, Hod, Hos.
Qed.

(** ** Reading the moved records back *)

Lemma files_rewrites_fits i new fs r :
  Forall in_file_wf fs -> r ∈ files_rewrites i new fs -> fits (rw_key r) (rw_value r).
Proof.
  intros Hfs Hr.
  assert (rw_kv r ∈ concat (map (fun f => valid_records (f_valid f) 0 (f_records f)) fs)) as Hin.
  { rewrite <- (files_rewrites_kv i new). by apply list_elem_of_fmap_2. }
  clear Hr. induction Hfs as [|f fs (_ & Hrs & _) _ IH]; [by apply elem_of_nil in Hin|].
  cbn [map concat] in Hin. apply elem_of_app in Hin as [Hin|Hin]; [|by apply IH].
  revert Hin. generalize 0 as j. induction Hrs as [|[k v] rs Hkv _ IHr]; intros j Hin.
  { by apply elem_of_nil in Hin. }
  cbn [valid_records] in Hin. apply elem_of_app in Hin as [Hin|Hin]; [|by eapply IHr].
  destruct (f_valid f j); [|by apply elem_of_nil in Hin].
  apply list_elem_of_singleton in Hin. unfold rw_kv in Hin. injection Hin as E1 E2.
  rewrite E1, E2. exact Hkv.
Qed.

(** The host decodes the record at a relocated position. *)
Lemma rec_bytes_decode U k v :
  fits k v ->
  exists d rest, DecodeHeader (rec_bytes k v) = Ret (d, rest) /\
    record_size_ d = zlen rest /\
    DecodeRecord U d rest = Some (Ret ({| key := k; value := v |}, [])).
Proof.
  intros Hf. destruct (rec_bytes_host (fun _ _ => None) k v Hf) as (e & He & Hb).
  destruct (fits_u32 k v Hf) as [Hk Hv]. destruct Hf as (Hkb & Hvb & _).
  destruct (EncodeRecord_DecodeRecord (fun _ _ => None) U ltac:(done) ltac:(done)
    kNoCompression {| key := k; value := v |} e []) as (_ & _ & d & H1 & H2 & H3); try done.
  rewrite !app_nil_r, Hb in *. exists d, (record_ e). done.
Qed.

Lemma moved_read fs p old r :
  r ∈ gc_rewrites fs ->
  mem_read (out_data fs p old) (rw_new r) (rw_size r) = Some (rw_bytes r) /\
  exists f, fs !! Z.to_nat (rw_file r) = Some f /\ 0 <= rw_file r < zlen fs /\
    (in_file_wf f -> mem_read (file_bytes f) (rw_orig r) (rw_size r) = Some (rw_bytes r)).
Proof.
  intros Hr. destruct (files_rewrites_moved 0 12 fs r) as (f & Hf & Hle & Hs & (a & b & Ha & Hn) & (c & d & Hc & Ho));
    [lia|done|]. rewrite Z.sub_0_r in Hf. split.
  - unfold out_data. apply (mem_read_at _ (header_bytes ++ a) _ (b ++ p ++ footer_bytes old));
      [|by rewrite zlen_app|done].
    unfold gc_rewrites. rewrite Ha. by rewrite <- !app_assoc.
  - exists f. split; [done|]. split.
    { apply lookup_lt_Some in Hf. unfold zlen. lia. }
    intros (Hh & _). unfold file_bytes. rewrite Hc.
    apply (mem_read_at _ (BlobFileHeader_EncodeTo (f_header f) ++ c) _ (d ++ f_tail f)).
    + by rewrite <- !app_assoc.
    + rewrite zlen_app, Ho. f_equal. symmetry.
      apply (BlobFileHeader_roundtrip {| version := 2; flags := flags (f_header f) |} (f_header f) []).
      destruct Hh as [?|[? ?]]; auto.
    + done.
Qed.

(** ** Room for the relocation entries *)

Lemma zlen_key_entry k n f o s : zlen k <= 127 -> zlen (key_entry k n f o s) = 17 + zlen k.
Proof.
  intros Hk. pose proof (zlen_nonneg k). unfold key_entry.
  autorewrite with zlen. rewrite zlen_PutLengthPrefixedSlice by (unfold is_u32; lia).
  unfold PutVarint32, EncodeVarint32. destruct (Z.ltb_spec (zlen k) (2 ^ 7)) as [_|]; [|lia].
  rewrite zlen_cons, zlen_nil. lia.
Qed.

Lemma zlen_rws_keys_entries m valid j i off new rs :
  m <= 127 -> Forall (fun r => zlen r.1 <= m) rs ->
  zlen (rws_keys (entry_rewrites valid j i off new rs)) <= (17 + m) * zlen rs.
Proof.
  intros Hm H. revert j off new. induction H as [|[k v] rs Hk _ IH]; intros j off new; [cbn; zlia|].
  cbn [entry_rewrites fst] in *. rewrite zlen_cons. pose proof (zlen_nonneg k).
  destruct (valid j).
  - rewrite rws_keys_cons, zlen_app. unfold rw_entry at 1. cbn [rw_key rw_new rw_file rw_orig rw_size].
    rewrite zlen_key_entry by lia.
    specialize (IH (j + 1) (off + zlen (rec_bytes k v)) (new + zlen (rec_bytes k v))). lia.
  - specialize (IH (j + 1) (off + zlen (rec_bytes k v)) new). lia.
Qed.

Lemma zlen_rws_keys_files m i new fs :
  m <= 127 -> Forall (fun f => Forall (fun r => zlen r.1 <= m) (f_records f)) fs ->
  zlen (rws_keys (files_rewrites i new fs)) <= (17 + m) * Driver.sum (entries_of fs).
Proof.
  intros Hm H. revert i new. induction H as [|f fs Hf _ IH]; intros i new;
    [change (0 <= (17 + m) * 0); lia|].
  unfold entries_of in *. cbn [files_rewrites]. rewrite sum_cons, rws_keys_app, zlen_app.
  pose proof (zlen_rws_keys_entries m (f_valid f) 0 i (BlobFileHeader_size (f_header f)) new _ Hm Hf).
  specialize (IH (i + 1) (new + zlen (rws_data (entry_rewrites (f_valid f) 0 i
    (BlobFileHeader_size (f_header f)) new (f_records f))))). lia.
Qed.

(** The exact length of the entries. *)
Lemma zlen_rws_keys l : Forall (fun r => zlen (rw_key r) <= 127) l ->
  zlen (rws_keys l) = Driver.sum (map (fun kv => 17 + zlen kv.1) (map rw_kv l)).
Proof.
  induction 1 as [|r l Hr _ IH]; [done|]. rewrite rws_keys_cons, zlen_app, IH. unfold rw_entry.
  rewrite zlen_key_entry by done. done.
Qed.

Lemma sum_entries_nonneg fs : 0 <= Driver.sum (entries_of fs).
Proof.
  unfold entries_of. induction fs as [|f fs IH]; [done|]. rewrite sum_cons.
  pose proof (zlen_nonneg (f_records f)). lia.
Qed.

(** Keys of up to 27 bytes always fit in the buffer the driver allocates. *)
Lemma output_key_room fs :
  Forall (fun f => Forall (fun r => zlen r.1 <= 27) (f_records f)) fs ->
  zlen (rws_keys (gc_rewrites fs))
    <= Driver.round_up (Driver.sum (entries_of fs) * Driver.OUTPUT_KEY_SIZE).
Proof.
  intros H. pose proof (zlen_rws_keys_files 27 0 12 fs ltac:(lia) H).
  pose proof (sum_entries_nonneg fs).
  pose proof (round_up_ge (Driver.sum (entries_of fs) * Driver.OUTPUT_KEY_SIZE)).
  unfold gc_rewrites. change Driver.OUTPUT_KEY_SIZE with 44 in *. lia.
Qed.

(** ** The file sizes that end the process *)

(** Within one mebibyte below, or exactly at, a multiple of 128 MiB; the empty
    file, at the multiple 0, is one of them. *)
Definition critical (s : Z) : Prop :=
  exists k, 0 <= k /\ 128 * 1048576 * k - 1048576 <= s <= 128 * 1048576 * k.

(** The sizes that the loop cannot read are exactly these. *)
Lemma critical_unreadable s : 0 <= s -> critical s <-> ~ readable s.
Proof.
  intros H0. unfold critical, readable. destruct (round_up_spec s H0) as [Hru _].
  change Driver.buf_size with 134217728. split.
  - intros (k & Hk & Hs). unfold Driver.round_up. rewrite Z.shiftl_mul_pow2, Z.shiftr_div_pow2 by lia.
    change (2 ^ 20) with 1048576. apply Z.nlt_ge.
    assert (128 * k <= s / 1048576 + 1).
    { pose proof (Z.div_le_lower_bound s 1048576 (128 * k - 1)). lia. }
    assert (k <= (s / 1048576 + 1) * 1048576 / 134217728) by (apply Z.div_le_lower_bound; lia).
    lia.
  - intros Hr%Z.nlt_ge. exists (Driver.round_up s / 134217728).
    pose proof (Z.div_mod (Driver.round_up s) 134217728 ltac:(lia)).
    pose proof (Z.mod_pos_bound (Driver.round_up s) 134217728 ltac:(lia)).
    split; [apply Z.div_pos; lia|]. lia.
Qed.

(** The room that the inputs take in the device buffer. *)
Definition file_slots (files : list bytes) : Z := Driver.sum (map (fun f => Driver.round_up (zlen f)) files).

Lemma file_slots_nonneg files : 0 <= file_slots files.
Proof.
  unfold file_slots. induction files as [|f files IH]; [done|]. rewrite sum_cons.
  destruct (round_up_spec _ (zlen_nonneg f)). pose proof (zlen_nonneg f). lia.
Qed.

(** The first input, from a buffer with room for all of them. *)
Lemma read_inputs_first f files a hole r :
  file_slots (f :: files) <= zlen hole ->
  if decide (readable (zlen f)) then exists a' hole',
    file_slots files <= zlen hole' /\
    Driver.read_inputs (f :: files) (a ++ hole) (zlen a) r = Driver.read_inputs files (a' ++ hole') (zlen a') (r + zlen f)
  else Driver.read_inputs (f :: files) (a ++ hole) (zlen a) r = Driver.ExitProcess.
Proof.
  intros Hh. unfold file_slots in Hh. rewrite sum_cons in Hh. fold (file_slots files) in Hh.
  pose proof (file_slots_nonneg files) as Hf. pose proof (zlen_nonneg f) as Hnn.
  destruct (round_up_spec _ Hnn) as [Hru _]. pose proof buf_size_pos.
  cbn [Driver.read_inputs]. case_decide as Hr.
  - destruct (split_hole hole (Driver.round_up (zlen f))) as (h & hr & -> & Hhl & _); [lia|].
    rewrite zlen_app in Hh. rewrite read_input_ok by done. cbn [Driver.obind].
    exists (a ++ f ++ drop (length f) h), hr. split; [lia|]. rewrite <- !app_assoc. f_equal.
    rewrite !zlen_app. unfold zlen in *. rewrite length_drop. lia.
  - unfold readable in Hr. apply Z.nlt_ge in Hr.
    assert (0 <= Driver.round_up (zlen f) / Driver.buf_size) by (apply Z.div_pos; lia).
    rewrite <- (app_nil_r hole), read_loop_exit; [done|done|lia|lia|lia|]. rewrite Z2Nat.id by lia. lia.
Qed.

Lemma read_inputs_exit files : forall a hole r,
  file_slots files <= zlen hole -> Exists (fun f => ~ readable (zlen f)) files ->
  Driver.read_inputs files (a ++ hole) (zlen a) r = Driver.ExitProcess.
Proof.
  induction files as [|f files IH]; intros a hole r Hh Hc; [by inversion Hc|].
  pose proof (read_inputs_first f files a hole r Hh) as Hf. case_decide; [|done].
  destruct Hf as (a' & hole' & Hh' & ->). apply IH; [done|]. by inversion Hc.
Qed.

Lemma read_inputs_done files : forall a hole r,
  file_slots files <= zlen hole -> Forall (fun f => readable (zlen f)) files ->
  exists buf n, Driver.read_inputs files (a ++ hole) (zlen a) r = Driver.Done (buf, n).
Proof.
  induction files as [|f files IH]; intros a hole r Hh Hc; [by eexists _, _|].
  inversion Hc as [|? ? Hr Hrs]; subst. pose proof (read_inputs_first f files a hole r Hh) as Hf. case_decide; [|done].
  destruct Hf as (a' & hole' & Hh' & ->). by apply IH.
Qed.

(** ** Compute units *)

(** Taking and returning compute units: [busy] are the indexes handed out. *)
Inductive cu_step : list Z * list Z -> list Z * list Z -> Prop :=
  | cu_get q busy r0 i q' :
      Driver.get_free_cu_index q r0 = (OK, i, q') -> cu_step (q, busy) (q', i :: busy)
  | cu_busy q busy r0 i q' :
      Driver.get_free_cu_index q r0 = (Busy, i, q') -> cu_step (q, busy) (q', busy)
  | cu_set q busy1 i busy2 q' :
      Driver.set_free_cu_index q i = (OK, q') -> cu_step (q, busy1 ++ i :: busy2) (q', busy1 ++ busy2).

Lemma cu_step_perm s1 s2 : cu_step s1 s2 -> s1.1 ++ s1.2 ≡ₚ s2.1 ++ s2.2.
Proof.
  destruct 1 as [q busy r0 i q' H|q busy r0 i q' H|q b1 i b2 q' H]; cbn.
  - destruct q as [|x q]; cbn in H; [done|]. simplify_eq. cbn. by rewrite Permutation_middle.
  - destruct q as [|x q]; cbn in H; by simplify_eq.
  - unfold Driver.set_free_cu_index in H. simplify_eq. rewrite <- !app_assoc. f_equiv.
    cbn. by rewrite Permutation_middle.
Qed.
