(* ===== verification/HwGC.v ===== *)
(** * HwGC: what the host may rely on after an offloaded garbage collection

    The properties of driver and kernel together, with the contract that the
    host's garbage-collection job uses ([OffloadedGC]). *)
From S2P Require Import Prelude Coding Crc32c BlobFormat BitMap HwKernel HwKernelProofs HwDriver HwDriverProofs.

Local Open Scope Z_scope.

(** The records of the inputs that the bitmaps call valid. *)
Definition live_records (fs : list in_file) : list (bytes * bytes) :=
  concat (map (fun f => valid_records (f_valid f) 0 (f_records f)) fs).

(** The files that a run may be given, with their bitmaps. They were written by
    this format's writer, in version 2 and uncompressed, with keys of at most 64
    and values of at most 8192 bytes ([in_file_wf], [gi_v2]); no size is critical
    ([gi_readable]); the relocation entries, of 17 bytes and the key for each
    valid record, fit into the buffer that the driver allocates ([gi_room]); and
    together the files are small enough for the 32-bit words of these entries
    ([gi_small]). *)
Record gc_input (fs : list in_file) (bms : list BitMap) : Prop := {
  gi_nonempty : fs <> [];
  gi_wf : Forall in_file_wf fs;
  gi_v2 : Forall (fun f => version (f_header f) = kVersion2 /\ 32 <= zlen (f_tail f)) fs;
  gi_readable : Forall (fun f => ~ critical (zlen (file_bytes f))) fs;
  gi_room : Driver.sum (map (fun kv => 17 + zlen kv.1) (live_records fs))
    <= Driver.round_up (Driver.sum (entries_of fs) * Driver.OUTPUT_KEY_SIZE);
  gi_bitmaps : Forall2 bitmap_of fs bms;
  gi_small : slots fs < 2 ^ 32 }.

(** What one relocation entry promises about the output file. *)
Record relocated (fs : list in_file) (output : bytes) (kv : bytes * bytes)
    (entry : bytes * list Z) : Prop := {
  rl_key : entry.1 = kv.1;
  rl_where : exists new file orig size f bs,
    entry.2 = [new; file; orig; size] /\ fs !! Z.to_nat file = Some f /\
    mem_read output new size = Some bs /\ mem_read (file_bytes f) orig size = Some bs /\
    forall U, exists d rest, DecodeHeader bs = Ret (d, rest) /\
      DecodeRecord U d rest = Some (Ret ({| key := kv.1; value := kv.2 |}, [])) }.

Lemma Forall2_map_same {A B C} (R : B -> C -> Prop) (f : A -> B) (g : A -> C) l :
  (forall x, x ∈ l -> R (f x) (g x)) -> Forall2 R (map f l) (map g l).
Proof.
  induction l as [|x l IH]; intros H; [constructor|]. cbn. constructor.
  - apply H. by left.
  - apply IH. intros y Hy. apply H. by right.
Qed.

Lemma slots_in fs f : f ∈ fs -> zlen (file_bytes f) < slots fs.
Proof.
  induction fs as [|g fs IH]; intros Hf; [by apply elem_of_nil in Hf|].
  rewrite slots_cons. pose proof (slots_nonneg fs).
  destruct (round_up_spec _ (zlen_nonneg (file_bytes g))) as [Hg _].
  pose proof (zlen_nonneg (file_bytes g)).
  apply elem_of_cons in Hf as [-> | Hf]; [lia|]. specialize (IH Hf). lia.
Qed.

Lemma zlen_le_slots fs : zlen fs <= slots fs.
Proof.
  induction fs as [|g fs IH]; [done|]. rewrite slots_cons, zlen_cons.
  destruct (round_up_spec _ (zlen_nonneg (file_bytes g))) as [Hg _].
  pose proof (zlen_nonneg (file_bytes g)). lia.
Qed.

Lemma live_rewrites fs : map rw_kv (gc_rewrites fs) = live_records fs.
Proof. apply files_rewrites_kv. Qed.

Lemma input_room fs : Forall in_file_wf fs ->
  zlen (rws_keys (gc_rewrites fs)) = Driver.sum (map (fun kv => 17 + zlen kv.1) (live_records fs)).
Proof.
  intros Hwf. rewrite <- live_rewrites. apply zlen_rws_keys, Forall_forall. intros r Hr.
  destruct (files_rewrites_fits 0 12 fs r Hwf Hr) as (_ & _ & Hk & _).
  unfold Kernel.MAX_KEY_LENGTH in Hk. lia.
Qed.

(** Keys of up to 27 bytes always fit. *)
Lemma short_keys_room fs : Forall in_file_wf fs ->
  Forall (fun f => Forall (fun r => zlen r.1 <= 27) (f_records f)) fs ->
  Driver.sum (map (fun kv => 17 + zlen kv.1) (live_records fs))
    <= Driver.round_up (Driver.sum (entries_of fs) * Driver.OUTPUT_KEY_SIZE).
Proof. intros Hwf Hk. rewrite <- input_room by done. by apply output_key_room. Qed.

(** The run of driver and kernel on such inputs. *)
Lemma gc_input_run key0 value0 dev_in dev_out fs bms :
  gc_input fs bms ->
  zlen key0 = Kernel.MAX_KEY_LENGTH -> zlen value0 = Kernel.MAX_VALUE_LENGTH ->
  zlen dev_in = slots fs -> slots fs <= zlen dev_out -> is_bytes dev_out ->
  exists p old, zlen p = footer_pad (12 + zlen (rws_data (gc_rewrites fs))) /\
    zlen old = 18 /\ is_bytes old /\ zlen (out_data fs p old) = out_size fs /\
    Driver.run_gc_kernel key0 value0 dev_in dev_out (map file_bytes fs) bms (entries_of fs)
      = Driver.Done {| Driver.rewrite_keys := map rw_words (gc_rewrites fs);
                       Driver.output_file := out_data fs p old;
                       Driver.output_meta := [zlen (gc_rewrites fs); out_size fs;
                                              zlen (rws_keys (gc_rewrites fs)); 0];
                       Driver.read_bytes := Driver.sum (map (fun f => zlen (file_bytes f)) fs) |}.
Proof.
  intros Hin Hk0 Hv0 Hdi Hdo Hob.
  destruct (run_gc_kernel_spec key0 value0 dev_in dev_out fs bms) as (p & old & Hp & Hold & Hoby & Hrun);
    try (by destruct Hin); try done.
  { eapply Forall_impl; [apply (gi_readable _ _ Hin)|]. intros f Hf. destruct (decide (readable (zlen (file_bytes f)))); [done|].
    exfalso. apply Hf. by apply critical_unreadable; [apply zlen_nonneg|]. }
  { rewrite input_room by apply (gi_wf _ _ Hin). apply (gi_room _ _ Hin). }
  exists p, old. split_and!; try done.
  unfold out_data, out_size, footer_bytes. rewrite !zlen_app, zlen_PutFixed32, zlen_PutFixed64, Hp, Hold.
  change (zlen header_bytes) with 12. change (zlen [0; 0]) with 2. lia.
Qed.

Lemma relocated_rewrite fs bms p old r :
  gc_input fs bms -> r ∈ gc_rewrites fs -> zlen (out_data fs p old) = out_size fs ->
  relocated fs (out_data fs p old) (rw_kv r) (rw_words r).
Proof.
  intros Hin Hr Hol. pose proof (gi_wf _ _ Hin) as Hwf. pose proof (gi_small _ _ Hin) as Hsm.
  pose proof (out_size_fits fs (gi_nonempty _ _ Hin) (gi_v2 _ _ Hin)) as Hfit.
  destruct (moved_read fs p old r Hr) as [Hnew (f & Hf & Hfile & Horig)].
  pose proof (proj1 (Forall_forall _ _) Hwf f (list_elem_of_lookup_2 _ _ _ Hf)) as Hfwf.
  specialize (Horig Hfwf). pose proof (zlen_le_slots fs) as Hzs.
  pose proof (slots_in fs f (list_elem_of_lookup_2 _ _ _ Hf)) as Hsf.
  apply mem_read_Some in Hnew as HN. destruct HN as (HN1 & HN2 & a & c & HN3 & HN4).
  apply mem_read_Some in Horig as HO. destruct HO as (HO1 & HO2 & a2 & c2 & HO3 & HO4).
  apply (f_equal zlen) in HN3, HO3. rewrite !zlen_app in HN3, HO3.
  pose proof (zlen_nonneg c). pose proof (zlen_nonneg c2). pose proof (zlen_nonneg (rw_bytes r)).
  pose proof (zlen_nonneg a). pose proof (zlen_nonneg a2).
  split; [done|]. unfold rw_words. cbn [snd].
  rewrite !u32_small by (unfold is_u32; lia).
  exists (rw_new r), (rw_file r), (rw_orig r), (rw_size r), f, (rw_bytes r).
  split; [done|]. split; [done|]. split; [done|]. split; [done|]. intros U.
  destruct (rec_bytes_decode U (rw_key r) (rw_value r)) as (d & rest & Hd1 & _ & Hd2).
  { by eapply files_rewrites_fits. }
  by exists d, rest.
Qed.

(** C1: an offloaded garbage collection, on inputs within the limits of
    [gc_input] and buffers allocated as the driver does, terminates inside its
    buffers; it reports the valid records of the inputs, in order; every reported
    position holds the very bytes of the record in its input file, which the
    host's decoder accepts and decodes to the reported key and its value; the
    output starts with a header and ends with a footer that the host accepts,
    and its size is a multiple of the 4096-byte sector. The limits: files of
    version 2, uncompressed, with keys of at most 64 and values of at most 8192
    bytes and at least 32 bytes after the records, of no critical size, rounded up
    to less than 4 GiB together, whose relocation entries fit into the buffer for
    them, which keys of at most 27 bytes always do. *)
Theorem offloaded_gc_correct key0 value0 dev_in dev_out fs bms :
  gc_input fs bms ->
  zlen key0 = Kernel.MAX_KEY_LENGTH -> zlen value0 = Kernel.MAX_VALUE_LENGTH ->
  zlen dev_in = slots fs -> slots fs <= zlen dev_out -> is_bytes dev_out ->
  exists res body footer,
    Driver.run_gc_kernel key0 value0 dev_in dev_out (map file_bytes fs) bms (entries_of fs)
      = Driver.Done res /\
    Forall2 (relocated fs (Driver.output_file res)) (live_records fs) (Driver.rewrite_keys res) /\
    Driver.output_file res = BlobFileHeader_EncodeTo BlobFileHeader_default ++ body ++ footer /\
    BlobFileFooter_DecodeFrom footer = Some (Ret (NullBlockHandle, [])) /\
    zlen (Driver.output_file res) mod 4096 = 0.
Proof.
  intros Hin Hk0 Hv0 Hdi Hdo Hob.
  destruct (gc_input_run key0 value0 dev_in dev_out fs bms) as (p & old & Hp & Hold & Hoby & Hol & Hrun); try done.
  eexists _, (rws_data (gc_rewrites fs) ++ p), (footer_bytes old). split; [exact Hrun|].
  cbn [Driver.output_file Driver.rewrite_keys]. split; [|split; [|split]].
  - rewrite <- live_rewrites. apply Forall2_map_same. intros r Hr. by eapply relocated_rewrite.
  - unfold out_data. by rewrite <- header_bytes_host, <- app_assoc.
  - by apply footer_bytes_host.
  - rewrite Hol. unfold out_size. cbv zeta. apply footer_pad_spec.
Qed.

(** A small run: one file with two records, the second invalid. *)
Definition demo_file : in_file :=
  {| f_header := BlobFileHeader_default;
     f_records := [([107; 49], [118; 49]); ([107; 50], [118; 50])];
     f_tail := replicate 32 0;
     f_bitmap := [64] |}.

Definition demo_bitmap : BitMap :=
  {| valid_bits_ := 2; byte_size_ := 1; bits_ := Some [64] |}.

Lemma demo_input : gc_input [demo_file] [demo_bitmap].
Proof.
  assert (Forall in_file_wf [demo_file]) as Hwf.
  { constructor; [|constructor]. split; [right; split; [done|by left]|].
    split; [|done]. repeat constructor; done. }
  split; [done|done|..].
  - by repeat constructor.
  - constructor; [|constructor]. intros (k & Hk & Hs).
    assert (0 < zlen (file_bytes demo_file) < 1048576) by (split; reflexivity). lia.
  - apply short_keys_room; [done|]. repeat constructor; done.
  - repeat constructor.
  - done.
Qed.

Lemma offloaded_gc_correct_witness :
  exists res body footer,
    Driver.run_gc_kernel (replicate 64 0) (replicate (Z.to_nat 8192) 0)
      (replicate (Z.to_nat 1048576) 0) (replicate (Z.to_nat 1048576) 0)
      (map file_bytes [demo_file]) [demo_bitmap] (entries_of [demo_file]) = Driver.Done res /\
    Forall2 (relocated [demo_file] (Driver.output_file res)) (live_records [demo_file])
      (Driver.rewrite_keys res) /\
    Driver.output_file res = BlobFileHeader_EncodeTo BlobFileHeader_default ++ body ++ footer /\
    BlobFileFooter_DecodeFrom footer = Some (Ret (NullBlockHandle, [])) /\
    zlen (Driver.output_file res) mod 4096 = 0.
Proof.
  apply offloaded_gc_correct.
  - apply demo_input.
  - reflexivity.
  - unfold zlen. rewrite length_replicate, Z2Nat.id by lia. reflexivity.
  - unfold zlen. rewrite length_replicate, Z2Nat.id by lia. by vm_compute.
  - unfold zlen. rewrite length_replicate, Z2Nat.id by lia. by vm_compute.
  - by apply Forall_replicate.
Defined.

(** C34: the kernel's stream checksum, the host's word-at-a-time checksum at any
    buffer address and the bitwise division by the Castagnoli polynomial are
    the same function. *)
Theorem crc32c_equivalence pval init_crc data n :
  is_bytes data -> is_u32 init_crc -> 0 <= n < 2 ^ 32 -> n <= zlen data ->
  Crc32c init_crc data n = Some (ExtendImpl pval init_crc (take (Z.to_nat n) data)) /\
  ExtendImpl pval init_crc (take (Z.to_nat n) data) = crc_spec init_crc (take (Z.to_nat n) data).
Proof.
  intros Hb Hc Hn Hlen. rewrite ExtendImpl_spec by (done || by apply Forall_take).
  split; [|done]. by apply Crc32c_spec.
Qed.

(** The check value of the polynomial: the checksum of the digits 1 to 9. *)
Lemma crc32c_equivalence_witness :
  Crc32c 0 (seqZ 49 9) 9 = Some (ExtendImpl 3 0 (take (Z.to_nat 9) (seqZ 49 9))) /\
  ExtendImpl 3 0 (take (Z.to_nat 9) (seqZ 49 9)) = crc_spec 0 (take (Z.to_nat 9) (seqZ 49 9)).
Proof.
  apply crc32c_equivalence; [by repeat constructor|done|done|done].
Defined.

Lemma crc32c_check_value : crc_spec 0 (seqZ 49 9) = 3808858755.
Proof. by vm_compute. Qed.



Lemma zlen_rws_keys_64 j i off new rs :
  Forall (fun r => zlen r.1 = 64) rs ->
  zlen (rws_keys (entry_rewrites (fun _ => true) j i off new rs)) = 81 * zlen rs.
Proof.
  intros H. revert j off new. induction H as [|[k v] rs Hk _ IH]; intros j off new; [done|].
  cbn [entry_rewrites fst] in *. rewrite rws_keys_cons, zlen_app, zlen_cons. unfold rw_entry at 1.
  cbn [rw_key rw_new rw_file rw_orig rw_size]. rewrite zlen_key_entry, Hk, IH by lia. lia.
Qed.

Lemma entry_rewrites_ext v1 v2 j i off new rs :
  (forall x, v1 x = v2 x) -> entry_rewrites v1 j i off new rs = entry_rewrites v2 j i off new rs.
Proof.
  intros Hv. revert j off new. induction rs as [|[k v] rs IH]; intros j off new; [done|].
  cbn [entry_rewrites]. by rewrite Hv, !IH.
Qed.

(** The buffer the driver allocates for the relocation entries assumes 44
    bytes each, but the longest key the kernel holds needs 81: from 28341
    valid records with such keys on, the entries are longer than the buffer. *)
Theorem output_key_shortfall f :
  (forall j, f_valid f j = true) -> Forall (fun r => zlen r.1 = Kernel.MAX_KEY_LENGTH) (f_records f) ->
  28341 <= zlen (f_records f) ->
  Driver.round_up (Driver.sum (entries_of [f]) * Driver.OUTPUT_KEY_SIZE)
    < zlen (rws_keys (gc_rewrites [f])).
Proof.
  intros Hv Hk Hn. unfold gc_rewrites. cbn [files_rewrites]. rewrite app_nil_r.
  rewrite (entry_rewrites_ext _ (fun _ => true)), zlen_rws_keys_64 by done.
  change (Driver.sum (entries_of [f])) with (zlen (f_records f) + 0).
  change Driver.OUTPUT_KEY_SIZE with 44.
  destruct (round_up_spec ((zlen (f_records f) + 0) * 44)) as [H _]; lia.
Qed.

Definition long_key_file : in_file :=
  {| f_header := BlobFileHeader_default;
     f_records := replicate (Z.to_nat 28341) (replicate 64 0, []);
     f_tail := [];
     f_bitmap := [] |}.

Lemma output_key_shortfall_witness :
  Driver.round_up (Driver.sum (entries_of [long_key_file]) * Driver.OUTPUT_KEY_SIZE)
    < zlen (rws_keys (gc_rewrites [long_key_file])).
Proof.
  apply output_key_shortfall.
  - intros j. unfold f_valid, bit_of. cbn [long_key_file f_bitmap].
    destruct (Z.to_nat (j / 8)); cbn [nth]; by rewrite Z.bits_0.
  - by apply Forall_replicate.
  - unfold zlen. cbn [long_key_file f_records]. rewrite length_replicate, Z2Nat.id by lia. lia.
Defined.

(** Compute units are never handed out twice: after any number of requests
    and returns, the free and the busy units together are the units 1 to 8. *)
Theorem cu_exclusive s :
  rtc cu_step (Driver.free_index_queue_init, []) s ->
  s.1 ++ s.2 ≡ₚ seqZ 1 8 /\ NoDup (s.1 ++ s.2).
Proof.
  intros H. assert (seqZ 1 8 ≡ₚ s.1 ++ s.2) as Hp.
  { change (seqZ 1 8) with ((Driver.free_index_queue_init, @nil Z).1 ++ (Driver.free_index_queue_init, @nil Z).2).
    induction H as [s|s1 s2 s3 Hs _ IH]; [done|]. rewrite (cu_step_perm _ _ Hs). exact IH. }
  split; [done|]. rewrite <- Hp. apply NoDup_seqZ.
Qed.

Lemma cu_exclusive_witness :
  ([2; 3; 4; 5; 6; 7; 8], [1]).1 ++ ([2; 3; 4; 5; 6; 7; 8], [1]).2 ≡ₚ seqZ 1 8 /\
  NoDup (([2; 3; 4; 5; 6; 7; 8], [1]).1 ++ ([2; 3; 4; 5; 6; 7; 8], [1]).2).
Proof.
  apply cu_exclusive. eapply rtc_l; [|apply rtc_refl].
  apply (cu_get Driver.free_index_queue_init [] 0). reflexivity.
Defined.
