(* ===== verification/HwJob.v ===== *)
(** * HwJob: a garbage collection on the hardware

    [DoRunGCOnHardware] of [blob_gc_job.cc], and the job around it: the job
    takes a compute unit, copies the bitmaps of its inputs, lets the driver run
    the kernel, and turns the relocation entries into write batches whose
    indexes are linked to the records they replace. The bytes of the input
    files, and what is in buffers that nothing initialises, are arguments. *)
From S2P Require Import Prelude Coding Crc32c BitMap BlobFileMeta TitanStats Options VersionEdit BlobStorage BlobFileSet GCPicker BlobFileBuilder BlobFileReader BlobFileIterator GCJob HwKernel HwDriver BlobFormat.

Local Open Scope Z_scope.
Local Open Scope aegon_scope.

Section HwJob.
Context (env : Surroundings) `{C : Comparator} `{L : FileLibrary} `{H : HeapTop}.
Context (t : Z) (copts : CompressionOptions).
Context (blob_file_bytes : Z -> bytes) (key0 value0 dev_in dev_out : bytes).

Definition set_offload (j : BlobGCJob) (b : bool) : BlobGCJob :=
  mkJob (blob_gc_ j) (inputs j) (cf_id j) (blob_file_builders_ j) (rewrite_batches_ j) (metrics_ j) b (hardware_blob_file_ j).

Definition set_hardware_file (j : BlobGCJob) (f : BlobFileMeta) : BlobGCJob :=
  mkJob (blob_gc_ j) (inputs j) (cf_id j) (blob_file_builders_ j) (rewrite_batches_ j) (metrics_ j) (gc_offload_ j) (Some f).

(** The loop over the inputs: the bitmaps and the numbers of entries. *)
Fixpoint collect_inputs (bs : BlobStorage) (files : list BlobFileMeta)
    : option (Status * list BitMap * list Z) :=
  match files with
  | [] => Some (OK, [], [])
  | input :: files =>
      file ← FindFile bs (file_number_ input);
      match file with
      | None => Some (NotFound, [], [])
      | Some file =>
          if is_obsolete file then Some (NotFound, [], []) else
          '(s, bitMap) ← CopyInvalidEntryIndexesTo file BitMap_default;
          _ ← assert (ok s);
          '(s, bitmaps, input_entries) ← collect_inputs bs files;
          Some (s, bitMap :: bitmaps, file_entries_ file :: input_entries)
      end
  end.

(** [smallest_key] and [largest_key]. *)
Definition widen (range : bytes * bytes) (key : bytes) : bytes * bytes :=
  let '(smallest, largest) := if bool_decide (range.1 = []) then (key, key) else range in
  (if Compare key smallest <? 0 then key else smallest, if 0 <? Compare key largest then key else largest).

(** The index of a relocated record and the linked one that replaces it. *)
Definition relocation_indexes (files : list BlobFileMeta) (output_number i : Z) (index_meta : list Z)
    : option (BlobIndex * BlobIndex) :=
  new_offset ← index_meta !! 0%nat;
  input ← index_meta !! 1%nat;
  old_offset ← index_meta !! 2%nat;
  record_size ← index_meta !! 3%nat;
  file ← files !! Z.to_nat input;
  let old := {| offset := old_offset; size := record_size; index := 0 |} in
  Some ({| file_number := file_number_ file; blob_handle := old;
           old_file_number := 0; old_blob_handle := BlobHandle_default |},
        {| file_number := output_number;
           blob_handle := {| offset := new_offset; size := record_size; index := i |};
           old_file_number := file_number_ file; old_blob_handle := old |}).

(** The loop over the relocation entries. *)
Fixpoint add_rewrites (files : list BlobFileMeta) (output_number i : Z) (keys : list (bytes * list Z))
    (range : bytes * bytes) (batches : list RewriteBatch) : option (bytes * bytes * list RewriteBatch) :=
  match keys with
  | [] => Some (range, batches)
  | (key, index_meta) :: keys =>
      '(origin_blob_index, new_blob_index) ← relocation_indexes files output_number i index_meta;
      batches ← add_batch key (mkLsm true (BlobIndex_EncodeTo new_blob_index)) origin_blob_index new_blob_index batches;
      add_rewrites files output_number (i + 1) keys (widen range key) batches
  end.

(** What the job makes of the driver's results. *)
Definition adopt_output (j : BlobGCJob) (output_number : Z) (res : Driver.gc_result) : option BlobGCJob :=
  '(smallest_key, largest_key, batches) ←
    add_rewrites (inputs j) output_number 0 (Driver.rewrite_keys res) ([], []) (rewrite_batches_ j);
  entries ← Driver.output_meta res !! 0%nat;
  file_size ← Driver.output_meta res !! 1%nat;
  file ← transit (set_live_data_size (BlobFileMeta_new output_number file_size entries 0 smallest_key largest_key) file_size)
           kGCOutput;
  Some (set_hardware_file (set_batches j batches) file).

(** [DoRunGCOnHardware]; [q] is the driver's queue of free units, [cu0] the
    variable for the unit. The returns in the middle leave the mutex locked and
    do not give the unit back. *)
Definition DoRunGCOnHardware (fuel : nat) (garbage cu0 : Z) (w : World) (j : BlobGCJob) (q : list Z)
    : Driver.outcome (Status * World * BlobGCJob * list Z) :=
  let '(s, cu_index, q) := Driver.get_free_cu_index q cu0 in
  if negb (ok s) then
    Driver.checked ('(s, w, j) ← DoRunGC env t copts fuel garbage w (set_offload j false); Some (s, w, j, q))
  else
    Driver.obind (Driver.checked (
      _ ← assert (negb (bool_decide (inputs j = [])));
      w ← Lock env w;
      match GetBlobStorage (blob_file_set_ w) (cf_id j) with
      | None => Some (NotFound, w, [], [])
      | Some bs =>
          '(s, bitmaps, input_entries) ← collect_inputs bs (inputs j);
          Some (s, w, bitmaps, input_entries)
      end)) (fun '(s, w, bitmaps, input_entries) =>
    if negb (ok s) then Driver.Done (s, w, j, q) else
    let w := others env (Unlock w) in
    let '(output_number, set) := NewFileNumber (blob_file_set_ w) in
    let w := set_files_of w set (disk w) in
    Driver.obind (Driver.run_gc_kernel key0 value0 dev_in dev_out
                    (map (fun f => blob_file_bytes (file_number_ f)) (inputs j)) bitmaps input_entries) (fun res =>
    let '(_, q) := Driver.set_free_cu_index q cu_index in
    Driver.checked (j ← adopt_output j output_number res; Some (OK, w, j, q)))).

Definition Run (fuel : nat) (garbage cu0 : Z) (w : World) (j : BlobGCJob) (q : list Z)
    : Driver.outcome (Status * World * BlobGCJob * list Z) :=
  if gc_offload_ j then DoRunGCOnHardware fuel garbage cu0 w j q
  else Driver.checked ('(s, w, j) ← DoRunGC env t copts fuel garbage w j; Some (s, w, j, q)).

(** The part of [BackgroundGC] that runs a job, with the mutex held before and
    after. *)
Definition RunWithDriver (fuel : nat) (garbage cu0 : Z) (w : World) (j : BlobGCJob) (q : list Z)
    : Driver.outcome (Status * World * BlobGCJob * list Z) :=
  Driver.obind (Run fuel garbage cu0 (Unlock w) j q) (fun '(s, w, j, q) =>
  Driver.checked (
    w ← Lock env w;
    '(s, w, j) ← (if ok s then Finish env t copts w j else Some (s, w, j));
    Some (s, w, j, q))).
End HwJob.
