(* ===== verification/HwJobSpec.v ===== *)
(** * HwJobSpec: an offloaded collection hands over relocations

    The composition of the job with driver and kernel: every valid record of the
    inputs becomes one write batch whose linked index is a relocation in the
    sense of [WriteBackSpec]; and what happens when an input is gone. *)
From S2P Require Import Prelude Coding Crc32c BitMap BlobFileMeta TitanStats Options VersionEdit BlobStorage BlobStorageProofs EditCollector EditCollectorProofs BlobFileSet BlobFileSetProofs GCPicker BlobFileBuilder BlobFileBuilderProofs BlobFileReader BlobFileIterator GCJob WriteBack WriteBackSpec HwKernel HwKernelProofs HwDriver HwDriverProofs HwGC HwJob BlobFormat.

Local Open Scope Z_scope.
Local Open Scope aegon_scope.

(** ** The relocation entries *)

Lemma zlen_rws_data_ge l : zlen l <= zlen (rws_data l).
Proof.
  induction l as [|r l IH]; [done|]. rewrite zlen_cons, rws_data_cons, zlen_app. unfold rw_bytes, rec_bytes.
  rewrite zlen_app, zlen_PutFixed32. pose proof (zlen_nonneg ((PutFixed32 (u32 (zlen (rec_payload (rw_key r) (rw_value r)))) ++ [0]) ++
    rec_payload (rw_key r) (rw_value r))). lia.
Qed.

Lemma gc_rewrites_count fs bms : gc_input fs bms -> zlen (gc_rewrites fs) < 2 ^ 32.
Proof.
  intros Hin. pose proof (zlen_rws_data_ge (gc_rewrites fs)). pose proof (gi_small _ _ Hin).
  pose proof (out_size_fits fs (gi_nonempty _ _ Hin) (gi_v2 _ _ Hin)) as Hf. unfold out_size in Hf. cbv zeta in Hf.
  destruct (footer_pad_spec (12 + zlen (rws_data (gc_rewrites fs)))) as [Hp _]. lia.
Qed.

Section Spec.
Context `{C : Comparator} `{LC : !ComparatorLaws C} `{L : FileLibrary} `{H : HeapTop}.

Lemma widen_range range rs r :
  Forall (fun r => key r <> []) rs -> key r <> [] -> key_range range.1 range.2 rs ->
  key_range (widen range (key r)).1 (widen range (key r)).2 (rs ++ [r]).
Proof.
  intros Hne Hr Hk. pose proof (key_range_extend _ _ _ _ Hne Hr Hk) as Hx. unfold widen.
  destruct rs as [|r0 rs].
  - destruct Hk as [H1 H2]. rewrite H1, H2 in Hx. rewrite H1. cbn in *. by rewrite Compare_refl.
  - destruct Hk as (Hs & Hl & _).
    assert (forall k, k ∈ map key (r0 :: rs) -> k <> []) as Hmem.
    { intros k (r' & -> & Hin)%list_elem_of_fmap. rewrite Forall_forall in Hne. by apply Hne. }
    rewrite (bool_decide_eq_false_2 (range.1 = [])) in * by auto.
    rewrite (bool_decide_eq_false_2 (range.2 = [])) in Hx by auto. by destruct range.
Qed.

(** ** What a batch of an offloaded collection promises *)

Definition record_of (kv : bytes * bytes) : BlobRecord := {| key := kv.1; value := kv.2 |}.

(** The batch of a record: its index is in the output file, linked to the record
    in the input file; both places hold the same bytes, which decode to the
    record; and writing the index is a relocation of the key. *)
Record relocates (blob_file_bytes : Z -> bytes) (output_number : Z) (output : bytes) (kv : bytes * bytes) (b : RewriteBatch) : Prop := {
  re_key : rb_key b = kv.1;
  re_put : rb_put b = mkLsm true (BlobIndex_EncodeTo (new_blob_index_ b)) /\
    BlobIndex_DecodeFrom BlobIndex_default (BlobIndex_EncodeTo (new_blob_index_ b)) = Ret (new_blob_index_ b, []);
  re_new : file_number (new_blob_index_ b) = output_number /\ linked (new_blob_index_ b) = true /\
    old_location (new_blob_index_ b) = location (blob_index_ b) /\
    size (blob_handle (new_blob_index_ b)) = size (blob_handle (blob_index_ b));
  re_bytes : exists bs,
    mem_read output (offset (blob_handle (new_blob_index_ b))) (size (blob_handle (new_blob_index_ b))) = Some bs /\
    mem_read (blob_file_bytes (file_number (blob_index_ b))) (offset (blob_handle (blob_index_ b))) (size (blob_handle (blob_index_ b))) = Some bs /\
    forall U, exists d rest, DecodeHeader bs = Ret (d, rest) /\ DecodeRecord U d rest = Some (Ret (record_of kv, []));
  re_step : forall s : KeyState, store s !! location (blob_index_ b) = Some kv.2 -> location (new_blob_index_ b) ∉ used s ->
    key_step kv.1 s (mkKey (Idx (new_blob_index_ b) :: tree s) (<[location (new_blob_index_ b) := kv.2]> (store s))
      ({[location (new_blob_index_ b)]} ∪ used s) ({[location (blob_index_ b)]} ∪ WriteBackSpec.moved s) (logical s)) }.

Context (blob_file_bytes : Z -> bytes) (fs : list in_file) (bms : list BitMap) (files : list BlobFileMeta).

(** The metadata of an input, and its file. *)
Definition input_file (f : BlobFileMeta) (g : in_file) : Prop :=
  blob_file_bytes (file_number_ f) = file_bytes g /\ 0 < file_number_ f < 2 ^ 64.

Lemma input_bytes fls gs : Forall2 input_file fls gs -> map (fun f => blob_file_bytes (file_number_ f)) fls = map file_bytes gs.
Proof. induction 1 as [|f g fls gs [Hf _] _ IH]; [done|]. cbn [map]. by rewrite Hf, IH. Qed.

Context (Hin : gc_input fs bms) (Hfiles : Forall2 input_file files fs).

Lemma rewrite_batch p old output_number i r :
  zlen (out_data fs p old) = out_size fs -> is_u64 output_number -> is_u64 i ->
  r ∈ gc_rewrites fs ->
  exists origin new, relocation_indexes files output_number i (rw_words r).2 = Some (origin, new) /\
    relocates blob_file_bytes output_number (out_data fs p old) (rw_kv r)
      (mkBatch (rw_key r) (mkLsm true (BlobIndex_EncodeTo new)) origin new).
Proof.
  intros Hol Hn Hi Hr. destruct (relocated_rewrite fs bms p old r Hin Hr Hol) as [_ (new & file & orig & sz & f & bs & Hw & Hf & Hrn & Hro & Hd)].
  destruct (Forall2_lookup_r _ _ _ _ _ Hfiles Hf) as (m & Hm & Hmb & Hmn).
  pose proof Hw as Hw'. unfold rw_words in Hw'. cbn in Hw'. injection Hw' as <- Hfile <- <-.
  assert (forall x, is_u64 (u32 x)) as Hu by (intros x; pose proof (is_u32_u32 x); unfold is_u32, is_u64 in *; lia).
  unfold relocation_indexes. rewrite Hw. cbn [lookup list_lookup mbind option_bind]. rewrite Hm. cbn [mbind option_bind].
  eexists _, _. split; [reflexivity|].
  match goal with |- relocates _ _ _ _ (mkBatch _ _ _ ?n) => set (nw := n) end.
  assert (BlobIndex_wf nw) as Hwf.
  { split; [exact Hn|]. split; [split_and!; cbn; [apply Hu|apply Hu|exact Hi]|]. split; [cbn; unfold is_u64; lia|].
    split_and!; cbn; [apply Hu|apply Hu|unfold is_u64; lia]. }
  assert (linked nw = true) as Hlk by (unfold linked, nw; cbn; apply Z.ltb_lt, Hmn).
  split; cbn [rb_key rb_put new_blob_index_ blob_index_].
  - done.
  - split; [done|]. rewrite <- (app_nil_r (BlobIndex_EncodeTo nw)). apply BlobIndex_roundtrip_linked; [exact Hwf|apply Hmn].
  - done.
  - exists bs. split; [exact Hrn|]. split; [cbn; rewrite Hmb; exact Hro|exact Hd].
  - intros s Hs Hu'. by apply (step_relocate (rw_key r) s nw).
Qed.

Lemma add_rewrites_spec p old output_number rs : forall i range recs batches live,
  zlen (out_data fs p old) = out_size fs -> is_u64 output_number -> 0 <= i -> i + zlen rs < 2 ^ 64 ->
  (forall r, r ∈ rs -> r ∈ gc_rewrites fs /\ rw_key r <> []) ->
  Forall (fun r => key r <> []) recs -> key_range range.1 range.2 recs ->
  Forall2 (relocates blob_file_bytes output_number (out_data fs p old)) live batches ->
  exists range' batches', add_rewrites files output_number i (map rw_words rs) range batches = Some (range', batches') /\
    Forall2 (relocates blob_file_bytes output_number (out_data fs p old)) (live ++ map rw_kv rs) batches' /\
    key_range range'.1 range'.2 (recs ++ map (record_of ∘ rw_kv) rs).
Proof.
  induction rs as [|r rs IH]; intros i range recs batches live Hol Hn Hi Hlt Hrs Hne Hk Hb.
  - exists range, batches. cbn. by rewrite !app_nil_r.
  - rewrite zlen_cons in Hlt. pose proof (zlen_nonneg rs).
    destruct (Hrs r) as [Hr Hrk]; [apply list_elem_of_here|].
    destruct (rewrite_batch p old output_number i r Hol Hn ltac:(unfold is_u64; lia) Hr) as (origin & nw & Hri & Hre).
    cbn [map]. destruct (rw_words r) as [k ws] eqn:Ew. assert (k = rw_key r) as -> by (unfold rw_words in Ew; by injection Ew as <- _).
    cbn [add_rewrites]. cbn [snd] in Hri. rewrite Hri. cbn [mbind option_bind]. unfold add_batch.
    rewrite bool_decide_eq_false_2 by done. cbn [negb assert mbind option_bind].
    destruct (IH (i + 1) (widen range (rw_key r)) (recs ++ [record_of (rw_kv r)]) (batches ++ [mkBatch (rw_key r)
      (mkLsm true (BlobIndex_EncodeTo nw)) origin nw]) (live ++ [rw_kv r])) as (range' & batches' & Ha & Hb' & Hk');
      [done|done|lia|lia| | | | |].
    + intros r' Hr'. apply Hrs. by apply list_elem_of_further.
    + apply Forall_app. split; [done|]. by constructor.
    + by apply (widen_range range recs (record_of (rw_kv r))).
    + apply Forall2_app; [done|]. by constructor.
    + exists range', batches'. split; [exact Ha|]. rewrite <- !app_assoc in Hb', Hk'. by split.
Qed.

(** ** The run *)

(** An input that the storage knows, with its bitmap. *)
Definition input_known (bs : BlobStorage) (f : BlobFileMeta) (g : in_file * BitMap) : Prop :=
  exists m, files_ bs !! file_number_ f = Some m /\ is_obsolete m = false /\
    invalid_entry_indexes_ m = Some g.2 /\ BitMap_wf g.2 /\ file_entries_ m = zlen (f_records g.1).

Lemma collect_inputs_spec bs fls gs :
  storage_wf bs -> Forall2 (input_known bs) fls gs ->
  collect_inputs bs fls = Some (OK, map snd gs, entries_of (map fst gs)).
Proof.
  intros Hwf. induction 1 as [|f g fls gs (m & Hm & Ho & Hi & Hbw & He) _ IH]; [done|]. cbn [collect_inputs].
  rewrite (FindFile_wf _ _ Hwf), Hm. cbn [mbind option_bind]. rewrite Ho. unfold CopyInvalidEntryIndexesTo.
  rewrite Hi. cbn [mbind option_bind]. rewrite CopyTo_spec by done. cbn [mbind option_bind assert ok]. rewrite IH. cbn [mbind option_bind].
  by rewrite He.
Qed.

Context (env : Surroundings) (t : Z) (copts : CompressionOptions) (key0 value0 dev_in dev_out : bytes).

(** A job that is given a unit, for inputs that are in the storage when it has
    the mutex; the driver's buffers as they are allocated. *)
Record offload_setting (w : World) (j : BlobGCJob) (bs : BlobStorage) : Prop := {
  os_inputs : inputs j = files /\ files <> [];
  os_batches : rewrite_batches_ j = [];
  os_free : mutex_held w = false;
  os_storage : GetBlobStorage (blob_file_set_ (others env w)) (cf_id j) = Some bs /\ storage_wf bs;
  os_numbers : forall k p, is_u64 (fs_next_file_number_ (others_files env k p).1);
  os_known : Forall2 (input_known bs) files (zip fs bms);
  os_keys : Forall (fun f => Forall (fun r => r.1 <> []) (f_records f)) fs;
  os_key0 : zlen key0 = Kernel.MAX_KEY_LENGTH;
  os_value0 : zlen value0 = Kernel.MAX_VALUE_LENGTH;
  os_dev_in : zlen dev_in = slots fs;
  os_dev_out : slots fs <= zlen dev_out /\ is_bytes dev_out }.

Lemma live_keys : Forall (fun f => Forall (fun r => r.1 <> []) (f_records f)) fs ->
  forall r, r ∈ gc_rewrites fs -> rw_key r <> [].
Proof.
  intros Hk r Hr. assert (rw_kv r ∈ live_records fs) as Hl.
  { unfold live_records. rewrite <- (files_rewrites_kv 0 12). by apply list_elem_of_fmap_2. }
  unfold live_records in Hl. apply list_elem_of_In, in_concat in Hl as (l & Hl & Hrl). apply list_elem_of_In, list_elem_of_fmap in Hl as (f & -> & Hf).
  rewrite Forall_forall in Hk. specialize (Hk f Hf). clear -Hk Hrl. change (rw_key r) with (rw_kv r).1.
  generalize 0, (rw_kv r), Hrl. clear Hrl. induction Hk as [|kv rs Hkv _ IH]; intros jj x Hx; [done|]. cbn in Hx.
  destruct (f_valid f jj); [destruct Hx as [<-|Hx]; [done|]|]; by eapply IH.
Qed.

(** C22: An offloaded collection that is given a unit, under the conditions
    below, ends with an OK status, the mutex free and the unit returned. It has
    one write batch for each record that the bitmaps call valid, in order: the
    batch puts a linked index whose new place, in the output file, holds the very
    bytes of the record at its old place, and writing it back, at any time while
    the old record is there, is a relocation of the key, in the sense of the model
    of the LSM tree. The metadata of the output file has its number, its size, its
    entries and the range of its keys.

    The conditions, [offload_setting] and [gc_input]: when the job has the mutex
    every input is in the storage, not obsolete, with its number of entries and
    its bitmap (otherwise the job does not end: [offload_gone_input_deadlocks]);
    the mutex is free at the beginning; the driver's buffers are as it allocates
    them; the inputs are files of version 2, uncompressed, with keys of 1 to 64 and
    values of at most 8192 bytes and at least 32 bytes after the records, none of
    them of a critical size (empty, or within 1 MiB below or at a multiple of
    128 MiB), rounded up to less than 4 GiB together, and the relocation entries
    fit into the buffer for them, which keys of at most 27 bytes always do. *)
Theorem offload_relocates fuel garbage cu0 cu q w j bs :
  offload_setting w j bs ->
  exists w1 res hw batches, Lock env w = Some w1 /\
    let w2 := others env (Unlock w1) in
    let n := fs_next_file_number_ (blob_file_set_ w2) in
    DoRunGCOnHardware env t copts blob_file_bytes key0 value0 dev_in dev_out fuel garbage cu0 w j (cu :: q)
      = Driver.Done (OK, set_files_of w2 (NewFileNumber (blob_file_set_ w2)).2 (disk w2),
                     set_hardware_file (set_batches j batches) hw, q ++ [cu]) /\
    Driver.run_gc_kernel key0 value0 dev_in dev_out (map file_bytes fs) bms (entries_of fs) = Driver.Done res /\
    file_number_ hw = n /\ file_size_ hw = zlen (Driver.output_file res) /\ file_entries_ hw = zlen (live_records fs) /\
    state_ hw = kPendingGC /\ key_range (BlobFileMeta.smallest_key_ hw) (BlobFileMeta.largest_key_ hw) (map record_of (live_records fs)) /\
    Forall2 (relocates blob_file_bytes n (Driver.output_file res)) (live_records fs) batches.
Proof.
  intros [[Hj Hne] Hb Hfree [Hbs Hwf] Hnum Hkn Hks Hk0 Hv0 Hdi [Hdo Hdob]].
  destruct (gc_input_run key0 value0 dev_in dev_out fs bms) as (p & old & Hp & Hold & Hoby & Hol & Hrun); try done.
  pose proof (Forall2_length _ _ _ (gi_bitmaps _ _ Hin)) as Hlen.
  assert (map fst (zip fs bms) = fs /\ map snd (zip fs bms) = bms) as [Hz1 Hz2] by (split; [apply fst_zip|apply snd_zip]; lia).
  set (w1 := let w' := others env w in mkWorld (lsm w') (blob_file_set_ w') (disk w') (pending_outputs_ w') (bg_error_ w') true (clock w')).
  assert (Lock env w = Some w1) as Hl by (unfold Lock; by rewrite Hfree).
  set (w2 := others env (Unlock w1)). set (n := fs_next_file_number_ (blob_file_set_ w2)).
  assert (is_u64 n) as Hn.
  { unfold n, w2, others. cbn [blob_file_set_ Unlock]. destruct (others_files env _ _) as [s' d'] eqn:Eo. cbn [blob_file_set_].
    pose proof (Hnum (clock (Unlock w1)) (blob_file_set_ (Unlock w1), disk (Unlock w1))) as Hx.
    unfold Unlock in Hx. cbn [clock blob_file_set_ disk] in Hx. unfold Unlock in Eo. cbn [clock blob_file_set_ disk] in Eo. by rewrite Eo in Hx. }
  destruct (add_rewrites_spec p old n (gc_rewrites fs) 0 ([], []) [] [] [] Hol Hn ltac:(done)) as ([sm lg] & batches & Ha & Hre & Hkr).
  { pose proof (gc_rewrites_count fs bms Hin). lia. }
  { intros r Hr. split; [done|]. by apply live_keys. }
  { constructor. }
  { done. }
  { constructor. }
  assert (map rw_kv (gc_rewrites fs) = live_records fs) as Hlive.
  { unfold live_records. apply files_rewrites_kv. }
  rewrite app_nil_l in Hre, Hkr.
  eexists w1, _, _, batches. split; [exact Hl|]. intros w2' n'. subst w2' n'.
  split_and!; [|exact Hrun|..].
  - unfold DoRunGCOnHardware, Driver.get_free_cu_index. cbn [ok negb]. rewrite Hj, bool_decide_eq_false_2 by done.
    cbn [negb assert mbind option_bind]. rewrite Hl. cbn [mbind option_bind]. change (blob_file_set_ w1) with (blob_file_set_ (others env w)).
    rewrite Hbs, (collect_inputs_spec bs files (zip fs bms) Hwf Hkn), Hz1, Hz2. cbn [mbind option_bind Driver.checked Driver.obind ok negb].
    fold w2. unfold NewFileNumber at 1. fold n.
    rewrite (input_bytes files fs Hfiles), Hrun. cbn [Driver.obind Driver.set_free_cu_index]. unfold adopt_output. rewrite Hj, Hb. cbn [Driver.rewrite_keys Driver.output_meta].
    rewrite Ha. cbn [mbind option_bind lookup list_lookup]. reflexivity.
  - reflexivity.
  - cbn. by rewrite Hol.
  - cbn. rewrite <- Hlive. unfold zlen. by rewrite length_map.
  - reflexivity.
  - cbn. rewrite <- Hlive, map_map. exact Hkr.
  - by rewrite <- Hlive.
Qed.

(** ** Inputs that are gone *)

Lemma collect_inputs_gone bs before f after gs :
  storage_wf bs -> Forall2 (input_known bs) before gs ->
  (forall m, files_ bs !! file_number_ f = Some m -> is_obsolete m = true) ->
  exists bitmaps es, collect_inputs bs (before ++ f :: after) = Some (NotFound, bitmaps, es).
Proof.
  intros Hwf Hb Hf. induction Hb as [|g x before gs (m & Hm & Ho & Hi & Hbw & He) _ (bitmaps & es & IH)]; cbn [app collect_inputs].
  - rewrite (FindFile_wf _ _ Hwf). cbn [mbind option_bind]. destruct (files_ bs !! file_number_ f) as [m|] eqn:E; [|by eexists _, _].
    rewrite (Hf m eq_refl). by eexists _, _.
  - rewrite (FindFile_wf _ _ Hwf), Hm. cbn [mbind option_bind]. rewrite Ho. unfold CopyInvalidEntryIndexesTo.
    rewrite Hi. cbn [mbind option_bind]. rewrite CopyTo_spec by done. cbn [mbind option_bind assert ok]. rewrite IH. by eexists _, _.
Qed.

(** C38: When an input has become obsolete or has been purged by the time the job
    looks it up, the job returns in the middle: the mutex of the database stays
    locked, and the compute unit is lost to the queue. The thread then locks the
    mutex that it holds, so the collection, and everything else that needs the
    mutex, never goes on. *)
Theorem offload_gone_input_deadlocks fuel garbage cu0 cu q w j bs before f after gs :
  inputs j = before ++ f :: after -> gc_offload_ j = true -> mutex_held w = true ->
  GetBlobStorage (blob_file_set_ (others env (Unlock w))) (cf_id j) = Some bs -> storage_wf bs ->
  Forall2 (input_known bs) before gs ->
  (forall m, files_ bs !! file_number_ f = Some m -> is_obsolete m = true) ->
  (exists w', DoRunGCOnHardware env t copts blob_file_bytes key0 value0 dev_in dev_out fuel garbage cu0 (Unlock w) j (cu :: q)
    = Driver.Done (NotFound, w', j, q) /\ mutex_held w' = true) /\
  RunWithDriver env t copts blob_file_bytes key0 value0 dev_in dev_out fuel garbage cu0 w j (cu :: q) = Driver.OutOfBounds.
Proof.
  intros Hj Hoff Hm Hbs Hwf Hb Hf. destruct (collect_inputs_gone bs before f after gs Hwf Hb Hf) as (bitmaps & es & Hc).
  assert (exists w', DoRunGCOnHardware env t copts blob_file_bytes key0 value0 dev_in dev_out fuel garbage cu0 (Unlock w) j (cu :: q)
    = Driver.Done (NotFound, w', j, q) /\ mutex_held w' = true) as (w' & Hrun & Hm').
  { unfold DoRunGCOnHardware, Driver.get_free_cu_index. cbn [ok negb]. rewrite Hj, bool_decide_eq_false_2 by by destruct before.
    cbn [negb assert mbind option_bind]. unfold Lock. cbn [mutex_held Unlock mbind option_bind blob_file_set_]. rewrite Hbs, Hc.
    cbn [mbind option_bind Driver.checked Driver.obind ok negb]. by eexists. }
  split; [by exists w'|]. unfold RunWithDriver, Run. rewrite Hoff, Hrun. cbn [Driver.obind]. unfold Lock. by rewrite Hm'.
Qed.
End Spec.

(** ** A small run *)

(** The demo file of [HwGC] under number 2, with its bitmap. *)
Definition demo_meta : BlobFileMeta :=
  mkMeta 2 (zlen (file_bytes demo_file)) 2 0 [107; 49] [107; 50] 0 kNormal (Some demo_bitmap).

Definition demo_bytes (n : Z) : bytes := if n =? 2 then file_bytes demo_file else [].

Definition demo_storage : BlobStorage :=
  match AddBlobFile (C := BytewiseComparator) (BlobStorage_new (TitanCFOptions_default 7) 0) (Some (InitializeCF ∅ 0)) demo_meta with
  | Some (b, _) => b
  | None => BlobStorage_new (TitanCFOptions_default 7) 0
  end.

Lemma demo_storage_ok :
  storage_wf (C := BytewiseComparator) demo_storage /\ files_ demo_storage = {[2 := demo_meta]}.
Proof.
  destruct (reachable_wf (C := BytewiseComparator) (TitanCFOptions_default 7) 0 ∅ _ _ (rtc_refl _ _)) as [Hwf Hst].
  destruct (AddBlobFile_wf (C := BytewiseComparator) _ _ demo_meta Hwf Hst eq_refl eq_refl ltac:(vm_compute; split; [discriminate|reflexivity]))
    as (b & st & Ha & Hb & _ & Hf & _).
  unfold demo_storage. rewrite Ha. split; [exact Hb|]. by rewrite Hf.
Qed.

Definition demo_world (held : bool) : World :=
  mkWorld ∅ (mkSet None [] ∅ {[0 := demo_storage]} (Some 1) 3 1) (mkDisk None ∅ ∅) ∅ OK held 0.

Definition demo_env : Surroundings := {|
  others_lsm n tr := tr;
  others_files n p := (mkSet (fs_stats_ p.1) (obsolete_manifests_ p.1) (obsolete_columns_ p.1) (column_families_ p.1)
    (manifest_ p.1) (u64 (fs_next_file_number_ p.1)) (manifest_file_number_ p.1), p.2);
  read_error n := OK; write_error n := OK; shuting_down_ n := false; IsDropped n := false;
  NewBlobFileReader n := Fail NotFound; NewWritableFile n := Fail NotFound;
  Sync n := OK; Close n := OK; Fsync := OK; DeleteFile n := OK; log_io n := io_ok; FlushWAL := OK;
  GetLatestSequenceNumber := 100 |}.

Definition demo_job (fls : list BlobFileMeta) : BlobGCJob :=
  BlobGCJob_new (mkGC (map file_number_ fls) [] (TitanCFOptions_default 7) false) fls 0 true.

(** A library that neither compresses nor has blocks. *)
Definition plain_library : FileLibrary := {|
  ZSTD_VERSION_NUMBER := 0; CompressData _ _ _ := None; UncompressData _ _ _ := None; ZSTD_TrainDictionary _ _ _ := [];
  BuildBlock _ := []; SeekBlock _ _ := mkSeek NotFound false [] []; uninit n := replicate (Z.to_nat n) 0 |}.

Lemma demo_input_file : Forall2 (input_file demo_bytes) [demo_meta] [demo_file].
Proof. constructor; [|constructor]. by split. Qed.

Lemma demo_known : Forall2 (input_known demo_storage) [demo_meta] (zip [demo_file] [demo_bitmap]).
Proof.
  constructor; [|constructor]. exists demo_meta. rewrite (proj2 demo_storage_ok). split; [reflexivity|]. split; [reflexivity|].
  split; [reflexivity|]. split; [|reflexivity]. split; [vm_compute; split; [discriminate|reflexivity]|]. split; [reflexivity|].
  exists [64]. split; [reflexivity|]. split; [reflexivity|]. by repeat constructor.
Qed.

(** The first record is relocated, and the unit is at the end of the queue. *)
Lemma offload_relocates_witness :
  exists w' j' q hw b res, DoRunGCOnHardware (C := BytewiseComparator) (L := plain_library) (H := fun _ => 0%nat) demo_env 1
      (mkCompressionOptions 0 0) demo_bytes (replicate 64 0) (replicate (Z.to_nat 8192) 0)
      (replicate (Z.to_nat 1048576) 0) (replicate (Z.to_nat 1048576) 0) 0 0 0 (demo_world false) (demo_job [demo_meta]) [1; 2; 3]
    = Driver.Done (OK, w', j', q) /\ q = [2; 3; 1] /\ hardware_blob_file_ j' = Some hw /\ file_number_ hw = 3 /\
    rewrite_batches_ j' = [b] /\ relocates (C := BytewiseComparator) demo_bytes 3 (Driver.output_file res) ([107; 49], [118; 49]) b.
Proof.
  destruct (offload_relocates (C := BytewiseComparator) (L := plain_library) (H := fun _ => 0%nat) demo_bytes [demo_file] [demo_bitmap]
    [demo_meta] demo_input demo_input_file demo_env 1 (mkCompressionOptions 0 0) (replicate 64 0) (replicate (Z.to_nat 8192) 0)
    (replicate (Z.to_nat 1048576) 0) (replicate (Z.to_nat 1048576) 0) 0 0 0 1 [2; 3] (demo_world false) (demo_job [demo_meta]) demo_storage)
    as (w1 & res & hw & batches & Hl & Hrun & _ & Hn & _ & _ & _ & _ & Hre).
  - split; [by split|reflexivity|reflexivity|split; [reflexivity|apply demo_storage_ok]| |exact demo_known|by repeat constructor|reflexivity|..].
    + intros k p. cbn. apply Z.mod_pos_bound. lia.
    + unfold zlen. rewrite length_replicate, Z2Nat.id by lia. reflexivity.
    + unfold zlen. rewrite length_replicate, Z2Nat.id by lia. by vm_compute.
    + split; [unfold zlen; rewrite length_replicate, Z2Nat.id by lia; by vm_compute|by apply Forall_replicate].
  - injection Hl as <-. change (live_records [demo_file]) with [([107; 49], [118; 49]) : bytes * bytes] in Hre.
    apply Forall2_cons_inv_l in Hre as (b & l & Hb & Hl & ->). apply Forall2_nil_inv_l in Hl as ->.
    eexists _, _, _, hw, b, res. split; [exact Hrun|]. split; [reflexivity|]. split; [reflexivity|].
    split; [exact Hn|]. split; [reflexivity|exact Hb].
Defined.

(** The second input is not in the storage. *)
Lemma offload_gone_input_deadlocks_witness :
  RunWithDriver (C := BytewiseComparator) (L := plain_library) (H := fun _ => 0%nat) demo_env 1 (mkCompressionOptions 0 0) demo_bytes [] [] [] []
    0 0 0 (demo_world true) (demo_job [demo_meta; BlobFileMeta_new 5 100 1 0 [1] [1]]) [1; 2] = Driver.OutOfBounds.
Proof.
  destruct (offload_gone_input_deadlocks (C := BytewiseComparator) (L := plain_library) (H := fun _ => 0%nat) demo_bytes demo_env 1
    (mkCompressionOptions 0 0) [] [] [] [] 0 0 0 1 [2] (demo_world true) (demo_job [demo_meta; BlobFileMeta_new 5 100 1 0 [1] [1]])
    demo_storage [demo_meta] (BlobFileMeta_new 5 100 1 0 [1] [1]) [] (zip [demo_file] [demo_bitmap])) as [_ Hd];
    [reflexivity|reflexivity|reflexivity|reflexivity|apply demo_storage_ok|exact demo_known| |exact Hd].
  intros m Hm. rewrite (proj2 demo_storage_ok) in Hm. vm_compute in Hm. discriminate.
Defined.
