(* ===== verification/BackgroundGC.v ===== *)
(** * BackgroundGC: a background collection as a whole

    [BackgroundGC] of [db_impl_gc.cc]: the picker chooses the files of a column
    family, the job collects them in software or on the hardware, the files are
    released, and the column family is queued again when there is more to do.
    The picker is [GCPicker], the job [GCJob] and [HwJob], the queue
    [GCScheduler]. *)
From S2P Require Import Prelude Coding Crc32c BitMap BlobFileMeta TitanStats Options VersionEdit BlobStorage BlobStorageProofs EditCollector EditCollectorProofs BlobFileSet BlobFileSetProofs GCScheduler GCPicker BlobFileBuilder BlobFileBuilderProofs BlobFileReader BlobFileReaderProofs BlobFileIterator BlobFileIteratorProofs BlobFileMergeProofs BlobFileSpec GCJob GCJobRun GCJobProofs GCJobSpec HwKernel HwDriver HwJob BlobFormat.

Local Open Scope Z_scope.
Local Open Scope aegon_scope.

(** ** The handler *)

(** A column family that has been dropped is skipped. *)
Definition pick_files (w : World) (column_family_id : Z) : option (option BlobGC * World) :=
  let set := blob_file_set_ w in
  match (if IsColumnFamilyObsolete set column_family_id then None else GetBlobStorage set column_family_id) with
  | None => Some (None, w)
  | Some blob_storage =>
      '(blob_gc, blob_storage) ← PickBlobGC blob_storage (cf_options blob_storage);
      Some (blob_gc, set_files_of w
              (set_column_families set (<[column_family_id := blob_storage]> (column_families_ set)) (fs_stats_ set)) (disk w))
  end.

(** The metadata that the collection shares with the storage. *)
Definition picked_inputs (w : World) (column_family_id : Z) (gc : BlobGC) : list BlobFileMeta :=
  match GetBlobStorage (blob_file_set_ w) column_family_id with
  | Some b => omap (fun n => files_ b !! n) (inputs_ gc)
  | None => []
  end.

Section Handler.
Context (env : Surroundings) `{C : Comparator} `{L : FileLibrary} `{H : HeapTop}.
Context (t : Z) (copts : CompressionOptions).
Context (blob_file_bytes : Z -> bytes) (key0 value0 dev_in dev_out : bytes).

(** With the mutex held before and after. [hardware] says whether there is a
    driver, [q] are its free units. The result has what the scheduler is told. *)
Definition BackgroundGC (fuel : nat) (garbage cu0 : Z) (hardware : bool) (w : World) (q : list Z) (column_family_id : Z)
    : Driver.outcome (Status * World * Pick * list Z) :=
  Driver.obind (Driver.checked (pick_files w column_family_id)) (fun '(blob_gc, w) =>
  match blob_gc with
  | None => Driver.Done (OK, w, NothingToDo, q)
  | Some blob_gc =>
      let job := BlobGCJob_new blob_gc (picked_inputs w column_family_id blob_gc) column_family_id hardware in
      Driver.obind (RunWithDriver env t copts blob_file_bytes key0 value0 dev_in dev_out fuel garbage cu0 w job q)
        (fun '(s, w, job, q) =>
      Driver.checked (w ← ReleaseJob w job s; Some (s, w, Picked (trigger_next_ blob_gc), q)))
  end).
End Handler.

(** What becomes of the queue, with the mutex held again. *)
Definition requeue (db_options_ : TitanDBOptions) (d : DB) (column_family_id : Z) (p : Pick) : DB :=
  match p with
  | NothingToDo => d
  | Picked trigger_next => BackgroundGC_end db_options_ d column_family_id trigger_next
  end.
