(* ===== verification/BackgroundGCSpec.v ===== *)
(** * BackgroundGCSpec: a background collection leaves nothing behind

    The theorem about [BackgroundGC] in software: under the conditions of
    [background_setting] it ends, users do not notice it, and afterwards no file
    is in use by it. *)
From S2P Require Import Prelude Coding Crc32c BitMap BlobFileMeta TitanStats Options VersionEdit BlobStorage BlobStorageProofs EditCollector EditCollectorProofs BlobFileSet BlobFileSetProofs GCScheduler GCPicker BlobFileBuilder BlobFileBuilderProofs BlobFileReader BlobFileReaderProofs BlobFileIterator BlobFileIteratorProofs BlobFileMergeProofs BlobFileSpec GCJob GCJobRun GCJobProofs GCJobBitmaps GCJobSpec HwKernel HwDriver HwJob BackgroundGC BlobFormat.

Local Open Scope Z_scope.
Local Open Scope aegon_scope.

(** ** Picking *)

Lemma PickBlobGC_transit b cf gc b' : PickBlobGC b cf = Some (Some gc, b') ->
  transit_files b (inputs_ gc) kGCBegin = Some b' /\ titan_cf_options_ gc = cf /\ outputs_ gc = [].
Proof.
  unfold PickBlobGC. destruct (pick_loop _ _ _ _) as [p|]; [|done]. cbn [mbind option_bind].
  destruct (_ || _); [done|]. match goal with |- context [if ?c then Some (None, b) else _] => destruct c end; [done|].
  unfold BlobGC_new, MarkFilesBeingGC. cbn [inputs_]. intros H. apply bind_Some in H as ([g b1] & Hb & [= <- <-]).
  apply bind_Some in Hb as (b2 & Ht & [= <- <-]). by split_and!.
Qed.

(** Marking changes states only, and no file becomes obsolete by it. *)
Lemma begin_wf `{C : Comparator} b st l b' : storage_wf b -> stats_ok st b -> transit_files b l kGCBegin = Some b' ->
  storage_wf b' /\ stats_ok st b' /\ cf_id_ b' = cf_id_ b /\ levels_file_count_ b' = levels_file_count_ b.
Proof.
  intros Hb Hst. revert b Hb Hst. induction l as [|n l IH]; intros b Hb Hst H; [by injection H as <-|]. cbn [transit_files] in H.
  apply bind_Some in H as (m & Hm & H). apply bind_Some in H as (m' & Ht & H).
  unfold transit in Ht. apply bind_Some in Ht as (s & Hs & [= <-]). cbn [FileStateTransit] in Hs.
  apply bind_Some in Hs as ([] & Ha & [= <-]). unfold assert in Ha. case_bool_decide as Hn; [|done].
  destruct (update_file_wf b st n m (set_state m kBeingGC) Hb Hst Hm) as [Hb1 Hst1].
  { split_and!; try done. unfold is_obsolete. cbn. by rewrite Hn. }
  destruct (IH _ Hb1 Hst1 H) as (? & ? & -> & ->). by split_and!.
Qed.

(** ** A job in software *)

Section Handler.
Context `{C : Comparator} `{LC : !ComparatorLaws C} `{L : FileLibrary} `{LL : !FileLibraryLaws L}.
Context `{H : HeapTop} `{LH : !HeapTopLaws H}.
Context (env : Surroundings) (t : Z) (copts : CompressionOptions).
Context (blob_file_bytes : Z -> bytes) (key0 value0 dev_in dev_out : bytes).

Lemma RunWithDriver_software fuel garbage cu0 w j q s w' j' :
  gc_offload_ j = false -> RunJob env t copts fuel garbage w j = Some (s, w', j') ->
  RunWithDriver env t copts blob_file_bytes key0 value0 dev_in dev_out fuel garbage cu0 w j q = Driver.Done (s, w', j', q).
Proof.
  intros Hoff H'. unfold RunWithDriver, Run. rewrite Hoff. unfold RunJob in H'.
  apply bind_Some in H' as ([[s1 w1] j1] & -> & H'). cbn [mbind option_bind Driver.checked Driver.obind].
  apply bind_Some in H' as (w2 & -> & H'). cbn [mbind option_bind].
  destruct (ok s1); [rewrite H'|injection H' as <- <- <-]; done.
Qed.

Context (cf : Z) (content : Z * Z -> option bytes) (writes : nat -> gmap bytes (option bytes)) (keep : Prop).
Context (on_disk : gmap Z gc_input) (total : nat).

(** The database before: the normal files of the storage [b] are finished blob
    files on disk with at most [total] records, which the LSM tree refers to by
    their keys; and what the other threads and the file system may do. *)
Record background_setting (w : World) (b : BlobStorage) : Prop := {
  bs_held : mutex_held w = true;
  bs_storage : column_families_ (blob_file_set_ w) !! cf = Some b;
  bs_type : is_byte t;
  bs_options : forall gc files, titan_cf_options_ gc = cf_options b -> options_ok copts (BlobGCJob_new gc files cf false);
  bs_scores : NoDup (BlobStorage.file_number <$> gc_score_ b) /\ scores_known b (gc_score_ b);
  bs_good : files_good cf ∅ 1 False (blob_file_set_ w) (disk w);
  bs_normal : forall n m, files_ b !! n = Some m -> state_ m = kNormal ->
    n < fs_next_file_number_ (blob_file_set_ w) /\ exists g, on_disk !! n = Some g /\ file_size_ m = zlen (in_contents g);
  bs_files : forall n g, on_disk !! n = Some g ->
    in_number g = n /\ input_ok t g /\ in_records g <> [] /\
    NewBlobFileReader env n = Ret (stored (in_contents g) (in_id g)) /\
    Forall (fun e => key_ok (key e.1) /\ encodable t e.1) (in_entries g) /\ stored_entries content (in_entries g);
  bs_count : forall l, NoDup (map in_number l) -> Forall (fun g => on_disk !! in_number g = Some g) l ->
    (length (concat (map in_entries l)) <= total)%nat;
  bs_total : Z.of_nat total <= 2 ^ 30;
  bs_lsm : forall k i g, points (lsm w) k i -> on_disk !! file_number i = Some g ->
    exists e, e ∈ in_entries g /\ key e.1 = k /\ BlobIndex_eqb e.2 i = true;
  bs_others : forall nums, nums ⊆ dom on_disk ->
    others_good env cf nums 1 keep /\ forall outs, others_mark env cf (use_bitmap (cf_options b)) nums outs;
  bs_bitmaps : use_bitmap (cf_options b) = true ->
    keep /\ bits_good cf (blob_file_set_ w) /\ others_entries env cf /\
    forall gs, Forall (fun g => on_disk !! in_number g = Some g) gs ->
      marks_dead cf (input_numbers gs) (input_entries gs) (blob_file_set_ w) (lsm w) /\
      others_mark_dead env cf (input_numbers gs) (input_entries gs);
  bs_errors : plain_errors env;
  bs_references : no_new_references env (dom on_disk);
  bs_users : users_write content writes env;
  bs_writable : forall n, match NewWritableFile env n with Ret f => f = new_file | Fail e => e <> OK end }.

Lemma background_wf w b : background_setting w b -> storage_wf b /\ stats_ok (fs_stats_ (blob_file_set_ w)) b /\ cf_id_ b = cf.
Proof. intros Hw. destruct (fg_wf _ _ _ _ _ _ (bs_good _ _ Hw) _ _ (bs_storage _ _ Hw)) as (? & ? & ?). by split_and!. Qed.

(** The files that were picked, as they are on disk. *)
Lemma picked_on_disk w b l :
  background_setting w b -> (forall n, n ∈ l -> exists m, files_ b !! n = Some m /\ state_ m = kNormal) ->
  exists gs, Forall2 (fun n g => on_disk !! n = Some g) l gs /\ map in_number gs = l.
Proof.
  intros Hw. induction l as [|n l IH]; intros Hl; [by exists []|].
  destruct (Hl n (list_elem_of_here _ _)) as (m & Hm & Hs). destruct (bs_normal _ _ Hw n m Hm Hs) as (_ & g & Hg & _).
  destruct IH as (gs & Hgs & Hn); [intros k Hk; apply Hl; by apply list_elem_of_further|].
  exists (g :: gs). split; [by constructor|]. cbn. destruct (bs_files _ _ Hw n g Hg) as (-> & _). by rewrite Hn.
Qed.

(** What the storage looks like once the files are marked. *)
Definition marked_world (w : World) (b' : BlobStorage) : World :=
  set_files_of w (set_column_families (blob_file_set_ w) (<[cf := b']> (column_families_ (blob_file_set_ w)))
    (fs_stats_ (blob_file_set_ w))) (disk w).

Lemma marked_good w b b' (l : list Z) files' :
  background_setting w b -> transit_files b l kGCBegin = Some b' -> b' = set_files b files' ->
  (forall n, n ∈ l -> exists m, files_ b !! n = Some m /\ state_ m = kNormal) ->
  (forall n, files' !! n = if decide (n ∈ l) then (fun m => set_state m kBeingGC) <$> files_ b !! n else files_ b !! n) ->
  job_good cf (use_bitmap (cf_options b)) (list_to_set l) keep (blob_file_set_ (marked_world w b')) (disk w).
Proof.
  intros Hw Ht Hb' Hl Hf. destruct (background_wf w b Hw) as (Hbw & Hst & Hid).
  destruct (begin_wf b _ l b' Hbw Hst Ht) as (Hbw' & Hst' & Hid' & Hlv').
  destruct (bs_good _ _ Hw) as [Hwf Hk Hn _ _ (b0 & Hb0 & Hlv & Hlive)].
  assert (b0 = b) as -> by (pose proof (bs_storage _ _ Hw); congruence).
  assert (column_families_ (blob_file_set_ (marked_world w b')) !! cf = Some b') as Hcf by apply lookup_insert_eq.
  split; [split|].
  - intros c x Hx. cbn in Hx. apply lookup_insert_Some in Hx as [[<- <-]|[_ Hx]]; [|by apply Hwf].
    split; [congruence|]. by split.
  - exact Hk.
  - exact Hn.
  - intros _ x n Hx Hin. rewrite Hcf in Hx. injection Hx as <-. apply elem_of_list_to_set in Hin.
    destruct (Hl n Hin) as (m & Hm & _). rewrite Hb'. cbn [files_ set_files]. rewrite Hf, decide_True, Hm by done.
    eexists. split; [reflexivity|]. done.
  - intros n Hin%elem_of_list_to_set. destruct (Hl n Hin) as (m & Hm & Hs). by destruct (bs_normal _ _ Hw n m Hm Hs).
  - exists b'. split; [done|]. split; [by rewrite Hlv'|]. intros n m. rewrite Hb'. cbn [files_ set_files]. rewrite Hf.
    destruct (decide _); [|apply Hlive]. intros (m0 & Hm0 & ->)%fmap_Some. exact (Hlive n m0 Hm0).
  - split.
    2:{ intros Hu x n m Hx. rewrite Hcf in Hx. injection Hx as <-. destruct (bs_bitmaps _ _ Hw Hu) as (_ & Hbits & _).
        rewrite Hb'. cbn [files_ set_files]. rewrite Hf. destruct (decide _); [|by apply (Hbits b n)].
        intros (m0 & Hm0 & ->)%fmap_Some. exact (Hbits b n m0 Hb0 Hm0). }
    intros states Hs. rewrite (file_states_storage _ _ _ Hcf) in Hs. injection Hs as <-. split; [|by intros n Hin%elem_of_empty].
    intros n st Hin%elem_of_list_to_set. rewrite Hb', lookup_fmap. cbn [files_ set_files]. rewrite Hf, decide_True by done.
    destruct (files_ b !! n); [|done]. cbn. intros [= <-]. by left.
Qed.

(** ... and so do the bitmaps of the files. *)
Lemma marked_dead w b b' (l : list Z) files' nums es :
  column_families_ (blob_file_set_ w) !! cf = Some b -> b' = set_files b files' ->
  (forall n, files' !! n = if decide (n ∈ l) then (fun m => set_state m kBeingGC) <$> files_ b !! n else files_ b !! n) ->
  marks_dead cf nums es (blob_file_set_ w) (lsm w) -> marks_dead cf nums es (blob_file_set_ (marked_world w b')) (lsm w).
Proof.
  intros Hb -> Hf Hd x n m e Hx Hn Hm. assert (x = set_files b files') as -> by (cbn in Hx; rewrite lookup_insert_eq in Hx; congruence).
  cbn [files_ set_files] in Hm. rewrite Hf in Hm. destruct (decide _); [|by apply (Hd b n)].
  apply fmap_Some in Hm as (m0 & Hm0 & ->). exact (Hd b n m0 e Hb Hn Hm0).
Qed.

(** The records of the files that were picked. *)
Lemma picked_entry (l : list Z) gs e :
  Forall2 (fun n g => on_disk !! n = Some g) l gs -> e ∈ input_entries gs ->
  exists n g, n ∈ l /\ on_disk !! n = Some g /\ e ∈ in_entries g.
Proof.
  intros Hgs He. unfold input_entries in He. apply list_elem_of_In, in_concat in He as (es & Hes & He).
  apply list_elem_of_In, list_elem_of_fmap in Hes as (g & -> & Hg). apply list_elem_of_lookup in Hg as [i Hi].
  destruct (Forall2_lookup_r _ _ _ _ _ Hgs Hi) as (n & Hn & Hg). exists n, g.
  split; [by eapply list_elem_of_lookup_2|]. split; [done|]. by apply list_elem_of_In.
Qed.

Lemma picked_metas w b b' l files' gs :
  background_setting w b -> b' = set_files b files' ->
  (forall n, n ∈ l -> exists m, files_ b !! n = Some m /\ state_ m = kNormal) ->
  (forall n, n ∈ l -> files' !! n = (fun m => set_state m kBeingGC) <$> files_ b !! n) ->
  Forall2 (fun n g => on_disk !! n = Some g) l gs ->
  Forall2 (input_of env) (omap (fun n => files_ b' !! n) l) gs.
Proof.
  intros Hw -> Hl Hf Hgs. cbn [files_ set_files]. induction Hgs as [|n g l gs Hg _ IH]; [constructor|].
  destruct (Hl n (list_elem_of_here _ _)) as (m & Hm & Hs). cbn [omap list_omap].
  rewrite Hf, Hm by apply list_elem_of_here. cbn [fmap option_fmap option_map]. constructor.
  - destruct (bs_normal _ _ Hw n m Hm Hs) as (_ & g' & Hg' & Hsz). assert (g' = g) as -> by congruence.
    destruct (bs_files _ _ Hw n g Hg) as (Hn & _ & _ & Hr & _). destruct (background_wf w b Hw) as (Hbw & _).
    split_and!; [cbn; rewrite (wf_number _ Hbw _ _ Hm); done|exact Hsz|by rewrite Hn].
  - apply IH; intros k Hk; [apply Hl|apply Hf]; by apply list_elem_of_further.
Qed.

(** Picking leaves the job with the files it needs. *)
Lemma pick_setting w b gc b' files' :
  background_setting w b -> transit_files b (inputs_ gc) kGCBegin = Some b' -> b' = set_files b files' ->
  titan_cf_options_ gc = cf_options b -> outputs_ gc = [] -> NoDup (inputs_ gc) -> inputs_ gc <> [] ->
  (forall n, n ∈ inputs_ gc -> exists m, files_ b !! n = Some m /\ state_ m = kNormal) ->
  (forall n, files' !! n = if decide (n ∈ inputs_ gc) then (fun m => set_state m kBeingGC) <$> files_ b !! n else files_ b !! n) ->
  let w' := marked_world w b' in
  exists gs, input_numbers gs = list_to_set (inputs_ gc) /\ (length (input_entries gs) <= total)%nat /\
    Forall2 (fun n g => on_disk !! n = Some g) (inputs_ gc) gs /\
    gc_setting env t copts gs (BlobGCJob_new gc (picked_inputs w' cf gc) cf false) content writes keep w'.
Proof.
  intros Hw Ht Hb' Ho Hout Hnd Hne Hl Hf w'. destruct (picked_on_disk w b (inputs_ gc) Hw Hl) as (gs & Hgs & Hnum).
  assert (input_numbers gs = list_to_set (inputs_ gc)) as Hin by (unfold input_numbers; by rewrite Hnum).
  assert (Forall (fun g => on_disk !! in_number g = Some g) gs) as Hall.
  { apply Forall_lookup. intros i g Hi. destruct (Forall2_lookup_r _ _ _ _ _ Hgs Hi) as (n & _ & Hg).
    by destruct (bs_files _ _ Hw n g Hg) as (-> & _). }
  assert (NoDup (map in_number gs)) as Hndg by by rewrite Hnum.
  pose proof (bs_count _ _ Hw gs Hndg Hall) as Hcount. change (concat (map in_entries gs)) with (input_entries gs) in Hcount.
  exists gs. split; [done|]. split; [done|]. split; [done|].
  assert (list_to_set (inputs_ gc) ⊆ dom on_disk) as Hsub.
  { intros n Hn%elem_of_list_to_set. apply list_elem_of_lookup in Hn as [i Hi].
    destruct (Forall2_lookup_l _ _ _ _ _ Hgs Hi) as (g & _ & Hg). by apply elem_of_dom_2 in Hg. }
  destruct (bs_others _ _ Hw _ Hsub) as [Hothers Hmarks].
  assert (forall e, e ∈ input_entries gs -> exists n g, in_number g = n /\ on_disk !! n = Some g /\ e ∈ in_entries g) as Hent.
  { intros e He. destruct (picked_entry _ _ e Hgs He) as (n & g & _ & Hg & Heg). exists n, g. by destruct (bs_files _ _ Hw n g Hg). }
  split; rewrite ?Hin; cbn [cf_id BlobGCJob_new blob_gc_ inputs];
    [by apply (bs_options _ _ Hw)|exact (bs_type _ _ Hw)|done|exact Hout| | |exact Hndg| | | | |exact (bs_held _ _ Hw)| | |
     exact Hothers|by rewrite Ho| |exact (bs_errors _ _ Hw)| |exact (bs_users _ _ Hw)|exact (bs_writable _ _ Hw)].
  - apply Forall_forall. intros g Hg. rewrite Forall_forall in Hall. by destruct (bs_files _ _ Hw _ g (Hall g Hg)) as (_ & ? & _).
  - unfold picked_inputs, GetBlobStorage, w', marked_world. cbn [blob_file_set_ set_files_of column_families_ set_column_families].
    rewrite lookup_insert_eq. apply (picked_metas w b b' _ files'); try done. intros n Hn. by rewrite Hf, decide_True.
  - destruct gs as [|g gs]; [by inversion Hgs as [Hx|]; rewrite <- Hx in Hne|]. apply Forall_cons in Hall as [Hg _].
    destruct (bs_files _ _ Hw _ g Hg) as (_ & _ & Hr & _). unfold input_entries, in_entries, entries. cbn.
    destruct (in_records g) as [|r rs]; [done|]. by destruct r.
  - pose proof (bs_total _ _ Hw). unfold zlen. lia.
  - apply Forall_forall. intros e He. destruct (Hent e He) as (n & g & _ & Hg & Heg).
    destruct (bs_files _ _ Hw n g Hg) as (_ & _ & _ & _ & Hok & _). rewrite Forall_forall in Hok. by apply Hok.
  - intros e He. destruct (Hent e He) as (n & g & _ & Hg & Heg). destruct (bs_files _ _ Hw n g Hg) as (_ & _ & _ & _ & _ & Hst).
    by apply Hst.
  - rewrite Ho. by apply (marked_good w b b' _ files').
  - intros k i Hp Hi%elem_of_list_to_set. apply list_elem_of_lookup in Hi as [x Hx].
    destruct (Forall2_lookup_l _ _ _ _ _ Hgs Hx) as (g & Hgx & Hg). destruct (bs_lsm _ _ Hw k i g Hp Hg) as (e & He & Hk).
    exists e. split; [|exact Hk]. unfold input_entries. apply list_elem_of_In, in_concat. exists (in_entries g).
    split; [|by apply list_elem_of_In]. apply list_elem_of_In, list_elem_of_fmap. exists g. split; [done|]. by eapply list_elem_of_lookup_2.
  - rewrite Ho. intros Hu. destruct (bs_bitmaps _ _ Hw Hu) as (Hk & _ & He & Hd). destruct (Hd gs Hall) as [Hd1 Hd2].
    split; [done|done| |done]. by apply (marked_dead w b b' (inputs_ gc) files'); [apply (bs_storage _ _ Hw)|..].
  - intros n tr k i Hp Hi. apply (bs_references _ _ Hw n tr k i Hp). by apply Hsub.
Qed.

(** ** The handler *)

Lemma marked_same w b : column_families_ (blob_file_set_ w) !! cf = Some b -> marked_world w b = w.
Proof.
  intros Hb. unfold marked_world. rewrite insert_id by done. destruct w as [l s d p e m c]. by destruct s.
Qed.

(** A file that was released. *)
Definition free (st : option FileState) : Prop := st = None \/ st = Some kNormal \/ st = Some kObsolete.

Lemma free_released st : free (release_state <$> st).
Proof. unfold free, release_state. destruct st as [st|]; [|by left]. cbn. destruct (decide _); tauto. Qed.

(** What a collection that was picked leaves. *)
Record collection_over (w w1 w' : World) (gc : BlobGC) (gs : list gc_input) (j : BlobGCJob) (s : Status) : Prop := {
  co_inputs : forall n, n ∈ inputs_ gc -> free (file_state cf (blob_file_set_ w') n);
  co_outputs : forall n, n ∈ outputs_ (blob_gc_ j) -> file_state cf (blob_file_set_ w') n = Some kNormal \/
    file_state cf (blob_file_set_ w') n = Some kObsolete;
  co_retired : s = OK -> (forall n, IsDropped env n = false) ->
    forall n, n ∈ inputs_ gc -> file_state cf (blob_file_set_ w') n = None \/ file_state cf (blob_file_set_ w') n = Some kObsolete;
  co_kept : keep -> s <> OK -> forall n, n ∈ inputs_ gc -> file_state cf (blob_file_set_ w') n = Some kNormal;
  co_error : s <> OK -> bg_error_ w' = s;
  co_invisible : outputs_stored t content (input_entries gs) j ->
    user_changed content writes (moment w) (moment w') /\
    (s = OK -> forall k i, points (lsm w') k i -> BlobFormat.file_number i ∉ inputs_ gc) }.

Lemma collection_released w w1 gc gs j files s :
  let j0 := BlobGCJob_new gc files cf false in
  map file_number_ files = inputs_ gc -> NoDup (inputs_ gc) -> input_numbers gs = list_to_set (inputs_ gc) ->
  releasable (input_numbers gs) j0 w1 j ->
  (keep -> s <> OK -> inputs_live cf (input_numbers gs) (blob_file_set_ w1)) ->
  (s = OK -> (forall n, IsDropped env n = false) -> inputs_retired j0 (blob_file_set_ w1)) ->
  (outputs_stored t content (input_entries gs) j ->
     user_changed content writes (moment w) (moment w1) /\
     (s = OK -> forall k i, points (lsm w1) k i -> BlobFormat.file_number i ∉ input_numbers gs)) ->
  exists w', ReleaseJob w1 j s = Some w' /\ mutex_held w' = mutex_held w1 /\ collection_over w w1 w' gc gs j s.
Proof.
  intros j0 Hnum Hnd Hin Hrel Hlive Hret Hinv.
  destruct (ReleaseJob_spec (input_numbers gs) j0 w1 j s Hrel Hin Hnd) as (w' & Hr & Hmom & Hmx & Hbg & Hst).
  pose proof Hrel as (_ & _ & _ & [b1 Hb1] & Hmk). cbn [cf_id j0 BlobGCJob_new] in Hb1, Hmk, Hst. cbn [blob_gc_ BlobGCJob_new j0] in Hst.
  destruct (fm_states _ _ _ _ _ Hmk _ (file_states_storage _ _ _ Hb1)) as [Hmi Hmo].
  assert (forall n, file_state cf (blob_file_set_ w1) n = state_ <$> files_ b1 !! n) as Hfs.
  { intros n. unfold file_state. rewrite (file_states_storage _ _ _ Hb1). cbn [mbind option_bind]. apply lookup_fmap. }
  exists w'. split; [done|]. split; [done|]. split.
  - intros n Hn. rewrite Hst, decide_True by by left. apply free_released.
  - intros n Hn. rewrite Hst, decide_True by by right. rewrite Hfs, <- lookup_fmap.
    destruct (Hmo n) as [-> | ->]; [by apply elem_of_list_to_set|by left|by right].
  - intros Hs Hd n Hn. rewrite Hst, decide_True by by left. rewrite Hfs. rewrite <- Hnum in Hn.
    apply list_elem_of_fmap in Hn as (f & -> & Hf). destruct (files_ b1 !! file_number_ f) as [m|] eqn:Hm; [|by left]. right.
    pose proof (Hret Hs Hd b1 f m Hb1 Hf Hm) as Ho. unfold is_obsolete in Ho. apply bool_decide_eq_true in Ho. cbn. by rewrite Ho.
  - intros Hk Hs n Hn. rewrite Hst, decide_True by by left. rewrite Hfs.
    assert (n ∈ input_numbers gs) as Hn' by (rewrite Hin; by apply elem_of_list_to_set).
    destruct (Hlive Hk Hs b1 n Hb1 Hn') as (m & Hm & Ho). rewrite Hm. cbn. unfold release_state, is_obsolete in *.
    apply bool_decide_eq_false in Ho. by rewrite decide_False.
  - exact Hbg.
  - intros Hout. destruct (Hinv Hout) as [Hu Hp]. rewrite Hmom. split; [done|]. intros Hs k i Hpt Hi.
    injection Hmom as _ Hl. rewrite Hl in Hpt. apply (Hp Hs k i Hpt). rewrite Hin. by apply elem_of_list_to_set.
Qed.

(** C3: a background collection in software, under the conditions of
    [background_setting], leaves nothing behind. It ends, with the mutex held,
    whatever the other threads do in between and whichever read or write of the
    LSM tree, creation of an output, sync, close or write of the manifest fails.
    When the picker finds nothing the database is as it was. Otherwise the job
    runs on the files that were picked, and afterwards none of them, nor any
    output, is still in use: each is in the normal state, obsolete, or has left
    the storage. After a success the inputs are obsolete or gone, unless the
    column family was dropped; after a failure the error is that of the database, and the
    inputs are in the normal state again if nobody has removed them. The users read what
    they read before with their own writes applied, and after a success nothing
    refers to the inputs.

    The conditions are those of the job, for every file that the picker may
    choose: the normal files are finished files that can be opened and read whole,
    with at most 2^30 records that a collection sees and no empty key; an output
    that was created takes every append; with [use_bitmap] nobody removes the
    files while the collection runs (it would not end then) and the bits are set
    only for records that nothing refers to; the other threads write user data
    only, keep the blob file set well-formed and the files of the collection in
    their states, and never make a key refer to these files anew; [NotFound] and
    [Busy] are no errors of reads and writes. *)
Theorem background_gc_settles w b fuel garbage cu0 q :
  background_setting w b -> cf ∉ obsolete_columns_ (blob_file_set_ w) -> (total <= fuel)%nat ->
  exists s w' p, BackgroundGC env t copts blob_file_bytes key0 value0 dev_in dev_out fuel garbage cu0 false w q cf
      = Driver.Done (s, w', p, q) /\ mutex_held w' = true /\
    match p with
    | NothingToDo => s = OK /\ w' = w /\ PickBlobGC b (cf_options b) = Some (None, b)
    | Picked trigger => exists gc b1 w1 gs j,
        PickBlobGC b (cf_options b) = Some (Some gc, b1) /\ trigger = trigger_next_ gc /\
        Forall2 (fun n g => on_disk !! n = Some g) (inputs_ gc) gs /\
        RunJob env t copts fuel garbage (marked_world w b1)
          (BlobGCJob_new gc (picked_inputs (marked_world w b1) cf gc) cf false) = Some (s, w1, j) /\
        collection_over w w1 w' gc gs j s
    end.
Proof.
  intros Hw Hcf Hfuel. destruct (bs_scores _ _ Hw) as [Hsn Hsk].
  destruct (pick_known b (cf_options b) Hsn Hsk) as (r & files' & Hp & Hnd & Hl & Hout & Hf).
  assert (pick_files w cf = Some (r, marked_world w (set_files b files'))) as Hpf.
  { unfold pick_files, IsColumnFamilyObsolete, GetBlobStorage. rewrite bool_decide_false by done.
    by rewrite (bs_storage _ _ Hw), Hp. }
  unfold BackgroundGC. rewrite Hpf. cbn [Driver.checked Driver.obind]. destruct r as [gc|].
  - destruct (PickBlobGC_transit _ _ _ _ Hp) as (Ht & Ho & _). destruct (Hout gc eq_refl) as [Hno Hne].
    destruct (pick_setting w b gc _ files' Hw Ht eq_refl Ho Hno Hnd Hne Hl Hf) as (gs & Hin & Hlen & Hgs & Hset).
    destruct (RunJob_settles env t copts gs _ content writes keep _ fuel garbage Hset) as
      (s & w1 & j & Hrun & Hm1 & Hrel & Hlive & Hret & Hinv); [lia|].
    erewrite RunWithDriver_software by first [exact Hrun|reflexivity]. cbn [Driver.obind].
    assert (map file_number_ (picked_inputs (marked_world w (set_files b files')) cf gc) = inputs_ gc) as Hnum.
    { pose proof (gs_inputs _ _ _ _ _ _ _ _ _ Hset) as Hio. cbn [inputs BlobGCJob_new] in Hio.
      clear -Hio Hgs Hw. revert Hio Hgs. generalize (picked_inputs (marked_world w (set_files b files')) cf gc) (inputs_ gc).
      intros fs l Hio. revert l. induction Hio as [|f g fs gs (Hn & _) _ IH]; intros l Hgs; [by inversion Hgs|].
      apply Forall2_cons_inv_r in Hgs as (n & l' & Hg & Hgs & ->). cbn. rewrite Hn, (IH l' Hgs). by destruct (bs_files _ _ Hw n g Hg) as [-> _]. }
    destruct (collection_released w w1 gc gs j _ s Hnum Hnd Hin Hrel Hlive Hret Hinv) as (w' & -> & Hm' & Hover).
    cbn [mbind option_bind Driver.checked]. exists s, w', (Picked (trigger_next_ gc)). split; [done|]. split; [by rewrite Hm'|].
    exists gc, (set_files b files'), w1, gs, j. by split_and!.
  - assert (set_files b files' = b) as Hb.
    { destruct b. unfold set_files. cbn in *. f_equal. apply map_eq. intros n. rewrite Hf. by rewrite decide_False by apply not_elem_of_nil. }
    rewrite Hb in *. rewrite marked_same by apply Hw. exists OK, w, NothingToDo. split; [done|]. by rewrite (bs_held _ _ Hw).
Qed.
End Handler.
