(* ===== verification/BackgroundGCExample.v ===== *)
(** * BackgroundGCExample: a background collection of a concrete database

    The database of [GCJobExample] before its file is picked. *)
From S2P Require Import Prelude Coding Crc32c BitMap BlobFileMeta TitanStats Options VersionEdit BlobStorage BlobStorageProofs EditCollector EditCollectorProofs BlobFileSet BlobFileSetProofs BlobFileSetSpec GCScheduler GCPicker BlobFileBuilder BlobFileBuilderProofs BlobFileReader BlobFileReaderProofs BlobFileIterator BlobFileIteratorProofs BlobFileMergeProofs BlobFileSpec GCJob GCJobRun GCJobProofs GCJobBitmaps GCJobSpec GCJobExample HwDriver BackgroundGC BackgroundGCSpec BlobFormat.

Local Open Scope Z_scope.
Local Open Scope aegon_scope.

#[local] Existing Instance BytewiseComparator.
#[local] Existing Instance demo_library.
#[local] Existing Instance demo_library_laws.
#[local] Existing Instance job_heap.
#[local] Existing Instance job_heap_laws.

Definition idle_world : World := GCJob.mkWorld job_lsm (job_files kNormal) job_logged.2 ∅ OK true 0.

Definition idle_storage : BlobStorage := update_file job_storage 2 (job_blob kNormal).

Lemma idle_picked : PickBlobGC idle_storage (cf_options idle_storage)
  = Some (Some (mkGC [2] [] job_options false), update_file job_storage 2 (job_blob kBeingGC)).
Proof. vm_compute. reflexivity. Qed.

Lemma idle_marked : marked_world 0 idle_world (update_file job_storage 2 (job_blob kBeingGC)) = job_world.
Proof.
  unfold marked_world, idle_world, job_world, job_files, set_files_of. cbn [blob_file_set_ lsm disk pending_outputs_ bg_error_ mutex_held clock].
  unfold set_column_families at 1 3. cbn [column_families_ fs_stats_ set_column_families obsolete_manifests_ obsolete_columns_ manifest_
    fs_next_file_number_ manifest_file_number_]. by rewrite insert_insert_eq.
Qed.

(** A collection of the only file there is. *)
Lemma single_file dict l : NoDup (map in_number l) ->
  Forall (fun g => ({[2 := job_gc_input dict]} : gmap Z gc_input) !! in_number g = Some g) l ->
  l = [] \/ l = [job_gc_input dict].
Proof.
  intros Hnd Hall. assert (Forall (fun g => g = job_gc_input dict) l) as Hl.
  { eapply Forall_impl; [exact Hall|]. by intros g [_ <-]%lookup_singleton_Some. }
  destruct l as [|g [|g2 l]]; [by left| |]; apply Forall_cons in Hl as [-> Hl]; [by right|].
  apply Forall_cons in Hl as [-> _]. cbn in Hnd. apply NoDup_cons in Hnd as [Hn _]. destruct Hn. apply list_elem_of_here.
Qed.

(** Every record is one of the only file. *)
Lemma idle_entry dict gs e :
  Forall (fun g => ({[2 := job_gc_input dict]} : gmap Z gc_input) !! in_number g = Some g) gs ->
  e ∈ input_entries gs -> e ∈ input_entries [job_gc_input dict].
Proof.
  intros Hall (g & r & h & Hg & Hr & ->)%input_entry. rewrite Forall_forall in Hall.
  pose proof (Hall g Hg) as Hl. apply lookup_singleton_Some in Hl as [_ <-]. unfold input_entries. cbn [map concat].
  rewrite app_nil_r. unfold in_entries, entries. apply list_elem_of_fmap. by exists (r, h).
Qed.

Lemma idle_number dict gs e :
  Forall (fun g => ({[2 := job_gc_input dict]} : gmap Z gc_input) !! in_number g = Some g) gs ->
  e ∈ input_entries gs -> BlobFormat.file_number e.2 = 2.
Proof.
  intros Hall He. apply (idle_entry dict gs e Hall) in He. cbn in He.
  repeat (apply elem_of_cons in He as [->|He]; [reflexivity|]). by apply elem_of_nil in He.
Qed.

Lemma idle_dead dict gs n m e x :
  Forall (fun g => ({[2 := job_gc_input dict]} : gmap Z gc_input) !! in_number g = Some g) gs ->
  column_families_ (blob_file_set_ idle_world) !! 0 = Some x -> files_ x !! n = Some m -> e ∈ input_entries gs ->
  0 <= BlobFormat.index (blob_handle e.2) <= file_entries_ m /\
  (invalid m (BlobFormat.index (blob_handle e.2)) = true -> dead job_lsm e).
Proof.
  intros Hall Hx Hm He. apply (idle_entry dict gs e Hall) in He as He'. destruct (job_files_lookup kNormal) as [Hb Hf].
  pose proof (eq_trans (eq_sym Hx) Hb) as E. apply Some_inj in E. subst x. rewrite Hf in Hm.
  clear -Hm He'. apply lookup_singleton_Some in Hm as [_ <-]. destruct (job_second dict e He') as [Hi Hk].
  split; [exact Hi|]. intros Hb. exact (job_unreferenced e (Hk Hb)).
Qed.

Lemma idle_setting dict :
  is_Some dict -> blob_file 1 2 dict (zip (records demo_ops) job_handles) job_contents ->
  background_setting job_env 1 demo_copts 0 job_content job_writes True {[2 := job_gc_input dict]} 3 idle_world idle_storage.
Proof.
  intros Hd Hf. pose proof (job_setting true dict Hd Hf) as Hj. pose proof (proj1 (job_files_lookup kNormal)) as Hb.
  assert (files_ idle_storage = {[2 := job_blob kNormal]}) as Hfl by exact (proj2 (job_files_lookup kNormal)).
  assert (input_numbers [job_gc_input dict] = {[2]}) as Hn by (unfold input_numbers; cbn; by rewrite union_empty_r_L).
  assert (dom ({[2 := job_gc_input dict]} : gmap Z gc_input) = {[2]}) as Hdom by apply dom_singleton_L.
  pose proof (job_files_good kNormal eq_refl) as [Hwf Hk Hnx _ _ Hst].
  split; rewrite ?Hdom.
  - reflexivity.
  - exact Hb.
  - by split.
  - intros gc files Ho. destruct (gs_options _ _ _ _ _ _ _ _ _ Hj) as [H1 H2]. split; cbn [blob_gc_ BlobGCJob_new] in *; rewrite ?Ho; [exact H1|exact H2].
  - split; [vm_compute; repeat constructor; apply not_elem_of_nil|]. vm_compute. constructor; [|constructor].
    eexists. split; [reflexivity|]. by split.
  - split; [exact Hwf|exact Hk|exact Hnx|intros []|intros n Hx; destruct (not_elem_of_empty (C := gset Z) n Hx)|exact Hst].
  - clear -Hfl. intros n m Hm _. rewrite Hfl in Hm. apply lookup_singleton_Some in Hm as [<- <-]. split; [vm_compute; reflexivity|].
    exists (job_gc_input dict). split; [apply lookup_singleton_eq|reflexivity].
  - clear -Hj. intros n g [<- <-]%lookup_singleton_Some. destruct Hj as [_ _ _ _ Hok _ _ _ _ Hrec Hsto _ _ _ _ _ _ _ _ _ _].
    unfold input_entries in Hrec, Hsto. cbn [map concat] in Hrec, Hsto. rewrite app_nil_r in Hrec, Hsto.
    apply Forall_cons in Hok as [Hok _]. split_and!; [done|exact Hok|discriminate|reflexivity|exact Hrec|exact Hsto].
  - clear. intros l Hnd Hall. destruct (single_file dict l Hnd Hall) as [-> | ->]; cbn; lia.
  - clear. lia.
  - clear -Hj Hn. intros k i g Hp Hg. apply lookup_singleton_Some in Hg as [Hi <-].
    destruct (gs_lsm _ _ _ _ _ _ _ _ _ Hj k i Hp) as (e & He & Hke); [rewrite Hn, <- Hi; by apply elem_of_singleton|].
    exists e. split; [|exact Hke]. unfold input_entries in He. cbn [map concat] in He. by rewrite app_nil_r in He.
  - clear. intros nums Hs. split; [|intros outs n s d [H1 H2]; by split]. intros n s d [Hwf' Hk' Hnx' Hkept Hin Hst']. cbn. split; [|lia].
    split; cbn; [done|done|lia|done| |done]. intros x Hx. pose proof (Hin x Hx). apply Hs in Hx. apply elem_of_singleton in Hx as ->. lia.
  - clear -Hj. intros _. split; [done|]. split; [apply job_bits_good|]. split; [exact job_entries|]. intros gs Hall. split.
    + intros x n m e Hx _ Hm He _. destruct (idle_dead dict gs n m e x Hall Hx Hm He) as [Hi Hdead]. by split.
    + intros n s d tr Hmd x k m e Hx Hk Hm He Hf. destruct (Hmd x k m e Hx Hk Hm He Hf) as [Hi Hdead]. split; [done|]. intros Hinv.
      apply (dead_others job_env {[2]}); [exact job_references| |by apply Hdead]. rewrite (idle_number dict gs e Hall He). set_solver.
  - exact (gs_errors _ _ _ _ _ _ _ _ _ Hj).
  - exact job_references.
  - exact job_users.
  - exact (gs_writable _ _ _ _ _ _ _ _ _ Hj).
Qed.

(** The only file is picked; the job ends well, the input is obsolete or gone,
    and the users notice nothing but their own writes. *)
Lemma background_gc_settles_witness :
  exists w', BackgroundGC job_env 1 demo_copts (fun _ => []) [] [] [] [] 3 0 0 false idle_world [] 0
      = Driver.Done (OK, w', Picked false, []) /\
    (file_state 0 (blob_file_set_ w') 2 = None \/ file_state 0 (blob_file_set_ w') 2 = Some kObsolete) /\
    user_changed job_content job_writes (moment idle_world) (moment w').
Proof.
  destruct job_input as (dict & Hd & Hf).
  destruct (background_gc_settles job_env 1 demo_copts (fun _ => []) [] [] [] [] 0 job_content job_writes True
    {[2 := job_gc_input dict]} 3 idle_world idle_storage 3 0 0 [] (idle_setting dict Hd Hf)) as (s & w' & p & Hrun & _ & Hp).
  - assert (bool_decide (0 ∈ obsolete_columns_ (blob_file_set_ idle_world)) = false) as E by (vm_compute; reflexivity).
    by apply bool_decide_eq_false in E.
  - lia.
  - destruct p as [|trigger].
    { destruct Hp as (_ & _ & Hpick). rewrite idle_picked in Hpick. discriminate Hpick. }
    destruct Hp as (gc & b1 & w1 & gs & j & Hpick & Htr & Hgs & Hjob & Hover). rewrite idle_picked in Hpick.
    injection Hpick as <- <-. cbn [trigger_next_] in Htr. subst trigger. rewrite idle_marked in Hjob.
    assert (job_result true = Some (s, w1, j)) as Hres by exact Hjob.
    assert (gs = [job_gc_input dict]) as ->.
    { cbn [inputs_] in Hgs. apply Forall2_cons_inv_l in Hgs as (g & gs' & Hg & Hgs & ->).
      apply Forall2_nil_inv_l in Hgs as ->. by apply lookup_singleton_Some in Hg as [_ <-]. }
    pose proof (job_result_read true) as Hread. rewrite Hres in Hread. destruct Hread as [-> _].
    destruct Hover as [_ _ Hret _ _ Hinv]. exists w'. split; [exact Hrun|]. split.
    + apply (Hret eq_refl (fun _ => eq_refl) 2), list_elem_of_here.
    + exact (proj1 (Hinv (job_outputs_stored true dict _ _ _ Hres))).
Defined.
